(* ===== verification/_CoqProject ===== *)
-Q . S2P
Prelude.v
Nom.v
Parsing.v
Std.v
Crates.v
CommonParser.v
NetflowV5.v
TemplateCache.v
IERegistry.v
InformationElement.v
DataRecord.v
NetflowV9.v
IpfixTypes.v
ElementTypes.v
Ipfix.v
IpfixEncoder.v
SflowV5.v
SflowWire.v
CryptoPan.v
CommonFlow.v
Convert.v
ConvertV5.v
ConvertV9.v
Etherparse.v
Packet.v
ConvertPacket.v
ConvertIpfix.v
ConvertSflow.v
Processor.v
ProcessorFacts.v
ProcessorInv.v
ProcessorFlows.v
Sampler.v
FlowCache.v
FlowCacheFacts.v
FlowAccounting.v
FlowParse.v
Meter.v
Ring.v
ExportIpfix.v
Exporter.v
ExporterFacts.v
ExportRun.v
ExportWire.v
Calendar.v
Layout.v
LayoutFacts.v
Storage.v
Destination.v
DestinationFacts.v
SinkConfig.v
SinkWindows.v
Encoder.v
Ndjson.v
Sink.v
SinkFacts.v
SinkSamples.v
Text.v
EnrichTables.v
EnrichConfig.v
EnrichEngine.v
EnrichFacts.v
EnrichEngineFacts.v
Pipeline.v
PipelineRun.v
PipelineFacts.v
Hook.v
HookFacts.v
Expiry.v
ExpiryFacts.v
SinkBuild.v
Source.v
Collect.v
CollectFacts.v
Generate.v
GenerateFacts.v
Readers.v
RowEncoders.v
Columns.v
Command.v
