(* ===== verification/Prelude.v ===== *)
(** * rustflow: a model of the flow collector's core and what it promises

    rustflow reads NetFlow v5, NetFlow v9, IPFIX and sFlow v5 datagrams, keeps
    the templates, learned elements and sampling rates each exporter announced,
    and turns every data record or packet sample into one common flow record,
    which its collector enriches and writes to a tree of files; its exporter
    meters packets and sends flows, and its generator makes them up.  This
    library translates that program from the Rust sources under [src/crates]
    into executable definitions, one file per component, and proves what each
    component and their composition promise.

    ** Parts and how they interact

    A datagram enters [Processor] (rustflow/src/processor.rs), which looks at
    the version in the leading octets, finds or makes the exporter it came
    from, and lets that exporter's parser read it.  The parsers of NetFlow v9
    and IPFIX keep their templates in [TemplateCache], resolve them against
    [IERegistry] and, for IPFIX, against what [ElementTypes] learned; parsers
    read octets with nom ([Nom], [Parsing], [CommonParser]).  The options of a
    packet update the domain they belong to; then the conversions
    ([ConvertV5], [ConvertV9], [ConvertIpfix], [ConvertSflow]) turn each data
    record into a [CommonFlow], reading embedded packets with [Packet] and
    [ConvertPacket].  [Readers] is the library's way in.

    In the collector every ingest thread ([Source], [Collect]) hands what its
    processor gives to a producer, which sends chunks down a bounded channel
    to the one encoder thread ([Pipeline], [PipelineRun]); that enriches flows
    from tables ([EnrichEngine]) and writes them through an encoder into the
    sink's current file ([Sink]), which closes files as their windows end and
    hands them to a hook and a sweep ([Hook], [Expiry]).

    In the exporter frames come off a ring the kernel fills ([Ring]), are
    sampled and metered into a flow cache ([Meter], [FlowCache]), and what
    expires is sent as IPFIX messages ([Exporter], [ExportRun]).

    ** Files and sources

    Foundations: this file (octets, integers of a width, lists, sums over
    maps), [Std] (clock, checked conversions, UTF-8), [Nom] and [Crates] and
    [Etherparse] (interfaces of third-party crates, with instances), [Parsing]
    (rules for parsers: what they consume, leave and return).

    Under rustflow_core/src:
    - [CommonParser]: common/parser.rs; [TemplateCache]:
      common/template_cache.rs; [IERegistry]: common/ie_registry.rs with the
      whole IANA table; [InformationElement]: common/information_element.rs;
      [DataRecord]: common/data_record.rs; [CryptoPan]: common/cryptopan.rs;
    - [NetflowV5]: netflow_v5/parser.rs and encoder.rs; [NetflowV9]:
      netflow_v9/parser.rs; [IpfixTypes] and [Ipfix]: ipfix/parser.rs;
      [ElementTypes]: ipfix/element_types.rs; [IpfixEncoder]: ipfix/encoder.rs;
      [SflowV5]: sflow_v5/parser.rs, and [SflowWire], the wire format that
      parser is measured against;
    - [CommonFlow]: common/common_flow.rs; [Packet]: common/packet.rs;
      [Convert], [ConvertV5], [ConvertV9], [ConvertIpfix], [ConvertSflow] and
      [ConvertPacket]: the files of common/convert.

    [Processor] is rustflow/src/processor.rs; [ProcessorFacts] (domains and
    the table of exporters), [ProcessorInv] (runs), [ProcessorFlows] (options
    and flows) prove what it promises.  [Readers] is reader.rs, pcap_reader.rs
    and async_reader.rs beside it.

    Under rustflow_export/src: [Sampler] (sampler.rs, args.rs and the types of
    capture/mod.rs), [Ring] (capture/af_packet.rs and libpcap.rs), [FlowCache]
    (flow/mod.rs; [FlowCacheFacts], [FlowAccounting]), [FlowParse]
    (flow/parse.rs), [Meter] (meter.rs), [ExportIpfix] (ipfix/template.rs and
    ipfix/data.rs), [Exporter] (exporter.rs; [ExporterFacts]) and [ExportRun]
    (the loop of lib.rs).  [ExportWire] composes the exporter with the
    collector's parser and conversion.  The socket and the wall clock are the
    interfaces [Socket] and [Wall]; datagrams sent are a log.

    [Generate] and [GenerateFacts] are rustflow_generate/src/lib.rs.

    Under rustflow_collect/src:
    - sink: [Layout] (layout.rs; [LayoutFacts]), [Destination]
      (destination.rs; [DestinationFacts]), [SinkConfig] (the flags of mod.rs
      and ../args.rs; [SinkWindows]), [Sink] (rotating.rs; [SinkFacts],
      [SinkSamples]), [Hook] (hook.rs; [HookFacts]), [Expiry] (expire.rs;
      [ExpiryFacts]) and [SinkBuild] (how mod.rs puts a sink together);
    - sink/encoder: [Encoder] (mod.rs, the interface), [Ndjson] (ndjson.rs,
      discard.rs), [RowEncoders] (csv.rs, protobuf.rs) and [Columns]
      (columns.rs, arrow.rs, parquet.rs);
    - sink/pipeline: [Pipeline] (mod.rs, errors.rs, timer.rs), [PipelineRun]
      (its threads) and [PipelineFacts];
    - [Source] (source.rs and metrics.rs), [Collect] (the ingest of lib.rs, and
      its threads over the channel) and [CollectFacts];
    - enrich: [Text] (std's text), [EnrichTables] (key.rs, row.rs, source),
      [EnrichConfig] (config.rs), [EnrichEngine] (engine.rs, table/mod.rs),
      [EnrichFacts], [EnrichEngineFacts], and [Command]
      (source/command.rs, table/reload.rs).
    [Calendar] is what the chrono crate does with dates, [Storage] what the
    file system does: names, files, and how operations on them succeed or
    fail; both have an instance.

    ** How code is modelled

    Octets are [Byte.byte], integers are [Z] with their width in [fits_u],
    [fits_i] and [wrap]; arithmetic wraps as in a release build.  A [HashMap]
    is a [gmap].  Mutable state is passed along, a parser with state being a
    function from its state and the input to its state and a result.  The
    monotonic clock is a sequence of instants, and a function that reads it
    takes the number of reads so far and returns the new one; theorems that
    need it assume that instants never decrease.  An [&mut] to an entry of a
    map is a value written back ([Processor.update]).

    What third-party crates do is an interface with the laws the code relies
    on, documented behaviour of that crate: [Nom] (nom's combinators), [Crates]
    (chrono's times, macaddr, the csv crate's rows), [BufMut] (bytes), [Aes]
    (a block cipher), [Etherparse] (lax packet slicing), [CsvText], [Prost],
    [Arrays] and [BatchWriter] (what is written reads back).  Each has a
    concrete instance, so samples and witnesses evaluate.

    Threads are step relations: the steps of a thread are the code between two
    points where another may come between (a send or a receive, a status word,
    a wait), and theorems hold for every sequence of steps.  The ghost parts of
    a state, such as what was taken so far, are said to be so where they are
    declared.  What the system answers (a receive, a wait, a clock) is an input
    of the step that asks.

    ** Bounds and fuel

    IPFIX values nest lists: [Ipfix.list_fuel] is one more than
    MAX_LIST_DEPTH, and [Ipfix.ipfix_value] shows a value never needs more.
    [Packet.peel_loop] recurses on the MAX_TUNNEL_DEPTH (4) levels the code
    allows.  Loops over octets run on as much fuel as there are octets, and
    one more; every round consumes at least one octet, which is what
    [Parsing.consuming] states and [many0_rounds] uses, so no theorem depends
    on fuel.  Loops that wait have no such bound: they are steps, or their fuel
    is shown to be enough once the clock is past a limit
    ([Command.command_output]).

    ** What the theorems show

    - Parsing is total: it fails only where the input is short or foreign, and
      otherwise splits the octets as announced ([Ipfix.ipfix_parse_total],
      [NetflowV9.v9_parse_total], [NetflowV5.v5_parse_domain],
      [SflowWire.sflow_framing]).
    - Records are those the templates describe, field by field from their own
      octets ([Ipfix.ipfix_data_set], [NetflowV9.v9_data_flow_set],
      [Ipfix.ipfix_value], [NetflowV9.v9_field_value]).
    - What is written is read back ([IpfixEncoder.ipfix_parse_encode],
      [IpfixEncoder.ipfix_value_encode], [NetflowV5.v5_parse_encode],
      [SflowWire.sflow_parse_octets]).
    - The template cache refines one flat map of live templates, within its
      budget ([TemplateCache.cache_refines_spec], [TemplateCache.insert_spec],
      [TemplateCache.cache_invariant]).
    - Domains, sources and exporters do not affect one another
      ([Ipfix.ipfix_domain_isolation], [NetflowV9.v9_source_isolation],
      [ProcessorInv.exporter_isolation]), state stays well-formed over whole
      runs ([ProcessorInv.processor_well_formed],
      [Ipfix.ipfix_templates_resolved]) and does not outlive its exporter
      ([ProcessorInv.quiet_exporters_forgotten]).
    - Options say what later flows say: the rates of a domain are those of a
      log of announcements ([ProcessorFacts.domain_rates],
      [ProcessorFlows.options_reach_domain]).
    - Each flow field is what the last field of the record about it says
      ([ConvertV9.v9_flow_fields], [ConvertIpfix.ipfix_flow_fields],
      [ConvertSflow.sflow_sample_flow]), times are exact across counter wraps
      ([ConvertV5.v5_flow_times]), and a packet becomes one flow per data
      record ([ProcessorFlows.packet_flows]).
    - Tunnels are peeled to the innermost packet and no further
      ([Packet.peel_with_spec], [Packet.tunnel_headers],
      [Packet.parse_udp_packet_whole]).
    - Every packet an exporter meters is counted once by the flows it exports
      ([FlowAccounting.flow_accounting], [Meter.meter_exports]); records
      leave in order, in messages of one template that fit an Ethernet frame
      ([ExporterFacts.send_records_spec], [ExportRun.run_within_mtu]), and
      a collector reads them as the flows they are
      ([ExportWire.flows_reach_collector]); frames are read only from blocks
      the kernel handed over, each once, and stay while they are lent
      ([Ring.frames_yielded]), and every call comes back
      ([Ring.call_returns]).
    - A generator keeps its pace and ends, and what it sends is read as what it
      made up ([GenerateFacts.generator_paced],
      [GenerateFacts.generator_finishes], [GenerateFacts.generated_flows_read]).
    - Whatever the interleaving, the encoder takes of every ingest thread the
      flows of its datagrams, once and in order, and the collector comes to its
      end ([PipelineFacts.pipeline_delivers], [PipelineFacts.pipeline_finishes],
      [CollectFacts.ingest_collects], [CollectFacts.datagrams_reach_encoder]):
      the threads of a collector, which go the rounds of their loops, are
      threads of [PipelineRun] and the other way round
      ([CollectFacts.collecting_simulated], [CollectFacts.enacts_acts]);
      errors are noted when they start and end
      ([PipelineFacts.errors_logged_once]); sources end when they are told to
      ([CollectFacts.sources_end]), and readers yield what they read
      ([Readers.readers_yield]).
    - Enrichment gives every field the last value the tables have for it
      ([EnrichEngineFacts.enrich_spec]), from tables that say what their input
      does ([EnrichFacts.csv_exact_spec], [EnrichFacts.csv_prefix_spec]); a
      command counts only when it succeeded within its limit and was read whole
      ([Command.command_output]), and a table has what was last loaded
      ([Command.table_reloaded]).
    - The collector's files: what a layout writes it finds again, and nothing
      else ([LayoutFacts.written_files_listed], [LayoutFacts.files_only_own],
      [LayoutFacts.dirs_spec]); a window lies in one partition directory
      ([SinkWindows.window_in_directory]); finishing a file replaces no other
      ([DestinationFacts.claim_never_replaces]), over whole runs and whatever
      fails ([SinkFacts.sink_run_safe]); a sweep removes what expired and
      nothing else ([ExpiryFacts.expiry_removes_expired]); and a hook runs a
      command for every file, not too many at once
      ([HookFacts.hook_runs_every_job]).
    - A file that was finished is whole records, those of the calls that succeeded
      ([Ndjson.ndjson_whole_lines], [RowEncoders.csv_file_read],
      [RowEncoders.protobuf_file_read]); columns lose rows by whole batches
      only ([Columns.parquet_rows], [Columns.arrow_rows]).
    ** Not modelled

    Opening what is read and written is left to the system: binding sockets
    and their options, opening captures, attaching filters and mapping the
    ring, installing signal handlers, serving metrics, starting processes and
    watching files.  Command lines are the clap crate's, but for the values
    that the code checks itself.  The JSON of flows and packets is serde's, a
    parameter where lines are written; the octets of CSV records, protobuf
    messages and record batches are their crates', behind interfaces, and so is
    the compression of Parquet columns.  Logging is left out, but for what the
    pipeline and the sweep report.

    Within what is modelled: a path is a list of names, so a prefix is taken to
    hold no slash, and partitions are taken to be read by one process at a
    time.  A sweep is one step to other writers of the tree.  Counters are
    unbounded.  A CSV row of another length than its header is outside the
    model, since an engine has one value for each of its fields.
*)

From Stdlib Require Import ZArith Lia Strings.Byte.
From stdpp Require Import base tactics numbers list gmap.

#[global] Open Scope Z_scope.

(** ** Bytes and big-endian numbers *)

Abbreviation bytes := (list byte).

#[export] Instance byte_eq_dec : EqDecision byte := Byte.byte_eq_dec.

(** The value of an octet, and the octet of a value (its low eight bits). *)
Definition u8_of (b : byte) : Z := Z.of_N (Byte.to_N b).

Definition byte_of (z : Z) : byte :=
  match Byte.of_N (Z.to_N (z mod 256)) with
  | Some b => b
  | None => x00
  end.

(** The unsigned value of a big-endian octet string. *)
Definition be_value (bs : bytes) : Z :=
  fold_left (fun acc b => acc * 256 + u8_of b) bs 0.

(** The [n] octets of [z], most significant first. *)
Fixpoint be_bytes (n : nat) (z : Z) : bytes :=
  match n with
  | O => []
  | S m => byte_of (z / 256 ^ Z.of_nat m) :: be_bytes m z
  end.

Arguments be_bytes : simpl never.
Arguments be_value : simpl never.

(** Lengths as [usize] values. *)
Definition zlen {A} (l : list A) : Z := Z.of_nat (length l).

(** ** Machine integers *)

(** The value of [z] in an unsigned [w]-bit integer, with wrap-around. *)
Definition wrap (w z : Z) : Z := z mod 2 ^ w.

(** The [w]-bit pattern [z] read as a two's complement integer. *)
Definition to_signed (w z : Z) : Z :=
  let z := wrap w z in
  if z <? 2 ^ (w - 1) then z else z - 2 ^ w.

Definition fits_u (w z : Z) : Prop := 0 <= z < 2 ^ w.
Definition fits_i (w z : Z) : Prop := - 2 ^ (w - 1) <= z < 2 ^ (w - 1).

#[export] Instance fits_u_dec w z : Decision (fits_u w z).
Proof. unfold fits_u. apply _. Defined.
#[export] Instance fits_i_dec w z : Decision (fits_i w z).
Proof. unfold fits_i. apply _. Defined.

Arguments wrap : simpl never.
Arguments fits_u : simpl never.
Arguments fits_i : simpl never.

(** ** Tactics *)

(** Unfolds the width predicates and closes linear goals. *)
Ltac width :=
  unfold fits_u, fits_i, wrap in *;
  repeat match goal with
         | H : context [2 ^ ?w] |- _ =>
           let v := eval vm_compute in (2 ^ w) in
           match v with Z.pos _ => change (2 ^ w) with v in H end
         | |- context [2 ^ ?w] =>
           let v := eval vm_compute in (2 ^ w) in
           match v with Z.pos _ => change (2 ^ w) with v end
         end;
  try lia.

(** Linear goals with divisions by constants. *)
Ltac dlia := Z.div_mod_to_equations; lia.

(** Splits the conjunctions of the context. *)
Ltac ands := repeat match goal with H : _ /\ _ |- _ => destruct H end.

(** ** Octets *)

Lemma u8_of_range b : 0 <= u8_of b < 256.
Proof. unfold u8_of. pose proof (Byte.to_N_bounded b). lia. Qed.

Lemma u8_of_byte_of z : u8_of (byte_of z) = z mod 256.
Proof.
  unfold u8_of, byte_of.
  pose proof (Z.mod_pos_bound z 256 ltac:(lia)).
  destruct (Byte.of_N _) as [b|] eqn:E.
  - apply Byte.to_of_N in E. rewrite E, Z2N.id; lia.
  - apply Byte.of_N_None_iff in E. lia.
Qed.

Lemma u8_of_inj b c : u8_of b = u8_of c -> b = c.
Proof.
  unfold u8_of. intros H. apply N2Z.inj in H.
  pose proof (Byte.of_to_N b) as Hb. rewrite H, Byte.of_to_N in Hb. congruence.
Qed.

Lemma byte_of_u8_of b : byte_of (u8_of b) = b.
Proof.
  apply u8_of_inj. rewrite u8_of_byte_of. apply Z.mod_small, u8_of_range.
Qed.

Lemma byte_of_mod z : byte_of (z mod 256) = byte_of z.
Proof. apply u8_of_inj. rewrite !u8_of_byte_of. apply Z.mod_mod. lia. Qed.

(** ** Big-endian values *)

Lemma be_value_fold bs acc :
  fold_left (fun acc b => acc * 256 + u8_of b) bs acc
  = acc * 256 ^ zlen bs + be_value bs.
Proof.
  unfold be_value, zlen. revert acc.
  induction bs as [|b bs IH]; intros acc; cbn [fold_left length].
  - cbn. lia.
  - rewrite IH, (IH (0 * 256 + _)).
    rewrite Nat2Z.inj_succ, Z.pow_succ_r by lia. ring.
Qed.

Lemma be_value_nil : be_value [] = 0.
Proof. reflexivity. Qed.

Lemma be_value_cons b bs : be_value (b :: bs) = u8_of b * 256 ^ zlen bs + be_value bs.
Proof. unfold be_value at 1. cbn [fold_left]. by rewrite be_value_fold. Qed.

Lemma be_value_app xs ys : be_value (xs ++ ys) = be_value xs * 256 ^ zlen ys + be_value ys.
Proof.
  unfold be_value at 1. rewrite fold_left_app.
  fold (be_value xs). by rewrite be_value_fold.
Qed.

Lemma be_value_snoc xs b : be_value (xs ++ [b]) = be_value xs * 256 + u8_of b.
Proof. rewrite be_value_app, be_value_cons, be_value_nil. unfold zlen; cbn. lia. Qed.

Lemma zlen_nonneg {A} (l : list A) : 0 <= zlen l.
Proof. unfold zlen. lia. Qed.

Lemma zlen_app {A} (l k : list A) : zlen (l ++ k) = zlen l + zlen k.
Proof. unfold zlen. rewrite length_app. lia. Qed.

Lemma zlen_cons {A} (x : A) l : zlen (x :: l) = 1 + zlen l.
Proof. unfold zlen. cbn [length]. lia. Qed.

Lemma zlen_nil {A} : zlen (@nil A) = 0.
Proof. reflexivity. Qed.

Lemma zlen_fmap {A B} (f : A -> B) l : zlen (f <$> l) = zlen l.
Proof. unfold zlen. by rewrite length_fmap. Qed.

Lemma be_value_range bs : 0 <= be_value bs < 256 ^ zlen bs.
Proof.
  induction bs as [|b bs IH].
  - by vm_compute.
  - rewrite be_value_cons, zlen_cons.
    pose proof (u8_of_range b). pose proof (zlen_nonneg bs).
    rewrite Z.pow_add_r by lia. change (256 ^ 1) with 256. nia.
Qed.

Lemma be_bytes_0 z : be_bytes 0 z = [].
Proof. reflexivity. Qed.

Lemma be_bytes_S n z : be_bytes (S n) z = byte_of (z / 256 ^ Z.of_nat n) :: be_bytes n z.
Proof. reflexivity. Qed.

Lemma length_be_bytes n z : length (be_bytes n z) = n.
Proof. induction n; [done|]. rewrite be_bytes_S. cbn. congruence. Qed.

Lemma zlen_be_bytes n z : zlen (be_bytes n z) = Z.of_nat n.
Proof. unfold zlen. by rewrite length_be_bytes. Qed.

Lemma be_value_be_bytes n z : be_value (be_bytes n z) = z mod 256 ^ Z.of_nat n.
Proof.
  induction n as [|n IH].
  - by rewrite be_bytes_0, be_value_nil, Z.mod_1_r.
  - rewrite be_bytes_S, be_value_cons, zlen_be_bytes, u8_of_byte_of, IH.
    rewrite Nat2Z.inj_succ, Z.pow_succ_r by lia.
    rewrite (Z.mul_comm 256), Z.rem_mul_r by lia. lia.
Qed.

Lemma be_bytes_be_value bs : be_bytes (length bs) (be_value bs) = bs.
Proof.
  enough (H : forall k, be_bytes (length bs) (be_value bs + k * 256 ^ zlen bs) = bs).
  { specialize (H 0). by rewrite Z.mul_0_l, Z.add_0_r in H. }
  induction bs as [|b bs IH]; intros k; [done|].
  cbn [length]. rewrite be_bytes_S, be_value_cons, zlen_cons, Z.pow_add_r by (pose proof (zlen_nonneg bs); lia).
  pose proof (be_value_range bs). pose proof (u8_of_range b).
  f_equal.
  - fold (zlen bs).
    replace (u8_of b * 256 ^ zlen bs + be_value bs + k * (256 ^ 1 * 256 ^ zlen bs))
      with (be_value bs + (u8_of b + k * 256) * 256 ^ zlen bs) by ring.
    rewrite Z.div_add by lia. rewrite Z.div_small by lia.
    rewrite <- byte_of_mod, Z.add_0_l, Z.mod_add by lia.
    by rewrite byte_of_mod, byte_of_u8_of.
  - etransitivity; [|exact (IH (u8_of b + k * 256))]. f_equal.
    change (256 ^ 1) with 256. ring.
Qed.

Lemma be_bytes_be_value' n bs : length bs = n -> be_bytes n (be_value bs) = bs.
Proof. intros <-. apply be_bytes_be_value. Qed.

Lemma be_value_small n z : 0 <= z < 256 ^ Z.of_nat n -> be_value (be_bytes n z) = z.
Proof. intros. rewrite be_value_be_bytes. by apply Z.mod_small. Qed.

Lemma be_value_inj xs ys : length xs = length ys -> be_value xs = be_value ys -> xs = ys.
Proof.
  intros Hl Hv. rewrite <- (be_bytes_be_value xs), <- (be_bytes_be_value ys). congruence.
Qed.

(** The [k] low octets of an [n]-octet number are those of a [k]-octet one. *)
Lemma be_bytes_split n k z :
  be_bytes (n + k) z = be_bytes n (z / 256 ^ Z.of_nat k) ++ be_bytes k z.
Proof.
  induction n as [|n IH]; [done|].
  cbn [Nat.add]. rewrite !be_bytes_S, IH. cbn [app]. f_equal. f_equal.
  rewrite Z.div_div by lia.
  by rewrite Nat2Z.inj_add, Z.pow_add_r, Z.mul_comm by lia.
Qed.

Lemma be_bytes_mod n z k : (n <= k)%nat -> be_bytes n (z mod 256 ^ Z.of_nat k) = be_bytes n z.
Proof.
  intros Hk. apply be_value_inj; [by rewrite !length_be_bytes|].
  rewrite !be_value_be_bytes.
  replace k with (k - n + n)%nat by lia.
  rewrite Nat2Z.inj_add, Z.pow_add_r by lia.
  rewrite Z.mul_comm, Z.rem_mul_r by lia.
  rewrite (Z.mul_comm (256 ^ Z.of_nat n)), Z.mod_add by lia. apply Z.mod_mod. lia.
Qed.

(** ** Signed integers *)

Lemma wrap_range w z : 0 <= w -> fits_u w (wrap w z).
Proof. intros. apply Z.mod_pos_bound. lia. Qed.

Lemma wrap_small w z : fits_u w z -> wrap w z = z.
Proof. apply Z.mod_small. Qed.

Lemma to_signed_range w z : 0 < w -> fits_i w (to_signed w z).
Proof.
  intros Hw. unfold to_signed. pose proof (wrap_range w z ltac:(lia)) as H.
  unfold fits_u, fits_i in *.
  assert (2 ^ w = 2 * 2 ^ (w - 1)).
  { rewrite <- Z.pow_succ_r by lia. f_equal. lia. }
  cbv zeta. case_match eqn:E; lia.
Qed.

Lemma to_signed_wrap w z : 0 < w -> fits_i w z -> to_signed w (wrap w z) = z.
Proof.
  intros Hw Hz. unfold to_signed, fits_i, wrap in *.
  assert (E : 2 ^ w = 2 * 2 ^ (w - 1)).
  { rewrite <- Z.pow_succ_r by lia. f_equal. lia. }
  rewrite Z.mod_mod by lia. cbv zeta.
  destruct (Z.lt_ge_cases z 0).
  - replace (z mod 2 ^ w) with (z + 2 ^ w).
    + destruct (Z.ltb_spec (z + 2 ^ w) (2 ^ (w - 1))); lia.
    + rewrite <- (Z.mod_small (z + 2 ^ w) (2 ^ w)) by lia.
      rewrite <- (Z.mul_1_l (2 ^ w)) at 1. by rewrite Z.mod_add by lia.
  - rewrite Z.mod_small by lia. destruct (Z.ltb_spec z (2 ^ (w - 1))); lia.
Qed.

Lemma wrap_to_signed w z : 0 < w -> wrap w (to_signed w z) = wrap w z.
Proof.
  intros Hw. unfold to_signed, wrap. cbv zeta. case_match.
  - apply Z.mod_mod. lia.
  - rewrite <- (Z.mul_1_l (2 ^ w)) at 2.
    rewrite <- Z.add_opp_r, <- Z.mul_opp_l, Z.mod_add by lia. apply Z.mod_mod. lia.
Qed.

(** ** Bit fields *)

(** Joining a high part and a low part of [k] bits. *)
Lemma lor_join a b k : 0 <= k -> fits_u k b -> Z.lor (a * 2 ^ k) b = a * 2 ^ k + b.
Proof.
  intros Hk Hb. rewrite <- Z.add_nocarry_lor; [done|].
  apply Z.bits_inj'. intros n Hn. rewrite Z.land_spec, Z.bits_0.
  destruct (Z.lt_ge_cases n k).
  - by rewrite Z.mul_pow2_bits_low.
  - rewrite <- (Z.mod_small b (2 ^ k)) by done.
    rewrite Z.mod_pow2_bits_high by lia. apply andb_false_r.
Qed.

Lemma shiftr_join a b k : 0 <= k -> fits_u k b -> Z.shiftr (a * 2 ^ k + b) k = a.
Proof.
  intros Hk Hb. unfold fits_u in Hb.
  rewrite Z.shiftr_div_pow2, Z.div_add_l, Z.div_small by lia. lia.
Qed.

Lemma land_join a b k : 0 <= k -> fits_u k b -> Z.land (a * 2 ^ k + b) (Z.ones k) = b.
Proof.
  intros Hk Hb. unfold fits_u in Hb.
  rewrite Z.land_ones, Z.add_comm, Z.mod_add, Z.mod_small by lia. done.
Qed.

Lemma split_join v k : 0 <= k -> Z.shiftr v k * 2 ^ k + Z.land v (Z.ones k) = v.
Proof.
  intros Hk. rewrite Z.shiftr_div_pow2, Z.land_ones by lia.
  pose proof (Z.div_mod v (2 ^ k)). lia.
Qed.

Lemma land_ones_fits v k : 0 <= k -> fits_u k (Z.land v (Z.ones k)).
Proof. intros. rewrite Z.land_ones by lia. by apply wrap_range. Qed.

Lemma shiftr_fits v k w : 0 <= k -> 0 <= w -> fits_u (w + k) v -> fits_u w (Z.shiftr v k).
Proof.
  unfold fits_u. intros Hk Hw Hv. rewrite Z.shiftr_div_pow2 by lia.
  rewrite Z.pow_add_r in Hv by lia. split; [apply Z.div_pos; lia|].
  apply Z.div_lt_upper_bound; lia.
Qed.

(** ** Lists *)

Lemma zlen_0 {A} (l : list A) : zlen l = 0 -> l = [].
Proof. destruct l; [done|]. rewrite zlen_cons. pose proof (zlen_nonneg l). lia. Qed.

Lemma zlen_1 {A} (l : list A) : zlen l = 1 -> exists x, l = [x].
Proof.
  destruct l as [|x l]; [done|]. rewrite zlen_cons. intros H.
  rewrite (zlen_0 l) by lia. eauto.
Qed.

Lemma zlen_2 {A} (l : list A) : zlen l = 2 -> exists x y, l = [x; y].
Proof.
  destruct l as [|x l]; [done|]. rewrite zlen_cons. intros H.
  destruct (zlen_1 l ltac:(lia)) as [y ->]. eauto.
Qed.

(** Sums over a list, used for lengths. *)
Definition zsum {A} (f : A -> Z) (l : list A) : Z := foldr (fun x acc => f x + acc) 0 l.

Lemma zsum_cons {A} (f : A -> Z) x l : zsum f (x :: l) = f x + zsum f l.
Proof. done. Qed.

Lemma zsum_app {A} (f : A -> Z) l k : zsum f (l ++ k) = zsum f l + zsum f k.
Proof. unfold zsum. induction l; cbn in *; lia. Qed.

Lemma zsum_nonneg {A} (f : A -> Z) l : (forall x, 0 <= f x) -> 0 <= zsum f l.
Proof. unfold zsum. intros H. induction l as [|x l IH]; cbn; [lia|]. specialize (H x). lia. Qed.

Lemma zsum_Permutation {A} (f : A -> Z) l k : l ≡ₚ k -> zsum f l = zsum f k.
Proof. unfold zsum. induction 1; cbn; lia. Qed.

Lemma zlen_concat {A} (l : list (list A)) : zlen (concat l) = zsum zlen l.
Proof. induction l as [|x l IH]; [done|]. cbn [concat zsum foldr]. rewrite zlen_app, IH. done. Qed.

Lemma zsum_fmap {A B} (f : B -> Z) (g : A -> B) l : zsum f (g <$> l) = zsum (fun x => f (g x)) l.
Proof. induction l as [|x l IH]; [done|]. by rewrite fmap_cons, !zsum_cons, IH. Qed.

Lemma zsum_const {A} (f : A -> Z) c l :
  (forall x, x ∈ l -> f x = c) -> zsum f l = c * zlen l.
Proof.
  induction l as [|x l IH]; intros H; [unfold zlen; cbn; lia|].
  rewrite zlen_cons. cbn [zsum foldr]. fold (zsum f l).
  rewrite IH, (H x) by set_solver. lia.
Qed.

Lemma drop_app_zlen {A} (l k : list A) n : n = length l -> drop n (l ++ k) = k.
Proof. intros ->. by rewrite drop_app_length. Qed.

Lemma zlen_drop {A} (l : list A) n : zlen (drop n l) = Z.max 0 (zlen l - Z.of_nat n).
Proof. unfold zlen. rewrite length_drop. lia. Qed.

Lemma take_app_zlen {A} (l k : list A) n : n = length l -> take n (l ++ k) = l.
Proof. intros ->. by rewrite take_app_length. Qed.

(** ** Sums over finite maps *)

Section msum.
Context {K V : Type} `{Countable K}.
Implicit Types (m : gmap K V) (f : V -> Z).

Definition msum f m : Z := map_fold (fun _ v acc => f v + acc) 0 m.

Lemma msum_empty f : msum f ∅ = 0.
Proof. apply map_fold_empty. Qed.

Lemma msum_insert_None f m k v : m !! k = None -> msum f (<[k:=v]> m) = f v + msum f m.
Proof. intros Hk. unfold msum. rewrite map_fold_insert_L; [done|lia|done]. Qed.

Lemma msum_delete f m k v : m !! k = Some v -> msum f m = f v + msum f (delete k m).
Proof. intros Hk. unfold msum. rewrite (map_fold_delete_L _ _ k v m); [done|lia|done]. Qed.

(** What the map holds at [k], or zero. *)
Definition at_key f k m : Z := default 0 (f <$> m !! k).

Lemma msum_delete' f m k : msum f (delete k m) = msum f m - at_key f k m.
Proof.
  unfold at_key. destruct (m !! k) as [v|] eqn:E; cbn.
  - rewrite (msum_delete f m k v E). lia.
  - rewrite delete_id by done. lia.
Qed.

Lemma msum_insert f m k v : msum f (<[k:=v]> m) = f v + msum f m - at_key f k m.
Proof.
  rewrite <- insert_delete_eq, msum_insert_None by apply lookup_delete_eq.
  rewrite msum_delete'. lia.
Qed.

Lemma msum_nonneg f m : (forall v, 0 <= f v) -> 0 <= msum f m.
Proof.
  intros Hf. induction m as [|k v m Hk IH] using map_ind; [by rewrite msum_empty|].
  rewrite msum_insert_None by done. specialize (Hf v). lia.
Qed.

Lemma msum_lookup_le f m k v : (forall v, 0 <= f v) -> m !! k = Some v -> f v <= msum f m.
Proof.
  intros Hf Hk. rewrite (msum_delete f m k v Hk).
  pose proof (msum_nonneg f (delete k m) Hf). lia.
Qed.

Lemma msum_omap_le f (g : V -> option V) m :
  (forall v, 0 <= f v) -> (forall v w, g v = Some w -> f w <= f v) ->
  msum f (omap g m) <= msum f m.
Proof.
  intros Hf Hg. induction m as [|k v m Hk IH] using map_ind; [by rewrite omap_empty|].
  rewrite msum_insert_None by done. destruct (g v) as [w|] eqn:E.
  - rewrite (omap_insert_Some g m k v w E), msum_insert_None; [specialize (Hg _ _ E); lia|].
    by rewrite lookup_omap, Hk.
  - rewrite (omap_insert_None g m k v E), delete_id; [specialize (Hf v); lia|].
    by rewrite lookup_omap, Hk.
Qed.

Lemma msum_ext f g m : (forall k v, m !! k = Some v -> f v = g v) -> msum f m = msum g m.
Proof.
  induction m as [|k v m Hk IH] using map_ind; [by rewrite !msum_empty|]. intros Hfg.
  rewrite !msum_insert_None by done. rewrite (Hfg k v) by apply lookup_insert_eq.
  rewrite IH; [done|]. intros k' v' Hk'. apply (Hfg k').
  rewrite lookup_insert_ne; [done|]. congruence.
Qed.

Lemma msum_zero f m : (forall k v, m !! k = Some v -> f v = 0) -> msum f m = 0.
Proof.
  induction m as [|k v m Hk IH] using map_ind; [by rewrite !msum_empty|]. intros Hf.
  rewrite msum_insert_None by done. rewrite (Hf k v) by apply lookup_insert_eq.
  rewrite IH; [done|]. intros k' v' Hk'. apply (Hf k').
  rewrite lookup_insert_ne; [done|]. congruence.
Qed.
End msum.

(** ** Hint databases *)

Create HintDb flow discriminated.
Create Rewrite HintDb zlen.
#[export] Hint Resolve zlen_nonneg u8_of_range be_value_range wrap_range : flow.
#[export] Hint Rewrite @zlen_app @zlen_cons @zlen_nil zlen_be_bytes : zlen.
