(* ===== verification/Nom.v ===== *)
(** The interface of the [nom] parser combinators.

    The parsers under [src/crates/rustflow_core/src] are written with the [nom]
    crate, which is not part of the repository.  [Nom] names the combinators
    they use, each with the behaviour its documentation states; the parsers
    are defined and verified for every instance.  [nom_std] is a concrete
    instance, used to evaluate them.

    A Rust closure that captures [&mut self] is an [FnMut]: the combinators
    that take one ([many0], [map_parser]) thread its captured state. *)

From Stdlib Require Import ZArith Lia Strings.Byte.
From stdpp Require Import base tactics numbers list.
From S2P Require Import Prelude.
#[local] Open Scope Z_scope.

(** [nom::Err]; the error payload (input position and kind) is never looked
    at by the source. *)
Inductive nom_err := Incomplete | Error | Failure.

Inductive result (A : Type) := Ok (a : A) | Err (e : nom_err).
Arguments Ok {A} a.
Arguments Err {A} e.

#[export] Instance nom_err_eq_dec : EqDecision nom_err.
Proof. solve_decision. Defined.

(** [IResult<&[u8], A>]: the remaining input and a value, or an error. *)
Abbreviation IResult A := (result (bytes * A)).

(** A parser that is a closure over the state [S]. *)
Abbreviation FnMut S A := (S -> bytes -> S * IResult A).

Declare Scope parser_scope.
Delimit Scope parser_scope with parser.
#[global] Open Scope parser_scope.

(** The [?] operator, for a result and for a result with a state beside it. *)
Notation "'let?' p := e 'in' k" :=
  (match e with Ok p => k | Err er => Err er end)
  (at level 10, p strict pattern, e at level 100, k at level 200,
   format "'[v' 'let?'  p  :=  e  'in' '/' k ']'") : parser_scope.

Notation "'let*' s , p := e 'in' k" :=
  (match e with (s, Ok p) => k | (s, Err er) => (s, Err er) end)
  (at level 10, s name, p strict pattern, e at level 100, k at level 200,
   format "'[v' 'let*'  s ,  p  :=  e  'in' '/' k ']'") : parser_scope.

(** ** Reference behaviour *)

Definition take_ref (n : Z) (i : bytes) : IResult bytes :=
  if zlen i <? n then Err Error
  else Ok (drop (Z.to_nat n) i, take (Z.to_nat n) i).

Definition uint_ref (n : Z) (i : bytes) : IResult Z :=
  let? (i, b) := take_ref n i in Ok (i, be_value b).

Definition int_ref (n : Z) (i : bytes) : IResult Z :=
  let? (i, v) := uint_ref n i in Ok (i, to_signed (8 * n) v).

Fixpoint count_ref {A} (p : bytes -> IResult A) (n : nat) (i : bytes) : IResult (list A) :=
  match n with
  | O => Ok (i, [])
  | S m =>
      let? (i, a) := p i in
      let? (i, l) := count_ref p m i in
      Ok (i, a :: l)
  end.

Definition cons_result {S A} (a : A) (r : S * IResult (list A)) : S * IResult (list A) :=
  let* s, (i, l) := r in (s, Ok (i, a :: l)).

(** One round of [many0]: stop at an [Error], refuse a parser that consumed
    nothing, pass other errors on. *)
Definition many0_step {S A} (rec : S -> bytes -> S * IResult (list A)) (f : FnMut S A)
    (s : S) (i : bytes) : S * IResult (list A) :=
  match f s i with
  | (s, Err Error) => (s, Ok (i, []))
  | (s, Err e) => (s, Err e)
  | (s, Ok (i', a)) =>
      if zlen i' =? zlen i then (s, Err Error) else cons_result a (rec s i')
  end.

Fixpoint many0_ref {S A} (fuel : nat) (f : FnMut S A) (s : S) (i : bytes)
    : S * IResult (list A) :=
  match fuel with
  | O => (s, Err Failure)
  | Datatypes.S n => many0_step (many0_ref n f) f s i
  end.

(** A parser never returns more input than it was given. *)
Definition shrinking {S A} (f : FnMut S A) : Prop :=
  forall s i s' i' a, f s i = (s', Ok (i', a)) -> zlen i' <= zlen i.

Definition progressing {A} (p : bytes -> IResult A) : Prop :=
  forall i i' a, p i = Ok (i', a) -> zlen i' < zlen i.

(** ** The interface *)

Class Nom := {
  (* nom::bytes::complete *)
  nom_take : Z -> bytes -> IResult bytes;
  (* nom::number::complete *)
  be_u8 : bytes -> IResult Z;
  be_u16 : bytes -> IResult Z;
  be_u24 : bytes -> IResult Z;
  be_u32 : bytes -> IResult Z;
  be_u64 : bytes -> IResult Z;
  be_u128 : bytes -> IResult Z;
  be_i8 : bytes -> IResult Z;
  be_i16 : bytes -> IResult Z;
  be_i24 : bytes -> IResult Z;
  be_i32 : bytes -> IResult Z;
  be_i64 : bytes -> IResult Z;
  (* the IEEE 754 bit patterns of the floats *)
  be_f32 : bytes -> IResult Z;
  be_f64 : bytes -> IResult Z;
  (* nom::combinator *)
  fail : forall {A}, bytes -> IResult A;
  nom_map : forall {A B}, (bytes -> IResult A) -> (A -> B) -> bytes -> IResult B;
  map_opt : forall {A B}, (bytes -> IResult A) -> (A -> option B) -> bytes -> IResult B;
  (* the conversion's error is dropped *)
  map_res : forall {A B}, (bytes -> IResult A) -> (A -> option B) -> bytes -> IResult B;
  verify : forall {A}, (bytes -> IResult A) -> (A -> bool) -> bytes -> IResult A;
  cond : forall {A}, bool -> (bytes -> IResult A) -> bytes -> IResult (option A);
  peek : forall {A}, (bytes -> IResult A) -> bytes -> IResult A;
  map_parser : forall {S A}, (bytes -> IResult bytes) -> FnMut S A -> FnMut S A;
  (* a pair of parsers as a parser, nom::Parser for tuples *)
  tuple2 : forall {A B}, (bytes -> IResult A) -> (bytes -> IResult B) -> bytes -> IResult (A * B);
  (* nom::multi *)
  count : forall {A}, (bytes -> IResult A) -> Z -> bytes -> IResult (list A);
  many : forall {A}, Z -> (bytes -> IResult A) -> bytes -> IResult (list A);
  many0 : forall {S A}, FnMut S A -> FnMut S (list A);

  (* a [usize] is never negative; the law reads a negative one as zero *)
  nom_take_law : forall n i, nom_take n i = take_ref n i;
  be_u8_law : forall i, be_u8 i = uint_ref 1 i;
  be_u16_law : forall i, be_u16 i = uint_ref 2 i;
  be_u24_law : forall i, be_u24 i = uint_ref 3 i;
  be_u32_law : forall i, be_u32 i = uint_ref 4 i;
  be_u64_law : forall i, be_u64 i = uint_ref 8 i;
  be_u128_law : forall i, be_u128 i = uint_ref 16 i;
  be_i8_law : forall i, be_i8 i = int_ref 1 i;
  be_i16_law : forall i, be_i16 i = int_ref 2 i;
  be_i24_law : forall i, be_i24 i = int_ref 3 i;
  be_i32_law : forall i, be_i32 i = int_ref 4 i;
  be_i64_law : forall i, be_i64 i = int_ref 8 i;
  be_f32_law : forall i, be_f32 i = uint_ref 4 i;
  be_f64_law : forall i, be_f64 i = uint_ref 8 i;
  fail_law : forall A i, @fail A i = Err Error;
  nom_map_law : forall A B (p : bytes -> IResult A) (g : A -> B) i,
    nom_map p g i = (let? (i, a) := p i in Ok (i, g a));
  map_opt_law : forall A B (p : bytes -> IResult A) (g : A -> option B) i,
    map_opt p g i =
      (let? (i, a) := p i in match g a with Some b => Ok (i, b) | None => Err Error end);
  map_res_law : forall A B (p : bytes -> IResult A) (g : A -> option B) i,
    map_res p g i =
      (let? (i, a) := p i in match g a with Some b => Ok (i, b) | None => Err Error end);
  verify_law : forall A (p : bytes -> IResult A) c i,
    verify p c i = (let? (i, a) := p i in if c a then Ok (i, a) else Err Error);
  cond_law : forall A b (p : bytes -> IResult A) i,
    cond b p i = if b then (let? (i, a) := p i in Ok (i, Some a)) else Ok (i, None);
  peek_law : forall A (p : bytes -> IResult A) i,
    peek p i = (let? (_, a) := p i in Ok (i, a));
  map_parser_law : forall S A p (f : FnMut S A) s i,
    map_parser p f s i =
      match p i with
      | Err e => (s, Err e)
      | Ok (i, data) => let* s, (_, a) := f s data in (s, Ok (i, a))
      end;
  tuple2_law : forall A B (p : bytes -> IResult A) (q : bytes -> IResult B) i,
    tuple2 p q i = (let? (i, a) := p i in let? (i, b) := q i in Ok (i, (a, b)));
  count_law : forall A (p : bytes -> IResult A) n i,
    0 <= n -> count p n i = count_ref p (Z.to_nat n) i;
  (* a fixed count is a range of one element *)
  many_law : forall A (p : bytes -> IResult A) n i,
    0 <= n -> progressing p -> many n p i = count_ref p (Z.to_nat n) i;
  many0_law : forall S A (f : FnMut S A) s i,
    shrinking f -> many0 f s i = many0_step (many0 f) f s i;
}.

(** A plain function is a closure that captures nothing. *)
Definition fn {A} (p : bytes -> IResult A) : FnMut unit A := fun s i => (s, p i).

Definition many0_fn `{Nom} {A} (p : bytes -> IResult A) (i : bytes) : IResult (list A) :=
  snd (many0 (fn p) tt i).

Definition map_parser_fn `{Nom} {A} (p : bytes -> IResult bytes) (q : bytes -> IResult A)
    (i : bytes) : IResult A :=
  snd (map_parser p (fn q) tt i).

(** ** The concrete instance *)

Lemma many0_ref_fuel {S A} (f : FnMut S A) n m s i :
  shrinking f -> (length i < n)%nat -> (length i < m)%nat ->
  many0_ref n f s i = many0_ref m f s i.
Proof.
  intros Hf. revert m s i. induction n as [|n IH]; intros m s i Hn Hm; [lia|].
  destruct m as [|m]; [lia|]. cbn [many0_ref]. unfold many0_step.
  destruct (f s i) as [s' [[i' a]|e]] eqn:E; [|done].
  apply Hf in E. destruct (Z.eqb_spec (zlen i') (zlen i)); [done|].
  unfold zlen in *. by rewrite (IH m) by lia.
Qed.

Lemma many0_ref_unfold {S A} (f : FnMut S A) s i :
  shrinking f ->
  many0_ref (Datatypes.S (length i)) f s i
  = many0_step (fun s i => many0_ref (Datatypes.S (length i)) f s i) f s i.
Proof.
  intros Hf. cbn [many0_ref]. unfold many0_step.
  destruct (f s i) as [s' [[i' a]|e]] eqn:E; [|done].
  apply Hf in E. destruct (Z.eqb_spec (zlen i') (zlen i)); [done|].
  unfold zlen in *. by rewrite (many0_ref_fuel f (length i) (Datatypes.S (length i'))) by (done || lia).
Qed.

#[refine] Definition nom_std : Nom := {|
  nom_take := take_ref;
  be_u8 := uint_ref 1; be_u16 := uint_ref 2; be_u24 := uint_ref 3;
  be_u32 := uint_ref 4; be_u64 := uint_ref 8; be_u128 := uint_ref 16;
  be_i8 := int_ref 1; be_i16 := int_ref 2; be_i24 := int_ref 3;
  be_i32 := int_ref 4; be_i64 := int_ref 8;
  be_f32 := uint_ref 4; be_f64 := uint_ref 8;
  fail A i := Err Error;
  nom_map A B p g i := let? (i, a) := p i in Ok (i, g a);
  map_opt A B p g i :=
    let? (i, a) := p i in match g a with Some b => Ok (i, b) | None => Err Error end;
  map_res A B p g i :=
    let? (i, a) := p i in match g a with Some b => Ok (i, b) | None => Err Error end;
  verify A p c i := let? (i, a) := p i in if c a then Ok (i, a) else Err Error;
  cond A b p i := if b : bool then (let? (i, a) := p i in Ok (i, Some a)) else Ok (i, None);
  peek A p i := let? (_, a) := p i in Ok (i, a);
  map_parser S A p f s i :=
    match p i with
    | Err e => (s, Err e)
    | Ok (i, data) => let* s, (_, a) := f s data in (s, Ok (i, a))
    end;
  tuple2 A B p q i := let? (i, a) := p i in let? (i, b) := q i in Ok (i, (a, b));
  count A p n := count_ref p (Z.to_nat n);
  many A n p := count_ref p (Z.to_nat n);
  many0 S A f s i := many0_ref (Datatypes.S (length i)) f s i;
|}.
Proof. all: try done. intros S A f s i Hf. by apply many0_ref_unfold. Defined.
