(* ===== verification/Parsing.v ===== *)
(** Reasoning about parsers written with the [nom] interface.

    [wp] is a postcondition judgement for results: the parser either succeeds
    with a value satisfying the postcondition or fails with the recoverable
    [Error].  Each combinator has a rule for it ([wp_*], applied by the
    [wp_step] tactic) and an equation for running it on input that starts
    with encoded data (rewrite database [nom]). *)

From Stdlib Require Import ZArith Lia Strings.Byte.
From stdpp Require Import base tactics numbers list sets.
From S2P Require Import Prelude Nom.
#[local] Open Scope Z_scope.

Definition wp {A} (r : result A) (Q : A -> Prop) : Prop :=
  match r with Ok a => Q a | Err e => e = Error end.

(** The same for a result with a state beside it; [E] holds of the state a
    failure leaves. *)
Definition swp {S A} (r : S * result A) (Q : S -> A -> Prop) (E : S -> Prop) : Prop :=
  match r with (s, Ok a) => Q s a | (s, Err e) => e = Error /\ E s end.

Lemma wp_ok {A} (r : result A) Q a : r = Ok a -> wp r Q -> Q a.
Proof. by intros ->. Qed.

Lemma wp_err {A} (r : result A) Q e : r = Err e -> wp r Q -> e = Error.
Proof. by intros ->. Qed.

Lemma wp_mono {A} (r : result A) (P Q : A -> Prop) :
  wp r P -> (forall a, P a -> Q a) -> wp r Q.
Proof. destruct r; cbn; auto. Qed.

Lemma wp_conj {A} (r : result A) (P Q : A -> Prop) :
  wp r P -> wp r Q -> wp r (fun a => P a /\ Q a).
Proof. destruct r; cbn; auto. Qed.

Lemma wp_ret {A} (a : A) (Q : A -> Prop) : Q a -> wp (Ok a) Q.
Proof. done. Qed.

Lemma wp_bind {A B} (r : IResult A) (k : bytes -> A -> result B) Q :
  wp r (fun '(i, a) => wp (k i a) Q) ->
  wp (match r with Ok x => let (i, a) := x in k i a | Err e => Err e end) Q.
Proof. by destruct r as [[i a]|e]. Qed.

Lemma swp_bind {S A B} (r : S * IResult A) (k : S -> bytes -> A -> S * result B) Q E :
  swp r (fun s '(i, a) => swp (k s i a) Q E) E ->
  swp (match r with (s, Ok x) => let (i, a) := x in k s i a | (s, Err e) => (s, Err e) end) Q E.
Proof. by destruct r as [s [[i a]|e]]. Qed.

Lemma swp_mono {S A} (r : S * result A) P Q (E F : S -> Prop) :
  swp r P E -> (forall s a, P s a -> Q s a) -> (forall s, E s -> F s) -> swp r Q F.
Proof. destruct r as [s [a|e]]; cbn; intuition auto. Qed.

Lemma swp_lift {S A} (s : S) (r : result A) Q (E : S -> Prop) :
  E s -> wp r (Q s) -> swp (s, r) Q E.
Proof. destruct r; cbn; auto. Qed.

(** A parser without state in a stateful sequence. *)
Lemma swp_pure {S A B} (s : S) (r : IResult A) (k : bytes -> A -> S * result B) Q (E : S -> Prop) :
  E s -> wp r (fun '(i, a) => swp (k i a) Q E) ->
  swp (match r with Ok x => let (i, a) := x in k i a | Err e => (s, Err e) end) Q E.
Proof. destruct r as [[i a]|e]; cbn; auto. Qed.

(** Total correctness: the parser succeeds, with a value satisfying [Q]. *)
Definition wpt {A} (r : result A) (Q : A -> Prop) : Prop :=
  match r with Ok a => Q a | Err _ => False end.

Lemma wpt_intro {A} (r : result A) Q : (forall e, r <> Err e) -> wp r Q -> wpt r Q.
Proof. destruct r; cbn; [auto|]. intros H _. by eapply H. Qed.

Lemma wpt_ok {A} (r : result A) Q : wpt r Q -> exists a, r = Ok a /\ Q a.
Proof. destruct r; cbn; [eauto|done]. Qed.

Lemma wpt_mono {A} (r : result A) (P Q : A -> Prop) :
  wpt r P -> (forall a, P a -> Q a) -> wpt r Q.
Proof. destruct r; cbn; auto. Qed.

Lemma wpt_bind {A B} (r : IResult A) (k : bytes -> A -> result B) Q :
  wpt r (fun '(i, a) => wpt (k i a) Q) ->
  wpt (match r with Ok x => let (i, a) := x in k i a | Err e => Err e end) Q.
Proof. by destruct r as [[i a]|e]. Qed.

(** ** Suffixes *)

(** Every parser returns a suffix of its input. *)
Definition leaves {A} (i : bytes) (r : IResult A) : Prop := wp r (fun '(i', _) => i' `suffix_of` i).

Lemma suffix_zlen (i i' : bytes) : i' `suffix_of` i -> zlen i' <= zlen i.
Proof. intros [c ->]. rewrite zlen_app. pose proof (zlen_nonneg c). lia. Qed.

Ltac solve_suffix :=
  solve [ repeat (first [ reflexivity | apply suffix_app_r | apply suffix_cons_r
                        | eassumption | etransitivity; [eassumption|] ]) ].

Section nom_facts.
Context `{NM : Nom}.

(** *** Running the number parsers on encoded input *)

Lemma take_ref_app c i n : n = zlen c -> take_ref n (c ++ i) = Ok (i, c).
Proof.
  intros ->. unfold take_ref. rewrite zlen_app.
  destruct (Z.ltb_spec (zlen c + zlen i) (zlen c)); [pose proof (zlen_nonneg i); lia|].
  unfold zlen. by rewrite Nat2Z.id, drop_app_length, take_app_length.
Qed.

Lemma uint_ref_app n v i :
  fits_u (8 * Z.of_nat n) v -> uint_ref (Z.of_nat n) (be_bytes n v ++ i) = Ok (i, v).
Proof.
  intros Hv. unfold uint_ref. rewrite take_ref_app by by rewrite zlen_be_bytes.
  rewrite be_value_small; [done|]. unfold fits_u in Hv.
  by rewrite Z.pow_mul_r in Hv by lia.
Qed.

Lemma int_ref_app n v i :
  (0 < n)%nat -> fits_i (8 * Z.of_nat n) v ->
  int_ref (Z.of_nat n) (be_bytes n v ++ i) = Ok (i, v).
Proof.
  intros Hn Hv. unfold int_ref, uint_ref. rewrite take_ref_app by by rewrite zlen_be_bytes.
  rewrite be_value_be_bytes. do 3 f_equal.
  replace (256 ^ Z.of_nat n) with (2 ^ (8 * Z.of_nat n)) by by rewrite Z.pow_mul_r by lia.
  apply (to_signed_wrap (8 * Z.of_nat n)); [lia|done].
Qed.

Lemma be_u8_app v i : fits_u 8 v -> be_u8 (be_bytes 1 v ++ i) = Ok (i, v).
Proof. intros. rewrite be_u8_law. by apply (uint_ref_app 1). Qed.
Lemma be_u16_app v i : fits_u 16 v -> be_u16 (be_bytes 2 v ++ i) = Ok (i, v).
Proof. intros. rewrite be_u16_law. by apply (uint_ref_app 2). Qed.
Lemma be_u24_app v i : fits_u 24 v -> be_u24 (be_bytes 3 v ++ i) = Ok (i, v).
Proof. intros. rewrite be_u24_law. by apply (uint_ref_app 3). Qed.
Lemma be_u32_app v i : fits_u 32 v -> be_u32 (be_bytes 4 v ++ i) = Ok (i, v).
Proof. intros. rewrite be_u32_law. by apply (uint_ref_app 4). Qed.
Lemma be_u64_app v i : fits_u 64 v -> be_u64 (be_bytes 8 v ++ i) = Ok (i, v).
Proof. intros. rewrite be_u64_law. by apply (uint_ref_app 8). Qed.
Lemma be_u128_app v i : fits_u 128 v -> be_u128 (be_bytes 16 v ++ i) = Ok (i, v).
Proof. intros. rewrite be_u128_law. by apply (uint_ref_app 16). Qed.
Lemma be_i8_app v i : fits_i 8 v -> be_i8 (be_bytes 1 v ++ i) = Ok (i, v).
Proof. intros. rewrite be_i8_law. by apply (int_ref_app 1); [lia|]. Qed.
Lemma be_i16_app v i : fits_i 16 v -> be_i16 (be_bytes 2 v ++ i) = Ok (i, v).
Proof. intros. rewrite be_i16_law. by apply (int_ref_app 2); [lia|]. Qed.
Lemma be_i24_app v i : fits_i 24 v -> be_i24 (be_bytes 3 v ++ i) = Ok (i, v).
Proof. intros. rewrite be_i24_law. by apply (int_ref_app 3); [lia|]. Qed.
Lemma be_i32_app v i : fits_i 32 v -> be_i32 (be_bytes 4 v ++ i) = Ok (i, v).
Proof. intros. rewrite be_i32_law. by apply (int_ref_app 4); [lia|]. Qed.
Lemma be_i64_app v i : fits_i 64 v -> be_i64 (be_bytes 8 v ++ i) = Ok (i, v).
Proof. intros. rewrite be_i64_law. by apply (int_ref_app 8); [lia|]. Qed.
Lemma be_f32_app v i : fits_u 32 v -> be_f32 (be_bytes 4 v ++ i) = Ok (i, v).
Proof. intros. rewrite be_f32_law. by apply (uint_ref_app 4). Qed.
Lemma be_f64_app v i : fits_u 64 v -> be_f64 (be_bytes 8 v ++ i) = Ok (i, v).
Proof. intros. rewrite be_f64_law. by apply (uint_ref_app 8). Qed.

Lemma nom_take_app c i n : n = zlen c -> nom_take n (c ++ i) = Ok (i, c).
Proof. intros ->. rewrite nom_take_law. by apply take_ref_app. Qed.

(** *** Postconditions of the number parsers *)

Lemma take_ref_wp n i (Q : bytes * bytes -> Prop) :
  0 <= n ->
  (forall i' c, i = c ++ i' -> zlen c = n -> Q (i', c)) -> wp (take_ref n i) Q.
Proof.
  intros Hn HQ. unfold take_ref. destruct (Z.ltb_spec (zlen i) n); [done|]. cbn.
  apply HQ; [by rewrite take_drop|]. unfold zlen in *. rewrite length_take. lia.
Qed.

Lemma uint_ref_wp n i (Q : bytes * Z -> Prop) :
  (forall i' v, i = be_bytes n v ++ i' -> fits_u (8 * Z.of_nat n) v -> Q (i', v)) ->
  wp (uint_ref (Z.of_nat n) i) Q.
Proof.
  intros HQ. unfold uint_ref. apply wp_bind, take_ref_wp; [lia|].
  intros i' c -> Hc. apply HQ.
  - unfold zlen in Hc. by rewrite be_bytes_be_value' by lia.
  - unfold fits_u. rewrite Z.pow_mul_r, <- Hc by lia. apply be_value_range.
Qed.

Lemma int_ref_wp n i (Q : bytes * Z -> Prop) :
  (0 < n)%nat ->
  (forall i' v, i = be_bytes n v ++ i' -> fits_i (8 * Z.of_nat n) v -> Q (i', v)) ->
  wp (int_ref (Z.of_nat n) i) Q.
Proof.
  intros Hn HQ. unfold int_ref. apply wp_bind, uint_ref_wp.
  intros i' v -> Hv. apply HQ; [|apply to_signed_range; lia].
  f_equal. rewrite <- (be_bytes_mod n v n), <- (be_bytes_mod n (to_signed _ _) n) by lia.
  f_equal.
  replace (256 ^ Z.of_nat n) with (2 ^ (8 * Z.of_nat n)) by by rewrite Z.pow_mul_r by lia.
  symmetry. apply (wrap_to_signed (8 * Z.of_nat n)). lia.
Qed.

Lemma wp_be_u8 i (Q : bytes * Z -> Prop) :
  (forall i' v, i = be_bytes 1 v ++ i' -> fits_u 8 v -> Q (i', v)) -> wp (be_u8 i) Q.
Proof. rewrite be_u8_law. apply (uint_ref_wp 1). Qed.
Lemma wp_be_u16 i (Q : bytes * Z -> Prop) :
  (forall i' v, i = be_bytes 2 v ++ i' -> fits_u 16 v -> Q (i', v)) -> wp (be_u16 i) Q.
Proof. rewrite be_u16_law. apply (uint_ref_wp 2). Qed.
Lemma wp_be_u24 i (Q : bytes * Z -> Prop) :
  (forall i' v, i = be_bytes 3 v ++ i' -> fits_u 24 v -> Q (i', v)) -> wp (be_u24 i) Q.
Proof. rewrite be_u24_law. apply (uint_ref_wp 3). Qed.
Lemma wp_be_u32 i (Q : bytes * Z -> Prop) :
  (forall i' v, i = be_bytes 4 v ++ i' -> fits_u 32 v -> Q (i', v)) -> wp (be_u32 i) Q.
Proof. rewrite be_u32_law. apply (uint_ref_wp 4). Qed.
Lemma wp_be_u64 i (Q : bytes * Z -> Prop) :
  (forall i' v, i = be_bytes 8 v ++ i' -> fits_u 64 v -> Q (i', v)) -> wp (be_u64 i) Q.
Proof. rewrite be_u64_law. apply (uint_ref_wp 8). Qed.
Lemma wp_be_u128 i (Q : bytes * Z -> Prop) :
  (forall i' v, i = be_bytes 16 v ++ i' -> fits_u 128 v -> Q (i', v)) -> wp (be_u128 i) Q.
Proof. rewrite be_u128_law. apply (uint_ref_wp 16). Qed.
Lemma wp_be_i8 i (Q : bytes * Z -> Prop) :
  (forall i' v, i = be_bytes 1 v ++ i' -> fits_i 8 v -> Q (i', v)) -> wp (be_i8 i) Q.
Proof. rewrite be_i8_law. apply (int_ref_wp 1). lia. Qed.
Lemma wp_be_i16 i (Q : bytes * Z -> Prop) :
  (forall i' v, i = be_bytes 2 v ++ i' -> fits_i 16 v -> Q (i', v)) -> wp (be_i16 i) Q.
Proof. rewrite be_i16_law. apply (int_ref_wp 2). lia. Qed.
Lemma wp_be_i24 i (Q : bytes * Z -> Prop) :
  (forall i' v, i = be_bytes 3 v ++ i' -> fits_i 24 v -> Q (i', v)) -> wp (be_i24 i) Q.
Proof. rewrite be_i24_law. apply (int_ref_wp 3). lia. Qed.
Lemma wp_be_i32 i (Q : bytes * Z -> Prop) :
  (forall i' v, i = be_bytes 4 v ++ i' -> fits_i 32 v -> Q (i', v)) -> wp (be_i32 i) Q.
Proof. rewrite be_i32_law. apply (int_ref_wp 4). lia. Qed.
Lemma wp_be_i64 i (Q : bytes * Z -> Prop) :
  (forall i' v, i = be_bytes 8 v ++ i' -> fits_i 64 v -> Q (i', v)) -> wp (be_i64 i) Q.
Proof. rewrite be_i64_law. apply (int_ref_wp 8). lia. Qed.
Lemma wp_be_f32 i (Q : bytes * Z -> Prop) :
  (forall i' v, i = be_bytes 4 v ++ i' -> fits_u 32 v -> Q (i', v)) -> wp (be_f32 i) Q.
Proof. rewrite be_f32_law. apply (uint_ref_wp 4). Qed.
Lemma wp_be_f64 i (Q : bytes * Z -> Prop) :
  (forall i' v, i = be_bytes 8 v ++ i' -> fits_u 64 v -> Q (i', v)) -> wp (be_f64 i) Q.
Proof. rewrite be_f64_law. apply (uint_ref_wp 8). Qed.
Lemma wp_take n i (Q : bytes * bytes -> Prop) :
  0 <= n ->
  (forall i' c, i = c ++ i' -> zlen c = n -> Q (i', c)) -> wp (nom_take n i) Q.
Proof. intros Hn. rewrite nom_take_law. by apply take_ref_wp. Qed.

(** *** The same with enough input: they succeed *)

Lemma take_ref_total n i e : take_ref n i = Err e -> zlen i < n.
Proof. unfold take_ref. destruct (Z.ltb_spec (zlen i) n); [done|discriminate]. Qed.

Lemma uint_ref_total n i e : uint_ref n i = Err e -> zlen i < n.
Proof.
  unfold uint_ref. destruct (take_ref n i) as [[? ?]|] eqn:E; [discriminate|].
  intros _. by eapply take_ref_total.
Qed.

Lemma wpt_take n i (Q : bytes * bytes -> Prop) :
  0 <= n <= zlen i ->
  (forall i' c, i = c ++ i' -> zlen c = n -> Q (i', c)) -> wpt (nom_take n i) Q.
Proof.
  intros Hn HQ. apply wpt_intro; [|apply wp_take; [lia|done]].
  rewrite nom_take_law. intros e He%take_ref_total. lia.
Qed.

Lemma wpt_be_u8 i (Q : bytes * Z -> Prop) :
  1 <= zlen i -> (forall i' v, i = be_bytes 1 v ++ i' -> fits_u 8 v -> Q (i', v)) ->
  wpt (be_u8 i) Q.
Proof.
  intros Hn HQ. apply wpt_intro; [|by apply wp_be_u8].
  rewrite be_u8_law. intros e He%uint_ref_total. lia.
Qed.
Lemma wpt_be_u16 i (Q : bytes * Z -> Prop) :
  2 <= zlen i -> (forall i' v, i = be_bytes 2 v ++ i' -> fits_u 16 v -> Q (i', v)) ->
  wpt (be_u16 i) Q.
Proof.
  intros Hn HQ. apply wpt_intro; [|by apply wp_be_u16].
  rewrite be_u16_law. intros e He%uint_ref_total. lia.
Qed.
Lemma wpt_be_u32 i (Q : bytes * Z -> Prop) :
  4 <= zlen i -> (forall i' v, i = be_bytes 4 v ++ i' -> fits_u 32 v -> Q (i', v)) ->
  wpt (be_u32 i) Q.
Proof.
  intros Hn HQ. apply wpt_intro; [|by apply wp_be_u32].
  rewrite be_u32_law. intros e He%uint_ref_total. lia.
Qed.
Lemma wpt_be_u64 i (Q : bytes * Z -> Prop) :
  8 <= zlen i -> (forall i' v, i = be_bytes 8 v ++ i' -> fits_u 64 v -> Q (i', v)) ->
  wpt (be_u64 i) Q.
Proof.
  intros Hn HQ. apply wpt_intro; [|by apply wp_be_u64].
  rewrite be_u64_law. intros e He%uint_ref_total. lia.
Qed.

Lemma wpt_map {A B} p (g : A -> B) i (Q : bytes * B -> Prop) :
  wpt (p i) (fun '(i, a) => Q (i, g a)) -> wpt (nom_map p g i) Q.
Proof. rewrite nom_map_law. apply (wpt_bind _ (fun i a => Ok (i, g a))). Qed.

Lemma wpt_count_ref {A} (p : bytes -> IResult A) (n : nat) (k : Z) i :
  0 <= k ->
  (forall i, k <= zlen i -> wpt (p i) (fun '(i', _) => zlen i' = zlen i - k)) ->
  k * Z.of_nat n <= zlen i ->
  wpt (count_ref p n i) (fun '(i', _) => zlen i' = zlen i - k * Z.of_nat n).
Proof.
  intros Hk Hp. revert i. induction n as [|n IH]; intros i Hi; cbn; [lia|].
  apply wpt_bind. eapply wpt_mono; [apply Hp; nia|]. intros [i' a] Hi'.
  apply wpt_bind. eapply wpt_mono; [apply IH; nia|]. intros [i'' l] Hi''. cbn. lia.
Qed.

Lemma wp_fail {A} i (Q : bytes * A -> Prop) : wp (fail i) Q.
Proof. by rewrite fail_law. Qed.

Lemma wp_map {A B} p (g : A -> B) i (Q : bytes * B -> Prop) :
  wp (p i) (fun '(i, a) => Q (i, g a)) -> wp (nom_map p g i) Q.
Proof. rewrite nom_map_law. apply (wp_bind _ (fun i a => Ok (i, g a))). Qed.

Lemma wp_map_opt {A B} p (g : A -> option B) i (Q : bytes * B -> Prop) :
  wp (p i) (fun '(i, a) => forall b, g a = Some b -> Q (i, b)) -> wp (map_opt p g i) Q.
Proof.
  rewrite map_opt_law. destruct (p i) as [[i' a]|e]; cbn; [|done].
  destruct (g a); cbn; auto.
Qed.

Lemma wp_verify {A} p (c : A -> bool) i (Q : bytes * A -> Prop) :
  wp (p i) (fun '(i, a) => c a = true -> Q (i, a)) -> wp (verify p c i) Q.
Proof.
  rewrite verify_law. destruct (p i) as [[i' a]|e]; cbn; [|done].
  destruct (c a); cbn; auto.
Qed.

Lemma wp_cond {A} b p i (Q : bytes * option A -> Prop) :
  (b = true -> wp (p i) (fun '(i, a) => Q (i, Some a))) ->
  (b = false -> Q (i, None)) -> wp (cond b p i) Q.
Proof.
  rewrite cond_law. intros H1 H2. destruct b; [|by apply H2].
  apply (wp_bind _ (fun i a => Ok (i, Some a))), H1, eq_refl.
Qed.

Lemma wp_peek {A} p i (Q : bytes * A -> Prop) :
  wp (p i) (fun '(_, a) => Q (i, a)) -> wp (peek p i) Q.
Proof. rewrite peek_law. destruct (p i) as [[i' a]|e]; cbn; auto. Qed.

Lemma wp_tuple2 {A B} p q i (Q : bytes * (A * B) -> Prop) :
  wp (p i) (fun '(i, a) => wp (q i) (fun '(i, b) => Q (i, (a, b)))) -> wp (tuple2 p q i) Q.
Proof.
  rewrite tuple2_law. intros Hp. apply wp_bind. eapply wp_mono; [exact Hp|].
  intros [i' a] Hq. by apply (wp_bind _ (fun i b => Ok (i, (a, b)))).
Qed.

Lemma swp_map_parser {S A} p (f : FnMut S A) s i Q (E : S -> Prop) :
  E s ->
  wp (p i) (fun '(i, data) => swp (f s data) (fun s '(_, a) => Q s (i, a)) E) ->
  swp (map_parser p f s i) Q E.
Proof.
  intros HE. rewrite map_parser_law. destruct (p i) as [[i' d]|e]; cbn; [|done].
  destruct (f s d) as [s' [[i'' a]|e]]; cbn; auto.
Qed.

Lemma map_parser_fn_eq {A} p (q : bytes -> IResult A) i :
  map_parser_fn p q i =
    (let? (i, data) := p i in let? (_, a) := q data in Ok (i, a)).
Proof.
  unfold map_parser_fn. rewrite map_parser_law.
  destruct (p i) as [[i' d]|e]; [|done]. unfold fn.
  by destruct (q d) as [[i'' a]|e].
Qed.

Lemma wp_map_parser {A} p (q : bytes -> IResult A) i (Q : bytes * A -> Prop) :
  wp (p i) (fun '(i, data) => wp (q data) (fun '(_, a) => Q (i, a))) ->
  wp (map_parser_fn p q i) Q.
Proof.
  rewrite map_parser_fn_eq. intros Hp. apply wp_bind. eapply wp_mono; [exact Hp|].
  intros [i' d] Hq. by apply wp_bind.
Qed.

(** *** Repetition *)

(** What [many0] does, by induction over its rounds. *)
Lemma many0_ind {S A} (f : FnMut S A)
    (P : S -> bytes -> S * IResult (list A) -> Prop) :
  shrinking f ->
  (forall s i s', f s i = (s', Err Error) -> P s i (s', Ok (i, []))) ->
  (forall s i s' e, e <> Error -> f s i = (s', Err e) -> P s i (s', Err e)) ->
  (forall s i s' i' a, f s i = (s', Ok (i', a)) -> zlen i' = zlen i -> P s i (s', Err Error)) ->
  (forall s i s' i' a r, f s i = (s', Ok (i', a)) -> zlen i' < zlen i ->
     P s' i' r -> P s i (cons_result a r)) ->
  forall s i, P s i (many0 f s i).
Proof.
  intros Hf Hstop Herr Hstuck Hstep s i.
  remember (length i) as n eqn:Hn. revert s i Hn.
  induction n as [n IH] using lt_wf_ind. intros s i ->.
  rewrite many0_law by done. unfold many0_step.
  destruct (f s i) as [s' [[i' a]|e]] eqn:E.
  - pose proof (Hf _ _ _ _ _ E). destruct (Z.eqb_spec (zlen i') (zlen i)).
    + by eapply Hstuck.
    + eapply Hstep; [done|lia|]. unfold zlen in *. eapply IH; [|done]. lia.
  - destruct e; try (by eapply Herr); by apply Hstop.
Qed.

Lemma swp_cons_result {S A} (a : A) (r : S * IResult (list A)) Q E :
  swp r (fun s '(i, l) => Q s (i, a :: l)) E -> swp (cons_result a r) Q E.
Proof. by destruct r as [s [[i l]|e]]. Qed.

(** A loop invariant [I] over the closure's state and a property [R] of each
    element; the loop succeeds when every round consumes something. *)
Lemma swp_many0 {S A} (f : FnMut S A) (I : S -> Prop) (R : A -> Prop) s i :
  (forall s i, I s ->
     swp (f s i) (fun s '(i', a) => I s /\ R a /\ i' `suffix_of` i /\ zlen i' < zlen i) I) ->
  shrinking f ->
  I s ->
  swp (many0 f s i) (fun s '(i', l) => I s /\ Forall R l /\ i' `suffix_of` i) (fun _ => False).
Proof.
  intros Hf Hs. revert s i.
  apply (many0_ind f (fun s i r => I s ->
    swp r (fun s '(i', l) => I s /\ Forall R l /\ i' `suffix_of` i) (fun _ => False))); [done|..].
  - intros s i s' E HI. specialize (Hf s i HI). rewrite E in Hf. cbn in *.
    destruct Hf as [_ ?]. repeat split; auto.
  - intros s i s' e He E HI. specialize (Hf s i HI). rewrite E in Hf. cbn in *. naive_solver.
  - intros s i s' i' a E Hl HI. specialize (Hf s i HI). rewrite E in Hf. cbn in *.
    destruct Hf as (_ & _ & _ & ?). lia.
  - intros s i s' i' a r E Hl IH HI. specialize (Hf s i HI). rewrite E in Hf. cbn in Hf.
    destruct Hf as (HI' & HR & Hsuf & _).
    apply swp_cons_result. eapply swp_mono; [by apply IH| |done].
    intros s'' [i'' l] (? & ? & ?). repeat split; auto. by etransitivity.
Qed.

Lemma fn_shrinking {A} (p : bytes -> IResult A) :
  (forall i, leaves i (p i)) -> shrinking (fn p).
Proof.
  intros Hp s i s' i' a [= <- E]. apply suffix_zlen.
  specialize (Hp i). unfold leaves in Hp. by rewrite E in Hp.
Qed.

Lemma wp_many0 {A} (p : bytes -> IResult A) (R : A -> Prop) i :
  (forall i, wp (p i) (fun '(i', a) => R a /\ i' `suffix_of` i /\ zlen i' < zlen i)) ->
  exists i' l, many0_fn p i = Ok (i', l) /\ Forall R l /\ i' `suffix_of` i.
Proof.
  intros Hp. unfold many0_fn.
  assert (Hs : shrinking (fn p)).
  { apply fn_shrinking. intros j. eapply wp_mono; [apply Hp|]. intros [? ?]. naive_solver. }
  pose proof (swp_many0 (fn p) (fun _ => True) R tt i) as H.
  destruct (many0 (fn p) tt i) as [s [[i' l]|e]]; cbn in *.
  - exists i', l. destruct H as (_ & ? & ?); auto. intros s' j _. unfold fn; cbn.
    specialize (Hp j). destruct (p j) as [[? ?]|?]; cbn in *; naive_solver.
  - exfalso. apply H; auto. intros s' j _. unfold fn; cbn.
    specialize (Hp j). destruct (p j) as [[? ?]|?]; cbn in *; naive_solver.
Qed.

(** [many0] reads back what was written element by element. *)
Lemma many0_fn_concat {A} (p : bytes -> IResult A) (enc : A -> bytes) l rest :
  (forall i, leaves i (p i)) ->
  (forall a i, a ∈ l -> p (enc a ++ i) = Ok (i, a)) ->
  (forall a, a ∈ l -> 0 < zlen (enc a)) ->
  p rest = Err Error ->
  many0_fn p (concat (enc <$> l) ++ rest) = Ok (rest, l).
Proof.
  intros Hs Hp Hlen Hrest. unfold many0_fn. induction l as [|a l IH].
  - rewrite many0_law by by apply fn_shrinking. unfold many0_step, fn. cbn.
    by rewrite Hrest.
  - rewrite many0_law by by apply fn_shrinking. unfold many0_step, fn at 2. cbn.
    rewrite <- app_assoc, Hp by set_solver.
    pose proof (Hlen a ltac:(set_solver)).
    destruct (Z.eqb_spec (zlen (concat (enc <$> l) ++ rest))
                (zlen (enc a ++ concat (enc <$> l) ++ rest))) as [Heq|_].
    { rewrite (zlen_app (enc a)) in Heq. lia. }
    unfold fn in *. destruct (many0 _ tt _) as [u r]. cbn in *.
    rewrite IH by set_solver. done.
Qed.

Lemma count_ref_concat {A} (p : bytes -> IResult A) (enc : A -> bytes) l rest :
  (forall a i, a ∈ l -> p (enc a ++ i) = Ok (i, a)) ->
  count_ref p (length l) (concat (enc <$> l) ++ rest) = Ok (rest, l).
Proof.
  intros Hp. induction l as [|a l IH]; [done|]. cbn.
  rewrite <- app_assoc, Hp by set_solver. by rewrite IH by set_solver.
Qed.

Lemma count_concat {A} (p : bytes -> IResult A) (enc : A -> bytes) l n rest :
  n = zlen l ->
  (forall a i, a ∈ l -> p (enc a ++ i) = Ok (i, a)) ->
  count p n (concat (enc <$> l) ++ rest) = Ok (rest, l).
Proof.
  intros -> Hp. rewrite count_law by apply zlen_nonneg.
  unfold zlen. rewrite Nat2Z.id. by apply count_ref_concat.
Qed.

(** The successful rounds of a loop, each from the state and the input the one
    before left. *)
Inductive rounds {S A} (f : FnMut S A) : S -> bytes -> S -> bytes -> list A -> Prop :=
  | rounds_nil s i : rounds f s i s i []
  | rounds_cons s i s1 i1 a s' i' l :
      f s i = (s1, Ok (i1, a)) -> rounds f s1 i1 s' i' l -> rounds f s i s' i' (a :: l).

(** Rules for a closure every round of which consumes something and that only
    fails with [Error]: its loop succeeds, and stops where it fails. *)
Definition consuming {S A} (f : FnMut S A) : Prop :=
  forall s i, match f s i with
              | (_, Ok (i', _)) => zlen i' < zlen i
              | (_, Err e) => e = Error
              end.

Lemma consuming_shrinking {S A} (f : FnMut S A) : consuming f -> shrinking f.
Proof. intros Hf s i s' i' a E. specialize (Hf s i). rewrite E in Hf. lia. Qed.

Lemma many0_rounds {S A} (f : FnMut S A) s i :
  consuming f ->
  exists s1 s' i' l,
    many0 f s i = (s', Ok (i', l)) /\ rounds f s i s1 i' l /\ f s1 i' = (s', Err Error).
Proof.
  intros Hf. revert s i.
  apply (many0_ind f (fun s i r => exists s1 s' i' l,
    r = (s', Ok (i', l)) /\ rounds f s i s1 i' l /\ f s1 i' = (s', Err Error))).
  - by apply consuming_shrinking.
  - intros s i s' E. exists s, s', i, []. repeat split; auto using rounds_nil.
  - intros s i s' e He E. specialize (Hf s i). by rewrite E in Hf.
  - intros s i s' i' a E Hl. specialize (Hf s i). rewrite E in Hf. lia.
  - intros s i s1 i1 a r E Hl (s2 & s' & i' & l & -> & Hr & Hstop).
    exists s2, s', i', (a :: l). repeat split; auto. by eapply rounds_cons.
Qed.

(** The loop does the rounds there are, when the next one fails. *)
Lemma rounds_many0 {S A} (f : FnMut S A) s i s1 i1 l s' :
  consuming f -> rounds f s i s1 i1 l -> f s1 i1 = (s', Err Error) ->
  many0 f s i = (s', Ok (i1, l)).
Proof.
  intros Hf Hr Hstop. pose proof (consuming_shrinking f Hf) as Hsh.
  induction Hr as [s i|s i s1 i1 a s2 i2 l E _ IH]; rewrite many0_law by done; unfold many0_step.
  - by rewrite Hstop.
  - rewrite E. specialize (Hf s i). rewrite E in Hf.
    destruct (Z.eqb_spec (zlen i1) (zlen i)); [lia|]. by rewrite IH.
Qed.

(** Elements written one after the other are read back in rounds. *)
Lemma rounds_concat {S A} (f : FnMut S A) (enc : A -> bytes) s l rest :
  (forall a i, a ∈ l -> f s (enc a ++ i) = (s, Ok (i, a))) ->
  rounds f s (concat (enc <$> l) ++ rest) s rest l.
Proof.
  intros Hf. induction l as [|a l IH]; [constructor|]. cbn. rewrite <- app_assoc.
  eapply rounds_cons; [apply Hf; set_solver|]. apply IH. set_solver.
Qed.

(** Rounds that each consume a chunk related to their value. *)
Lemma rounds_chunks {S A} (f : FnMut S A) (R : bytes -> A -> Prop) s i s' i' l :
  (forall s i, match f s i with
               | (_, Ok (i', a)) => exists c, i = c ++ i' /\ R c a
               | _ => True
               end) ->
  rounds f s i s' i' l -> exists cs, i = concat cs ++ i' /\ Forall2 R cs l.
Proof.
  intros Hf. induction 1 as [s i|s i s1 i1 a s' i' l E _ IH].
  - exists []. split; [done|constructor].
  - destruct IH as (cs & -> & HR). specialize (Hf s i). rewrite E in Hf.
    destruct Hf as (c & -> & Hc). exists (c :: cs). cbn. rewrite <- app_assoc. split; [done|].
    by constructor.
Qed.

(** ** Parsers that return a suffix of their input *)

Lemma leaves_ok {A} i (a : A) : leaves i (Ok (i, a)).
Proof. by apply wp_ret. Qed.

Lemma leaves_err {A} i : leaves i (Err Error : IResult A).
Proof. done. Qed.

Lemma leaves_suffix {A} i i' (r : IResult A) : i' `suffix_of` i -> leaves i' r -> leaves i r.
Proof. intros Hs Hr. eapply wp_mono; [exact Hr|]. intros [j a] Hj. by etransitivity. Qed.

Lemma leaves_bind {A B} i (r : IResult A) (k : bytes -> A -> IResult B) :
  leaves i r -> (forall i' a, leaves i' (k i' a)) ->
  leaves i (match r with Ok x => let (i, a) := x in k i a | Err e => Err e end).
Proof.
  intros Hr Hk. apply wp_bind. eapply wp_mono; [exact Hr|]. intros [i' a] Hi.
  by eapply leaves_suffix; [|apply Hk].
Qed.

Lemma leaves_map {A B} p (g : A -> B) i : leaves i (p i) -> leaves i (nom_map p g i).
Proof. rewrite nom_map_law. intros H. apply leaves_bind; [done|]. intros. apply leaves_ok. Qed.

Lemma leaves_map_opt {A B} p (g : A -> option B) i : leaves i (p i) -> leaves i (map_opt p g i).
Proof.
  rewrite map_opt_law. intros H. apply leaves_bind; [done|]. intros i' a.
  destruct (g a); [apply leaves_ok|apply leaves_err].
Qed.

Lemma leaves_map_res {A B} p (g : A -> option B) i : leaves i (p i) -> leaves i (map_res p g i).
Proof. intros Hp. rewrite map_res_law, <- map_opt_law. by apply leaves_map_opt. Qed.

Lemma leaves_cond {A} b (p : bytes -> IResult A) i : leaves i (p i) -> leaves i (cond b p i).
Proof.
  rewrite cond_law. intros H. destruct b; [|apply leaves_ok].
  apply leaves_bind; [done|]. intros. apply leaves_ok.
Qed.

Lemma leaves_verify {A} p (c : A -> bool) i : leaves i (p i) -> leaves i (verify p c i).
Proof.
  rewrite verify_law. intros H. apply leaves_bind; [done|]. intros i' a.
  destruct (c a); [apply leaves_ok|apply leaves_err].
Qed.

Lemma leaves_tuple2 {A B} (p : bytes -> IResult A) (q : bytes -> IResult B) i :
  leaves i (p i) -> (forall i, leaves i (q i)) -> leaves i (tuple2 p q i).
Proof.
  rewrite tuple2_law. intros Hp Hq. apply leaves_bind; [done|]. intros i' a.
  apply leaves_bind; [apply Hq|]. intros. apply leaves_ok.
Qed.

Lemma leaves_take_ref n i : leaves i (take_ref n i).
Proof.
  unfold take_ref. destruct (_ <? n); [apply leaves_err|]. apply wp_ret.
  exists (take (Z.to_nat n) i). by rewrite take_drop.
Qed.

Lemma leaves_take n i : leaves i (nom_take n i).
Proof. rewrite nom_take_law. apply leaves_take_ref. Qed.

Lemma leaves_uint_ref n i : leaves i (uint_ref n i).
Proof. apply leaves_bind; [apply leaves_take_ref|]. intros. apply leaves_ok. Qed.

Lemma leaves_int_ref n i : leaves i (int_ref n i).
Proof. apply leaves_bind; [apply leaves_uint_ref|]. intros. apply leaves_ok. Qed.

Lemma leaves_u8 i : leaves i (be_u8 i).
Proof. rewrite be_u8_law. apply leaves_uint_ref. Qed.
Lemma leaves_u16 i : leaves i (be_u16 i).
Proof. rewrite be_u16_law. apply leaves_uint_ref. Qed.
Lemma leaves_u24 i : leaves i (be_u24 i).
Proof. rewrite be_u24_law. apply leaves_uint_ref. Qed.
Lemma leaves_u32 i : leaves i (be_u32 i).
Proof. rewrite be_u32_law. apply leaves_uint_ref. Qed.
Lemma leaves_u64 i : leaves i (be_u64 i).
Proof. rewrite be_u64_law. apply leaves_uint_ref. Qed.
Lemma leaves_u128 i : leaves i (be_u128 i).
Proof. rewrite be_u128_law. apply leaves_uint_ref. Qed.
Lemma leaves_i8 i : leaves i (be_i8 i).
Proof. rewrite be_i8_law. apply leaves_int_ref. Qed.
Lemma leaves_i16 i : leaves i (be_i16 i).
Proof. rewrite be_i16_law. apply leaves_int_ref. Qed.
Lemma leaves_i24 i : leaves i (be_i24 i).
Proof. rewrite be_i24_law. apply leaves_int_ref. Qed.
Lemma leaves_i32 i : leaves i (be_i32 i).
Proof. rewrite be_i32_law. apply leaves_int_ref. Qed.
Lemma leaves_i64 i : leaves i (be_i64 i).
Proof. rewrite be_i64_law. apply leaves_int_ref. Qed.
Lemma leaves_f32 i : leaves i (be_f32 i).
Proof. rewrite be_f32_law. apply leaves_uint_ref. Qed.
Lemma leaves_f64 i : leaves i (be_f64 i).
Proof. rewrite be_f64_law. apply leaves_uint_ref. Qed.

Lemma leaves_count {A} (p : bytes -> IResult A) n i :
  0 <= n -> (forall i, leaves i (p i)) -> leaves i (count p n i).
Proof.
  intros Hn Hp. rewrite count_law by done. revert i.
  induction (Z.to_nat n) as [|m IH]; intros i; cbn [count_ref]; [apply leaves_ok|].
  apply leaves_bind; [apply Hp|]. intros i' a. apply leaves_bind; [apply IH|].
  intros. apply leaves_ok.
Qed.

(** Whatever its rounds do, a loop over such a parser returns a suffix. *)
Lemma leaves_many0 {A} (p : bytes -> IResult A) i :
  (forall i, leaves i (p i)) -> leaves i (many0_fn p i).
Proof.
  intros Hp. unfold many0_fn. generalize tt.
  assert (Hr : forall s i, leaves i (many0 (fn p) s i).2); [|intros; apply Hr].
  apply (many0_ind (fn p) (fun s i r => leaves i r.2)); [by apply fn_shrinking|..].
  - intros. apply leaves_ok.
  - intros s j s' e He [= <- E]. specialize (Hp j). rewrite E in Hp. by destruct He.
  - intros. apply leaves_err.
  - intros s j s' i' a [s2 [[i'' l]|e]] [= <- E] Hl IH; cbn in *; [|done].
    specialize (Hp j). rewrite E in Hp. by etransitivity.
Qed.

Lemma leaves_many0_st {S A} (f : FnMut S A) s i :
  (forall s i, leaves i (f s i).2) -> leaves i (many0 f s i).2.
Proof.
  intros Hf. revert s i. apply (many0_ind f (fun s i r => leaves i r.2)).
  - intros s i s' i' a E. specialize (Hf s i). rewrite E in Hf. by apply suffix_zlen.
  - intros. apply leaves_ok.
  - intros s j s' e He E. specialize (Hf s j). rewrite E in Hf. by destruct He.
  - intros. apply leaves_err.
  - intros s j s' i' a [s2 [[i'' l]|e]] E Hl IH; cbn in *; [|done].
    specialize (Hf s j). rewrite E in Hf. cbn in *. by etransitivity.
Qed.

(** A loop whose rounds move its state along a preorder and return values
    that satisfy [R]. *)
Lemma swp_many0_mono {S A} (le : S -> S -> Prop) `{!PreOrder le} (f : FnMut S A) (R : A -> Prop) s i :
  (forall s i, swp (f s i) (fun s' '(i', a) => le s s' /\ R a /\ i' `suffix_of` i) (le s)) ->
  swp (many0 f s i) (fun s' '(i', l) => le s s' /\ Forall R l /\ i' `suffix_of` i) (le s).
Proof.
  intros Hf. revert s i. apply (many0_ind f (fun s i r =>
    swp r (fun s' '(i', l) => le s s' /\ Forall R l /\ i' `suffix_of` i) (le s))).
  - intros s i s' i' a E. specialize (Hf s i). rewrite E in Hf. apply suffix_zlen, Hf.
  - intros s i s' E. specialize (Hf s i). rewrite E in Hf. cbn in *. naive_solver.
  - intros s i s' e He E. specialize (Hf s i). rewrite E in Hf. cbn in *. naive_solver.
  - intros s i s' i' a E Hl. specialize (Hf s i). rewrite E in Hf. cbn in *. naive_solver.
  - intros s i s' i' a r E Hl IH. specialize (Hf s i). rewrite E in Hf. cbn in Hf.
    destruct Hf as (Hle & HR & Hsuf). apply swp_cons_result.
    eapply swp_mono; [exact IH| |].
    + intros s'' [i'' l] (? & ? & ?). split_and!; auto; by etransitivity.
    + intros s'' ?. by etransitivity.
Qed.

(** The same through the binds of a closure. *)
Lemma leaves_bind_st {S A B} i (r : S * IResult A) (k : S -> bytes -> A -> S * IResult B) :
  leaves i r.2 -> (forall s i' a, leaves i' (k s i' a).2) ->
  leaves i (match r with (s, Ok x) => let (i, a) := x in k s i a | (s, Err e) => (s, Err e) end).2.
Proof.
  destruct r as [s [[i' a]|e]]; cbn; [|done]. intros Hi Hk. by eapply leaves_suffix; [|apply Hk].
Qed.

Lemma leaves_bind_pure {S A B} i (s : S) (r : IResult A) (k : bytes -> A -> S * IResult B) :
  leaves i r -> (forall i' a, leaves i' (k i' a).2) ->
  leaves i (match r with Ok x => let (i, a) := x in k i a | Err e => (s, Err e) end).2.
Proof.
  destruct r as [[i' a]|e]; cbn; [|done]. intros Hi Hk. by eapply leaves_suffix; [|apply Hk].
Qed.

Lemma leaves_map_parser {A} p (q : bytes -> IResult A) i :
  leaves i (p i) -> (forall d, leaves d (q d)) -> leaves i (map_parser_fn p q i).
Proof.
  intros Hp Hq. rewrite map_parser_fn_eq. apply leaves_bind; [done|]. intros i' d.
  specialize (Hq d). destruct (q d) as [[d' a]|e]; [apply leaves_ok|exact Hq].
Qed.

(** ** Parsers of fixed-size values

    [reads n p R]: [p] consumes exactly [n] octets, relates them to its value
    by [R], and fails with [Error] when there are fewer. *)
Definition reads {A} (n : Z) (p : bytes -> IResult A) (R : bytes -> A -> Prop) : Prop :=
  (forall c i, zlen c = n -> exists a, p (c ++ i) = Ok (i, a) /\ R c a) /\
  (forall i, zlen i < n -> p i = Err Error).

Lemma reads_at {A} n (p : bytes -> IResult A) R i :
  0 <= n -> reads n p R ->
  (zlen i < n /\ p i = Err Error) \/
  (exists c i' a, i = c ++ i' /\ zlen c = n /\ p i = Ok (i', a) /\ R c a).
Proof.
  intros Hn [Hok Herr]. destruct (Z.ltb_spec (zlen i) n) as [H|H]; [left; auto|right].
  assert (Hc : zlen (take (Z.to_nat n) i) = n) by (unfold zlen in *; rewrite length_take; lia).
  destruct (Hok _ (drop (Z.to_nat n) i) Hc) as (a & E & HR).
  rewrite take_drop in E. exists (take (Z.to_nat n) i), (drop (Z.to_nat n) i), a.
  by rewrite take_drop.
Qed.

Lemma reads_mono {A} n (p : bytes -> IResult A) (R R' : bytes -> A -> Prop) :
  reads n p R -> (forall c a, zlen c = n -> R c a -> R' c a) -> reads n p R'.
Proof.
  intros [Hok Herr] HR. split; [|done]. intros c i Hc.
  destruct (Hok c i Hc) as (a & E & Ha). eauto.
Qed.

Lemma reads_ext {A} n (p q : bytes -> IResult A) R :
  (forall i, p i = q i) -> reads n p R -> reads n q R.
Proof. intros Heq [Hok Herr]. split; intros; rewrite <- Heq; auto. Qed.

Lemma reads_map {A B} n p (h : A -> B) R :
  reads n p R -> reads n (nom_map p h) (fun c b => exists a, R c a /\ b = h a).
Proof.
  intros [Hok Herr]. split; intros; rewrite nom_map_law.
  - destruct (Hok c i H) as (a & -> & Ha). eauto.
  - by rewrite Herr.
Qed.

Lemma reads_map_opt {A B} n p (h : A -> option B) R :
  reads n p R -> (forall c a, zlen c = n -> R c a -> is_Some (h a)) ->
  reads n (map_opt p h) (fun c b => exists a, R c a /\ h a = Some b).
Proof.
  intros [Hok Herr] Hh. split; intros; rewrite map_opt_law.
  - destruct (Hok c i H) as (a & -> & Ha). destruct (Hh c a H Ha) as [b Hb]. rewrite Hb. eauto.
  - by rewrite Herr.
Qed.

Lemma reads_take n : 0 <= n -> reads n (nom_take n) (fun c a => a = c).
Proof.
  intros Hn. split.
  - intros c i <-. exists c. by rewrite nom_take_app.
  - intros i Hi. rewrite nom_take_law. unfold take_ref.
    by destruct (Z.ltb_spec (zlen i) n); [|lia].
Qed.

Lemma reads_uint_ref n : 0 <= n -> reads n (uint_ref n) (fun c a => a = be_value c).
Proof.
  intros Hn. unfold uint_ref. split.
  - intros c i <-. exists (be_value c). by rewrite take_ref_app.
  - intros i Hi. unfold take_ref. by destruct (Z.ltb_spec (zlen i) n); [|lia].
Qed.

Lemma reads_int_ref n :
  0 <= n -> reads n (int_ref n) (fun c a => a = to_signed (8 * n) (be_value c)).
Proof.
  intros Hn. destruct (reads_uint_ref n Hn) as [Hok Herr]. unfold int_ref. split.
  - intros c i Hc. destruct (Hok c i Hc) as (a & -> & ->). eauto.
  - intros i Hi. by rewrite Herr.
Qed.

Lemma reads_u8 : reads 1 be_u8 (fun c a => a = be_value c).
Proof. apply (reads_ext _ (uint_ref 1)), reads_uint_ref; [|lia]. intros. by rewrite be_u8_law. Qed.
Lemma reads_u16 : reads 2 be_u16 (fun c a => a = be_value c).
Proof. apply (reads_ext _ (uint_ref 2)), reads_uint_ref; [|lia]. intros. by rewrite be_u16_law. Qed.
Lemma reads_u24 : reads 3 be_u24 (fun c a => a = be_value c).
Proof. apply (reads_ext _ (uint_ref 3)), reads_uint_ref; [|lia]. intros. by rewrite be_u24_law. Qed.
Lemma reads_u32 : reads 4 be_u32 (fun c a => a = be_value c).
Proof. apply (reads_ext _ (uint_ref 4)), reads_uint_ref; [|lia]. intros. by rewrite be_u32_law. Qed.
Lemma reads_u64 : reads 8 be_u64 (fun c a => a = be_value c).
Proof. apply (reads_ext _ (uint_ref 8)), reads_uint_ref; [|lia]. intros. by rewrite be_u64_law. Qed.
Lemma reads_f32 : reads 4 be_f32 (fun c a => a = be_value c).
Proof. apply (reads_ext _ (uint_ref 4)), reads_uint_ref; [|lia]. intros. by rewrite be_f32_law. Qed.
Lemma reads_f64 : reads 8 be_f64 (fun c a => a = be_value c).
Proof. apply (reads_ext _ (uint_ref 8)), reads_uint_ref; [|lia]. intros. by rewrite be_f64_law. Qed.
Lemma reads_i8 : reads 1 be_i8 (fun c a => a = to_signed 8 (be_value c)).
Proof. apply (reads_ext _ (int_ref 1)), reads_int_ref; [|lia]. intros. by rewrite be_i8_law. Qed.
Lemma reads_i16 : reads 2 be_i16 (fun c a => a = to_signed 16 (be_value c)).
Proof. apply (reads_ext _ (int_ref 2)), reads_int_ref; [|lia]. intros. by rewrite be_i16_law. Qed.
Lemma reads_i24 : reads 3 be_i24 (fun c a => a = to_signed 24 (be_value c)).
Proof. apply (reads_ext _ (int_ref 3)), reads_int_ref; [|lia]. intros. by rewrite be_i24_law. Qed.
Lemma reads_i32 : reads 4 be_i32 (fun c a => a = to_signed 32 (be_value c)).
Proof. apply (reads_ext _ (int_ref 4)), reads_int_ref; [|lia]. intros. by rewrite be_i32_law. Qed.
Lemma reads_i64 : reads 8 be_i64 (fun c a => a = to_signed 64 (be_value c)).
Proof. apply (reads_ext _ (int_ref 8)), reads_int_ref; [|lia]. intros. by rewrite be_i64_law. Qed.

(** Nothing read, and one parser after another. *)
Lemma reads_ret {A} (a : A) : reads 0 (fun i => Ok (i, a)) (fun c b => b = a).
Proof.
  split.
  - intros c i Hc. exists a. destruct c as [|b c]; [done|]. rewrite zlen_cons in Hc.
    pose proof (zlen_nonneg c). lia.
  - intros i Hi. pose proof (zlen_nonneg i). lia.
Qed.

Lemma reads_bind {A B} m n (p : bytes -> IResult A) (q : A -> bytes -> IResult B) P Q :
  0 <= m -> 0 <= n -> reads m p P -> (forall a, reads n (q a) (Q a)) ->
  reads (m + n) (fun i => let? (i, a) := p i in q a i)
    (fun c b => exists c1 c2 a, c = c1 ++ c2 /\ zlen c1 = m /\ P c1 a /\ Q a c2 b).
Proof.
  intros Hm Hn Hp Hq. split.
  - intros c i Hc. destruct (reads_at m p P (c ++ i) Hm Hp) as [[Hs _]|(c1 & i1 & a & E & Hc1 & -> & Ha)].
    { rewrite zlen_app in Hs. pose proof (zlen_nonneg i). lia. }
    assert (Hc2 : c = c1 ++ drop (length c1) c /\ i1 = drop (length c1) c ++ i).
    { apply app_eq_inv in E as [(k & -> & ->)|(k & -> & ->)].
      - by rewrite drop_app_length.
      - rewrite zlen_app in Hc1. assert (k = []) as ->.
        { destruct k; [done|]. rewrite zlen_cons in Hc1. pose proof (zlen_nonneg k). lia. }
        by rewrite !app_nil_r, drop_all, app_nil_r. }
    destruct Hc2 as [Hc2 ->].
    destruct (Hq a) as [Hok _]. destruct (Hok (drop (length c1) c) i) as (b & -> & Hb).
    { apply (f_equal zlen) in Hc2. rewrite zlen_app in Hc2. lia. }
    exists b. split; [done|]. exists c1, (drop (length c1) c), a. auto.
  - intros i Hi. destruct (reads_at m p P i Hm Hp) as [[_ ->]|(c1 & i1 & a & -> & Hc1 & -> & Ha)]; [done|].
    destruct (Hq a) as [_ Herr]. apply Herr. rewrite zlen_app in Hi. lia.
Qed.

(** A loop over records of [k] octets reads as many as there are. *)
Lemma many0_fn_exact {A} (p : bytes -> IResult A) (k : Z) (R : bytes -> A -> Prop) i :
  0 < k -> reads k p R ->
  exists cs l i', many0_fn p i = Ok (i', l) /\ i = concat cs ++ i' /\
    Forall2 (fun c a => zlen c = k /\ R c a) cs l /\ zlen i' < k.
Proof.
  intros Hk Hp.
  assert (Hat : forall i, (zlen i < k /\ p i = Err Error) \/
      (exists c i' a, i = c ++ i' /\ zlen c = k /\ p i = Ok (i', a) /\ R c a)).
  { intros j. apply reads_at; [lia|done]. }
  assert (Hc : consuming (fn p)).
  { intros s j. unfold fn. destruct (Hat j) as [[_ ->]|(c & i' & a & -> & Hc & -> & _)]; [done|].
    rewrite zlen_app. lia. }
  destruct (many0_rounds (fn p) tt i Hc) as (s1 & s' & i' & l & E & Hr & Hstop).
  unfold many0_fn. rewrite E. cbn.
  destruct (rounds_chunks (fn p) (fun c a => zlen c = k /\ R c a) _ _ _ _ _ ltac:(
    intros s j; unfold fn; destruct (Hat j) as [[_ ->]|(c & j' & a & -> & ? & -> & ?)]; [done|eauto])
    Hr) as (cs & -> & HR).
  exists cs, l, i'. split_and!; try done.
  destruct (Hat i') as [[? _]|(c & j' & a & -> & ? & E' & _)]; [done|].
  unfold fn in Hstop. congruence.
Qed.

(** Chunks of [k] octets and a remainder: the division of the length by [k]. *)
Lemma chunks_div (cs : list bytes) (i' : bytes) k :
  0 < k -> Forall (fun c => zlen c = k) cs -> zlen i' < k ->
  zlen cs = zlen (concat cs ++ i') / k /\ zlen i' = zlen (concat cs ++ i') mod k.
Proof.
  intros Hk Hcs Hi.
  assert (Hl : zlen (concat cs) = k * zlen cs).
  { induction Hcs as [|c cs Hc _ IH]; cbn [concat].
    - unfold zlen. cbn. lia.
    - rewrite zlen_app, zlen_cons, IH, Hc. lia. }
  rewrite zlen_app, Hl. pose proof (zlen_nonneg i').
  split; [apply Z.div_unique with (zlen i'); lia|].
  apply Z.mod_unique with (zlen cs); lia.
Qed.

(** Each element satisfies [R], given the input it was read from. *)
Lemma wp_count_ref {A} (p : bytes -> IResult A) (R : bytes -> A -> Prop) n i :
  (forall i, wp (p i) (fun '(i', a) => exists c, i = c ++ i' /\ R c a)) ->
  wp (count_ref p n i) (fun '(i', l) =>
    exists cs, i = concat cs ++ i' /\ Forall2 R cs l /\ length l = n).
Proof.
  intros Hp. revert i. induction n as [|n IH]; intros i; cbn.
  - exists []. auto.
  - apply wp_bind. eapply wp_mono; [apply Hp|]. intros [i' a] (c & -> & HR).
    apply wp_bind. eapply wp_mono; [apply IH|]. intros [i'' l] (cs & -> & HRs & <-).
    exists (c :: cs). cbn. rewrite <- app_assoc. auto.
Qed.

Lemma wp_count {A} (p : bytes -> IResult A) (R : bytes -> A -> Prop) n i :
  0 <= n ->
  (forall i, wp (p i) (fun '(i', a) => exists c, i = c ++ i' /\ R c a)) ->
  wp (count p n i) (fun '(i', l) =>
    exists cs, i = concat cs ++ i' /\ Forall2 R cs l /\ zlen l = n).
Proof.
  intros Hn Hp. rewrite count_law by done.
  eapply wp_mono; [by apply wp_count_ref|]. intros [i' l] (cs & -> & HR & Hl).
  exists cs. unfold zlen. repeat split; auto. lia.
Qed.
End nom_facts.

Create HintDb leaves.
#[export] Hint Resolve leaves_ok leaves_err leaves_bind leaves_map leaves_map_opt leaves_map_res leaves_verify leaves_cond
  leaves_tuple2 leaves_take leaves_u8 leaves_u16 leaves_u24 leaves_u32 leaves_u64 leaves_u128
  leaves_i8 leaves_i16 leaves_i24 leaves_i32 leaves_i64 leaves_f32 leaves_f64 leaves_many0
  leaves_map_parser : leaves.

(** ** Automation *)

(** Side conditions about widths: a field of the context, or a constant. *)
Ltac fits := first [ eassumption | solve [ width ] ].

Create Rewrite HintDb nom.
#[export] Hint Rewrite
  @be_u8_app @be_u16_app @be_u24_app @be_u32_app @be_u64_app @be_u128_app
  @be_i8_app @be_i16_app @be_i24_app @be_i32_app @be_i64_app
  @be_f32_app @be_f64_app using fits : nom.

(** One step of a postcondition proof: a bind, a return, or a primitive;
    [wp_user] is extended by the files that define more primitives. *)
Ltac wp_prim tac := tac; let i := fresh "i" in let v := fresh "v" in intros i v -> ?.

Ltac wp_user := fail.

Ltac wp_step :=
  lazymatch goal with
  | |- wp (Ok _) _ => apply wp_ret
  | |- wp (match _ with Ok _ => _ | Err _ => _ end) _ => apply wp_bind
  | |- wp (be_u8 _) _ => wp_prim ltac:(apply wp_be_u8)
  | |- wp (be_u16 _) _ => wp_prim ltac:(apply wp_be_u16)
  | |- wp (be_u24 _) _ => wp_prim ltac:(apply wp_be_u24)
  | |- wp (be_u32 _) _ => wp_prim ltac:(apply wp_be_u32)
  | |- wp (be_u64 _) _ => wp_prim ltac:(apply wp_be_u64)
  | |- wp (be_u128 _) _ => wp_prim ltac:(apply wp_be_u128)
  | |- wp (be_i8 _) _ => wp_prim ltac:(apply wp_be_i8)
  | |- wp (be_i16 _) _ => wp_prim ltac:(apply wp_be_i16)
  | |- wp (be_i24 _) _ => wp_prim ltac:(apply wp_be_i24)
  | |- wp (be_i32 _) _ => wp_prim ltac:(apply wp_be_i32)
  | |- wp (be_i64 _) _ => wp_prim ltac:(apply wp_be_i64)
  | |- wp (be_f32 _) _ => wp_prim ltac:(apply wp_be_f32)
  | |- wp (be_f64 _) _ => wp_prim ltac:(apply wp_be_f64)
  | |- wp (nom_take _ _) _ => wp_prim ltac:(apply wp_take; [first [lia | apply zlen_nonneg]|])
  | |- wp (fail _) _ => apply wp_fail
  | |- wp (nom_map _ _ _) _ => apply wp_map
  | |- wp (map_opt _ _ _) _ => apply wp_map_opt
  | |- wp (verify _ _ _) _ => apply wp_verify
  | |- wp (peek _ _) _ => apply wp_peek
  | |- wp (tuple2 _ _ _) _ => apply wp_tuple2
  | |- wp (map_parser_fn _ _ _) _ => apply wp_map_parser
  | |- wp _ _ => wp_user
  end.

(** The same for total correctness; the lengths must be in the context. *)
Ltac room := autorewrite with zlen in *; lia.

Ltac wpt_prim tac := tac; [room|]; let i := fresh "i" in let v := fresh "v" in intros i v -> ?.

Ltac wpt_user := fail.

Ltac wpt_step :=
  lazymatch goal with
  | |- wpt (Ok _) _ => cbn [wpt]
  | |- wpt (match _ with Ok _ => _ | Err _ => _ end) _ => apply wpt_bind
  | |- wpt (be_u8 _) _ => wpt_prim ltac:(apply wpt_be_u8)
  | |- wpt (be_u16 _) _ => wpt_prim ltac:(apply wpt_be_u16)
  | |- wpt (be_u32 _) _ => wpt_prim ltac:(apply wpt_be_u32)
  | |- wpt (be_u64 _) _ => wpt_prim ltac:(apply wpt_be_u64)
  | |- wpt (nom_take _ _) _ => wpt_prim ltac:(apply wpt_take)
  | |- wpt (nom_map _ _ _) _ => apply wpt_map
  | |- wpt _ _ => wpt_user
  end.

Ltac wpt_steps := repeat (wpt_step; cbv beta iota).

Ltac wp_steps := repeat (wp_step; cbv beta iota).
