(* ===== verification/Std.v ===== *)
(** The pieces of Rust's standard library the source relies on: the monotonic
    clock, checked integer conversions, and UTF-8 strings. *)

From Stdlib Require Import ZArith Lia Strings.Byte.
From Stdlib Require Strings.String.
From stdpp Require Import base tactics numbers list countable.
From stdpp Require Import pretty.
From S2P Require Import Prelude.
#[local] Open Scope Z_scope.

(** ** [std::time::Instant]

    Instants and durations are nanoseconds on the monotonic clock.  The clock
    is the sequence of values successive calls of [Instant::now] return; a
    function that reads it takes the number of reads made so far and returns
    the new number. *)

Class Clock := instant_at : nat -> Z.

(** [Instant]s never go backwards. *)
Class ClockMonotone (C : Clock) : Prop :=
  instant_mono : forall m n : nat, (m <= n)%nat -> instant_at m <= instant_at n.

Definition instant_now `{Clock} (reads : nat) : nat * Z := (S reads, instant_at reads).

(** [Instant::duration_since], which saturates at zero. *)
Definition duration_since (later earlier : Z) : Z := Z.max 0 (later - earlier).

(** [Duration::from_secs] and [Duration::from_mins]. *)
Definition from_secs (s : Z) : Z := s * 1_000_000_000.
Definition from_mins (m : Z) : Z := from_secs (m * 60).

(** ** Integer conversions *)

(** [uN::try_from(v).ok()] *)
Definition try_u (w v : Z) : option Z := if decide (fits_u w v) then Some v else None.

(** [iN::try_from(v).ok()] *)
Definition try_i (w v : Z) : option Z := if decide (fits_i w v) then Some v else None.

Lemma try_u_Some w v x : try_u w v = Some x <-> x = v /\ fits_u w v.
Proof. unfold try_u. case_decide; naive_solver. Qed.

Lemma try_u_None w v : try_u w v = None <-> ~ fits_u w v.
Proof. unfold try_u. case_decide; naive_solver. Qed.

(** [usize::saturating_add], for 64-bit targets. *)
Definition usize_saturating_add (a b : Z) : Z := Z.min (2 ^ 64 - 1) (a + b).

(** ** [std::net::IpAddr] *)

Inductive IpAddr := V4 (a : Z) | V6 (a : Z).

#[export] Instance IpAddr_eq_dec : EqDecision IpAddr.
Proof. solve_decision. Defined.

#[export] Program Instance IpAddr_countable : Countable IpAddr :=
  inj_countable' (fun a => match a with V4 a => inl a | V6 a => inr a end)
    (fun s => match s with inl a => V4 a | inr a => V6 a end) _.
Next Obligation. by intros []. Qed.

(** ** UTF-8

    A [String] is the sequence of its UTF-8 octets. *)

Definition is_cont (b : byte) : bool := (0x80 <=? u8_of b) && (u8_of b <=? 0xbf).

Definition between (lo hi : Z) (b : byte) : bool := (lo <=? u8_of b) && (u8_of b <=? hi).

(** Whether [b1] can follow [b0] at the start of a three or four octet
    sequence: no overlong forms, no surrogates, nothing past U+10FFFF. *)
Definition second_ok (b0 b1 : byte) : bool :=
  let v := u8_of b0 in
  if v =? 0xe0 then between 0xa0 0xbf b1
  else if v =? 0xed then between 0x80 0x9f b1
  else if v =? 0xf0 then between 0x90 0xbf b1
  else if v =? 0xf4 then between 0x80 0x8f b1
  else is_cont b1.

(** The number of octets a sequence starting with [b0] has; 0 when none does. *)
Definition utf8_width (b0 : byte) : nat :=
  let v := u8_of b0 in
  if v <? 0x80 then 1
  else if v <? 0xc2 then 0
  else if v <? 0xe0 then 2
  else if v <? 0xf0 then 3
  else if v <? 0xf5 then 4
  else 0.

(** The first unit of a non-empty string: a character, or the longest prefix
    of one when it is cut short or ill-formed; and the rest. *)
Definition utf8_unit (b0 : byte) (t : bytes) : bool * bytes * bytes :=
  match utf8_width b0, t with
  | 1%nat, _ => (true, [b0], t)
  | 2%nat, b1 :: t1 => if is_cont b1 then (true, [b0; b1], t1) else (false, [b0], t)
  | 3%nat, b1 :: t1 =>
      if second_ok b0 b1 then
        match t1 with
        | b2 :: t2 => if is_cont b2 then (true, [b0; b1; b2], t2) else (false, [b0; b1], t1)
        | [] => (false, [b0; b1], t1)
        end
      else (false, [b0], t)
  | 4%nat, b1 :: t1 =>
      if second_ok b0 b1 then
        match t1 with
        | b2 :: t2 =>
            if is_cont b2 then
              match t2 with
              | b3 :: t3 =>
                  if is_cont b3 then (true, [b0; b1; b2; b3], t3)
                  else (false, [b0; b1; b2], t2)
              | [] => (false, [b0; b1; b2], t2)
              end
            else (false, [b0; b1], t1)
        | [] => (false, [b0; b1], t1)
        end
      else (false, [b0], t)
  | _, _ => (false, [b0], t)
  end.

(** A string cut into units, each with whether it is a character. *)
Fixpoint utf8_units_fuel (fuel : nat) (bs : bytes) : list (bool * bytes) :=
  match fuel, bs with
  | S n, b0 :: t => let '(ok, u, rest) := utf8_unit b0 t in (ok, u) :: utf8_units_fuel n rest
  | _, _ => []
  end.

Definition utf8_units (bs : bytes) : list (bool * bytes) := utf8_units_fuel (length bs) bs.

Definition utf8_valid (bs : bytes) : bool := forallb fst (utf8_units bs).

(** [std::str::from_utf8(v).ok()] *)
Definition from_utf8 (bs : bytes) : option bytes := if utf8_valid bs then Some bs else None.

(** U+FFFD, the replacement character. *)
Definition replacement : bytes := [xef; xbf; xbd].

(** [String::from_utf8_lossy] *)
Definition from_utf8_lossy (bs : bytes) : bytes :=
  concat ((fun '(ok, u) => if ok : bool then u else replacement) <$> utf8_units bs).

(** [str::trim_end_matches('\0')] *)
Fixpoint trim_end_nul (bs : bytes) : bytes :=
  match bs with
  | [] => []
  | b :: t =>
      match trim_end_nul t with
      | [] => if u8_of b =? 0 then [] else [b]
      | t' => b :: t'
      end
  end.

(** [str::is_char_boundary]: not in the middle of a character. *)
Definition is_char_boundary (bs : bytes) (n : nat) : bool :=
  match n with
  | O => true
  | _ => match bs !! n with
         | None => (n =? length bs)%nat
         | Some b => negb (is_cont b)
         end
  end.

(** [str::floor_char_boundary]: the last boundary at or before [n]. *)
Fixpoint floor_char_boundary (bs : bytes) (n : nat) : nat :=
  if (length bs <=? n)%nat then length bs
  else if is_char_boundary bs n then n
  else match n with O => O | S m => floor_char_boundary bs m end.

(** *** Facts about UTF-8 *)

(** One character: a sequence read whole whatever follows it. *)
Definition utf8_char (c : bytes) : Prop :=
  exists b0 t, c = b0 :: t /\ forall rest, utf8_unit b0 (t ++ rest) = (true, c, rest).

Lemma utf8_unit_split b0 t :
  let '(ok, u, rest) := utf8_unit b0 t in
  b0 :: t = u ++ rest /\ u <> [] /\ (ok = true -> utf8_char u).
Proof.
  assert (Hchar : forall t', (forall rest, utf8_unit b0 (t' ++ rest) = (true, b0 :: t', rest)) ->
    utf8_char (b0 :: t')) by (intros t' H; by exists b0, t').
  unfold utf8_unit in *. destruct (utf8_width b0) as [|[|[|[|[|w]]]]] eqn:Ew; try done.
  - split_and!; try done. intros _. apply (Hchar []). intros rest. done.
  - destruct t as [|b1 t1]; [done|]. destruct (is_cont b1) eqn:E1; [|done].
    split_and!; try done. intros _. apply (Hchar [b1]). intros rest. cbn. by rewrite E1.
  - destruct t as [|b1 t1]; [done|]. destruct (second_ok b0 b1) eqn:E1; [|done].
    destruct t1 as [|b2 t2]; [done|]. destruct (is_cont b2) eqn:E2; [|done].
    split_and!; try done. intros _. apply (Hchar [b1; b2]). intros rest. cbn. by rewrite E1, E2.
  - destruct t as [|b1 t1]; [done|]. destruct (second_ok b0 b1) eqn:E1; [|done].
    destruct t1 as [|b2 t2]; [done|]. destruct (is_cont b2) eqn:E2; [|done].
    destruct t2 as [|b3 t3]; [done|]. destruct (is_cont b3) eqn:E3; [|done].
    split_and!; try done. intros _. apply (Hchar [b1; b2; b3]). intros rest. cbn.
    by rewrite E1, E2, E3.
Qed.

Lemma utf8_unit_shorter b0 t ok u rest :
  utf8_unit b0 t = (ok, u, rest) -> (length rest <= length t)%nat.
Proof.
  intros E. pose proof (utf8_unit_split b0 t) as H. rewrite E in H. destruct H as (H & Hu & _).
  apply (f_equal length) in H. rewrite length_app in H. cbn in H. destruct u; cbn in *; [done|lia].
Qed.

Lemma utf8_units_fuel_enough n m bs :
  (length bs <= n)%nat -> (length bs <= m)%nat -> utf8_units_fuel n bs = utf8_units_fuel m bs.
Proof.
  revert m bs. induction n as [|n IH]; intros m bs Hn Hm.
  - destruct bs; [by destruct m|cbn in Hn; lia].
  - destruct bs as [|b0 t]; [by destruct m|]. destruct m as [|m]; [cbn in Hm; lia|].
    cbn. destruct (utf8_unit b0 t) as [[ok u] rest] eqn:E. apply utf8_unit_shorter in E.
    f_equal. apply IH; cbn in *; lia.
Qed.

Lemma utf8_units_cons b0 t :
  utf8_units (b0 :: t)
  = let '(ok, u, rest) := utf8_unit b0 t in (ok, u) :: utf8_units rest.
Proof.
  unfold utf8_units. cbn. destruct (utf8_unit b0 t) as [[ok u] rest] eqn:E.
  apply utf8_unit_shorter in E. f_equal. by apply utf8_units_fuel_enough.
Qed.

Lemma utf8_units_char c rest : utf8_char c -> utf8_units (c ++ rest) = (true, c) :: utf8_units rest.
Proof. intros (b0 & t & -> & H). cbn [app]. by rewrite utf8_units_cons, H. Qed.

(** A string's units are its octets, and the good ones are characters. *)
Lemma utf8_units_concat bs :
  concat (snd <$> utf8_units bs) = bs /\
  Forall (fun '(ok, u) => ok = true -> utf8_char u) (utf8_units bs).
Proof.
  remember (length bs) as n eqn:Hn. revert bs Hn.
  induction n as [n IH] using lt_wf_ind. intros bs ->. destruct bs as [|b0 t]; [done|].
  rewrite utf8_units_cons. pose proof (utf8_unit_split b0 t) as Hs.
  destruct (utf8_unit b0 t) as [[ok u] rest] eqn:E. apply utf8_unit_shorter in E.
  destruct Hs as (Hs & _ & Hc). destruct (IH (length rest) ltac:(cbn; lia) rest eq_refl) as [H1 H2].
  cbn. rewrite H1. split; [done|]. by constructor.
Qed.

Lemma utf8_valid_chars cs : Forall utf8_char cs -> utf8_valid (concat cs) = true.
Proof.
  unfold utf8_valid. induction 1 as [|c cs Hc _ IH]; [done|]. cbn [concat].
  by rewrite utf8_units_char.
Qed.

Lemma utf8_valid_inv bs : utf8_valid bs = true -> exists cs, bs = concat cs /\ Forall utf8_char cs.
Proof.
  intros H. destruct (utf8_units_concat bs) as [Hc Hu]. exists (snd <$> utf8_units bs).
  split; [done|]. apply Forall_fmap. unfold utf8_valid in H.
  rewrite forallb_forall in H. rewrite Forall_forall in *. intros [ok u] Hin. cbn.
  apply (Hu (ok, u)); [done|]. apply (H (ok, u)). by apply list_elem_of_In.
Qed.

Lemma utf8_valid_app s t : utf8_valid s = true -> utf8_valid t = true -> utf8_valid (s ++ t) = true.
Proof.
  intros (cs & -> & Hs)%utf8_valid_inv (ct & -> & Ht)%utf8_valid_inv.
  rewrite <- concat_app. apply utf8_valid_chars. by apply Forall_app.
Qed.

Lemma replacement_char : utf8_char replacement.
Proof. by exists xef, [xbf; xbd]. Qed.

(** A lossy conversion always gives a string, and gives a string back as it
    was. *)
Lemma from_utf8_lossy_valid bs : utf8_valid (from_utf8_lossy bs) = true.
Proof.
  unfold from_utf8_lossy. apply utf8_valid_chars. destruct (utf8_units_concat bs) as [_ Hu].
  apply Forall_fmap. eapply Forall_impl; [exact Hu|]. intros [[] u] Hc; [by apply Hc|].
  apply replacement_char.
Qed.

Lemma from_utf8_lossy_id bs : utf8_valid bs = true -> from_utf8_lossy bs = bs.
Proof.
  intros (cs & -> & Hc)%utf8_valid_inv. unfold from_utf8_lossy.
  induction Hc as [|c cs Hc _ IH]; [done|]. cbn [concat].
  rewrite utf8_units_char by done. cbn. by rewrite IH.
Qed.

Lemma utf8_valid_nul n : utf8_valid (replicate n x00) = true.
Proof.
  induction n as [|n IH]; [done|]. change (replicate (S n) x00) with ([x00] ++ replicate n x00).
  apply utf8_valid_app; [done|exact IH].
Qed.

Lemma trim_end_nul_zeros s n : trim_end_nul (s ++ replicate n x00) = trim_end_nul s.
Proof.
  assert (H0 : trim_end_nul (replicate n x00) = []).
  { induction n as [|n IH]; [done|]. cbn. by rewrite IH. }
  induction s as [|b s IH]; [exact H0|]. cbn. by rewrite IH.
Qed.

Lemma trim_end_nul_idemp s : trim_end_nul (trim_end_nul s) = trim_end_nul s.
Proof.
  induction s as [|b s IH]; [done|]. cbn. destruct (trim_end_nul s) as [|b' t] eqn:E.
  - destruct (u8_of b =? 0) eqn:E0; [done|]. cbn. by rewrite E0.
  - cbn in *. by rewrite IH.
Qed.

(** ** Literals and decimal numbers *)

Export String.StringSyntax.

(** A string literal, as its octets. *)
Definition str (s : String.string) : bytes := String.list_byte_of_string s.
Arguments str s%_string_scope.

(** [to_string] of an unsigned integer. *)
Definition show (n : Z) : bytes := str (pretty (Z.to_N n)).

Lemma str_inj s t : str s = str t -> s = t.
Proof.
  intros H. rewrite <- (String.string_of_list_byte_of_string s),
    <- (String.string_of_list_byte_of_string t). unfold str in H. by rewrite H.
Qed.

Lemma show_inj m n : 0 <= m -> 0 <= n -> show m = show n -> m = n.
Proof.
  intros Hm Hn H%str_inj. apply (inj pretty) in H. lia.
Qed.
