(* ===== verification/Crates.v ===== *)
(** The value types of the external crates: [chrono::DateTime<Utc>],
    [macaddr::MacAddr6] and [primitive_types::U256], with the documented
    behaviour of the operations the source calls on them, and the growable
    buffers of the [bytes] crate. *)

From Stdlib Require Import ZArith Lia Strings.Byte Eqdep_dec Bool.
From stdpp Require Import base tactics numbers list.
From S2P Require Import Prelude.
#[local] Open Scope Z_scope.

Definition NANOS : Z := 1_000_000_000.

Class Crates := {
  (* chrono::DateTime<Utc>: a Unix time in seconds and nanoseconds; a leap
     second has more than a second's worth of nanoseconds *)
  DateTime : Type;
  from_timestamp : Z -> Z -> option DateTime;
  from_timestamp_secs : Z -> option DateTime;
  from_timestamp_millis : Z -> option DateTime;
  timestamp : DateTime -> Z;
  timestamp_subsec_nanos : DateTime -> Z;
  timestamp_millis : DateTime -> Z;
  timestamp_nanos_opt : DateTime -> option Z;
  (* less a TimeDelta of so many milliseconds *)
  checked_sub_millis : DateTime -> Z -> option DateTime;

  (* macaddr::MacAddr6: six octets *)
  MacAddr6 : Type;
  MacAddr6_from : bytes -> MacAddr6;
  MacAddr6_as_bytes : MacAddr6 -> bytes;

  (* primitive_types::U256 *)
  U256 : Type;
  U256_to_big_endian : U256 -> bytes;

  from_timestamp_law : forall s n d,
    from_timestamp s n = Some d -> timestamp d = s /\ timestamp_subsec_nanos d = n;
  from_timestamp_id : forall d,
    from_timestamp (timestamp d) (timestamp_subsec_nanos d) = Some d;
  (* the calendar reaches 262,000 years either way *)
  from_timestamp_range : forall s n,
    - 2 ^ 40 <= s <= 2 ^ 40 -> 0 <= n < NANOS -> is_Some (from_timestamp s n);
  (* only a leap second's nanoseconds may reach a second *)
  from_timestamp_nanos : forall s n,
    NANOS <= n -> s mod 60 <> 59 -> from_timestamp s n = None;
  from_timestamp_secs_law : forall s, from_timestamp_secs s = from_timestamp s 0;
  from_timestamp_millis_law : forall m,
    from_timestamp_millis m = from_timestamp (m / 1000) (m mod 1000 * 1_000_000);
  timestamp_millis_law : forall d,
    timestamp_millis d = timestamp d * 1000 + timestamp_subsec_nanos d / 1_000_000;
  timestamp_nanos_opt_law : forall d,
    timestamp_nanos_opt d =
      let v := timestamp d * NANOS + timestamp_subsec_nanos d in
      if decide (fits_i 64 v) then Some v else None;
  subsec_nanos_range : forall d, 0 <= timestamp_subsec_nanos d < 2 * NANOS;
  checked_sub_millis_law : forall d ms,
    timestamp_subsec_nanos d < NANOS ->
    - 2 ^ 39 <= timestamp d <= 2 ^ 39 -> - 2 ^ 40 <= ms <= 2 ^ 40 ->
    exists d', checked_sub_millis d ms = Some d' /\
      timestamp d' * NANOS + timestamp_subsec_nanos d'
      = timestamp d * NANOS + timestamp_subsec_nanos d - ms * 1_000_000 /\
      timestamp_subsec_nanos d' < NANOS;
  MacAddr6_law : forall o, length o = 6%nat -> MacAddr6_as_bytes (MacAddr6_from o) = o;
  MacAddr6_id : forall m, MacAddr6_from (MacAddr6_as_bytes m) = m;
  MacAddr6_length : forall m, length (MacAddr6_as_bytes m) = 6%nat;
  U256_length : forall u, length (U256_to_big_endian u) = 32%nat;
}.

(** ** [bytes::BufMut], for growable buffers

    [buf_contents] is what has been written so far. *)

Class BufMut (B : Type) := {
  buf_contents : B -> bytes;
  put_slice : B -> bytes -> B;
  put_bytes : B -> Z -> Z -> B;
  put_u8 : B -> Z -> B;
  put_u16 : B -> Z -> B;
  put_u32 : B -> Z -> B;
  put_u64 : B -> Z -> B;
  put_i8 : B -> Z -> B;
  put_i16 : B -> Z -> B;
  put_i32 : B -> Z -> B;
  put_i64 : B -> Z -> B;
  (* floats by their IEEE 754 bit patterns *)
  put_f32 : B -> Z -> B;
  put_f64 : B -> Z -> B;

  put_slice_law : forall b s, buf_contents (put_slice b s) = buf_contents b ++ s;
  put_bytes_law : forall b v n,
    buf_contents (put_bytes b v n) = buf_contents b ++ replicate (Z.to_nat n) (byte_of v);
  put_u8_law : forall b v, buf_contents (put_u8 b v) = buf_contents b ++ be_bytes 1 v;
  put_u16_law : forall b v, buf_contents (put_u16 b v) = buf_contents b ++ be_bytes 2 v;
  put_u32_law : forall b v, buf_contents (put_u32 b v) = buf_contents b ++ be_bytes 4 v;
  put_u64_law : forall b v, buf_contents (put_u64 b v) = buf_contents b ++ be_bytes 8 v;
  put_i8_law : forall b v, buf_contents (put_i8 b v) = buf_contents b ++ be_bytes 1 v;
  put_i16_law : forall b v, buf_contents (put_i16 b v) = buf_contents b ++ be_bytes 2 v;
  put_i32_law : forall b v, buf_contents (put_i32 b v) = buf_contents b ++ be_bytes 4 v;
  put_i64_law : forall b v, buf_contents (put_i64 b v) = buf_contents b ++ be_bytes 8 v;
  put_f32_law : forall b v, buf_contents (put_f32 b v) = buf_contents b ++ be_bytes 4 v;
  put_f64_law : forall b v, buf_contents (put_f64 b v) = buf_contents b ++ be_bytes 8 v;
}.

(** [Vec<u8>] *)
#[export, refine] Instance Vec_BufMut : BufMut bytes := {|
  buf_contents b := b;
  put_slice b s := b ++ s;
  put_bytes b v n := b ++ replicate (Z.to_nat n) (byte_of v);
  put_u8 b v := b ++ be_bytes 1 v;
  put_u16 b v := b ++ be_bytes 2 v;
  put_u32 b v := b ++ be_bytes 4 v;
  put_u64 b v := b ++ be_bytes 8 v;
  put_i8 b v := b ++ be_bytes 1 v;
  put_i16 b v := b ++ be_bytes 2 v;
  put_i32 b v := b ++ be_bytes 4 v;
  put_i64 b v := b ++ be_bytes 8 v;
  put_f32 b v := b ++ be_bytes 4 v;
  put_f64 b v := b ++ be_bytes 8 v;
|}.
Proof. all: done. Defined.

Create Rewrite HintDb put.
#[export] Hint Rewrite @put_slice_law @put_bytes_law @put_u8_law @put_u16_law @put_u32_law
  @put_u64_law @put_i8_law @put_i16_law @put_i32_law @put_i64_law @put_f32_law @put_f64_law
  : put.

(** ** A concrete instance

    A [DateTime] is a pair of seconds and nanoseconds in the calendar's range. *)

Definition min_timestamp : Z := -8334601228800.
Definition max_timestamp : Z := 8210266876799.

Definition timestamp_ok (p : Z * Z) : bool :=
  let '(s, n) := p in
  (min_timestamp <=? s) && (s <=? max_timestamp) && (0 <=? n) &&
  ((n <? NANOS) || ((n <? 2 * NANOS) && (s mod 60 =? 59))).

Definition date : Type := { p : Z * Z | timestamp_ok p = true }.

Definition date_of (s n : Z) : option date :=
  match bool_dec (timestamp_ok (s, n)) true with
  | left H => Some (exist _ (s, n) H)
  | right _ => None
  end.

Definition nanos_of (p : date) : Z := (proj1_sig p).1 * NANOS + (proj1_sig p).2.

Lemma date_of_Some s n d : date_of s n = Some d -> proj1_sig d = (s, n).
Proof. unfold date_of. destruct (bool_dec _ _); naive_solver. Qed.

Lemma date_of_id (d : date) : date_of (proj1_sig d).1 (proj1_sig d).2 = Some d.
Proof.
  destruct d as [[s n] H]. unfold date_of. cbn [proj1_sig fst snd].
  destruct (bool_dec _ _) as [H'|]; [|done]. do 2 f_equal.
  apply UIP_dec, bool_dec.
Qed.

Lemma date_of_ok s n : timestamp_ok (s, n) = true -> is_Some (date_of s n).
Proof. intros H. unfold date_of. destruct (bool_dec _ _); [eauto|done]. Qed.

Lemma timestamp_ok_in_range s n :
  - 2 ^ 40 <= s <= 2 ^ 40 -> 0 <= n < NANOS -> timestamp_ok (s, n) = true.
Proof. unfold timestamp_ok, min_timestamp, max_timestamp, NANOS. width. Qed.

Lemma split_nanos v : v / NANOS * NANOS + v mod NANOS = v.
Proof. unfold NANOS. dlia. Qed.

Definition date_sub_millis (d : date) (ms : Z) : option date :=
  let v := nanos_of d - ms * 1_000_000 in date_of (v / NANOS) (v mod NANOS).

Lemma date_sub_millis_ok (d : date) ms :
  (proj1_sig d).2 < NANOS ->
  - 2 ^ 39 <= (proj1_sig d).1 <= 2 ^ 39 -> - 2 ^ 40 <= ms <= 2 ^ 40 ->
  exists d', date_sub_millis d ms = Some d' /\
    nanos_of d' = nanos_of d - ms * 1_000_000 /\ (proj1_sig d').2 < NANOS.
Proof.
  intros Hn Hs Hms. unfold date_sub_millis.
  set (v := nanos_of d - ms * 1_000_000).
  assert (Hd : 0 <= (proj1_sig d).2).
  { destruct d as [[s n] H]. cbn in *. unfold timestamp_ok in H. lia. }
  destruct (date_of_ok (v / NANOS) (v mod NANOS)) as [d' Hd'].
  { apply timestamp_ok_in_range; [|apply Z.mod_pos_bound; done].
    unfold v, nanos_of, NANOS in *.
    split; [apply Z.div_le_lower_bound|apply Z.div_le_upper_bound]; width. }
  exists d'. rewrite Hd'. apply date_of_Some in Hd'. unfold nanos_of at 1.
  rewrite Hd'. cbn. rewrite split_nanos. repeat split. apply Z.mod_pos_bound. done.
Qed.

Definition mac6 : Type := { o : bytes | length o = 6%nat }.

Definition mac6_from (o : bytes) : mac6 :=
  match Nat.eq_dec (length o) 6%nat with
  | left H => exist _ o H
  | right _ => exist _ (replicate 6 x00) eq_refl
  end.

#[refine] Definition crates_std : Crates := {|
  DateTime := date;
  from_timestamp := date_of;
  from_timestamp_secs s := date_of s 0;
  from_timestamp_millis m := date_of (m / 1000) (m mod 1000 * 1_000_000);
  timestamp d := (proj1_sig d).1;
  timestamp_subsec_nanos d := (proj1_sig d).2;
  timestamp_millis d := (proj1_sig d).1 * 1000 + (proj1_sig d).2 / 1_000_000;
  timestamp_nanos_opt d := if decide (fits_i 64 (nanos_of d)) then Some (nanos_of d) else None;
  checked_sub_millis := date_sub_millis;
  MacAddr6 := mac6;
  MacAddr6_from := mac6_from;
  MacAddr6_as_bytes m := proj1_sig m;
  U256 := Z;
  U256_to_big_endian := be_bytes 32;
|}.
Proof.
  - intros s n d H. apply date_of_Some in H. by rewrite H.
  - apply date_of_id.
  - intros s n Hs Hn. by apply date_of_ok, timestamp_ok_in_range.
  - intros s n Hn Hs. unfold date_of. destruct (bool_dec _ _) as [H|]; [|done].
    unfold timestamp_ok, NANOS in *. lia.
  - done.
  - done.
  - done.
  - done.
  - intros [[s n] H]. cbn. unfold timestamp_ok, NANOS in *. lia.
  - intros d ms. apply date_sub_millis_ok.
  - intros o Ho. unfold mac6_from. by destruct (Nat.eq_dec _ _).
  - intros [o Ho]. unfold mac6_from. cbn [proj1_sig].
    destruct (Nat.eq_dec _ _) as [H|]; [|done]. f_equal. apply UIP_dec, Nat.eq_dec.
  - intros [o Ho]. done.
  - intros u. apply length_be_bytes.
Defined.
