(* ===== verification/CommonParser.v ===== *)
(** [common/parser.rs]: the parsers of single values shared by the protocol
    parsers.  An [Ipv4Addr] is its 32-bit value, an [Ipv6Addr] its 128-bit
    value, a [String] its UTF-8 octets. *)

From Stdlib Require Import ZArith Lia Strings.Byte.
From stdpp Require Import base tactics numbers list.
From S2P Require Import Prelude Nom Parsing Std Crates.
#[local] Open Scope Z_scope.

Definition NTP_UNIX_EPOCH_DIFF : Z := 2_208_988_800.

Section parsers.
Context `{NM : Nom} `{CR : Crates}.

Definition ipv4_addr (input : bytes) : IResult Z := nom_map be_u32 (fun v => v) input.

Definition ipv6_addr (input : bytes) : IResult Z := nom_map (nom_take 16) be_value input.

Definition ntp_to_datetime (ntp_secs fraction : Z) : option DateTime :=
  match try_i 64 (ntp_secs - NTP_UNIX_EPOCH_DIFF) with
  | None => None
  | Some unix_secs =>
      let nanos := Z.shiftr (wrap 64 (fraction * 1_000_000_000)) 32 in
      from_timestamp unix_secs (wrap 32 nanos)
  end.

Definition timestamp_secs (input : bytes) : IResult DateTime :=
  map_opt be_u32 from_timestamp_secs input.

Definition timestamp_millis (input : bytes) : IResult (option DateTime) :=
  nom_map be_u64
    (fun v => match try_i 64 v with Some v => from_timestamp_millis v | None => None end)
    input.

Definition timestamp_micros (input : bytes) : IResult DateTime :=
  map_opt (tuple2 be_u32 be_u32) (fun '(s, f) => ntp_to_datetime s f) input.

Definition timestamp_nanos (input : bytes) : IResult DateTime :=
  map_opt (tuple2 be_u32 be_u32) (fun '(s, f) => ntp_to_datetime s f) input.

Definition macaddr6 (input : bytes) : IResult MacAddr6 :=
  nom_map (nom_take 6) MacAddr6_from input.

Definition string (length : Z) (input : bytes) : IResult (option bytes) :=
  nom_map (nom_take length) (fun v => trim_end_nul <$> from_utf8 v) input.

Definition boolean (input : bytes) : IResult (option bool) :=
  nom_map be_u8
    (fun v => if v =? 1 then Some true else if v =? 2 then Some false else None) input.

(** [acc << 8 | b] in a [u64]. *)
Definition be_uint (length : Z) (input : bytes) : IResult Z :=
  nom_map (nom_take length)
    (fun bytes =>
       fold_left (fun acc b => Z.lor (wrap 64 (Z.shiftl acc 8)) (u8_of b)) bytes 0) input.

Definition wrapping_shl_i64 (v shift : Z) : Z := to_signed 64 (Z.shiftl v (shift mod 64)).
Definition wrapping_shr_i64 (v shift : Z) : Z := Z.shiftr v (shift mod 64).

Definition be_int (length : Z) (input : bytes) : IResult Z :=
  nom_map (be_uint length)
    (fun v =>
       let shift := Z.max 0 (64 - wrap 32 (8 * wrap 32 length)) in
       wrapping_shr_i64 (wrapping_shl_i64 (to_signed 64 v) shift) shift) input.

Definition vector (length : Z) (input : bytes) : IResult bytes := nom_take length input.

Definition verify_version (input : bytes) (expected_version : Z) : IResult Z :=
  verify be_u16 (fun v => v =? expected_version) input.

(** ** Reduced-size integers *)

(** Only the low 64 bits survive the shifts of [be_uint]. *)
Lemma be_uint_fold bs acc :
  fits_u 64 acc ->
  fold_left (fun acc b => Z.lor (wrap 64 (Z.shiftl acc 8)) (u8_of b)) bs acc
  = wrap 64 (acc * 256 ^ zlen bs + be_value bs).
Proof.
  revert acc. induction bs as [|b bs IH]; intros acc Hacc.
  - cbn [fold_left]. rewrite be_value_nil, zlen_nil, Z.pow_0_r, Z.mul_1_r, Z.add_0_r.
    by rewrite wrap_small.
  - cbn [fold_left]. rewrite Z.shiftl_mul_pow2 by lia. change (2 ^ 8) with 256.
    assert (Hw : wrap 64 (acc * 256) = (acc mod 2 ^ 56) * 256).
    { unfold wrap. change (2 ^ 64) with (2 ^ 56 * 256). by rewrite Z.mul_mod_distr_r by lia. }
    pose proof (u8_of_range b). pose proof (Z.mod_pos_bound acc (2 ^ 56) ltac:(lia)).
    change 256 with (2 ^ 8) in Hw at 2. rewrite Hw, lor_join by (lia || done).
    change (2 ^ 8) with 256. rewrite IH by width.
    rewrite be_value_cons, zlen_cons, Z.pow_add_r by (pose proof (zlen_nonneg bs); lia).
    unfold wrap. rewrite (Z.mod_eq acc (2 ^ 56)) by lia.
    symmetry. rewrite <- (Z.mod_add _ (- (acc / 2 ^ 56) * 256 ^ zlen bs)) by lia.
    f_equal. change (2 ^ 64) with (2 ^ 56 * 256). change (256 ^ 1) with 256. ring.
Qed.

Lemma be_uint_app c i n :
  n = zlen c -> be_uint n (c ++ i) = Ok (i, wrap 64 (be_value c)).
Proof.
  intros ->. unfold be_uint. rewrite nom_map_law, nom_take_app by done.
  rewrite be_uint_fold by (unfold fits_u; lia). by rewrite Z.mul_0_l, Z.add_0_l.
Qed.

Lemma to_signed_mod w z : 0 < w -> to_signed w (z mod 2 ^ w) = to_signed w z.
Proof. intros. unfold to_signed, wrap. by rewrite Z.mod_mod by lia. Qed.

(** Shifting a number of [k] bits to the top of an [i64] and back extends its sign. *)
Lemma sign_extend_shift k v :
  0 < k <= 64 -> fits_u k v ->
  wrapping_shr_i64 (wrapping_shl_i64 (to_signed 64 v) (64 - k)) (64 - k) = to_signed k v.
Proof.
  intros Hk Hv. unfold wrapping_shr_i64, wrapping_shl_i64.
  rewrite (Z.mod_small (64 - k)) by lia.
  rewrite Z.shiftl_mul_pow2, Z.shiftr_div_pow2 by lia.
  assert (H64 : 2 ^ 64 = 2 ^ k * 2 ^ (64 - k)) by (rewrite <- Z.pow_add_r by lia; f_equal; lia).
  assert (Hp : 2 ^ k = 2 * 2 ^ (k - 1)) by (rewrite <- Z.pow_succ_r by lia; f_equal; lia).
  assert (0 < 2 ^ (64 - k)) by lia. assert (0 < 2 ^ (k - 1)) by lia.
  assert (Hs : to_signed 64 (to_signed 64 v * 2 ^ (64 - k)) = to_signed 64 (v * 2 ^ (64 - k))).
  { rewrite <- (to_signed_mod 64), <- (to_signed_mod 64 (v * _)) by lia. f_equal.
    rewrite Z.mul_mod, (Z.mul_mod v) by lia. f_equal. f_equal.
    by apply wrap_to_signed. }
  rewrite Hs. unfold to_signed, wrap, fits_u in *.
  rewrite (Z.mod_small v) by lia. rewrite (Z.mod_small (v * _)) by nia.
  assert (H63 : 2 ^ (64 - 1) = 2 ^ (k - 1) * 2 ^ (64 - k))
    by (rewrite <- Z.pow_add_r by lia; f_equal; lia).
  cbv zeta. rewrite H63.
  destruct (Z.ltb_spec v (2 ^ (k - 1))), (Z.ltb_spec (v * 2 ^ (64 - k)) (2 ^ (k - 1) * 2 ^ (64 - k)));
    try nia.
  - by apply Z.div_mul; lia.
  - rewrite H64, <- Z.mul_sub_distr_r. by apply Z.div_mul; lia.
Qed.

Lemma be_int_app c i n :
  n = zlen c -> 1 <= n <= 8 ->
  be_int n (c ++ i) = Ok (i, to_signed (8 * n) (be_value c)).
Proof.
  intros -> Hn. unfold be_int. rewrite nom_map_law, be_uint_app by done.
  pose proof (be_value_range c) as Hc.
  change 256 with (2 ^ 8) in Hc. rewrite <- Z.pow_mul_r in Hc by lia.
  assert (2 ^ (8 * zlen c) <= 2 ^ 64) by (apply Z.pow_le_mono_r; lia).
  do 2 f_equal. rewrite (wrap_small 64) by (unfold fits_u; lia).
  rewrite (wrap_small 32 (zlen c)), (wrap_small 32), Z.max_r by width.
  cbv zeta. apply sign_extend_shift; [lia|done].
Qed.

(** ** Rules for the parsers of this file *)

Lemma ipv4_addr_app v i : fits_u 32 v -> ipv4_addr (be_bytes 4 v ++ i) = Ok (i, v).
Proof. intros. unfold ipv4_addr. by rewrite nom_map_law, be_u32_app. Qed.

Lemma ipv6_addr_app v i : fits_u 128 v -> ipv6_addr (be_bytes 16 v ++ i) = Ok (i, v).
Proof.
  intros Hv. unfold ipv6_addr. rewrite nom_map_law, nom_take_app by by rewrite zlen_be_bytes.
  rewrite be_value_small; [done|]. exact Hv.
Qed.

Lemma macaddr6_app m i : macaddr6 (MacAddr6_as_bytes m ++ i) = Ok (i, m).
Proof.
  unfold macaddr6. rewrite nom_map_law, nom_take_app by (unfold zlen; by rewrite MacAddr6_length).
  by rewrite MacAddr6_id.
Qed.

Lemma vector_app c i n : n = zlen c -> vector n (c ++ i) = Ok (i, c).
Proof. apply nom_take_app. Qed.

Lemma string_app c i n :
  n = zlen c -> string n (c ++ i) = Ok (i, trim_end_nul <$> from_utf8 c).
Proof. intros ->. unfold string. by rewrite nom_map_law, nom_take_app. Qed.

Lemma verify_version_app v i : fits_u 16 v -> verify_version (be_bytes 2 v ++ i) v = Ok (i, v).
Proof. intros. unfold verify_version. by rewrite verify_law, be_u16_app, Z.eqb_refl. Qed.

Lemma wp_ipv4_addr i (Q : bytes * Z -> Prop) :
  (forall i' v, i = be_bytes 4 v ++ i' -> fits_u 32 v -> Q (i', v)) -> wp (ipv4_addr i) Q.
Proof. intros HQ. unfold ipv4_addr. wp_steps. by apply HQ. Qed.

Lemma wp_ipv6_addr i (Q : bytes * Z -> Prop) :
  (forall i' v, i = be_bytes 16 v ++ i' -> fits_u 128 v -> Q (i', v)) -> wp (ipv6_addr i) Q.
Proof.
  intros HQ. unfold ipv6_addr. wp_steps. apply HQ.
  - rewrite be_bytes_be_value'; [done|]. unfold zlen in *. lia.
  - unfold fits_u. change 128 with (8 * 16). rewrite Z.pow_mul_r by lia.
    rewrite <- H. apply be_value_range.
Qed.

Lemma wp_macaddr6 i (Q : bytes * MacAddr6 -> Prop) :
  (forall i' m, i = MacAddr6_as_bytes m ++ i' -> Q (i', m)) -> wp (macaddr6 i) Q.
Proof.
  intros HQ. unfold macaddr6. wp_steps. apply HQ.
  rewrite MacAddr6_law; [done|]. unfold zlen in *. lia.
Qed.

Lemma wp_vector n i (Q : bytes * bytes -> Prop) :
  0 <= n -> (forall i' c, i = c ++ i' -> zlen c = n -> Q (i', c)) -> wp (vector n i) Q.
Proof. apply wp_take. Qed.

Lemma wp_string n i (Q : bytes * option bytes -> Prop) :
  0 <= n ->
  (forall i' c, i = c ++ i' -> zlen c = n -> Q (i', trim_end_nul <$> from_utf8 c)) ->
  wp (string n i) Q.
Proof. intros Hn HQ. unfold string. wp_steps. by apply HQ. Qed.

Lemma wp_be_uint n i (Q : bytes * Z -> Prop) :
  0 <= n ->
  (forall i' c, i = c ++ i' -> zlen c = n -> Q (i', wrap 64 (be_value c))) -> wp (be_uint n i) Q.
Proof.
  intros Hn HQ. unfold be_uint. wp_steps. rewrite be_uint_fold by (unfold fits_u; lia).
  rewrite Z.mul_0_l, Z.add_0_l. by apply HQ.
Qed.

Lemma wp_be_int n i (Q : bytes * Z -> Prop) :
  1 <= n <= 8 ->
  (forall i' c, i = c ++ i' -> zlen c = n -> Q (i', to_signed (8 * n) (be_value c))) ->
  wp (be_int n i) Q.
Proof.
  intros Hn HQ. unfold be_int. apply wp_map, wp_be_uint; [lia|]. intros i' c -> Hc.
  pose proof (be_int_app c i' n (eq_sym Hc) Hn) as E. unfold be_int in E.
  rewrite nom_map_law, be_uint_app in E by done. injection E as E. rewrite E. by apply HQ.
Qed.

Lemma wp_timestamp_secs i (Q : bytes * DateTime -> Prop) :
  (forall i' v d, i = be_bytes 4 v ++ i' -> fits_u 32 v -> from_timestamp_secs v = Some d ->
     Q (i', d)) ->
  wp (timestamp_secs i) Q.
Proof. intros HQ. unfold timestamp_secs. wp_steps. intros. by eapply HQ. Qed.

Lemma wp_timestamp_millis i (Q : bytes * option DateTime -> Prop) :
  (forall i' v d, i = be_bytes 8 v ++ i' -> fits_u 64 v -> Q (i', d)) ->
  wp (timestamp_millis i) Q.
Proof. intros HQ. unfold timestamp_millis. wp_steps. by eapply HQ. Qed.

Lemma wp_timestamp_micros i (Q : bytes * DateTime -> Prop) :
  (forall i' s f d, i = be_bytes 4 s ++ be_bytes 4 f ++ i' -> fits_u 32 s -> fits_u 32 f ->
     ntp_to_datetime s f = Some d -> Q (i', d)) ->
  wp (timestamp_micros i) Q.
Proof. intros HQ. unfold timestamp_micros. wp_steps. intros. by eapply HQ. Qed.

Lemma wp_timestamp_nanos i (Q : bytes * DateTime -> Prop) :
  (forall i' s f d, i = be_bytes 4 s ++ be_bytes 4 f ++ i' -> fits_u 32 s -> fits_u 32 f ->
     ntp_to_datetime s f = Some d -> Q (i', d)) ->
  wp (timestamp_nanos i) Q.
Proof. apply wp_timestamp_micros. Qed.

Lemma wp_boolean i (Q : bytes * option bool -> Prop) :
  (forall i' v b, i = be_bytes 1 v ++ i' -> fits_u 8 v -> Q (i', b)) -> wp (boolean i) Q.
Proof. intros HQ. unfold boolean. wp_steps. by eapply HQ. Qed.

Lemma wp_verify_version i v (Q : bytes * Z -> Prop) :
  (forall i', i = be_bytes 2 v ++ i' -> Q (i', v)) -> wp (verify_version i v) Q.
Proof.
  intros HQ. unfold verify_version. wp_steps. intros Hv%Z.eqb_eq. subst. by apply HQ.
Qed.

Lemma wpt_ipv4_addr i (Q : bytes * Z -> Prop) :
  4 <= zlen i -> (forall i' v, i = be_bytes 4 v ++ i' -> fits_u 32 v -> Q (i', v)) ->
  wpt (ipv4_addr i) Q.
Proof. intros Hi HQ. unfold ipv4_addr. wpt_steps. by apply HQ. Qed.

(** Every [u32] is a representable Unix time. *)
Lemma from_timestamp_secs_u32 v :
  fits_u 32 v ->
  exists d, from_timestamp_secs v = Some d /\ timestamp d = v /\ timestamp_subsec_nanos d = 0.
Proof.
  intros Hv. rewrite from_timestamp_secs_law.
  destruct (from_timestamp_range v 0) as [d Hd]; [width|unfold NANOS; lia|].
  pose proof (from_timestamp_law _ _ _ Hd). eauto.
Qed.

(** So is every pair of NTP seconds and fraction. *)
Lemma ntp_to_datetime_total s f :
  fits_u 32 s -> fits_u 32 f ->
  exists d, ntp_to_datetime s f = Some d /\
    timestamp d = s - NTP_UNIX_EPOCH_DIFF /\
    timestamp_subsec_nanos d = f * NANOS / 2 ^ 32.
Proof.
  intros Hs Hf. unfold ntp_to_datetime, try_i, NTP_UNIX_EPOCH_DIFF.
  rewrite decide_True by width. unfold NANOS.
  rewrite (wrap_small 64) by width. rewrite Z.shiftr_div_pow2 by lia.
  assert (0 <= f * 1000000000 / 2 ^ 32 < 1000000000).
  { unfold fits_u in Hf. split; [apply Z.div_pos; lia|apply Z.div_lt_upper_bound; lia]. }
  rewrite (wrap_small 32) by width.
  destruct (from_timestamp_range (s - 2208988800) (f * 1000000000 / 2 ^ 32)) as [d Hd];
    [width|unfold NANOS; lia|].
  rewrite Hd. apply from_timestamp_law in Hd. eauto.
Qed.

(** ** What each parser reads *)

Lemma be_value_fits c n : zlen c = n -> fits_u (8 * n) (be_value c).
Proof.
  intros <-. unfold fits_u. rewrite Z.pow_mul_r by (pose proof (zlen_nonneg c); lia).
  apply be_value_range.
Qed.

Lemma reads_ipv4_addr : reads 4 ipv4_addr (fun c a => a = be_value c).
Proof.
  eapply reads_mono; [apply (reads_map 4 be_u32), reads_u32|]. by intros c a _ (v & -> & ->).
Qed.

Lemma reads_ipv6_addr : reads 16 ipv6_addr (fun c a => a = be_value c).
Proof.
  eapply reads_mono; [apply (reads_map 16 (nom_take 16)), reads_take; lia|].
  by intros c a _ (v & -> & ->).
Qed.

Lemma reads_macaddr6 : reads 6 macaddr6 (fun c a => a = MacAddr6_from c).
Proof.
  eapply reads_mono; [apply (reads_map 6 (nom_take 6)), reads_take; lia|].
  by intros c a _ (v & -> & ->).
Qed.

Lemma reads_string n : 0 <= n -> reads n (string n) (fun c a => a = (trim_end_nul <$> from_utf8 c)).
Proof.
  intros Hn. eapply reads_mono; [by apply (reads_map n (nom_take n)), reads_take|].
  by intros c a _ (v & -> & ->).
Qed.

Lemma reads_vector n : 0 <= n -> reads n (vector n) (fun c a => a = c).
Proof. apply reads_take. Qed.

Lemma reads_be_uint n : 0 <= n <= 8 -> reads n (be_uint n) (fun c a => a = be_value c).
Proof.
  intros Hn. eapply reads_mono; [apply (reads_map n (nom_take n)), reads_take; lia|].
  intros c a Hc (v & -> & ->). rewrite be_uint_fold by (unfold fits_u; lia).
  rewrite Z.mul_0_l, Z.add_0_l. apply wrap_small. pose proof (be_value_fits c n Hc) as Hf.
  unfold fits_u in *. assert (2 ^ (8 * n) <= 2 ^ 64) by (apply Z.pow_le_mono_r; lia). lia.
Qed.

Lemma reads_be_int n :
  1 <= n <= 8 -> reads n (be_int n) (fun c a => a = to_signed (8 * n) (be_value c)).
Proof.
  intros Hn. split.
  - intros c i Hc. eexists. split; [by apply be_int_app|done].
  - intros i Hi. unfold be_int, be_uint. rewrite !nom_map_law, nom_take_law.
    unfold take_ref. by destruct (Z.ltb_spec (zlen i) n); [|lia].
Qed.

Lemma reads_timestamp_secs :
  reads 4 timestamp_secs (fun c d => timestamp d = be_value c /\ timestamp_subsec_nanos d = 0).
Proof.
  eapply reads_mono; [apply (reads_map_opt 4 be_u32); [apply reads_u32|]|].
  - intros c a Hc%be_value_fits ->. by destruct (from_timestamp_secs_u32 _ Hc) as (d & -> & _).
  - intros c d Hc%be_value_fits (v & -> & Hd).
    destruct (from_timestamp_secs_u32 _ Hc) as (d' & Hd' & H). naive_solver.
Qed.

Lemma reads_timestamp_millis :
  reads 8 timestamp_millis (fun c a =>
    a = if decide (be_value c < 2 ^ 63) then from_timestamp_millis (be_value c) else None).
Proof.
  eapply reads_mono; [apply (reads_map 8 be_u64), reads_u64|].
  intros c a Hc%be_value_fits (v & -> & ->). unfold try_i.
  repeat case_decide; try done; width.
Qed.

Lemma reads_ntp_pair :
  reads 8 (tuple2 be_u32 be_u32) (fun c a => a = (be_value (take 4 c), be_value (drop 4 c))).
Proof.
  eapply reads_mono.
  - eapply reads_ext; [intros i; symmetry; apply tuple2_law|].
    apply (reads_bind 4 4 be_u32 (fun a i => let? (i, b) := be_u32 i in Ok (i, (a, b)))
      (fun c a => a = be_value c) (fun a c ab => ab = (a, be_value c))); [lia|lia|apply reads_u32|].
    intros a. destruct reads_u32 as [Hok Herr]. split.
    + intros c i Hc. destruct (Hok c i Hc) as (v & -> & ->). eauto.
    + intros i Hi. by rewrite Herr.
  - intros c ab _ (c1 & c2 & a & -> & Hc1 & -> & ->).
    assert (length c1 = 4%nat) as Hl by (unfold zlen in Hc1; lia).
    rewrite <- Hl, take_app_length, drop_app_length. done.
Qed.

Lemma reads_timestamp_ntp :
  reads 8 timestamp_micros (fun c d =>
    timestamp d = be_value (take 4 c) - NTP_UNIX_EPOCH_DIFF /\
    timestamp_subsec_nanos d = be_value (drop 4 c) * NANOS / 2 ^ 32).
Proof.
  assert (Hf : forall c, zlen c = 8 ->
      fits_u 32 (be_value (take 4 c)) /\ fits_u 32 (be_value (drop 4 c))).
  { intros c Hc. unfold zlen in Hc.
    split; apply (be_value_fits _ 4); unfold zlen; rewrite ?length_take, ?length_drop; lia. }
  eapply reads_mono; [apply (reads_map_opt 8 (tuple2 be_u32 be_u32)); [apply reads_ntp_pair|]|].
  - intros c a Hc ->. destruct (Hf c Hc) as [H1 H2].
    by destruct (ntp_to_datetime_total _ _ H1 H2) as (d & -> & _).
  - intros c d Hc (v & -> & Hd). destruct (Hf c Hc) as [H1 H2].
    destruct (ntp_to_datetime_total _ _ H1 H2) as (d' & Hd' & H). naive_solver.
Qed.

Lemma reads_boolean :
  reads 1 boolean (fun c a =>
    a = if be_value c =? 1 then Some true else if be_value c =? 2 then Some false else None).
Proof.
  eapply reads_mono; [apply (reads_map 1 be_u8), reads_u8|]. by intros c a _ (v & -> & ->).
Qed.

(** All of them return a suffix of the input. *)

Lemma leaves_ipv4_addr i : leaves i (ipv4_addr i).
Proof. unfold ipv4_addr. auto with leaves. Qed.
Lemma leaves_ipv6_addr i : leaves i (ipv6_addr i).
Proof. unfold ipv6_addr. auto with leaves. Qed.
Lemma leaves_macaddr6 i : leaves i (macaddr6 i).
Proof. unfold macaddr6. auto with leaves. Qed.
Lemma leaves_string n i : leaves i (string n i).
Proof. unfold string. auto with leaves. Qed.
Lemma leaves_vector n i : leaves i (vector n i).
Proof. unfold vector. auto with leaves. Qed.
Lemma leaves_be_uint n i : leaves i (be_uint n i).
Proof. unfold be_uint. auto with leaves. Qed.
Lemma leaves_be_int n i : leaves i (be_int n i).
Proof. unfold be_int, be_uint. auto with leaves. Qed.
Lemma leaves_timestamp_secs i : leaves i (timestamp_secs i).
Proof. unfold timestamp_secs. auto with leaves. Qed.
Lemma leaves_timestamp_millis i : leaves i (timestamp_millis i).
Proof. unfold timestamp_millis. auto with leaves. Qed.
Lemma leaves_timestamp_micros i : leaves i (timestamp_micros i).
Proof. unfold timestamp_micros. auto with leaves. Qed.
Lemma leaves_timestamp_nanos i : leaves i (timestamp_nanos i).
Proof. unfold timestamp_nanos. auto with leaves. Qed.
Lemma leaves_boolean i : leaves i (boolean i).
Proof. unfold boolean. auto with leaves. Qed.
Lemma leaves_verify_version v i : leaves i (verify_version i v).
Proof. unfold verify_version. auto with leaves. Qed.
End parsers.

#[export] Hint Resolve leaves_ipv4_addr leaves_ipv6_addr leaves_macaddr6
   leaves_string leaves_vector leaves_be_uint leaves_be_int leaves_timestamp_secs
   leaves_timestamp_millis leaves_timestamp_micros leaves_timestamp_nanos leaves_boolean leaves_verify_version : leaves.

(** The reading lemma of a single-value parser. *)
Ltac reads_prim :=
  lazymatch goal with
  | |- reads _ be_u8 _ => apply reads_u8
  | |- reads _ be_u16 _ => apply reads_u16
  | |- reads _ be_u24 _ => apply reads_u24
  | |- reads _ be_u32 _ => apply reads_u32
  | |- reads _ be_u64 _ => apply reads_u64
  | |- reads _ be_i8 _ => apply reads_i8
  | |- reads _ be_i16 _ => apply reads_i16
  | |- reads _ be_i24 _ => apply reads_i24
  | |- reads _ be_i32 _ => apply reads_i32
  | |- reads _ be_i64 _ => apply reads_i64
  | |- reads _ be_f32 _ => apply reads_f32
  | |- reads _ be_f64 _ => apply reads_f64
  | |- reads _ ipv4_addr _ => apply reads_ipv4_addr
  | |- reads _ ipv6_addr _ => apply reads_ipv6_addr
  | |- reads _ macaddr6 _ => apply reads_macaddr6
  | |- reads _ (string _) _ => apply reads_string; lia
  | |- reads _ (vector _) _ => apply reads_vector; lia
  | |- reads _ (be_uint _) _ => apply reads_be_uint; lia
  | |- reads _ (be_int _) _ => apply reads_be_int; lia
  | |- reads _ timestamp_secs _ => apply reads_timestamp_secs
  | |- reads _ timestamp_millis _ => apply reads_timestamp_millis
  | |- reads _ timestamp_micros _ => apply reads_timestamp_ntp
  | |- reads _ timestamp_nanos _ => apply reads_timestamp_ntp
  | |- reads _ boolean _ => apply reads_boolean
  end.

(** Runs the parser [p] on the input [i] of the goal: either it is too short,
    or its octets [c] are split off. *)
Ltac read_at n p i :=
  let Hs := fresh "Hshort" in let c := fresh "c" in let j := fresh "i" in
  let a := fresh "v" in let Hc := fresh "Hlen" in let Ha := fresh "Hval" in
  let E := fresh "E" in
  destruct (reads_at n p _ i ltac:(lia) ltac:(reads_prim))
    as [[Hs E]|(c & j & a & -> & Hc & E & Ha)]; rewrite E; clear E.

#[export] Hint Rewrite @ipv4_addr_app @ipv6_addr_app @macaddr6_app @verify_version_app
  using fits : nom.

Ltac wp_user ::=
  lazymatch goal with
  | |- wp (ipv4_addr _) _ => wp_prim ltac:(apply wp_ipv4_addr)
  | |- wp (ipv6_addr _) _ => wp_prim ltac:(apply wp_ipv6_addr)
  | |- wp (macaddr6 _) _ =>
      apply wp_macaddr6; let i := fresh "i" in let v := fresh "v" in intros i v ->
  | |- wp (vector _ _) _ => wp_prim ltac:(apply wp_vector; [lia|])
  | |- wp (string _ _) _ => wp_prim ltac:(apply wp_string; [lia|])
  | |- wp (be_uint _ _) _ => wp_prim ltac:(apply wp_be_uint; [lia|])
  | |- wp (be_int _ _) _ => wp_prim ltac:(apply wp_be_int; [lia|])
  | |- wp (boolean _) _ =>
      apply wp_boolean; let i := fresh "i" in let v := fresh "v" in let b := fresh "b" in
      intros i v b -> ?
  | |- wp (timestamp_secs _) _ =>
      apply wp_timestamp_secs; let i := fresh "i" in let v := fresh "v" in let d := fresh "d" in
      intros i v d -> ? ?
  | |- wp (timestamp_millis _) _ =>
      apply wp_timestamp_millis; let i := fresh "i" in let v := fresh "v" in let d := fresh "d" in
      intros i v d -> ?
  | |- wp (timestamp_micros _) _ =>
      apply wp_timestamp_micros; let i := fresh "i" in let s := fresh "s" in let f := fresh "f" in
      let d := fresh "d" in intros i s f d -> ? ? ?
  | |- wp (timestamp_nanos _) _ =>
      apply wp_timestamp_nanos; let i := fresh "i" in let s := fresh "s" in let f := fresh "f" in
      let d := fresh "d" in intros i s f d -> ? ? ?
  | |- wp (verify_version _ _) _ =>
      apply wp_verify_version; let i := fresh "i" in intros i ->
  end.

Ltac wpt_user ::=
  lazymatch goal with
  | |- wpt (ipv4_addr _) _ => wpt_prim ltac:(apply wpt_ipv4_addr)
  end.
