(* ===== verification/NetflowV5.v ===== *)
(** [netflow_v5/parser.rs] and [netflow_v5/encoder.rs]: the NetFlow v5 packet,
    its parser and its encoder. *)

From Stdlib Require Import ZArith Lia Strings.Byte.
From stdpp Require Import base tactics numbers list sets.
From S2P Require Import Prelude Nom Parsing Std Crates CommonParser.
#[local] Open Scope Z_scope.

Definition NETFLOW_V5_VERSION : Z := 5.

Record Header := mkHeader {
  h_version : Z;
  h_count : Z;
  h_sys_uptime : Z;
  h_unix_secs : Z;
  h_unix_nsecs : Z;
  h_flow_sequence : Z;
  h_engine_type : Z;
  h_engine_id : Z;
  h_sampling_mode : Z;
  h_sampling_interval : Z;
}.

Record FlowRecord := mkFlowRecord {
  r_srcaddr : Z;
  r_dstaddr : Z;
  r_nexthop : Z;
  r_input : Z;
  r_output : Z;
  r_d_pkts : Z;
  r_d_ockts : Z;
  r_first : Z;
  r_last : Z;
  r_srcport : Z;
  r_dstport : Z;
  r_tcp_flags : Z;
  r_prot : Z;
  r_tos : Z;
  r_src_as : Z;
  r_dst_as : Z;
  r_src_mask : Z;
  r_dst_mask : Z;
}.

Record NetFlowV5Packet := mkPacket {
  p_header : Header;
  p_flow_records : list FlowRecord;
}.

(** ** Parser *)

Section parser.
Context `{NM : Nom} `{CR : Crates}.

Definition unix_time (h : Header) : option DateTime :=
  from_timestamp h.(h_unix_secs) h.(h_unix_nsecs).

Definition parse_header (input : bytes) : IResult Header :=
  let? (input, version) := verify_version input NETFLOW_V5_VERSION in
  let? (input, count) := be_u16 input in
  let? (input, sys_uptime) := be_u32 input in
  let? (input, unix_secs) := be_u32 input in
  let? (input, unix_nsecs) := be_u32 input in
  let? (input, flow_sequence) := be_u32 input in
  let? (input, engine_type) := be_u8 input in
  let? (input, engine_id) := be_u8 input in
  let? (input, sampling_interval) := be_u16 input in
  let sampling_mode := Z.shiftr sampling_interval 14 in
  let sampling_interval := Z.land sampling_interval 0x3fff in
  Ok (input,
      mkHeader version count sys_uptime unix_secs unix_nsecs flow_sequence
        engine_type engine_id sampling_mode sampling_interval).

Definition parse_flow_record (input : bytes) : IResult FlowRecord :=
  let? (input, srcaddr) := ipv4_addr input in
  let? (input, dstaddr) := ipv4_addr input in
  let? (input, nexthop) := ipv4_addr input in
  let? (input, input_) := be_u16 input in
  let? (input, output) := be_u16 input in
  let? (input, d_pkts) := be_u32 input in
  let? (input, d_ockts) := be_u32 input in
  let? (input, first) := be_u32 input in
  let? (input, last) := be_u32 input in
  let? (input, srcport) := be_u16 input in
  let? (input, dstport) := be_u16 input in
  let? (input, _) := nom_take 1 input in
  let? (input, tcp_flags) := be_u8 input in
  let? (input, prot) := be_u8 input in
  let? (input, tos) := be_u8 input in
  let? (input, src_as) := be_u16 input in
  let? (input, dst_as) := be_u16 input in
  let? (input, src_mask) := be_u8 input in
  let? (input, dst_mask) := be_u8 input in
  let? (input, _) := nom_take 2 input in
  Ok (input,
      mkFlowRecord srcaddr dstaddr nexthop input_ output d_pkts d_ockts first last
        srcport dstport tcp_flags prot tos src_as dst_as src_mask dst_mask).

Definition parse_netflow_v5_packet (input : bytes) : IResult NetFlowV5Packet :=
  let? (input, header) := parse_header input in
  let? (input, flow_records) := many header.(h_count) parse_flow_record input in
  Ok (input, mkPacket header flow_records).

(** [NetFlowV5Parser::parse]; the parser has no state. *)
Definition NetFlowV5Parser_parse (input : bytes) : IResult NetFlowV5Packet :=
  parse_netflow_v5_packet input.
End parser.

(** ** Encoder *)

Section encoder.
Context {B : Type} `{BM : BufMut B}.

Definition Header_encode (self : Header) (buf : B) : B :=
  let buf := put_u16 buf self.(h_version) in
  let buf := put_u16 buf self.(h_count) in
  let buf := put_u32 buf self.(h_sys_uptime) in
  let buf := put_u32 buf self.(h_unix_secs) in
  let buf := put_u32 buf self.(h_unix_nsecs) in
  let buf := put_u32 buf self.(h_flow_sequence) in
  let buf := put_u8 buf self.(h_engine_type) in
  let buf := put_u8 buf self.(h_engine_id) in
  put_u16 buf (Z.lor (wrap 16 (Z.shiftl self.(h_sampling_mode) 14))
                     (Z.land self.(h_sampling_interval) 0x3fff)).

Definition FlowRecord_encode (self : FlowRecord) (buf : B) : B :=
  let buf := put_slice buf (be_bytes 4 self.(r_srcaddr)) in
  let buf := put_slice buf (be_bytes 4 self.(r_dstaddr)) in
  let buf := put_slice buf (be_bytes 4 self.(r_nexthop)) in
  let buf := put_u16 buf self.(r_input) in
  let buf := put_u16 buf self.(r_output) in
  let buf := put_u32 buf self.(r_d_pkts) in
  let buf := put_u32 buf self.(r_d_ockts) in
  let buf := put_u32 buf self.(r_first) in
  let buf := put_u32 buf self.(r_last) in
  let buf := put_u16 buf self.(r_srcport) in
  let buf := put_u16 buf self.(r_dstport) in
  let buf := put_u8 buf 0 in
  let buf := put_u8 buf self.(r_tcp_flags) in
  let buf := put_u8 buf self.(r_prot) in
  let buf := put_u8 buf self.(r_tos) in
  let buf := put_u16 buf self.(r_src_as) in
  let buf := put_u16 buf self.(r_dst_as) in
  let buf := put_u8 buf self.(r_src_mask) in
  let buf := put_u8 buf self.(r_dst_mask) in
  put_u16 buf 0.

(** [Header { count, ..header }] *)
Definition with_count (h : Header) (count : Z) : Header :=
  mkHeader h.(h_version) count h.(h_sys_uptime) h.(h_unix_secs) h.(h_unix_nsecs)
    h.(h_flow_sequence) h.(h_engine_type) h.(h_engine_id) h.(h_sampling_mode)
    h.(h_sampling_interval).

Definition NetFlowV5Packet_encode (self : NetFlowV5Packet) (buf : B) : B :=
  let buf := Header_encode (with_count self.(p_header) (wrap 16 (zlen self.(p_flow_records)))) buf in
  fold_left (fun buf record => FlowRecord_encode record buf) self.(p_flow_records) buf.
End encoder.

(** What the encoder writes, as a [Vec]. *)
Definition header_bytes (h : Header) : bytes := Header_encode h ([] : bytes).
Definition record_bytes (r : FlowRecord) : bytes := FlowRecord_encode r ([] : bytes).
Definition packet_bytes (p : NetFlowV5Packet) : bytes := NetFlowV5Packet_encode p ([] : bytes).

(** ** Well-formed values: every field at its width *)

Definition header_wf (h : Header) : Prop :=
  h.(h_version) = NETFLOW_V5_VERSION /\ fits_u 16 h.(h_count) /\ fits_u 32 h.(h_sys_uptime) /\
  fits_u 32 h.(h_unix_secs) /\ fits_u 32 h.(h_unix_nsecs) /\ fits_u 32 h.(h_flow_sequence) /\
  fits_u 8 h.(h_engine_type) /\ fits_u 8 h.(h_engine_id) /\ fits_u 2 h.(h_sampling_mode) /\
  fits_u 14 h.(h_sampling_interval).

Definition record_wf (r : FlowRecord) : Prop :=
  fits_u 32 r.(r_srcaddr) /\ fits_u 32 r.(r_dstaddr) /\ fits_u 32 r.(r_nexthop) /\
  fits_u 16 r.(r_input) /\ fits_u 16 r.(r_output) /\ fits_u 32 r.(r_d_pkts) /\
  fits_u 32 r.(r_d_ockts) /\ fits_u 32 r.(r_first) /\ fits_u 32 r.(r_last) /\
  fits_u 16 r.(r_srcport) /\ fits_u 16 r.(r_dstport) /\ fits_u 8 r.(r_tcp_flags) /\
  fits_u 8 r.(r_prot) /\ fits_u 8 r.(r_tos) /\ fits_u 16 r.(r_src_as) /\ fits_u 16 r.(r_dst_as) /\
  fits_u 8 r.(r_src_mask) /\ fits_u 8 r.(r_dst_mask).

Definition packet_wf (p : NetFlowV5Packet) : Prop :=
  header_wf p.(p_header) /\ Forall record_wf p.(p_flow_records) /\
  zlen p.(p_flow_records) < 2 ^ 16.

#[export] Instance header_wf_dec h : Decision (header_wf h).
Proof. unfold header_wf. apply _. Defined.
#[export] Instance record_wf_dec r : Decision (record_wf r).
Proof. unfold record_wf. apply _. Defined.
#[export] Instance packet_wf_dec p : Decision (packet_wf p).
Proof. unfold packet_wf. apply _. Defined.

(** ** Encoder facts *)

Lemma Header_encode_contents `{BM : BufMut B} h (buf : B) :
  buf_contents (Header_encode h buf) = buf_contents buf ++ header_bytes h.
Proof.
  unfold header_bytes, Header_encode. autorewrite with put. cbn [put_u8 put_u16 put_u32 Vec_BufMut].
  by rewrite <- !app_assoc.
Qed.

Lemma FlowRecord_encode_contents `{BM : BufMut B} r (buf : B) :
  buf_contents (FlowRecord_encode r buf) = buf_contents buf ++ record_bytes r.
Proof.
  unfold record_bytes, FlowRecord_encode. autorewrite with put.
  cbn [put_slice put_u8 put_u16 put_u32 Vec_BufMut]. by rewrite <- !app_assoc.
Qed.

Lemma records_encode_contents `{BM : BufMut B} l (buf : B) :
  buf_contents (fold_left (fun buf r => FlowRecord_encode r buf) l buf)
  = buf_contents buf ++ concat (record_bytes <$> l).
Proof.
  revert buf. induction l as [|r l IH]; intros buf; cbn; [by rewrite app_nil_r|].
  by rewrite IH, FlowRecord_encode_contents, <- app_assoc.
Qed.

(** Into any buffer the encoder appends the same octets. *)
Lemma packet_encode_contents `{BM : BufMut B} p (buf : B) :
  buf_contents (NetFlowV5Packet_encode p buf) = buf_contents buf ++ packet_bytes p.
Proof.
  unfold packet_bytes, NetFlowV5Packet_encode. rewrite records_encode_contents.
  rewrite Header_encode_contents, <- app_assoc. f_equal.
  change (fold_left _ ?l ?b) with (buf_contents (fold_left (fun buf r => FlowRecord_encode r buf) l b)).
  by rewrite records_encode_contents.
Qed.

Lemma packet_bytes_eq p :
  packet_bytes p = header_bytes (with_count p.(p_header) (wrap 16 (zlen p.(p_flow_records))))
                   ++ concat (record_bytes <$> p.(p_flow_records)).
Proof. exact (records_encode_contents (B := bytes) _ (header_bytes _)). Qed.

Lemma zlen_header_bytes h : zlen (header_bytes h) = 24.
Proof. reflexivity. Qed.

Lemma zlen_record_bytes r : zlen (record_bytes r) = 48.
Proof. reflexivity. Qed.

(** ** Parsing what was encoded *)

Lemma sampling_join mode interval :
  fits_u 2 mode -> fits_u 14 interval ->
  Z.lor (wrap 16 (Z.shiftl mode 14)) (Z.land interval 0x3fff) = mode * 2 ^ 14 + interval /\
  fits_u 16 (mode * 2 ^ 14 + interval).
Proof.
  intros Hm Hi. rewrite Z.shiftl_mul_pow2 by lia. split; [|width].
  rewrite (wrap_small 16) by width. change 0x3fff with (Z.ones 14).
  rewrite Z.land_ones by lia. rewrite (Z.mod_small interval) by width.
  apply lor_join; [lia|width].
Qed.

Section roundtrip.
Context `{NM : Nom} `{CR : Crates}.

Lemma parse_header_bytes h rest :
  header_wf h -> parse_header (header_bytes h ++ rest) = Ok (rest, h).
Proof.
  intros (Hv & ? & ? & ? & ? & ? & ? & ? & Hm & Hi).
  destruct (sampling_join _ _ Hm Hi) as [Hj Hf].
  destruct h as [v c up secs nsecs sq et ei m iv]; cbn in *. subst v.
  unfold header_bytes, Header_encode. cbn.
  rewrite Hj, <- !app_assoc. unfold parse_header, NETFLOW_V5_VERSION.
  autorewrite with nom. change 0x3fff with (Z.ones 14).
  by rewrite shiftr_join, land_join by (lia || done).
Qed.

Lemma parse_record_bytes r rest :
  record_wf r -> parse_flow_record (record_bytes r ++ rest) = Ok (rest, r).
Proof.
  unfold record_wf. intros. ands. destruct r; cbn in *.
  unfold record_bytes, FlowRecord_encode. cbn. rewrite <- !app_assoc.
  unfold parse_flow_record. autorewrite with nom.
  rewrite (nom_take_app (be_bytes 1 0)) by done. autorewrite with nom.
  by rewrite (nom_take_app (be_bytes 2 0)).
Qed.

(** The fields of a parsed header, and the octets they were read from. *)
Lemma wp_parse_header i :
  wp (parse_header i) (fun '(i', h) => header_wf h /\ i = header_bytes h ++ i').
Proof.
  unfold parse_header. wp_steps. unfold header_wf, header_bytes, Header_encode. cbn.
  change 0x3fff with (Z.ones 14).
  assert (Hm : fits_u 2 (Z.shiftr v6 14)) by by apply shiftr_fits.
  assert (Hi : fits_u 14 (Z.land v6 (Z.ones 14))) by by apply land_ones_fits.
  destruct (sampling_join _ _ Hm Hi) as [Hj _]. change 0x3fff with (Z.ones 14) in Hj.
  rewrite Hj, split_join, <- !app_assoc by lia. naive_solver.
Qed.

(** A record's octets with the parts the parser skips cleared. *)
Definition clear_pads (c : bytes) : bytes :=
  take 36 c ++ [byte_of 0] ++ take 9 (drop 37 c) ++ [byte_of 0; byte_of 0].

Lemma wp_parse_flow_record i :
  wp (parse_flow_record i) (fun '(i', r) =>
    exists c, i = c ++ i' /\ record_wf r /\ zlen c = 48 /\ clear_pads c = record_bytes r).
Proof.
  unfold parse_flow_record. wp_steps. 
  match goal with |- exists c, ?i = c ++ ?i' /\ _ =>
    rewrite ?app_assoc; eexists; split; [reflexivity|] end.
  split; [unfold record_wf; cbn; auto 20|].
  split; [autorewrite with zlen; lia|].
  destruct (zlen_1 v10) as [x ->]; [done|]. destruct (zlen_2 v18) as (y & z & ->); [done|].
  reflexivity.
Qed.

Lemma parse_flow_record_progress : progressing parse_flow_record.
Proof.
  intros i i' r E. pose proof (wp_ok _ _ _ E (wp_parse_flow_record i)) as (c & -> & _ & Hc & _).
  rewrite zlen_app. lia.
Qed.

Lemma parse_flow_record_total i :
  48 <= zlen i -> wpt (parse_flow_record i) (fun '(i', _) => zlen i' = zlen i - 48).
Proof. intros Hi. unfold parse_flow_record. wpt_steps. room. Qed.

Lemma wp_parse_packet i :
  wp (NetFlowV5Parser_parse i) (fun '(i', p) =>
    packet_wf p /\ p.(p_header).(h_count) = zlen p.(p_flow_records) /\
    exists cs, i = header_bytes p.(p_header) ++ concat cs ++ i' /\
      Forall2 (fun c r => zlen c = 48 /\ clear_pads c = record_bytes r) cs p.(p_flow_records)).
Proof.
  unfold NetFlowV5Parser_parse, parse_netflow_v5_packet.
  apply wp_bind. eapply wp_mono; [apply wp_parse_header|]. intros [i1 h] [Hh ->].
  apply wp_bind. assert (Hn : 0 <= h_count h < 2 ^ 16) by by destruct Hh as (_ & ? & _).
  rewrite many_law by (lia || apply parse_flow_record_progress).
  eapply wp_mono; [apply (wp_count_ref _ (fun c r =>
    record_wf r /\ zlen c = 48 /\ clear_pads c = record_bytes r))|].
  { intros j. eapply wp_mono; [apply wp_parse_flow_record|]. naive_solver. }
  intros [i2 l] (cs & -> & HR & Hl). cbn [wp].
  assert (Hlen : h_count h = zlen l) by (unfold zlen; lia).
  unfold packet_wf. cbn [p_header p_flow_records].
  split; [|split; [done|]].
  - split; [done|]. split; [|rewrite <- Hlen; lia].
    apply Forall_lookup. intros k r Hr.
    apply (Forall2_lookup_r _ _ _ k r HR) in Hr as (c & _ & ? & _). done.
  - exists cs. split; [done|]. eapply Forall2_impl; [done|]. naive_solver.
Qed.
End roundtrip.

(** ** The domain of the parser *)

Section domain.
Context `{NM : Nom}.

Lemma header_bytes_fields h rest :
  header_wf h ->
  be_value (take 2 (header_bytes h ++ rest)) = NETFLOW_V5_VERSION /\
  be_value (take 2 (drop 2 (header_bytes h ++ rest))) = h.(h_count).
Proof.
  intros (Hv & Hc & _). rewrite <- Hv.
  change (header_bytes h) with (be_bytes 2 h.(h_version) ++ be_bytes 2 h.(h_count) ++
                                drop 4 (header_bytes h)).
  rewrite <- !app_assoc, take_app_zlen, drop_app_zlen, take_app_zlen by done.
  rewrite Hv. by rewrite !be_value_small by (exact Hc || done).
Qed.

Lemma parse_header_total i :
  24 <= zlen i -> be_value (take 2 i) = NETFLOW_V5_VERSION ->
  exists h, parse_header i = Ok (drop 24 i, h) /\ h.(h_count) = be_value (take 2 (drop 2 i)).
Proof.
  intros Hi Hv. enough (wpt (parse_header i) (fun '(i', _) => i' = drop 24 i)) as Ht.
  { apply wpt_ok in Ht as ([i' h] & E & ->). exists h. split; [done|].
    pose proof (wp_ok _ _ _ E (wp_parse_header i)) as [Hwf Hib].
    rewrite Hib. symmetry. by apply header_bytes_fields. }
  unfold parse_header, verify_version. rewrite verify_law. apply wpt_bind, wpt_bind.
  wpt_step. rewrite take_app_zlen, be_value_small in Hv by done.
  rewrite Hv, Z.eqb_refl. wpt_steps. rewrite !app_assoc. symmetry. by apply drop_app_zlen.
Qed.

(** A successful parse consumed the header and the counted records. *)
Lemma parse_consumed i i' p :
  NetFlowV5Parser_parse i = Ok (i', p) ->
  let count := be_value (take 2 (drop 2 i)) in
  i' = drop (Z.to_nat (24 + 48 * count)) i /\
  24 <= zlen i /\ be_value (take 2 i) = NETFLOW_V5_VERSION /\ 24 + 48 * count <= zlen i.
Proof.
  intros E. pose proof (wp_ok _ _ _ E (wp_parse_packet i)) as (Hwf & Hc & cs & -> & HR).
  destruct Hwf as (Hh & _ & _).
  destruct (header_bytes_fields _ (concat cs ++ i') Hh) as [Hv Hn].
  cbv zeta. rewrite Hv, Hn, Hc.
  assert (Hl : zlen (concat cs) = 48 * zlen (p_flow_records p)).
  { unfold zlen at 2. rewrite <- (Forall2_length _ _ _ HR). fold (zlen cs).
    rewrite zlen_concat. apply zsum_const. intros c Hin.
    apply list_elem_of_lookup in Hin as [k Hk].
    apply (Forall2_lookup_l _ _ _ k c HR) in Hk as (? & _ & ? & _). done. }
  rewrite !zlen_app, zlen_header_bytes, Hl.
  pose proof (zlen_nonneg i'). pose proof (zlen_nonneg (p_flow_records p)).
  split; [|lia]. rewrite app_assoc. symmetry. apply drop_app_zlen.
  rewrite length_app. change (length (header_bytes _)) with 24%nat. unfold zlen in *. lia.
Qed.
End domain.

(** ** Properties *)

Section properties.
Context `{NM : Nom}.

(** C38: A well-formed packet, encoded into any empty buffer and followed by
    other octets, parses back to the packet, its count set to the number of
    its records, and leaves the other octets. *)
Theorem v5_parse_encode `{BM : BufMut B} (p : NetFlowV5Packet) (buf : B) rest :
  packet_wf p -> buf_contents buf = [] ->
  NetFlowV5Parser_parse (buf_contents (NetFlowV5Packet_encode p buf) ++ rest)
  = Ok (rest, mkPacket (with_count p.(p_header) (zlen p.(p_flow_records))) p.(p_flow_records)).
Proof.
  intros (Hh & Hr & Hn) Hb. rewrite packet_encode_contents, Hb, packet_bytes_eq. cbn [app].
  set (h := with_count _ _). rewrite <- app_assoc.
  pose proof (zlen_nonneg (p_flow_records p)).
  assert (Hw : header_wf h) by (unfold h, header_wf, with_count in *; cbn; naive_solver (apply wrap_range; lia)).
  unfold NetFlowV5Parser_parse, parse_netflow_v5_packet. rewrite parse_header_bytes by done.
  assert (Hc : h_count h = zlen (p_flow_records p)) by by apply wrap_small.
  rewrite Hc, many_law by (lia || apply parse_flow_record_progress).
  unfold zlen at 1. rewrite Nat2Z.id, count_ref_concat.
  - unfold h. cbn in Hc. by rewrite Hc.
  - intros r i Hin. apply parse_record_bytes. by eapply Forall_forall in Hr.
Qed.

(** What the parser returns is well-formed, holds as many records as the
    header counts, and encodes back to the octets it was read from, those of
    the record padding cleared. *)
Theorem v5_encode_parse i i' p :
  NetFlowV5Parser_parse i = Ok (i', p) ->
  packet_wf p /\ p.(p_header).(h_count) = zlen p.(p_flow_records) /\
  exists head cs, i = head ++ concat cs ++ i' /\
    zlen head = 24 /\ Forall (fun c => zlen c = 48) cs /\
    packet_bytes p = head ++ concat (clear_pads <$> cs).
Proof.
  intros E. pose proof (wp_ok _ _ _ E (wp_parse_packet i)) as (Hwf & Hc & cs & -> & HR).
  split; [done|]. split; [done|]. exists (header_bytes (p_header p)), cs.
  split; [done|]. split; [apply zlen_header_bytes|]. split.
  - apply Forall_lookup. intros k c Hk.
    apply (Forall2_lookup_l _ _ _ k c HR) in Hk as (r & _ & ? & _). done.
  - rewrite packet_bytes_eq. f_equal.
    + destruct Hwf as (Hh & _ & Hl). pose proof (zlen_nonneg (p_flow_records p)).
      rewrite wrap_small by width. rewrite <- Hc. by destruct (p_header p).
    + clear -HR. induction HR as [|c r cs l [_ Hcr] _ IH]; [done|]. cbn. by rewrite IH, Hcr.
Qed.

(** Parsing succeeds exactly when the version is 5 and the counted
    records are all present, and then leaves what follows the last of them;
    any other input is refused with a recoverable error. *)
Theorem v5_parse_domain i :
  let count := be_value (take 2 (drop 2 i)) in
  let ok := 24 <= zlen i /\ be_value (take 2 i) = NETFLOW_V5_VERSION /\
            24 + 48 * count <= zlen i in
  (ok -> exists p, NetFlowV5Parser_parse i = Ok (drop (Z.to_nat (24 + 48 * count)) i, p)) /\
  (~ ok -> NetFlowV5Parser_parse i = Err Error).
Proof.
  intros count ok. split.
  - intros (Hi & Hv & Hc).
    destruct (parse_header_total i Hi Hv) as (h & Hhd & Hcnt). fold count in Hcnt.
    assert (Ht : wpt (NetFlowV5Parser_parse i) (fun _ => True)).
    { unfold NetFlowV5Parser_parse, parse_netflow_v5_packet. rewrite Hhd.
      pose proof (wp_ok _ _ _ Hhd (wp_parse_header i)) as [(_ & [? _] & _) _].
      apply wpt_bind. rewrite many_law by (lia || apply parse_flow_record_progress).
      eapply wpt_mono; [eapply wpt_count_ref with (k := 48)|].
      - lia.
      - intros. by apply parse_flow_record_total.
      - rewrite zlen_drop. lia.
      - by intros [? ?]. }
    apply wpt_ok in Ht as ([i' p] & E & _). exists p. rewrite E. do 2 f_equal.
    apply (parse_consumed _ _ _ E).
  - intros Hno. destruct (NetFlowV5Parser_parse i) as [[i' p]|e] eqn:E.
    + exfalso. apply Hno. apply (parse_consumed _ _ _ E).
    + f_equal. by apply (wp_err _ _ _ E (wp_parse_packet i)).
Qed.
End properties.

(** A packet with one record: an exporter up for an hour, one flow seen from
    60 s to 1 s before. *)
Definition sample_packet : NetFlowV5Packet :=
  mkPacket (mkHeader 5 1 3600000 1700000000 0 42 0 0 1 100)
    [mkFlowRecord 0xc0000201 0xc6336401 0 1 2 10 1500 3540000 3599000 1234 80 0x18 6 0 0 0 0 0].

Lemma v5_parse_encode_witness :
  packet_wf sample_packet /\
  NetFlowV5Parser_parse (NM := nom_std)
    (buf_contents (NetFlowV5Packet_encode sample_packet ([] : bytes)) ++ [x07])
  = Ok ([x07], mkPacket (with_count sample_packet.(p_header) 1) sample_packet.(p_flow_records)).
Proof.
  split; [by apply (bool_decide_unpack _); vm_compute|].
  apply (v5_parse_encode (NM := nom_std) sample_packet []);
    [by apply (bool_decide_unpack _); vm_compute|reflexivity].
Defined.

(** The same octets with the padding set. *)
Definition padded_input : bytes :=
  take 60 (packet_bytes sample_packet) ++ [xff] ++ drop 61 (packet_bytes sample_packet).

Lemma v5_encode_parse_witness :
  NetFlowV5Parser_parse (NM := nom_std) padded_input = Ok ([], sample_packet) /\
  packet_wf sample_packet.
Proof.
  assert (E : NetFlowV5Parser_parse (NM := nom_std) padded_input = Ok ([], sample_packet))
    by (vm_compute; reflexivity).
  split; [exact E|]. exact (proj1 (v5_encode_parse (NM := nom_std) _ _ _ E)).
Defined.
