(* ===== verification/TemplateCache.v ===== *)
(** [common/template_cache.rs]: the templates of one exporter.

    The two-level hash map is a [gmap] of [gmap]s; iteration order is never
    observable, since every traversal is a sum, a minimum or a filter. *)

From Stdlib Require Import ZArith Lia.
From stdpp Require Import base tactics numbers list gmap.
From S2P Require Import Prelude Std.
#[local] Open Scope Z_scope.

Definition MAX_TEMPLATE_FIELDS : Z := 65_536.

(** An observation domain and a template ID. *)
Abbreviation TemplateKey := (Z * Z)%type.

Record Entry (F : Type) := mkEntry {
  e_fields : list F;
  e_sent_at : Z;
}.
Arguments mkEntry {F}.
Arguments e_fields {F}.
Arguments e_sent_at {F}.

Record TemplateCache (F : Type) := mkCache {
  domains : gmap Z (gmap Z (Entry F));
  timeout : Z;
  fields : Z;
  next_sweep : Z;
  next_expiry : option Z;
  refusing : bool;
}.
Arguments mkCache {F}.
Arguments domains {F}.
Arguments timeout {F}.
Arguments fields {F}.
Arguments next_sweep {F}.
Arguments next_expiry {F}.
Arguments refusing {F}.

Section cache.
Context {F : Type} `{CK : Clock}.
Implicit Types (self : TemplateCache F).

Definition new (timeout : Z) (reads : nat) : nat * TemplateCache F :=
  let '(reads, now) := instant_now reads in
  (reads, mkCache ∅ timeout 0 (now + timeout) None false).

(** The entry stored under a key, expired or not. *)
Definition find (self : TemplateCache F) (key : TemplateKey) : option (Entry F) :=
  match self.(domains) !! key.1 with
  | Some templates => templates !! key.2
  | None => None
  end.

(** The clock is read only when there is an entry to check. *)
Definition get (self : TemplateCache F) (key : TemplateKey) (reads : nat)
    : nat * option (list F) :=
  match find self key with
  | None => (reads, None)
  | Some entry =>
      let '(reads, now) := instant_now reads in
      if duration_since now entry.(e_sent_at) <? self.(timeout)
      then (reads, Some entry.(e_fields)) else (reads, None)
  end.

Definition contains_key (self : TemplateCache F) (key : TemplateKey) (reads : nat) : nat * bool :=
  let '(reads, r) := get self key reads in
  (reads, match r with Some _ => true | None => false end).

Definition entry_len (entry : Entry F) : Z := zlen entry.(e_fields).

Definition fits (self : TemplateCache F) (key : TemplateKey) (fields' : list F) : bool :=
  let replaced := match find self key with Some entry => entry_len entry | None => 0 end in
  self.(fields) - replaced + zlen fields' <=? MAX_TEMPLATE_FIELDS.

(** [Iterator::min] over [sent_at + timeout] of every entry. *)
Definition option_min (a : Z) (b : option Z) : option Z :=
  Some (match b with None => a | Some b => Z.min a b end).

Definition earliest (timeout : Z) (m : gmap Z (gmap Z (Entry F))) : option Z :=
  map_fold (fun _ templates acc =>
    map_fold (fun _ entry acc => option_min (entry.(e_sent_at) + timeout) acc) acc templates)
    None m.

Definition retain_live (timeout now : Z) (templates : gmap Z (Entry F))
    : option (gmap Z (Entry F)) :=
  let templates :=
    filter (fun '(_, entry) => duration_since now entry.(e_sent_at) < timeout) templates in
  if decide (templates = ∅) then None else Some templates.

Definition remove_expired (self : TemplateCache F) (now : Z) : TemplateCache F :=
  let domains := omap (retain_live self.(timeout) now) self.(domains) in
  mkCache domains self.(timeout) (msum (msum entry_len) domains) (now + self.(timeout))
    (earliest self.(timeout) domains) self.(refusing).

Definition remove (self : TemplateCache F) (key : TemplateKey) : TemplateCache F :=
  match self.(domains) !! key.1 with
  | None => self
  | Some templates =>
      let fields :=
        match templates !! key.2 with
        | Some entry => self.(fields) - entry_len entry
        | None => self.(fields)
        end in
      let templates := delete key.2 templates in
      let domains :=
        if decide (templates = ∅) then delete key.1 self.(domains)
        else <[key.1 := templates]> self.(domains) in
      mkCache domains self.(timeout) fields self.(next_sweep) self.(next_expiry) self.(refusing)
  end.

(** The log level differs when refusals repeat; the state does not. *)
Definition refuse (self : TemplateCache F) (key : TemplateKey) : TemplateCache F :=
  let self := mkCache self.(domains) self.(timeout) self.(fields) self.(next_sweep)
                self.(next_expiry) true in
  remove self key.

(** [insert] past its checks. *)
Definition store (self : TemplateCache F) (key : TemplateKey) (fields' : list F) (now : Z)
    : TemplateCache F :=
  let '(domain, id) := key in
  let total := self.(fields) + zlen fields' in
  let entry := mkEntry fields' now in
  let templates := default ∅ (self.(domains) !! domain) in
  let '(total, refusing) :=
    match templates !! id with
    | Some replaced => (total - entry_len replaced, self.(refusing))
    | None => (total, false)
    end in
  let expiry := now + self.(timeout) in
  mkCache (<[domain := <[id := entry]> templates]> self.(domains)) self.(timeout) total
    self.(next_sweep) (option_min expiry self.(next_expiry)) refusing.

Definition insert_at (self : TemplateCache F) (key : TemplateKey) (fields' : list F) (now : Z)
    : TemplateCache F :=
  let self := if self.(next_sweep) <=? now then remove_expired self now else self in
  if fits self key fields' then store self key fields' now
  else
    let self :=
      match self.(next_expiry) with
      | Some expiry => if expiry <=? now then remove_expired self now else self
      | None => self
      end in
    if fits self key fields' then store self key fields' now else refuse self key.

Definition insert (self : TemplateCache F) (key : TemplateKey) (fields' : list F) (reads : nat)
    : nat * TemplateCache F :=
  let '(reads, now) := instant_now reads in (reads, insert_at self key fields' now).

Definition remove_domain (self : TemplateCache F) (domain : Z) : TemplateCache F :=
  match self.(domains) !! domain with
  | None => self
  | Some templates =>
      mkCache (delete domain self.(domains)) self.(timeout)
        (self.(fields) - msum entry_len templates) self.(next_sweep) self.(next_expiry)
        self.(refusing)
  end.

Definition refresh_domain (self : TemplateCache F) (domain : Z) (resolve : list F -> list F)
    : TemplateCache F :=
  match self.(domains) !! domain with
  | None => self
  | Some templates =>
      let fields :=
        map_fold (fun _ entry acc => acc - entry_len entry + zlen (resolve entry.(e_fields)))
          self.(fields) templates in
      let templates :=
        (fun entry => mkEntry (resolve entry.(e_fields)) entry.(e_sent_at)) <$> templates in
      mkCache (<[domain := templates]> self.(domains)) self.(timeout) fields self.(next_sweep)
        self.(next_expiry) self.(refusing)
  end.

Definition len (self : TemplateCache F) : Z :=
  msum (fun templates => Z.of_nat (size templates)) self.(domains).

Definition is_empty (self : TemplateCache F) : bool := bool_decide (self.(domains) = ∅).

End cache.

(** ** What the operations do to the entries *)

Section facts.
Context {F : Type}.
Implicit Types (self : TemplateCache F) (key k : TemplateKey) (e : Entry F).

Lemma entry_len_nonneg e : 0 <= entry_len e.
Proof. apply zlen_nonneg. Qed.

Definition live timeout now e : Prop := duration_since now e.(e_sent_at) < timeout.

#[export] Instance live_dec timeout now e : Decision (live timeout now e).
Proof. unfold live. apply _. Defined.

Lemma find_remove self key k :
  find (remove self key) k = if decide (k = key) then None else find self k.
Proof.
  destruct key as [d n], k as [d' n']. unfold remove, find. cbn [fst snd].
  destruct (domains self !! d) as [t|] eqn:Ed; cbn [domains].
  - destruct (decide (d' = d)) as [->|Hd].
    + case_decide as Ht.
      * rewrite lookup_delete_eq, Ed. case_decide as Hk; [done|].
        assert (n' <> n) by congruence.
        rewrite <- (lookup_delete_ne t n n') by done. by rewrite Ht.
      * rewrite lookup_insert_eq, Ed. case_decide as Hk.
        { injection Hk as ->. apply lookup_delete_eq. }
        apply lookup_delete_ne. congruence.
    + rewrite (decide_False (P := (d', n') = (d, n))) by congruence.
      case_decide; [by rewrite lookup_delete_ne|by rewrite lookup_insert_ne].
  - case_decide as Hk; [|done]. injection Hk as -> ->. by rewrite Ed.
Qed.

Lemma find_store self key fs now k :
  find (store self key fs now) k
  = if decide (k = key) then Some (mkEntry fs now) else find self k.
Proof.
  destruct key as [d n], k as [d' n']. unfold store, find. cbn [fst snd].
  destruct (match _ !! n with Some _ => _ | None => _ end) as [total r]. cbn [domains].
  destruct (decide (d' = d)) as [->|Hd].
  - rewrite lookup_insert_eq. case_decide as Hk.
    + injection Hk as ->. apply lookup_insert_eq.
    + rewrite lookup_insert_ne by congruence.
      destruct (domains self !! d); [done|]. apply lookup_empty.
  - rewrite lookup_insert_ne, decide_False by congruence. done.
Qed.

Lemma find_remove_expired self now k :
  find (remove_expired self now) k
  = match find self k with
    | Some e => if decide (live self.(timeout) now e) then Some e else None
    | None => None
    end.
Proof.
  unfold find, remove_expired. cbn [domains]. rewrite lookup_omap.
  destruct (domains self !! k.1) as [t|]; cbn; [|done]. unfold retain_live.
  set (t' := filter _ t).
  assert (Ht : t' !! k.2 = match t !! k.2 with
    | Some e => if decide (live (timeout self) now e) then Some e else None
    | None => None end).
  { unfold t'. destruct (t !! k.2) as [e|] eqn:E.
    - case_decide.
      + by apply map_lookup_filter_Some_2.
      + apply map_lookup_filter_None_2. right. intros e' He'. by simplify_eq.
    - apply map_lookup_filter_None_2. by left. }
  case_decide as He; [|done]. by rewrite <- Ht, He, lookup_empty.
Qed.

Lemma find_remove_domain self d k :
  find (remove_domain self d) k = if decide (k.1 = d) then None else find self k.
Proof.
  unfold remove_domain, find. destruct (domains self !! d) as [t|] eqn:Ed; cbn [domains].
  - case_decide as Hk; [by rewrite Hk, lookup_delete_eq|by rewrite lookup_delete_ne].
  - case_decide as Hk; [by rewrite Hk, Ed|done].
Qed.

Lemma find_refresh_domain self d resolve k :
  find (refresh_domain self d resolve) k
  = if decide (k.1 = d)
    then (fun e => mkEntry (resolve e.(e_fields)) e.(e_sent_at)) <$> find self k
    else find self k.
Proof.
  unfold refresh_domain, find. destruct (domains self !! d) as [t|] eqn:Ed; cbn [domains].
  - case_decide as Hk.
    + by rewrite Hk, lookup_insert_eq, Ed, lookup_fmap.
    + by rewrite lookup_insert_ne.
  - case_decide as Hk; [by rewrite Hk, Ed|done].
Qed.

(** *** The field total *)

Definition total_fields self : Z := msum (msum entry_len) self.(domains).

Definition replaced_len self key : Z :=
  match find self key with Some e => entry_len e | None => 0 end.

Lemma msum_entries_nonneg (t : gmap Z (Entry F)) : 0 <= msum entry_len t.
Proof. apply msum_nonneg, entry_len_nonneg. Qed.

Lemma replaced_len_at self d n :
  replaced_len self (d, n) = at_key entry_len n (default ∅ (self.(domains) !! d)).
Proof.
  unfold replaced_len, find, at_key. cbn [fst snd].
  destruct (domains self !! d) as [t|]; cbn; [by destruct (t !! n)|].
  by rewrite lookup_empty.
Qed.

Lemma replaced_len_le self key : 0 <= replaced_len self key <= total_fields self.
Proof.
  destruct key as [d n]. unfold replaced_len, find, total_fields. cbn [fst snd].
  pose proof (msum_nonneg (msum entry_len) (domains self) msum_entries_nonneg).
  destruct (domains self !! d) as [t|] eqn:Ed; [|lia].
  pose proof (msum_lookup_le _ _ _ _ msum_entries_nonneg Ed).
  destruct (t !! n) as [e|] eqn:E; [|lia].
  pose proof (msum_lookup_le _ _ _ _ entry_len_nonneg E).
  pose proof (entry_len_nonneg e). lia.
Qed.

Lemma total_store self key fs now :
  total_fields (store self key fs now) = total_fields self + zlen fs - replaced_len self key.
Proof.
  destruct key as [d n]. rewrite replaced_len_at. unfold total_fields, store.
  destruct (match _ !! n with Some _ => _ | None => _ end) as [total r]. cbn [domains].
  rewrite !msum_insert. unfold entry_len at 1. cbn [e_fields].
  unfold at_key at 2. destruct (domains self !! d) as [t|]; cbn [default fmap option_fmap option_map from_option id].
  - lia.
  - rewrite msum_empty. lia.
Qed.

Lemma fields_store self key fs now :
  (store self key fs now).(fields) = self.(fields) + zlen fs - replaced_len self key.
Proof.
  destruct key as [d n]. unfold store, replaced_len, find. cbn [fst snd].
  destruct (domains self !! d) as [t|]; cbn [default from_option id].
  - destruct (t !! n); cbn; lia.
  - rewrite lookup_empty. cbn. lia.
Qed.

Lemma total_remove self key :
  total_fields (remove self key) = total_fields self - replaced_len self key.
Proof.
  destruct key as [d n]. rewrite replaced_len_at. unfold total_fields, remove. cbn [fst snd].
  destruct (domains self !! d) as [t|] eqn:Ed; cbn [domains default from_option id].
  - case_decide as Ht.
    + rewrite msum_delete'. unfold at_key at 1. rewrite Ed. cbn.
      pose proof (msum_delete' entry_len t n) as H. rewrite Ht, msum_empty in H. lia.
    + rewrite msum_insert, msum_delete'. unfold at_key at 2. rewrite Ed. cbn. lia.
  - unfold at_key. rewrite lookup_empty. cbn. lia.
Qed.

Lemma fields_remove self key :
  (remove self key).(fields) = self.(fields) - replaced_len self key.
Proof.
  destruct key as [d n]. unfold remove, replaced_len, find. cbn [fst snd].
  destruct (domains self !! d) as [t|]; [|lia].
  destruct (t !! n); cbn; lia.
Qed.

Lemma total_remove_domain self d :
  total_fields (remove_domain self d)
  = total_fields self - at_key (msum entry_len) d self.(domains) /\
  (remove_domain self d).(fields)
  = self.(fields) - at_key (msum entry_len) d self.(domains).
Proof.
  unfold total_fields, remove_domain, at_key.
  destruct (domains self !! d) as [t|] eqn:Ed; cbn; [|lia].
  rewrite msum_delete'. unfold at_key. rewrite Ed. cbn. lia.
Qed.

Lemma refresh_fold (resolve : list F -> list F) (t : gmap Z (Entry F)) acc :
  map_fold (fun _ e acc => acc - entry_len e + zlen (resolve e.(e_fields))) acc t
  = acc - msum entry_len t
    + msum entry_len ((fun e => mkEntry (resolve e.(e_fields)) e.(e_sent_at)) <$> t).
Proof.
  induction t as [|k e t Hk IH] using map_ind.
  - rewrite map_fold_empty, fmap_empty, !msum_empty. lia.
  - rewrite map_fold_insert_L by (lia || done).
    rewrite IH, fmap_insert, !msum_insert_None by (rewrite ?lookup_fmap, ?Hk; done).
    change (entry_len (mkEntry (resolve (e_fields e)) (e_sent_at e))) with (zlen (resolve (e_fields e))).
    lia.
Qed.

Lemma total_refresh_domain self d resolve :
  (refresh_domain self d resolve).(fields) - self.(fields)
  = total_fields (refresh_domain self d resolve) - total_fields self.
Proof.
  unfold total_fields, refresh_domain.
  destruct (domains self !! d) as [t|] eqn:Ed; cbn; [|lia].
  rewrite refresh_fold, msum_insert. unfold at_key. rewrite Ed. cbn. lia.
Qed.

Lemma total_remove_expired self now : total_fields (remove_expired self now) <= total_fields self.
Proof.
  unfold total_fields, remove_expired. cbn [domains].
  apply msum_omap_le; [apply msum_entries_nonneg|].
  intros t t'. unfold retain_live. case_decide; [done|]. intros [= <-].
  clear. induction t as [|k e t Hk IH] using map_ind.
  - by rewrite map_filter_empty.
  - rewrite msum_insert_None by done. pose proof (entry_len_nonneg e).
    destruct (decide (duration_since now (e_sent_at e) < timeout self)).
    + rewrite map_filter_insert_True by done. rewrite msum_insert_None; [lia|].
      apply map_lookup_filter_None_2. by left.
    + rewrite map_filter_insert_False, delete_id by done. lia.
Qed.
End facts.

(** ** The invariant *)

(** [o] is at most [x]. *)
Definition no_later (o : option Z) (x : Z) : Prop := exists y, o = Some y /\ y <= x.

Section invariant.
Context {F : Type}.
Implicit Types (self : TemplateCache F) (key k : TemplateKey) (e : Entry F).

Lemma option_min_le a b x : a <= x \/ no_later b x -> no_later (option_min a b) x.
Proof.
  unfold no_later, option_min. intros [H|(y & -> & H)]; [|eexists; split; [done|lia]].
  eexists; split; [done|]. destruct b; lia.
Qed.

Lemma earliest_inner tmo (t : gmap Z (Entry F)) acc x :
  no_later acc x \/ (exists n e, t !! n = Some e /\ e.(e_sent_at) + tmo <= x) ->
  no_later (map_fold (fun _ e acc => option_min (e.(e_sent_at) + tmo) acc) acc t) x.
Proof.
  induction t as [|n e t Hn IH] using map_ind.
  - rewrite map_fold_empty. intros [H|(n & e & H & _)]; [done|]. by rewrite lookup_empty in H.
  - rewrite map_fold_insert_L; [|unfold option_min; intros; f_equal; destruct y; lia|done].
    intros [H|(n' & e' & H & Hx)].
    + apply option_min_le. right. apply IH. by left.
    + apply lookup_insert_Some in H as [[-> ->]|[_ H]].
      * apply option_min_le. by left.
      * apply option_min_le. right. apply IH. right. eauto.
Qed.

Lemma earliest_le tmo (m : gmap Z (gmap Z (Entry F))) d t n e :
  m !! d = Some t -> t !! n = Some e -> no_later (earliest tmo m) (e.(e_sent_at) + tmo).
Proof.
  unfold earliest. revert d t.
  apply (map_fold_weak_ind (fun r m => forall d t, m !! d = Some t -> t !! n = Some e ->
    no_later r (e_sent_at e + tmo))).
  - intros d t H. by rewrite lookup_empty in H.
  - intros d' t' m' r Hd IH d t Hl Hn.
    apply earliest_inner. apply lookup_insert_Some in Hl as [[-> ->]|[_ Hl]]; [right|left; eauto].
    exists n, e. split; [done|lia].
Qed.

Lemma earliest_find tmo self k e :
  find self k = Some e -> no_later (earliest tmo self.(domains)) (e.(e_sent_at) + tmo).
Proof.
  unfold find. destruct (domains self !! k.1) as [m|] eqn:E; [|done].
  intros He. by apply (earliest_le tmo _ k.1 m k.2 e).
Qed.

(** At a time [t] no earlier than the last use: the field total is right and
    within the budget, no domain is empty, and the two sweep times are what
    their comments say. *)
Record cache_inv self (t : Z) : Prop := {
  inv_timeout : 0 <= self.(timeout);
  inv_total : self.(fields) = total_fields self;
  inv_budget : self.(fields) <= MAX_TEMPLATE_FIELDS;
  inv_nonempty : forall d m, self.(domains) !! d = Some m -> m <> ∅;
  inv_sweep : self.(next_sweep) <= t + self.(timeout);
  inv_expiry : forall k e, find self k = Some e ->
    no_later self.(next_expiry) (e.(e_sent_at) + self.(timeout));
  inv_sent : forall k e, find self k = Some e -> e.(e_sent_at) <= t;
  inv_age : forall k e, find self k = Some e ->
    self.(next_sweep) <= e.(e_sent_at) + 2 * self.(timeout);
}.

Lemma cache_inv_later self t t' : t <= t' -> cache_inv self t -> cache_inv self t'.
Proof.
  intros Ht []. constructor; auto; [lia|]. intros k e Hk. specialize (inv_sent0 k e Hk). lia.
Qed.

Lemma remove_expired_inv self t now :
  t <= now -> cache_inv self t -> cache_inv (remove_expired self now) now.
Proof.
  intros Ht []. pose proof (total_remove_expired self now) as Hle.
  assert (Hlive : forall k e, find (remove_expired self now) k = Some e ->
    find self k = Some e /\ live (timeout self) now e).
  { intros k e. rewrite find_remove_expired. destruct (find self k); [|done].
    case_decide; naive_solver. }
  constructor.
  - done.
  - done.
  - change (total_fields (remove_expired self now) <= MAX_TEMPLATE_FIELDS). lia.
  - intros d m. cbn [remove_expired domains]. rewrite lookup_omap.
    destruct (domains self !! d); [|done]. cbn. unfold retain_live. case_decide; naive_solver.
  - cbn. lia.
  - intros k e Hk. by apply (earliest_find (timeout self) (remove_expired self now) k e).
  - intros k e [Hk Hl]%Hlive. specialize (inv_sent0 k e Hk). lia.
  - intros k e [Hk Hl]%Hlive. cbn. unfold live, duration_since in Hl. lia.
Qed.

Lemma remove_inv self t key : cache_inv self t -> cache_inv (remove self key) t.
Proof.
  intros []. pose proof (replaced_len_le self key). destruct key as [d n].
  assert (Hf : timeout (remove self (d, n)) = timeout self /\
    next_sweep (remove self (d, n)) = next_sweep self /\
    next_expiry (remove self (d, n)) = next_expiry self).
  { unfold remove. cbn [fst snd]. by destruct (domains self !! d). }
  destruct Hf as (Ht & Hs & He).
  assert (Hk : forall k e, find (remove self (d, n)) k = Some e -> find self k = Some e).
  { intros k e. rewrite find_remove. by case_decide. }
  constructor; rewrite ?Ht, ?Hs, ?He; auto.
  4-6: intros k e ?%Hk; by eauto.
  - rewrite fields_remove, total_remove. lia.
  - rewrite fields_remove. lia.
  - intros d' m. unfold remove. cbn [fst snd].
    destruct (domains self !! d) as [m'|] eqn:Ed; [|apply inv_nonempty0].
    cbn [domains]. case_decide as Hm.
    + intros [_ Hl]%lookup_delete_Some. by eapply inv_nonempty0.
    + intros [[<- <-]|[_ Hl]]%lookup_insert_Some; [done|]. by eapply inv_nonempty0.
Qed.

Lemma store_inv self t key fs now :
  t <= now -> cache_inv self t -> fits self key fs = true ->
  cache_inv (store self key fs now) now.
Proof.
  intros Ht Hinv Hfits. pose proof (cache_inv_later _ _ _ Ht Hinv) as [].
  assert (Hf : timeout (store self key fs now) = timeout self /\
    next_sweep (store self key fs now) = next_sweep self /\
    next_expiry (store self key fs now)
    = option_min (now + timeout self) (next_expiry self)).
  { destruct key as [d n]. unfold store. by destruct (match _ !! n with Some _ => _ | None => _ end). }
  destruct Hf as (Htm & Hs & He).
  constructor; rewrite ?Htm, ?Hs, ?He; auto.
  - rewrite fields_store, total_store. lia.
  - rewrite fields_store. unfold fits in Hfits. fold (replaced_len self key) in Hfits. lia.
  - destruct key as [d n]. unfold store.
    destruct (match _ !! n with Some _ => _ | None => _ end). cbn [domains].
    intros d' m [[<- <-]|[_ Hl]]%lookup_insert_Some; [apply insert_non_empty|].
    by eapply inv_nonempty0.
  - intros k e. rewrite find_store. case_decide.
    + intros [= <-]. apply option_min_le. left. cbn. lia.
    + intros Hk. apply option_min_le. right. eauto.
  - intros k e. rewrite find_store. case_decide; [intros [= <-]; cbn; lia|eauto].
  - intros k e. rewrite find_store. case_decide; [intros [= <-]; cbn; lia|eauto].
Qed.

Lemma refuse_inv self t key : cache_inv self t -> cache_inv (refuse self key) t.
Proof.
  intros []. apply remove_inv. by constructor.
Qed.

Lemma remove_domain_inv self t d : cache_inv self t -> cache_inv (remove_domain self d) t.
Proof.
  intros []. destruct (total_remove_domain self d) as [Htot Hfld].
  assert (Hf : timeout (remove_domain self d) = timeout self /\
    next_sweep (remove_domain self d) = next_sweep self /\
    next_expiry (remove_domain self d) = next_expiry self).
  { unfold remove_domain. by destruct (domains self !! d). }
  destruct Hf as (Ht & Hs & He).
  assert (Hk : forall k e, find (remove_domain self d) k = Some e -> find self k = Some e).
  { intros k e. rewrite find_remove_domain. by case_decide. }
  assert (0 <= at_key (msum entry_len) d (domains self)).
  { unfold at_key. destruct (domains self !! d); cbn; [apply msum_entries_nonneg|lia]. }
  constructor; rewrite ?Ht, ?Hs, ?He; auto; [lia|lia| |intros k e ?%Hk; by eauto..].
  intros d' m. unfold remove_domain. destruct (domains self !! d); [|apply inv_nonempty0].
  cbn [domains]. intros [_ Hl]%lookup_delete_Some. by eapply inv_nonempty0.
Qed.

(** Resolving fields again keeps their number. *)
Lemma refresh_domain_inv self t d (resolve : list F -> list F) :
  (forall fs, zlen (resolve fs) = zlen fs) ->
  cache_inv self t -> cache_inv (refresh_domain self d resolve) t.
Proof.
  intros Hres []. pose proof (total_refresh_domain self d resolve) as Htot.
  assert (Hf : timeout (refresh_domain self d resolve) = timeout self /\
    next_sweep (refresh_domain self d resolve) = next_sweep self /\
    next_expiry (refresh_domain self d resolve) = next_expiry self).
  { unfold refresh_domain. by destruct (domains self !! d). }
  destruct Hf as (Ht & Hs & He).
  assert (Hk : forall k e, find (refresh_domain self d resolve) k = Some e ->
    exists e', find self k = Some e' /\ e_sent_at e' = e_sent_at e).
  { intros k e. rewrite find_refresh_domain. case_decide; [|naive_solver].
    intros (e' & -> & ->)%fmap_Some. eauto. }
  assert (Hfld : fields (refresh_domain self d resolve) = fields self).
  { unfold refresh_domain. destruct (domains self !! d) as [m|]; cbn [fields]; [|done].
    rewrite refresh_fold. enough (msum entry_len
      ((fun e => mkEntry (resolve (e_fields e)) (e_sent_at e)) <$> m) = msum entry_len m) by lia.
    clear -Hres. induction m as [|k e m Hk IH] using map_ind; [by rewrite fmap_empty|].
    rewrite fmap_insert, !msum_insert_None by (rewrite ?lookup_fmap, ?Hk; done).
    rewrite IH. f_equal. apply Hres. }
  constructor; rewrite ?Ht, ?Hs, ?He; auto; [lia|lia| | | |].
  - intros d' m. unfold refresh_domain.
    destruct (domains self !! d) as [m'|] eqn:Ed; [|apply inv_nonempty0]. cbn [domains].
    intros [[<- <-]|[_ Hl]]%lookup_insert_Some; [|by eapply inv_nonempty0].
    intros Hm%fmap_empty_inv. by eapply inv_nonempty0.
  - intros k e (e' & Hk' & <-)%Hk. eauto.
  - intros k e (e' & Hk' & <-)%Hk. eauto.
  - intros k e (e' & Hk' & <-)%Hk. eauto.
Qed.

(** The sweeps [insert] makes before it decides. *)
Definition swept self now : TemplateCache F :=
  if self.(next_sweep) <=? now then remove_expired self now else self.

Definition swept_again self now : TemplateCache F :=
  match self.(next_expiry) with
  | Some expiry => if expiry <=? now then remove_expired self now else self
  | None => self
  end.

Lemma insert_at_eq self key fs now :
  insert_at self key fs now =
    if fits (swept self now) key fs then store (swept self now) key fs now
    else if fits (swept_again (swept self now) now) key fs
         then store (swept_again (swept self now) now) key fs now
         else refuse (swept_again (swept self now) now) key.
Proof. reflexivity. Qed.

Lemma swept_inv self t now : t <= now -> cache_inv self t -> cache_inv (swept self now) now.
Proof.
  intros Ht Hi. unfold swept. case_match; [by eapply remove_expired_inv|by eapply cache_inv_later].
Qed.

Lemma swept_again_inv self now : cache_inv self now -> cache_inv (swept_again self now) now.
Proof.
  intros Hi. unfold swept_again. do 2 (case_match; [|done]). by eapply remove_expired_inv.
Qed.

Lemma insert_at_inv self t key fs now :
  t <= now -> cache_inv self t -> cache_inv (insert_at self key fs now) now.
Proof.
  intros Ht Hi. rewrite insert_at_eq. pose proof (swept_inv _ _ _ Ht Hi) as H1.
  pose proof (swept_again_inv _ _ H1) as H2.
  destruct (fits (swept self now) key fs) eqn:E1; [by apply (store_inv _ now)|].
  destruct (fits (swept_again (swept self now) now) key fs) eqn:E2;
    [by apply (store_inv _ now)|by apply refuse_inv].
Qed.
End invariant.

(** ** The specification: one flat map, with every expired entry gone

    An insertion keeps the live templates of the other keys, and adds its own
    if the fields together stay within the budget. *)

Section spec.
Context {F : Type}.
Implicit Types (m : gmap TemplateKey (Entry F)) (key k : TemplateKey) (e : Entry F).

Definition alive (timeout now : Z) (o : option (Entry F)) : option (Entry F) :=
  match o with
  | Some e => if decide (live timeout now e) then Some e else None
  | None => None
  end.

Definition spec_live (timeout now : Z) m : gmap TemplateKey (Entry F) :=
  omap (fun e => alive timeout now (Some e)) m.

Definition spec_insert (timeout : Z) m key (fs : list F) (now : Z) : gmap TemplateKey (Entry F) :=
  let others := delete key (spec_live timeout now m) in
  if msum entry_len others + zlen fs <=? MAX_TEMPLATE_FIELDS
  then <[key := mkEntry fs now]> others else others.

Definition spec_remove_domain m (d : Z) : gmap TemplateKey (Entry F) :=
  filter (fun '(k, _) => k.1 <> d) m.

Definition resolve_entry (resolve : list F -> list F) e : Entry F :=
  mkEntry (resolve e.(e_fields)) e.(e_sent_at).

Definition spec_refresh_domain m (d : Z) (resolve : list F -> list F) : gmap TemplateKey (Entry F) :=
  map_imap (fun k e => Some (if decide (k.1 = d) then resolve_entry resolve e else e)) m.

Definition spec_get (timeout : Z) m key (now : Z) : option (list F) := e_fields <$> alive timeout now (m !! key).

(** The operations, each at the time it reads from the clock. *)
Inductive op :=
  | Insert (key : TemplateKey) (fs : list F)
  | Remove (key : TemplateKey)
  | RemoveDomain (d : Z)
  | RefreshDomain (d : Z) (resolve : list F -> list F)
  | Get (key : TemplateKey).

Definition op_ok (o : op) : Prop :=
  match o with
  | RefreshDomain _ resolve => forall fs, zlen (resolve fs) = zlen fs
  | _ => True
  end.

(** [get] past its clock reading. *)
Definition get_at (self : TemplateCache F) key (now : Z) : option (list F) :=
  match find self key with
  | None => None
  | Some e => if duration_since now e.(e_sent_at) <? self.(timeout) then Some e.(e_fields) else None
  end.

Definition step (self : TemplateCache F) (o : op) (now : Z)
    : TemplateCache F * option (option (list F)) :=
  match o with
  | Insert key fs => (insert_at self key fs now, None)
  | Remove key => (remove self key, None)
  | RemoveDomain d => (remove_domain self d, None)
  | RefreshDomain d resolve => (refresh_domain self d resolve, None)
  | Get key => (self, Some (get_at self key now))
  end.

Definition spec_step (timeout : Z) m (o : op) (now : Z)
    : gmap TemplateKey (Entry F) * option (option (list F)) :=
  match o with
  | Insert key fs => (spec_insert timeout m key fs now, None)
  | Remove key => (delete key m, None)
  | RemoveDomain d => (spec_remove_domain m d, None)
  | RefreshDomain d resolve => (spec_refresh_domain m d resolve, None)
  | Get key => (m, Some (spec_get timeout m key now))
  end.

(** The final state and the answers of a trace of operations. *)
Fixpoint run {St : Type} (f : St -> op -> Z -> St * option (option (list F))) (s : St)
    (trace : list (op * Z)) : St * list (option (option (list F))) :=
  match trace with
  | [] => (s, [])
  | (o, now) :: trace =>
      let '(s, r) := f s o now in let '(s, rs) := run f s trace in (s, r :: rs)
  end.

(** Times never go back from [t], and the operations are admissible. *)
Fixpoint trace_ok (t : Z) (trace : list (op * Z)) : Prop :=
  match trace with
  | [] => True
  | (o, now) :: trace => t <= now /\ op_ok o /\ trace_ok now trace
  end.

(** A state an exporter's templates can be in at time [t]. *)
Inductive reachable : TemplateCache F -> Z -> Prop :=
  | reach_new timeout now :
      0 <= timeout -> reachable (mkCache ∅ timeout 0 (now + timeout) None false) now
  | reach_step self t o now :
      reachable self t -> t <= now -> op_ok o -> reachable (step self o now).1 now.
End spec.
Arguments op : clear implicits.

Section refinement.
Context {F : Type}.
Implicit Types (self : TemplateCache F) (m : gmap TemplateKey (Entry F)) (key k : TemplateKey).

(** The field total of a cache depends on its entries only. *)
Lemma total_flat m : forall self,
  (forall k, find self k = m !! k) -> total_fields self = msum entry_len m.
Proof.
  induction m as [|k e m Hk IH] using map_ind; intros self Hm.
  - rewrite msum_empty. unfold total_fields. apply msum_zero. intros d t Hd.
    apply msum_zero. intros n e Hn. specialize (Hm (d, n)). unfold find in Hm. cbn in Hm.
    by rewrite Hd, Hn, lookup_empty in Hm.
  - rewrite msum_insert_None by done. rewrite <- (IH (remove self k)).
    + rewrite total_remove. unfold replaced_len. rewrite Hm, lookup_insert_eq. lia.
    + intros k'. rewrite find_remove, Hm. case_decide; [by subst|by apply lookup_insert_ne].
Qed.

Definition flat self : gmap TemplateKey (Entry F) :=
  map_uncurry (M1 := gmap Z) (M2 := gmap Z) self.(domains).

Lemma find_flat self k : find self k = flat self !! k.
Proof. destruct k as [d n]. unfold flat. rewrite lookup_map_uncurry. unfold find. cbn. by destruct (_ !! d). Qed.

Lemma total_ext (a b : TemplateCache F) : (forall k, find a k = find b k) -> total_fields a = total_fields b.
Proof.
  intros Hab. rewrite (total_flat _ b (find_flat b)). apply total_flat.
  intros k. by rewrite Hab, find_flat.
Qed.

Lemma alive_later tmo now now' (o : option (Entry F)) :
  now <= now' -> alive tmo now' (alive tmo now o) = alive tmo now' o.
Proof.
  intros Hle. destruct o as [e|]; [|done]. cbn. unfold live, duration_since.
  case_decide; [done|]. cbn. case_decide; [unfold live, duration_since in *; lia|done].
Qed.

Lemma alive_idemp tmo now (o : option (Entry F)) : alive tmo now (alive tmo now o) = alive tmo now o.
Proof. by apply alive_later. Qed.

Lemma find_swept self now k :
  alive self.(timeout) now (find (swept self now) k) = alive self.(timeout) now (find self k).
Proof.
  unfold swept. destruct (_ <=? _); [|done]. rewrite find_remove_expired. by apply alive_idemp.
Qed.

Lemma timeout_swept self now : timeout (swept self now) = timeout self.
Proof. unfold swept. by destruct (_ <=? _). Qed.

Lemma timeout_swept_again self now : timeout (swept_again self now) = timeout self.
Proof. unfold swept_again. destruct (next_expiry self) as [x|]; [|done]. by destruct (x <=? now). Qed.

(** After the second sweep exactly the live entries are left. *)
Lemma find_swept_again self now k :
  cache_inv self now -> find (swept_again self now) k = alive self.(timeout) now (find self k).
Proof.
  intros []. unfold swept_again.
  destruct (next_expiry self) as [x|] eqn:Ex; [destruct (Z.leb_spec x now)|].
  - by rewrite find_remove_expired.
  - destruct (find self k) as [e|] eqn:Ek; [|done]. cbn.
    destruct (inv_expiry0 k e Ek) as (y & [= <-] & Hy). specialize (inv_sent0 k e Ek).
    rewrite decide_True; [done|]. unfold live, duration_since. lia.
  - destruct (find self k) as [e|] eqn:Ek; [|done].
    by destruct (inv_expiry0 k e Ek) as (y & [=] & _).
Qed.

(** The fields of the live templates other than [key]'s. *)
Definition other_fields self key now : Z :=
  total_fields (remove (remove_expired self now) key).

Lemma fits_le self key (fs : list F) t now :
  t <= now -> cache_inv self t -> fits (swept self now) key fs = true ->
  other_fields self key now + zlen fs <= MAX_TEMPLATE_FIELDS.
Proof.
  intros Ht Hi Hf. pose proof (swept_inv _ _ _ Ht Hi) as [].
  unfold fits in Hf. fold (replaced_len (swept self now) key) in Hf.
  pose proof (total_remove_expired (remove (swept self now) key) now) as Hle.
  rewrite total_remove in Hle. unfold other_fields.
  rewrite (total_ext _ (remove_expired (remove (swept self now) key) now)); [lia|].
  intros k. rewrite find_remove, !find_remove_expired, find_remove.
  assert (timeout (remove (swept self now) key) = timeout self) as ->.
  { rewrite <- (timeout_swept self now). unfold remove. by destruct (_ !! key.1). }
  case_decide; [done|]. symmetry. apply (find_swept self now k).
Qed.

Lemma fits_swept_again self key (fs : list F) t now :
  t <= now -> cache_inv self t ->
  fits (swept_again (swept self now) now) key fs
  = (other_fields self key now + zlen fs <=? MAX_TEMPLATE_FIELDS).
Proof.
  intros Ht Hi. pose proof (swept_inv _ _ _ Ht Hi) as H1.
  pose proof (swept_again_inv _ _ H1) as []. unfold fits.
  fold (replaced_len (swept_again (swept self now) now) key).
  rewrite inv_total0, <- total_remove. unfold other_fields.
  rewrite (total_ext _ (remove (remove_expired self now) key)); [done|].
  intros k. rewrite !find_remove. case_decide; [done|].
  rewrite find_swept_again by done. rewrite timeout_swept, find_swept, find_remove_expired. done.
Qed.

Lemma timeout_store self key (fs : list F) now : timeout (store self key fs now) = timeout self.
Proof. destruct key. unfold store. by destruct (match _ !! _ with Some _ => _ | None => _ end). Qed.

Lemma timeout_remove self key : timeout (remove self key) = timeout self.
Proof. unfold remove. by destruct (_ !! key.1). Qed.

Lemma timeout_insert_at self key fs now : timeout (insert_at self key fs now) = timeout self.
Proof.
  rewrite insert_at_eq. destruct (fits _ key fs); [by rewrite timeout_store, timeout_swept|].
  destruct (fits _ key fs); [by rewrite timeout_store, timeout_swept_again, timeout_swept|].
  unfold refuse. by rewrite timeout_remove; cbn [timeout]; rewrite timeout_swept_again, timeout_swept.
Qed.

Lemma insert_at_sweep self key fs now :
  0 <= self.(timeout) -> now <= next_sweep (insert_at self key fs now).
Proof.
  intros Ht. rewrite insert_at_eq.
  assert (H1 : now <= next_sweep (swept self now)).
  { unfold swept. destruct (Z.leb_spec (next_sweep self) now); cbn; lia. }
  assert (H2 : now <= next_sweep (swept_again (swept self now) now)).
  { unfold swept_again. destruct (next_expiry _) as [x|]; [|done].
    destruct (x <=? now); [|done]. cbn. rewrite timeout_swept. lia. }
  assert (Hstore : forall s, next_sweep (store s key fs now) = next_sweep s).
  { intros s. destruct key. unfold store. by destruct (match _ !! _ with Some _ => _ | None => _ end). }
  destruct (fits _ key fs); [by rewrite Hstore|]. destruct (fits _ key fs); [by rewrite Hstore|].
  unfold refuse, remove. cbn [domains]. by destruct (_ !! key.1).
Qed.

(** What is alive after an insertion. *)
Lemma insert_at_alive self key fs t now k :
  t <= now -> cache_inv self t ->
  alive self.(timeout) now (find (insert_at self key fs now) k)
  = if decide (k = key)
    then if other_fields self key now + zlen fs <=? MAX_TEMPLATE_FIELDS
         then alive self.(timeout) now (Some (mkEntry fs now)) else None
    else alive self.(timeout) now (find self k).
Proof.
  intros Ht Hi. rewrite insert_at_eq.
  destruct (fits (swept self now) key fs) eqn:E1.
  - apply (fits_le _ _ _ _ _ Ht Hi) in E1. rewrite find_store.
    case_decide; [|by rewrite find_swept]. by destruct (Z.leb_spec (other_fields self key now + zlen fs) MAX_TEMPLATE_FIELDS); [|lia].
  - rewrite (fits_swept_again _ _ _ _ _ Ht Hi).
    assert (Hs : forall k, find (swept_again (swept self now) now) k
                           = alive (timeout self) now (find self k)).
    { intros k'. rewrite find_swept_again by by eapply swept_inv.
      rewrite timeout_swept. apply find_swept. }
    destruct (_ <=? MAX_TEMPLATE_FIELDS).
    + rewrite find_store. case_decide; [done|]. rewrite Hs. apply alive_idemp.
    + unfold refuse. rewrite find_remove. case_decide; [done|].
      change (find (mkCache _ _ _ _ _ true) k) with (find (swept_again (swept self now) now) k).
      rewrite Hs. apply alive_idemp.
Qed.

(** A cache and a flat map agree on what is alive from [now] on. *)
Definition refines self m now : Prop :=
  forall k, alive self.(timeout) now (find self k) = alive self.(timeout) now (m !! k).

Lemma refines_later self m now now' : now <= now' -> refines self m now -> refines self m now'.
Proof. intros Hle HR k. by rewrite <- (alive_later _ now), HR, alive_later. Qed.

Lemma lookup_spec_live tmo now m k : spec_live tmo now m !! k = alive tmo now (m !! k).
Proof. unfold spec_live. rewrite lookup_omap. by destruct (m !! k). Qed.

Lemma other_fields_spec self m key now :
  refines self m now ->
  other_fields self key now = msum entry_len (delete key (spec_live self.(timeout) now m)).
Proof.
  intros HR. unfold other_fields. apply total_flat. intros k. rewrite find_remove.
  case_decide; [subst; by rewrite lookup_delete_eq|].
  rewrite lookup_delete_ne, lookup_spec_live, find_remove_expired by done. apply HR.
Qed.

Lemma insert_refines self m key fs t now :
  t <= now -> cache_inv self t -> refines self m now ->
  refines (insert_at self key fs now) (spec_insert self.(timeout) m key fs now) now.
Proof.
  intros Ht Hi HR k. rewrite timeout_insert_at, (insert_at_alive _ _ _ t) by done.
  unfold spec_insert. rewrite (other_fields_spec _ m) by done.
  destruct (_ <=? MAX_TEMPLATE_FIELDS); case_decide as Hk; subst.
  - by rewrite lookup_insert_eq.
  - by rewrite lookup_insert_ne, lookup_delete_ne, lookup_spec_live, alive_idemp.
  - by rewrite lookup_delete_eq.
  - by rewrite lookup_delete_ne, lookup_spec_live, alive_idemp.
Qed.

Lemma timeout_step self o now : timeout (step self o now).1 = timeout self.
Proof.
  destruct o; cbn; [by apply timeout_insert_at|by apply timeout_remove| | |done].
  - unfold remove_domain. by destruct (_ !! d).
  - unfold refresh_domain. by destruct (_ !! d).
Qed.

Lemma step_inv self t o now :
  t <= now -> op_ok o -> cache_inv self t -> cache_inv (step self o now).1 now.
Proof.
  intros Ht Ho Hi. pose proof (cache_inv_later _ _ _ Ht Hi).
  destruct o; cbn in *;
    auto using remove_inv, remove_domain_inv, refresh_domain_inv. by eapply insert_at_inv.
Qed.

Lemma new_inv tmo now :
  0 <= tmo -> cache_inv (mkCache (F := F) ∅ tmo 0 (now + tmo) None false) now.
Proof.
  intros Ht. constructor; cbn; try done; try lia;
    intros k ?; unfold find; cbn; by rewrite lookup_empty.
Qed.

Lemma reachable_inv self t : reachable self t -> cache_inv self t.
Proof.
  induction 1 as [tmo now Ht|self t o now _ IH Ht Ho]; [by apply new_inv|by eapply step_inv].
Qed.

Lemma get_at_alive self k now : get_at self k now = e_fields <$> alive self.(timeout) now (find self k).
Proof.
  unfold get_at. destruct (find self k) as [e|]; [|done]. cbn. unfold live.
  destruct (Z.ltb_spec (duration_since now (e_sent_at e)) (timeout self));
    [by rewrite decide_True|by rewrite decide_False by lia].
Qed.

Lemma get_at_insert_other self key fs t now k now' :
  t <= now -> cache_inv self t -> k <> key -> now <= now' ->
  get_at (insert_at self key fs now) k now' = get_at self k now'.
Proof.
  intros Ht Hi Hk Hn. rewrite !get_at_alive, timeout_insert_at.
  rewrite <- (alive_later _ now now' (find (insert_at self key fs now) k)) by done.
  rewrite (insert_at_alive _ _ _ t), decide_False by done. by rewrite alive_later.
Qed.

Lemma get_at_refines self m now k :
  refines self m now -> get_at self k now = spec_get self.(timeout) m k now.
Proof. intros HR. rewrite get_at_alive. unfold spec_get. by rewrite (HR k). Qed.

Lemma alive_resolve tmo now resolve (o : option (Entry F)) :
  alive tmo now (resolve_entry resolve <$> o) = resolve_entry resolve <$> alive tmo now o.
Proof.
  destruct o as [e|]; [|done]. cbn. unfold live. cbn. by repeat case_decide.
Qed.

(** The domain an operation concerns. *)
Definition op_domain (o : op F) : Z :=
  match o with
  | Insert key _ | Remove key | Get key => key.1
  | RemoveDomain d | RefreshDomain d _ => d
  end.

Lemma step_elsewhere self o t now k now' :
  t <= now -> cache_inv self t -> k.1 <> op_domain o -> now <= now' ->
  get_at (step self o now).1 k now' = get_at self k now'.
Proof.
  intros Ht Hi Hk Hn. destruct o as [key fs|key|d|d resolve|key]; cbn in *.
  - eapply get_at_insert_other; try done. by intros ->.
  - rewrite !get_at_alive, timeout_remove, find_remove, decide_False; [done|by intros ->].
  - rewrite !get_at_alive, find_remove_domain, decide_False by done.
    unfold remove_domain. by destruct (_ !! d).
  - rewrite !get_at_alive, find_refresh_domain, decide_False by done.
    unfold refresh_domain. by destruct (_ !! d).
  - done.
Qed.

(** What an insertion leaves under a key is what was there, or what it
    stores. *)
Lemma find_insert_at self key fs now k e :
  find (insert_at self key fs now) k = Some e ->
  find self k = Some e \/ (k = key /\ e = mkEntry fs now).
Proof.
  assert (Hexp : forall s, find (remove_expired s now) k = Some e -> find s k = Some e).
  { intros s. rewrite find_remove_expired. destruct (find s k); [|done]. by case_decide. }
  assert (H1 : find (swept self now) k = Some e -> find self k = Some e).
  { unfold swept. destruct (_ <=? _); auto. }
  assert (H2 : find (swept_again (swept self now) now) k = Some e -> find self k = Some e).
  { unfold swept_again. destruct (next_expiry _) as [x|]; auto. destruct (x <=? now); auto. }
  assert (Hs : forall s, (find s k = Some e -> find self k = Some e) ->
    find (store s key fs now) k = Some e -> find self k = Some e \/ (k = key /\ e = mkEntry fs now)).
  { intros s Hf. rewrite find_store. case_decide; [|auto]. intros [= <-]. auto. }
  rewrite insert_at_eq. destruct (fits _ key fs); [by apply Hs|].
  destruct (fits _ key fs); [by apply Hs|].
  unfold refuse. rewrite find_remove. case_decide; [done|]. auto.
Qed.

Lemma step_refines self m o t now :
  t <= now -> op_ok o -> cache_inv self t -> refines self m t ->
  refines (step self o now).1 (spec_step self.(timeout) m o now).1 now /\
  (step self o now).2 = (spec_step self.(timeout) m o now).2.
Proof.
  intros Ht Ho Hi HR%(refines_later _ _ _ now); [|done].
  destruct o as [key fs|key|d|d resolve|key]; (split; [|try done]).
  - by eapply insert_refines.
  - intros k. rewrite timeout_step. cbn. rewrite find_remove.
    case_decide; [subst; by rewrite lookup_delete_eq|by rewrite lookup_delete_ne].
  - intros k. rewrite timeout_step. cbn. rewrite find_remove_domain.
    unfold spec_remove_domain. rewrite map_lookup_filter. specialize (HR k).
    destruct (m !! k); cbn; case_decide as Hd.
    + rewrite option_guard_False; [done|]. naive_solver.
    + rewrite option_guard_True; [done|]. naive_solver.
    + done.
    + done.
  - intros k. rewrite timeout_step. cbn. rewrite find_refresh_domain.
    unfold spec_refresh_domain. rewrite map_lookup_imap. specialize (HR k).
    change (fun e => mkEntry (resolve (e_fields e)) (e_sent_at e)) with (resolve_entry resolve).
    case_decide as Hd.
    + rewrite alive_resolve, HR, <- alive_resolve. by destruct (m !! k).
    + rewrite HR. by destruct (m !! k).
  - done.
  - cbn. f_equal. unfold spec_get. rewrite <- (HR key). apply get_at_alive.
Qed.

Lemma run_refines trace : forall self m t,
  trace_ok t trace -> cache_inv self t -> refines self m t ->
  (run step self trace).2 = (run (spec_step self.(timeout)) m trace).2.
Proof.
  induction trace as [|[o now] trace IH]; intros self m t; [done|].
  cbn [trace_ok run]. intros (Ht & Ho & Htr) Hi HR.
  destruct (step_refines self m o t now Ht Ho Hi HR) as [HR' Heq].
  pose proof (step_inv self t o now Ht Ho Hi) as Hi'.
  pose proof (timeout_step self o now) as Htm.
  destruct (step self o now) as [self' r], (spec_step (timeout self) m o now) as [m' r'].
  cbn in *. subst r'. specialize (IH self' m' now Htr Hi' HR'). rewrite Htm in IH.
  destruct (run step self' trace), (run (spec_step (timeout self)) m' trace). cbn in *. by subst.
Qed.
End refinement.

(** ** Properties *)

Section properties.
Context {F : Type} `{CK : Clock}.
Implicit Types (self : TemplateCache F) (key k : TemplateKey).

(** Every operation reads the clock at most once. *)
Lemma get_eq self key reads : (get self key reads).2 = get_at self key (instant_at reads).
Proof. unfold get, get_at. destruct (find self key); [|done]. cbn. by destruct (_ <? _). Qed.

(** C5: For the operations of a cache at any times that do not go back, the
    answers are those of one flat map from which expired templates vanish at
    once: the nested maps, the running total, the lazy sweeps and
    [next_expiry] are not observable, and a template is refused exactly when
    the live ones of the other keys leave no room for it. *)
Theorem cache_refines_spec (tmo : Z) (reads : nat) (trace : list (op F * Z)) :
  0 <= tmo -> trace_ok (instant_at reads) trace ->
  (run step (new tmo reads).2 trace).2 = (run (spec_step tmo) ∅ trace).2.
Proof.
  intros Ht Htr. apply (run_refines trace (new tmo reads).2 ∅ (instant_at reads) Htr).
  - by apply new_inv.
  - intros k. unfold find. cbn. by rewrite !lookup_empty.
Qed.

(** In every reachable state the field count is the sum over the entries
    and at most [MAX_TEMPLATE_FIELDS], so the subtractions of [insert],
    [remove] and [remove_domain] never wrap; no domain is left empty; and
    no entry can expire before [next_expiry]. *)
Theorem cache_invariant self t :
  reachable self t ->
  self.(fields) = total_fields self /\ 0 <= self.(fields) <= MAX_TEMPLATE_FIELDS /\
  (forall d m, self.(domains) !! d = Some m -> m <> ∅ /\ 0 <= msum entry_len m <= self.(fields)) /\
  (forall k e, find self k = Some e -> 0 <= entry_len e <= self.(fields) /\
     no_later self.(next_expiry) (e.(e_sent_at) + self.(timeout))).
Proof.
  intros [Ht Htot Hb Hne Hs Hex _ _]%reachable_inv. rewrite Htot in *.
  pose proof (msum_nonneg (msum (entry_len (F := F))) self.(domains) msum_entries_nonneg).
  split; [done|]. split; [done|]. split.
  - intros d m Hd. split; [by eapply Hne|]. split; [apply msum_entries_nonneg|].
    apply (msum_lookup_le (msum entry_len) _ d m); [apply msum_entries_nonneg|done].
  - intros k e Hk. split; [|by apply (Hex k)]. pose proof (replaced_len_le self k) as Hr.
    unfold replaced_len in Hr. by rewrite Hk in Hr.
Qed.

(** Inserting at time [now] stores the template exactly when the fields of
    the live templates of the other keys and its own are at most
    [MAX_TEMPLATE_FIELDS], whatever expired ones are still held; otherwise an
    earlier template of that key is dropped.  No other template is affected,
    and none sent more than two timeouts ago is kept. *)
Theorem insert_spec self t key (fs : list F) now :
  reachable self t -> t <= now ->
  let self' := insert_at self key fs now in
  find self' key
    = (if other_fields self key now + zlen fs <=? MAX_TEMPLATE_FIELDS
       then Some (mkEntry fs now) else None) /\
  (forall k now', k <> key -> now <= now' -> get_at self' k now' = get_at self k now') /\
  (forall k e, find self' k = Some e -> now <= e.(e_sent_at) + 2 * self.(timeout)).
Proof.
  intros Hi%reachable_inv Ht self'. split; [|split].
  - unfold self'. rewrite insert_at_eq. destruct (fits (swept self now) key fs) eqn:E.
    + rewrite find_store, decide_True by done. apply (fits_le _ _ _ _ _ Ht Hi) in E.
      by destruct (Z.leb_spec (other_fields self key now + zlen fs) MAX_TEMPLATE_FIELDS); [|lia].
    + rewrite (fits_swept_again _ _ _ _ _ Ht Hi). destruct (_ <=? MAX_TEMPLATE_FIELDS).
      * by rewrite find_store, decide_True.
      * unfold refuse. by rewrite find_remove, decide_True.
  - intros k now' Hk Hn. by eapply get_at_insert_other.
  - intros k e Hk. pose proof (insert_at_inv _ _ key fs _ Ht Hi) as Hi'.
    pose proof (inv_age _ _ Hi' k e Hk) as Ha. unfold self' in *. rewrite timeout_insert_at in Ha.
    enough (now <= next_sweep (insert_at self key fs now)) by lia.
    apply insert_at_sweep. destruct Hi. lia.
Qed.
End properties.

(** ** The properties at concrete inputs *)

Definition tick_clock : Clock := fun n => Z.of_nat n.

Definition sample_trace : list (op nat * Z) :=
  [ (Insert (7, 256) [1; 2]%nat, 5); (Get (7, 256), 6); (Insert (7, 257) [3]%nat, 12);
    (Remove (7, 257), 13); (Get (7, 257), 14); (Get (7, 256), 15) ].

Lemma cache_refines_spec_witness :
  (run step (new (CK := tick_clock) 10 0%nat).2 sample_trace).2
  = (run (spec_step 10) ∅ sample_trace).2 /\
  (run (spec_step 10) ∅ sample_trace).2
  = [None; Some (Some [1; 2]%nat); None; None; Some None; Some None].
Proof.
  split; [|by vm_compute].
  apply (cache_refines_spec (CK := tick_clock) 10 0%nat sample_trace); [lia|].
  cbn. repeat split; done.
Defined.

Definition sample_cache : TemplateCache nat :=
  (step (mkCache ∅ 10 0 (0 + 10) None false) (Insert (7, 256) [1; 2]%nat) 5).1.

Lemma sample_reachable : reachable sample_cache 5.
Proof. apply (reach_step _ 0); [by apply reach_new|done|done]. Qed.

Lemma cache_invariant_witness :
  fields sample_cache = 2 /\ fields sample_cache = total_fields sample_cache.
Proof. split; [by vm_compute|]. apply (cache_invariant sample_cache 5 sample_reachable). Defined.

Lemma insert_spec_witness :
  find (insert_at sample_cache (7, 257) [3]%nat 6) (7, 257) = Some (mkEntry [3]%nat 6) /\
  get_at (insert_at sample_cache (7, 257) [3]%nat 6) (7, 256) 8 = Some [1; 2]%nat.
Proof.
  destruct (insert_spec sample_cache 5 (7, 257) [3]%nat 6 sample_reachable) as (H1 & H2 & _);
    [lia|].
  split; [rewrite H1; by vm_compute|]. rewrite H2; [by vm_compute|done|lia].
Defined.
