(* ===== verification/IERegistry.v ===== *)
(** [common/ie_registry.rs]: the Information Elements a parser knows, the IANA
    ones and those loaded from a file. *)

From Stdlib Require Import ZArith Lia.
From stdpp Require Import base tactics numbers list gmap.
From S2P Require Import Prelude Std.
#[local] Open Scope Z_scope.

Module DataType.
Inductive DataType :=
  | Unsigned
  | Signed
  | Float
  | Boolean
  | MacAddress
  | OctetArray
  | String
  | DateTimeSeconds
  | DateTimeMilliseconds
  | DateTimeMicroseconds
  | DateTimeNanoseconds
  | Ipv4Address
  | Ipv6Address
  | BasicList
  | SubTemplateList
  | SubTemplateMultiList.
End DataType.
Export DataType(DataType).
Import DataType.

#[export] Instance DataType_eq_dec : EqDecision DataType.
Proof. solve_decision. Defined.

Record IEDefinition := mkIE {
  ie_id : Z;
  ie_enterprise_number : option Z;
  ie_name : bytes;
  ie_data_type : DataType;
}.

#[export] Instance IEDefinition_eq_dec : EqDecision IEDefinition.
Proof. solve_decision. Defined.

(** The table is shared by clones until one is changed ([Arc::make_mut]), so
    each registry behaves as a map of its own. *)
Record IERegistry := mkRegistry { elements : gmap (Z * option Z) IEDefinition }.

Definition new : IERegistry := mkRegistry ∅.

Definition add_element (self : IERegistry) (id : Z) (enterprise_number : option Z) (name : bytes)
    (data_type : DataType) : IERegistry :=
  mkRegistry (<[(id, enterprise_number) := mkIE id enterprise_number name data_type]>
    self.(elements)).

Definition lookup (self : IERegistry) (id : Z) (enterprise_number : option Z)
    : option IEDefinition :=
  self.(elements) !! (id, enterprise_number).

(** [values()] in the order the hash map iterates. *)
Definition lookup_by_name (values : list IEDefinition) (name : bytes) : option IEDefinition :=
  snd <$> list_find (fun def => def.(ie_name) = name) values.

Definition is_values (self : IERegistry) (values : list IEDefinition) : Prop :=
  values ≡ₚ snd <$> map_to_list self.(elements).

(** The rows the [csv] reader deserializes, up to the first error. *)
Fixpoint load_from_csv (self : IERegistry) (rows : list (option IEDefinition)) (count : Z)
    : IERegistry * option Z :=
  match rows with
  | [] => (self, Some count)
  | None :: _ => (self, None)
  | Some def :: rows =>
      load_from_csv
        (mkRegistry (<[(def.(ie_id), def.(ie_enterprise_number)) := def]> self.(elements)))
        rows (count + 1)
  end.

(** ** The IANA table *)

Definition iana_elements_1 : list (Z * bytes * DataType) := [
  (1, str "octetDeltaCount", Unsigned);
  (2, str "packetDeltaCount", Unsigned);
  (3, str "deltaFlowCount", Unsigned);
  (4, str "protocolIdentifier", Unsigned);
  (5, str "ipClassOfService", Unsigned);
  (6, str "tcpControlBits", Unsigned);
  (7, str "sourceTransportPort", Unsigned);
  (8, str "sourceIPv4Address", Ipv4Address);
  (9, str "sourceIPv4PrefixLength", Unsigned);
  (10, str "ingressInterface", Unsigned);
  (11, str "destinationTransportPort", Unsigned);
  (12, str "destinationIPv4Address", Ipv4Address);
  (13, str "destinationIPv4PrefixLength", Unsigned);
  (14, str "egressInterface", Unsigned);
  (15, str "ipNextHopIPv4Address", Ipv4Address);
  (16, str "bgpSourceAsNumber", Unsigned);
  (17, str "bgpDestinationAsNumber", Unsigned);
  (18, str "bgpNextHopIPv4Address", Ipv4Address);
  (19, str "postMCastPacketDeltaCount", Unsigned);
  (20, str "postMCastOctetDeltaCount", Unsigned);
  (21, str "flowEndSysUpTime", Unsigned);
  (22, str "flowStartSysUpTime", Unsigned);
  (23, str "postOctetDeltaCount", Unsigned);
  (24, str "postPacketDeltaCount", Unsigned);
  (25, str "minimumIpTotalLength", Unsigned);
  (26, str "maximumIpTotalLength", Unsigned);
  (27, str "sourceIPv6Address", Ipv6Address);
  (28, str "destinationIPv6Address", Ipv6Address);
  (29, str "sourceIPv6PrefixLength", Unsigned);
  (30, str "destinationIPv6PrefixLength", Unsigned);
  (31, str "flowLabelIPv6", Unsigned);
  (32, str "icmpTypeCodeIPv4", Unsigned);
  (33, str "igmpType", Unsigned);
  (34, str "samplingInterval", Unsigned);
  (35, str "samplingAlgorithm", Unsigned);
  (36, str "flowActiveTimeout", Unsigned);
  (37, str "flowIdleTimeout", Unsigned);
  (38, str "engineType", Unsigned);
  (39, str "engineId", Unsigned);
  (40, str "exportedOctetTotalCount", Unsigned);
  (41, str "exportedMessageTotalCount", Unsigned);
  (42, str "exportedFlowRecordTotalCount", Unsigned);
  (43, str "ipv4RouterSc", Ipv4Address);
  (44, str "sourceIPv4Prefix", Ipv4Address);
  (45, str "destinationIPv4Prefix", Ipv4Address);
  (46, str "mplsTopLabelType", Unsigned);
  (47, str "mplsTopLabelIPv4Address", Ipv4Address);
  (48, str "samplerId", Unsigned);
  (49, str "samplerMode", Unsigned);
  (50, str "samplerRandomInterval", Unsigned);
  (51, str "classId", Unsigned);
  (52, str "minimumTTL", Unsigned);
  (53, str "maximumTTL", Unsigned);
  (54, str "fragmentIdentification", Unsigned);
  (55, str "postIpClassOfService", Unsigned);
  (56, str "sourceMacAddress", MacAddress);
  (57, str "postDestinationMacAddress", MacAddress);
  (58, str "vlanId", Unsigned);
  (59, str "postVlanId", Unsigned);
  (60, str "ipVersion", Unsigned);
  (61, str "flowDirection", Unsigned);
  (62, str "ipNextHopIPv6Address", Ipv6Address);
  (63, str "bgpNextHopIPv6Address", Ipv6Address);
  (64, str "ipv6ExtensionHeaders", Unsigned);
  (70, str "mplsTopLabelStackSection", OctetArray);
  (71, str "mplsLabelStackSection2", OctetArray);
  (72, str "mplsLabelStackSection3", OctetArray);
  (73, str "mplsLabelStackSection4", OctetArray);
  (74, str "mplsLabelStackSection5", OctetArray);
  (75, str "mplsLabelStackSection6", OctetArray);
  (76, str "mplsLabelStackSection7", OctetArray);
  (77, str "mplsLabelStackSection8", OctetArray);
  (78, str "mplsLabelStackSection9", OctetArray);
  (79, str "mplsLabelStackSection10", OctetArray);
  (80, str "destinationMacAddress", MacAddress);
  (81, str "postSourceMacAddress", MacAddress);
  (82, str "interfaceName", String);
  (83, str "interfaceDescription", String);
  (84, str "samplerName", String);
  (85, str "octetTotalCount", Unsigned);
  (86, str "packetTotalCount", Unsigned);
  (87, str "flagsAndSamplerId", Unsigned);
  (88, str "fragmentOffset", Unsigned);
  (89, str "forwardingStatus", Unsigned);
  (90, str "mplsVpnRouteDistinguisher", OctetArray);
  (91, str "mplsTopLabelPrefixLength", Unsigned);
  (92, str "srcTrafficIndex", Unsigned);
  (93, str "dstTrafficIndex", Unsigned);
  (94, str "applicationDescription", String);
  (95, str "applicationId", OctetArray);
  (96, str "applicationName", String);
  (98, str "postIpDiffServCodePoint", Unsigned);
  (99, str "multicastReplicationFactor", Unsigned);
  (100, str "className", String);
  (101, str "classificationEngineId", Unsigned);
  (102, str "layer2packetSectionOffset", Unsigned);
  (103, str "layer2packetSectionSize", Unsigned);
  (104, str "layer2packetSectionData", OctetArray);
  (128, str "bgpNextAdjacentAsNumber", Unsigned);
  (129, str "bgpPrevAdjacentAsNumber", Unsigned);
  (130, str "exporterIPv4Address", Ipv4Address);
  (131, str "exporterIPv6Address", Ipv6Address);
  (132, str "droppedOctetDeltaCount", Unsigned);
  (133, str "droppedPacketDeltaCount", Unsigned);
  (134, str "droppedOctetTotalCount", Unsigned);
  (135, str "droppedPacketTotalCount", Unsigned);
  (136, str "flowEndReason", Unsigned);
  (137, str "commonPropertiesId", Unsigned);
  (138, str "observationPointId", Unsigned);
  (139, str "icmpTypeCodeIPv6", Unsigned);
  (140, str "mplsTopLabelIPv6Address", Ipv6Address);
  (141, str "lineCardId", Unsigned);
  (142, str "portId", Unsigned);
  (143, str "meteringProcessId", Unsigned);
  (144, str "exportingProcessId", Unsigned);
  (145, str "templateId", Unsigned);
  (146, str "wlanChannelId", Unsigned);
  (147, str "wlanSSID", String);
  (148, str "flowId", Unsigned);
  (149, str "observationDomainId", Unsigned);
  (150, str "flowStartSeconds", DateTimeSeconds);
  (151, str "flowEndSeconds", DateTimeSeconds);
  (152, str "flowStartMilliseconds", DateTimeMilliseconds);
  (153, str "flowEndMilliseconds", DateTimeMilliseconds);
  (154, str "flowStartMicroseconds", DateTimeMicroseconds);
  (155, str "flowEndMicroseconds", DateTimeMicroseconds);
  (156, str "flowStartNanoseconds", DateTimeNanoseconds);
  (157, str "flowEndNanoseconds", DateTimeNanoseconds);
  (158, str "flowStartDeltaMicroseconds", Unsigned);
  (159, str "flowEndDeltaMicroseconds", Unsigned)
].

Definition iana_elements_2 : list (Z * bytes * DataType) := [
  (160, str "systemInitTimeMilliseconds", DateTimeMilliseconds);
  (161, str "flowDurationMilliseconds", Unsigned);
  (162, str "flowDurationMicroseconds", Unsigned);
  (163, str "observedFlowTotalCount", Unsigned);
  (164, str "ignoredPacketTotalCount", Unsigned);
  (165, str "ignoredOctetTotalCount", Unsigned);
  (166, str "notSentFlowTotalCount", Unsigned);
  (167, str "notSentPacketTotalCount", Unsigned);
  (168, str "notSentOctetTotalCount", Unsigned);
  (169, str "destinationIPv6Prefix", Ipv6Address);
  (170, str "sourceIPv6Prefix", Ipv6Address);
  (171, str "postOctetTotalCount", Unsigned);
  (172, str "postPacketTotalCount", Unsigned);
  (173, str "flowKeyIndicator", Unsigned);
  (174, str "postMCastPacketTotalCount", Unsigned);
  (175, str "postMCastOctetTotalCount", Unsigned);
  (176, str "icmpTypeIPv4", Unsigned);
  (177, str "icmpCodeIPv4", Unsigned);
  (178, str "icmpTypeIPv6", Unsigned);
  (179, str "icmpCodeIPv6", Unsigned);
  (180, str "udpSourcePort", Unsigned);
  (181, str "udpDestinationPort", Unsigned);
  (182, str "tcpSourcePort", Unsigned);
  (183, str "tcpDestinationPort", Unsigned);
  (184, str "tcpSequenceNumber", Unsigned);
  (185, str "tcpAcknowledgementNumber", Unsigned);
  (186, str "tcpWindowSize", Unsigned);
  (187, str "tcpUrgentPointer", Unsigned);
  (188, str "tcpHeaderLength", Unsigned);
  (189, str "ipHeaderLength", Unsigned);
  (190, str "totalLengthIPv4", Unsigned);
  (191, str "payloadLengthIPv6", Unsigned);
  (192, str "ipTTL", Unsigned);
  (193, str "nextHeaderIPv6", Unsigned);
  (194, str "mplsPayloadLength", Unsigned);
  (195, str "ipDiffServCodePoint", Unsigned);
  (196, str "ipPrecedence", Unsigned);
  (197, str "fragmentFlags", Unsigned);
  (198, str "octetDeltaSumOfSquares", Unsigned);
  (199, str "octetTotalSumOfSquares", Unsigned);
  (200, str "mplsTopLabelTTL", Unsigned);
  (201, str "mplsLabelStackLength", Unsigned);
  (202, str "mplsLabelStackDepth", Unsigned);
  (203, str "mplsTopLabelExp", Unsigned);
  (204, str "ipPayloadLength", Unsigned);
  (205, str "udpMessageLength", Unsigned);
  (206, str "isMulticast", Unsigned);
  (207, str "ipv4IHL", Unsigned);
  (208, str "ipv4Options", Unsigned);
  (209, str "tcpOptions", Unsigned);
  (210, str "paddingOctets", OctetArray);
  (211, str "collectorIPv4Address", Ipv4Address);
  (212, str "collectorIPv6Address", Ipv6Address);
  (213, str "exportInterface", Unsigned);
  (214, str "exportProtocolVersion", Unsigned);
  (215, str "exportTransportProtocol", Unsigned);
  (216, str "collectorTransportPort", Unsigned);
  (217, str "exporterTransportPort", Unsigned);
  (218, str "tcpSynTotalCount", Unsigned);
  (219, str "tcpFinTotalCount", Unsigned);
  (220, str "tcpRstTotalCount", Unsigned);
  (221, str "tcpPshTotalCount", Unsigned);
  (222, str "tcpAckTotalCount", Unsigned);
  (223, str "tcpUrgTotalCount", Unsigned);
  (224, str "ipTotalLength", Unsigned);
  (225, str "postNATSourceIPv4Address", Ipv4Address);
  (226, str "postNATDestinationIPv4Address", Ipv4Address);
  (227, str "postNAPTSourceTransportPort", Unsigned);
  (228, str "postNAPTDestinationTransportPort", Unsigned);
  (229, str "natOriginatingAddressRealm", Unsigned);
  (230, str "natEvent", Unsigned);
  (231, str "initiatorOctets", Unsigned);
  (232, str "responderOctets", Unsigned);
  (233, str "firewallEvent", Unsigned);
  (234, str "ingressVRFID", Unsigned);
  (235, str "egressVRFID", Unsigned);
  (236, str "VRFname", String);
  (237, str "postMplsTopLabelExp", Unsigned);
  (238, str "tcpWindowScale", Unsigned);
  (239, str "biflowDirection", Unsigned);
  (240, str "ethernetHeaderLength", Unsigned);
  (241, str "ethernetPayloadLength", Unsigned);
  (242, str "ethernetTotalLength", Unsigned);
  (243, str "dot1qVlanId", Unsigned);
  (244, str "dot1qPriority", Unsigned);
  (245, str "dot1qCustomerVlanId", Unsigned);
  (246, str "dot1qCustomerPriority", Unsigned);
  (247, str "metroEvcId", String);
  (248, str "metroEvcType", Unsigned);
  (249, str "pseudoWireId", Unsigned);
  (250, str "pseudoWireType", Unsigned);
  (251, str "pseudoWireControlWord", Unsigned);
  (252, str "ingressPhysicalInterface", Unsigned);
  (253, str "egressPhysicalInterface", Unsigned);
  (254, str "postDot1qVlanId", Unsigned);
  (255, str "postDot1qCustomerVlanId", Unsigned);
  (256, str "ethernetType", Unsigned);
  (257, str "postIpPrecedence", Unsigned);
  (258, str "collectionTimeMilliseconds", DateTimeMilliseconds);
  (259, str "exportSctpStreamId", Unsigned);
  (260, str "maxExportSeconds", DateTimeSeconds);
  (261, str "maxFlowEndSeconds", DateTimeSeconds);
  (262, str "messageMD5Checksum", OctetArray);
  (263, str "messageScope", Unsigned);
  (264, str "minExportSeconds", DateTimeSeconds);
  (265, str "minFlowStartSeconds", DateTimeSeconds);
  (266, str "opaqueOctets", OctetArray);
  (267, str "sessionScope", Unsigned);
  (268, str "maxFlowEndMicroseconds", DateTimeMicroseconds);
  (269, str "maxFlowEndMilliseconds", DateTimeMilliseconds);
  (270, str "maxFlowEndNanoseconds", DateTimeNanoseconds);
  (271, str "minFlowStartMicroseconds", DateTimeMicroseconds);
  (272, str "minFlowStartMilliseconds", DateTimeMilliseconds);
  (273, str "minFlowStartNanoseconds", DateTimeNanoseconds);
  (274, str "collectorCertificate", OctetArray);
  (275, str "exporterCertificate", OctetArray);
  (276, str "dataRecordsReliability", Boolean);
  (277, str "observationPointType", Unsigned);
  (278, str "newConnectionDeltaCount", Unsigned);
  (279, str "connectionSumDurationSeconds", Unsigned);
  (280, str "connectionTransactionId", Unsigned);
  (281, str "postNATSourceIPv6Address", Ipv6Address);
  (282, str "postNATDestinationIPv6Address", Ipv6Address);
  (283, str "natPoolId", Unsigned);
  (284, str "natPoolName", String);
  (285, str "anonymizationFlags", Unsigned);
  (286, str "anonymizationTechnique", Unsigned);
  (287, str "informationElementIndex", Unsigned);
  (288, str "p2pTechnology", String);
  (289, str "tunnelTechnology", String)
].

Definition iana_elements_3 : list (Z * bytes * DataType) := [
  (290, str "encryptedTechnology", String);
  (291, str "basicList", BasicList);
  (292, str "subTemplateList", SubTemplateList);
  (293, str "subTemplateMultiList", SubTemplateMultiList);
  (294, str "bgpValidityState", Unsigned);
  (295, str "IPSecSPI", Unsigned);
  (296, str "greKey", Unsigned);
  (297, str "natType", Unsigned);
  (298, str "initiatorPackets", Unsigned);
  (299, str "responderPackets", Unsigned);
  (300, str "observationDomainName", String);
  (301, str "selectionSequenceId", Unsigned);
  (302, str "selectorId", Unsigned);
  (303, str "informationElementId", Unsigned);
  (304, str "selectorAlgorithm", Unsigned);
  (305, str "samplingPacketInterval", Unsigned);
  (306, str "samplingPacketSpace", Unsigned);
  (307, str "samplingTimeInterval", Unsigned);
  (308, str "samplingTimeSpace", Unsigned);
  (309, str "samplingSize", Unsigned);
  (310, str "samplingPopulation", Unsigned);
  (311, str "samplingProbability", Float);
  (312, str "dataLinkFrameSize", Unsigned);
  (313, str "ipHeaderPacketSection", OctetArray);
  (314, str "ipPayloadPacketSection", OctetArray);
  (315, str "dataLinkFrameSection", OctetArray);
  (316, str "mplsLabelStackSection", OctetArray);
  (317, str "mplsPayloadPacketSection", OctetArray);
  (318, str "selectorIdTotalPktsObserved", Unsigned);
  (319, str "selectorIdTotalPktsSelected", Unsigned);
  (320, str "absoluteError", Float);
  (321, str "relativeError", Float);
  (322, str "observationTimeSeconds", DateTimeSeconds);
  (323, str "observationTimeMilliseconds", DateTimeMilliseconds);
  (324, str "observationTimeMicroseconds", DateTimeMicroseconds);
  (325, str "observationTimeNanoseconds", DateTimeNanoseconds);
  (326, str "digestHashValue", Unsigned);
  (327, str "hashIPPayloadOffset", Unsigned);
  (328, str "hashIPPayloadSize", Unsigned);
  (329, str "hashOutputRangeMin", Unsigned);
  (330, str "hashOutputRangeMax", Unsigned);
  (331, str "hashSelectedRangeMin", Unsigned);
  (332, str "hashSelectedRangeMax", Unsigned);
  (333, str "hashDigestOutput", Boolean);
  (334, str "hashInitialiserValue", Unsigned);
  (335, str "selectorName", String);
  (336, str "upperCILimit", Float);
  (337, str "lowerCILimit", Float);
  (338, str "confidenceLevel", Float);
  (339, str "informationElementDataType", Unsigned);
  (340, str "informationElementDescription", String);
  (341, str "informationElementName", String);
  (342, str "informationElementRangeBegin", Unsigned);
  (343, str "informationElementRangeEnd", Unsigned);
  (344, str "informationElementSemantics", Unsigned);
  (345, str "informationElementUnits", Unsigned);
  (346, str "privateEnterpriseNumber", Unsigned);
  (347, str "virtualStationInterfaceId", OctetArray);
  (348, str "virtualStationInterfaceName", String);
  (349, str "virtualStationUUID", OctetArray);
  (350, str "virtualStationName", String);
  (351, str "layer2SegmentId", Unsigned);
  (352, str "layer2OctetDeltaCount", Unsigned);
  (353, str "layer2OctetTotalCount", Unsigned);
  (354, str "ingressUnicastPacketTotalCount", Unsigned);
  (355, str "ingressMulticastPacketTotalCount", Unsigned);
  (356, str "ingressBroadcastPacketTotalCount", Unsigned);
  (357, str "egressUnicastPacketTotalCount", Unsigned);
  (358, str "egressBroadcastPacketTotalCount", Unsigned);
  (359, str "monitoringIntervalStartMilliSeconds", DateTimeMilliseconds);
  (360, str "monitoringIntervalEndMilliSeconds", DateTimeMilliseconds);
  (361, str "portRangeStart", Unsigned);
  (362, str "portRangeEnd", Unsigned);
  (363, str "portRangeStepSize", Unsigned);
  (364, str "portRangeNumPorts", Unsigned);
  (365, str "staMacAddress", MacAddress);
  (366, str "staIPv4Address", Ipv4Address);
  (367, str "wtpMacAddress", MacAddress);
  (368, str "ingressInterfaceType", Unsigned);
  (369, str "egressInterfaceType", Unsigned);
  (370, str "rtpSequenceNumber", Unsigned);
  (371, str "userName", String);
  (372, str "applicationCategoryName", String);
  (373, str "applicationSubCategoryName", String);
  (374, str "applicationGroupName", String);
  (375, str "originalFlowsPresent", Unsigned);
  (376, str "originalFlowsInitiated", Unsigned);
  (377, str "originalFlowsCompleted", Unsigned);
  (378, str "distinctCountOfSourceIPAddress", Unsigned);
  (379, str "distinctCountOfDestinationIPAddress", Unsigned);
  (380, str "distinctCountOfSourceIPv4Address", Unsigned);
  (381, str "distinctCountOfDestinationIPv4Address", Unsigned);
  (382, str "distinctCountOfSourceIPv6Address", Unsigned);
  (383, str "distinctCountOfDestinationIPv6Address", Unsigned);
  (384, str "valueDistributionMethod", Unsigned);
  (385, str "rfc3550JitterMilliseconds", Unsigned);
  (386, str "rfc3550JitterMicroseconds", Unsigned);
  (387, str "rfc3550JitterNanoseconds", Unsigned);
  (388, str "dot1qDEI", Boolean);
  (389, str "dot1qCustomerDEI", Boolean);
  (390, str "flowSelectorAlgorithm", Unsigned);
  (391, str "flowSelectedOctetDeltaCount", Unsigned);
  (392, str "flowSelectedPacketDeltaCount", Unsigned);
  (393, str "flowSelectedFlowDeltaCount", Unsigned);
  (394, str "selectorIDTotalFlowsObserved", Unsigned);
  (395, str "selectorIDTotalFlowsSelected", Unsigned);
  (396, str "samplingFlowInterval", Unsigned);
  (397, str "samplingFlowSpacing", Unsigned);
  (398, str "flowSamplingTimeInterval", Unsigned);
  (399, str "flowSamplingTimeSpacing", Unsigned);
  (400, str "hashFlowDomain", Unsigned);
  (401, str "transportOctetDeltaCount", Unsigned);
  (402, str "transportPacketDeltaCount", Unsigned);
  (403, str "originalExporterIPv4Address", Ipv4Address);
  (404, str "originalExporterIPv6Address", Ipv6Address);
  (405, str "originalObservationDomainId", Unsigned);
  (406, str "intermediateProcessId", Unsigned);
  (407, str "ignoredDataRecordTotalCount", Unsigned);
  (408, str "dataLinkFrameType", Unsigned);
  (409, str "sectionOffset", Unsigned);
  (410, str "sectionExportedOctets", Unsigned);
  (411, str "dot1qServiceInstanceTag", OctetArray);
  (412, str "dot1qServiceInstanceId", Unsigned);
  (413, str "dot1qServiceInstancePriority", Unsigned);
  (414, str "dot1qCustomerSourceMacAddress", MacAddress);
  (415, str "dot1qCustomerDestinationMacAddress", MacAddress);
  (417, str "postLayer2OctetDeltaCount", Unsigned);
  (418, str "postMCastLayer2OctetDeltaCount", Unsigned);
  (420, str "postLayer2OctetTotalCount", Unsigned);
  (421, str "postMCastLayer2OctetTotalCount", Unsigned)
].

Definition iana_elements_4 : list (Z * bytes * DataType) := [
  (422, str "minimumLayer2TotalLength", Unsigned);
  (423, str "maximumLayer2TotalLength", Unsigned);
  (424, str "droppedLayer2OctetDeltaCount", Unsigned);
  (425, str "droppedLayer2OctetTotalCount", Unsigned);
  (426, str "ignoredLayer2OctetTotalCount", Unsigned);
  (427, str "notSentLayer2OctetTotalCount", Unsigned);
  (428, str "layer2OctetDeltaSumOfSquares", Unsigned);
  (429, str "layer2OctetTotalSumOfSquares", Unsigned);
  (430, str "layer2FrameDeltaCount", Unsigned);
  (431, str "layer2FrameTotalCount", Unsigned);
  (432, str "pseudoWireDestinationIPv4Address", Ipv4Address);
  (433, str "ignoredLayer2FrameTotalCount", Unsigned);
  (434, str "mibObjectValueInteger", Signed);
  (435, str "mibObjectValueOctetString", OctetArray);
  (436, str "mibObjectValueOID", OctetArray);
  (437, str "mibObjectValueBits", OctetArray);
  (438, str "mibObjectValueIPAddress", Ipv4Address);
  (439, str "mibObjectValueCounter", Unsigned);
  (440, str "mibObjectValueGauge", Unsigned);
  (441, str "mibObjectValueTimeTicks", Unsigned);
  (442, str "mibObjectValueUnsigned", Unsigned);
  (443, str "mibObjectValueTable", SubTemplateList);
  (444, str "mibObjectValueRow", SubTemplateList);
  (445, str "mibObjectIdentifier", OctetArray);
  (446, str "mibSubIdentifier", Unsigned);
  (447, str "mibIndexIndicator", Unsigned);
  (448, str "mibCaptureTimeSemantics", Unsigned);
  (449, str "mibContextEngineID", OctetArray);
  (450, str "mibContextName", String);
  (451, str "mibObjectName", String);
  (452, str "mibObjectDescription", String);
  (453, str "mibObjectSyntax", String);
  (454, str "mibModuleName", String);
  (455, str "mobileIMSI", String);
  (456, str "mobileMSISDN", String);
  (457, str "httpStatusCode", Unsigned);
  (458, str "sourceTransportPortsLimit", Unsigned);
  (459, str "httpRequestMethod", String);
  (460, str "httpRequestHost", String);
  (461, str "httpRequestTarget", String);
  (462, str "httpMessageVersion", String);
  (463, str "natInstanceID", Unsigned);
  (464, str "internalAddressRealm", OctetArray);
  (465, str "externalAddressRealm", OctetArray);
  (466, str "natQuotaExceededEvent", Unsigned);
  (467, str "natThresholdEvent", Unsigned);
  (468, str "httpUserAgent", String);
  (469, str "httpContentType", String);
  (470, str "httpReasonPhrase", String);
  (471, str "maxSessionEntries", Unsigned);
  (472, str "maxBIBEntries", Unsigned);
  (473, str "maxEntriesPerUser", Unsigned);
  (474, str "maxSubscribers", Unsigned);
  (475, str "maxFragmentsPendingReassembly", Unsigned);
  (476, str "addressPoolHighThreshold", Unsigned);
  (477, str "addressPoolLowThreshold", Unsigned);
  (478, str "addressPortMappingHighThreshold", Unsigned);
  (479, str "addressPortMappingLowThreshold", Unsigned);
  (480, str "addressPortMappingPerUserHighThreshold", Unsigned);
  (481, str "globalAddressMappingHighThreshold", Unsigned);
  (482, str "vpnIdentifier", OctetArray);
  (483, str "bgpCommunity", Unsigned);
  (484, str "bgpSourceCommunityList", BasicList);
  (485, str "bgpDestinationCommunityList", BasicList);
  (486, str "bgpExtendedCommunity", OctetArray);
  (487, str "bgpSourceExtendedCommunityList", BasicList);
  (488, str "bgpDestinationExtendedCommunityList", BasicList);
  (489, str "bgpLargeCommunity", OctetArray);
  (490, str "bgpSourceLargeCommunityList", BasicList);
  (491, str "bgpDestinationLargeCommunityList", BasicList);
  (492, str "srhFlagsIPv6", Unsigned);
  (493, str "srhTagIPv6", Unsigned);
  (494, str "srhSegmentIPv6", Ipv6Address);
  (495, str "srhActiveSegmentIPv6", Ipv6Address);
  (496, str "srhSegmentIPv6BasicList", BasicList);
  (497, str "srhSegmentIPv6ListSection", OctetArray);
  (498, str "srhSegmentsIPv6Left", Unsigned);
  (499, str "srhIPv6Section", OctetArray);
  (500, str "srhIPv6ActiveSegmentType", Unsigned);
  (501, str "srhSegmentIPv6LocatorLength", Unsigned);
  (502, str "srhSegmentIPv6EndpointBehavior", Unsigned);
  (503, str "transportChecksum", Unsigned);
  (504, str "icmpHeaderPacketSection", OctetArray);
  (505, str "gtpuFlags", Unsigned);
  (506, str "gtpuMsgType", Unsigned);
  (507, str "gtpuTEid", Unsigned);
  (508, str "gtpuSequenceNum", Unsigned);
  (509, str "gtpuQFI", Unsigned);
  (510, str "gtpuPduType", Unsigned);
  (511, str "bgpSourceAsPathList", BasicList);
  (512, str "bgpDestinationAsPathList", BasicList);
  (513, str "ipv6ExtensionHeaderType", Unsigned);
  (514, str "ipv6ExtensionHeaderCount", Unsigned);
  (515, str "ipv6ExtensionHeadersFull", Unsigned);
  (516, str "ipv6ExtensionHeaderTypeCountList", SubTemplateList);
  (517, str "ipv6ExtensionHeadersLimit", Boolean);
  (518, str "ipv6ExtensionHeadersChainLength", Unsigned);
  (519, str "ipv6ExtensionHeaderChainLengthList", SubTemplateList);
  (520, str "tcpOptionsFull", Unsigned);
  (521, str "tcpSharedOptionExID16", Unsigned);
  (522, str "tcpSharedOptionExID32", Unsigned);
  (523, str "tcpSharedOptionExID16List", BasicList);
  (524, str "tcpSharedOptionExID32List", BasicList);
  (525, str "udpSafeOptions", Unsigned);
  (526, str "udpUnsafeOptions", Unsigned);
  (527, str "udpExID", Unsigned);
  (528, str "udpSafeExIDList", BasicList);
  (529, str "udpUnsafeExIDList", BasicList)
].

Definition iana_elements : list (Z * bytes * DataType) :=
  iana_elements_1 ++ iana_elements_2 ++ iana_elements_3 ++ iana_elements_4.

Definition add_iana_elements (self : IERegistry) : IERegistry :=
  fold_left (fun self '(id, name, data_type) => add_element self id None name data_type)
    iana_elements self.

Definition new_with_iana_elements : IERegistry := add_iana_elements new.

Definition default_registry : IERegistry := new_with_iana_elements.

(** ** Facts *)

Lemma lookup_add_element self id en name dt id' en' :
  lookup (add_element self id en name dt) id' en'
  = if decide ((id', en') = (id, en)) then Some (mkIE id en name dt) else lookup self id' en'.
Proof.
  unfold lookup, add_element. cbn. case_decide as H.
  - rewrite H. apply lookup_insert_eq.
  - by apply lookup_insert_ne.
Qed.

(** The last row for a key, in a list of rows. *)
Fixpoint last_row (id : Z) (en : option Z) (rows : list (option IEDefinition))
    : option IEDefinition :=
  match rows with
  | Some def :: rows =>
      match last_row id en rows with
      | Some d => Some d
      | None => if decide ((def.(ie_id), def.(ie_enterprise_number)) = (id, en))
                then Some def else None
      end
  | _ => None
  end.

Definition table_def (row : Z * bytes * DataType) : IEDefinition :=
  let '(id, name, data_type) := row in mkIE id None name data_type.

Lemma lookup_add_elements (l : list (Z * bytes * DataType)) : forall self id en,
  lookup (fold_left (fun self '(id, name, dt) => add_element self id None name dt) l self) id en
  = match last_row id en (Some <$> (table_def <$> l)) with
    | Some d => Some d
    | None => lookup self id en
    end.
Proof.
  induction l as [|[[i n] t] l IH]; intros self id en; [done|].
  cbn [fold_left fmap list_fmap last_row]. rewrite IH, lookup_add_element. cbn.
  destruct (last_row id en _); [done|]. repeat case_decide; congruence.
Qed.

Lemma last_row_Some id en rows d :
  last_row id en rows = Some d -> (ie_id d, ie_enterprise_number d) = (id, en) /\ Some d ∈ rows.
Proof.
  induction rows as [|[r|] rows IH]; cbn; [done| |done].
  destruct (last_row id en rows) as [d'|].
  - intros [= ->]. destruct IH; [done|]. split; [done|by right].
  - case_decide; intros [= ->]. split; [done|by left].
Qed.

Lemma last_row_unique id en l d :
  NoDup ((fun d => (ie_id d, ie_enterprise_number d)) <$> l) ->
  last_row id en (Some <$> l) = Some d <->
  d ∈ l /\ (ie_id d, ie_enterprise_number d) = (id, en).
Proof.
  induction l as [|r l IH]; cbn [fmap list_fmap last_row].
  - split; [done|]. intros [Hd _]. by apply not_elem_of_nil in Hd.
  - intros [Hr Hl]%NoDup_cons. specialize (IH Hl).
    destruct (last_row id en (Some <$> l)) as [d'|] eqn:E.
    + split.
      * intros [= ->]. destruct IH as [IH _]. destruct IH; [done|]. split; [by right|done].
      * intros [[->|Hd]%elem_of_cons Hk]; [|by apply IH].
        apply last_row_Some in E as [Hk' (x & [= ->] & Hx)%list_elem_of_fmap].
        destruct Hr. apply list_elem_of_fmap. exists x. split; [congruence|done].
    + case_decide as Hk.
      * split; [intros [= ->]; split; [by left|done]|].
        intros [[->|Hd]%elem_of_cons Hk']; [done|]. destruct IH as [_ IH].
        by discriminate IH.
      * split; [done|]. intros [[->|Hd]%elem_of_cons Hk']; [done|].
        destruct IH as [_ IH]. by discriminate IH.
Qed.

Lemma iana_keys_nodup :
  NoDup ((fun d => (ie_id d, ie_enterprise_number d)) <$> (table_def <$> iana_elements)).
Proof. apply (bool_decide_unpack _). by vm_compute. Qed.

Lemma iana_names_nodup : NoDup (ie_name <$> (table_def <$> iana_elements)).
Proof. apply (bool_decide_unpack _). by vm_compute. Qed.

(** ** Properties *)

(** The default registry holds exactly the rows of the IANA table: every row
    is found under its identifier, nothing else is, and enterprise elements
    are unknown. *)
Theorem iana_lookup id en d :
  lookup new_with_iana_elements id en = Some d <->
  en = None /\ d ∈ table_def <$> iana_elements /\ ie_id d = id.
Proof.
  unfold new_with_iana_elements, add_iana_elements. rewrite lookup_add_elements.
  pose proof (last_row_unique id en _ d iana_keys_nodup) as Hu.
  transitivity (last_row id en (Some <$> (table_def <$> iana_elements)) = Some d).
  { destruct (last_row _ _ _); [done|]. unfold lookup, new. cbn. by rewrite lookup_empty. }
  rewrite Hu. split.
  - intros [Hd [= <- <-]]. split; [|done].
    apply list_elem_of_fmap in Hd as ([[i n] t] & -> & _). done.
  - intros (-> & Hd & <-). split; [done|].
    apply list_elem_of_fmap in Hd as ([[i n] t] & -> & _). done.
Qed.

(** Loading a file stores its rows in order, a later row replacing an earlier
    one of the same element; the rows before an error stay, and the count is
    that of the rows when there is none. *)
Theorem load_from_csv_spec rows : forall self n,
  let '(self', r) := load_from_csv self rows n in
  (forall id en, lookup self' id en
     = match last_row id en rows with Some d => Some d | None => lookup self id en end) /\
  r = (if decide (None ∈ rows) then None else Some (n + zlen rows)).
Proof.
  induction rows as [|[def|] rows IH]; intros self n; cbn [load_from_csv].
  - rewrite decide_False by apply not_elem_of_nil. split; [done|].
    rewrite zlen_nil. f_equal. lia.
  - specialize (IH (mkRegistry (<[(ie_id def, ie_enterprise_number def):=def]> (elements self)))
      (n + 1)).
    destruct (load_from_csv _ rows _) as [self' r]. destruct IH as [IH ->]. split.
    + intros id en. rewrite IH. cbn [last_row]. destruct (last_row id en rows); [done|].
      unfold lookup. cbn [elements]. case_decide as Hk.
      * rewrite Hk. by rewrite lookup_insert_eq.
      * by rewrite lookup_insert_ne.
    + rewrite zlen_cons. destruct (decide (None ∈ rows)).
      * rewrite decide_True; [done|by right].
      * rewrite decide_False by (intros [?|?]%elem_of_cons; done). f_equal. lia.
  - split; [done|]. rewrite decide_True; [done|by left].
Qed.

Lemma iana_names_inj d d' :
  d ∈ table_def <$> iana_elements -> d' ∈ table_def <$> iana_elements ->
  ie_name d = ie_name d' -> d = d'.
Proof.
  intros [i Hi]%list_elem_of_lookup [j Hj]%list_elem_of_lookup Heq.
  assert (i = j) as <-; [|congruence].
  eapply (NoDup_lookup _ _ _ (ie_name d) iana_names_nodup);
    rewrite list_lookup_fmap; [rewrite Hi|rewrite Hj]; cbn; congruence.
Qed.

Lemma iana_values values d :
  is_values new_with_iana_elements values -> d ∈ values <-> d ∈ table_def <$> iana_elements.
Proof.
  intros ->. rewrite list_elem_of_fmap. split.
  - intros ([[id en] d'] & -> & Hd%elem_of_map_to_list). by apply iana_lookup in Hd as (_ & ? & _).
  - intros Hd. exists ((ie_id d, None), d). split; [done|]. apply elem_of_map_to_list.
    change (lookup new_with_iana_elements (ie_id d) None = Some d). by apply iana_lookup.
Qed.

(** In the default registry a name finds its element whatever the order the
    hash map iterates in: the names are distinct. *)
Theorem iana_lookup_by_name values name d :
  is_values new_with_iana_elements values ->
  lookup_by_name values name = Some d <->
  d ∈ table_def <$> iana_elements /\ ie_name d = name.
Proof.
  intros Hv. unfold lookup_by_name. split.
  - intros ([i d'] & (Hi & Hn & _)%list_find_Some & ->)%fmap_Some. split; [|done].
    apply (iana_values values); [done|]. by apply (list_elem_of_lookup_2 _ i).
  - intros [Hd Hn].
    destruct (list_find _ values) as [[i d']|] eqn:E.
    + apply list_find_Some in E as (Hi & Hn' & _). cbn. f_equal.
      apply iana_names_inj; [|done|congruence].
      apply (iana_values values); [done|]. by apply (list_elem_of_lookup_2 _ i).
    + apply list_find_None in E. rewrite Forall_forall in E.
      by destruct (E d (proj2 (iana_values values d Hv) Hd)).
Qed.

Definition iana_values_list : list IEDefinition := snd <$> map_to_list (elements new_with_iana_elements).

Lemma iana_lookup_by_name_witness :
  is_values new_with_iana_elements iana_values_list /\
  lookup_by_name iana_values_list (str "octetDeltaCount")
  = Some (mkIE 1 None (str "octetDeltaCount") Unsigned).
Proof.
  assert (Hv : is_values new_with_iana_elements iana_values_list) by (unfold is_values; reflexivity).
  split; [exact Hv|]. apply (iana_lookup_by_name _ _ _ Hv).
  split; [|reflexivity]. left.
Defined.
