(* ===== verification/InformationElement.v ===== *)
(** [common/information_element.rs]: the IANA Information Elements the
    converters know by name. *)

From Stdlib Require Import ZArith Lia.
From stdpp Require Import base tactics numbers list.
From S2P Require Import Prelude Std.
#[local] Open Scope Z_scope.

Inductive InformationElement :=
  | OctetDeltaCount
  | PacketDeltaCount
  | ProtocolIdentifier
  | IpClassOfService
  | TcpControlBits
  | SourceTransportPort
  | SourceIpv4Address
  | SourceIpv4PrefixLength
  | IngressInterface
  | DestinationTransportPort
  | DestinationIpv4Address
  | DestinationIpv4PrefixLength
  | EgressInterface
  | IpVersion
  | FlowDirection
  | IpNextHopIpv4Address
  | BgpSourceAsNumber
  | BgpDestinationAsNumber
  | BgpNextHopIpv4Address
  | FlowEndSysUpTime
  | FlowStartSysUpTime
  | SourceIpv6Address
  | DestinationIpv6Address
  | SourceIpv6PrefixLength
  | DestinationIpv6PrefixLength
  | FlowLabelIpv6
  | IcmpTypeCodeIpv4
  | FlowEndReason
  | IcmpTypeCodeIpv6
  | SamplingInterval
  | SamplerId
  | SamplerRandomInterval
  | MinimumTtl
  | MaximumTtl
  | FragmentIdentification
  | SourceMacAddress
  | PostDestinationMacAddress
  | SrcVlan
  | DstVlan
  | IpNextHopIpv6Address
  | BgpNextHopIpv6Address
  | DestinationMacAddress
  | PostSourceMacAddress
  | ForwardingStatus
  | ObservationDomainId
  | FlowStartSeconds
  | FlowEndSeconds
  | FlowStartMilliseconds
  | FlowEndMilliseconds
  | FlowStartMicroseconds
  | FlowEndMicroseconds
  | FlowStartNanoseconds
  | FlowEndNanoseconds
  | FlowStartDeltaMicroseconds
  | FlowEndDeltaMicroseconds
  | SystemInitTimeMilliseconds
  | IcmpTypeIpv4
  | IcmpCodeIpv4
  | IcmpTypeIpv6
  | IcmpCodeIpv6
  | SelectorId
  | InformationElementId
  | SelectorAlgorithm
  | SamplingPacketInterval
  | SamplingPacketSpace
  | DataLinkFrameSize
  | IpHeaderPacketSection
  | DataLinkFrameSection
  | InformationElementDataType
  | InformationElementName
  | InformationElementSemantics
  | PrivateEnterpriseNumber.

(** The [#[repr(u16)]] discriminants. *)
Definition ie_discriminant (ie : InformationElement) : Z :=
  match ie with
  | OctetDeltaCount => 1
  | PacketDeltaCount => 2
  | ProtocolIdentifier => 4
  | IpClassOfService => 5
  | TcpControlBits => 6
  | SourceTransportPort => 7
  | SourceIpv4Address => 8
  | SourceIpv4PrefixLength => 9
  | IngressInterface => 10
  | DestinationTransportPort => 11
  | DestinationIpv4Address => 12
  | DestinationIpv4PrefixLength => 13
  | EgressInterface => 14
  | IpVersion => 60
  | FlowDirection => 61
  | IpNextHopIpv4Address => 15
  | BgpSourceAsNumber => 16
  | BgpDestinationAsNumber => 17
  | BgpNextHopIpv4Address => 18
  | FlowEndSysUpTime => 21
  | FlowStartSysUpTime => 22
  | SourceIpv6Address => 27
  | DestinationIpv6Address => 28
  | SourceIpv6PrefixLength => 29
  | DestinationIpv6PrefixLength => 30
  | FlowLabelIpv6 => 31
  | IcmpTypeCodeIpv4 => 32
  | FlowEndReason => 136
  | IcmpTypeCodeIpv6 => 139
  | SamplingInterval => 34
  | SamplerId => 48
  | SamplerRandomInterval => 50
  | MinimumTtl => 52
  | MaximumTtl => 53
  | FragmentIdentification => 54
  | SourceMacAddress => 56
  | PostDestinationMacAddress => 57
  | SrcVlan => 58
  | DstVlan => 59
  | IpNextHopIpv6Address => 62
  | BgpNextHopIpv6Address => 63
  | DestinationMacAddress => 80
  | PostSourceMacAddress => 81
  | ForwardingStatus => 89
  | ObservationDomainId => 149
  | FlowStartSeconds => 150
  | FlowEndSeconds => 151
  | FlowStartMilliseconds => 152
  | FlowEndMilliseconds => 153
  | FlowStartMicroseconds => 154
  | FlowEndMicroseconds => 155
  | FlowStartNanoseconds => 156
  | FlowEndNanoseconds => 157
  | FlowStartDeltaMicroseconds => 158
  | FlowEndDeltaMicroseconds => 159
  | SystemInitTimeMilliseconds => 160
  | IcmpTypeIpv4 => 176
  | IcmpCodeIpv4 => 177
  | IcmpTypeIpv6 => 178
  | IcmpCodeIpv6 => 179
  | SelectorId => 302
  | InformationElementId => 303
  | SelectorAlgorithm => 304
  | SamplingPacketInterval => 305
  | SamplingPacketSpace => 306
  | DataLinkFrameSize => 312
  | IpHeaderPacketSection => 313
  | DataLinkFrameSection => 315
  | InformationElementDataType => 339
  | InformationElementName => 341
  | InformationElementSemantics => 344
  | PrivateEnterpriseNumber => 346
  end.

Definition all_elements : list InformationElement := [
  OctetDeltaCount;
  PacketDeltaCount;
  ProtocolIdentifier;
  IpClassOfService;
  TcpControlBits;
  SourceTransportPort;
  SourceIpv4Address;
  SourceIpv4PrefixLength;
  IngressInterface;
  DestinationTransportPort;
  DestinationIpv4Address;
  DestinationIpv4PrefixLength;
  EgressInterface;
  IpVersion;
  FlowDirection;
  IpNextHopIpv4Address;
  BgpSourceAsNumber;
  BgpDestinationAsNumber;
  BgpNextHopIpv4Address;
  FlowEndSysUpTime;
  FlowStartSysUpTime;
  SourceIpv6Address;
  DestinationIpv6Address;
  SourceIpv6PrefixLength;
  DestinationIpv6PrefixLength;
  FlowLabelIpv6;
  IcmpTypeCodeIpv4;
  FlowEndReason;
  IcmpTypeCodeIpv6;
  SamplingInterval;
  SamplerId;
  SamplerRandomInterval;
  MinimumTtl;
  MaximumTtl;
  FragmentIdentification;
  SourceMacAddress;
  PostDestinationMacAddress;
  SrcVlan;
  DstVlan;
  IpNextHopIpv6Address;
  BgpNextHopIpv6Address;
  DestinationMacAddress;
  PostSourceMacAddress;
  ForwardingStatus;
  ObservationDomainId;
  FlowStartSeconds;
  FlowEndSeconds;
  FlowStartMilliseconds;
  FlowEndMilliseconds;
  FlowStartMicroseconds;
  FlowEndMicroseconds;
  FlowStartNanoseconds;
  FlowEndNanoseconds;
  FlowStartDeltaMicroseconds;
  FlowEndDeltaMicroseconds;
  SystemInitTimeMilliseconds;
  IcmpTypeIpv4;
  IcmpCodeIpv4;
  IcmpTypeIpv6;
  IcmpCodeIpv6;
  SelectorId;
  InformationElementId;
  SelectorAlgorithm;
  SamplingPacketInterval;
  SamplingPacketSpace;
  DataLinkFrameSize;
  IpHeaderPacketSection;
  DataLinkFrameSection;
  InformationElementDataType;
  InformationElementName;
  InformationElementSemantics;
  PrivateEnterpriseNumber
].

(** The derived [TryFromPrimitive]: the variant with that discriminant. *)
Definition ie_try_from (id : Z) : option InformationElement :=
  snd <$> list_find (fun ie => ie_discriminant ie = id) all_elements.

Definition MAX_IE_ID : Z := 346.

Definition IE_BY_ID : list (option InformationElement) :=
  (fun id => ie_try_from (Z.of_nat id)) <$> seq 0 (Z.to_nat (MAX_IE_ID + 1)).

(** [slice::get], [copied] and [flatten]. *)
Definition from_id (id : Z) : option InformationElement :=
  match IE_BY_ID !! Z.to_nat id with
  | Some r => r
  | None => None
  end.

(** ** Facts *)

Lemma ie_try_from_discriminant ie : ie_try_from (ie_discriminant ie) = Some ie.
Proof. by destruct ie; vm_compute. Qed.

Lemma ie_discriminant_inj ie ie' : ie_discriminant ie = ie_discriminant ie' -> ie = ie'.
Proof.
  intros Heq. pose proof (ie_try_from_discriminant ie) as H.
  rewrite Heq, ie_try_from_discriminant in H. congruence.
Qed.

#[export] Instance InformationElement_eq_dec : EqDecision InformationElement.
Proof.
  intros x y. destruct (decide (ie_discriminant x = ie_discriminant y)) as [H|H];
    [left; by apply ie_discriminant_inj|right; congruence].
Defined.

Lemma ie_discriminant_range ie : 1 <= ie_discriminant ie <= MAX_IE_ID.
Proof. by destruct ie. Qed.

Lemma ie_try_from_spec id ie : ie_try_from id = Some ie <-> ie_discriminant ie = id.
Proof.
  split; [|intros <-; apply ie_try_from_discriminant].
  unfold ie_try_from. by intros ([i d] & (_ & <- & _)%list_find_Some & ->)%fmap_Some.
Qed.

Lemma from_id_try_from id : 0 <= id -> from_id id = ie_try_from id.
Proof.
  intros Hid. unfold from_id, IE_BY_ID. rewrite list_lookup_fmap.
  destruct (Z.leb_spec id MAX_IE_ID) as [Hle|Hgt].
  - rewrite lookup_seq_lt by (unfold MAX_IE_ID in *; lia). cbn [fmap option_fmap option_map].
    f_equal. lia.
  - rewrite lookup_seq_ge by (unfold MAX_IE_ID in *; lia). cbn.
    destruct (ie_try_from id) as [ie|] eqn:E; [|done].
    apply ie_try_from_spec in E. pose proof (ie_discriminant_range ie). lia.
Qed.

Lemma from_id_Some id ie : 0 <= id -> from_id id = Some ie <-> ie_discriminant ie = id.
Proof. intros. rewrite <- ie_try_from_spec. by rewrite <- from_id_try_from. Qed.

Lemma from_id_discriminant ie : from_id (ie_discriminant ie) = Some ie.
Proof. apply from_id_Some; [pose proof (ie_discriminant_range ie); lia|done]. Qed.

(** The lookup table agrees with the derived conversion on every identifier,
    so no variant lies beyond [MAX_IE_ID] and a variant's identifier leads
    back to it. *)
Theorem from_id_matches_derive id ie :
  0 <= id ->
  from_id id = ie_try_from id /\ (from_id id = Some ie <-> ie_discriminant ie = id).
Proof. intros. split; [by apply from_id_try_from|by apply from_id_Some]. Qed.

Lemma from_id_matches_derive_witness :
  from_id 346 = ie_try_from 346 /\ ie_try_from 346 = Some PrivateEnterpriseNumber /\
  from_id 347 = ie_try_from 347 /\ ie_try_from 347 = None.
Proof.
  split; [refine (proj1 (from_id_matches_derive 346 PrivateEnterpriseNumber _)); lia|].
  split; [by vm_compute|].
  split; [refine (proj1 (from_id_matches_derive 347 PrivateEnterpriseNumber _)); lia|by vm_compute].
Defined.
