(* ===== verification/DataRecord.v ===== *)
(** [common/data_record.rs]: resolved template fields, and the values of a
    record in template order. *)

From Stdlib Require Import ZArith Lia.
From stdpp Require Import base tactics numbers list.
From S2P Require Import Prelude IERegistry.
#[local] Open Scope Z_scope.

Record ResolvedField (S : Type) := mkResolved {
  spec : S;
  data_type : DataType;
  name : bytes;
}.
Arguments mkResolved {S}.
Arguments spec {S}.
Arguments data_type {S}.
Arguments name {S}.

Record DataRecord (S V : Type) := from_template {
  rec_fields : list (ResolvedField S);
  rec_values : list V;
}.
Arguments from_template {S V}.
Arguments rec_fields {S V}.
Arguments rec_values {S V}.

Section data_record.
Context {S V : Type}.
Implicit Types (self : DataRecord S V).

Definition rec_len self : Z := zlen self.(rec_values).

Definition rec_is_empty self : bool := match self.(rec_values) with [] => true | _ => false end.

(** Pairs up to the shorter list, as [zip]. *)
Definition rec_iter self : list (S * bytes * V) :=
  zip_with (fun field value => (field.(spec), field.(name), value))
    self.(rec_fields) self.(rec_values).
End data_record.
