(* ===== verification/NetflowV9.v ===== *)
(** [netflow_v9/parser.rs]: the NetFlow v9 parser.

    The parser is threaded as explicit state, beside the number of clock
    readings made so far. *)

From Stdlib Require Import ZArith Lia Strings.Byte.
From stdpp Require Import base tactics numbers list sets gmap.
From S2P Require Import TemplateCache.
From S2P Require Import Prelude Nom Parsing Std Crates CommonParser IERegistry DataRecord.
Import TemplateCache(cache_inv, get_at, refines, spec_insert, spec_get, timeout).
#[local] Open Scope Z_scope.

Definition NETFLOW_V9_VERSION : Z := 9.
Definition NETFLOW_V9_TEMPLATE_FLOW_SET_ID : Z := 0.
Definition NETFLOW_V9_OPTIONS_TEMPLATE_FLOW_SET_ID : Z := 1.
Definition FLOW_SET_HEADER_SIZE : Z := 4.

Record TemplateField := mkField { f_type : Z; f_length : Z }.

Module ScopeFieldType.
Inductive ScopeFieldType :=
  | System
  | Interface
  | LineCard
  | Cache
  | Template
  | Unknown (v : Z).

(** The derived [FromPrimitive], [IntoPrimitive] and [Display]. *)
Definition from (v : Z) : ScopeFieldType :=
  if v =? 1 then System else if v =? 2 then Interface else if v =? 3 then LineCard
  else if v =? 4 then Cache else if v =? 5 then Template else Unknown v.

Definition into (t : ScopeFieldType) : Z :=
  match t with
  | System => 1 | Interface => 2 | LineCard => 3 | Cache => 4 | Template => 5
  | Unknown v => v
  end.

Definition to_string (t : ScopeFieldType) : bytes :=
  match t with
  | System => str "System" | Interface => str "Interface" | LineCard => str "LineCard"
  | Cache => str "Cache" | Template => str "Template" | Unknown _ => str "Unknown"
  end.
End ScopeFieldType.
Export ScopeFieldType(ScopeFieldType).

Record ScopeField := mkScope { s_type : ScopeFieldType; s_length : Z }.

Inductive OptionsTemplateField :=
  | Scope (f : ScopeField)
  | Option (f : TemplateField).

Record TemplateRecord := mkTemplate { t_id : Z; t_fields : list TemplateField }.

Record OptionsTemplateRecord := mkOptionsTemplate {
  o_id : Z;
  o_option_scope_length : Z;
  o_option_length : Z;
  o_fields : list OptionsTemplateField;
}.

Abbreviation ResolvedField := (DataRecord.ResolvedField TemplateField).
Abbreviation Templates := (TemplateCache.TemplateCache ResolvedField).

Module FieldValue.
Section field_value.
Context `{CR : Crates}.

Inductive FieldValue :=
  | Unsigned8 (v : Z)
  | Unsigned16 (v : Z)
  | Unsigned32 (v : Z)
  | Unsigned64 (v : Z)
  | Signed8 (v : Z)
  | Signed16 (v : Z)
  | Signed32 (v : Z)
  | Signed64 (v : Z)
  | Float32 (v : Z)
  | Float64 (v : Z)
  | MacAddress (v : MacAddr6)
  | OctetArray (v : bytes)
  | String (v : bytes)
  | DateTimeSeconds (v : DateTime)
  | DateTimeMilliseconds (v : DateTime)
  | DateTimeMicroseconds (v : DateTime)
  | DateTimeNanoseconds (v : DateTime)
  | Ipv4Address (v : Z)
  | Ipv6Address (v : Z)
  | Null.
End field_value.
End FieldValue.
Export FieldValue(FieldValue).

Record NetflowV9Parser := mkParser {
  ie_registry : IERegistry;
  templates : Templates;
  options_templates : Templates;
}.

Section parser.
Context `{NM : Nom} `{CR : Crates} `{CK : Clock}.

Abbreviation DataRecord := (DataRecord.DataRecord TemplateField FieldValue).

Inductive Record_ :=
  | Template (t : TemplateRecord)
  | OptionsTemplate (t : OptionsTemplateRecord)
  | Data (r : DataRecord)
  | OptionsData (r : DataRecord).

Record FlowSet := mkFlowSet { fs_id : Z; fs_length : Z; fs_records : list Record_ }.

Record Header := mkHeader {
  h_version : Z;
  h_count : Z;
  h_system_uptime : Z;
  h_unix_seconds : DateTime;
  h_sequence_number : Z;
  h_source_id : Z;
}.

Record NetFlowV9Packet := mkPacket { p_header : Header; p_flow_sets : list FlowSet }.

Definition new (ie_registry : IERegistry) (timeout : Z) (reads : nat) : nat * NetflowV9Parser :=
  let '(reads, templates) := TemplateCache.new timeout reads in
  let '(reads, options_templates) := TemplateCache.new timeout reads in
  (reads, mkParser ie_registry templates options_templates).

Definition default_parser (reads : nat) : nat * NetflowV9Parser :=
  new default_registry (from_mins 10) reads.

Definition parse_header (input : bytes) : IResult Header :=
  let? (input, version) := verify_version input NETFLOW_V9_VERSION in
  let? (input, count) := be_u16 input in
  let? (input, system_uptime) := be_u32 input in
  let? (input, unix_seconds) := timestamp_secs input in
  let? (input, sequence_number) := be_u32 input in
  let? (input, source_id) := be_u32 input in
  Ok (input, mkHeader version count system_uptime unix_seconds sequence_number source_id).

Definition parse_template_field (input : bytes) : IResult TemplateField :=
  let? (input, type) := be_u16 input in
  let? (input, length) := be_u16 input in
  Ok (input, mkField type length).

Definition parse_template_record (input : bytes) : IResult TemplateRecord :=
  let? (input, id) := be_u16 input in
  let? (input, field_count) := be_u16 input in
  let? (input, fields) := count parse_template_field field_count input in
  Ok (input, mkTemplate id fields).

Definition parse_scope_field (input : bytes) : IResult ScopeField :=
  let? (input, type) := nom_map be_u16 ScopeFieldType.from input in
  let? (input, length) := be_u16 input in
  Ok (input, mkScope type length).

Definition parse_options_template_record (input : bytes) : IResult OptionsTemplateRecord :=
  let? (input, id) := be_u16 input in
  let? (input, option_scope_length) := be_u16 input in
  let? (input, option_length) := be_u16 input in
  let? (input, scope) :=
    map_parser_fn (nom_take option_scope_length) (many0_fn (nom_map parse_scope_field Scope)) input in
  let? (input, options) :=
    map_parser_fn (nom_take option_length) (many0_fn (nom_map parse_template_field Option)) input in
  Ok (input, mkOptionsTemplate id option_scope_length option_length (scope ++ options)).

(** ** Resolving templates against the registry *)

Definition from_registry (registry : IERegistry) (type length : Z) : ResolvedField :=
  let '(data_type, name) :=
    match lookup registry type None with
    | None => (DataType.OctetArray, show type)
    | Some ie => (ie.(ie_data_type), ie.(ie_name))
    end in
  mkResolved (mkField type length) data_type name.

Definition TemplateRecord_resolve (self : TemplateRecord) (registry : IERegistry)
    : list ResolvedField :=
  (fun field => from_registry registry field.(f_type) field.(f_length)) <$> self.(t_fields).

Definition OptionsTemplateRecord_resolve (self : OptionsTemplateRecord) (registry : IERegistry)
    : list ResolvedField :=
  (fun field =>
     match field with
     | Scope scope =>
         mkResolved (mkField (ScopeFieldType.into scope.(s_type)) scope.(s_length))
           DataType.Unsigned (ScopeFieldType.to_string scope.(s_type))
     | Option option => from_registry registry option.(f_type) option.(f_length)
     end) <$> self.(o_fields).

(** ** Values *)

(** The [match] of the source on the pair of type and length, by type first. *)
Definition parse_field_value (input : bytes) (data_type : DataType) (length : Z)
    : IResult FieldValue :=
  let len_is n := length =? n in
  let reduced := (5 <=? length) && (length <=? 7) in
  let otherwise := nom_map (vector length) FieldValue.OctetArray input in
  if len_is 0 then Ok (input, FieldValue.Null) else
  match data_type with
  | DataType.Unsigned =>
      if len_is 1 then nom_map be_u8 FieldValue.Unsigned8 input
      else if len_is 2 then nom_map be_u16 FieldValue.Unsigned16 input
      else if len_is 4 then nom_map be_u32 FieldValue.Unsigned32 input
      else if len_is 8 then nom_map be_u64 FieldValue.Unsigned64 input
      else if len_is 3 then nom_map be_u24 FieldValue.Unsigned32 input
      else if reduced then nom_map (be_uint length) FieldValue.Unsigned64 input
      else otherwise
  | DataType.Signed =>
      if len_is 1 then nom_map be_i8 FieldValue.Signed8 input
      else if len_is 2 then nom_map be_i16 FieldValue.Signed16 input
      else if len_is 4 then nom_map be_i32 FieldValue.Signed32 input
      else if len_is 8 then nom_map be_i64 FieldValue.Signed64 input
      else if len_is 3 then nom_map be_i24 FieldValue.Signed32 input
      else if reduced then nom_map (be_int length) FieldValue.Signed64 input
      else otherwise
  | DataType.Float =>
      if len_is 4 then nom_map be_f32 FieldValue.Float32 input
      else if len_is 8 then nom_map be_f64 FieldValue.Float64 input
      else otherwise
  | DataType.MacAddress =>
      if len_is 6 then nom_map macaddr6 FieldValue.MacAddress input else otherwise
  | DataType.Ipv4Address =>
      if len_is 4 then nom_map ipv4_addr FieldValue.Ipv4Address input else otherwise
  | DataType.Ipv6Address =>
      if len_is 16 then nom_map ipv6_addr FieldValue.Ipv6Address input else otherwise
  | DataType.String =>
      nom_map (string length)
        (fun v => match v with Some v => FieldValue.String v | None => FieldValue.Null end) input
  | DataType.DateTimeSeconds =>
      if len_is 4 then nom_map timestamp_secs FieldValue.DateTimeSeconds input else otherwise
  | DataType.DateTimeMilliseconds =>
      if len_is 8 then nom_map timestamp_millis
        (fun v => match v with
                  | Some v => FieldValue.DateTimeMilliseconds v
                  | None => FieldValue.Null
                  end) input
      else otherwise
  | DataType.DateTimeMicroseconds =>
      if len_is 8 then nom_map timestamp_micros FieldValue.DateTimeMicroseconds input else otherwise
  | DataType.DateTimeNanoseconds =>
      if len_is 8 then nom_map timestamp_nanos FieldValue.DateTimeNanoseconds input else otherwise
  | _ => otherwise
  end.

(** The values of one record: the [for] loop over the template's fields. *)
Fixpoint parse_data_record (input : bytes) (fields : list ResolvedField)
    : IResult (list FieldValue) :=
  match fields with
  | [] => Ok (input, [])
  | field :: fields =>
      let? (input, value) :=
        parse_field_value input field.(data_type) field.(spec).(f_length) in
      let? (input, values) := parse_data_record input fields in
      Ok (input, value :: values)
  end.

(** ** Flow sets *)

(** The records of a data flow set under the template's [fields]. *)
Definition decode_records (fields : list ResolvedField) (wrap : DataRecord -> Record_)
    (input : bytes) : IResult (list Record_) :=
  match fields with
  | [] => Ok (input, [])
  | _ =>
      let? (input, records) :=
        many0_fn (nom_map (fun i => parse_data_record i fields)
                    (fun values => from_template fields values)) input in
      Ok (input, wrap <$> records)
  end.

Definition parse_templated_records (self : NetflowV9Parser) (reads : nat) (input : bytes)
    (source_id template_id : Z) : nat * IResult (list Record_) :=
  let key := (source_id, template_id) in
  let '(reads, t) := TemplateCache.get self.(templates) key reads in
  match t with
  | Some t => (reads, decode_records t Data input)
  | None =>
      let '(reads, t) := TemplateCache.get self.(options_templates) key reads in
      match t with
      | Some t => (reads, decode_records t OptionsData input)
      | None => (reads, Ok (input, []))
      end
  end.

(** The [for] loop that stores templates, given their keys and fields. *)
Definition insert_all (cache : Templates) (entries : list (Z * list ResolvedField)) (source_id : Z)
    (reads : nat) : nat * Templates :=
  fold_left (fun '(reads, cache) '(id, fields) =>
    TemplateCache.insert cache (source_id, id) fields reads) entries (reads, cache).

Definition parse_records (source_id flow_set_id : Z)
    : FnMut (nat * NetflowV9Parser) (list Record_) := fun '(reads, self) input =>
  if flow_set_id =? NETFLOW_V9_TEMPLATE_FLOW_SET_ID then
    match many0_fn parse_template_record input with
    | Err e => (reads, self, Err e)
    | Ok (input, ts) =>
        let '(reads, cache) := insert_all self.(templates)
          ((fun t => (t.(t_id), TemplateRecord_resolve t self.(ie_registry))) <$> ts)
          source_id reads in
        (reads, mkParser self.(ie_registry) cache self.(options_templates),
         Ok (input, Template <$> ts))
    end
  else if flow_set_id =? NETFLOW_V9_OPTIONS_TEMPLATE_FLOW_SET_ID then
    match many0_fn parse_options_template_record input with
    | Err e => (reads, self, Err e)
    | Ok (input, ts) =>
        let '(reads, cache) := insert_all self.(options_templates)
          ((fun t => (t.(o_id), OptionsTemplateRecord_resolve t self.(ie_registry))) <$> ts)
          source_id reads in
        (reads, mkParser self.(ie_registry) self.(templates) cache,
         Ok (input, OptionsTemplate <$> ts))
    end
  else
    let '(reads, r) := parse_templated_records self reads input source_id flow_set_id in
    (reads, self, r).

Definition parse_flow_set (source_id : Z) : FnMut (nat * NetflowV9Parser) FlowSet :=
  fun self input =>
    let* self, (input, id) := (self, be_u16 input) in
    let* self, (input, length) := (self, be_u16 input) in
    if length <? FLOW_SET_HEADER_SIZE then (self, fail input)
    else
      let value_length := length - FLOW_SET_HEADER_SIZE in
      let* self, (input, records) :=
        map_parser (nom_take value_length) (parse_records source_id id) self input in
      (self, Ok (input, mkFlowSet id length records)).

Definition parse : FnMut (nat * NetflowV9Parser) NetFlowV9Packet := fun self input =>
  let* self, (input, header) := (self, parse_header input) in
  let* self, (input, flow_sets) := many0 (parse_flow_set header.(h_source_id)) self input in
  (self, Ok (input, mkPacket header flow_sets)).
End parser.

(** ** Values *)

Section values.
Context `{NM : Nom} `{CR : Crates}.

(** What the octets [c] of a field of type [dt] decode to. *)
Definition value_spec (dt : DataType) (c : bytes) (v : FieldValue) : Prop :=
  let n := zlen c in
  let raw := v = FieldValue.OctetArray c in
  if n =? 0 then v = FieldValue.Null else
  match dt with
  | DataType.Unsigned =>
      if n <=? 8 then
        v = (if n =? 1 then FieldValue.Unsigned8 else if n =? 2 then FieldValue.Unsigned16
             else if n <=? 4 then FieldValue.Unsigned32 else FieldValue.Unsigned64) (be_value c)
      else raw
  | DataType.Signed =>
      if n <=? 8 then
        v = (if n =? 1 then FieldValue.Signed8 else if n =? 2 then FieldValue.Signed16
             else if n <=? 4 then FieldValue.Signed32 else FieldValue.Signed64)
              (to_signed (8 * n) (be_value c))
      else raw
  | DataType.Float =>
      if n =? 4 then v = FieldValue.Float32 (be_value c)
      else if n =? 8 then v = FieldValue.Float64 (be_value c) else raw
  | DataType.MacAddress => if n =? 6 then v = FieldValue.MacAddress (MacAddr6_from c) else raw
  | DataType.Ipv4Address => if n =? 4 then v = FieldValue.Ipv4Address (be_value c) else raw
  | DataType.Ipv6Address => if n =? 16 then v = FieldValue.Ipv6Address (be_value c) else raw
  | DataType.String =>
      v = match from_utf8 c with
          | Some s => FieldValue.String (trim_end_nul s)
          | None => FieldValue.Null
          end
  | DataType.DateTimeSeconds =>
      if n =? 4 then exists d, v = FieldValue.DateTimeSeconds d /\ timestamp d = be_value c /\
        timestamp_subsec_nanos d = 0
      else raw
  | DataType.DateTimeMilliseconds =>
      if n =? 8 then
        v = match (if decide (be_value c < 2 ^ 63) then from_timestamp_millis (be_value c) else None) with
            | Some d => FieldValue.DateTimeMilliseconds d
            | None => FieldValue.Null
            end
      else raw
  | DataType.DateTimeMicroseconds =>
      if n =? 8 then exists d, v = FieldValue.DateTimeMicroseconds d /\
        timestamp d = be_value (take 4 c) - NTP_UNIX_EPOCH_DIFF /\
        timestamp_subsec_nanos d = be_value (drop 4 c) * NANOS / 2 ^ 32
      else raw
  | DataType.DateTimeNanoseconds =>
      if n =? 8 then exists d, v = FieldValue.DateTimeNanoseconds d /\
        timestamp d = be_value (take 4 c) - NTP_UNIX_EPOCH_DIFF /\
        timestamp_subsec_nanos d = be_value (drop 4 c) * NANOS / 2 ^ 32
      else raw
  | _ => raw
  end.
End values.

Section value_facts.
Context `{NM : Nom} `{CR : Crates}.

(** Splits the tests on the length, then reads the value of each branch. *)
Ltac split_length :=
  repeat lazymatch goal with
  | |- reads _ (fun i => if ?x =? ?y then _ else _) _ => destruct (Z.eqb_spec x y); [subst x|]
  | |- reads _ (fun i => if ?b then _ else _) _ => destruct b eqn:?
  end.

Ltac read_value :=
  eapply reads_mono; [eapply reads_map; reads_prim|];
  intros c v Hc (a & Ha & ->); unfold value_spec; rewrite Hc; cbv zeta;
  repeat match goal with
  | |- context [if Z.eqb ?x ?y then _ else _] => destruct (Z.eqb_spec x y); try lia
  | |- context [if Z.leb ?x ?y then _ else _] => destruct (Z.leb_spec x y); try lia
  end;
  try (by rewrite Ha); first [by eauto | rewrite Ha; by destruct (from_utf8 c)].

Lemma reads_field_value dt n :
  0 <= n -> reads n (fun i => parse_field_value i dt n) (value_spec dt).
Proof.
  intros Hn. unfold parse_field_value. cbv zeta.
  destruct (Z.eqb_spec n 0) as [->|H0].
  { eapply reads_mono; [apply reads_ret|]. intros c v Hc ->. unfold value_spec. by rewrite Hc. }
  destruct dt; split_length; read_value.
Qed.

Lemma leaves_field_value dt n i : leaves i (parse_field_value i dt n).
Proof.
  unfold parse_field_value. cbv zeta. destruct (n =? 0); [apply leaves_ok|].
  destruct dt; repeat match goal with |- leaves _ (if ?b then _ else _) => destruct b end;
    auto with leaves.
Qed.

Lemma leaves_data_record fields : forall i, leaves i (parse_data_record i fields).
Proof.
  induction fields as [|f fields IH]; intros i; cbn [parse_data_record]; [apply leaves_ok|].
  apply leaves_bind; [apply leaves_field_value|]. intros i' v.
  apply leaves_bind; [apply IH|]. intros. apply leaves_ok.
Qed.

(** *** Records *)

Definition record_length (fields : list ResolvedField) : Z :=
  zsum (fun f => f.(spec).(f_length)) fields.

(** The values of a record, each from its own octets, in template order. *)
Fixpoint record_spec (fields : list ResolvedField) (c : bytes) (vs : list FieldValue) : Prop :=
  match fields, vs with
  | [], [] => c = []
  | f :: fields, v :: vs =>
      exists c1 c2, c = c1 ++ c2 /\ zlen c1 = f.(spec).(f_length) /\
        value_spec f.(data_type) c1 v /\ record_spec fields c2 vs
  | _, _ => False
  end.

Definition lengths_ok (fields : list ResolvedField) : Prop :=
  Forall (fun f => fits_u 16 f.(spec).(f_length)) fields.

Lemma record_length_nonneg fields : lengths_ok fields -> 0 <= record_length fields.
Proof.
  unfold record_length. induction 1 as [|f fields Hf _ IH]; [done|].
  rewrite zsum_cons. unfold fits_u in Hf. lia.
Qed.

Lemma reads_data_record fields :
  lengths_ok fields ->
  reads (record_length fields) (fun i => parse_data_record i fields) (record_spec fields).
Proof.
  induction fields as [|f fields IH]; intros Hl.
  - eapply reads_mono; [apply reads_ret|]. intros c vs Hc ->.
    change (record_length []) with 0 in Hc. apply nil_length_inv. unfold zlen in Hc. lia.
  - apply Forall_cons in Hl as [Hf Hl]. pose proof (record_length_nonneg _ Hl).
    change (record_length (f :: fields)) with (f.(spec).(f_length) + record_length fields).
    eapply reads_mono.
    + apply (reads_bind _ (record_length fields) _
        (fun v i => let? (i, vs) := parse_data_record i fields in Ok (i, v :: vs))
        (value_spec f.(data_type)) (fun v c vs => exists vs', vs = v :: vs' /\ record_spec fields c vs'));
        [unfold fits_u in Hf; lia|done|apply reads_field_value; unfold fits_u in Hf; lia|].
      intros v. destruct (IH Hl) as [Hok Herr]. split.
      * intros c i Hc. destruct (Hok c i Hc) as (vs & -> & Hvs). eauto.
      * intros i Hi. by rewrite Herr.
    + intros c vs _ (c1 & c2 & v & -> & Hc1 & Hv & vs' & -> & Hvs). cbn. eauto 10.
Qed.

(** A field of [n] octets takes exactly those octets, whatever its type, and
    its value is what [value_spec] says of them; the parser fails only when
    there are fewer, so an odd length never loses the record's framing. *)
Theorem v9_field_value dt n i :
  0 <= n ->
  (zlen i < n /\ parse_field_value i dt n = Err Error) \/
  (exists c i' v, i = c ++ i' /\ zlen c = n /\ parse_field_value i dt n = Ok (i', v) /\
     value_spec dt c v).
Proof. intros Hn. by apply (reads_at n (fun i => parse_field_value i dt n)), reads_field_value. Qed.
End value_facts.

(** ** Flow sets *)

Section packets.
Context `{NM : Nom} `{CR : Crates} `{CK : Clock}.

Lemma leaves_decode_records fields wrap i : leaves i (decode_records fields wrap i).
Proof.
  unfold decode_records. destruct fields as [|f fields]; [apply leaves_ok|].
  apply leaves_bind; [|intros; apply leaves_ok].
  apply leaves_many0. intros j. apply leaves_map, leaves_data_record.
Qed.

Lemma leaves_template_field i : leaves i (parse_template_field i).
Proof. unfold parse_template_field. auto 6 with leaves. Qed.

Lemma leaves_scope_field i : leaves i (parse_scope_field i).
Proof. unfold parse_scope_field. auto 6 with leaves. Qed.

Lemma leaves_template_record i : leaves i (parse_template_record i).
Proof.
  unfold parse_template_record. apply leaves_bind; [auto with leaves|]. intros i1 id.
  eapply wp_mono; [|intros x Hx; exact Hx]. apply wp_bind, wp_be_u16. intros i2 n -> Hn.
  eapply leaves_suffix; [apply suffix_app_r; reflexivity|].
  apply leaves_bind; [|intros; apply leaves_ok].
  apply leaves_count; [unfold fits_u in Hn; lia|apply leaves_template_field].
Qed.

Lemma leaves_options_template_record i : leaves i (parse_options_template_record i).
Proof.
  unfold parse_options_template_record.
  repeat (apply leaves_bind; [first [apply leaves_u16|apply leaves_map_parser]|intros ? ?]);
    auto with leaves; intros; apply leaves_many0; intros; apply leaves_map;
    first [apply leaves_scope_field|apply leaves_template_field].
Qed.

Lemma leaves_parse_records sid id st i : leaves i (parse_records sid id st i).2.
Proof.
  destruct st as [reads self]. unfold parse_records.
  destruct (id =? _); [|destruct (id =? _)].
  - pose proof (leaves_many0 parse_template_record i leaves_template_record) as H.
    destruct (many0_fn _ i) as [[i' ts]|e]; [|exact H].
    destruct (insert_all _ _ _ _). exact H.
  - pose proof (leaves_many0 parse_options_template_record i leaves_options_template_record) as H.
    destruct (many0_fn _ i) as [[i' ts]|e]; [|exact H].
    destruct (insert_all _ _ _ _). exact H.
  - unfold parse_templated_records.
    destruct (TemplateCache.get _ _ _) as [r1 [t|]]; [apply leaves_decode_records|].
    destruct (TemplateCache.get _ _ _) as [r2 [t|]]; [apply leaves_decode_records|].
    apply leaves_ok.
Qed.

(** A flow set's octets: its header, and as many more as its length says,
    which alone decide its records. *)
Definition flow_set_octets (c body : bytes) (fs : FlowSet) : Prop :=
  c = be_bytes 2 fs.(fs_id) ++ be_bytes 2 fs.(fs_length) ++ body /\
  fits_u 16 fs.(fs_id) /\ fits_u 16 fs.(fs_length) /\ zlen c = fs.(fs_length).

Lemma swp_flow_set sid st i :
  swp (parse_flow_set sid st i) (fun st' '(i', fs) =>
    exists c body rest, i = c ++ i' /\ flow_set_octets c body fs /\
      parse_records sid fs.(fs_id) st body = (st', Ok (rest, fs.(fs_records)))) (fun _ => True).
Proof.
  unfold parse_flow_set. apply swp_pure; [done|]. apply wp_be_u16. intros i1 id -> Hid.
  apply swp_pure; [done|]. apply wp_be_u16. intros i2 len -> Hlen.
  destruct (Z.ltb_spec len FLOW_SET_HEADER_SIZE) as [|H4].
  { apply swp_lift; [done|]. apply wp_fail. }
  unfold FLOW_SET_HEADER_SIZE in *.
  apply swp_bind, swp_map_parser; [done|].
  apply wp_take; [lia|]. intros i' body -> Hbody.
  pose proof (leaves_parse_records sid id st body) as Hl.
  destruct (parse_records sid id st body) as [st' [[rest rs]|e]] eqn:E; cbn in *; [|auto].
  exists (be_bytes 2 id ++ be_bytes 2 len ++ body), body, rest.
  rewrite <- !app_assoc. unfold flow_set_octets. cbn [fs_id fs_length fs_records].
  rewrite !zlen_app, !zlen_be_bytes. split_and!; auto; lia.
Qed.

Lemma flow_set_consuming sid : consuming (parse_flow_set sid).
Proof.
  intros st i. pose proof (swp_flow_set sid st i) as H.
  destruct (parse_flow_set sid st i) as [st' [[i' fs]|e]]; cbn in H; [|by destruct H].
  destruct H as (c & body & rest & -> & (-> & _ & _ & Hlen) & _).
  rewrite !zlen_app, !zlen_be_bytes. pose proof (zlen_nonneg body). lia.
Qed.

Definition header_octets (h : Header) : bytes :=
  be_bytes 2 h.(h_version) ++ be_bytes 2 h.(h_count) ++ be_bytes 4 h.(h_system_uptime) ++
  be_bytes 4 (timestamp h.(h_unix_seconds)) ++ be_bytes 4 h.(h_sequence_number) ++
  be_bytes 4 h.(h_source_id).

Lemma parse_header_octets i :
  match parse_header i with
  | Ok (i', h) => i = header_octets h ++ i' /\ h.(h_version) = NETFLOW_V9_VERSION
  | Err e => e = Error /\ (zlen i < 20 \/ be_value (take 2 i) <> NETFLOW_V9_VERSION)
  end.
Proof.
  assert (Hb : forall n c, zlen c = Z.of_nat n -> be_bytes n (be_value c) = c).
  { intros n c Hc. apply be_bytes_be_value'. unfold zlen in Hc. lia. }
  unfold parse_header, verify_version. rewrite verify_law.
  read_at 2 be_u16 i; [split; [done|lia]|]. subst v.
  destruct (Z.eqb_spec (be_value c) NETFLOW_V9_VERSION) as [Hv|Hv].
  2: { split; [done|right]. unfold zlen in Hlen. by rewrite take_app_length' by lia. }
  read_at 2 be_u16 i0; [split; [done|left; rewrite zlen_app; lia]|].
  read_at 4 be_u32 i; [split; [done|left; rewrite !zlen_app; lia]|].
  read_at 4 timestamp_secs i0; [split; [done|left; rewrite !zlen_app; lia]|].
  read_at 4 be_u32 i; [split; [done|left; rewrite !zlen_app; lia]|].
  read_at 4 be_u32 i0; [split; [done|left; rewrite !zlen_app; lia]|].
  split; [|done]. destruct Hval1 as [Hd _]. unfold header_octets. subst. cbn.
  by rewrite Hd, !Hb, <- !app_assoc by done.
Qed.

(** Parsing a packet fails only on a short or foreign header, and then
    changes nothing.  Otherwise the octets split into the header, the flow
    sets, each of the length it announces and decoded from its own octets by
    the state the flow sets before it left, and a rest no flow set can be
    read from. *)
Theorem v9_parse_total st input :
  match parse st input with
  | (st', Err e) => e = Error /\ st' = st /\
      (zlen input < 20 \/ be_value (take 2 input) <> NETFLOW_V9_VERSION)
  | (st', Ok (rest, p)) =>
      p.(p_header).(h_version) = NETFLOW_V9_VERSION /\
      exists chunks st1,
        input = header_octets p.(p_header) ++ concat chunks ++ rest /\
        Forall2 (fun c fs => exists body, flow_set_octets c body fs) chunks p.(p_flow_sets) /\
        rounds (parse_flow_set p.(p_header).(h_source_id)) st (concat chunks ++ rest) st1 rest
          p.(p_flow_sets) /\
        parse_flow_set p.(p_header).(h_source_id) st1 rest = (st', Err Error)
  end.
Proof.
  unfold parse. pose proof (parse_header_octets input) as Hh.
  destruct (parse_header input) as [[i h]|e]; [|naive_solver]. destruct Hh as [-> Hv].
  destruct (many0_rounds (parse_flow_set h.(h_source_id)) st i (flow_set_consuming _))
    as (st1 & st' & rest & l & -> & Hr & Hstop).
  split; [done|].
  destruct (rounds_chunks (parse_flow_set h.(h_source_id))
    (fun c fs => exists body, flow_set_octets c body fs) st i st1 rest l) as (cs & -> & HR).
  - intros s j. pose proof (swp_flow_set h.(h_source_id) s j) as H.
    destruct (parse_flow_set h.(h_source_id) s j) as [? [[? ?]|?]]; cbn in H; naive_solver.
  - done.
  - exists cs, st1. auto.
Qed.

Lemma decode_records_spec fields wrap input :
  lengths_ok fields -> 0 < record_length fields ->
  exists cs records rest,
    decode_records fields wrap input
      = Ok (rest, (fun vs => wrap (from_template fields vs)) <$> records) /\
    input = concat cs ++ rest /\
    Forall2 (fun c vs => zlen c = record_length fields /\ record_spec fields c vs) cs records /\
    zlen records = zlen input / record_length fields /\
    zlen rest = zlen input mod record_length fields.
Proof.
  intros Hl Hk.
  destruct (many0_fn_exact (nom_map (fun i => parse_data_record i fields)
    (fun values => from_template (V := FieldValue) fields values)) (record_length fields)
    (fun c r => exists vs, record_spec fields c vs /\ r = from_template fields vs) input Hk)
    as (cs & l & rest & E & -> & HR & Hrest).
  { apply reads_map. by apply reads_data_record. }
  assert (Hsplit : exists records, l = (fun vs => from_template fields vs) <$> records /\
    Forall2 (fun c vs => zlen c = record_length fields /\ record_spec fields c vs) cs records).
  { clear -HR. induction HR as [|c r cs l (Hc & vs & Hvs & ->) _ (records & -> & IH)].
    - exists []. auto.
    - exists (vs :: records). auto. }
  destruct Hsplit as (records & -> & HR').
  exists cs, records, rest.
  destruct (chunks_div cs rest (record_length fields)) as [H1 H2]; [done| |done|].
  { clear -HR'. induction HR' as [|c vs cs l [Hc _] _ IH]; auto. }
  rewrite <- H1, <- H2. split_and!; try done.
  - unfold decode_records. destruct fields; [done|]. rewrite E. by rewrite <- list_fmap_compose.
  - unfold zlen. by rewrite (Forall2_length _ _ _ HR').
Qed.

Lemma decode_empty_record f fields wrap input :
  lengths_ok (f :: fields) -> record_length (f :: fields) = 0 ->
  decode_records (f :: fields) wrap input = Err Error.
Proof.
  intros Hl H0. unfold decode_records, many0_fn.
  destruct (reads_data_record (f :: fields) Hl) as [Hok _].
  destruct (Hok [] input) as (vs & E & _); [by rewrite H0|].
  rewrite many0_law.
  - unfold many0_step, fn. rewrite nom_map_law. cbn [app] in E. rewrite E. by rewrite Z.eqb_refl.
  - apply fn_shrinking. intros j. apply leaves_map, leaves_data_record.
Qed.

Lemma parse_flow_set_app sid st id body rest :
  fits_u 16 id -> fits_u 16 (4 + zlen body) ->
  parse_flow_set sid st (be_bytes 2 id ++ be_bytes 2 (4 + zlen body) ++ body ++ rest)
  = match parse_records sid id st body with
    | (st, Ok (_, rs)) => (st, Ok (rest, mkFlowSet id (4 + zlen body) rs))
    | (st, Err e) => (st, Err e)
    end.
Proof.
  intros Hid Hlen. unfold parse_flow_set. rewrite !be_u16_app by done.
  pose proof (zlen_nonneg body). unfold FLOW_SET_HEADER_SIZE.
  destruct (Z.ltb_spec (4 + zlen body) 4); [lia|].
  rewrite map_parser_law, nom_take_app by lia.
  by destruct (parse_records sid id st body) as [st' [[i rs]|e]].
Qed.

(** The template of a key with what its records are wrapped in: data templates
    come before options templates. *)
Definition known_template (self : NetflowV9Parser) (key : TemplateKey) (reads reads' : nat)
    (fields : list ResolvedField) (wrap : DataRecord.DataRecord TemplateField FieldValue -> Record_) : Prop :=
  (wrap = Data /\ TemplateCache.get self.(templates) key reads = (reads', Some fields)) \/
  (wrap = OptionsData /\ exists reads1,
     TemplateCache.get self.(templates) key reads = (reads1, None) /\
     TemplateCache.get self.(options_templates) key reads1 = (reads', Some fields)).

(** A data flow set whose data or options template has fields of total length [k > 0] holds
    as many records as [k] divides its octets, in order; each has the
    template's fields and its values are what its own octets decode to, and
    fewer than [k] octets of padding are left out. *)
Theorem v9_data_flow_set sid id self reads reads' fields wrap body rest :
  NETFLOW_V9_OPTIONS_TEMPLATE_FLOW_SET_ID < id -> fits_u 16 id -> fits_u 16 (4 + zlen body) ->
  known_template self (sid, id) reads reads' fields wrap ->
  lengths_ok fields -> 0 < record_length fields ->
  exists cs records pad,
    parse_flow_set sid (reads, self) (be_bytes 2 id ++ be_bytes 2 (4 + zlen body) ++ body ++ rest)
    = (reads', self, Ok (rest, mkFlowSet id (4 + zlen body)
        ((fun vs => wrap (from_template fields vs)) <$> records))) /\
    body = concat cs ++ pad /\
    Forall2 (fun c vs => zlen c = record_length fields /\ record_spec fields c vs) cs records /\
    zlen records = zlen body / record_length fields /\
    zlen pad = zlen body mod record_length fields.
Proof.
  intros H1 Hid Hlen Hget Hl Hk.
  destruct (decode_records_spec fields wrap body Hl Hk) as (cs & records & pad & E & Hrest).
  exists cs, records, pad. split; [|done]. rewrite parse_flow_set_app by done.
  unfold parse_records, NETFLOW_V9_TEMPLATE_FLOW_SET_ID, NETFLOW_V9_OPTIONS_TEMPLATE_FLOW_SET_ID in *.
  destruct (Z.eqb_spec id 0); [lia|]. destruct (Z.eqb_spec id 1); [lia|].
  unfold parse_templated_records.
  destruct Hget as [[-> ->]|(-> & reads1 & -> & ->)]; by rewrite E.
Qed.

(** A data flow set of a template all of whose fields are empty does not
    parse, whatever it holds: [many0] refuses a record parser that consumes
    nothing, so this flow set and all that follow it are left unread. *)
Theorem v9_empty_record_fails sid id self reads reads' f fields body rest :
  NETFLOW_V9_OPTIONS_TEMPLATE_FLOW_SET_ID < id -> fits_u 16 id -> fits_u 16 (4 + zlen body) ->
  TemplateCache.get self.(templates) (sid, id) reads = (reads', Some (f :: fields)) ->
  lengths_ok (f :: fields) -> record_length (f :: fields) = 0 ->
  parse_flow_set sid (reads, self) (be_bytes 2 id ++ be_bytes 2 (4 + zlen body) ++ body ++ rest)
  = (reads', self, Err Error).
Proof.
  intros H1 Hid Hlen Hget Hl H0. rewrite parse_flow_set_app by done.
  unfold parse_records, NETFLOW_V9_TEMPLATE_FLOW_SET_ID, NETFLOW_V9_OPTIONS_TEMPLATE_FLOW_SET_ID in *.
  destruct (Z.eqb_spec id 0); [lia|]. destruct (Z.eqb_spec id 1); [lia|].
  unfold parse_templated_records. rewrite Hget. by rewrite decode_empty_record.
Qed.

(** *** The template caches *)

Definition parser_inv (self : NetflowV9Parser) (t : Z) : Prop :=
  cache_inv self.(templates) t /\ cache_inv self.(options_templates) t.

(** What a parser knows of the sources other than [sid], from [reads] on. *)
Definition same_elsewhere (sid : Z) (st st' : nat * NetflowV9Parser) : Prop :=
  (st.1 <= st'.1)%nat /\ st'.2.(ie_registry) = st.2.(ie_registry) /\
  forall key now, key.1 <> sid -> instant_at st'.1 <= now ->
    get_at st'.2.(templates) key now = get_at st.2.(templates) key now /\
    get_at st'.2.(options_templates) key now = get_at st.2.(options_templates) key now.

Context `{CM : !ClockMonotone CK}.

Lemma same_elsewhere_refl sid st : same_elsewhere sid st st.
Proof. by split_and!. Qed.

Lemma same_elsewhere_trans sid a b c :
  same_elsewhere sid a b -> same_elsewhere sid b c -> same_elsewhere sid a c.
Proof.
  intros (H1 & H2 & H3) (H1' & H2' & H3'). split_and!; [lia|congruence|].
  intros key now Hk Hn. pose proof (instant_mono b.1 c.1 H1').
  destruct (H3 key now Hk) as [? ?]; [lia|]. destruct (H3' key now Hk Hn). split; congruence.
Qed.

Lemma insert_eq (cache : Templates) key fs reads :
  TemplateCache.insert cache key fs reads
  = (S reads, TemplateCache.insert_at cache key fs (instant_at reads)).
Proof. done. Qed.

(** The loop that stores templates, on the flat map of the specification. *)
Definition spec_insert_all (tmo : Z) (m : gmap (Z * Z) (TemplateCache.Entry ResolvedField))
    (entries : list (Z * list ResolvedField)) (source_id : Z) (reads : nat)
    : nat * gmap (Z * Z) (TemplateCache.Entry ResolvedField) :=
  fold_left (fun '(reads, m) '(id, fields) =>
    (S reads, spec_insert tmo m (source_id, id) fields (instant_at reads))) entries (reads, m).

Lemma insert_all_inv sid entries : forall (cache : Templates) reads,
  cache_inv cache (instant_at reads) ->
  let '(reads', cache') := insert_all cache entries sid reads in
  reads' = (reads + length entries)%nat /\ cache_inv cache' (instant_at reads') /\
  cache'.(timeout) = cache.(timeout) /\
  (forall key now, key.1 <> sid -> instant_at reads' <= now ->
     get_at cache' key now = get_at cache key now) /\
  (forall m, refines cache m (instant_at reads) ->
     refines cache' (spec_insert_all cache.(timeout) m entries sid reads).2 (instant_at reads')).
Proof.
  induction entries as [|[id fields] entries IH]; intros cache reads Hi; cbn [insert_all fold_left].
  - cbn. split_and!; auto; lia.
  - rewrite insert_eq. unfold insert_all in IH.
    pose proof (instant_mono reads (S reads) ltac:(lia)) as Hm.
    pose proof (TemplateCache.insert_at_inv cache _ (sid, id) fields _ ltac:(reflexivity) Hi) as Hi'.
    specialize (IH (TemplateCache.insert_at cache (sid, id) fields (instant_at reads)) (S reads)
      ltac:(by eapply TemplateCache.cache_inv_later)).
    destruct (fold_left _ entries _) as [reads' cache']. destruct IH as (-> & Hi'' & Ht & Hg & HR).
    rewrite TemplateCache.timeout_insert_at in Ht. cbn [length].
    split_and!; [lia|done|done| |].
    + intros key now Hk Hn. rewrite Hg by done.
      pose proof (instant_mono reads (S reads + length entries) ltac:(lia)).
      eapply TemplateCache.get_at_insert_other; [reflexivity|done| |lia].
      intros ->. by destruct Hk.
    + intros m Hm'. unfold spec_insert_all. cbn [fold_left].
      rewrite <- (TemplateCache.timeout_insert_at cache (sid, id) fields (instant_at reads)).
      apply HR. eapply TemplateCache.refines_later; [exact Hm|].
      rewrite TemplateCache.timeout_insert_at.
      by eapply TemplateCache.insert_refines; [reflexivity| |].
Qed.

Lemma parser_inv_later self t t' : t <= t' -> parser_inv self t -> parser_inv self t'.
Proof. intros Ht [? ?]. split; by eapply TemplateCache.cache_inv_later. Qed.

Lemma get_reads (cache : Templates) key reads :
  (reads <= (TemplateCache.get cache key reads).1)%nat.
Proof.
  unfold TemplateCache.get. destruct (TemplateCache.find cache key); [|done]. cbn.
  destruct (_ <? _); cbn; lia.
Qed.

Lemma parse_records_elsewhere sid id st i :
  parser_inv st.2 (instant_at st.1) ->
  let st' := (parse_records sid id st i).1 in
  parser_inv st'.2 (instant_at st'.1) /\ same_elsewhere sid st st'.
Proof.
  destruct st as [reads self]. intros [H1 H2]. cbn in H1, H2. unfold parse_records.
  destruct (id =? _); [|destruct (id =? _)].
  - destruct (many0_fn _ i) as [[i' ts]|e]; [|split; [done|apply same_elsewhere_refl]].
    pose proof (insert_all_inv sid
      ((fun t => (t_id t, TemplateRecord_resolve t (ie_registry self))) <$> ts) _ _ H1) as H.
    destruct (insert_all _ _ _ _) as [reads' cache']. destruct H as (-> & Hi & _ & Hg & _).
    pose proof (instant_mono reads (reads + length ts) ltac:(lia)).
    rewrite length_fmap in *.
    split; [split; [done|by eapply TemplateCache.cache_inv_later]|].
    split_and!; cbn; [lia|done|]. intros key now Hk Hn. by rewrite Hg.
  - destruct (many0_fn _ i) as [[i' ts]|e]; [|split; [done|apply same_elsewhere_refl]].
    pose proof (insert_all_inv sid
      ((fun t => (o_id t, OptionsTemplateRecord_resolve t (ie_registry self))) <$> ts) _ _ H2) as H.
    destruct (insert_all _ _ _ _) as [reads' cache']. destruct H as (-> & Hi & _ & Hg & _).
    pose proof (instant_mono reads (reads + length ts) ltac:(lia)).
    rewrite length_fmap in *.
    split; [split; [by eapply TemplateCache.cache_inv_later|done]|].
    split_and!; cbn; [lia|done|]. intros key now Hk Hn. by rewrite Hg.
  - assert (Hr : (reads <= (parse_templated_records self reads i sid id).1)%nat).
    { unfold parse_templated_records. pose proof (get_reads (templates self) (sid, id) reads).
      destruct (TemplateCache.get (templates self) _ _) as [r1 [t|]]; [done|]. cbn in *.
      pose proof (get_reads (options_templates self) (sid, id) r1).
      destruct (TemplateCache.get _ _ _) as [r2 [t|]]; cbn in *; lia. }
    destruct (parse_templated_records _ _ _ _ _) as [reads' r]. cbn in *.
    pose proof (instant_mono _ _ Hr). split; [by eapply parser_inv_later|].
    by split_and!.
Qed.

Lemma new_parser_inv registry tmo reads :
  0 <= tmo -> parser_inv (new registry tmo reads).2 (instant_at (new registry tmo reads).1).
Proof.
  intros Ht. cbn. pose proof (instant_mono reads (S (S reads)) ltac:(lia)).
  pose proof (instant_mono (S reads) (S (S reads)) ltac:(lia)).
  split; cbn; (eapply TemplateCache.cache_inv_later; [|by apply TemplateCache.new_inv]); done.
Qed.

Definition steps_ok (sid : Z) (st st' : nat * NetflowV9Parser) : Prop :=
  parser_inv st.2 (instant_at st.1) ->
  parser_inv st'.2 (instant_at st'.1) /\ same_elsewhere sid st st'.

Lemma steps_ok_refl sid st : steps_ok sid st st.
Proof. intros H. split; [done|apply same_elsewhere_refl]. Qed.

Lemma steps_ok_trans sid a b c : steps_ok sid a b -> steps_ok sid b c -> steps_ok sid a c.
Proof.
  intros H1 H2 Ha. destruct (H1 Ha) as [Hb H]. destruct (H2 Hb) as [Hc H'].
  split; [done|by eapply same_elsewhere_trans].
Qed.

Lemma parse_flow_set_elsewhere sid st i : steps_ok sid st (parse_flow_set sid st i).1.
Proof.
  unfold parse_flow_set.
  destruct (be_u16 i) as [[i1 id]|]; [|apply steps_ok_refl].
  destruct (be_u16 i1) as [[i2 len]|]; [|apply steps_ok_refl].
  destruct (_ <? _); [apply steps_ok_refl|]. rewrite map_parser_law.
  destruct (nom_take _ i2) as [[i3 body]|]; [|apply steps_ok_refl].
  pose proof (parse_records_elsewhere sid id st body) as H. cbv zeta in H.
  destruct (parse_records sid id st body) as [st' [[? ?]|]]; exact H.
Qed.

Lemma rounds_elsewhere sid st i st' i' l :
  rounds (parse_flow_set sid) st i st' i' l -> steps_ok sid st st'.
Proof.
  induction 1 as [st i|st i st1 i1 fs st' i' l E _ IH]; [apply steps_ok_refl|].
  eapply steps_ok_trans; [|exact IH].
  pose proof (parse_flow_set_elsewhere sid st i) as H. by rewrite E in H.
Qed.

Lemma v9_parse_steps st input : exists sid,
  steps_ok sid st (parse st input).1 /\
  forall rest p, (parse st input).2 = Ok (rest, p) -> p.(p_header).(h_source_id) = sid.
Proof.
  unfold parse. destruct (parse_header input) as [[i h]|e]; [|exists 0; by split; [apply steps_ok_refl|]].
  exists h.(h_source_id).
  destruct (many0_rounds (parse_flow_set h.(h_source_id)) st i (flow_set_consuming _))
    as (st1 & st2 & i' & l & -> & Hr & Hstop). cbn. split; [|by intros rest p [= <- <-]].
  apply (steps_ok_trans _ _ st1); [by eapply rounds_elsewhere|].
  pose proof (parse_flow_set_elsewhere h.(h_source_id) st1 i') as H. by rewrite Hstop in H.
Qed.

(** Whatever a packet holds, it leaves the templates of the other sources as
    they were: every later lookup under another source ID gives what it would
    have given without the packet, and the caches stay well-formed. *)
Theorem v9_source_isolation st input st' rest p :
  parser_inv st.2 (instant_at st.1) ->
  parse st input = (st', Ok (rest, p)) ->
  parser_inv st'.2 (instant_at st'.1) /\ same_elsewhere p.(p_header).(h_source_id) st st'.
Proof.
  intros Hi E. destruct (v9_parse_steps st input) as (sid & H & Hs). rewrite E in H, Hs.
  rewrite (Hs _ _ eq_refl). by apply H.
Qed.

(** *** Template flow sets *)

Definition template_octets (t : TemplateRecord) : bytes :=
  be_bytes 2 t.(t_id) ++ be_bytes 2 (zlen t.(t_fields)) ++
  concat ((fun f => be_bytes 2 f.(f_type) ++ be_bytes 2 f.(f_length)) <$> t.(t_fields)).

Definition template_wf (t : TemplateRecord) : Prop :=
  fits_u 16 t.(t_id) /\ fits_u 16 (zlen t.(t_fields)) /\
  Forall (fun f => fits_u 16 f.(f_type) /\ fits_u 16 f.(f_length)) t.(t_fields).

#[export] Instance template_wf_dec t : Decision (template_wf t).
Proof. unfold template_wf. apply _. Defined.

Lemma parse_template_octets t i :
  template_wf t -> parse_template_record (template_octets t ++ i) = Ok (i, t).
Proof.
  intros (Hid & Hn & Hf). unfold parse_template_record, template_octets. rewrite <- !app_assoc.
  rewrite !be_u16_app by done.
  rewrite (count_concat parse_template_field
    (fun f => be_bytes 2 f.(f_type) ++ be_bytes 2 f.(f_length)) t.(t_fields)); [by destruct t|done|].
  intros f j Hin. rewrite Forall_forall in Hf. destruct (Hf f Hin) as [H1 H2].
  unfold parse_template_field. rewrite <- app_assoc, !be_u16_app by done. by destruct f.
Qed.

Lemma parse_template_short i : zlen i < 4 -> parse_template_record i = Err Error.
Proof.
  intros Hi. unfold parse_template_record. read_at 2 be_u16 i; [done|].
  read_at 2 be_u16 i0; [done|]. rewrite !zlen_app in Hi. pose proof (zlen_nonneg i). lia.
Qed.

(** A template flow set gives back the templates written in it, whatever
    padding of less than four octets follows, and stores them resolved
    against the registry in wire order: afterwards the cache answers as the
    flat map with these insertions does. *)
Theorem v9_template_flow_set sid st ts pad m :
  parser_inv st.2 (instant_at st.1) -> refines st.2.(templates) m (instant_at st.1) ->
  Forall template_wf ts -> zlen pad < 4 ->
  exists cache,
    let reads' := (st.1 + length ts)%nat in
    let entries :=
      (fun t => (t.(t_id), TemplateRecord_resolve t st.2.(ie_registry))) <$> ts in
    parse_records sid NETFLOW_V9_TEMPLATE_FLOW_SET_ID st (concat (template_octets <$> ts) ++ pad)
    = (reads', mkParser st.2.(ie_registry) cache st.2.(options_templates),
       Ok (pad, Template <$> ts)) /\
    refines cache (spec_insert_all st.2.(templates).(timeout) m entries sid st.1).2
      (instant_at reads') /\
    cache_inv cache (instant_at reads').
Proof.
  destruct st as [reads self]. intros [Hi _] HR Hts Hpad. cbn [fst snd] in *.
  set (entries := (fun t => (t_id t, TemplateRecord_resolve t (ie_registry self))) <$> ts).
  pose proof (insert_all_inv sid entries _ _ Hi) as H.
  destruct (insert_all (templates self) entries sid reads) as [reads' cache] eqn:E.
  destruct H as (-> & Hi' & _ & _ & HR').
  assert (Hl : length entries = length ts) by apply length_fmap. rewrite Hl in *.
  exists cache. cbv zeta. split_and!; [|by apply HR'|done].
  unfold parse_records, NETFLOW_V9_TEMPLATE_FLOW_SET_ID. cbn [Z.eqb].
  rewrite (many0_fn_concat parse_template_record template_octets ts pad).
  - fold entries. by rewrite E.
  - apply leaves_template_record.
  - intros t i Ht. apply parse_template_octets. rewrite Forall_forall in Hts. auto.
  - intros t _. unfold template_octets. rewrite !zlen_app, !zlen_be_bytes.
    pose proof (zlen_nonneg (concat ((fun f => be_bytes 2 (f_type f) ++ be_bytes 2 (f_length f))
      <$> t_fields t))). lia.
  - by apply parse_template_short.
Qed.
End packets.

(** ** The properties at concrete inputs *)

Section samples.
#[local] Instance sample_nom : Nom := nom_std.
#[local] Instance sample_crates : Crates := crates_std.
#[local] Instance sample_clock : Clock := fun n => 1000 * Z.of_nat n.

#[local] Instance sample_clock_mono : ClockMonotone sample_clock.
Proof. intros m n H. unfold instant_at, sample_clock. lia. Qed.

Definition sample_registry : IERegistry :=
  add_element (add_element IERegistry.new 1 None (str "octetDeltaCount") DataType.Unsigned)
    4 None (str "protocolIdentifier") DataType.Unsigned.

Definition sample_parser : nat * NetflowV9Parser := new sample_registry (from_mins 10) 0%nat.

Definition sample_template : TemplateRecord := mkTemplate 256 [mkField 1 4; mkField 4 1].

(** Two records of five octets and a padding octet. *)
Definition sample_data : bytes :=
  be_bytes 4 42 ++ be_bytes 1 6 ++ be_bytes 4 43 ++ be_bytes 1 17 ++ be_bytes 1 0.

Definition sample_header : bytes :=
  be_bytes 2 9 ++ be_bytes 2 2 ++ be_bytes 4 1234 ++ be_bytes 4 1_700_000_000 ++ be_bytes 4 5 ++
  be_bytes 4 7.

Definition sample_packet : bytes :=
  sample_header ++
  be_bytes 2 0 ++ be_bytes 2 16 ++ template_octets sample_template ++
  be_bytes 2 256 ++ be_bytes 2 15 ++ sample_data.

Definition sample_fields : list ResolvedField :=
  TemplateRecord_resolve sample_template sample_registry.

Definition sample_cache : Templates :=
  TemplateCache.insert_at sample_parser.2.(templates) (7, 256) sample_fields 2000.

Lemma v9_field_value_witness :
  exists c i' v, [x01; x02; x03; x04] = c ++ i' /\ zlen c = 3 /\
    parse_field_value [x01; x02; x03; x04] DataType.Unsigned 3 = Ok (i', v) /\
    value_spec DataType.Unsigned c v.
Proof.
  destruct (v9_field_value DataType.Unsigned 3 [x01; x02; x03; x04]) as [[H _]|H]; [lia| |exact H].
  by vm_compute in H.
Defined.

Lemma v9_data_flow_set_witness :
  exists cs records pad,
    parse_flow_set 7 (3%nat, mkParser sample_registry sample_cache sample_parser.2.(options_templates))
      (be_bytes 2 256 ++ be_bytes 2 (4 + zlen sample_data) ++ sample_data ++ [])
    = (4%nat, mkParser sample_registry sample_cache sample_parser.2.(options_templates),
       Ok ([], mkFlowSet 256 (4 + zlen sample_data)
        ((fun vs => Data (from_template sample_fields vs)) <$> records))) /\
    sample_data = concat cs ++ pad /\
    Forall2 (fun c vs => zlen c = record_length sample_fields /\ record_spec sample_fields c vs)
      cs records /\
    zlen records = zlen sample_data / record_length sample_fields /\
    zlen pad = zlen sample_data mod record_length sample_fields.
Proof.
  apply v9_data_flow_set; [done|done|done|left; split; [reflexivity|by vm_compute]| |done].
  apply (bool_decide_unpack _). by vm_compute.
Defined.

Lemma v9_empty_record_fails_witness :
  let fields := [from_registry sample_registry 1 0] in
  let cache := TemplateCache.insert_at sample_parser.2.(templates) (7, 256) fields 2000 in
  parse_flow_set 7 (3%nat, mkParser sample_registry cache sample_parser.2.(options_templates))
    (be_bytes 2 256 ++ be_bytes 2 (4 + zlen sample_data) ++ sample_data ++ [])
  = (4%nat, mkParser sample_registry cache sample_parser.2.(options_templates), Err Error).
Proof.
  intros fields cache. apply (v9_empty_record_fails _ _ _ _ _ (from_registry sample_registry 1 0) []);
    [done|done|done|by vm_compute| |done].
  apply (bool_decide_unpack _). by vm_compute.
Defined.

Lemma sample_parser_inv : parser_inv sample_parser.2 (instant_at sample_parser.1).
Proof. by apply new_parser_inv. Qed.

(** Parsing the sample under source 7 decodes both records, and leaves source
    8 without a template. *)
Lemma v9_source_isolation_witness :
  exists st' p, parse sample_parser sample_packet = (st', Ok ([], p)) /\
    (fun fs => (fs.(fs_id), length fs.(fs_records))) <$> p.(p_flow_sets) = [(0, 1%nat); (256, 2%nat)] /\
    get_at st'.2.(templates) (7, 256) 5000 = Some sample_fields /\
    same_elsewhere 7 sample_parser st'.
Proof.
  assert (Hc : match parse sample_parser sample_packet with
    | (st', Ok (rest, p)) => rest = [] /\ h_source_id (p_header p) = 7 /\
        (fun fs => (fs_id fs, length (fs_records fs))) <$> p_flow_sets p
        = [(0, 1%nat); (256, 2%nat)] /\
        get_at (templates st'.2) (7, 256) 5000 = Some sample_fields
    | _ => False
    end) by (vm_compute; auto).
  pose proof (v9_source_isolation sample_parser sample_packet) as H.
  destruct (parse sample_parser sample_packet) as [st' [[rest p]|e]]; [|by destruct Hc].
  destruct Hc as (-> & Hs & Hf & Hg).
  destruct (H st' [] p sample_parser_inv eq_refl) as [_ H']. rewrite Hs in H'.
  exists st', p. split; [reflexivity|]. auto.
Defined.

Lemma v9_template_flow_set_witness :
  exists cache,
    parse_records 7 NETFLOW_V9_TEMPLATE_FLOW_SET_ID sample_parser
      (concat (template_octets <$> [sample_template]) ++ [x00; x00])
    = ((sample_parser.1 + 1)%nat, mkParser sample_registry cache sample_parser.2.(options_templates),
       Ok ([x00; x00], [Template sample_template])) /\
    get_at cache (7, 256) 4000 = Some sample_fields.
Proof.
  destruct (v9_template_flow_set 7 sample_parser [sample_template] [x00; x00] ∅
    sample_parser_inv) as (cache & E & HR & _).
  - intros k. unfold TemplateCache.find. cbn. by rewrite !lookup_empty.
  - apply (bool_decide_unpack _). by vm_compute.
  - done.
  - exists cache. split; [exact E|].
    apply (TemplateCache.refines_later _ _ _ 4000) in HR; [|done].
    rewrite (TemplateCache.get_at_refines _ _ _ _ HR).
    assert (Ht : timeout cache = from_mins 10).
    { apply (f_equal (fun r => timeout r.1.2.(templates))) in E. symmetry in E. exact E. }
    rewrite Ht. by vm_compute.
Defined.
End samples.
