(* ===== verification/IpfixTypes.v ===== *)
(** The data types of [ipfix/parser.rs]: messages, sets, records, field
    specifiers and values. *)

From Stdlib Require Import ZArith Lia Strings.Byte.
From stdpp Require Import base tactics numbers list gmap.
From S2P Require Import TemplateCache.
From S2P Require Import Prelude Nom Std Crates IERegistry InformationElement DataRecord.
#[local] Open Scope Z_scope.

Definition IPFIX_VERSION : Z := 10.
Definition IPFIX_TEMPLATE_SET_ID : Z := 2.
Definition IPFIX_OPTIONS_TEMPLATE_SET_ID : Z := 3.
(** [256..=65535] contains a [u16]. *)
Definition IPFIX_VALID_TEMPLATE_ID (id : Z) : bool := (256 <=? id) && (id <=? 65535).
Definition IPFIX_VARIABLE_LENGTH : Z := 0xffff.
Definition SET_HEADER_SIZE : Z := 4.
Definition IPFIX_HEADER_SIZE : Z := 16.
Definition MAX_LIST_DEPTH : Z := 8.

Record FieldSpecifier := mkSpec {
  enterprise_bit : bool;
  information_element_identifier : Z;
  field_length : Z;
  enterprise_number : option Z;
}.

Definition iana (information_element_identifier field_length : Z) : FieldSpecifier :=
  mkSpec false information_element_identifier field_length None.

Definition from_ie (information_element : InformationElement) (field_length : Z) : FieldSpecifier :=
  iana (ie_discriminant information_element) field_length.

Definition enterprise (information_element_identifier field_length enterprise_number : Z)
    : FieldSpecifier :=
  mkSpec true information_element_identifier field_length (Some enterprise_number).

Abbreviation ResolvedField := (DataRecord.ResolvedField FieldSpecifier).
Abbreviation Templates := (TemplateCache.TemplateCache ResolvedField).

Module Semantic.
Inductive Semantic := NoneOf | ExactlyOneOf | OneOrMoreOf | AllOf | Ordered | Undefined.

(** The derived [FromPrimitive], with its default, and [IntoPrimitive]. *)
Definition from (v : Z) : Semantic :=
  if v =? 0 then NoneOf else if v =? 1 then ExactlyOneOf else if v =? 2 then OneOrMoreOf
  else if v =? 3 then AllOf else if v =? 4 then Ordered else Undefined.

Definition into (s : Semantic) : Z :=
  match s with
  | NoneOf => 0 | ExactlyOneOf => 1 | OneOrMoreOf => 2 | AllOf => 3 | Ordered => 4
  | Undefined => 0xff
  end.

Lemma from_into s : from (into s) = s.
Proof. by destruct s. Qed.

Lemma into_fits s : fits_u 8 (into s).
Proof. by destruct s. Qed.
End Semantic.
Export Semantic(Semantic).

(** The list structures, over the type of the values in them. *)
Record BasicList (V : Type) := mkBasicList {
  bl_semantic : Semantic;
  bl_field : FieldSpecifier;
  bl_content : list V;
}.
Arguments mkBasicList {V}.
Arguments bl_semantic {V}.
Arguments bl_field {V}.
Arguments bl_content {V}.

Record SubTemplateList (V : Type) := mkSubTemplateList {
  stl_semantic : Semantic;
  stl_template_id : Z;
  stl_data : list (DataRecord FieldSpecifier V);
}.
Arguments mkSubTemplateList {V}.
Arguments stl_semantic {V}.
Arguments stl_template_id {V}.
Arguments stl_data {V}.

Record SubTemplateMultiItem (V : Type) := mkMultiItem {
  mi_template_id : Z;
  mi_length : Z;
  mi_data : list (DataRecord FieldSpecifier V);
}.
Arguments mkMultiItem {V}.
Arguments mi_template_id {V}.
Arguments mi_length {V}.
Arguments mi_data {V}.

Record SubTemplateMultiList (V : Type) := mkMultiList {
  ml_semantic : Semantic;
  ml_data : list (SubTemplateMultiItem V);
}.
Arguments mkMultiList {V}.
Arguments ml_semantic {V}.
Arguments ml_data {V}.

Module FieldValue.
Section field_value.
Context `{CR : Crates}.

Inductive FieldValue :=
  | Unsigned8 (v : Z)
  | Unsigned16 (v : Z)
  | Unsigned32 (v : Z)
  | Unsigned64 (v : Z)
  | Unsigned256 (v : U256)
  | Signed8 (v : Z)
  | Signed16 (v : Z)
  | Signed32 (v : Z)
  | Signed64 (v : Z)
  | Float32 (v : Z)
  | Float64 (v : Z)
  | Boolean (v : bool)
  | MacAddress (v : MacAddr6)
  | OctetArray (v : bytes)
  | String (v : bytes)
  | DateTimeSeconds (v : DateTime)
  | DateTimeMilliseconds (v : DateTime)
  | DateTimeMicroseconds (v : DateTime)
  | DateTimeNanoseconds (v : DateTime)
  | Ipv4Address (v : Z)
  | Ipv6Address (v : Z)
  | BasicList (v : IpfixTypes.BasicList FieldValue)
  | SubTemplateList (v : IpfixTypes.SubTemplateList FieldValue)
  | SubTemplateMultiList (v : IpfixTypes.SubTemplateMultiList FieldValue)
  | Null.
End field_value.
End FieldValue.
Export FieldValue(FieldValue).

Record TemplateRecord := mkTemplate {
  t_template_id : Z;
  t_field_count : Z;
  t_fields : list FieldSpecifier;
}.

Definition TemplateRecord_new (template_id : Z) (fields : list FieldSpecifier) : TemplateRecord :=
  mkTemplate template_id (wrap 16 (zlen fields)) fields.

Record OptionsTemplateRecord := mkOptionsTemplate {
  o_template_id : Z;
  o_field_count : Z;
  o_scope_field_count : Z;
  o_fields : list FieldSpecifier;
}.

Definition OptionsTemplateRecord_new (template_id scope_field_count : Z)
    (fields : list FieldSpecifier) : OptionsTemplateRecord :=
  mkOptionsTemplate template_id (wrap 16 (zlen fields)) scope_field_count fields.

Section types.
Context `{CR : Crates}.

Abbreviation DataRecord := (DataRecord.DataRecord FieldSpecifier FieldValue).

(** A record with placeholder specifiers. *)
Definition DataRecord_new (values : list FieldValue) : DataRecord :=
  from_template ((fun _ => mkResolved (iana 0 0) DataType.OctetArray []) <$> values) values.

Inductive Record_ :=
  | Template (t : TemplateRecord)
  | OptionsTemplate (t : OptionsTemplateRecord)
  | Data (r : DataRecord)
  | OptionsData (r : DataRecord).

Record Set_ := mkSet { set_id : Z; set_length : Z; set_records : list Record_ }.

Definition Set_new (id : Z) (records : list Record_) : Set_ := mkSet id 0 records.

Record SetHeader := mkSetHeader { sh_set_id : Z; sh_length : Z }.

Record Header := mkHeader {
  h_version : Z;
  h_length : Z;
  h_export_time : DateTime;
  h_sequence_number : Z;
  h_observation_domain_id : Z;
}.

Definition Header_new (export_time : DateTime) (sequence_number observation_domain_id : Z) : Header :=
  mkHeader IPFIX_VERSION 0 export_time sequence_number observation_domain_id.

Record IpfixPacket := mkPacket { p_header : Header; p_sets : list Set_ }.

Definition IpfixPacket_new (export_time : DateTime) (sequence_number observation_domain_id : Z)
    (sets : list Set_) : IpfixPacket :=
  mkPacket (Header_new export_time sequence_number observation_domain_id) sets.
End types.
