(* ===== verification/ElementTypes.v ===== *)
(** [ipfix/element_types.rs]: what an exporter's type records (RFC 5610) say of
    the Information Elements it sends. *)

From Stdlib Require Import ZArith Lia Strings.Byte.
From stdpp Require Import base tactics numbers list gmap.
From S2P Require Import Prelude Nom Std Crates IERegistry InformationElement DataRecord IpfixTypes.
#[local] Open Scope Z_scope.

Definition MAX_ELEMENTS : Z := 1024.
Definition MAX_NAME_LENGTH : Z := 256.

Abbreviation ElementKey := (Z * option Z)%type.

(** The parts of a type record a collector uses. *)
Record Description := mkDescription {
  d_id : Z;
  d_enterprise_number : option Z;
  d_data_type : Z;
  d_semantics : Z;
  d_name : option bytes;
}.

#[export] Instance Description_eq_dec : EqDecision Description.
Proof. solve_decision. Defined.

Inductive Learned :=
  | Defined (description : Description) (definition : IEDefinition)
  | Conflicting.

Record ElementTypes := mkTypes {
  domains : gmap Z (gmap ElementKey Learned);
  types_len : Z;
}.

Definition default_types : ElementTypes := mkTypes ∅ 0.

Definition types_lookup (self : ElementTypes) (domain id : Z) (enterprise_number : option Z)
    : option IEDefinition :=
  match self.(domains) !! domain with
  | None => None
  | Some elements =>
      match elements !! (id, enterprise_number) with
      | Some (Defined _ definition) => Some definition
      | Some Conflicting | None => None
      end
  end.

(** A number in decimal, after the enterprise number if there is one. *)
Definition unknown_element_name (id : Z) (enterprise_number : option Z) : bytes :=
  match enterprise_number with
  | Some enterprise => show enterprise ++ str "." ++ show id
  | None => show id
  end.

(** The octet of the null character. *)
Definition contains_nul (s : bytes) : bool := existsb (fun b => u8_of b =? 0) s.

Section learning.
Context `{CR : Crates}.

Abbreviation DataRecord := (DataRecord.DataRecord FieldSpecifier FieldValue).

Definition unsigned (value : FieldValue) : option Z :=
  match value with
  | FieldValue.Unsigned8 v | FieldValue.Unsigned16 v | FieldValue.Unsigned32 v
  | FieldValue.Unsigned64 v => Some v
  | _ => None
  end.

Definition usable_name (value : FieldValue) : option bytes :=
  match value with
  | FieldValue.String name =>
      if (0 <? zlen name) && (zlen name <=? MAX_NAME_LENGTH) && negb (contains_nul name)
      then Some name else None
  | _ => None
  end.

(** The variables of [Description::read]. *)
Record Reading := mkReading {
  g_id : option Z;
  g_enterprise_number : option Z;
  g_data_type : option Z;
  g_semantics : Z;
  g_name : option bytes;
}.

(** One round of its loop; [None] is the early return. *)
Definition read_field (g : Reading) (item : FieldSpecifier * bytes * FieldValue) : option Reading :=
  let '(field, _, value) := item in
  match field.(enterprise_number) with
  | Some _ => Some g
  | None =>
      let number w := match unsigned value with Some v => try_u w v | None => None end in
      match from_id field.(information_element_identifier) with
      | Some InformationElementId =>
          Some (mkReading ((fun v => Z.land v 0x7fff) <$> number 16) g.(g_enterprise_number)
            g.(g_data_type) g.(g_semantics) g.(g_name))
      | Some PrivateEnterpriseNumber =>
          Some (mkReading g.(g_id) (number 32) g.(g_data_type) g.(g_semantics) g.(g_name))
      | Some InformationElementDataType =>
          Some (mkReading g.(g_id) g.(g_enterprise_number) (number 8) g.(g_semantics) g.(g_name))
      | Some InformationElementSemantics =>
          match number 8 with
          | None => None
          | Some s =>
              Some (mkReading g.(g_id) g.(g_enterprise_number) g.(g_data_type) s g.(g_name))
          end
      | Some InformationElementName =>
          Some (mkReading g.(g_id) g.(g_enterprise_number) g.(g_data_type) g.(g_semantics)
            (usable_name value))
      | _ => Some g
      end
  end.

Fixpoint read_fields (g : Reading) (items : list (FieldSpecifier * bytes * FieldValue))
    : option Reading :=
  match items with
  | [] => Some g
  | item :: items =>
      match read_field g item with
      | None => None
      | Some g => read_fields g items
      end
  end.

Definition read (record : DataRecord) : option Description :=
  match read_fields (mkReading None None None 0 None) (rec_iter record) with
  | Some g =>
      match g.(g_id), g.(g_data_type) with
      | Some id, Some data_type =>
          let enterprise_number :=
            match g.(g_enterprise_number) with
            | Some number => if number =? 0 then None else Some number
            | None => None
            end in
          Some (mkDescription id enterprise_number data_type g.(g_semantics) g.(g_name))
      | _, _ => None
      end
  | None => None
  end.
End learning.

Definition Description_data_type (self : Description) : option DataType :=
  let t := self.(d_data_type) in
  let s := self.(d_semantics) in
  let fits :=
    if (1 <=? t) && (t <=? 4) then ((0 <=? s) && (s <=? 5)) || (s =? 7) || (s =? 8)
    else if (5 <=? t) && (t <=? 8) then s <=? 4
    else if (t =? 9) || (t =? 10) then s <=? 3
    else if (20 <=? t) && (t <=? 22) then (s =? 0) || (s =? 6)
    else s =? 0 in
  if negb fits then None else
  if t =? 0 then Some DataType.OctetArray
  else if (1 <=? t) && (t <=? 4) then Some DataType.Unsigned
  else if (5 <=? t) && (t <=? 8) then Some DataType.Signed
  else if (t =? 9) || (t =? 10) then Some DataType.Float
  else if t =? 11 then Some DataType.Boolean
  else if t =? 12 then Some DataType.MacAddress
  else if t =? 13 then Some DataType.String
  else if t =? 14 then Some DataType.DateTimeSeconds
  else if t =? 15 then Some DataType.DateTimeMilliseconds
  else if t =? 16 then Some DataType.DateTimeMicroseconds
  else if t =? 17 then Some DataType.DateTimeNanoseconds
  else if t =? 18 then Some DataType.Ipv4Address
  else if t =? 19 then Some DataType.Ipv6Address
  else if t =? 20 then Some DataType.BasicList
  else if t =? 21 then Some DataType.SubTemplateList
  else if t =? 22 then Some DataType.SubTemplateMultiList
  else None.

Section learn.
Context `{CR : Crates}.

Definition learned_at (self : ElementTypes) (domain : Z) (key : ElementKey) : option Learned :=
  match self.(domains) !! domain with
  | Some elements => elements !! key
  | None => None
  end.

Definition set_learned (self : ElementTypes) (domain : Z) (key : ElementKey) (l : Learned) (len : Z)
    : ElementTypes :=
  mkTypes (<[domain := <[key := l]> (default ∅ (self.(domains) !! domain))]> self.(domains)) len.

Definition learn (self : ElementTypes) (domain : Z)
    (record : DataRecord.DataRecord FieldSpecifier FieldValue) (registry : IERegistry)
    : ElementTypes * bool :=
  match read record with
  | None => (self, false)
  | Some description =>
      let key := (description.(d_id), description.(d_enterprise_number)) in
      match lookup registry key.1 key.2 with
      | Some _ => (self, false)
      | None =>
          match Description_data_type description with
          | None => (self, false)
          | Some data_type =>
              match learned_at self domain key with
              | Some (Defined known definition) =>
                  if decide (known = description) then (self, false)
                  else (set_learned self domain key Conflicting self.(types_len), true)
              | Some Conflicting => (self, false)
              | None =>
                  if self.(types_len) <? MAX_ELEMENTS then
                    let name :=
                      match description.(d_name) with
                      | Some name => name
                      | None => unknown_element_name key.1 key.2
                      end in
                    let definition := mkIE key.1 key.2 name data_type in
                    (set_learned self domain key (Defined description definition)
                       (self.(types_len) + 1), true)
                  else (self, false)
              end
          end
      end
  end.
End learn.

(** ** Facts *)

Section facts.
Context `{CR : Crates}.
Implicit Types (self : ElementTypes) (domain : Z) (key : ElementKey).

Lemma types_lookup_learned self domain id en :
  types_lookup self domain id en
  = match learned_at self domain (id, en) with Some (Defined _ d) => Some d | _ => None end.
Proof. unfold types_lookup, learned_at. by destruct (domains self !! domain). Qed.

Lemma learned_set self domain key l n domain' key' :
  learned_at (set_learned self domain key l n) domain' key'
  = if decide ((domain', key') = (domain, key)) then Some l else learned_at self domain' key'.
Proof.
  unfold learned_at, set_learned. cbn. destruct (decide (domain' = domain)) as [->|Hd].
  - rewrite lookup_insert_eq. case_decide as Hk.
    + injection Hk as ->. by rewrite lookup_insert_eq.
    + rewrite lookup_insert_ne by congruence. destruct (domains self !! domain); [done|].
      apply lookup_empty.
  - rewrite lookup_insert_ne by done. by rewrite decide_False by congruence.
Qed.

(** The elements described, in every domain. *)
Definition described self : Z := msum (fun elements => Z.of_nat (size elements)) self.(domains).

Lemma described_set self domain key l n :
  described (set_learned self domain key l n)
  = described self + match learned_at self domain key with Some _ => 0 | None => 1 end.
Proof.
  unfold described, set_learned, learned_at. cbn [domains]. rewrite msum_insert. unfold at_key.
  destruct (domains self !! domain) as [m|] eqn:E; cbn [default from_option id].
  - destruct (m !! key) as [x|] eqn:Ek.
    + rewrite map_size_insert_Some by eauto. cbn. lia.
    + rewrite map_size_insert_None by done. cbn. lia.
  - rewrite map_size_insert_None by apply lookup_empty. rewrite map_size_empty. cbn. lia.
Qed.

(** What a well-formed table holds under [registry]: its length is the number
    of elements, within the limit, and none is in the registry. *)
Definition types_inv (registry : IERegistry) self : Prop :=
  self.(types_len) = described self /\ 0 <= self.(types_len) <= MAX_ELEMENTS /\
  (forall domain key l, learned_at self domain key = Some l ->
     lookup registry key.1 key.2 = None) /\
  (forall domain key d e, learned_at self domain key = Some (Defined d e) ->
     (e.(ie_id), e.(ie_enterprise_number)) = key).

Lemma default_types_inv registry : types_inv registry default_types.
Proof.
  unfold types_inv, learned_at, described. cbn. rewrite msum_empty.
  split_and!; try done; intros domain key; by rewrite lookup_empty.
Qed.

Lemma set_learned_inv registry self domain key l n :
  types_inv registry self -> lookup registry key.1 key.2 = None ->
  n = described self + match learned_at self domain key with Some _ => 0 | None => 1 end ->
  n <= MAX_ELEMENTS ->
  (forall d e, l = Defined d e -> (e.(ie_id), e.(ie_enterprise_number)) = key) ->
  types_inv registry (set_learned self domain key l n).
Proof.
  intros (H1 & H2 & H3 & H4) Hk -> Hn Hl. split_and!.
  - by rewrite described_set.
  - cbn. destruct (learned_at self domain key); lia.
  - done.
  - intros domain' key' l'. rewrite learned_set. case_decide as He; [|apply H3].
    by injection He as -> ->.
  - intros domain' key' d e. rewrite learned_set. case_decide as He; [|apply H4].
    injection He as -> ->. intros [= ->]. by apply Hl with d.
Qed.
End facts.

(** ** Properties *)

Section properties.
Context `{CR : Crates}.
Implicit Types (self : ElementTypes) (record : DataRecord.DataRecord FieldSpecifier FieldValue).

Lemma learn_keeps_inv registry self domain record :
  types_inv registry self -> types_inv registry (learn self domain record registry).1.
Proof.
  intros Hi. unfold learn. destruct (read record) as [d|]; [|done]. cbn [fst snd].
  destruct (lookup registry _ _) eqn:Er; [done|].
  destruct (Description_data_type d) as [t|]; [|done].
  destruct (learned_at self domain _) as [[known e|]|] eqn:El; [case_decide; [done|]|done|].
  - apply set_learned_inv; cbn; rewrite ?El; try done; destruct Hi as (H1 & H2 & _); lia.
  - destruct (Z.ltb_spec self.(types_len) MAX_ELEMENTS); [|done].
    apply set_learned_inv; cbn; rewrite ?El; try done; destruct Hi as (H1 & H2 & _); try lia.
    by intros d' e' [= <- <-].
Qed.

(** Learning from a record keeps the table well-formed: at most
    [MAX_ELEMENTS] elements in all domains together, none of which the
    registry defines. *)
Theorem learn_inv registry self domain record :
  types_inv registry self -> types_inv registry (learn self domain record registry).1.
Proof. apply learn_keeps_inv. Qed.

Lemma learn_changed_iff registry self domain record :
  (learn self domain record registry).2 = true <->
  exists domain' id en,
    types_lookup (learn self domain record registry).1 domain' id en
    <> types_lookup self domain' id en.
Proof.
  unfold learn.
  assert (Hsame : false = true <-> exists domain' id en,
    types_lookup self domain' id en <> types_lookup self domain' id en) by naive_solver.
  destruct (read record) as [d|]; [|done]. cbn [fst snd].
  destruct (lookup registry _ _); [done|]. destruct (Description_data_type d) as [t|]; [|done].
  destruct (learned_at self domain _) as [[known e|]|] eqn:El; [case_decide; [done|]|done|].
  - split; [intros _|done]. exists domain, (d_id d), (d_enterprise_number d).
    cbn [fst]. rewrite !types_lookup_learned, learned_set, decide_True, El by done. done.
  - destruct (_ <? MAX_ELEMENTS); [|done]. split; [intros _|done].
    exists domain, (d_id d), (d_enterprise_number d).
    cbn [fst]. rewrite !types_lookup_learned, learned_set, decide_True, El by done. done.
Qed.

(** Learning concerns the record's own domain. *)
Lemma learn_elsewhere registry self domain record domain' id en :
  domain' <> domain ->
  types_lookup (learn self domain record registry).1 domain' id en
  = types_lookup self domain' id en.
Proof.
  intros Hd. unfold learn.
  destruct (read record) as [d|]; [|done]. cbn [fst snd].
  destruct (lookup registry _ _); [done|]. destruct (Description_data_type d) as [t|]; [|done].
  destruct (learned_at self domain _) as [[known e|]|] eqn:El; [case_decide; [done|]|done|];
    [|destruct (_ <? MAX_ELEMENTS); [|done]];
    cbn [fst]; by rewrite !types_lookup_learned, learned_set, decide_False by congruence.
Qed.

(** The flag says exactly whether a lookup changed, so templates resolved
    before are refreshed when and only when they could differ. *)
Theorem learn_changed registry self domain record :
  let '(self', changed) := learn self domain record registry in
  changed = true <->
  exists domain' id en, types_lookup self' domain' id en <> types_lookup self domain' id en.
Proof.
  pose proof (learn_changed_iff registry self domain record) as H.
  by destruct (learn self domain record registry).
Qed.

(** A table left as it was. *)
Ltac unchanged :=
  cbn [fst]; match goal with |- context [learned_at ?s ?d ?k] => destruct (learned_at s d k) as [[]|] end;
  auto.

(** A description is never replaced by another: after any record, a lookup
    gives what it gave before, or nothing because type records disagreed, or,
    for an element not described before, the definition of that record; an
    element left undecoded stays so. *)
Theorem learn_stable registry self domain record domain' key :
  let self' := (learn self domain record registry).1 in
  match learned_at self domain' key with
  | Some (Defined d e) =>
      learned_at self' domain' key = Some (Defined d e) \/
      (learned_at self' domain' key = Some Conflicting /\ domain' = domain /\
       exists d', read record = Some d' /\ (d_id d', d_enterprise_number d') = key /\ d' <> d)
  | Some Conflicting => learned_at self' domain' key = Some Conflicting
  | None =>
      learned_at self' domain' key = None \/
      exists d t, learned_at self' domain' key
          = Some (Defined d (mkIE key.1 key.2
              match d_name d with Some n => n | None => unknown_element_name key.1 key.2 end t)) /\
        domain' = domain /\ read record = Some d /\ (d_id d, d_enterprise_number d) = key /\
        Description_data_type d = Some t
  end.
Proof.
  unfold learn. cbv zeta.
  destruct (read record) as [d|]; cbn [fst snd]; [|unchanged].
  destruct (lookup registry _ _); [unchanged|].
  destruct (Description_data_type d) as [t|] eqn:Et; [|unchanged].
  destruct (learned_at self domain (d_id d, d_enterprise_number d)) as [[known e|]|] eqn:El.
  - case_decide as Hd; [unchanged|]. cbn [fst].
    rewrite learned_set. case_decide as Hk; [|unchanged].
    injection Hk as -> ->. rewrite El. right. split_and!; auto. exists d. naive_solver.
  - unchanged.
  - destruct (_ <? MAX_ELEMENTS); [|unchanged]. cbn [fst].
    rewrite learned_set. case_decide as Hk; [|unchanged].
    injection Hk as -> ->. rewrite El. right. exists d, t. cbn. auto.
Qed.
End properties.

(** ** The properties at concrete inputs *)

(** A type record: element 5 of enterprise 9 is an [unsigned32]. *)
Definition sample_type_record (dt : Z) : DataRecord.DataRecord FieldSpecifier (FieldValue (CR := crates_std)) :=
  let f ie := mkResolved (from_ie ie 4) DataType.Unsigned [] in
  from_template [f InformationElementId; f PrivateEnterpriseNumber; f InformationElementDataType]
    [FieldValue.Unsigned16 0x8005; FieldValue.Unsigned32 9; FieldValue.Unsigned8 dt].

Lemma learn_inv_witness :
  let self := (learn (CR := crates_std) default_types 1 (sample_type_record 3) new).1 in
  types_inv new self /\
  (ie_data_type <$> types_lookup self 1 5 (Some 9)) = Some DataType.Unsigned /\
  types_inv new (learn (CR := crates_std) self 1 (sample_type_record 2) new).1 /\
  types_lookup (learn (CR := crates_std) self 1 (sample_type_record 2) new).1 1 5 (Some 9) = None.
Proof.
  assert (H : types_inv new (learn (CR := crates_std) default_types 1 (sample_type_record 3) new).1)
    by (apply learn_inv, default_types_inv).
  split; [exact H|]. split; [by vm_compute|]. split; [by apply learn_inv|by vm_compute].
Defined.
