(* ===== verification/Ipfix.v ===== *)
(** [ipfix/parser.rs]: the IPFIX parser.

    Values can hold lists of records of further values (RFC 6313).  The
    functions of that cycle take the parser of the values one level down,
    [parse_value], as an argument; [parse_field_value] ties the knot with fuel,
    which [fuel_irrelevant] shows is never exhausted. *)

From Stdlib Require Import ZArith Lia Strings.Byte.
From stdpp Require Import base tactics numbers list sets gmap.
From S2P Require Import TemplateCache.
From S2P Require Import Prelude Nom Parsing Std Crates CommonParser IERegistry InformationElement DataRecord IpfixTypes ElementTypes.
Import TemplateCache(cache_inv, get_at, refines, spec_insert, spec_get, timeout).
#[local] Open Scope Z_scope.

Record IpfixParser := mkParser {
  ie_registry : IERegistry;
  element_types : ElementTypes;
  templates : Templates;
  options_templates : Templates;
}.

(** The registry's definition, or else the one learned for the domain. *)
Definition lookup (registry : IERegistry) (types : ElementTypes) (observation_domain_id : Z)
    (spec : FieldSpecifier) : option IEDefinition :=
  let id := spec.(information_element_identifier) in
  let enterprise_number := spec.(enterprise_number) in
  match IERegistry.lookup registry id enterprise_number with
  | Some ie => Some ie
  | None => types_lookup types observation_domain_id id enterprise_number
  end.

Definition resolve_fields (registry : IERegistry) (types : ElementTypes)
    (observation_domain_id : Z) (fields : list FieldSpecifier) : list ResolvedField :=
  (fun spec =>
     let '(data_type, name) :=
       match lookup registry types observation_domain_id spec with
       | None =>
           (DataType.OctetArray,
            unknown_element_name spec.(information_element_identifier) spec.(enterprise_number))
       | Some ie => (ie.(ie_data_type), ie.(ie_name))
       end in
     mkResolved spec data_type name) <$> fields.

(** RFC 7011 section 8.1. *)
Definition withdraw_templates (map : Templates) (observation_domain_id template_id all_id : Z)
    : Templates :=
  if template_id =? all_id then TemplateCache.remove_domain map observation_domain_id
  else TemplateCache.remove map (observation_domain_id, template_id).

Section parser.
Context `{NM : Nom} `{CR : Crates} `{CK : Clock}.

Abbreviation DataRecord := (DataRecord.DataRecord FieldSpecifier FieldValue).

Definition new (ie_registry : IERegistry) (timeout : Z) (reads : nat) : nat * IpfixParser :=
  let '(reads, templates) := TemplateCache.new timeout reads in
  let '(reads, options_templates) := TemplateCache.new timeout reads in
  (reads, mkParser ie_registry default_types templates options_templates).

Definition default_parser (reads : nat) : nat * IpfixParser :=
  new default_registry (from_mins 10) reads.

Definition parse_header (input : bytes) : IResult Header :=
  let? (input, version) := verify_version input IPFIX_VERSION in
  let? (input, length) := be_u16 input in
  let? (input, export_time) := timestamp_secs input in
  let? (input, sequence_number) := be_u32 input in
  let? (input, observation_domain_id) := be_u32 input in
  Ok (input, mkHeader version length export_time sequence_number observation_domain_id).

Definition parse_field_specifier (input : bytes) : IResult FieldSpecifier :=
  let? (input, v) := be_u16 input in
  let enterprise_bit := negb (Z.land v 0x8000 =? 0) in
  let information_element_identifier := Z.land v 0x7fff in
  let? (input, field_length) := be_u16 input in
  let? (input, enterprise_number) := cond enterprise_bit be_u32 input in
  Ok (input, mkSpec enterprise_bit information_element_identifier field_length enterprise_number).

Definition parse_template_record (input : bytes) : IResult TemplateRecord :=
  let? (input, template_id) := be_u16 input in
  let? (input, field_count) := be_u16 input in
  let? (input, fields) := count parse_field_specifier field_count input in
  Ok (input, mkTemplate template_id field_count fields).

Definition parse_options_template_record (input : bytes) : IResult OptionsTemplateRecord :=
  let? (input, template_id) := be_u16 input in
  let? (input, field_count) := be_u16 input in
  let? (input, scope_field_count) := (if field_count =? 0 then Ok (input, 0) else be_u16 input) in
  let? (input, fields) := count parse_field_specifier field_count input in
  Ok (input, mkOptionsTemplate template_id field_count scope_field_count fields).

(** The octets of a field, read from the record when it is of variable
    length (RFC 7011 section 7). *)
Definition parse_field_length (input : bytes) (field_length : Z) : IResult Z :=
  if negb (field_length =? IPFIX_VARIABLE_LENGTH) then Ok (input, field_length)
  else
    let? (input, first_byte) := be_u8 input in
    if first_byte <? 255 then Ok (input, first_byte)
    else nom_map be_u16 (fun l => l) input.

(** ** Values and records

    The state is the number of clock readings. *)

Section cycle.
Context (self : IpfixParser) (observation_domain_id : Z).
Context (parse_value : DataType -> Z -> Z -> FnMut nat FieldValue).

Fixpoint parse_values (fields : list ResolvedField) (depth : Z) : FnMut nat (list FieldValue) :=
  fun reads remaining =>
    match fields with
    | [] => (reads, Ok (remaining, []))
    | field :: fields =>
        let* reads, (input, length) :=
          (reads, parse_field_length remaining field.(spec).(field_length)) in
        let* reads, (input, value) := parse_value field.(data_type) length depth reads input in
        let* reads, (input, values) := parse_values fields depth reads input in
        (reads, Ok (input, value :: values))
    end.

Definition parse_record_from_fields (fields : list ResolvedField) (depth : Z)
    : FnMut nat DataRecord := fun reads input =>
  let* reads, (remaining, values) := parse_values fields depth reads input in
  (reads, Ok (remaining, from_template fields values)).

(** The records under the template's fields. *)
Definition decode_records (fields : list ResolvedField) (wrap : DataRecord -> Record_) (depth : Z)
    : FnMut nat (list Record_) := fun reads input =>
  match fields with
  | [] => (reads, Ok (input, []))
  | _ =>
      let* reads, (input, records) := many0 (parse_record_from_fields fields depth) reads input in
      (reads, Ok (input, wrap <$> records))
  end.

Definition parse_templated_records (template_id depth : Z) : FnMut nat (list Record_) :=
  fun reads input =>
    let key := (observation_domain_id, template_id) in
    let '(reads, t) := TemplateCache.get self.(templates) key reads in
    match t with
    | Some t => decode_records t Data depth reads input
    | None =>
        let '(reads, t) := TemplateCache.get self.(options_templates) key reads in
        match t with
        | Some t => decode_records t OptionsData depth reads input
        | None => (reads, Ok (input, []))
        end
    end.

(** The records of a list that are data. *)
Definition data_records (records : list Record_) : list DataRecord :=
  omap (fun r => match r with Data dr | OptionsData dr => Some dr | _ => None end) records.

(** The [while] loop; [Failure] is what it would return out of fuel. *)
Fixpoint basic_list_loop (fuel : nat) (field : FieldSpecifier) (element_data_type : DataType)
    (depth : Z) (reads : nat) (list_data : bytes) : nat * result (list FieldValue) :=
  match fuel with
  | O => (reads, Err Failure)
  | S fuel =>
      match list_data with
      | [] => (reads, Ok [])
      | _ =>
          let* reads, (next_data, actual_length) :=
            (reads, parse_field_length list_data field.(field_length)) in
          if (field.(field_length) =? 0) || (zlen next_data <? actual_length) then (reads, Ok [])
          else
            let* reads, (next_data, value) :=
              parse_value element_data_type actual_length depth reads next_data in
            match basic_list_loop fuel field element_data_type depth reads next_data with
            | (reads, Ok content) => (reads, Ok (value :: content))
            | (reads, Err e) => (reads, Err e)
            end
      end
  end.

Definition parse_basic_list (length depth : Z) : FnMut nat FieldValue := fun reads input =>
  let* reads, (remaining, data) := (reads, nom_take length input) in
  let* reads, (data, semantic) := (reads, nom_map be_u8 Semantic.from data) in
  let* reads, (data, field) := (reads, parse_field_specifier data) in
  let element_data_type :=
    match lookup self.(ie_registry) self.(element_types) observation_domain_id field with
    | None => DataType.OctetArray
    | Some ie => ie.(ie_data_type)
    end in
  match basic_list_loop (S (Datatypes.length data)) field element_data_type depth reads data with
  | (reads, Ok content) =>
      (reads, Ok (remaining, FieldValue.BasicList (mkBasicList semantic field content)))
  | (reads, Err e) => (reads, Err e)
  end.

Definition parse_sub_template_list (length depth : Z) : FnMut nat FieldValue := fun reads input =>
  let* reads, (remaining, data) := (reads, nom_take length input) in
  let* reads, (data, semantic) := (reads, nom_map be_u8 Semantic.from data) in
  let* reads, (data, template_id) := (reads, be_u16 data) in
  let* reads, (_, records) := parse_templated_records template_id depth reads data in
  (reads, Ok (remaining,
     FieldValue.SubTemplateList (mkSubTemplateList semantic template_id (data_records records)))).

Fixpoint multi_list_loop (fuel : nat) (depth : Z) (reads : nat) (list_data : bytes)
    : nat * result (list (SubTemplateMultiItem FieldValue)) :=
  match fuel with
  | O => (reads, Err Failure)
  | S fuel =>
      match list_data with
      | [] => (reads, Ok [])
      | _ =>
          let* reads, (next_data, template_id) := (reads, be_u16 list_data) in
          let* reads, (next_data, item_length) := (reads, be_u16 next_data) in
          let content_length := Z.max 0 (item_length - 4) in
          if content_length =? 0 then multi_list_loop fuel depth reads next_data
          else
            let* reads, (next_data, item_data) := (reads, nom_take content_length next_data) in
            let* reads, (_, records) := parse_templated_records template_id depth reads item_data in
            match multi_list_loop fuel depth reads next_data with
            | (reads, Ok items) =>
                (reads, Ok (mkMultiItem template_id item_length (data_records records) :: items))
            | (reads, Err e) => (reads, Err e)
            end
      end
  end.

Definition parse_sub_template_multi_list (length depth : Z) : FnMut nat FieldValue :=
  fun reads input =>
    let* reads, (remaining, data) := (reads, nom_take length input) in
    let* reads, (data, semantic) := (reads, nom_map be_u8 Semantic.from data) in
    match multi_list_loop (S (Datatypes.length data)) depth reads data with
    | (reads, Ok items) =>
        (reads, Ok (remaining, FieldValue.SubTemplateMultiList (mkMultiList semantic items)))
    | (reads, Err e) => (reads, Err e)
    end.

(** The rows of the [match] without a list. *)
Definition parse_plain_value (data_type : DataType) (length : Z) (input : bytes)
    : IResult FieldValue :=
  let len_is n := length =? n in
  let reduced := (5 <=? length) && (length <=? 7) in
  let otherwise := nom_map (vector length) FieldValue.OctetArray input in
  match data_type with
  | DataType.Boolean =>
      if len_is 1 then nom_map boolean
        (fun v => match v with Some v => FieldValue.Boolean v | None => FieldValue.Null end) input
      else otherwise
  | DataType.Unsigned =>
      if len_is 1 then nom_map be_u8 FieldValue.Unsigned8 input
      else if len_is 2 then nom_map be_u16 FieldValue.Unsigned16 input
      else if len_is 4 then nom_map be_u32 FieldValue.Unsigned32 input
      else if len_is 8 then nom_map be_u64 FieldValue.Unsigned64 input
      else if len_is 3 then nom_map be_u24 FieldValue.Unsigned32 input
      else if reduced then nom_map (be_uint length) FieldValue.Unsigned64 input
      else otherwise
  | DataType.Signed =>
      if len_is 1 then nom_map be_i8 FieldValue.Signed8 input
      else if len_is 2 then nom_map be_i16 FieldValue.Signed16 input
      else if len_is 4 then nom_map be_i32 FieldValue.Signed32 input
      else if len_is 8 then nom_map be_i64 FieldValue.Signed64 input
      else if len_is 3 then nom_map be_i24 FieldValue.Signed32 input
      else if reduced then nom_map (be_int length) FieldValue.Signed64 input
      else otherwise
  | DataType.Float =>
      if len_is 4 then nom_map be_f32 FieldValue.Float32 input
      else if len_is 8 then nom_map be_f64 FieldValue.Float64 input
      else otherwise
  | DataType.MacAddress =>
      if len_is 6 then nom_map macaddr6 FieldValue.MacAddress input else otherwise
  | DataType.Ipv4Address =>
      if len_is 4 then nom_map ipv4_addr FieldValue.Ipv4Address input else otherwise
  | DataType.Ipv6Address =>
      if len_is 16 then nom_map ipv6_addr FieldValue.Ipv6Address input else otherwise
  | DataType.String =>
      nom_map (string length)
        (fun v => match v with Some v => FieldValue.String v | None => FieldValue.Null end) input
  | DataType.DateTimeSeconds =>
      if len_is 4 then nom_map timestamp_secs FieldValue.DateTimeSeconds input else otherwise
  | DataType.DateTimeMilliseconds =>
      if len_is 8 then nom_map timestamp_millis
        (fun v => match v with
                  | Some v => FieldValue.DateTimeMilliseconds v
                  | None => FieldValue.Null
                  end) input
      else otherwise
  | DataType.DateTimeMicroseconds =>
      if len_is 8 then nom_map timestamp_micros FieldValue.DateTimeMicroseconds input
      else otherwise
  | DataType.DateTimeNanoseconds =>
      if len_is 8 then nom_map timestamp_nanos FieldValue.DateTimeNanoseconds input
      else otherwise
  | _ => otherwise
  end.

(** The whole [match], with the parser one level down as [parse_value]. *)
Definition field_value_step (data_type : DataType) (length depth : Z) : FnMut nat FieldValue :=
  fun reads input =>
    match data_type with
    | DataType.BasicList | DataType.SubTemplateList | DataType.SubTemplateMultiList =>
        if MAX_LIST_DEPTH <=? depth then
          (reads, nom_map (vector length) FieldValue.OctetArray input)
        else
          match data_type with
          | DataType.BasicList => parse_basic_list length (depth + 1) reads input
          | DataType.SubTemplateList => parse_sub_template_list length (depth + 1) reads input
          | _ => parse_sub_template_multi_list length (depth + 1) reads input
          end
    | _ => (reads, parse_plain_value data_type length input)
    end.
End cycle.

Fixpoint parse_field_value (fuel : nat) (self : IpfixParser) (observation_domain_id : Z)
    (data_type : DataType) (length depth : Z) : FnMut nat FieldValue :=
  fun reads input =>
    match fuel with
    | O => (reads, Err Failure)
    | S fuel =>
        field_value_step self observation_domain_id
          (parse_field_value fuel self observation_domain_id) data_type length depth reads input
    end.

(** A level of fuel for each depth, and one to stop. *)
Definition list_fuel : nat := S (Z.to_nat MAX_LIST_DEPTH).

(** ** Sets *)

Definition parse_templated (self : IpfixParser) (observation_domain_id template_id : Z)
    : FnMut nat (list Record_) :=
  parse_templated_records self observation_domain_id
    (parse_field_value list_fuel self observation_domain_id) template_id 0.

(** The loop over the template records of a set: withdraw, store or skip. *)
Definition apply_templates (registry : IERegistry) (types : ElementTypes) (map : Templates)
    (templates : list (Z * list FieldSpecifier)) (observation_domain_id all_id : Z) (reads : nat)
    : nat * Templates :=
  fold_left (fun '(reads, map) '(template_id, fields) =>
    match fields with
    | [] => (reads, withdraw_templates map observation_domain_id template_id all_id)
    | _ =>
        if IPFIX_VALID_TEMPLATE_ID template_id then
          TemplateCache.insert map (observation_domain_id, template_id)
            (resolve_fields registry types observation_domain_id fields) reads
        else (reads, map)
    end) templates (reads, map).

Definition learn_element_types (self : IpfixParser) (observation_domain_id : Z)
    (records : list Record_) : IpfixParser :=
  let '(types, changed) :=
    fold_left (fun '(types, changed) record =>
      match record with
      | OptionsData record =>
          let '(types, c) := learn types observation_domain_id record self.(ie_registry) in
          (types, changed || c)
      | _ => (types, changed)
      end) records (self.(element_types), false) in
  if negb changed then mkParser self.(ie_registry) types self.(templates) self.(options_templates)
  else
    let resolve fields :=
      resolve_fields self.(ie_registry) types observation_domain_id (spec <$> fields) in
    mkParser self.(ie_registry) types
      (TemplateCache.refresh_domain self.(templates) observation_domain_id resolve)
      (TemplateCache.refresh_domain self.(options_templates) observation_domain_id resolve).

Definition parse_records (observation_domain_id set_id : Z)
    : FnMut (nat * IpfixParser) (list Record_) := fun '(reads, self) input =>
  if set_id =? IPFIX_TEMPLATE_SET_ID then
    match many0_fn parse_template_record input with
    | Err e => (reads, self, Err e)
    | Ok (input, ts) =>
        let '(reads, map) := apply_templates self.(ie_registry) self.(element_types)
          self.(templates) ((fun t => (t.(t_template_id), t.(t_fields))) <$> ts)
          observation_domain_id IPFIX_TEMPLATE_SET_ID reads in
        (reads, mkParser self.(ie_registry) self.(element_types) map self.(options_templates),
         Ok (input, Template <$> ts))
    end
  else if set_id =? IPFIX_OPTIONS_TEMPLATE_SET_ID then
    match many0_fn parse_options_template_record input with
    | Err e => (reads, self, Err e)
    | Ok (input, ts) =>
        let '(reads, map) := apply_templates self.(ie_registry) self.(element_types)
          self.(options_templates) ((fun t => (t.(o_template_id), t.(o_fields))) <$> ts)
          observation_domain_id IPFIX_OPTIONS_TEMPLATE_SET_ID reads in
        (reads, mkParser self.(ie_registry) self.(element_types) self.(templates) map,
         Ok (input, OptionsTemplate <$> ts))
    end
  else if IPFIX_VALID_TEMPLATE_ID set_id then
    match parse_templated self observation_domain_id set_id reads input with
    | (reads, Err e) => (reads, self, Err e)
    | (reads, Ok (input, records)) =>
        (reads, learn_element_types self observation_domain_id records, Ok (input, records))
    end
  else (reads, self, Ok (input, [])).

Definition parse_set (observation_domain_id : Z) : FnMut (nat * IpfixParser) Set_ :=
  fun self input =>
    let* self, (input, id) := (self, be_u16 input) in
    let* self, (input, length) := (self, be_u16 input) in
    if length <? SET_HEADER_SIZE then (self, fail input)
    else
      let value_length := length - SET_HEADER_SIZE in
      let* self, (input, records) :=
        map_parser (nom_take value_length) (parse_records observation_domain_id id) self input in
      (self, Ok (input, mkSet id length records)).

Definition parse : FnMut (nat * IpfixParser) IpfixPacket := fun self input =>
  let* self, (input, header) := (self, parse_header input) in
  let data_length := Z.max 0 (header.(h_length) - IPFIX_HEADER_SIZE) in
  let* self, (input, sets) :=
    map_parser (nom_take data_length)
      (fun self data => many0 (parse_set header.(h_observation_domain_id)) self data) self input in
  (self, Ok (input, mkPacket header sets)).
End parser.

(** ** Values *)

Section values.
Context `{NM : Nom} `{CR : Crates}.

(** What the octets [c] of a value of type [dt] that is not a list decode to. *)
Definition value_spec (dt : DataType) (c : bytes) (v : FieldValue) : Prop :=
  let n := zlen c in
  let raw := v = FieldValue.OctetArray c in
  match dt with
  | DataType.Boolean =>
      if n =? 1 then
        v = if be_value c =? 1 then FieldValue.Boolean true
            else if be_value c =? 2 then FieldValue.Boolean false else FieldValue.Null
      else raw
  | DataType.Unsigned =>
      if (1 <=? n) && (n <=? 8) then
        v = (if n =? 1 then FieldValue.Unsigned8 else if n =? 2 then FieldValue.Unsigned16
             else if n <=? 4 then FieldValue.Unsigned32 else FieldValue.Unsigned64) (be_value c)
      else raw
  | DataType.Signed =>
      if (1 <=? n) && (n <=? 8) then
        v = (if n =? 1 then FieldValue.Signed8 else if n =? 2 then FieldValue.Signed16
             else if n <=? 4 then FieldValue.Signed32 else FieldValue.Signed64)
              (to_signed (8 * n) (be_value c))
      else raw
  | DataType.Float =>
      if n =? 4 then v = FieldValue.Float32 (be_value c)
      else if n =? 8 then v = FieldValue.Float64 (be_value c) else raw
  | DataType.MacAddress => if n =? 6 then v = FieldValue.MacAddress (MacAddr6_from c) else raw
  | DataType.Ipv4Address => if n =? 4 then v = FieldValue.Ipv4Address (be_value c) else raw
  | DataType.Ipv6Address => if n =? 16 then v = FieldValue.Ipv6Address (be_value c) else raw
  | DataType.String =>
      v = match from_utf8 c with
          | Some s => FieldValue.String (trim_end_nul s)
          | None => FieldValue.Null
          end
  | DataType.DateTimeSeconds =>
      if n =? 4 then exists d, v = FieldValue.DateTimeSeconds d /\ timestamp d = be_value c /\
        timestamp_subsec_nanos d = 0
      else raw
  | DataType.DateTimeMilliseconds =>
      if n =? 8 then
        v = match (if decide (be_value c < 2 ^ 63) then from_timestamp_millis (be_value c) else None) with
            | Some d => FieldValue.DateTimeMilliseconds d
            | None => FieldValue.Null
            end
      else raw
  | DataType.DateTimeMicroseconds =>
      if n =? 8 then exists d, v = FieldValue.DateTimeMicroseconds d /\
        timestamp d = be_value (take 4 c) - NTP_UNIX_EPOCH_DIFF /\
        timestamp_subsec_nanos d = be_value (drop 4 c) * NANOS / 2 ^ 32
      else raw
  | DataType.DateTimeNanoseconds =>
      if n =? 8 then exists d, v = FieldValue.DateTimeNanoseconds d /\
        timestamp d = be_value (take 4 c) - NTP_UNIX_EPOCH_DIFF /\
        timestamp_subsec_nanos d = be_value (drop 4 c) * NANOS / 2 ^ 32
      else raw
  | _ => raw
  end.

Ltac split_length :=
  repeat lazymatch goal with
  | |- reads _ (fun i => if ?x =? ?y then _ else _) _ => destruct (Z.eqb_spec x y); [subst x|]
  | |- reads _ (fun i => if ?b then _ else _) _ => destruct b eqn:?
  end.

Ltac read_value :=
  eapply reads_mono; [eapply reads_map; reads_prim|];
  intros c v Hc (a & Ha & ->); unfold value_spec; rewrite ?Hc; cbv zeta;
  repeat match goal with
  | |- context [if Z.eqb ?x ?y then _ else _] => destruct (Z.eqb_spec x y); try lia
  | |- context [if Z.leb ?x ?y then _ else _] => destruct (Z.leb_spec x y); try lia
  | |- context [if Z.leb ?x ?y && Z.leb ?z ?t then _ else _] =>
      destruct (Z.leb_spec x y), (Z.leb_spec z t); try lia; cbn [andb]
  end;
  try (by rewrite Ha);
  first [ by eauto | rewrite Ha; by destruct (from_utf8 c)
        | rewrite Ha; by destruct (be_value c =? 1), (be_value c =? 2) ].

Lemma reads_plain_value dt n :
  0 <= n -> reads n (parse_plain_value dt n) (value_spec dt).
Proof.
  intros Hn. apply (reads_ext _ (fun i => parse_plain_value dt n i)); [done|].
  unfold parse_plain_value. cbv zeta. destruct dt; split_length; read_value.
Qed.

Lemma leaves_plain_value dt n i : leaves i (parse_plain_value dt n i).
Proof.
  unfold parse_plain_value. cbv zeta.
  destruct dt; repeat match goal with |- leaves _ (if ?b then _ else _) => destruct b end;
    auto with leaves.
Qed.

Lemma leaves_field_specifier i : leaves i (parse_field_specifier i).
Proof. unfold parse_field_specifier. auto 8 with leaves. Qed.

Lemma leaves_field_length fl i : leaves i (parse_field_length i fl).
Proof.
  unfold parse_field_length. destruct (negb _); [apply leaves_ok|].
  apply leaves_bind; [auto with leaves|]. intros i' b. destruct (_ <? _); auto with leaves.
Qed.
End values.
#[export] Hint Resolve leaves_field_specifier leaves_field_length leaves_plain_value : leaves.

(** ** Nesting *)

Section depth.
Context `{CR : Crates}.

Definition zmax {A} (f : A -> Z) (l : list A) : Z := foldr (fun a m => Z.max (f a) m) 0 l.

(** How many lists a value is nested in. *)
Fixpoint value_depth (v : FieldValue) : Z :=
  match v with
  | FieldValue.BasicList b => 1 + zmax value_depth b.(bl_content)
  | FieldValue.SubTemplateList l =>
      1 + zmax (fun r => zmax value_depth r.(rec_values)) l.(stl_data)
  | FieldValue.SubTemplateMultiList l =>
      1 + zmax (fun item => zmax (fun r => zmax value_depth r.(rec_values)) item.(mi_data))
            l.(ml_data)
  | _ => 0
  end.

Lemma zmax_le {A} (f : A -> Z) l m : 0 <= m -> Forall (fun a => f a <= m) l -> zmax f l <= m.
Proof. intros Hm. unfold zmax. induction 1; cbn; lia. Qed.
End depth.

(** ** The cycle of values and records *)

Section cycle_facts.
Context `{NM : Nom} `{CR : Crates} `{CK : Clock}.
Context (self : IpfixParser) (dom : Z) (pv : DataType -> Z -> Z -> FnMut nat FieldValue).

(** What the value parser guarantees at depth [d]: it takes exactly the
    octets it is told to, fails only with [Error], and returns values that
    nest no further than the depth that is left. *)
Definition value_post (n d : Z) (reads : nat) (i : bytes) (reads' : nat) (r : bytes * FieldValue) : Prop :=
  (reads <= reads')%nat /\ r.1 `suffix_of` i /\ (0 <= n -> zlen i = n + zlen r.1) /\
  (d <= MAX_LIST_DEPTH -> value_depth r.2 <= MAX_LIST_DEPTH - d).

Definition value_ok (d : Z) : Prop :=
  forall dt n reads i, swp (pv dt n d reads i) (value_post n d reads i) (fun s => reads <= s)%nat.

(** The values of a record at depth [d] nest no further than that. *)
Definition record_ok (d : Z) (r : DataRecord.DataRecord FieldSpecifier FieldValue) : Prop :=
  d <= MAX_LIST_DEPTH -> Forall (fun v => value_depth v <= MAX_LIST_DEPTH - d) r.(rec_values).

Definition wrapped_ok (d : Z) (r : Record_) : Prop :=
  match r with Data dr | OptionsData dr => record_ok d dr | _ => True end.

Context (d : Z) (Hpv : value_ok d).

Lemma swp_values fields : forall reads i,
  swp (parse_values pv fields d reads i) (fun s '(i', vs) =>
    (reads <= s)%nat /\ i' `suffix_of` i /\ length vs = length fields /\
    (d <= MAX_LIST_DEPTH -> Forall (fun v => value_depth v <= MAX_LIST_DEPTH - d) vs))
    (fun s => reads <= s)%nat.
Proof.
  induction fields as [|f fields IH]; intros reads i; cbn [parse_values].
  - apply swp_lift; [done|]. cbn. auto.
  - apply swp_pure; [done|].
    eapply wp_mono; [apply leaves_field_length|]. intros [i1 n] Hi1.
    apply swp_bind. eapply swp_mono; [apply Hpv| |done].
    intros s1 [i2 v] (Hs1 & Hi2 & _ & Hd). cbn [fst snd] in *.
    apply swp_bind. eapply swp_mono; [apply IH| |]; [|cbn; intros; lia].
    intros s2 [i3 vs] (Hs2 & Hi3 & Hl & Hds). cbn. split_and!; [lia| |lia|].
    + etransitivity; [exact Hi3|]. by etransitivity.
    + intros. constructor; auto.
Qed.

Lemma swp_record fields reads i :
  swp (parse_record_from_fields pv fields d reads i) (fun s '(i', r) =>
    (reads <= s)%nat /\ (record_ok d r /\ r.(rec_fields) = fields /\
      length r.(rec_values) = length fields) /\ i' `suffix_of` i)
    (fun s => reads <= s)%nat.
Proof.
  unfold parse_record_from_fields. apply swp_bind.
  eapply swp_mono; [apply swp_values| |done]. intros s [i' vs] (? & ? & ? & ?). by split_and!.
Qed.

Lemma swp_decode fields wrap reads i :
  (forall r, record_ok d r -> wrapped_ok d (wrap r)) ->
  swp (decode_records pv fields wrap d reads i) (fun s '(i', rs) =>
    (reads <= s)%nat /\ i' `suffix_of` i /\ Forall (wrapped_ok d) rs)
    (fun s => reads <= s)%nat.
Proof.
  intros Hw. unfold decode_records. destruct fields as [|f fields].
  { apply swp_lift; [done|]. by split_and!. }
  apply swp_bind. eapply swp_mono; [apply (swp_many0_mono Nat.le), swp_record| |done].
  intros s [i' rs] (Hs & HR & Hi). cbn. split_and!; auto.
  apply Forall_fmap. eapply Forall_impl; [exact HR|]. intros r (Hr & _). by apply Hw.
Qed.

Lemma swp_templated tid reads i :
  swp (parse_templated_records self dom pv tid d reads i) (fun s '(i', rs) =>
    (reads <= s)%nat /\ i' `suffix_of` i /\ Forall (wrapped_ok d) rs)
    (fun s => reads <= s)%nat.
Proof.
  assert (Hget : forall (cache : Templates) key r, (r <= (TemplateCache.get cache key r).1)%nat).
  { intros cache key r. unfold TemplateCache.get.
    destruct (TemplateCache.find cache key); [|done]. cbn. destruct (_ <? _); cbn; lia. }
  assert (Hlater : forall r0 r1 fields wrap, (r0 <= r1)%nat ->
    (forall r, record_ok d r -> wrapped_ok d (wrap r)) ->
    swp (decode_records pv fields wrap d r1 i) (fun s '(i', rs) =>
      (r0 <= s)%nat /\ i' `suffix_of` i /\ Forall (wrapped_ok d) rs) (fun s => r0 <= s)%nat).
  { intros r0 r1 fields wrap Hr Hw. eapply swp_mono; [by apply swp_decode| |].
    - intros s [i' rs] (? & ? & ?). split_and!; auto; lia.
    - cbn. lia. }
  unfold parse_templated_records. pose proof (Hget (templates self) (dom, tid) reads) as H1.
  destruct (TemplateCache.get (templates self) _ _) as [r1 [t|]]; cbn in H1; [by apply Hlater|].
  pose proof (Hget (options_templates self) (dom, tid) r1) as H2.
  destruct (TemplateCache.get _ _ _) as [r2 [t|]]; cbn in H2; [apply Hlater; [lia|done]|].
  apply swp_lift; [lia|]. split_and!; auto; lia.
Qed.

(** Records below a list are no deeper than the list's own level allows. *)
Lemma data_records_depth rs :
  d <= MAX_LIST_DEPTH -> Forall (wrapped_ok d) rs ->
  Forall (fun r => zmax value_depth r.(rec_values) <= MAX_LIST_DEPTH - d) (data_records rs).
Proof.
  intros Hd. unfold data_records. induction 1 as [|r rs Hr _ IH]; [constructor|].
  destruct r; cbn; auto; constructor; auto; apply zmax_le; auto; lia.
Qed.
End cycle_facts.

Section list_facts.
Context `{NM : Nom} `{CR : Crates} `{CK : Clock}.
Context (self : IpfixParser) (dom : Z) (pv : DataType -> Z -> Z -> FnMut nat FieldValue).
Context (d : Z) (Hpv : value_ok pv d).

Lemma wp_field_length i fl :
  fits_u 16 fl ->
  wp (parse_field_length i fl) (fun '(i', n) =>
    i' `suffix_of` i /\ 0 <= n /\ (fl <> 0 -> zlen i' - n < zlen i)).
Proof.
  intros Hfl. unfold parse_field_length. destruct (Z.eqb_spec fl IPFIX_VARIABLE_LENGTH) as [->|Hv]; cbn [negb].
  - wp_steps. destruct (Z.ltb_spec v 255); wp_steps.
    + split_and!; [solve_suffix|width|]. intros _. rewrite zlen_app, zlen_be_bytes. width.
    + split_and!; [solve_suffix|width|]. intros _. rewrite !zlen_app, !zlen_be_bytes. width.
  - apply wp_ret. unfold fits_u in Hfl. split_and!; [done|lia|lia].
Qed.

Lemma swp_basic_loop fuel field dt : forall reads data,
  fits_u 16 field.(field_length) -> (length data < fuel)%nat ->
  swp (basic_list_loop pv fuel field dt d reads data) (fun s content =>
    (reads <= s)%nat /\
    (d <= MAX_LIST_DEPTH -> Forall (fun v => value_depth v <= MAX_LIST_DEPTH - d) content))
    (fun s => reads <= s)%nat.
Proof.
  induction fuel as [|fuel IH]; intros reads data Hfl Hlen; [lia|]. cbn [basic_list_loop].
  destruct data as [|b data]; [apply swp_lift; [done|]; cbn; auto|].
  apply swp_pure; [done|]. eapply wp_mono; [by apply wp_field_length|].
  intros [i1 n] (Hi1 & Hn & Hlt).
  destruct (Z.eqb_spec (field_length field) 0) as [|Hnz]; [apply swp_lift; [done|]; cbn; auto|].
  destruct (Z.ltb_spec (zlen i1) n); [apply swp_lift; [done|]; cbn; auto|]. cbn [orb].
  apply swp_bind. eapply swp_mono; [apply Hpv| |done].
  intros s1 [i2 v] (Hs1 & Hi2 & Hex & Hd). cbn [fst snd] in *.
  specialize (Hlt Hnz). specialize (Hex Hn).
  assert (Hl2 : (length i2 < fuel)%nat) by (unfold zlen in *; lia).
  pose proof (IH s1 i2 Hfl Hl2) as HI.
  destruct (basic_list_loop pv fuel field dt d s1 i2) as [s2 [content|e]]; cbn in *.
  - destruct HI as [Hs2 Hc]. split; [lia|]. intros. constructor; auto.
  - destruct HI as [-> Hs2]. split; [done|lia].
Qed.

Lemma field_specifier_fits i :
  wp (parse_field_specifier i) (fun '(i', f) => fits_u 16 f.(field_length) /\ i' `suffix_of` i).
Proof.
  pose proof (leaves_field_specifier i) as Hl.
  assert (Hf : wp (parse_field_specifier i) (fun '(i', f) => fits_u 16 f.(field_length))).
  { unfold parse_field_specifier. wp_steps. apply wp_cond; intros _; wp_steps; done. }
  pose proof (wp_conj _ _ _ Hf Hl) as H. eapply wp_mono; [exact H|]. by intros [i' f] [? ?].
Qed.

Hypothesis Hdeep : d <= MAX_LIST_DEPTH.

Lemma take_split n i :
  wp (nom_take n i) (fun '(i', c) => i = c ++ i' /\ (0 <= n -> zlen c = n)).
Proof.
  rewrite nom_take_law. unfold take_ref. destruct (Z.ltb_spec (zlen i) n); [done|]. cbn.
  rewrite take_drop. split; [done|]. intros. unfold zlen in *. rewrite length_take. lia.
Qed.

Lemma swp_basic_list n reads i :
  swp (parse_basic_list self dom pv n d reads i) (value_post n (d - 1) reads i)
    (fun s => reads <= s)%nat.
Proof.
  unfold parse_basic_list. apply swp_pure; [done|]. eapply wp_mono; [apply take_split|].
  intros [i' c] [-> Hc].
  apply swp_pure; [done|]. apply wp_map, wp_be_u8. intros c1 sem -> _.
  apply swp_pure; [done|]. eapply wp_mono; [apply field_specifier_fits|]. intros [c2 f] [Hf Hc2].
  pose proof (swp_basic_loop (S (length c2)) f
    match lookup (ie_registry self) (element_types self) dom f with
    | None => DataType.OctetArray | Some ie => ie_data_type ie end reads c2 Hf ltac:(lia)) as H.
  destruct (basic_list_loop _ _ _ _ _ _ _) as [s [content|e]]; cbn in H; [|exact H].
  destruct H as [Hs Hd]. cbn. unfold value_post. cbn [fst snd].
  split_and!; [done|solve_suffix| |].
  - intros Hn. rewrite zlen_app. specialize (Hc Hn). lia.
  - intros _. cbn [value_depth bl_content]. specialize (Hd Hdeep).
    enough (zmax value_depth content <= MAX_LIST_DEPTH - d) by lia. apply zmax_le; [lia|done].
Qed.

Lemma swp_sub_template_list n reads i :
  swp (parse_sub_template_list self dom pv n d reads i) (value_post n (d - 1) reads i)
    (fun s => reads <= s)%nat.
Proof.
  unfold parse_sub_template_list. apply swp_pure; [done|]. eapply wp_mono; [apply take_split|].
  intros [i' c] [-> Hc].
  apply swp_pure; [done|]. apply wp_map, wp_be_u8. intros c1 sem -> _.
  apply swp_pure; [done|]. apply wp_be_u16. intros c2 tid -> _.
  apply swp_bind. eapply swp_mono; [by apply swp_templated| |done].
  intros s [c3 rs] (Hs & _ & Hrs). cbn. unfold value_post. cbn [fst snd].
  split_and!; [done|solve_suffix| |].
  - intros Hn. rewrite zlen_app. specialize (Hc Hn). lia.
  - intros _. cbn [value_depth stl_data].
    enough (zmax (fun r => zmax value_depth (rec_values r)) (data_records rs) <= MAX_LIST_DEPTH - d)
      by lia.
    apply zmax_le; [lia|]. by apply data_records_depth.
Qed.

Lemma swp_multi_loop fuel : forall reads data,
  (length data < fuel)%nat ->
  swp (multi_list_loop self dom pv fuel d reads data) (fun s items =>
    (reads <= s)%nat /\
    Forall (fun it => zmax (fun r => zmax value_depth r.(rec_values)) it.(mi_data)
                      <= MAX_LIST_DEPTH - d) items)
    (fun s => reads <= s)%nat.
Proof.
  induction fuel as [|fuel IH]; intros reads data Hlen; [lia|]. cbn [multi_list_loop].
  destruct data as [|b data]; [apply swp_lift; [done|]; cbn; auto|].
  remember (b :: data) as data' eqn:Hdata. clear Hdata.
  apply swp_pure; [done|]. apply wp_be_u16. intros i1 tid -> _.
  apply swp_pure; [done|]. apply wp_be_u16. intros i2 len -> Hl.
  rewrite !length_app, !length_be_bytes in Hlen.
  destruct (Z.eqb_spec (Z.max 0 (len - 4)) 0); [apply IH; lia|].
  apply swp_pure; [done|]. apply wp_take; [lia|]. intros i3 c -> Hc.
  apply swp_bind. eapply swp_mono; [by apply swp_templated| |done].
  intros s1 [c' rs] (Hs1 & _ & Hrs).
  rewrite length_app in Hlen. pose proof (IH s1 i3 ltac:(lia)) as HI.
  destruct (multi_list_loop self dom pv fuel d s1 i3) as [s2 [items|e]]; cbn in *.
  - destruct HI as [Hs2 Hit]. split; [lia|]. constructor; [|done]. cbn.
    apply zmax_le; [lia|]. by apply data_records_depth.
  - destruct HI as [-> Hs2]. split; [done|lia].
Qed.

Lemma swp_sub_template_multi_list n reads i :
  swp (parse_sub_template_multi_list self dom pv n d reads i) (value_post n (d - 1) reads i)
    (fun s => reads <= s)%nat.
Proof.
  unfold parse_sub_template_multi_list. apply swp_pure; [done|].
  eapply wp_mono; [apply take_split|]. intros [i' c] [-> Hc].
  apply swp_pure; [done|]. apply wp_map, wp_be_u8. intros c1 sem -> _.
  pose proof (swp_multi_loop (S (length c1)) reads c1 ltac:(lia)) as H.
  destruct (multi_list_loop _ _ _ _ _ _ _) as [s [items|e]]; cbn in H; [|exact H].
  destruct H as [Hs Hd]. cbn. unfold value_post. cbn [fst snd].
  split_and!; [done|solve_suffix| |].
  - intros Hn. rewrite zlen_app. specialize (Hc Hn). lia.
  - intros _. cbn [value_depth ml_data].
    enough (zmax (fun it => zmax (fun r => zmax value_depth (rec_values r)) (mi_data it)) items
            <= MAX_LIST_DEPTH - d) by lia.
    by apply zmax_le; [lia|].
Qed.
End list_facts.

(** ** The value parser *)

Section value_parser.
Context `{NM : Nom} `{CR : Crates} `{CK : Clock}.

Lemma plain_depth dt n i :
  wp (parse_plain_value dt n i) (fun '(_, v) => value_depth v = 0).
Proof.
  assert (Hm : forall A p (h : A -> FieldValue) i, leaves i (p i) ->
    (forall a, value_depth (h a) = 0) -> wp (nom_map p h i) (fun '(_, v) => value_depth v = 0)).
  { intros A p h j Hl Hh. apply wp_map. eapply wp_mono; [exact Hl|]. intros [j' a] _. apply Hh. }
  unfold parse_plain_value. cbv zeta.
  destruct dt; repeat match goal with |- wp (if ?b then _ else _) _ => destruct b end;
    apply Hm; auto with leaves; by intros [].
Qed.

Lemma swp_plain_value dt n d reads i :
  swp (reads, parse_plain_value dt n i) (value_post n d reads i) (fun s => reads <= s)%nat.
Proof.
  apply swp_lift; [done|].
  pose proof (leaves_plain_value dt n i) as Hl. pose proof (plain_depth dt n i) as Hd.
  assert (He : 0 <= n -> wp (parse_plain_value dt n i) (fun '(i', _) => zlen i = n + zlen i')).
  { intros Hn. destruct (reads_at n _ _ i Hn (reads_plain_value dt n Hn))
      as [[_ ->]|(c & i' & a & -> & Hc & -> & _)]; [done|]. cbn. rewrite zlen_app. lia. }
  destruct (parse_plain_value dt n i) as [[i' v]|e]; cbn in *; [|done].
  unfold value_post. cbn [fst snd]. split_and!; auto. lia.
Qed.

Lemma swp_octets n d reads i :
  swp (reads, nom_map (vector n) FieldValue.OctetArray i) (value_post n d reads i)
    (fun s => reads <= s)%nat.
Proof.
  change (nom_map (vector n) FieldValue.OctetArray i) with (parse_plain_value DataType.OctetArray n i).
  apply swp_plain_value.
Qed.

(** With fuel for the levels that are left the value parser keeps its
    promises at every depth: it never runs out of fuel. *)
Lemma field_value_ok fuel : forall self dom d,
  (0 < fuel)%nat -> MAX_LIST_DEPTH - d < Z.of_nat fuel ->
  value_ok (parse_field_value fuel self dom) d.
Proof.
  induction fuel as [|fuel IH]; intros self dom d H0 Hf dt n reads i.
  - lia.
  - cbn [parse_field_value]. unfold field_value_step.
    destruct (Z.leb_spec MAX_LIST_DEPTH d) as [Hd|Hd].
    + destruct dt; apply swp_plain_value || apply swp_octets.
    + assert (Hok : value_ok (parse_field_value fuel self dom) (d + 1)) by (apply IH; lia).
      replace (value_post n d) with (value_post n (d + 1 - 1)) by (f_equal; lia).
      destruct dt; try apply swp_plain_value;
        [apply swp_basic_list|apply swp_sub_template_list|apply swp_sub_template_multi_list];
        auto; lia.
Qed.
End value_parser.

(** ** Records *)

Section records.
Context `{NM : Nom} `{CR : Crates} `{CK : Clock}.

Definition is_list (dt : DataType) : bool :=
  match dt with
  | DataType.BasicList | DataType.SubTemplateList | DataType.SubTemplateMultiList => true
  | _ => false
  end.

(** The octets [c] of a field that hold the value's octets [body]: with a
    length before them when the field is of variable length. *)
Definition field_octets (fl : Z) (c body : bytes) : Prop :=
  if fl =? IPFIX_VARIABLE_LENGTH then
    (c = be_bytes 1 (zlen body) ++ body /\ zlen body < 255) \/
    (c = be_bytes 1 255 ++ be_bytes 2 (zlen body) ++ body /\ zlen body < 65536)
  else c = body /\ zlen body = fl.

(** The values of a record, each from its own octets, in template order. *)
Fixpoint record_spec (fields : list ResolvedField) (c : bytes) (vs : list FieldValue) : Prop :=
  match fields, vs with
  | [], [] => c = []
  | f :: fields, v :: vs =>
      exists c1 body c2, c = c1 ++ c2 /\ field_octets f.(spec).(field_length) c1 body /\
        (is_list f.(data_type) = false -> value_spec f.(data_type) body v) /\
        record_spec fields c2 vs
  | _, _ => False
  end.

Definition lengths_ok (fields : list ResolvedField) : Prop :=
  Forall (fun f => fits_u 16 f.(spec).(field_length)) fields.

(** The fewest octets a record can have. *)
Definition min_length (fields : list ResolvedField) : Z :=
  zsum (fun f => if f.(spec).(field_length) =? IPFIX_VARIABLE_LENGTH then 1
                 else f.(spec).(field_length)) fields.

Lemma field_octets_min fl c body :
  field_octets fl c body -> (if fl =? IPFIX_VARIABLE_LENGTH then 1 else fl) <= zlen c.
Proof.
  unfold field_octets. pose proof (zlen_nonneg body). destruct (fl =? _).
  - intros [[-> _]|[-> _]]; rewrite !zlen_app, !zlen_be_bytes; lia.
  - intros [-> <-]. lia.
Qed.

Lemma record_spec_min fields : forall c vs, record_spec fields c vs -> min_length fields <= zlen c.
Proof.
  induction fields as [|f fields IH]; intros c [|v vs]; cbn [record_spec]; try done.
  - intros _. apply zlen_nonneg.
  - intros (c1 & body & c2 & -> & Hc1%field_octets_min & _ & Hc2%IH).
    unfold min_length in *. rewrite zsum_cons, zlen_app. lia.
Qed.

Lemma wp_field_octets fl i :
  fits_u 16 fl ->
  wp (parse_field_length i fl) (fun '(i', n) => 0 <= n /\
    forall body i'', i' = body ++ i'' -> zlen body = n ->
      exists c, i = c ++ i'' /\ field_octets fl c body).
Proof.
  intros Hfl. unfold parse_field_length, field_octets.
  destruct (Z.eqb_spec fl IPFIX_VARIABLE_LENGTH) as [->|Hv]; cbn [negb].
  - wp_steps. destruct (Z.ltb_spec v 255); wp_steps.
    + split; [width|]. intros body i'' -> <-. eexists. split; [by rewrite app_assoc|]. auto.
    + split; [width|]. intros body i'' -> <-. assert (v = 255) as -> by width.
      eexists. split; [by rewrite !app_assoc|]. right. rewrite <- !app_assoc. split; [done|width].
  - apply wp_ret. unfold fits_u in Hfl. split; [lia|]. intros body i'' -> Hb. eauto.
Qed.

(** What the parser at the top of the cycle reads for a value. *)
Lemma top_value self dom dt n reads i :
  0 <= n ->
  swp (parse_field_value list_fuel self dom dt n 0 reads i) (fun s '(i', v) =>
    (reads <= s)%nat /\ value_depth v <= MAX_LIST_DEPTH /\
    exists c, i = c ++ i' /\ zlen c = n /\ (is_list dt = false -> value_spec dt c v))
    (fun s => reads <= s)%nat.
Proof.
  intros Hn. pose proof (field_value_ok list_fuel self dom 0 ltac:(unfold list_fuel; lia)
    ltac:(by vm_compute) dt n reads i) as H.
  destruct (is_list dt) eqn:El.
  - eapply swp_mono; [exact H| |done]. intros s [i' v] (Hs & [c ->] & Hl & Hd). cbn in *.
    split_and!; [done|apply Hd; done|]. exists c. split_and!; [done| |done].
    specialize (Hl Hn). rewrite zlen_app in Hl. lia.
  - assert (Hp : parse_field_value list_fuel self dom dt n 0 reads i = (reads, parse_plain_value dt n i))
      by by destruct dt.
    rewrite Hp in *. apply swp_lift; [done|].
    destruct (reads_at n _ _ i Hn (reads_plain_value dt n Hn))
      as [[_ E]|(c & i' & v & -> & Hc & E & Hv)]; rewrite E in *; [done|].
    cbn in H |- *. destruct H as (_ & _ & _ & Hd). split_and!; [done|apply Hd; done|]. eauto 6.
Qed.

Lemma swp_record_spec self dom fields : forall reads i,
  lengths_ok fields ->
  swp (parse_values (parse_field_value list_fuel self dom) fields 0 reads i) (fun s '(i', vs) =>
    (reads <= s)%nat /\ Forall (fun v => value_depth v <= MAX_LIST_DEPTH) vs /\
    exists c, i = c ++ i' /\ record_spec fields c vs)
    (fun s => reads <= s)%nat.
Proof.
  induction fields as [|f fields IH]; intros reads i Hl; cbn [parse_values].
  - apply swp_lift; [done|]. cbn. split_and!; auto. by exists [].
  - apply Forall_cons in Hl as [Hf Hl]. apply swp_pure; [done|].
    eapply wp_mono; [by apply wp_field_octets|]. intros [i1 n] [Hn Hoct].
    apply swp_bind. eapply swp_mono; [by apply top_value| |done].
    intros s1 [i2 v] (Hs1 & Hd & body & -> & Hb & Hv).
    destruct (Hoct body i2 eq_refl Hb) as (c1 & -> & Hc1).
    apply swp_bind. eapply swp_mono; [by apply IH| |]; [|cbn; intros; lia].
    intros s2 [i3 vs] (Hs2 & Hds & c2 & -> & Hc2). cbn. split_and!; [lia|by constructor|].
    exists (c1 ++ c2). rewrite <- app_assoc. eauto 10.
Qed.

Lemma top_value_ok self dom : value_ok (parse_field_value list_fuel self dom) 0.
Proof. apply field_value_ok; [unfold list_fuel; lia|by vm_compute]. Qed.

Lemma record_shrinking self dom fields :
  shrinking (parse_record_from_fields (parse_field_value list_fuel self dom) fields 0).
Proof.
  intros s i s' i' r E.
  pose proof (swp_record (parse_field_value list_fuel self dom) 0 (top_value_ok _ _) fields s i) as H.
  rewrite E in H. apply suffix_zlen, H.
Qed.

Lemma record_consuming self dom fields :
  lengths_ok fields -> 0 < min_length fields ->
  consuming (parse_record_from_fields (parse_field_value list_fuel self dom) fields 0).
Proof.
  intros Hl Hm reads i. unfold parse_record_from_fields.
  pose proof (swp_record_spec self dom fields reads i Hl) as H.
  destruct (parse_values _ _ _ _ _) as [s [[i' vs]|e]]; cbn in H; [|by destruct H].
  destruct H as (_ & _ & c & -> & Hc%record_spec_min). rewrite zlen_app. lia.
Qed.

Lemma ipfix_decode_records_spec self dom fields wrap reads input :
  lengths_ok fields -> 0 < min_length fields ->
  exists cs records rest s s',
    decode_records (parse_field_value list_fuel self dom) fields wrap 0 reads input
      = (s', Ok (rest, (fun vs => wrap (from_template fields vs)) <$> records)) /\
    input = concat cs ++ rest /\ Forall2 (record_spec fields) cs records /\
    parse_record_from_fields (parse_field_value list_fuel self dom) fields 0 s rest
      = (s', Err Error).
Proof.
  intros Hl Hm. pose proof (record_consuming self dom fields Hl Hm) as Hc.
  destruct (many0_rounds _ reads input Hc) as (s & s' & rest & l & E & Hr & Hstop).
  set (R c r := exists vs, r = from_template (V := FieldValue) fields vs /\ record_spec fields c vs).
  destruct (rounds_chunks (parse_record_from_fields (parse_field_value list_fuel self dom) fields 0)
    R reads input s rest l) as (cs & -> & HR).
  - intros t j. unfold parse_record_from_fields.
    pose proof (swp_record_spec self dom fields t j Hl) as H.
    destruct (parse_values _ _ _ _ _) as [s1 [[i' vs]|e]]; cbn in H; [|done].
    destruct H as (_ & _ & c & -> & Hs). exists c. split; [done|]. by exists vs.
  - done.
  - assert (Hsplit : exists records, l = (fun vs => from_template fields vs) <$> records /\
      Forall2 (record_spec fields) cs records).
    { clear -HR. induction HR as [|c r cs l (vs & -> & Hvs) _ (records & -> & IH)].
      - by exists [].
      - exists (vs :: records). auto. }
    destruct Hsplit as (records & -> & HR').
    exists cs, records, rest, s, s'. split_and!; try done.
    unfold decode_records. destruct fields; [done|]. rewrite E. by rewrite <- list_fmap_compose.
Qed.

Lemma empty_record_values self dom fields : forall reads input,
  lengths_ok fields -> Forall (fun f => is_list f.(data_type) = false) fields ->
  min_length fields = 0 ->
  exists vs, parse_values (parse_field_value list_fuel self dom) fields 0 reads input
    = (reads, Ok (input, vs)).
Proof.
  induction fields as [|f fields IH]; intros reads input Hl Hp Hm; [by exists []|].
  apply Forall_cons in Hl as [Hf Hl]. apply Forall_cons in Hp as [Hpf Hp].
  assert (H0 : f.(spec).(field_length) = 0 /\ min_length fields = 0).
  { unfold min_length in *. rewrite zsum_cons in Hm.
    assert (0 <= zsum (fun f => if field_length (spec f) =? IPFIX_VARIABLE_LENGTH then 1
      else field_length (spec f)) fields).
    { clear -Hl. induction Hl as [|f fields Hf _ IH]; [done|]. rewrite zsum_cons.
      unfold fits_u in Hf. destruct (_ =? _); lia. }
    unfold fits_u in Hf. destruct (Z.eqb_spec (field_length (spec f)) IPFIX_VARIABLE_LENGTH); lia. }
  destruct H0 as [H0 Hm']. cbn [parse_values]. unfold parse_field_length. rewrite H0. cbn [Z.eqb negb IPFIX_VARIABLE_LENGTH].
  destruct (reads_plain_value f.(data_type) 0 ltac:(lia)) as [Hok _].
  destruct (Hok [] input eq_refl) as (v & E & _). cbn [app] in E.
  assert (Hpv : parse_field_value list_fuel self dom f.(data_type) 0 0 reads input
    = (reads, parse_plain_value f.(data_type) 0 input)) by by destruct (data_type f).
  rewrite Hpv, E. destruct (IH reads input Hl Hp Hm') as (vs & ->). eauto.
Qed.

Lemma ipfix_decode_empty_record self dom f fields wrap reads input :
  lengths_ok (f :: fields) -> Forall (fun f => is_list f.(data_type) = false) (f :: fields) ->
  min_length (f :: fields) = 0 ->
  decode_records (parse_field_value list_fuel self dom) (f :: fields) wrap 0 reads input
  = (reads, Err Error).
Proof.
  intros Hl Hp Hm. unfold decode_records.
  destruct (empty_record_values self dom (f :: fields) reads input Hl Hp Hm) as (vs & E).
  rewrite many0_law.
  - unfold many0_step, parse_record_from_fields. rewrite E. by rewrite Z.eqb_refl.
  - apply record_shrinking.
Qed.
End records.

(** ** Sets and messages *)

Section messages.
Context `{NM : Nom} `{CR : Crates} `{CK : Clock}.

Lemma leaves_of_swp {S A} (r : S * IResult A) i (P : S -> bytes * A -> Prop) E :
  swp r P E -> (forall s x, P s x -> x.1 `suffix_of` i) -> leaves i r.2.
Proof. destruct r as [s [[i' a]|e]]; cbn; [|naive_solver]. intros H Hs. by apply (Hs s (i', a)). Qed.

Lemma ipfix_leaves_template_record i : leaves i (parse_template_record i).
Proof.
  unfold parse_template_record. apply leaves_bind; [auto with leaves|]. intros i1 id.
  eapply wp_mono; [|intros x Hx; exact Hx]. apply wp_bind, wp_be_u16. intros i2 n -> Hn.
  eapply leaves_suffix; [apply suffix_app_r; reflexivity|].
  apply leaves_bind; [|intros; apply leaves_ok].
  apply leaves_count; [unfold fits_u in Hn; lia|apply leaves_field_specifier].
Qed.

Lemma ipfix_leaves_options_template_record i : leaves i (parse_options_template_record i).
Proof.
  unfold parse_options_template_record. apply leaves_bind; [auto with leaves|]. intros i1 id.
  eapply wp_mono; [|intros x Hx; exact Hx]. apply wp_bind, wp_be_u16. intros i2 n -> Hn.
  eapply leaves_suffix; [apply suffix_app_r; reflexivity|].
  apply leaves_bind; [destruct (n =? 0); auto with leaves|]. intros i3 sc.
  apply leaves_bind; [|intros; apply leaves_ok].
  apply leaves_count; [unfold fits_u in Hn; lia|apply leaves_field_specifier].
Qed.

Lemma swp_parse_templated self dom tid reads i :
  swp (parse_templated self dom tid reads i) (fun s '(i', rs) =>
    (reads <= s)%nat /\ i' `suffix_of` i /\ Forall (wrapped_ok 0) rs) (fun s => reads <= s)%nat.
Proof. apply swp_templated, top_value_ok. Qed.

Lemma ipfix_leaves_parse_records dom id st i : leaves i (parse_records dom id st i).2.
Proof.
  destruct st as [reads self]. unfold parse_records.
  destruct (id =? _); [|destruct (id =? _)].
  - pose proof (leaves_many0 parse_template_record i ipfix_leaves_template_record) as H.
    destruct (many0_fn _ i) as [[i' ts]|e]; [|exact H].
    destruct (apply_templates _ _ _ _ _ _ _). exact H.
  - pose proof (leaves_many0 parse_options_template_record i ipfix_leaves_options_template_record) as H.
    destruct (many0_fn _ i) as [[i' ts]|e]; [|exact H].
    destruct (apply_templates _ _ _ _ _ _ _). exact H.
  - destruct (IPFIX_VALID_TEMPLATE_ID id); [|apply leaves_ok].
    pose proof (swp_parse_templated self dom id reads i) as H.
    destruct (parse_templated self dom id reads i) as [s [[i' rs]|e]]; cbn in *; [|by destruct H].
    apply wp_ret. apply H.
Qed.

(** A set's octets: its header, and as many more as its length says, which
    alone decide its records. *)
Definition set_octets (c body : bytes) (s : Set_) : Prop :=
  c = be_bytes 2 s.(set_id) ++ be_bytes 2 s.(set_length) ++ body /\
  fits_u 16 s.(set_id) /\ fits_u 16 s.(set_length) /\ zlen c = s.(set_length).

Lemma swp_set dom st i :
  swp (parse_set dom st i) (fun st' '(i', s) =>
    exists c body rest, i = c ++ i' /\ set_octets c body s /\
      parse_records dom s.(set_id) st body = (st', Ok (rest, s.(set_records)))) (fun _ => True).
Proof.
  unfold parse_set. apply swp_pure; [done|]. apply wp_be_u16. intros i1 id -> Hid.
  apply swp_pure; [done|]. apply wp_be_u16. intros i2 len -> Hlen.
  destruct (Z.ltb_spec len SET_HEADER_SIZE) as [|H4].
  { apply swp_lift; [done|]. apply wp_fail. }
  unfold SET_HEADER_SIZE in *.
  apply swp_bind, swp_map_parser; [done|].
  apply wp_take; [lia|]. intros i' body -> Hbody.
  pose proof (ipfix_leaves_parse_records dom id st body) as Hl.
  destruct (parse_records dom id st body) as [st' [[rest rs]|e]] eqn:E; cbn in *; [|auto].
  exists (be_bytes 2 id ++ be_bytes 2 len ++ body), body, rest.
  rewrite <- !app_assoc. unfold set_octets. cbn [set_id set_length set_records].
  rewrite !zlen_app, !zlen_be_bytes. split_and!; auto; lia.
Qed.

Lemma set_consuming dom : consuming (parse_set dom).
Proof.
  intros st i. pose proof (swp_set dom st i) as H.
  destruct (parse_set dom st i) as [st' [[i' s]|e]]; cbn in H; [|by destruct H].
  destruct H as (c & body & rest & -> & (-> & _ & _ & Hlen) & _).
  rewrite !zlen_app, !zlen_be_bytes. pose proof (zlen_nonneg body). lia.
Qed.

Definition header_octets (h : Header) : bytes :=
  be_bytes 2 h.(h_version) ++ be_bytes 2 h.(h_length) ++ be_bytes 4 (timestamp h.(h_export_time)) ++
  be_bytes 4 h.(h_sequence_number) ++ be_bytes 4 h.(h_observation_domain_id).

Lemma ipfix_parse_header_octets i :
  match parse_header i with
  | Ok (i', h) => i = header_octets h ++ i' /\ h.(h_version) = IPFIX_VERSION /\ fits_u 16 h.(h_length)
  | Err e => e = Error /\ (zlen i < 16 \/ be_value (take 2 i) <> IPFIX_VERSION)
  end.
Proof.
  assert (Hb : forall n c, zlen c = Z.of_nat n -> be_bytes n (be_value c) = c).
  { intros n c Hc. apply be_bytes_be_value'. unfold zlen in Hc. lia. }
  unfold parse_header, verify_version. rewrite verify_law.
  read_at 2 be_u16 i; [split; [done|lia]|]. subst v.
  destruct (Z.eqb_spec (be_value c) IPFIX_VERSION) as [Hv|Hv].
  2: { split; [done|right]. unfold zlen in Hlen. by rewrite take_app_length' by lia. }
  read_at 2 be_u16 i0; [split; [done|left; rewrite zlen_app; lia]|].
  read_at 4 timestamp_secs i; [split; [done|left; rewrite !zlen_app; lia]|].
  read_at 4 be_u32 i0; [split; [done|left; rewrite !zlen_app; lia]|].
  read_at 4 be_u32 i; [split; [done|left; rewrite !zlen_app; lia]|].
  destruct Hval0 as [Hd _]. unfold header_octets. subst. cbn.
  rewrite Hd, !Hb, <- !app_assoc by done. split_and!; try done.
  by apply (be_value_fits _ 2).
Qed.

Lemma header_octets_length h : zlen (header_octets h) = IPFIX_HEADER_SIZE.
Proof. unfold header_octets. by rewrite !zlen_app, !zlen_be_bytes. Qed.

(** C34: Parsing a message fails only on a short or foreign header or when octets
    of its announced length are missing, and then changes nothing.  Otherwise
    the octets are the header, as many more as its length says, and the
    remaining input; those in between split into sets, each of the length it
    announces and decoded from its own octets by the state the sets before it
    left, and a rest no set can be read from, which is dropped. *)
Theorem ipfix_parse_total st input :
  match parse st input with
  | (st', Err e) => e = Error /\ st' = st /\
      (zlen input < IPFIX_HEADER_SIZE \/ be_value (take 2 input) <> IPFIX_VERSION \/
       zlen input < be_value (take 2 (drop 2 input)))
  | (st', Ok (remaining, p)) =>
      p.(p_header).(h_version) = IPFIX_VERSION /\
      exists chunks rest st1,
        input = header_octets p.(p_header) ++ (concat chunks ++ rest) ++ remaining /\
        zlen input - zlen remaining = Z.max IPFIX_HEADER_SIZE p.(p_header).(h_length) /\
        Forall2 (fun c s => exists body, set_octets c body s) chunks p.(p_sets) /\
        rounds (parse_set p.(p_header).(h_observation_domain_id)) st (concat chunks ++ rest) st1 rest
          p.(p_sets) /\
        parse_set p.(p_header).(h_observation_domain_id) st1 rest = (st', Err Error)
  end.
Proof.
  unfold parse. pose proof (ipfix_parse_header_octets input) as Hh.
  destruct (parse_header input) as [[i h]|e]; [|naive_solver]. destruct Hh as (-> & Hv & Hfit).
  rewrite map_parser_law.
  set (n := Z.max 0 (h_length h - IPFIX_HEADER_SIZE)).
  destruct (reads_at n (nom_take n) _ i ltac:(lia) (reads_take n ltac:(lia)))
    as [[Hs ->]|(c & remaining & a & -> & Hc & -> & ->)].
  { split_and!; [done|done|]. right. right. unfold header_octets, n, IPFIX_HEADER_SIZE in *.
    rewrite <- !app_assoc, drop_app_length' by by rewrite length_be_bytes.
    rewrite take_app_length' by by rewrite length_be_bytes.
    rewrite be_value_small by exact Hfit.
    rewrite !zlen_app, !zlen_be_bytes. pose proof (zlen_nonneg i). lia. }
  destruct (many0_rounds (parse_set h.(h_observation_domain_id)) st c (set_consuming _))
    as (st1 & st' & rest & l & -> & Hr & Hstop).
  split; [done|].
  destruct (rounds_chunks (parse_set h.(h_observation_domain_id))
    (fun c s => exists body, set_octets c body s) st c st1 rest l) as (cs & -> & HR).
  - intros s j. pose proof (swp_set h.(h_observation_domain_id) s j) as H.
    destruct (parse_set h.(h_observation_domain_id) s j) as [? [[? ?]|?]]; cbn in H; naive_solver.
  - done.
  - exists cs, rest, st1. cbn [p_header p_sets]. split_and!; auto.
    rewrite (zlen_app (header_octets h)), (zlen_app (concat cs ++ rest)), header_octets_length, Hc.
    unfold n, IPFIX_HEADER_SIZE. lia.
Qed.

Lemma parse_set_app dom st id body rest :
  fits_u 16 id -> fits_u 16 (4 + zlen body) ->
  parse_set dom st (be_bytes 2 id ++ be_bytes 2 (4 + zlen body) ++ body ++ rest)
  = match parse_records dom id st body with
    | (st, Ok (_, rs)) => (st, Ok (rest, mkSet id (4 + zlen body) rs))
    | (st, Err e) => (st, Err e)
    end.
Proof.
  intros Hid Hlen. unfold parse_set. rewrite !be_u16_app by done.
  pose proof (zlen_nonneg body). unfold SET_HEADER_SIZE.
  destruct (Z.ltb_spec (4 + zlen body) 4); [lia|].
  rewrite map_parser_law, nom_take_app by lia.
  by destruct (parse_records dom id st body) as [st' [[i rs]|e]].
Qed.

Lemma valid_id id : 256 <= id -> fits_u 16 id ->
  (id =? IPFIX_TEMPLATE_SET_ID) = false /\ (id =? IPFIX_OPTIONS_TEMPLATE_SET_ID) = false /\
  IPFIX_VALID_TEMPLATE_ID id = true.
Proof.
  unfold IPFIX_TEMPLATE_SET_ID, IPFIX_OPTIONS_TEMPLATE_SET_ID, IPFIX_VALID_TEMPLATE_ID, fits_u. lia.
Qed.

(** The template of a key with what its records are wrapped in: data templates
    come before options templates. *)
Definition known_template (self : IpfixParser) (key : TemplateKey) (reads reads' : nat)
    (fields : list ResolvedField) (wrap : DataRecord.DataRecord FieldSpecifier FieldValue -> Record_) : Prop :=
  (wrap = Data /\ TemplateCache.get self.(templates) key reads = (reads', Some fields)) \/
  (wrap = OptionsData /\ exists reads1,
     TemplateCache.get self.(templates) key reads = (reads1, None) /\
     TemplateCache.get self.(options_templates) key reads1 = (reads', Some fields)).

(** C35: A data set decodes under its data or options template: its octets split into the records,
    each decoded field by field from its own octets in template order, with
    the length prefix of variable-length fields, and a rest that holds no
    further record, which is left out as padding; records of an options
    template are learned from. *)
Theorem ipfix_data_set dom id self reads reads' fields wrap body rest :
  256 <= id -> fits_u 16 id -> fits_u 16 (4 + zlen body) ->
  known_template self (dom, id) reads reads' fields wrap ->
  lengths_ok fields -> 0 < min_length fields ->
  exists cs records pad s s',
    let out := (fun vs => wrap (from_template fields vs)) <$> records in
    parse_set dom (reads, self) (be_bytes 2 id ++ be_bytes 2 (4 + zlen body) ++ body ++ rest)
    = (s', learn_element_types self dom out, Ok (rest, mkSet id (4 + zlen body) out)) /\
    body = concat cs ++ pad /\ Forall2 (record_spec fields) cs records /\
    parse_record_from_fields (parse_field_value list_fuel self dom) fields 0 s pad
      = (s', Err Error).
Proof.
  intros H1 Hid Hlen Hget Hl Hm. destruct (valid_id id H1 Hid) as (E1 & E2 & E3).
  destruct (ipfix_decode_records_spec self dom fields wrap reads' body Hl Hm)
    as (cs & records & pad & s & s' & E & Hbody & HR & Hstop).
  exists cs, records, pad, s, s'. split; [|done]. rewrite parse_set_app by done.
  unfold parse_records. rewrite E1, E2, E3. unfold parse_templated, parse_templated_records.
  destruct Hget as [[-> ->]|(-> & reads1 & -> & ->)]; by rewrite E.
Qed.

(** A data set of a template all of whose fields are empty does not parse,
    although a template without fields is guarded against for the sake of the
    remaining sets: this set and all that follow it are dropped. *)
Theorem ipfix_empty_record_fails dom id self reads reads' f fields body rest :
  256 <= id -> fits_u 16 id -> fits_u 16 (4 + zlen body) ->
  TemplateCache.get self.(templates) (dom, id) reads = (reads', Some (f :: fields)) ->
  lengths_ok (f :: fields) -> Forall (fun f => is_list f.(data_type) = false) (f :: fields) ->
  min_length (f :: fields) = 0 ->
  parse_set dom (reads, self) (be_bytes 2 id ++ be_bytes 2 (4 + zlen body) ++ body ++ rest)
  = (reads', self, Err Error).
Proof.
  intros H1 Hid Hlen Hget Hl Hp Hm. destruct (valid_id id H1 Hid) as (E1 & E2 & E3).
  rewrite parse_set_app by done. unfold parse_records. rewrite E1, E2, E3.
  unfold parse_templated, parse_templated_records. rewrite Hget. by rewrite ipfix_decode_empty_record.
Qed.

(** A value takes exactly the octets it is given, however lists nest in it,
    and fails only with the recoverable error: the recursion never exceeds
    its bound.  The value nests at most [MAX_LIST_DEPTH] lists, and one that
    is no list decodes as [value_spec] says. *)
Theorem ipfix_value self dom dt n reads i :
  0 <= n ->
  match (parse_field_value list_fuel self dom dt n 0 reads i).2 with
  | Ok (i', v) => value_depth v <= MAX_LIST_DEPTH /\
      exists c, i = c ++ i' /\ zlen c = n /\ (is_list dt = false -> value_spec dt c v)
  | Err e => e = Error /\ (is_list dt = false -> zlen i < n)
  end.
Proof.
  intros Hn. pose proof (top_value self dom dt n reads i Hn) as H.
  destruct (parse_field_value list_fuel self dom dt n 0 reads i) as [s [[i' v]|e]] eqn:E; cbn [snd]; cbn in H.
  - naive_solver.
  - destruct H as [-> _]. split; [done|]. intros Hl.
    assert (Hp : parse_field_value list_fuel self dom dt n 0 reads i = (reads, parse_plain_value dt n i))
      by by destruct dt.
    rewrite Hp in E. injection E as _ E.
    destruct (reads_at n _ _ i Hn (reads_plain_value dt n Hn)) as [[? _]|(c & j & a & _ & _ & E' & _)];
      [done|congruence].
Qed.
End messages.

(** ** What the parser knows *)

Section knowledge.
Context `{NM : Nom} `{CR : Crates} `{CK : Clock} `{CM : !ClockMonotone CK}.
Implicit Types (self : IpfixParser) (cache : Templates).

(** The cache operation a template record stands for. *)
Definition template_op (registry : IERegistry) (types : ElementTypes) (dom all_id : Z)
    (t : Z * list FieldSpecifier) : option (TemplateCache.op ResolvedField) :=
  match t.2 with
  | [] => Some (if t.1 =? all_id then TemplateCache.RemoveDomain dom
                else TemplateCache.Remove (dom, t.1))
  | _ => if IPFIX_VALID_TEMPLATE_ID t.1
         then Some (TemplateCache.Insert (dom, t.1) (resolve_fields registry types dom t.2))
         else None
  end.

(** The clock is read for insertions only. *)
Definition op_reads (o : option (TemplateCache.op ResolvedField)) (reads : nat) : nat :=
  match o with Some (TemplateCache.Insert _ _) => S reads | _ => reads end.

Definition op_step cache (o : option (TemplateCache.op ResolvedField)) (now : Z) : Templates :=
  match o with Some o => (TemplateCache.step cache o now).1 | None => cache end.

Lemma apply_templates_cons registry types cache t ts dom all_id reads :
  apply_templates registry types cache (t :: ts) dom all_id reads
  = let o := template_op registry types dom all_id t in
    apply_templates registry types (op_step cache o (instant_at reads)) ts dom all_id
      (op_reads o reads).
Proof.
  destruct t as [id [|f fields]]; cbn.
  - unfold withdraw_templates. by destruct (id =? all_id).
  - by destruct (IPFIX_VALID_TEMPLATE_ID id).
Qed.

(** The same on the flat map of the specification. *)
Fixpoint spec_apply (tmo : Z) (m : gmap (Z * Z) (TemplateCache.Entry ResolvedField))
    (ops : list (option (TemplateCache.op ResolvedField))) (reads : nat)
    : gmap (Z * Z) (TemplateCache.Entry ResolvedField) :=
  match ops with
  | [] => m
  | o :: ops =>
      spec_apply tmo
        (match o with Some o => (TemplateCache.spec_step tmo m o (instant_at reads)).1 | None => m end)
        ops (op_reads o reads)
  end.

Lemma template_op_ok registry types dom all_id t o :
  template_op registry types dom all_id t = Some o ->
  TemplateCache.op_ok o /\ TemplateCache.op_domain o = dom.
Proof.
  destruct t as [id [|f fields]]; cbn.
  - intros [= <-]. by destruct (id =? all_id).
  - destruct (IPFIX_VALID_TEMPLATE_ID id); [|done]. by intros [= <-].
Qed.

(** Every cached template is what its specifiers resolve to. *)
Definition cache_resolved registry types cache : Prop :=
  forall key e, TemplateCache.find cache key = Some e ->
    e.(TemplateCache.e_fields)
    = resolve_fields registry types key.1 (spec <$> e.(TemplateCache.e_fields)).

Lemma resolve_spec registry types dom fields :
  spec <$> resolve_fields registry types dom fields = fields.
Proof.
  unfold resolve_fields. rewrite <- list_fmap_compose. induction fields as [|f fields IH]; [done|].
  cbn [fmap list_fmap]. rewrite IH. f_equal. unfold compose.
  by destruct (lookup registry types dom f).
Qed.

Lemma op_step_resolved registry types dom all_id t cache now :
  cache_resolved registry types cache ->
  cache_resolved registry types (op_step cache (template_op registry types dom all_id t) now).
Proof.
  intros Hc. destruct t as [id [|f fields]]; unfold template_op; cbn [fst snd].
  - destruct (id =? all_id); intros key e; cbn.
    + rewrite TemplateCache.find_remove_domain. case_decide; [done|apply Hc].
    + rewrite TemplateCache.find_remove. case_decide; [done|apply Hc].
  - destruct (IPFIX_VALID_TEMPLATE_ID id); [|done]. intros key e He.
    apply TemplateCache.find_insert_at in He as [He|[-> ->]]; [by apply Hc|].
    cbn [TemplateCache.e_fields]. rewrite resolve_spec. done.
Qed.

Lemma apply_templates_spec registry types dom all_id ts : forall cache reads,
  cache_inv cache (instant_at reads) ->
  let '(reads', cache') := apply_templates registry types cache ts dom all_id reads in
  (reads <= reads')%nat /\ cache_inv cache' (instant_at reads') /\
  cache'.(timeout) = cache.(timeout) /\
  (forall key now, key.1 <> dom -> instant_at reads' <= now ->
     get_at cache' key now = get_at cache key now) /\
  (forall m, refines cache m (instant_at reads) ->
     refines cache'
       (spec_apply cache.(timeout) m (template_op registry types dom all_id <$> ts) reads)
       (instant_at reads')) /\
  (cache_resolved registry types cache -> cache_resolved registry types cache').
Proof.
  induction ts as [|t ts IH]; intros cache reads Hi.
  { cbn. split_and!; auto. }
  rewrite apply_templates_cons. cbv zeta.
  set (o := template_op registry types dom all_id t).
  assert (Hr : (reads <= op_reads o reads)%nat) by (destruct o as [[]|]; cbn; lia).
  pose proof (instant_mono _ _ Hr) as Hm.
  assert (Ht : (op_step cache o (instant_at reads)).(timeout) = cache.(timeout)).
  { destruct o; cbn; [apply TemplateCache.timeout_step|done]. }
  assert (Hi' : cache_inv (op_step cache o (instant_at reads)) (instant_at reads)).
  { destruct o as [o'|] eqn:Eo; [|done]. apply template_op_ok in Eo as [Hok _].
    by eapply TemplateCache.step_inv; [reflexivity|..]. }
  specialize (IH (op_step cache o (instant_at reads)) (op_reads o reads)
    ltac:(by eapply TemplateCache.cache_inv_later)).
  destruct (apply_templates _ _ _ ts _ _ _) as [reads' cache'].
  destruct IH as (Hr' & Hi'' & Ht' & Hg & HR & Hres). rewrite Ht in Ht', HR.
  pose proof (instant_mono _ _ Hr') as Hm'.
  split_and!; [lia|done|done| | |].
  - intros key now Hk Hn. rewrite Hg by done. destruct o as [o'|] eqn:Eo; [|done].
    apply template_op_ok in Eo as [_ Hd].
    eapply TemplateCache.step_elsewhere; [reflexivity|done|congruence|lia].
  - intros m HRm. cbn [fmap list_fmap spec_apply]. fold o. apply HR.
    eapply TemplateCache.refines_later; [exact Hm|]. destruct o as [o'|] eqn:Eo; [|done].
    apply template_op_ok in Eo as [Hok _].
    by eapply (TemplateCache.step_refines cache m o' _ _); [reflexivity|..].
  - intros Hc. apply Hres, op_step_resolved, Hc.
Qed.

Lemma resolve_ext registry types types' dom fields :
  (forall id en, types_lookup types dom id en = types_lookup types' dom id en) ->
  resolve_fields registry types dom fields = resolve_fields registry types' dom fields.
Proof.
  intros Heq. unfold resolve_fields. apply list_fmap_ext. intros i f _. unfold lookup.
  by rewrite Heq.
Qed.

Lemma zlen_resolve registry types dom (fields : list ResolvedField) :
  zlen (resolve_fields registry types dom (spec <$> fields)) = zlen fields.
Proof. unfold resolve_fields. by rewrite !zlen_fmap. Qed.

(** The loop of [learn_element_types]. *)
Lemma learn_loop registry dom records : forall types changed,
  let '(types', changed') :=
    fold_left (fun '(types, changed) record =>
      match record with
      | OptionsData record =>
          let '(types, c) := learn types dom record registry in (types, changed || c)
      | _ => (types, changed)
      end) records (types, changed) in
  (changed' = false -> changed = false /\
     forall d id en, types_lookup types' d id en = types_lookup types d id en) /\
  (forall d id en, d <> dom -> types_lookup types' d id en = types_lookup types d id en) /\
  (types_inv registry types -> types_inv registry types').
Proof.
  induction records as [|r records IH]; intros types changed; cbn [fold_left]; [auto|].
  destruct r as [t|t|r|r]; try apply IH.
  pose proof (learn_changed_iff registry types dom r) as Hc.
  pose proof (learn_elsewhere registry types dom r) as He.
  assert (Hi : types_inv registry types -> types_inv registry (learn types dom r registry).1)
    by apply learn_keeps_inv.
  destruct (learn types dom r registry) as [types1 c]. cbn [fst snd] in *.
  specialize (IH types1 (changed || c)).
  destruct (fold_left _ records (types1, changed || c)) as [types' changed'].
  destruct IH as (H1 & H2 & H3). split_and!; [|intros; rewrite H2 by done; auto|auto].
  intros Hf. destruct (H1 Hf) as [Hcc Heq]. apply orb_false_iff in Hcc as [-> ->].
  split; [done|]. intros d id en. rewrite Heq.
  destruct (decide (types_lookup types1 d id en = types_lookup types d id en)) as [|Hne]; [done|].
  exfalso. assert (false = true) by (apply Hc; eauto). done.
Qed.

(** What holds of a parser at time [t]. *)
Record parser_inv self (t : Z) : Prop := {
  inv_templates : cache_inv self.(templates) t;
  inv_options : cache_inv self.(options_templates) t;
  inv_types : types_inv self.(ie_registry) self.(element_types);
  inv_resolved : cache_resolved self.(ie_registry) self.(element_types) self.(templates);
  inv_options_resolved :
    cache_resolved self.(ie_registry) self.(element_types) self.(options_templates);
}.

(** What a parser knows of the domains other than [dom], from [reads] on. *)
Definition same_elsewhere (dom : Z) (st st' : nat * IpfixParser) : Prop :=
  (st.1 <= st'.1)%nat /\ st'.2.(ie_registry) = st.2.(ie_registry) /\
  (forall key now, key.1 <> dom -> instant_at st'.1 <= now ->
    get_at st'.2.(templates) key now = get_at st.2.(templates) key now /\
    get_at st'.2.(options_templates) key now = get_at st.2.(options_templates) key now) /\
  (forall d id en, d <> dom ->
    types_lookup st'.2.(element_types) d id en = types_lookup st.2.(element_types) d id en).

Definition steps_ok (dom : Z) (st st' : nat * IpfixParser) : Prop :=
  parser_inv st.2 (instant_at st.1) ->
  parser_inv st'.2 (instant_at st'.1) /\ same_elsewhere dom st st'.

Lemma ipfix_steps_ok_refl dom st : steps_ok dom st st.
Proof. intros H. by split_and!. Qed.

Lemma ipfix_steps_ok_trans dom a b c : steps_ok dom a b -> steps_ok dom b c -> steps_ok dom a c.
Proof.
  intros Hab Hbc Ha. destruct (Hab Ha) as [Hb (H1 & H2 & H3 & H4)].
  destruct (Hbc Hb) as [Hc (H1' & H2' & H3' & H4')]. split; [done|].
  split_and!; [lia|congruence| |].
  - intros key now Hk Hn. pose proof (instant_mono b.1 c.1 H1').
    destruct (H3 key now Hk) as [? ?]; [lia|]. destruct (H3' key now Hk Hn). split; congruence.
  - intros d id en Hd. by rewrite H4', H4.
Qed.

Lemma ipfix_parser_inv_later self t t' : t <= t' -> parser_inv self t -> parser_inv self t'.
Proof. intros Ht []. constructor; auto; by eapply TemplateCache.cache_inv_later. Qed.

Lemma later_ok dom self reads reads' :
  (reads <= reads')%nat -> steps_ok dom (reads, self) (reads', self).
Proof.
  intros Hr Hi. pose proof (instant_mono _ _ Hr). cbn in *.
  split; [by eapply ipfix_parser_inv_later|]. by split_and!.
Qed.

Lemma refresh_resolved registry types types' dom cache :
  (forall d id en, d <> dom -> types_lookup types' d id en = types_lookup types d id en) ->
  cache_resolved registry types cache ->
  cache_resolved registry types' (TemplateCache.refresh_domain cache dom
    (fun fields => resolve_fields registry types' dom (spec <$> fields))).
Proof.
  intros Heq Hc key e. rewrite TemplateCache.find_refresh_domain. case_decide as Hk.
  - intros (e' & He' & ->)%fmap_Some. cbn [TemplateCache.e_fields]. by rewrite resolve_spec, Hk.
  - intros He. rewrite (Hc key e He) at 1. apply resolve_ext. intros id en. by rewrite Heq.
Qed.

Lemma learn_ok dom self reads records :
  steps_ok dom (reads, self) (reads, learn_element_types self dom records).
Proof.
  intros Hi. destruct Hi as [H1 H2 H3 H4 H5]. cbn [fst snd] in *. unfold learn_element_types.
  pose proof (learn_loop (ie_registry self) dom records (element_types self) false) as HL.
  destruct (fold_left _ records _) as [types' changed']. destruct HL as (Hsame & Hels & Hinv).
  destruct changed'; cbn [negb].
  - assert (Hlen : forall fs : list ResolvedField,
      zlen (resolve_fields (ie_registry self) types' dom (spec <$> fs)) = zlen fs)
      by (intros; apply zlen_resolve).
    split; [constructor; cbn|].
    + by apply TemplateCache.refresh_domain_inv.
    + by apply TemplateCache.refresh_domain_inv.
    + auto.
    + by eapply refresh_resolved.
    + by eapply refresh_resolved.
    + split_and!; cbn; [lia|done| |done]. intros key now Hk Hn.
      split; (eapply (TemplateCache.step_elsewhere _ (TemplateCache.RefreshDomain dom _));
        [reflexivity|done|done|done]).
  - destruct (Hsame eq_refl) as [_ Heq].
    split; [constructor; cbn; auto|split_and!; cbn; auto].
    + intros key e He. rewrite (H4 key e He) at 1. apply resolve_ext. intros. by rewrite Heq.
    + intros key e He. rewrite (H5 key e He) at 1. apply resolve_ext. intros. by rewrite Heq.
Qed.

Lemma parse_records_ok dom id st i : steps_ok dom st (parse_records dom id st i).1.
Proof.
  destruct st as [reads self]. unfold parse_records.
  destruct (id =? _); [|destruct (id =? _)].
  - destruct (many0_fn _ i) as [[i' ts]|e]; [|apply ipfix_steps_ok_refl]. intros [H1 H2 H3 H4 H5].
    cbn [fst snd] in *.
    pose proof (apply_templates_spec (ie_registry self) (element_types self) dom
      IPFIX_TEMPLATE_SET_ID ((fun t => (t_template_id t, t_fields t)) <$> ts) _ _ H1) as H.
    destruct (apply_templates _ _ _ _ _ _ _) as [reads' cache'].
    destruct H as (Hr & Hi & _ & Hg & _ & Hres). pose proof (instant_mono _ _ Hr).
    split; [constructor; cbn; auto; by eapply TemplateCache.cache_inv_later|].
    split_and!; cbn; auto.
  - destruct (many0_fn _ i) as [[i' ts]|e]; [|apply ipfix_steps_ok_refl]. intros [H1 H2 H3 H4 H5].
    cbn [fst snd] in *.
    pose proof (apply_templates_spec (ie_registry self) (element_types self) dom
      IPFIX_OPTIONS_TEMPLATE_SET_ID ((fun t => (o_template_id t, o_fields t)) <$> ts) _ _ H2) as H.
    destruct (apply_templates _ _ _ _ _ _ _) as [reads' cache'].
    destruct H as (Hr & Hi & _ & Hg & _ & Hres). pose proof (instant_mono _ _ Hr).
    split; [constructor; cbn; auto; by eapply TemplateCache.cache_inv_later|].
    split_and!; cbn; auto.
  - destruct (IPFIX_VALID_TEMPLATE_ID id); [|apply ipfix_steps_ok_refl].
    pose proof (swp_parse_templated self dom id reads i) as H.
    destruct (parse_templated self dom id reads i) as [s [[i' rs]|e]]; cbn in H |- *.
    + eapply ipfix_steps_ok_trans; [apply later_ok, H|apply learn_ok].
    + apply later_ok, H.
Qed.

Lemma parse_set_ok dom st i : steps_ok dom st (parse_set dom st i).1.
Proof.
  unfold parse_set.
  destruct (be_u16 i) as [[i1 id]|]; [|apply ipfix_steps_ok_refl].
  destruct (be_u16 i1) as [[i2 len]|]; [|apply ipfix_steps_ok_refl].
  destruct (_ <? _); [apply ipfix_steps_ok_refl|]. rewrite map_parser_law.
  destruct (nom_take _ i2) as [[i3 body]|]; [|apply ipfix_steps_ok_refl].
  pose proof (parse_records_ok dom id st body) as H.
  destruct (parse_records dom id st body) as [st' [[? ?]|]]; exact H.
Qed.

Lemma rounds_ok dom st i st' i' l : rounds (parse_set dom) st i st' i' l -> steps_ok dom st st'.
Proof.
  induction 1 as [st i|st i st1 i1 s st' i' l E _ IH]; [apply ipfix_steps_ok_refl|].
  eapply ipfix_steps_ok_trans; [|exact IH]. pose proof (parse_set_ok dom st i) as H. by rewrite E in H.
Qed.

Lemma ipfix_parse_steps st input : exists dom,
  steps_ok dom st (parse st input).1 /\
  forall rest p, (parse st input).2 = Ok (rest, p) -> p.(p_header).(h_observation_domain_id) = dom.
Proof.
  unfold parse.
  destruct (parse_header input) as [[i h]|e]; [|exists 0; by split; [apply ipfix_steps_ok_refl|]].
  exists h.(h_observation_domain_id). rewrite map_parser_law.
  destruct (nom_take _ i) as [[i1 c]|e]; [|by split; [apply ipfix_steps_ok_refl|]].
  destruct (many0_rounds (parse_set h.(h_observation_domain_id)) st c (set_consuming _))
    as (st1 & st2 & i' & l & -> & Hr & Hstop). cbn. split; [|by intros rest p [= <- <-]].
  apply (ipfix_steps_ok_trans _ _ st1); [by eapply rounds_ok|].
  pose proof (parse_set_ok h.(h_observation_domain_id) st1 i') as H. by rewrite Hstop in H.
Qed.

Lemma parse_ok st input st' rest p :
  parse st input = (st', Ok (rest, p)) -> steps_ok p.(p_header).(h_observation_domain_id) st st'.
Proof.
  intros E. destruct (ipfix_parse_steps st input) as (dom & H & Hd). rewrite E in H, Hd.
  by rewrite (Hd _ _ eq_refl).
Qed.

Lemma ipfix_new_parser_inv registry tmo reads :
  0 <= tmo -> parser_inv (new registry tmo reads).2 (instant_at (new registry tmo reads).1).
Proof.
  intros Ht. cbn. pose proof (instant_mono reads (S (S reads)) ltac:(lia)).
  pose proof (instant_mono (S reads) (S (S reads)) ltac:(lia)).
  constructor; cbn; try (eapply TemplateCache.cache_inv_later; [|by apply TemplateCache.new_inv]; done).
  - apply default_types_inv.
  - intros key e. unfold TemplateCache.find. cbn. by rewrite lookup_empty.
  - intros key e. unfold TemplateCache.find. cbn. by rewrite lookup_empty.
Qed.

(** *** Properties *)

(** C37: Whatever a message holds, it leaves what the parser knows of the other
    observation domains as it was: every later lookup of their templates and
    of the elements they described gives what it would have given without the
    message. *)
Theorem ipfix_domain_isolation st input st' rest p :
  parser_inv st.2 (instant_at st.1) ->
  parse st input = (st', Ok (rest, p)) ->
  same_elsewhere p.(p_header).(h_observation_domain_id) st st'.
Proof. intros Hi E. by apply (parse_ok _ _ _ _ _ E). Qed.

(** C36: After every message the caches are well-formed, the table of described
    elements is within its limit, and every cached template is what its
    specifiers resolve to under the registry and all that was learned so far,
    also the templates that were stored before. *)
Theorem ipfix_templates_resolved st input st' rest p :
  parser_inv st.2 (instant_at st.1) ->
  parse st input = (st', Ok (rest, p)) ->
  parser_inv st'.2 (instant_at st'.1).
Proof. intros Hi E. by apply (parse_ok _ _ _ _ _ E). Qed.
End knowledge.

(** ** Samples *)

Section samples.
#[local] Instance sample_nom : Nom := nom_std.
#[local] Instance sample_crates : Crates := crates_std.
#[local] Instance sample_clock : Clock := fun n => 1000 * Z.of_nat n.

#[local] Instance sample_clock_mono : ClockMonotone sample_clock.
Proof. intros m n H. unfold instant_at, sample_clock. lia. Qed.

Definition sample_registry : IERegistry :=
  add_element (add_element IERegistry.new 1 None (str "octetDeltaCount") DataType.Unsigned)
    96 None (str "applicationName") DataType.String.

Definition sample_parser : nat * IpfixParser := new sample_registry (from_mins 10) 0%nat.

(** Four octets and a string of variable length. *)
Definition sample_specs : list FieldSpecifier := [iana 1 4; iana 96 IPFIX_VARIABLE_LENGTH].

Definition sample_fields : list ResolvedField :=
  resolve_fields sample_registry default_types 7 sample_specs.

(** Two records, of seven and five octets, and a padding octet. *)
Definition sample_data : bytes :=
  be_bytes 4 42 ++ be_bytes 1 2 ++ str "ab" ++ be_bytes 4 43 ++ be_bytes 1 0 ++ be_bytes 1 0.

Definition sample_set : bytes := be_bytes 2 256 ++ be_bytes 2 (4 + zlen sample_data) ++ sample_data.

Definition sample_template_set : bytes :=
  be_bytes 2 2 ++ be_bytes 2 16 ++ be_bytes 2 256 ++ be_bytes 2 2 ++ be_bytes 2 1 ++ be_bytes 2 4 ++
  be_bytes 2 96 ++ be_bytes 2 65535.

Definition sample_message : bytes :=
  be_bytes 2 10 ++ be_bytes 2 49 ++ be_bytes 4 1_700_000_000 ++ be_bytes 4 5 ++ be_bytes 4 7 ++
  sample_template_set ++ sample_set.

Definition with_template (fields : list ResolvedField) : IpfixParser :=
  mkParser sample_registry default_types
    (TemplateCache.insert_at sample_parser.2.(templates) (7, 256) fields 2000)
    sample_parser.2.(options_templates).

Lemma ipfix_data_set_witness :
  exists cs records pad s s',
    let out := (fun vs => Data (from_template sample_fields vs)) <$> records in
    parse_set 7 (3%nat, with_template sample_fields) (sample_set ++ [])
    = (s', learn_element_types (with_template sample_fields) 7 out, Ok ([], mkSet 256 (4 + zlen sample_data) out)) /\
    sample_data = concat cs ++ pad /\ Forall2 (record_spec sample_fields) cs records /\
    parse_record_from_fields (parse_field_value list_fuel (with_template sample_fields) 7)
      sample_fields 0 s pad = (s', Err Error).
Proof.
  unfold sample_set. rewrite <- !app_assoc.
  apply (ipfix_data_set 7 256 (with_template sample_fields) 3 4); [done|done|done|left; split; [reflexivity|by vm_compute]| |done].
  apply (bool_decide_unpack _). by vm_compute.
Defined.

Lemma ipfix_empty_record_fails_witness :
  let fields := resolve_fields sample_registry default_types 7 [iana 1 0] in
  parse_set 7 (3%nat, with_template fields) (be_bytes 2 256 ++ be_bytes 2 (4 + zlen sample_data) ++ sample_data ++ [])
  = (4%nat, with_template fields, Err Error).
Proof.
  intros fields.
  apply (ipfix_empty_record_fails 7 256 (with_template fields) 3 4
    (mkResolved (iana 1 0) DataType.Unsigned (str "octetDeltaCount")) []);
    [done|done|done|by vm_compute| | |done]; apply (bool_decide_unpack _); by vm_compute.
Defined.

Lemma ipfix_value_witness :
  exists s i' v, parse_field_value list_fuel sample_parser.2 7 DataType.Unsigned 3 0 2
      [x01; x02; x03; x04] = (s, Ok (i', v)) /\
    value_depth v <= MAX_LIST_DEPTH /\
    exists c, [x01; x02; x03; x04] = c ++ i' /\ zlen c = 3 /\
      (is_list DataType.Unsigned = false -> value_spec DataType.Unsigned c v).
Proof.
  pose proof (ipfix_value sample_parser.2 7 DataType.Unsigned 3 2 [x01; x02; x03; x04] ltac:(lia)) as H.
  destruct (parse_field_value _ _ _ _ _ _ _ _) as [s [[i' v]|e]].
  - exists s, i', v. split; [reflexivity|exact H].
  - destruct H as [_ H]. discriminate (H eq_refl).
Defined.

Lemma ipfix_sample_parser_inv : parser_inv sample_parser.2 (instant_at sample_parser.1).
Proof. by apply ipfix_new_parser_inv. Qed.

Lemma ipfix_domain_isolation_witness :
  exists st' p, parse sample_parser sample_message = (st', Ok ([], p)) /\
    (fun s => (s.(set_id), length s.(set_records))) <$> p.(p_sets) = [(2, 1%nat); (256, 2%nat)] /\
    get_at st'.2.(templates) (7, 256) 5000 = Some sample_fields /\
    same_elsewhere 7 sample_parser st'.
Proof.
  assert (Hc : match parse sample_parser sample_message with
    | (st', Ok (rest, p)) => rest = [] /\ h_observation_domain_id (p_header p) = 7 /\
        (fun s => (s.(set_id), length s.(set_records))) <$> p.(p_sets) = [(2, 1%nat); (256, 2%nat)] /\
        get_at (templates st'.2) (7, 256) 5000 = Some sample_fields
    | _ => False
    end) by (vm_compute; auto).
  pose proof (ipfix_domain_isolation sample_parser sample_message) as H.
  destruct (parse sample_parser sample_message) as [st' [[rest p]|e]]; [|by destruct Hc].
  destruct Hc as (-> & Hs & Hf & Hg).
  pose proof (H st' [] p ipfix_sample_parser_inv eq_refl) as H'. rewrite Hs in H'.
  exists st', p. split; [reflexivity|]. auto.
Defined.

Lemma ipfix_templates_resolved_witness :
  exists st' p, parse sample_parser sample_message = (st', Ok ([], p)) /\
    parser_inv st'.2 (instant_at st'.1) /\ st'.1 = 4%nat.
Proof.
  assert (Hc : match parse sample_parser sample_message with
    | (st', Ok (rest, p)) => rest = [] /\ st'.1 = 4%nat
    | _ => False
    end) by (vm_compute; auto).
  pose proof (ipfix_templates_resolved sample_parser sample_message) as H.
  destruct (parse sample_parser sample_message) as [st' [[rest p]|e]]; [|by destruct Hc].
  destruct Hc as (-> & Hn). exists st', p. split; [reflexivity|]. split; [|exact Hn].
  exact (H st' [] p ipfix_sample_parser_inv eq_refl).
Defined.
End samples.
