(* ===== verification/IpfixEncoder.v ===== *)
(** [ipfix/encoder.rs]: writing IPFIX messages, and reading them back.

    Every encoder is generic in its buffer; those that assemble octets on the
    side use a [Vec<u8>]. *)

From Stdlib Require Import ZArith Lia Strings.Byte.
From stdpp Require Import base tactics numbers list sets.
From S2P Require Import TemplateCache.
From S2P Require Import Prelude Nom Parsing Std Crates CommonParser IERegistry InformationElement DataRecord IpfixTypes ElementTypes Ipfix.
#[local] Open Scope Z_scope.

Section encoder.
Context `{CR : Crates}.

Abbreviation DataRecord := (DataRecord.DataRecord FieldSpecifier FieldValue).

Definition datetime_to_ntp (dt : DateTime) : Z * Z :=
  let unix_secs := wrap 64 (timestamp dt) in
  let ntp_secs := wrap 64 (unix_secs + NTP_UNIX_EPOCH_DIFF) in
  let nanos := timestamp_subsec_nanos dt in
  let fraction := wrap 64 (Z.shiftl nanos 32) / 1_000_000_000 in
  (wrap 32 ntp_secs, wrap 32 fraction).

Definition FieldSpecifier_encode `{BM : BufMut B} (self : FieldSpecifier) (buf : B) : B :=
  let id_with_enterprise_bit :=
    if self.(enterprise_bit) then Z.lor self.(information_element_identifier) 0x8000
    else self.(information_element_identifier) in
  let buf := put_u16 buf id_with_enterprise_bit in
  let buf := put_u16 buf self.(field_length) in
  match self.(enterprise_number) with
  | Some enterprise_number => put_u32 buf enterprise_number
  | None => buf
  end.

Definition Header_encode `{BM : BufMut B} (self : Header) (buf : B) : B :=
  let buf := put_u16 buf self.(h_version) in
  let buf := put_u16 buf self.(h_length) in
  let buf := put_u32 buf (wrap 32 (timestamp self.(h_export_time))) in
  let buf := put_u32 buf self.(h_sequence_number) in
  put_u32 buf self.(h_observation_domain_id).

Definition SetHeader_encode `{BM : BufMut B} (self : SetHeader) (buf : B) : B :=
  let buf := put_u16 buf self.(sh_set_id) in
  put_u16 buf self.(sh_length).

Definition TemplateRecord_encode `{BM : BufMut B} (self : TemplateRecord) (buf : B) : B :=
  let buf := put_u16 buf self.(t_template_id) in
  let buf := put_u16 buf self.(t_field_count) in
  fold_left (fun buf field => FieldSpecifier_encode field buf) self.(t_fields) buf.

Definition OptionsTemplateRecord_encode `{BM : BufMut B} (self : OptionsTemplateRecord) (buf : B) : B :=
  let buf := put_u16 buf self.(o_template_id) in
  let buf := put_u16 buf self.(o_field_count) in
  let buf := put_u16 buf self.(o_scope_field_count) in
  fold_left (fun buf field => FieldSpecifier_encode field buf) self.(o_fields) buf.

Definition put_fixed `{BM : BufMut B} (bytes : bytes) (length : Z) (buf : B) : B :=
  let bytes := take (Z.to_nat (Z.min (zlen bytes) length)) bytes in
  let buf := put_slice buf bytes in
  put_bytes buf 0 (length - zlen bytes).

Definition put_uint `{BM : BufMut B} (value length : Z) (buf : B) : B :=
  let bytes := be_bytes 8 value in
  if length <=? zlen bytes then put_slice buf (drop (Z.to_nat (zlen bytes - length)) bytes)
  else put_slice (put_bytes buf 0 (length - zlen bytes)) bytes.

Definition put_int `{BM : BufMut B} (value length : Z) (buf : B) : B :=
  let bytes := be_bytes 8 value in
  if length <=? zlen bytes then put_slice buf (drop (Z.to_nat (zlen bytes - length)) bytes)
  else put_slice (put_bytes buf (if value <? 0 then 0xff else 0) (length - zlen bytes)) bytes.

(** [encode_field_value], given how a value encodes itself. *)
Definition encode_field_value_with
    (encode : forall B (BM : BufMut B), FieldValue -> B -> B)
    `{BM : BufMut B} (value : FieldValue) (field_length : Z) (buf : B) : B :=
  if field_length =? IPFIX_VARIABLE_LENGTH then
    let value_data := encode bytes _ value [] in
    let buf :=
      if zlen value_data <? 255 then put_u8 buf (wrap 8 (zlen value_data))
      else put_u16 (put_u8 buf 255) (wrap 16 (zlen value_data)) in
    put_slice buf value_data
  else if field_length =? 0 then encode B _ value buf
  else
    let length := field_length in
    match value with
    | FieldValue.Unsigned8 v => put_uint v length buf
    | FieldValue.Unsigned16 v => put_uint v length buf
    | FieldValue.Unsigned32 v => put_uint v length buf
    | FieldValue.Unsigned64 v => put_uint v length buf
    | FieldValue.Signed8 v => put_int v length buf
    | FieldValue.Signed16 v => put_int v length buf
    | FieldValue.Signed32 v => put_int v length buf
    | FieldValue.Signed64 v => put_int v length buf
    | FieldValue.OctetArray v => put_fixed v length buf
    | FieldValue.String v =>
        put_fixed (take (floor_char_boundary v (Z.to_nat length)) v) length buf
    | FieldValue.Null => put_bytes buf 0 length
    | _ => encode B _ value buf
    end.

(** The fields of a record with their values, in template order, up to the
    shorter of the two. *)
Fixpoint encode_values (encode : forall B (BM : BufMut B), FieldValue -> B -> B)
    `{BM : BufMut B} (values : list FieldValue) (fields : list ResolvedField) (buf : B) : B :=
  match values with
  | [] => buf
  | value :: values =>
      match fields with
      | [] => buf
      | field :: fields =>
          encode_values encode values fields
            (encode_field_value_with encode value field.(spec).(field_length) buf)
      end
  end.

Fixpoint FieldValue_encode {B} {BM : BufMut B} (self : FieldValue) (buf : B) {struct self} : B :=
  let encode B (BM : BufMut B) := @FieldValue_encode B BM in
  match self with
  | FieldValue.Unsigned8 v => put_u8 buf v
  | FieldValue.Unsigned16 v => put_u16 buf v
  | FieldValue.Unsigned32 v => put_u32 buf v
  | FieldValue.Unsigned64 v => put_u64 buf v
  | FieldValue.Unsigned256 v => put_slice buf (U256_to_big_endian v)
  | FieldValue.Signed8 v => put_i8 buf v
  | FieldValue.Signed16 v => put_i16 buf v
  | FieldValue.Signed32 v => put_i32 buf v
  | FieldValue.Signed64 v => put_i64 buf v
  | FieldValue.Float32 v => put_f32 buf v
  | FieldValue.Float64 v => put_f64 buf v
  | FieldValue.Boolean v => put_u8 buf (if v then 1 else 2)
  | FieldValue.MacAddress v => put_slice buf (MacAddr6_as_bytes v)
  | FieldValue.OctetArray v => put_slice buf v
  | FieldValue.String v => put_slice buf v
  | FieldValue.DateTimeSeconds v => put_u32 buf (wrap 32 (timestamp v))
  | FieldValue.DateTimeMilliseconds v => put_u64 buf (wrap 64 (Crates.timestamp_millis v))
  | FieldValue.DateTimeMicroseconds v | FieldValue.DateTimeNanoseconds v =>
      let '(ntp_secs, fraction) := datetime_to_ntp v in put_u32 (put_u32 buf ntp_secs) fraction
  | FieldValue.Ipv4Address v => put_slice buf (be_bytes 4 v)
  | FieldValue.Ipv6Address v => put_slice buf (be_bytes 16 v)
  | FieldValue.BasicList v =>
      let buf := put_u8 buf (Semantic.into v.(bl_semantic)) in
      let buf := FieldSpecifier_encode v.(bl_field) buf in
      fold_left (fun buf value =>
        encode_field_value_with encode value v.(bl_field).(field_length) buf) v.(bl_content) buf
  | FieldValue.SubTemplateList v =>
      let buf := put_u8 buf (Semantic.into v.(stl_semantic)) in
      let buf := put_u16 buf v.(stl_template_id) in
      fold_left (fun buf record => encode_values encode record.(rec_values) record.(rec_fields) buf)
        v.(stl_data) buf
  | FieldValue.SubTemplateMultiList v =>
      let buf := put_u8 buf (Semantic.into v.(ml_semantic)) in
      fold_left (fun buf item =>
        let buf := put_u16 buf item.(mi_template_id) in
        let buf := put_u16 buf item.(mi_length) in
        fold_left (fun buf record => encode_values encode record.(rec_values) record.(rec_fields) buf)
          item.(mi_data) buf) v.(ml_data) buf
  | FieldValue.Null => buf
  end.

Definition encode_field_value `{BM : BufMut B} (value : FieldValue) (field_length : Z) (buf : B) : B :=
  encode_field_value_with (@FieldValue_encode) value field_length buf.

Definition DataRecord_encode `{BM : BufMut B} (self : DataRecord) (buf : B) : B :=
  encode_values (@FieldValue_encode) self.(rec_values) self.(rec_fields) buf.

Definition Record_encode `{BM : BufMut B} (self : Record_) (buf : B) : B :=
  match self with
  | Template t => TemplateRecord_encode t buf
  | OptionsTemplate t => OptionsTemplateRecord_encode t buf
  | Data d | OptionsData d => DataRecord_encode d buf
  end.

Definition Set_encode `{BM : BufMut B} (self : Set_) (buf : B) : B :=
  let records_data :=
    fold_left (fun buf record => Record_encode record buf) self.(set_records) ([] : bytes) in
  let buf := put_u16 buf self.(set_id) in
  let buf := put_u16 buf (wrap 16 (SET_HEADER_SIZE + wrap 16 (zlen records_data))) in
  put_slice buf records_data.

Definition IpfixPacket_encode `{BM : BufMut B} (self : IpfixPacket) (buf : B) : B :=
  let sets_data := fold_left (fun buf set => Set_encode set buf) self.(p_sets) ([] : bytes) in
  let buf := put_u16 buf self.(p_header).(h_version) in
  let buf := put_u16 buf (wrap 16 (IPFIX_HEADER_SIZE + wrap 16 (zlen sets_data))) in
  let buf := put_u32 buf (wrap 32 (timestamp self.(p_header).(h_export_time))) in
  let buf := put_u32 buf self.(p_header).(h_sequence_number) in
  let buf := put_u32 buf self.(p_header).(h_observation_domain_id) in
  put_slice buf sets_data.
End encoder.

(** ** What the encoders append *)

Section appending.
Context `{CR : Crates}.

(** Appending in a loop. *)
Lemma fold_put `{BM : BufMut B} {X} (f : B -> X -> B) (o : X -> bytes) l : forall buf,
  (forall x b, x ∈ l -> buf_contents (f b x) = buf_contents b ++ o x) ->
  buf_contents (fold_left f l buf) = buf_contents buf ++ concat (o <$> l).
Proof.
  induction l as [|x l IH]; intros buf Hf; cbn; [by rewrite app_nil_r|].
  rewrite IH by set_solver. rewrite Hf by set_solver. by rewrite app_assoc.
Qed.

Definition spec_octets (f : FieldSpecifier) : bytes := FieldSpecifier_encode f [].
Definition value_octets (v : FieldValue) : bytes := FieldValue_encode v [].
Definition field_value_octets (v : FieldValue) (fl : Z) : bytes := encode_field_value v fl [].

Lemma spec_encode `{BM : BufMut B} f (buf : B) :
  buf_contents (FieldSpecifier_encode f buf) = buf_contents buf ++ spec_octets f.
Proof.
  unfold spec_octets, FieldSpecifier_encode.
  destruct (enterprise_number f); autorewrite with put; cbn; by rewrite <- ?app_assoc.
Qed.

Lemma put_fixed_app `{BM : BufMut B} v n (buf : B) :
  buf_contents (put_fixed v n buf) = buf_contents buf ++ put_fixed v n ([] : bytes).
Proof. unfold put_fixed. autorewrite with put. cbn. by rewrite <- app_assoc. Qed.

Lemma put_uint_app `{BM : BufMut B} v n (buf : B) :
  buf_contents (put_uint v n buf) = buf_contents buf ++ put_uint v n ([] : bytes).
Proof. unfold put_uint. destruct (_ <=? _); autorewrite with put; [done|]. by rewrite <- app_assoc. Qed.

Lemma put_int_app `{BM : BufMut B} v n (buf : B) :
  buf_contents (put_int v n buf) = buf_contents buf ++ put_int v n ([] : bytes).
Proof. unfold put_int. destruct (_ <=? _); autorewrite with put; [done|]. by rewrite <- app_assoc. Qed.

(** A value that encodes itself by appending its octets. *)
Definition appends (v : FieldValue) : Prop :=
  forall B (BM : BufMut B) (buf : B),
    buf_contents (FieldValue_encode v buf) = buf_contents buf ++ value_octets v.

Lemma field_value_app v : appends v -> forall B (BM : BufMut B) fl (buf : B),
  buf_contents (encode_field_value v fl buf) = buf_contents buf ++ field_value_octets v fl.
Proof.
  intros Hv B BM fl buf. unfold field_value_octets, encode_field_value, encode_field_value_with.
  fold (value_octets v).
  destruct (fl =? IPFIX_VARIABLE_LENGTH).
  - destruct (zlen (value_octets v) <? 255); autorewrite with put; cbn; by rewrite <- !app_assoc.
  - destruct (fl =? 0); [rewrite Hv; done|].
    destruct v; first [ rewrite put_uint_app; done | rewrite put_int_app; done
                      | rewrite put_fixed_app; done | rewrite Hv; done
                      | autorewrite with put; done ].
Qed.

(** The same for the buffer that is a vector. *)
Lemma fold_put_vec {X} (f : bytes -> X -> bytes) (o : X -> bytes) l (acc : bytes) :
  (forall x b, x ∈ l -> f b x = b ++ o x) -> fold_left f l acc = acc ++ concat (o <$> l).
Proof. intros Hf. apply (fold_put (BM := Vec_BufMut) f o l acc Hf). Qed.

Definition values_octets (vs : list FieldValue) (fields : list ResolvedField) : bytes :=
  encode_values (@FieldValue_encode CR) vs fields [].

Definition record_octets (r : DataRecord.DataRecord FieldSpecifier FieldValue) : bytes :=
  values_octets r.(rec_values) r.(rec_fields).

Lemma field_value_vec v fl (acc : bytes) : appends v ->
  encode_field_value v fl acc = acc ++ field_value_octets v fl.
Proof. intros Hv. apply (field_value_app v Hv bytes Vec_BufMut). Qed.

Lemma values_app vs : Forall appends vs -> forall fields B (BM : BufMut B) (buf : B),
  buf_contents (encode_values (@FieldValue_encode CR) vs fields buf)
  = buf_contents buf ++ values_octets vs fields.
Proof.
  unfold values_octets.
  intros Hvs. induction Hvs as [|v vs Hv _ IH]; intros fields B BM buf; cbn [encode_values].
  { by rewrite app_nil_r. }
  destruct fields as [|f fields]; [by rewrite app_nil_r|].
  fold (encode_field_value v f.(spec).(field_length) buf).
  fold (encode_field_value v f.(spec).(field_length) ([] : bytes)).
  rewrite IH, field_value_app by done.
  pose proof (IH fields bytes Vec_BufMut (encode_field_value v f.(spec).(field_length) [])) as H.
  cbn [buf_contents Vec_BufMut] in H. rewrite H.
  rewrite (field_value_vec _ _ []) by done. by rewrite <- app_assoc.
Qed.

Lemma record_app r : Forall appends r.(rec_values) -> forall B (BM : BufMut B) (buf : B),
  buf_contents (encode_values (@FieldValue_encode CR) r.(rec_values) r.(rec_fields) buf)
  = buf_contents buf ++ record_octets r.
Proof. intros Hr B BM buf. by apply values_app. Qed.

Lemma record_vec r (acc : bytes) : Forall appends r.(rec_values) ->
  encode_values (@FieldValue_encode CR) r.(rec_values) r.(rec_fields) acc = acc ++ record_octets r.
Proof. intros Hr. apply (record_app r Hr bytes Vec_BufMut). Qed.

Lemma zmax_elem {A} (f : A -> Z) l a : a ∈ l -> f a <= zmax f l.
Proof. unfold zmax. induction 1; cbn; lia. Qed.

Lemma value_app v : appends v.
Proof.
  enough (H : forall n v, value_depth v <= Z.of_nat n -> appends v)
    by (apply (H (Z.to_nat (value_depth v))); lia).
  clear v. induction n as [n IH] using lt_wf_ind. intros v Hd.
  assert (Hsub : forall w, value_depth w < value_depth v -> 0 <= value_depth w -> appends w).
  { intros w Hw H0. apply (IH (Z.to_nat (value_depth w))); lia. }
  assert (Hpos : forall w, 0 <= value_depth w).
  { intros []; cbn [value_depth]; try lia; unfold zmax;
      match goal with |- 0 <= 1 + ?x => enough (0 <= x) by lia end;
      match goal with |- 0 <= foldr _ _ ?l => induction l; cbn; lia end. }
  assert (Hrecs : forall (rs : list (DataRecord.DataRecord FieldSpecifier FieldValue)) m,
    zmax (fun r => zmax value_depth (rec_values r)) rs < m -> m <= value_depth v ->
    forall r, r ∈ rs -> Forall appends (rec_values r)).
  { intros rs m Hm Hm' r Hr. apply Forall_forall. intros w Hw. apply Hsub; [|apply Hpos].
    apply (zmax_elem (fun r => zmax value_depth (rec_values r))) in Hr.
    apply (zmax_elem value_depth) in Hw. lia. }
  intros B BM buf. unfold value_octets. destruct v; cbn [FieldValue_encode];
    try (autorewrite with put; cbn [buf_contents Vec_BufMut]; done).
  - by destruct (datetime_to_ntp v); autorewrite with put; rewrite <- app_assoc.
  - by destruct (datetime_to_ntp v); autorewrite with put; rewrite <- app_assoc.
  - cbn [value_depth] in *.
    assert (Hc : forall w, w ∈ bl_content v -> appends w).
    { intros w Hw. apply Hsub; [|apply Hpos]. apply (zmax_elem value_depth) in Hw. lia. }
    rewrite (fold_put _ (fun w => field_value_octets w (field_length (bl_field v))))
      by (intros w b Hw; apply field_value_app; auto).
    rewrite (fold_put_vec _ (fun w => field_value_octets w (field_length (bl_field v))))
      by (intros w b Hw; apply field_value_vec; auto).
    pose proof (spec_encode (bl_field v) (put_u8 ([] : bytes) (Semantic.into (bl_semantic v)))) as E.
    cbn [buf_contents Vec_BufMut] in E. rewrite E, spec_encode.
    autorewrite with put. cbn. by rewrite <- !app_assoc.
  - cbn [value_depth] in *. assert (Hr := Hrecs (stl_data v) _ (Z.lt_succ_diag_r _) ltac:(lia)).
    rewrite (fold_put _ record_octets) by (intros r b H; apply record_app; auto).
    rewrite (fold_put_vec _ record_octets) by (intros r b H; apply record_vec; auto).
    autorewrite with put. cbn. by rewrite <- !app_assoc.
  - cbn [value_depth] in *.
    pose (o := fun item : SubTemplateMultiItem FieldValue => put_u16 (put_u16 [] item.(mi_template_id)) item.(mi_length)
      ++ concat (record_octets <$> item.(mi_data))).
    assert (Hi : forall item, item ∈ ml_data v ->
        forall r, r ∈ mi_data item -> Forall appends (rec_values r)).
    { intros item Hin. apply (Hrecs (mi_data item) _ (Z.lt_succ_diag_r _)).
      apply (zmax_elem (fun i => zmax (fun r => zmax value_depth (rec_values r)) (mi_data i))) in Hin.
      lia. }
    rewrite (fold_put _ o).
    2:{ intros item b H. rewrite (fold_put _ record_octets) by (intros r c H'; apply record_app; eauto).
        subst o. autorewrite with put. cbn. by rewrite <- !app_assoc. }
    rewrite (fold_put_vec _ o).
    2:{ intros item b H. rewrite (fold_put_vec _ record_octets) by (intros r c H'; apply record_vec; eauto).
        subst o. autorewrite with put. cbn. by rewrite <- !app_assoc. }
    autorewrite with put. cbn. by rewrite <- !app_assoc.
  - by rewrite app_nil_r.
Qed.
End appending.

(** ** Values that survive the wire *)

Section wire.
Context `{NM : Nom} `{CR : Crates}.

(** [v] is a value of type [dt] that [n] octets can hold. *)
Definition value_fits (dt : DataType) (v : FieldValue) (n : Z) : Prop :=
  match dt, v with
  | DataType.Unsigned, FieldValue.Unsigned8 x => n = 1 /\ fits_u 8 x
  | DataType.Unsigned, FieldValue.Unsigned16 x => n = 2 /\ fits_u 16 x
  | DataType.Unsigned, FieldValue.Unsigned32 x => 3 <= n <= 4 /\ fits_u (8 * n) x
  | DataType.Unsigned, FieldValue.Unsigned64 x => 5 <= n <= 8 /\ fits_u (8 * n) x
  | DataType.Signed, FieldValue.Signed8 x => n = 1 /\ fits_i 8 x
  | DataType.Signed, FieldValue.Signed16 x => n = 2 /\ fits_i 16 x
  | DataType.Signed, FieldValue.Signed32 x => 3 <= n <= 4 /\ fits_i (8 * n) x
  | DataType.Signed, FieldValue.Signed64 x => 5 <= n <= 8 /\ fits_i (8 * n) x
  | DataType.Float, FieldValue.Float32 x => n = 4 /\ fits_u 32 x
  | DataType.Float, FieldValue.Float64 x => n = 8 /\ fits_u 64 x
  | DataType.Boolean, FieldValue.Boolean _ => n = 1
  | DataType.MacAddress, FieldValue.MacAddress _ => n = 6
  | DataType.OctetArray, FieldValue.OctetArray c => zlen c = n
  | DataType.String, FieldValue.String s =>
      zlen s <= n /\ utf8_valid s = true /\ trim_end_nul s = s
  | DataType.DateTimeSeconds, FieldValue.DateTimeSeconds d =>
      n = 4 /\ fits_u 32 (timestamp d) /\ timestamp_subsec_nanos d = 0
  | DataType.DateTimeMilliseconds, FieldValue.DateTimeMilliseconds d =>
      n = 8 /\ fits_u 63 (Crates.timestamp_millis d) /\
      from_timestamp_millis (Crates.timestamp_millis d) = Some d
  | DataType.Ipv4Address, FieldValue.Ipv4Address x => n = 4 /\ fits_u 32 x
  | DataType.Ipv6Address, FieldValue.Ipv6Address x => n = 16 /\ fits_u 128 x
  | _, _ => False
  end.

(** The [n] octets such a value is written as. *)
Definition wire (v : FieldValue) (n : Z) : bytes :=
  match v with
  | FieldValue.Unsigned8 x | FieldValue.Unsigned16 x | FieldValue.Unsigned32 x
  | FieldValue.Unsigned64 x | FieldValue.Signed8 x | FieldValue.Signed16 x
  | FieldValue.Signed32 x | FieldValue.Signed64 x => be_bytes (Z.to_nat n) x
  | FieldValue.String s => s ++ replicate (Z.to_nat n - length s) x00
  | _ => value_octets v
  end.

Lemma put_uint_low x n : 0 < n <= 8 -> put_uint x n ([] : bytes) = be_bytes (Z.to_nat n) x.
Proof.
  intros Hn. unfold put_uint. rewrite zlen_be_bytes.
  destruct (Z.leb_spec n (Z.of_nat 8)); [|lia]. cbn [put_slice Vec_BufMut app].
  replace 8%nat with (Z.to_nat (8 - n) + Z.to_nat n)%nat at 2 by lia.
  rewrite be_bytes_split. apply drop_app_zlen. rewrite length_be_bytes. lia.
Qed.

Lemma put_int_low x n : 0 < n <= 8 -> put_int x n ([] : bytes) = be_bytes (Z.to_nat n) x.
Proof.
  intros Hn. rewrite <- put_uint_low by done. unfold put_int, put_uint.
  rewrite zlen_be_bytes. by destruct (Z.leb_spec n (Z.of_nat 8)); [|lia].
Qed.

Lemma floor_char_boundary_all s n : (length s <= n)%nat -> floor_char_boundary s n = length s.
Proof. intros H%Nat.leb_le. destruct n; cbn [floor_char_boundary]; by rewrite H. Qed.

Lemma put_fixed_pad s n :
  zlen s <= n -> put_fixed s n ([] : bytes) = s ++ replicate (Z.to_nat n - length s) x00.
Proof.
  intros Hn. unfold put_fixed. autorewrite with put. cbn [put_slice put_bytes Vec_BufMut app].
  rewrite Z.min_l by done. unfold zlen in *. rewrite Nat2Z.id, take_ge by lia.
  change (byte_of 0) with x00. do 2 f_equal. lia.
Qed.

(** Written in a field of [n] octets, or of variable length. *)
Lemma wire_sized dt v n :
  value_fits dt v n -> n <> IPFIX_VARIABLE_LENGTH -> field_value_octets v n = wire v n.
Proof.
  intros Hf Hn. unfold field_value_octets, encode_field_value, encode_field_value_with.
  destruct (Z.eqb_spec n IPFIX_VARIABLE_LENGTH); [done|].
  destruct (Z.eqb_spec n 0) as [->|H0].
  - destruct dt, v; cbn in Hf |- *; try done; ands; try lia.
    rewrite (zlen_0 v) by (pose proof (zlen_nonneg v); lia). done.
  - destruct dt, v; cbn -[put_fixed put_uint put_int] in Hf |- *; try done; ands; subst;
      first [ apply put_uint_low; lia | apply put_int_low; lia | idtac ].
    + rewrite put_fixed_pad by lia. unfold value_octets. cbn.
      unfold zlen. by rewrite Nat2Z.id, Nat.sub_diag, app_nil_r.
    + rewrite floor_char_boundary_all by (unfold zlen in *; lia).
      rewrite take_ge by done. by apply put_fixed_pad.
Qed.

Lemma wire_natural dt v :
  value_fits dt v (zlen (value_octets v)) -> value_octets v = wire v (zlen (value_octets v)).
Proof.
  assert (Hs : forall (s : bytes), s = s ++ replicate (Z.to_nat (zlen s) - length s) x00).
  { intros s. unfold zlen. by rewrite Nat2Z.id, Nat.sub_diag, app_nil_r. }
  destruct dt, v; cbn; try done; intros _; unfold value_octets; cbn; rewrite ?zlen_be_bytes; try done.
Qed.

Lemma zlen_wire dt v n : value_fits dt v n -> zlen (wire v n) = n.
Proof.
  destruct dt, v; cbn; try done; intros; ands; subst;
    rewrite ?zlen_be_bytes; try lia; unfold value_octets; cbn; rewrite ?zlen_be_bytes; try done.
  - unfold zlen. by rewrite MacAddr6_length.
  - unfold zlen in *. rewrite length_app, length_replicate. lia.
Qed.

Lemma be_value_uint n x : 0 <= n -> fits_u (8 * n) x -> be_value (be_bytes (Z.to_nat n) x) = x.
Proof.
  intros Hn Hx. apply be_value_small. rewrite Z2Nat.id by done.
  unfold fits_u in Hx. by rewrite Z.pow_mul_r in Hx by lia.
Qed.

Lemma be_value_int n x :
  0 < n -> fits_i (8 * n) x -> to_signed (8 * n) (be_value (be_bytes (Z.to_nat n) x)) = x.
Proof.
  intros Hn Hx. rewrite be_value_be_bytes, Z2Nat.id by lia.
  change 256 with (2 ^ 8). rewrite <- Z.pow_mul_r by lia. apply to_signed_wrap; [lia|done].
Qed.

(** Two times are equal when their parts are. *)
Lemma datetime_eq d d' :
  timestamp d = timestamp d' -> timestamp_subsec_nanos d = timestamp_subsec_nanos d' -> d = d'.
Proof.
  intros H1 H2. pose proof (from_timestamp_id d) as E. rewrite H1, H2, from_timestamp_id in E.
  congruence.
Qed.

(** Such a value is read back as it was. *)
Lemma parse_wire dt v n rest :
  value_fits dt v n -> parse_plain_value dt n (wire v n ++ rest) = Ok (rest, v).
Proof.
  intros Hf. pose proof (zlen_wire dt v n Hf) as Hl.
  assert (Hn : 0 <= n) by (rewrite <- Hl; apply zlen_nonneg).
  destruct (reads_plain_value dt n Hn) as [Hok _]. destruct (Hok _ rest Hl) as (w & -> & Hw).
  do 2 f_equal. revert Hw. unfold value_spec. rewrite Hl.
  destruct dt, v; cbn -[Z.mul Z.pow] in Hf; try done; ands; unfold wire, value_octets;
    cbn [FieldValue_encode put_slice put_u8 put_u32 put_u64 put_f32 put_f64 Vec_BufMut app].
  all: repeat match goal with
    | |- context [?x =? ?y] => destruct (Z.eqb_spec x y); try lia
    | |- context [?x <=? ?y] => destruct (Z.leb_spec x y); try lia
    end; cbn [andb].
  1-4: intros ->; by rewrite be_value_uint by (lia || by subst).
  1-4: intros ->; by rewrite be_value_int by (lia || by subst).
  - intros ->. by rewrite (be_value_uint 4).
  - intros ->. by rewrite (be_value_uint 8).
  - by destruct v; intros ->.
  - by destruct v.
  - by destruct v.
  - intros ->. by rewrite MacAddr6_id.
  - intros ->. unfold from_utf8. rewrite utf8_valid_app by (done || apply utf8_valid_nul).
    by rewrite trim_end_nul_zeros, H1.
  - intros (d & -> & Hd & Hs). f_equal. apply datetime_eq; [|congruence].
    rewrite Hd. rewrite wrap_small by done. by apply (be_value_uint 4).
  - intros ->. rewrite wrap_small by width. rewrite (be_value_uint 8) by (lia || width).
    rewrite decide_True by width. by rewrite H1.
  - intros ->. by rewrite (be_value_uint 4).
  - intros ->. by rewrite (be_value_uint 16).
Qed.
End wire.

(** ** Records *)

Section record_wire.
Context `{NM : Nom} `{CR : Crates} `{CK : Clock}.

(** A value its field can carry. *)
Definition field_wf (f : ResolvedField) (v : FieldValue) : Prop :=
  let n := f.(spec).(field_length) in
  if n =? IPFIX_VARIABLE_LENGTH then
    value_fits f.(data_type) v (zlen (value_octets v)) /\ fits_u 16 (zlen (value_octets v))
  else fits_u 16 n /\ value_fits f.(data_type) v n.

Lemma value_fits_plain dt v n : value_fits dt v n -> is_list dt = false.
Proof. by destruct dt. Qed.

Lemma field_wf_length f v : field_wf f v -> fits_u 16 f.(spec).(field_length).
Proof. unfold field_wf. destruct (Z.eqb_spec (field_length (spec f)) IPFIX_VARIABLE_LENGTH) as [->|]; [done|naive_solver]. Qed.

Lemma parse_plain_field self dom dt n reads i :
  is_list dt = false ->
  parse_field_value list_fuel self dom dt n 0 reads i = (reads, parse_plain_value dt n i).
Proof. by destruct dt. Qed.

Lemma parse_field_octets f v rest :
  field_wf f v ->
  exists n i, parse_field_length (field_value_octets v f.(spec).(field_length) ++ rest)
      f.(spec).(field_length) = Ok (i, n) /\
    is_list f.(data_type) = false /\ parse_plain_value f.(data_type) n i = Ok (rest, v).
Proof.
  unfold field_wf. destruct (Z.eqb_spec (field_length (spec f)) IPFIX_VARIABLE_LENGTH) as [->|Hn].
  - intros [Hf Hl]. exists (zlen (value_octets v)), (value_octets v ++ rest).
    split_and!; [|by eapply value_fits_plain|].
    + unfold field_value_octets, encode_field_value, encode_field_value_with.
      rewrite Z.eqb_refl. fold (value_octets v). cbn -[zlen]. unfold parse_field_length. cbn [negb Z.eqb].
      destruct (Z.ltb_spec (zlen (value_octets v)) 255).
      * rewrite (wrap_small 8) by (unfold fits_u in *; lia).
        rewrite <- !app_assoc, be_u8_app by (unfold fits_u in *; lia).
        by destruct (Z.ltb_spec (zlen (value_octets v)) 255); [|lia].
      * rewrite wrap_small by done. rewrite <- !app_assoc, be_u8_app by fits. cbn.
        by rewrite nom_map_law, be_u16_app.
    + pose proof (parse_wire _ _ _ rest Hf) as E. by rewrite <- (wire_natural _ _ Hf) in E.
  - intros [Hfl Hf]. eexists _, _. unfold parse_field_length.
    destruct (Z.eqb_spec (field_length (spec f)) IPFIX_VARIABLE_LENGTH); [done|]. cbn [negb].
    split_and!; [done|by eapply value_fits_plain|].
    rewrite (wire_sized _ _ _ Hf Hn). by apply parse_wire.
Qed.

Lemma values_octets_cons v vs f fs :
  values_octets (v :: vs) (f :: fs)
  = field_value_octets v f.(spec).(field_length) ++ values_octets vs fs.
Proof.
  unfold values_octets at 1. cbn [encode_values].
  apply (values_app vs ltac:(apply Forall_true, value_app) fs bytes Vec_BufMut).
Qed.

Lemma parse_values_octets self dom fields vs : forall reads rest,
  Forall2 field_wf fields vs ->
  parse_values (parse_field_value list_fuel self dom) fields 0 reads (values_octets vs fields ++ rest)
  = (reads, Ok (rest, vs)).
Proof.
  intros reads rest Hwf. induction Hwf as [|f v fields vs Hf _ IH]; [done|].
  rewrite values_octets_cons, <- app_assoc. cbn [parse_values].
  destruct (parse_field_octets f v (values_octets vs fields ++ rest) Hf) as (n & i & -> & Hl & E).
  rewrite parse_plain_field, E by done. by rewrite IH.
Qed.

Lemma fields_wf_lengths fields vs : Forall2 field_wf fields vs -> lengths_ok fields.
Proof. unfold lengths_ok. induction 1; constructor; eauto using field_wf_length. Qed.

(** Values that are no lists are parsed without looking at the clock. *)
Lemma plain_values_reads self dom fields : forall reads i,
  Forall (fun f => is_list f.(data_type) = false) fields ->
  (parse_values (parse_field_value list_fuel self dom) fields 0 reads i).1 = reads.
Proof.
  intros reads i Hp. revert i. induction Hp as [|f fields Hf _ IH]; intros i; [done|].
  cbn [parse_values]. destruct (parse_field_length i _) as [[i1 n]|]; [|done].
  rewrite parse_plain_field by done. destruct (parse_plain_value _ n i1) as [[i2 v]|]; [|done].
  specialize (IH i2). by destruct (parse_values _ _ _ _ i2) as [s [[? ?]|]].
Qed.

(** The records of a template, written one after the other. *)
Lemma decode_octets self dom fields wrap reads vss :
  lengths_ok fields -> 0 < min_length fields ->
  Forall (fun f => is_list f.(data_type) = false) fields ->
  Forall (Forall2 field_wf fields) vss ->
  decode_records (parse_field_value list_fuel self dom) fields wrap 0 reads
    (concat ((fun vs => values_octets vs fields) <$> vss))
  = (reads, Ok ([], (fun vs => wrap (from_template fields vs)) <$> vss)).
Proof.
  intros Hl Hm Hp Hwf. pose proof (record_consuming self dom fields Hl Hm) as Hc.
  destruct fields as [|f fields]; [done|]. unfold decode_records.
  set (p := parse_record_from_fields (parse_field_value list_fuel self dom) (f :: fields) 0) in *.
  assert (Hr : rounds p reads (concat (record_octets <$> (from_template (f :: fields) <$> vss)) ++ [])
    reads [] (from_template (f :: fields) <$> vss)).
  { apply rounds_concat. intros r i (vs & -> & Hvs)%list_elem_of_fmap.
    rewrite Forall_forall in Hwf. unfold p, parse_record_from_fields, record_octets.
    cbn [rec_values rec_fields]. by rewrite parse_values_octets by auto. }
  rewrite app_nil_r, <- list_fmap_compose in Hr.
  destruct (p reads []) as [s [[i' r]|e]] eqn:Hstop.
  { specialize (Hc reads []). rewrite Hstop in Hc. pose proof (zlen_nonneg i'). rewrite zlen_nil in Hc. lia. }
  pose proof (Hc reads []) as He. rewrite Hstop in He. subst e.
  assert (s = reads) as ->.
  { pose proof (plain_values_reads self dom (f :: fields) reads [] Hp) as Hs.
    unfold p, parse_record_from_fields in Hstop.
    destruct (parse_values _ _ _ _ _) as [s' [[? ?]|]]; naive_solver. }
  rewrite (rounds_many0 p _ _ _ _ _ _ Hc Hr Hstop). by rewrite <- list_fmap_compose.
Qed.
End record_wire.

(** ** Templates *)

Section template_wire.
Context `{NM : Nom} `{CR : Crates}.

Definition spec_wf (f : FieldSpecifier) : Prop :=
  fits_u 15 f.(information_element_identifier) /\ fits_u 16 f.(field_length) /\
  match f.(enterprise_number) with
  | Some n => f.(enterprise_bit) = true /\ fits_u 32 n
  | None => f.(enterprise_bit) = false
  end.

Definition template_wf (t : TemplateRecord) : Prop :=
  fits_u 16 t.(t_template_id) /\ fits_u 16 t.(t_field_count) /\
  t.(t_field_count) = zlen t.(t_fields) /\ Forall spec_wf t.(t_fields).

(** Not a withdrawal, whose scope field count would not be read back. *)
Definition options_template_wf (t : OptionsTemplateRecord) : Prop :=
  fits_u 16 t.(o_template_id) /\ fits_u 16 t.(o_field_count) /\
  t.(o_field_count) = zlen t.(o_fields) /\ Forall spec_wf t.(o_fields) /\
  t.(o_field_count) <> 0 /\ fits_u 16 t.(o_scope_field_count).

Definition template_octets (t : TemplateRecord) : bytes := TemplateRecord_encode t [].
Definition options_template_octets (t : OptionsTemplateRecord) : bytes :=
  OptionsTemplateRecord_encode t [].

Lemma specs_encode `{BM : BufMut B} fs (buf : B) :
  buf_contents (fold_left (fun buf field => FieldSpecifier_encode field buf) fs buf)
  = buf_contents buf ++ concat (spec_octets <$> fs).
Proof. apply fold_put. intros f b _. apply spec_encode. Qed.

Lemma parse_spec_octets f rest :
  spec_wf f -> parse_field_specifier (spec_octets f ++ rest) = Ok (rest, f).
Proof.
  intros (Hid & Hl & He). unfold spec_octets, FieldSpecifier_encode, parse_field_specifier.
  destruct f as [b id len en]. cbn [enterprise_bit enterprise_number information_element_identifier
    field_length] in *.
  assert (Hlow : Z.land id 0x7fff = id) by (by apply (land_join 0 id 15)).
  assert (Hclr : Z.land id 0x8000 = 0).
  { rewrite <- Hlow, <- Z.land_assoc. change (Z.land 0x7fff 0x8000) with 0. apply Z.land_0_r. }
  assert (Hor : fits_u 16 (Z.lor id 0x8000)).
  { rewrite Z.lor_comm. change 0x8000 with (1 * 2 ^ 15). rewrite lor_join by done. width. }
  destruct en as [n|]; ands; subst b; cbn [put_u16 put_u32 Vec_BufMut app].
  - rewrite <- !app_assoc, !be_u16_app by done.
    rewrite !Z.land_lor_distr_l, Hclr, Hlow. change (Z.land 0x8000 0x8000) with 0x8000.
    change (Z.land 0x8000 0x7fff) with 0. rewrite Z.lor_0_r, cond_law. cbn.
    by rewrite be_u32_app.
  - rewrite <- !app_assoc, !be_u16_app by (done || width).
    rewrite Hclr, Hlow. cbn. by rewrite cond_law.
Qed.

Lemma template_octets_eq t :
  template_octets t = be_bytes 2 t.(t_template_id) ++ be_bytes 2 t.(t_field_count) ++
    concat (spec_octets <$> t.(t_fields)).
Proof.
  unfold template_octets, TemplateRecord_encode.
  pose proof (specs_encode (BM := Vec_BufMut) t.(t_fields)) as H. cbn [buf_contents Vec_BufMut] in H.
  rewrite H. cbn. by rewrite <- app_assoc.
Qed.

Lemma options_template_octets_eq t :
  options_template_octets t = be_bytes 2 t.(o_template_id) ++ be_bytes 2 t.(o_field_count) ++
    be_bytes 2 t.(o_scope_field_count) ++ concat (spec_octets <$> t.(o_fields)).
Proof.
  unfold options_template_octets, OptionsTemplateRecord_encode.
  pose proof (specs_encode (BM := Vec_BufMut) t.(o_fields)) as H. cbn [buf_contents Vec_BufMut] in H.
  rewrite H. cbn. by rewrite <- !app_assoc.
Qed.

Lemma parse_specs fs n rest :
  Forall spec_wf fs -> n = zlen fs ->
  count parse_field_specifier n (concat (spec_octets <$> fs) ++ rest) = Ok (rest, fs).
Proof.
  intros Hf ->. apply count_concat; [done|]. intros f i Hin. apply parse_spec_octets.
  rewrite Forall_forall in Hf. auto.
Qed.

Lemma ipfix_parse_template_octets t rest :
  template_wf t -> parse_template_record (template_octets t ++ rest) = Ok (rest, t).
Proof.
  intros (H1 & H2 & H3 & H4). rewrite template_octets_eq, <- !app_assoc.
  unfold parse_template_record. rewrite !be_u16_app, parse_specs by done. by destruct t.
Qed.

Lemma parse_options_template_octets t rest :
  options_template_wf t -> parse_options_template_record (options_template_octets t ++ rest) = Ok (rest, t).
Proof.
  intros (H1 & H2 & H3 & H4 & H5 & H6). rewrite options_template_octets_eq, <- !app_assoc.
  unfold parse_options_template_record. rewrite !be_u16_app by done.
  destruct (Z.eqb_spec (o_field_count t) 0); [done|].
  rewrite parse_specs by done. by destruct t.
Qed.

Lemma be_u16_nil : be_u16 [] = Err Error.
Proof. destruct reads_u16 as [_ H]. by apply H. Qed.

Lemma parse_templates_octets ts :
  Forall template_wf ts ->
  many0_fn parse_template_record (concat (template_octets <$> ts)) = Ok ([], ts).
Proof.
  intros Hts. rewrite Forall_forall in Hts.
  rewrite <- (app_nil_r (concat _)). apply many0_fn_concat.
  - apply ipfix_leaves_template_record.
  - intros t i Hin. by apply ipfix_parse_template_octets, Hts.
  - intros t _. rewrite template_octets_eq, !zlen_app, !zlen_be_bytes.
    pose proof (zlen_nonneg (concat (spec_octets <$> t_fields t))). lia.
  - unfold parse_template_record. by rewrite be_u16_nil.
Qed.

Lemma parse_options_templates_octets ts :
  Forall options_template_wf ts ->
  many0_fn parse_options_template_record (concat (options_template_octets <$> ts)) = Ok ([], ts).
Proof.
  intros Hts. rewrite Forall_forall in Hts.
  rewrite <- (app_nil_r (concat _)). apply many0_fn_concat.
  - apply ipfix_leaves_options_template_record.
  - intros t i Hin. by apply parse_options_template_octets, Hts.
  - intros t _. rewrite options_template_octets_eq, !zlen_app, !zlen_be_bytes.
    pose proof (zlen_nonneg (concat (spec_octets <$> o_fields t))). lia.
  - unfold parse_options_template_record. by rewrite be_u16_nil.
Qed.
End template_wire.

(** ** Sets and messages *)

Section message_wire.
Context `{NM : Nom} `{CR : Crates} `{CK : Clock}.

Definition record_bytes (r : Record_) : bytes := Record_encode r [].
Definition set_body (s : Set_) : bytes := concat (record_bytes <$> s.(set_records)).
Definition set_bytes (s : Set_) : bytes := Set_encode s [].

(** The set with the length it is written with. *)
Definition with_length (s : Set_) : Set_ :=
  mkSet s.(set_id) (SET_HEADER_SIZE + zlen (set_body s)) s.(set_records).

(** What the parser at [st] knows after it has received the set [s]. *)
Definition receive (dom : Z) (st : nat * IpfixParser) (s : Set_) : nat * IpfixParser :=
  let '(reads, self) := st in
  let apply := apply_templates self.(ie_registry) self.(element_types) in
  if s.(set_id) =? IPFIX_TEMPLATE_SET_ID then
    let '(reads, map) := apply self.(templates)
      (omap (fun r => match r with Template t => Some (t.(t_template_id), t.(t_fields)) | _ => None end)
         s.(set_records)) dom IPFIX_TEMPLATE_SET_ID reads in
    (reads, mkParser self.(ie_registry) self.(element_types) map self.(options_templates))
  else if s.(set_id) =? IPFIX_OPTIONS_TEMPLATE_SET_ID then
    let '(reads, map) := apply self.(options_templates)
      (omap (fun r => match r with OptionsTemplate t => Some (t.(o_template_id), t.(o_fields)) | _ => None end)
         s.(set_records)) dom IPFIX_OPTIONS_TEMPLATE_SET_ID reads in
    (reads, mkParser self.(ie_registry) self.(element_types) self.(templates) map)
  else
    let '(reads, t) := TemplateCache.get self.(templates) (dom, s.(set_id)) reads in
    let reads := match t with
                 | Some _ => reads
                 | None => (TemplateCache.get self.(options_templates) (dom, s.(set_id)) reads).1
                 end in
    (reads, learn_element_types self dom s.(set_records)).

(** The template the parser at [st] would decode the set [id] with, and how it
    would mark the records. *)
Definition known (dom : Z) (st : nat * IpfixParser) (id : Z)
    : option (list ResolvedField * (DataRecord.DataRecord FieldSpecifier FieldValue -> Record_)) :=
  let '(reads, t) := TemplateCache.get st.2.(templates) (dom, id) st.1 in
  match t with
  | Some fields => Some (fields, Data)
  | None =>
      match (TemplateCache.get st.2.(options_templates) (dom, id) reads).2 with
      | Some fields => Some (fields, OptionsData)
      | None => None
      end
  end.

(** A set a parser at [st] can read back: templates, options templates, or the
    records of a template it knows. *)
Definition set_wf (dom : Z) (st : nat * IpfixParser) (s : Set_) : Prop :=
  fits_u 16 (SET_HEADER_SIZE + zlen (set_body s)) /\
  ((s.(set_id) = IPFIX_TEMPLATE_SET_ID /\
      exists ts, s.(set_records) = Template <$> ts /\ Forall template_wf ts) \/
   (s.(set_id) = IPFIX_OPTIONS_TEMPLATE_SET_ID /\
      exists ts, s.(set_records) = OptionsTemplate <$> ts /\ Forall options_template_wf ts) \/
   (256 <= s.(set_id) /\ fits_u 16 s.(set_id) /\
      exists fields mark vss, known dom st s.(set_id) = Some (fields, mark) /\
        s.(set_records) = (fun vs => mark (from_template fields vs)) <$> vss /\
        lengths_ok fields /\ 0 < min_length fields /\
        Forall (fun f => is_list f.(data_type) = false) fields /\
        Forall (Forall2 field_wf fields) vss)).

(** Each set readable in the state the ones before it leave. *)
Fixpoint sets_wf (dom : Z) (st : nat * IpfixParser) (sets : list Set_) : Prop :=
  match sets with
  | [] => True
  | s :: sets => set_wf dom st s /\ sets_wf dom (receive dom st s) sets
  end.

Lemma record_vec_all r (acc : bytes) : Record_encode r acc = acc ++ record_bytes r.
Proof.
  unfold record_bytes. destruct r as [t|t|r|r]; cbn [Record_encode].
  - unfold TemplateRecord_encode.
    pose proof (specs_encode (BM := Vec_BufMut) t.(t_fields)) as H. cbn [buf_contents Vec_BufMut] in H.
    rewrite !H. cbn. by rewrite <- !app_assoc.
  - unfold OptionsTemplateRecord_encode.
    pose proof (specs_encode (BM := Vec_BufMut) t.(o_fields)) as H. cbn [buf_contents Vec_BufMut] in H.
    rewrite !H. cbn. by rewrite <- !app_assoc.
  - apply record_vec, Forall_true, value_app.
  - apply record_vec, Forall_true, value_app.
Qed.

Lemma set_encode `{BM : BufMut B} s (buf : B) :
  buf_contents (Set_encode s buf) = buf_contents buf ++ set_bytes s.
Proof.
  unfold set_bytes, Set_encode. autorewrite with put. cbn. by rewrite <- !app_assoc.
Qed.

Lemma set_bytes_eq s :
  fits_u 16 (SET_HEADER_SIZE + zlen (set_body s)) ->
  set_bytes s = be_bytes 2 s.(set_id) ++ be_bytes 2 (4 + zlen (set_body s)) ++ set_body s.
Proof.
  intros Hl. unfold set_bytes, Set_encode.
  rewrite (fold_put_vec _ record_bytes) by (intros; apply record_vec_all). fold (set_body s).
  pose proof (zlen_nonneg (set_body s)). unfold SET_HEADER_SIZE in *.
  cbn [app]. rewrite (wrap_small 16 (zlen _)) by (unfold fits_u in *; lia).
  rewrite wrap_small by done. cbn. by rewrite <- app_assoc.
Qed.

Lemma set_body_fmap {A} (mk : A -> Record_) (enc : A -> bytes) l :
  (forall a, a ∈ l -> record_bytes (mk a) = enc a) ->
  concat (record_bytes <$> (mk <$> l)) = concat (enc <$> l).
Proof.
  intros H. rewrite <- list_fmap_compose. f_equal. apply list_fmap_ext. intros i a Ha.
  apply H. by eapply list_elem_of_lookup_2.
Qed.

Lemma omap_fmap_Some {A B C} (mk : A -> B) (h : B -> option C) (g : A -> C) (l : list A) :
  (forall a, h (mk a) = Some (g a)) -> omap h (mk <$> l) = g <$> l.
Proof. intros H. induction l as [|a l IH]; [done|]. cbn. rewrite H. by f_equal. Qed.

Lemma parse_records_wf dom st s :
  set_wf dom st s ->
  parse_records dom s.(set_id) st (set_body s) = (receive dom st s, Ok ([], s.(set_records))).
Proof.
  destruct st as [reads self]. unfold parse_records, receive, set_body.
  intros [_ [(-> & ts & -> & Hts)|[(-> & ts & -> & Hts)|(H1 & H2 & fields & mark & vss & Hk & -> & Hl & Hm & Hp & Hw)]]].
  - rewrite Z.eqb_refl, (set_body_fmap _ template_octets), parse_templates_octets by done.
    rewrite (omap_fmap_Some _ _ (fun t => (t_template_id t, t_fields t))) by done.
    by destruct (apply_templates _ _ _ _ _ _ _).
  - change (IPFIX_OPTIONS_TEMPLATE_SET_ID =? IPFIX_TEMPLATE_SET_ID) with false. cbv iota.
    rewrite Z.eqb_refl, (set_body_fmap _ options_template_octets), parse_options_templates_octets by done.
    rewrite (omap_fmap_Some _ _ (fun t => (o_template_id t, o_fields t))) by done.
    by destruct (apply_templates _ _ _ _ _ _ _).
  - destruct (valid_id _ H1 H2) as (-> & -> & ->).
    assert (Hb : concat (record_bytes <$> ((fun vs => mark (from_template fields vs)) <$> vss))
      = concat ((fun vs => values_octets vs fields) <$> vss)).
    { apply set_body_fmap. intros vs _. revert Hk. unfold known. cbn [fst snd].
      destruct (TemplateCache.get (templates self) _ _) as [r1 [f|]]; [by intros [= <- <-]|].
      by destruct (TemplateCache.get (options_templates self) _ _).2; intros [= <- <-]. }
    rewrite Hb. unfold parse_templated, parse_templated_records, known in *. cbn [fst snd] in *.
    destruct (TemplateCache.get (templates self) _ _) as [r1 [f|]].
    + injection Hk as <- <-. by rewrite decode_octets.
    + destruct (TemplateCache.get (options_templates self) _ _) as [r2 [f|]]; [|done].
      injection Hk as <- <-. by rewrite decode_octets.
Qed.

Lemma parse_set_bytes dom st s rest :
  set_wf dom st s ->
  parse_set dom st (set_bytes s ++ rest) = (receive dom st s, Ok (rest, with_length s)).
Proof.
  intros Hs. pose proof Hs as [Hl Hid]. rewrite set_bytes_eq, <- !app_assoc by done.
  assert (fits_u 16 (set_id s)) by (destruct Hid as [[-> _]|[[-> _]|(_ & ? & _)]]; done).
  by rewrite parse_set_app, parse_records_wf.
Qed.

Lemma parse_set_nil dom st : parse_set dom st [] = (st, Err Error).
Proof. unfold parse_set. by rewrite be_u16_nil. Qed.

Lemma sets_rounds dom sets : forall st rest,
  sets_wf dom st sets ->
  rounds (parse_set dom) st (concat (set_bytes <$> sets) ++ rest)
    (fold_left (receive dom) sets st) rest (with_length <$> sets).
Proof.
  induction sets as [|s sets IH]; intros st rest; cbn [sets_wf]; [constructor|].
  intros [Hs Hss]. cbn. rewrite <- app_assoc. eapply rounds_cons; [by apply parse_set_bytes|].
  by apply IH.
Qed.

Definition sets_bytes (p : IpfixPacket) : bytes := concat (set_bytes <$> p.(p_sets)).

(** The message with the lengths it is written with. *)
Definition packet_with_lengths (p : IpfixPacket) : IpfixPacket :=
  let h := p.(p_header) in
  mkPacket (mkHeader h.(h_version) (IPFIX_HEADER_SIZE + zlen (sets_bytes p)) h.(h_export_time)
      h.(h_sequence_number) h.(h_observation_domain_id)) (with_length <$> p.(p_sets)).

(** A message a parser at [st] can read back. *)
Definition packet_wf (st : nat * IpfixParser) (p : IpfixPacket) : Prop :=
  let h := p.(p_header) in
  h.(h_version) = IPFIX_VERSION /\ fits_u 16 (IPFIX_HEADER_SIZE + zlen (sets_bytes p)) /\
  fits_u 32 (timestamp h.(h_export_time)) /\ timestamp_subsec_nanos h.(h_export_time) = 0 /\
  fits_u 32 h.(h_sequence_number) /\ fits_u 32 h.(h_observation_domain_id) /\
  sets_wf h.(h_observation_domain_id) st p.(p_sets).

Lemma packet_encode `{BM : BufMut B} p (buf : B) :
  fits_u 16 (IPFIX_HEADER_SIZE + zlen (sets_bytes p)) ->
  fits_u 32 (timestamp p.(p_header).(h_export_time)) ->
  buf_contents (IpfixPacket_encode p buf)
  = buf_contents buf ++ header_octets (packet_with_lengths p).(p_header) ++ sets_bytes p.
Proof.
  intros Hl Ht. unfold IpfixPacket_encode.
  assert (Hv : forall s (acc : bytes), Set_encode s acc = acc ++ set_bytes s)
    by (intros; apply (set_encode (BM := Vec_BufMut))).
  rewrite (fold_put_vec _ set_bytes) by (intros; apply Hv). fold (sets_bytes p).
  pose proof (zlen_nonneg (sets_bytes p)). unfold IPFIX_HEADER_SIZE in *. cbn [app].
  rewrite (wrap_small 16 (zlen _)) by (unfold fits_u in *; lia).
  rewrite !wrap_small by done. autorewrite with put. unfold header_octets. cbn.
  by rewrite <- !app_assoc.
Qed.

Lemma parse_header_octets_of h rest :
  h.(h_version) = IPFIX_VERSION -> fits_u 16 h.(h_length) ->
  fits_u 32 (timestamp h.(h_export_time)) -> timestamp_subsec_nanos h.(h_export_time) = 0 ->
  fits_u 32 h.(h_sequence_number) -> fits_u 32 h.(h_observation_domain_id) ->
  parse_header (header_octets h ++ rest) = Ok (rest, h).
Proof.
  intros Hv Hl Ht Hn Hs Hd. unfold header_octets, parse_header. rewrite Hv, <- !app_assoc.
  rewrite verify_version_app by done. rewrite be_u16_app by done.
  unfold timestamp_secs. rewrite map_opt_law, be_u32_app by done.
  destruct (from_timestamp_secs_u32 _ Ht) as (d & -> & Hd1 & Hd2).
  rewrite (datetime_eq d (h_export_time h)) by congruence.
  rewrite !be_u32_app by done. destruct h. cbn in *. by subst.
Qed.

Lemma parse_encoded `{BM : BufMut B} st p (buf : B) rest :
  packet_wf st p -> buf_contents buf = [] ->
  parse st (buf_contents (IpfixPacket_encode p buf) ++ rest)
  = (fold_left (receive p.(p_header).(h_observation_domain_id)) p.(p_sets) st,
     Ok (rest, packet_with_lengths p)).
Proof.
  intros (Hv & Hl & Ht & Hn & Hs & Hd & Hsets) Hb. rewrite packet_encode, Hb by done. cbn [app].
  unfold parse. rewrite <- app_assoc, parse_header_octets_of by done.
  rewrite map_parser_law. cbn [p_header packet_with_lengths h_length h_observation_domain_id].
  rewrite nom_take_app by (unfold IPFIX_HEADER_SIZE; pose proof (zlen_nonneg (sets_bytes p)); lia).
  pose proof (sets_rounds _ _ _ [] Hsets) as Hr. rewrite app_nil_r in Hr.
  by rewrite (rounds_many0 _ _ _ _ _ _ _ (set_consuming _) Hr (parse_set_nil _ _)).
Qed.

(** C4: A message written by the encoder is read back as it was, with its lengths
    filled in, whatever follows it, and the parser ends up knowing what the
    sets say: when the message is within 65,535 octets and was sent at a whole
    second, and every set is one of templates, options templates, or records of
    a template known by then whose values are of the type and the length of
    their fields.  Withdrawals of options templates, lists, times in
    microseconds and nanoseconds, 256-bit numbers, nulls and text that ends in
    zero octets or is not valid UTF-8 are not among those. *)
Theorem ipfix_parse_encode `{BM : BufMut B} st p (buf : B) rest :
  packet_wf st p -> buf_contents buf = [] ->
  parse st (buf_contents (IpfixPacket_encode p buf) ++ rest)
  = (fold_left (receive p.(p_header).(h_observation_domain_id)) p.(p_sets) st,
     Ok (rest, packet_with_lengths p)).
Proof. apply parse_encoded. Qed.

(** A value its field can carry is written with that field's length, or with
    its own when that is variable, and read back as it was. *)
Theorem ipfix_value_encode `{BM : BufMut B} self dom reads f v (buf : B) rest :
  field_wf f v -> buf_contents buf = [] ->
  exists n i,
    parse_field_length (buf_contents (encode_field_value v f.(spec).(field_length) buf) ++ rest)
      f.(spec).(field_length) = Ok (i, n) /\
    parse_field_value list_fuel self dom f.(data_type) n 0 reads i = (reads, Ok (rest, v)).
Proof.
  intros Hf Hb. rewrite field_value_app, Hb by apply value_app. cbn [app].
  destruct (parse_field_octets f v rest Hf) as (n & i & E & Hl & Hv). exists n, i.
  split; [done|]. by rewrite parse_plain_field, Hv.
Qed.

(** A time of the NTP era 0 written in the NTP format is read back no later
    than it was and earlier by at most a nanosecond. *)
Theorem ntp_roundtrip d :
  - NTP_UNIX_EPOCH_DIFF <= timestamp d < 2 ^ 32 - NTP_UNIX_EPOCH_DIFF ->
  timestamp_subsec_nanos d < NANOS ->
  exists d', (let '(s, f) := datetime_to_ntp d in ntp_to_datetime s f) = Some d' /\
    timestamp d' = timestamp d /\
    timestamp_subsec_nanos d - 1 <= timestamp_subsec_nanos d' <= timestamp_subsec_nanos d.
Proof.
  intros Ht Hn. pose proof (subsec_nanos_range d). unfold datetime_to_ntp.
  unfold NTP_UNIX_EPOCH_DIFF, NANOS in *.
  assert (Hs : wrap 64 (wrap 64 (timestamp d) + 2208988800) = timestamp d + 2208988800).
  { unfold wrap. rewrite Zplus_mod_idemp_l. apply Z.mod_small. lia. }
  rewrite Hs. set (n := timestamp_subsec_nanos d) in *.
  rewrite Z.shiftl_mul_pow2 by lia. rewrite (wrap_small 64) by width.
  assert (Hf : 0 <= n * 2 ^ 32 / 1000000000 < 2 ^ 32) by dlia.
  rewrite !wrap_small by (unfold fits_u; lia).
  destruct (ntp_to_datetime_total (timestamp d + 2208988800) (n * 2 ^ 32 / 1000000000))
    as (d' & E & H1 & H2); [unfold fits_u; lia|done|].
  exists d'. unfold NTP_UNIX_EPOCH_DIFF, NANOS in *. split_and!; [done|lia| |]; rewrite H2; dlia.
Qed.

(** An options template withdrawal is not read back: the encoder writes the
    scope field count that the parser, for a field count of zero, does not
    read, so two octets are left over to be taken for the next record. *)
Theorem options_withdrawal_left_over id scope rest :
  fits_u 16 id ->
  parse_options_template_record (options_template_octets (mkOptionsTemplate id 0 scope []) ++ rest)
  = Ok (be_bytes 2 scope ++ rest, mkOptionsTemplate id 0 0 []).
Proof.
  intros Hid. rewrite options_template_octets_eq. cbn [o_template_id o_field_count
    o_scope_field_count o_fields fmap list_fmap concat]. rewrite app_nil_r, <- !app_assoc.
  unfold parse_options_template_record. rewrite !be_u16_app by (done || width). cbn.
  by rewrite count_law.
Qed.
End message_wire.

(** ** Samples *)

Section samples.
#[local] Instance sample_nom : Nom := nom_std.
#[local] Instance sample_crates : Crates := crates_std.
#[local] Instance sample_clock : Clock := Ipfix.sample_clock.

Definition sample_time : DateTime := exist _ (1_700_000_000, 0) eq_refl.

(** A template, and two records of it. *)
Definition sample_packet : IpfixPacket :=
  IpfixPacket_new sample_time 5 7
    [Set_new 2 [Template (TemplateRecord_new 256 Ipfix.sample_specs)];
     Set_new 256 [Data (from_template Ipfix.sample_fields
                    [FieldValue.Unsigned32 42; FieldValue.String (str "ab")]);
                  Data (from_template Ipfix.sample_fields
                    [FieldValue.Unsigned32 43; FieldValue.String []])]].

Definition sample_values : list (list FieldValue) :=
  [[FieldValue.Unsigned32 42; FieldValue.String (str "ab")];
   [FieldValue.Unsigned32 43; FieldValue.String []]].

#[local] Ltac computed := apply (bool_decide_unpack _); vm_compute; exact I.

Lemma sample_field_wf_1 x :
  fits_u 32 x -> field_wf (mkResolved (iana 1 4) DataType.Unsigned (str "octetDeltaCount"))
    (FieldValue.Unsigned32 x).
Proof. intros Hx. split; [computed|]. cbn. split; [lia|exact Hx]. Qed.

Lemma sample_field_wf_2 s :
  zlen s < 65536 -> utf8_valid s = true -> trim_end_nul s = s ->
  field_wf (mkResolved (iana 96 IPFIX_VARIABLE_LENGTH) DataType.String (str "applicationName"))
    (FieldValue.String s).
Proof.
  intros Hs Hv Ht.
  change ((zlen s <= zlen s /\ utf8_valid s = true /\ trim_end_nul s = s) /\ fits_u 16 (zlen s)).
  pose proof (zlen_nonneg s). split_and!; [lia|done|done|]. unfold fits_u. lia.
Qed.

Lemma sample_known :
  known 7 (receive 7 Ipfix.sample_parser (Set_new 2 [Template (TemplateRecord_new 256 Ipfix.sample_specs)]))
    256 = Some (Ipfix.sample_fields, Data).
Proof.
  unfold known. set (st := receive _ _ _).
  assert (H : TemplateCache.get st.2.(templates) (7, 256) st.1 = (4%nat, Some Ipfix.sample_fields))
    by (vm_compute; reflexivity).
  by rewrite H.
Qed.

Lemma sample_packet_wf : packet_wf Ipfix.sample_parser sample_packet.
Proof.
  split; [reflexivity|]. split; [computed|]. split; [computed|]. split; [reflexivity|].
  split; [computed|]. split; [computed|]. split; [|split; [|exact I]].
  - split; [computed|]. left. split; [reflexivity|].
    exists [TemplateRecord_new 256 Ipfix.sample_specs]. split; [reflexivity|].
    constructor; [|constructor]. split; [computed|]. split; [computed|]. split; [reflexivity|].
    repeat constructor; computed.
  - split; [computed|]. do 2 right. split; [computed|]. split; [computed|].
    exists Ipfix.sample_fields, Data, sample_values. split; [apply sample_known|].
    split; [reflexivity|]. split; [computed|]. split; [computed|]. split; [computed|].
    assert (Hf : Ipfix.sample_fields = [mkResolved (iana 1 4) DataType.Unsigned (str "octetDeltaCount");
      mkResolved (iana 96 IPFIX_VARIABLE_LENGTH) DataType.String (str "applicationName")])
      by (vm_compute; reflexivity).
    rewrite Hf. unfold sample_values.
    repeat first [ apply Forall_cons; split | apply Forall_nil_2 | apply Forall2_cons; split
                 | apply Forall2_nil_2 ];
      first [ apply sample_field_wf_1; computed | apply sample_field_wf_2; computed ].
Qed.

Lemma ipfix_parse_encode_witness :
  packet_wf Ipfix.sample_parser sample_packet /\
  parse Ipfix.sample_parser (IpfixPacket_encode sample_packet ([] : bytes) ++ [])
  = (fold_left (receive 7) sample_packet.(p_sets) Ipfix.sample_parser,
     Ok ([], packet_with_lengths sample_packet)).
Proof.
  split; [exact sample_packet_wf|].
  exact (ipfix_parse_encode Ipfix.sample_parser sample_packet ([] : bytes) [] sample_packet_wf eq_refl).
Defined.

(** A string padded to four octets. *)
Lemma ipfix_value_encode_witness :
  let f := mkResolved (iana 96 4) DataType.String (str "applicationName") in
  let v := FieldValue.String (str "ab") in
  encode_field_value v 4 ([] : bytes) = str "ab" ++ [x00; x00] /\
  exists n i, parse_field_length (encode_field_value v 4 ([] : bytes) ++ []) 4 = Ok (i, n) /\
    parse_field_value list_fuel Ipfix.sample_parser.2 7 DataType.String n 0 2 i = (2%nat, Ok ([], v)).
Proof.
  intros f v. split; [vm_compute; reflexivity|].
  assert (Hf : field_wf f v) by (split; computed).
  exact (ipfix_value_encode (BM := Vec_BufMut) Ipfix.sample_parser.2 7 2 f v [] [] Hf eq_refl).
Defined.

Lemma ntp_roundtrip_witness :
  let d : date := exist _ (1_700_000_000, 999_999_999) eq_refl in
  exists d', (let '(s, f) := datetime_to_ntp d in ntp_to_datetime s f) = Some d' /\
    timestamp d' = 1_700_000_000 /\
    999_999_998 <= timestamp_subsec_nanos d' <= 999_999_999.
Proof.
  intros d. destruct (ntp_roundtrip (CR := crates_std) d) as (d' & E & H1 & H2); [split; computed|computed|].
  exists d'. split; [exact E|]. split; [exact H1|exact H2].
Defined.

Lemma options_withdrawal_left_over_witness :
  parse_options_template_record (options_template_octets (mkOptionsTemplate 300 0 1 []) ++ [])
  = Ok ([x00; x01], mkOptionsTemplate 300 0 0 []).
Proof. apply (options_withdrawal_left_over 300 1 []). computed. Defined.
End samples.
