(* ===== verification/SflowV5.v ===== *)
(** [sflow_v5/parser.rs]: the sFlow version 5 parser.

    A datagram is a header and a counted list of samples; a sample and the
    records in it are framed by a format and a length, so those that are not
    understood are kept as octets. *)

From Stdlib Require Import ZArith Lia Strings.Byte.
From stdpp Require Import base tactics numbers list gmap.
From S2P Require Import Prelude Nom Parsing Std Crates CommonParser.
#[local] Open Scope Z_scope.

Definition SFLOW_V5_VERSION : Z := 5.

Definition UNKNOWN : Z := 0.
Definition IPV4 : Z := 1.
Definition IPV6 : Z := 2.

(** ** Enumerations

    A primitive is converted to the variant with its discriminant. *)

(** [SampleFormat] *)
Module SampleFormat.
Inductive SampleFormat := | Flow | Counter | ExpandedFlow | ExpandedCounter | Drop.

Definition into (t : SampleFormat) : Z :=
  match t with
  | Flow => 1 | Counter => 2 | ExpandedFlow => 3 | ExpandedCounter => 4 | Drop => 5
  end.

Definition variants : list SampleFormat := [Flow; Counter; ExpandedFlow; ExpandedCounter; Drop].

Definition try_from (v : Z) : option SampleFormat := find (fun t => into t =? v) variants.

Lemma SampleFormat_try_from_into t : try_from (into t) = Some t.
Proof. by destruct t. Qed.

Lemma SampleFormat_into_fits t : fits_u 32 (into t).
Proof. by destruct t. Qed.
End SampleFormat.
Export SampleFormat(SampleFormat).

(** [FlowType] *)
Module FlowType.
Inductive FlowType := | SampledHeader | SampledEthernet | SampledIpv4 | SampledIpv6
  | ExtendedSwitch | ExtendedRouter | ExtendedGateway | ExtendedUser | ExtendedUrl
  | ExtendedEgressQueue | ExtendedAcl | ExtendedFunction.

Definition into (t : FlowType) : Z :=
  match t with
  | SampledHeader => 1 | SampledEthernet => 2 | SampledIpv4 => 3 | SampledIpv6 => 4
  | ExtendedSwitch => 1001 | ExtendedRouter => 1002 | ExtendedGateway => 1003
  | ExtendedUser => 1004 | ExtendedUrl => 1005 | ExtendedEgressQueue => 1036 | ExtendedAcl => 1037
  | ExtendedFunction => 1038
  end.

Definition variants : list FlowType := [SampledHeader; SampledEthernet; SampledIpv4; SampledIpv6;
    ExtendedSwitch; ExtendedRouter; ExtendedGateway; ExtendedUser; ExtendedUrl;
    ExtendedEgressQueue; ExtendedAcl; ExtendedFunction].

Definition try_from (v : Z) : option FlowType := find (fun t => into t =? v) variants.

Lemma FlowType_try_from_into t : try_from (into t) = Some t.
Proof. by destruct t. Qed.

Lemma FlowType_into_fits t : fits_u 32 (into t).
Proof. by destruct t. Qed.
End FlowType.
Export FlowType(FlowType).

(** [CounterType] *)
Module CounterType.
Inductive CounterType := | IfCounters | EthernetCounters | TokenringCounters | VgCounters
  | VlanCounters | Processor.

Definition into (t : CounterType) : Z :=
  match t with
  | IfCounters => 1 | EthernetCounters => 2 | TokenringCounters => 3 | VgCounters => 4
  | VlanCounters => 5 | Processor => 1001
  end.

Definition variants : list CounterType := [IfCounters; EthernetCounters; TokenringCounters;
    VgCounters; VlanCounters; Processor].

Definition try_from (v : Z) : option CounterType := find (fun t => into t =? v) variants.

Lemma CounterType_try_from_into t : try_from (into t) = Some t.
Proof. by destruct t. Qed.

Lemma CounterType_into_fits t : fits_u 32 (into t).
Proof. by destruct t. Qed.
End CounterType.
Export CounterType(CounterType).

(** [HeaderProtocol] *)
Module HeaderProtocol.
Inductive HeaderProtocol := | EthernetIso8023 | Iso88024TokenBus | Iso88025TokenRing | Fddi
  | FrameRelay | X25 | Ppp | Smds | Aal5 | Aal5Ip | Ipv4 | Ipv6 | Mpls | Pos.

Definition into (t : HeaderProtocol) : Z :=
  match t with
  | EthernetIso8023 => 1 | Iso88024TokenBus => 2 | Iso88025TokenRing => 3 | Fddi => 4
  | FrameRelay => 5 | X25 => 6 | Ppp => 7 | Smds => 8 | Aal5 => 9 | Aal5Ip => 10 | Ipv4 => 11
  | Ipv6 => 12 | Mpls => 13 | Pos => 14
  end.

Definition variants : list HeaderProtocol := [EthernetIso8023; Iso88024TokenBus;
    Iso88025TokenRing; Fddi; FrameRelay; X25; Ppp; Smds; Aal5; Aal5Ip; Ipv4; Ipv6; Mpls; Pos].

Definition try_from (v : Z) : option HeaderProtocol := find (fun t => into t =? v) variants.

Lemma HeaderProtocol_try_from_into t : try_from (into t) = Some t.
Proof. by destruct t. Qed.

Lemma HeaderProtocol_into_fits t : fits_u 32 (into t).
Proof. by destruct t. Qed.
End HeaderProtocol.
Export HeaderProtocol(HeaderProtocol).

(** [DropReason]: any other value is kept. *)
Module DropReason.
Inductive DropReason := | NetUnreachable | HostUnreachable | ProtocolUnreachable | PortUnreachable
  | FragNeeded | SrcRouteFailed | DstNetUnknown | DstHostUnknown | SrcHostIsolated
  | DstNetProhibited | DstHostProhibited | DstNetTosUnreachable | DstHostTosUnreachable
  | CommAdminProhibited | HostPrecedenceViolation | PrecedenceCutoff | Unknown | TtlExceeded | Acl
  | NoBufferSpace | Red | TrafficShaping | PktTooBig | SrcMacIsMulticast | VlanTagMismatch
  | IngressVlanFilter | IngressSpanningTreeFilter | PortListIsEmpty | PortLoopbackFilter
  | BlackholeRoute | NonIp | UcDipOverMcDmac | DipIsLoopbackAddress | SipIsMc
  | SipIsLoopbackAddress | IpHeaderCorrupted | Ipv4SipIsLimitedBc | Ipv6McDipReservedScope
  | Ipv6McDipInterfaceLocalScope | UnresolvedNeigh | McReversePathForwarding | NonRoutablePacket
  | DecapError | OverlaySmacIsMc | UnknownL2 | UnknownL3 | UnknownL3Exception | UnknownBuffer
  | UnknownTunnel | UnknownL4 | SipIsUnspecified | MlagPortIsolated | BlackholeArpNeigh
  | SrcMacIsDmac | DmacIsReserved | SipIsClassE | McDmacMismatch | SipIsDip | DipIsLocalNetwork
  | DipIsLinkLocal | OverlaySmacIsDmac | EgressVlanFilter | UcReversePathForwarding | SplitHorizon
  | Unrecognized (v : Z).

Definition into (t : DropReason) : Z :=
  match t with
  | NetUnreachable => 0 | HostUnreachable => 1 | ProtocolUnreachable => 2 | PortUnreachable => 3
  | FragNeeded => 4 | SrcRouteFailed => 5 | DstNetUnknown => 6 | DstHostUnknown => 7
  | SrcHostIsolated => 8 | DstNetProhibited => 9 | DstHostProhibited => 10
  | DstNetTosUnreachable => 11 | DstHostTosUnreachable => 12 | CommAdminProhibited => 13
  | HostPrecedenceViolation => 14 | PrecedenceCutoff => 15 | Unknown => 256 | TtlExceeded => 257
  | Acl => 258 | NoBufferSpace => 259 | Red => 260 | TrafficShaping => 261 | PktTooBig => 262
  | SrcMacIsMulticast => 263 | VlanTagMismatch => 264 | IngressVlanFilter => 265
  | IngressSpanningTreeFilter => 266 | PortListIsEmpty => 267 | PortLoopbackFilter => 268
  | BlackholeRoute => 269 | NonIp => 270 | UcDipOverMcDmac => 271 | DipIsLoopbackAddress => 272
  | SipIsMc => 273 | SipIsLoopbackAddress => 274 | IpHeaderCorrupted => 275
  | Ipv4SipIsLimitedBc => 276 | Ipv6McDipReservedScope => 277
  | Ipv6McDipInterfaceLocalScope => 278 | UnresolvedNeigh => 279 | McReversePathForwarding => 280
  | NonRoutablePacket => 281 | DecapError => 282 | OverlaySmacIsMc => 283 | UnknownL2 => 284
  | UnknownL3 => 285 | UnknownL3Exception => 286 | UnknownBuffer => 287 | UnknownTunnel => 288
  | UnknownL4 => 289 | SipIsUnspecified => 290 | MlagPortIsolated => 291
  | BlackholeArpNeigh => 292 | SrcMacIsDmac => 293 | DmacIsReserved => 294 | SipIsClassE => 295
  | McDmacMismatch => 296 | SipIsDip => 297 | DipIsLocalNetwork => 298 | DipIsLinkLocal => 299
  | OverlaySmacIsDmac => 300 | EgressVlanFilter => 301 | UcReversePathForwarding => 302
  | SplitHorizon => 303 | Unrecognized v => v
  end.

Definition variants : list DropReason := [NetUnreachable; HostUnreachable; ProtocolUnreachable;
    PortUnreachable; FragNeeded; SrcRouteFailed; DstNetUnknown; DstHostUnknown; SrcHostIsolated;
    DstNetProhibited; DstHostProhibited; DstNetTosUnreachable; DstHostTosUnreachable;
    CommAdminProhibited; HostPrecedenceViolation; PrecedenceCutoff; Unknown; TtlExceeded; Acl;
    NoBufferSpace; Red; TrafficShaping; PktTooBig; SrcMacIsMulticast; VlanTagMismatch;
    IngressVlanFilter; IngressSpanningTreeFilter; PortListIsEmpty; PortLoopbackFilter;
    BlackholeRoute; NonIp; UcDipOverMcDmac; DipIsLoopbackAddress; SipIsMc; SipIsLoopbackAddress;
    IpHeaderCorrupted; Ipv4SipIsLimitedBc; Ipv6McDipReservedScope; Ipv6McDipInterfaceLocalScope;
    UnresolvedNeigh; McReversePathForwarding; NonRoutablePacket; DecapError; OverlaySmacIsMc;
    UnknownL2; UnknownL3; UnknownL3Exception; UnknownBuffer; UnknownTunnel; UnknownL4;
    SipIsUnspecified; MlagPortIsolated; BlackholeArpNeigh; SrcMacIsDmac; DmacIsReserved;
    SipIsClassE; McDmacMismatch; SipIsDip; DipIsLocalNetwork; DipIsLinkLocal; OverlaySmacIsDmac;
    EgressVlanFilter; UcReversePathForwarding; SplitHorizon].

Definition from (v : Z) : DropReason :=
  default (Unrecognized v) (find (fun t => into t =? v) variants).
End DropReason.
Export DropReason(DropReason).

(** [AsPathSegmentType] *)
Module AsPathSegmentType.
Inductive AsPathSegmentType := | AsSet | AsSequence.

Definition into (t : AsPathSegmentType) : Z :=
  match t with
  | AsSet => 1 | AsSequence => 2
  end.

Definition variants : list AsPathSegmentType := [AsSet; AsSequence].

Definition try_from (v : Z) : option AsPathSegmentType := find (fun t => into t =? v) variants.

Lemma AsPathSegmentType_try_from_into t : try_from (into t) = Some t.
Proof. by destruct t. Qed.

Lemma AsPathSegmentType_into_fits t : fits_u 32 (into t).
Proof. by destruct t. Qed.
End AsPathSegmentType.
Export AsPathSegmentType(AsPathSegmentType).

(** [UrlDirection] *)
Module UrlDirection.
Inductive UrlDirection := | Src | Dst.

Definition into (t : UrlDirection) : Z :=
  match t with
  | Src => 1 | Dst => 2
  end.

Definition variants : list UrlDirection := [Src; Dst].

Definition try_from (v : Z) : option UrlDirection := find (fun t => into t =? v) variants.

Lemma UrlDirection_try_from_into t : try_from (into t) = Some t.
Proof. by destruct t. Qed.

Lemma UrlDirection_into_fits t : fits_u 32 (into t).
Proof. by destruct t. Qed.
End UrlDirection.
Export UrlDirection(UrlDirection).

(** [Direction] *)
Module Direction.
Inductive Direction := | Unknown | Ingress | Egress.

Definition into (t : Direction) : Z :=
  match t with
  | Unknown => 0 | Ingress => 1 | Egress => 2
  end.

Definition variants : list Direction := [Unknown; Ingress; Egress].

Definition try_from (v : Z) : option Direction := find (fun t => into t =? v) variants.

Lemma Direction_try_from_into t : try_from (into t) = Some t.
Proof. by destruct t. Qed.

Lemma Direction_into_fits t : fits_u 32 (into t).
Proof. by destruct t. Qed.
End Direction.
Export Direction(Direction).

(** ** Data *)

Section data.
Context `{CR : Crates}.

Record SampleHeader := mkSampleHeader {
  sh_format : Z;
  sh_length : Z;
  sh_sample_sequence_number : Z;
  sh_source_id_type : Z;
  sh_source_id_value : Z;
}.

Record RecordHeader := mkRecordHeader {
  rh_data_format : Z;
  rh_length : Z;
}.

Record SampledHeader := mkSampledHeader {
  sph_protocol : HeaderProtocol;
  sph_frame_length : Z;
  sph_stripped : Z;
  sph_header : bytes;
}.

Record SampledEthernet := mkSampledEthernet {
  se_length : Z;
  se_src_mac : MacAddr6;
  se_dst_mac : MacAddr6;
  se_type : Z;
}.

Record SampledIpv4 := mkSampledIpv4 {
  s4_length : Z;
  s4_protocol : Z;
  s4_src_ip : Z;
  s4_dst_ip : Z;
  s4_src_port : Z;
  s4_dst_port : Z;
  s4_tcp_flags : Z;
  s4_tos : Z;
}.

Record SampledIpv6 := mkSampledIpv6 {
  s6_length : Z;
  s6_protocol : Z;
  s6_src_ip : Z;
  s6_dst_ip : Z;
  s6_src_port : Z;
  s6_dst_port : Z;
  s6_tcp_flags : Z;
  s6_priority : Z;
}.

Record ExtendedSwitch := mkExtendedSwitch {
  sw_src_vlan : Z;
  sw_src_priority : Z;
  sw_dst_vlan : Z;
  sw_dst_priority : Z;
}.

Record ExtendedRouter := mkExtendedRouter {
  rt_nexthop : option IpAddr;
  rt_src_mask : Z;
  rt_dst_mask : Z;
}.

End data.

(** The members of an AS set in no order. *)
Module AsPathType.
Inductive AsPathType :=
  | AsSet (v : gset Z)
  | AsSequence (v : list Z).
End AsPathType.
Export AsPathType(AsPathType).

Record ExtendedGateway := mkExtendedGateway {
  gw_nexthop : option IpAddr;
  gw_as : Z;
  gw_src_as : Z;
  gw_src_peer_as : Z;
  gw_dst_as_path : list AsPathType;
  gw_communities : list Z;
  gw_localpref : Z;
}.

Record ExtendedUser := mkExtendedUser {
  us_src_charset : Z;
  us_src_user : bytes;
  us_dst_charset : Z;
  us_dst_user : bytes;
}.

Record ExtendedUrl := mkExtendedUrl {
  url_direction : UrlDirection;
  url_url : bytes;
}.

Record ExtendedEgressQueue := mkExtendedEgressQueue {
  eq_queue : Z;
}.

Record ExtendedAcl := mkExtendedAcl {
  acl_number : Z;
  acl_name : bytes;
  acl_direction : Direction;
}.

Record ExtendedFunction := mkExtendedFunction {
  fun_symbol : bytes;
}.

(** The data of a flow record. *)
Module FlowRecordType.
Section value.
Context `{CR : Crates}.

Inductive FlowRecordType :=
  | SampledHeader (v : SflowV5.SampledHeader)
  | SampledEthernet (v : SflowV5.SampledEthernet)
  | SampledIpv4 (v : SflowV5.SampledIpv4)
  | SampledIpv6 (v : SflowV5.SampledIpv6)
  | ExtendedSwitch (v : SflowV5.ExtendedSwitch)
  | ExtendedRouter (v : SflowV5.ExtendedRouter)
  | ExtendedGateway (v : SflowV5.ExtendedGateway)
  | ExtendedUser (v : SflowV5.ExtendedUser)
  | ExtendedUrl (v : SflowV5.ExtendedUrl)
  | ExtendedEgressQueue (v : SflowV5.ExtendedEgressQueue)
  | ExtendedAcl (v : SflowV5.ExtendedAcl)
  | ExtendedFunction (v : SflowV5.ExtendedFunction)
  | Unknown (v : bytes).
End value.
End FlowRecordType.
Export FlowRecordType(FlowRecordType).

Record IfCounters := mkIfCounters {
  if_index : Z;
  if_type : Z;
  if_speed : Z;
  if_direction : Z;
  if_status : Z;
  if_in_octets : Z;
  if_in_ucast_pkts : Z;
  if_in_multicast_pkts : Z;
  if_in_broadcast_pkts : Z;
  if_in_discards : Z;
  if_in_errors : Z;
  if_in_unknown_protos : Z;
  if_out_octets : Z;
  if_out_ucast_pkts : Z;
  if_out_multicast_pkts : Z;
  if_out_broadcast_pkts : Z;
  if_out_discards : Z;
  if_out_errors : Z;
  if_promiscuous_mode : Z;
}.

Record EthernetCounters := mkEthernetCounters {
  dot3_stats_alignment_errors : Z;
  dot3_stats_fcs_errors : Z;
  dot3_stats_single_collision_frames : Z;
  dot3_stats_multiple_collision_frames : Z;
  dot3_stats_sqetest_errors : Z;
  dot3_stats_deferred_transmissions : Z;
  dot3_stats_late_collisions : Z;
  dot3_stats_excessive_collisions : Z;
  dot3_stats_internal_mac_transmit_errors : Z;
  dot3_stats_carrier_sense_errors : Z;
  dot3_stats_frame_too_longs : Z;
  dot3_stats_internal_mac_receive_errors : Z;
  dot3_stats_symbol_errors : Z;
}.

Record TokenringCounters := mkTokenringCounters {
  dot5_stats_line_errors : Z;
  dot5_stats_burst_errors : Z;
  dot5_stats_ac_errors : Z;
  dot5_stats_abort_trans_errors : Z;
  dot5_stats_internal_errors : Z;
  dot5_stats_lost_frame_errors : Z;
  dot5_stats_receive_congestions : Z;
  dot5_stats_frame_copied_errors : Z;
  dot5_stats_token_errors : Z;
  dot5_stats_soft_errors : Z;
  dot5_stats_hard_errors : Z;
  dot5_stats_signal_loss : Z;
  dot5_stats_transmit_beacons : Z;
  dot5_stats_recoveries : Z;
  dot5_stats_lobe_wires : Z;
  dot5_stats_removes : Z;
  dot5_stats_singles : Z;
  dot5_stats_freq_errors : Z;
}.

Record VgCounters := mkVgCounters {
  dot12_in_high_priority_frames : Z;
  dot12_in_high_priority_octets : Z;
  dot12_in_norm_priority_frames : Z;
  dot12_in_norm_priority_octets : Z;
  dot12_in_ipm_errors : Z;
  dot12_in_oversize_frame_errors : Z;
  dot12_in_data_errors : Z;
  dot12_in_null_addressed_frames : Z;
  dot12_out_high_priority_frames : Z;
  dot12_out_high_priority_octets : Z;
  dot12_transition_into_training : Z;
  dot12_hc_in_high_priority_octets : Z;
  dot12_hc_in_norm_priority_octets : Z;
  dot12_hc_out_high_priority_octets : Z;
}.

Record VlanCounters := mkVlanCounters {
  vlan_vlan_id : Z;
  vlan_octets : Z;
  vlan_ucast_pkts : Z;
  vlan_multicast_pkts : Z;
  vlan_broadcast_pkts : Z;
  vlan_discards : Z;
}.

Record Processor := mkProcessor {
  cpu_avg_5s_cpu : Z;
  cpu_avg_1m_cpu : Z;
  cpu_avg_5m_cpu : Z;
  cpu_total_memory : Z;
  cpu_free_memory : Z;
}.

(** The data of a counter record. *)
Module CounterRecordType.
Inductive CounterRecordType :=
  | IfCounters (v : SflowV5.IfCounters)
  | EthernetCounters (v : SflowV5.EthernetCounters)
  | TokenringCounters (v : SflowV5.TokenringCounters)
  | VgCounters (v : SflowV5.VgCounters)
  | VlanCounters (v : SflowV5.VlanCounters)
  | Processor (v : SflowV5.Processor)
  | Unknown (v : bytes).
End CounterRecordType.
Export CounterRecordType(CounterRecordType).

Section samples.
Context `{CR : Crates}.

Record FlowRecord := mkFlowRecord {
  fr_header : RecordHeader;
  fr_data : FlowRecordType;
}.

Record CounterRecord := mkCounterRecord {
  cr_header : RecordHeader;
  cr_data : list CounterRecordType;
}.

Record FlowSample := mkFlowSample {
  fs_header : SampleHeader;
  fs_sampling_rate : Z;
  fs_sample_pool : Z;
  fs_drops : Z;
  fs_input : Z;
  fs_output : Z;
  fs_records : list FlowRecord;
}.

Record CounterSample := mkCounterSample {
  cs_header : SampleHeader;
  cs_records : list CounterRecord;
}.

Record ExpandedFlowSample := mkExpandedFlowSample {
  efs_header : SampleHeader;
  efs_sampling_rate : Z;
  efs_sample_pool : Z;
  efs_drops : Z;
  efs_input_if_format : Z;
  efs_input_if_value : Z;
  efs_output_if_format : Z;
  efs_output_if_value : Z;
  efs_records : list FlowRecord;
}.

Record DropSample := mkDropSample {
  ds_header : SampleHeader;
  ds_drops : Z;
  ds_input : Z;
  ds_output : Z;
  ds_reason : DropReason;
  ds_records : list FlowRecord;
}.

End samples.

Abbreviation ExpandedCounterSample := CounterSample.

(** A sample. *)
Module Sample.
Section value.
Context `{CR : Crates}.

Inductive Sample :=
  | Flow (v : FlowSample)
  | Counter (v : CounterSample)
  | ExpandedFlow (v : ExpandedFlowSample)
  | ExpandedCounter (v : ExpandedCounterSample)
  | Drop (v : DropSample)
  | Unknown (v : bytes).
End value.
End Sample.
Export Sample(Sample).

Section parser.
Context `{NM : Nom} `{CR : Crates}.

Record SFlowV5 := mkSFlowV5 {
  sf_version : Z;
  sf_agent_address : option IpAddr;
  sf_sub_agent_id : Z;
  sf_sequence_number : Z;
  sf_uptime : Z;
  sf_samples : list Sample;
}.

(** ** Parsers *)

Definition parse_address (input : bytes) : IResult (option IpAddr) :=
  let? (input, address_type) := be_u32 input in
  if address_type =? UNKNOWN then Ok (input, None)
  else if address_type =? IPV4 then
    let? (input, addr) := be_u32 input in
    Ok (input, Some (V4 addr))
  else if address_type =? IPV6 then
    let? (input, addr) := be_u128 input in
    Ok (input, Some (V6 addr))
  else fail input.

(** The octets of the string and the padding to a multiple of four. *)
Definition parse_xdr_string (input : bytes) : IResult bytes :=
  let? (input, length) := be_u32 input in
  let? (input, string) := nom_map (nom_take length) from_utf8_lossy input in
  let padding := (4 - length mod 4) mod 4 in
  let? (input, _) := nom_take padding input in
  Ok (input, string).

Definition parse_padded_mac (input : bytes) : IResult MacAddr6 :=
  let? (input, mac) := macaddr6 input in
  let? (input, _pad) := nom_take 2 input in
  Ok (input, mac).

Definition parse_sampled_header (input : bytes) : IResult SampledHeader :=
  let? (input, protocol) := map_res be_u32 HeaderProtocol.try_from input in
  let? (input, frame_length) := be_u32 input in
  let? (input, stripped) := be_u32 input in
  let? (input, original_length) := be_u32 input in
  let? (input, header) := nom_take original_length input in
  Ok (input, mkSampledHeader protocol frame_length stripped header).

Definition parse_sampled_ethernet (input : bytes) : IResult SampledEthernet :=
  let? (input, length) := be_u32 input in
  let? (input, src_mac) := parse_padded_mac input in
  let? (input, dst_mac) := parse_padded_mac input in
  let? (input, type_) := be_u32 input in
  Ok (input, mkSampledEthernet length src_mac dst_mac type_).

Definition parse_sampled_ipv4 (input : bytes) : IResult SampledIpv4 :=
  let? (input, length) := be_u32 input in
  let? (input, protocol) := be_u32 input in
  let? (input, src_ip) := ipv4_addr input in
  let? (input, dst_ip) := ipv4_addr input in
  let? (input, src_port) := be_u32 input in
  let? (input, dst_port) := be_u32 input in
  let? (input, tcp_flags) := be_u32 input in
  let? (input, tos) := be_u32 input in
  Ok (input, mkSampledIpv4 length protocol src_ip dst_ip src_port dst_port tcp_flags tos).

Definition parse_sampled_ipv6 (input : bytes) : IResult SampledIpv6 :=
  let? (input, length) := be_u32 input in
  let? (input, protocol) := be_u32 input in
  let? (input, src_ip) := ipv6_addr input in
  let? (input, dst_ip) := ipv6_addr input in
  let? (input, src_port) := be_u32 input in
  let? (input, dst_port) := be_u32 input in
  let? (input, tcp_flags) := be_u32 input in
  let? (input, priority) := be_u32 input in
  Ok (input, mkSampledIpv6 length protocol src_ip dst_ip src_port dst_port tcp_flags priority).

Definition parse_extended_switch (input : bytes) : IResult ExtendedSwitch :=
  let? (input, src_vlan) := be_u32 input in
  let? (input, src_priority) := be_u32 input in
  let? (input, dst_vlan) := be_u32 input in
  let? (input, dst_priority) := be_u32 input in
  Ok (input, mkExtendedSwitch src_vlan src_priority dst_vlan dst_priority).

Definition parse_extended_router (input : bytes) : IResult ExtendedRouter :=
  let? (input, nexthop) := parse_address input in
  let? (input, src_mask) := be_u32 input in
  let? (input, dst_mask) := be_u32 input in
  Ok (input, mkExtendedRouter nexthop src_mask dst_mask).

Definition parse_as_path_segment (input : bytes) : IResult AsPathType :=
  let? (input, segment_type) := map_res be_u32 AsPathSegmentType.try_from input in
  let? (input, length) := be_u32 input in
  let? (input, ases) := count be_u32 length input in
  let segment :=
    match segment_type with
    | AsPathSegmentType.AsSet => AsPathType.AsSet (list_to_set ases)
    | AsPathSegmentType.AsSequence => AsPathType.AsSequence ases
    end in
  Ok (input, segment).

Definition parse_extended_gateway (input : bytes) : IResult ExtendedGateway :=
  let? (input, nexthop) := parse_address input in
  let? (input, as_) := be_u32 input in
  let? (input, src_as) := be_u32 input in
  let? (input, src_peer_as) := be_u32 input in
  let? (input, dst_as_path_length) := be_u32 input in
  let? (input, dst_as_path) := count parse_as_path_segment dst_as_path_length input in
  let? (input, communities_length) := be_u32 input in
  let? (input, communities) := count be_u32 communities_length input in
  let? (input, localpref) := be_u32 input in
  Ok (input, mkExtendedGateway nexthop as_ src_as src_peer_as dst_as_path communities localpref).

Definition parse_extended_user (input : bytes) : IResult ExtendedUser :=
  let? (input, src_charset) := be_u32 input in
  let? (input, src_user) := parse_xdr_string input in
  let? (input, dst_charset) := be_u32 input in
  let? (input, dst_user) := parse_xdr_string input in
  Ok (input, mkExtendedUser src_charset src_user dst_charset dst_user).

Definition parse_extended_url (input : bytes) : IResult ExtendedUrl :=
  let? (input, direction) := map_res be_u32 UrlDirection.try_from input in
  let? (input, url) := parse_xdr_string input in
  Ok (input, mkExtendedUrl direction url).

Definition parse_extended_egress_queue (input : bytes) : IResult ExtendedEgressQueue :=
  let? (input, queue) := be_u32 input in
  Ok (input, mkExtendedEgressQueue queue).

Definition parse_extended_acl (input : bytes) : IResult ExtendedAcl :=
  let? (input, number) := be_u32 input in
  let? (input, name) := parse_xdr_string input in
  let? (input, direction) := map_res be_u32 Direction.try_from input in
  Ok (input, mkExtendedAcl number name direction).

Definition parse_extended_function (input : bytes) : IResult ExtendedFunction :=
  let? (input, symbol) := parse_xdr_string input in
  Ok (input, mkExtendedFunction symbol).

Definition parse_if_counters (input : bytes) : IResult IfCounters :=
  let? (input, if_index) := be_u32 input in
  let? (input, if_type) := be_u32 input in
  let? (input, if_speed) := be_u64 input in
  let? (input, if_direction) := be_u32 input in
  let? (input, if_status) := be_u32 input in
  let? (input, if_in_octets) := be_u64 input in
  let? (input, if_in_ucast_pkts) := be_u32 input in
  let? (input, if_in_multicast_pkts) := be_u32 input in
  let? (input, if_in_broadcast_pkts) := be_u32 input in
  let? (input, if_in_discards) := be_u32 input in
  let? (input, if_in_errors) := be_u32 input in
  let? (input, if_in_unknown_protos) := be_u32 input in
  let? (input, if_out_octets) := be_u64 input in
  let? (input, if_out_ucast_pkts) := be_u32 input in
  let? (input, if_out_multicast_pkts) := be_u32 input in
  let? (input, if_out_broadcast_pkts) := be_u32 input in
  let? (input, if_out_discards) := be_u32 input in
  let? (input, if_out_errors) := be_u32 input in
  let? (input, if_promiscuous_mode) := be_u32 input in
  Ok (input, mkIfCounters if_index if_type if_speed if_direction if_status if_in_octets
    if_in_ucast_pkts if_in_multicast_pkts if_in_broadcast_pkts if_in_discards if_in_errors
    if_in_unknown_protos if_out_octets if_out_ucast_pkts if_out_multicast_pkts
    if_out_broadcast_pkts if_out_discards if_out_errors if_promiscuous_mode).

Definition parse_ethernet_counters (input : bytes) : IResult EthernetCounters :=
  let? (input, dot3_stats_alignment_errors) := be_u32 input in
  let? (input, dot3_stats_fcs_errors) := be_u32 input in
  let? (input, dot3_stats_single_collision_frames) := be_u32 input in
  let? (input, dot3_stats_multiple_collision_frames) := be_u32 input in
  let? (input, dot3_stats_sqetest_errors) := be_u32 input in
  let? (input, dot3_stats_deferred_transmissions) := be_u32 input in
  let? (input, dot3_stats_late_collisions) := be_u32 input in
  let? (input, dot3_stats_excessive_collisions) := be_u32 input in
  let? (input, dot3_stats_internal_mac_transmit_errors) := be_u32 input in
  let? (input, dot3_stats_carrier_sense_errors) := be_u32 input in
  let? (input, dot3_stats_frame_too_longs) := be_u32 input in
  let? (input, dot3_stats_internal_mac_receive_errors) := be_u32 input in
  let? (input, dot3_stats_symbol_errors) := be_u32 input in
  Ok (input, mkEthernetCounters dot3_stats_alignment_errors dot3_stats_fcs_errors
    dot3_stats_single_collision_frames dot3_stats_multiple_collision_frames
    dot3_stats_sqetest_errors dot3_stats_deferred_transmissions dot3_stats_late_collisions
    dot3_stats_excessive_collisions dot3_stats_internal_mac_transmit_errors
    dot3_stats_carrier_sense_errors dot3_stats_frame_too_longs
    dot3_stats_internal_mac_receive_errors dot3_stats_symbol_errors).

Definition parse_tokenring_counters (input : bytes) : IResult TokenringCounters :=
  let? (input, dot5_stats_line_errors) := be_u32 input in
  let? (input, dot5_stats_burst_errors) := be_u32 input in
  let? (input, dot5_stats_ac_errors) := be_u32 input in
  let? (input, dot5_stats_abort_trans_errors) := be_u32 input in
  let? (input, dot5_stats_internal_errors) := be_u32 input in
  let? (input, dot5_stats_lost_frame_errors) := be_u32 input in
  let? (input, dot5_stats_receive_congestions) := be_u32 input in
  let? (input, dot5_stats_frame_copied_errors) := be_u32 input in
  let? (input, dot5_stats_token_errors) := be_u32 input in
  let? (input, dot5_stats_soft_errors) := be_u32 input in
  let? (input, dot5_stats_hard_errors) := be_u32 input in
  let? (input, dot5_stats_signal_loss) := be_u32 input in
  let? (input, dot5_stats_transmit_beacons) := be_u32 input in
  let? (input, dot5_stats_recoveries) := be_u32 input in
  let? (input, dot5_stats_lobe_wires) := be_u32 input in
  let? (input, dot5_stats_removes) := be_u32 input in
  let? (input, dot5_stats_singles) := be_u32 input in
  let? (input, dot5_stats_freq_errors) := be_u32 input in
  Ok (input, mkTokenringCounters dot5_stats_line_errors dot5_stats_burst_errors
    dot5_stats_ac_errors dot5_stats_abort_trans_errors dot5_stats_internal_errors
    dot5_stats_lost_frame_errors dot5_stats_receive_congestions dot5_stats_frame_copied_errors
    dot5_stats_token_errors dot5_stats_soft_errors dot5_stats_hard_errors dot5_stats_signal_loss
    dot5_stats_transmit_beacons dot5_stats_recoveries dot5_stats_lobe_wires dot5_stats_removes
    dot5_stats_singles dot5_stats_freq_errors).

Definition parse_vg_counters (input : bytes) : IResult VgCounters :=
  let? (input, dot12_in_high_priority_frames) := be_u32 input in
  let? (input, dot12_in_high_priority_octets) := be_u64 input in
  let? (input, dot12_in_norm_priority_frames) := be_u32 input in
  let? (input, dot12_in_norm_priority_octets) := be_u64 input in
  let? (input, dot12_in_ipm_errors) := be_u32 input in
  let? (input, dot12_in_oversize_frame_errors) := be_u32 input in
  let? (input, dot12_in_data_errors) := be_u32 input in
  let? (input, dot12_in_null_addressed_frames) := be_u32 input in
  let? (input, dot12_out_high_priority_frames) := be_u32 input in
  let? (input, dot12_out_high_priority_octets) := be_u64 input in
  let? (input, dot12_transition_into_training) := be_u32 input in
  let? (input, dot12_hc_in_high_priority_octets) := be_u64 input in
  let? (input, dot12_hc_in_norm_priority_octets) := be_u64 input in
  let? (input, dot12_hc_out_high_priority_octets) := be_u64 input in
  Ok (input, mkVgCounters dot12_in_high_priority_frames dot12_in_high_priority_octets
    dot12_in_norm_priority_frames dot12_in_norm_priority_octets dot12_in_ipm_errors
    dot12_in_oversize_frame_errors dot12_in_data_errors dot12_in_null_addressed_frames
    dot12_out_high_priority_frames dot12_out_high_priority_octets dot12_transition_into_training
    dot12_hc_in_high_priority_octets dot12_hc_in_norm_priority_octets
    dot12_hc_out_high_priority_octets).

Definition parse_vlan_counters (input : bytes) : IResult VlanCounters :=
  let? (input, vlan_id) := be_u32 input in
  let? (input, octets) := be_u64 input in
  let? (input, ucast_pkts) := be_u32 input in
  let? (input, multicast_pkts) := be_u32 input in
  let? (input, broadcast_pkts) := be_u32 input in
  let? (input, discards) := be_u32 input in
  Ok (input, mkVlanCounters vlan_id octets ucast_pkts multicast_pkts broadcast_pkts discards).

Definition parse_processor (input : bytes) : IResult Processor :=
  let? (input, avg_5s_cpu) := be_i32 input in
  let? (input, avg_1m_cpu) := be_i32 input in
  let? (input, avg_5m_cpu) := be_i32 input in
  let? (input, total_memory) := be_u64 input in
  let? (input, free_memory) := be_u64 input in
  Ok (input, mkProcessor avg_5s_cpu avg_1m_cpu avg_5m_cpu total_memory free_memory).

Definition parse_record_header (input : bytes) : IResult RecordHeader :=
  let? (input, data_format) := be_u32 input in
  let? (input, length) := be_u32 input in
  Ok (input, mkRecordHeader data_format length).

Definition flow_record_data (format : Z) (v : bytes) : result FlowRecordType :=
  match FlowType.try_from format with
  | Some FlowType.SampledHeader =>
      let? (_, v) := parse_sampled_header v in Ok (FlowRecordType.SampledHeader v)
  | Some FlowType.SampledEthernet =>
      let? (_, v) := parse_sampled_ethernet v in Ok (FlowRecordType.SampledEthernet v)
  | Some FlowType.SampledIpv4 =>
      let? (_, v) := parse_sampled_ipv4 v in Ok (FlowRecordType.SampledIpv4 v)
  | Some FlowType.SampledIpv6 =>
      let? (_, v) := parse_sampled_ipv6 v in Ok (FlowRecordType.SampledIpv6 v)
  | Some FlowType.ExtendedSwitch =>
      let? (_, v) := parse_extended_switch v in Ok (FlowRecordType.ExtendedSwitch v)
  | Some FlowType.ExtendedRouter =>
      let? (_, v) := parse_extended_router v in Ok (FlowRecordType.ExtendedRouter v)
  | Some FlowType.ExtendedGateway =>
      let? (_, v) := parse_extended_gateway v in Ok (FlowRecordType.ExtendedGateway v)
  | Some FlowType.ExtendedUser =>
      let? (_, v) := parse_extended_user v in Ok (FlowRecordType.ExtendedUser v)
  | Some FlowType.ExtendedUrl =>
      let? (_, v) := parse_extended_url v in Ok (FlowRecordType.ExtendedUrl v)
  | Some FlowType.ExtendedEgressQueue =>
      let? (_, v) := parse_extended_egress_queue v in Ok (FlowRecordType.ExtendedEgressQueue v)
  | Some FlowType.ExtendedAcl =>
      let? (_, v) := parse_extended_acl v in Ok (FlowRecordType.ExtendedAcl v)
  | Some FlowType.ExtendedFunction =>
      let? (_, v) := parse_extended_function v in Ok (FlowRecordType.ExtendedFunction v)
  | None => Ok (FlowRecordType.Unknown v)
  end.

Definition counter_record_data (format : Z) (data : bytes) : result CounterRecordType :=
  match CounterType.try_from format with
  | Some CounterType.IfCounters =>
      let? (_, v) := parse_if_counters data in Ok (CounterRecordType.IfCounters v)
  | Some CounterType.EthernetCounters =>
      let? (_, v) := parse_ethernet_counters data in Ok (CounterRecordType.EthernetCounters v)
  | Some CounterType.TokenringCounters =>
      let? (_, v) := parse_tokenring_counters data in Ok (CounterRecordType.TokenringCounters v)
  | Some CounterType.VgCounters =>
      let? (_, v) := parse_vg_counters data in Ok (CounterRecordType.VgCounters v)
  | Some CounterType.VlanCounters =>
      let? (_, v) := parse_vlan_counters data in Ok (CounterRecordType.VlanCounters v)
  | Some CounterType.Processor =>
      let? (_, v) := parse_processor data in Ok (CounterRecordType.Processor v)
  | None => Ok (CounterRecordType.Unknown data)
  end.

(** [Result::unwrap_or_else] *)
Definition unwrap_or {A} (r : result A) (a : A) : A :=
  match r with Ok v => v | Err _ => a end.

Definition parse_flow_record (input : bytes) : IResult FlowRecord :=
  let? (input, header) := parse_record_header input in
  let? (input, data) := nom_take header.(rh_length) input in
  let data := unwrap_or (flow_record_data header.(rh_data_format) data) (FlowRecordType.Unknown data) in
  Ok (input, mkFlowRecord header data).

Definition parse_counter_record (input : bytes) : IResult CounterRecord :=
  let? (input, header) := parse_record_header input in
  let? (input, data) := nom_take header.(rh_length) input in
  let record :=
    unwrap_or (counter_record_data header.(rh_data_format) data) (CounterRecordType.Unknown data) in
  Ok (input, mkCounterRecord header [record]).

Definition parse_sample_header (input : bytes) : IResult SampleHeader :=
  let? (input, format) := be_u32 input in
  let? (input, length) := be_u32 input in
  let? (input, sample_sequence_number) := be_u32 input in
  let? (input, (source_id_type, source_id_value)) :=
    match SampleFormat.try_from format with
    | Some (SampleFormat.Flow | SampleFormat.Counter) =>
        let? (input, source_id) := be_u32 input in
        let source_id_type := Z.shiftr source_id 24 in
        let source_id_value := Z.land source_id 0x00ffffff in
        Ok (input, (source_id_type, source_id_value))
    | Some (SampleFormat.ExpandedFlow | SampleFormat.ExpandedCounter | SampleFormat.Drop) =>
        let? (input, source_id_type) := be_u32 input in
        let? (input, source_id_value) := be_u32 input in
        Ok (input, (source_id_type, source_id_value))
    | None => fail input
    end in
  Ok (input, mkSampleHeader format length sample_sequence_number source_id_type source_id_value).

Definition parse_flow_sample (input : bytes) : IResult FlowSample :=
  let? (input, header) := parse_sample_header input in
  let? (input, sampling_rate) := be_u32 input in
  let? (input, sample_pool) := be_u32 input in
  let? (input, drops) := be_u32 input in
  let? (input, input_) := be_u32 input in
  let? (input, output) := be_u32 input in
  let? (input, flow_records_count) := be_u32 input in
  let? (input, records) := count parse_flow_record flow_records_count input in
  Ok (input, mkFlowSample header sampling_rate sample_pool drops input_ output records).

Definition parse_expanded_flow_sample (input : bytes) : IResult ExpandedFlowSample :=
  let? (input, header) := parse_sample_header input in
  let? (input, sampling_rate) := be_u32 input in
  let? (input, sample_pool) := be_u32 input in
  let? (input, drops) := be_u32 input in
  let? (input, input_if_format) := be_u32 input in
  let? (input, input_if_value) := be_u32 input in
  let? (input, output_if_format) := be_u32 input in
  let? (input, output_if_value) := be_u32 input in
  let? (input, flow_records_count) := be_u32 input in
  let? (input, records) := count parse_flow_record flow_records_count input in
  Ok (input, mkExpandedFlowSample header sampling_rate sample_pool drops input_if_format
    input_if_value output_if_format output_if_value records).

Definition parse_drop_sample (input : bytes) : IResult DropSample :=
  let? (input, header) := parse_sample_header input in
  let? (input, drops) := be_u32 input in
  let? (input, input_) := be_u32 input in
  let? (input, output) := be_u32 input in
  let? (input, reason) := nom_map be_u32 DropReason.from input in
  let? (input, records_count) := be_u32 input in
  let? (input, records) := count parse_flow_record records_count input in
  Ok (input, mkDropSample header drops input_ output reason records).

Definition parse_counter_sample (input : bytes) : IResult CounterSample :=
  let? (input, header) := parse_sample_header input in
  let? (input, records_count) := be_u32 input in
  let? (input, records) := count parse_counter_record records_count input in
  Ok (input, mkCounterSample header records).

(** The rest of the sample is not looked at. *)
Definition sample_value {A} (r : IResult A) (f : A -> Sample) : result Sample :=
  match r with Ok (_, v) => Ok (f v) | Err e => Err e end.

Definition parse_sample (input : bytes) : IResult Sample :=
  let? (_, (format, length)) := peek (tuple2 be_u32 be_u32) input in
  let? (input, sample) := nom_take (usize_saturating_add length 8) input in
  let unknown := Sample.Unknown (drop 8 sample) in
  match SampleFormat.try_from format with
  | None => Ok (input, unknown)
  | Some format =>
      let parsed :=
        match format with
        | SampleFormat.Flow => sample_value (parse_flow_sample sample) Sample.Flow
        | SampleFormat.Counter => sample_value (parse_counter_sample sample) Sample.Counter
        | SampleFormat.ExpandedFlow =>
            sample_value (parse_expanded_flow_sample sample) Sample.ExpandedFlow
        | SampleFormat.ExpandedCounter =>
            sample_value (parse_counter_sample sample) Sample.ExpandedCounter
        | SampleFormat.Drop => sample_value (parse_drop_sample sample) Sample.Drop
        end in
      Ok (input, unwrap_or parsed unknown)
  end.

Definition parse_sflow_v5 (input : bytes) : IResult SFlowV5 :=
  let? (input, version) := verify be_u32 (fun i => i =? SFLOW_V5_VERSION) input in
  let? (input, agent_address) := parse_address input in
  let? (input, sub_agent_id) := be_u32 input in
  let? (input, sequence_number) := be_u32 input in
  let? (input, uptime) := be_u32 input in
  let? (input, sample_count) := be_u32 input in
  let? (input, samples) := count parse_sample sample_count input in
  Ok (input, mkSFlowV5 version agent_address sub_agent_id sequence_number uptime samples).

Definition SflowV5Parser_parse (input : bytes) : IResult SFlowV5 := parse_sflow_v5 input.
End parser.
