(* ===== verification/SflowWire.v ===== *)
(** What the sFlow parser reads: the XDR encoding of its datagrams, and the
    framing of samples and records. *)

From Stdlib Require Import ZArith Lia Strings.Byte.
From stdpp Require Import base tactics numbers list gmap.
From S2P Require Import Prelude Nom Parsing Std Crates CommonParser SflowV5.
#[local] Open Scope Z_scope.

Section wire.
Context `{NM : Nom} `{CR : Crates}.

(** ** XDR

    The encoding the sFlow specification gives each structure. *)

Definition xdr_pad (n : Z) : bytes := replicate (Z.to_nat ((4 - n mod 4) mod 4)) x00.

Definition xdr_string (s : bytes) : bytes := be_bytes 4 (zlen s) ++ s ++ xdr_pad (zlen s).
Definition xdr_string_wf (s : bytes) : Prop := fits_u 32 (zlen s) /\ utf8_valid s = true.

Definition padded_mac (m : MacAddr6) : bytes := MacAddr6_as_bytes m ++ [x00; x00].

(** The octets of a packet header, which the record's length pads. *)
Definition opaque (c : bytes) : bytes := be_bytes 4 (zlen c) ++ c.

Definition address_octets (a : option IpAddr) : bytes :=
  match a with
  | None => be_bytes 4 UNKNOWN
  | Some (V4 a) => be_bytes 4 IPV4 ++ be_bytes 4 a
  | Some (V6 a) => be_bytes 4 IPV6 ++ be_bytes 16 a
  end.

Definition address_wf (a : option IpAddr) : Prop :=
  match a with
  | None => True
  | Some (V4 a) => fits_u 32 a
  | Some (V6 a) => fits_u 128 a
  end.

(** A counted array. *)
Definition array {A} (enc : A -> bytes) (l : list A) : bytes :=
  be_bytes 4 (zlen l) ++ concat (enc <$> l).

Definition array_wf {A} (wf : A -> Prop) (l : list A) : Prop := fits_u 32 (zlen l) /\ Forall wf l.

Definition segment_octets (s : AsPathType) : bytes :=
  match s with
  | AsPathType.AsSet s => be_bytes 4 (AsPathSegmentType.into AsPathSegmentType.AsSet) ++
      array (be_bytes 4) (elements s)
  | AsPathType.AsSequence l => be_bytes 4 (AsPathSegmentType.into AsPathSegmentType.AsSequence) ++
      array (be_bytes 4) l
  end.

Definition segment_wf (s : AsPathType) : Prop :=
  match s with
  | AsPathType.AsSet s => array_wf (fits_u 32) (elements s)
  | AsPathType.AsSequence l => array_wf (fits_u 32) l
  end.

Lemma parse_address_octets a rest :
  address_wf a -> parse_address (address_octets a ++ rest) = Ok (rest, a).
Proof.
  unfold parse_address. destruct a as [[a|a]|]; cbn [address_octets address_wf]; intros Ha;
    rewrite <- ?app_assoc, be_u32_app by done; cbn; [by rewrite be_u32_app|by rewrite be_u128_app|done].
Qed.

Lemma parse_xdr_string_octets s rest :
  xdr_string_wf s -> parse_xdr_string (xdr_string s ++ rest) = Ok (rest, s).
Proof.
  intros [Hl Hv]. unfold parse_xdr_string, xdr_string. rewrite <- !app_assoc, be_u32_app by done.
  rewrite nom_map_law, nom_take_app, from_utf8_lossy_id by done.
  rewrite nom_take_app; [done|]. unfold xdr_pad, zlen at 2.
  rewrite length_replicate. pose proof (Z.mod_pos_bound (4 - zlen s mod 4) 4). lia.
Qed.

Lemma parse_padded_mac_octets m rest : parse_padded_mac (padded_mac m ++ rest) = Ok (rest, m).
Proof.
  unfold parse_padded_mac, padded_mac. rewrite <- app_assoc, macaddr6_app.
  by rewrite nom_take_app.
Qed.

Lemma count_array {A} (p : bytes -> IResult A) enc wf l rest :
  (forall a i, wf a -> p (enc a ++ i) = Ok (i, a)) -> Forall wf l ->
  count p (zlen l) (concat (enc <$> l) ++ rest) = Ok (rest, l).
Proof.
  intros Hp Hl. rewrite Forall_forall in Hl. apply count_concat; [done|]. auto.
Qed.

Lemma parse_words l rest :
  Forall (fits_u 32) l -> count be_u32 (zlen l) (concat (be_bytes 4 <$> l) ++ rest) = Ok (rest, l).
Proof. apply count_array. intros. by apply be_u32_app. Qed.

Lemma parse_segment_octets s rest :
  segment_wf s -> parse_as_path_segment (segment_octets s ++ rest) = Ok (rest, s).
Proof.
  unfold parse_as_path_segment, segment_octets, array.
  destruct s as [s|l]; intros [Hl Hs]; rewrite <- !app_assoc, map_res_law, be_u32_app by done;
    rewrite AsPathSegmentType.AsPathSegmentType_try_from_into, be_u32_app, parse_words by done; [|done].
  by rewrite list_to_set_elements_L.
Qed.

Lemma parse_enum {T} (f : Z -> option T) (into : T -> Z) t rest :
  fits_u 32 (into t) -> f (into t) = Some t ->
  map_res be_u32 f (be_bytes 4 (into t) ++ rest) = Ok (rest, t).
Proof. intros Hfit Hf. by rewrite map_res_law, be_u32_app, Hf. Qed.

Lemma parse_header_protocol t rest :
  map_res be_u32 HeaderProtocol.try_from (be_bytes 4 (HeaderProtocol.into t) ++ rest) = Ok (rest, t).
Proof. apply parse_enum; [apply HeaderProtocol.HeaderProtocol_into_fits|apply HeaderProtocol.HeaderProtocol_try_from_into]. Qed.

Lemma parse_url_direction t rest :
  map_res be_u32 UrlDirection.try_from (be_bytes 4 (UrlDirection.into t) ++ rest) = Ok (rest, t).
Proof. apply parse_enum; [apply UrlDirection.UrlDirection_into_fits|apply UrlDirection.UrlDirection_try_from_into]. Qed.

Lemma parse_direction t rest :
  map_res be_u32 Direction.try_from (be_bytes 4 (Direction.into t) ++ rest) = Ok (rest, t).
Proof. apply parse_enum; [apply Direction.Direction_into_fits|apply Direction.Direction_try_from_into]. Qed.

Lemma parse_segments l rest :
  Forall segment_wf l ->
  count parse_as_path_segment (zlen l) (concat (segment_octets <$> l) ++ rest) = Ok (rest, l).
Proof. apply count_array. intros. by apply parse_segment_octets. Qed.

(** One field after the other. *)
Ltac field_step :=
  lazymatch goal with
  | |- context [be_u32 (be_bytes 4 _ ++ _)] => rewrite be_u32_app by fits
  | |- context [be_u64 (be_bytes 8 _ ++ _)] => rewrite be_u64_app by fits
  | |- context [be_i32 (be_bytes 4 _ ++ _)] => rewrite be_i32_app by fits
  | |- context [ipv4_addr (be_bytes 4 _ ++ _)] => rewrite ipv4_addr_app by fits
  | |- context [ipv6_addr (be_bytes 16 _ ++ _)] => rewrite ipv6_addr_app by fits
  | |- context [map_res be_u32 HeaderProtocol.try_from (_ ++ _)] => rewrite parse_header_protocol
  | |- context [map_res be_u32 UrlDirection.try_from (_ ++ _)] => rewrite parse_url_direction
  | |- context [map_res be_u32 Direction.try_from (_ ++ _)] => rewrite parse_direction
  | |- context [count be_u32 (zlen ?l) (_ ++ _)] => rewrite parse_words by done
  | |- context [count parse_as_path_segment (zlen ?l) (_ ++ _)] => rewrite parse_segments by done
  | |- context [parse_padded_mac (padded_mac _ ++ _)] => rewrite parse_padded_mac_octets
  | |- context [parse_xdr_string (xdr_string _ ++ _)] => rewrite parse_xdr_string_octets by done
  | |- context [parse_address (address_octets _ ++ _)] => rewrite parse_address_octets by done
  | |- context [nom_take (zlen ?c) (?c ++ _)] => rewrite nom_take_app by done
  end.

Ltac by_fields v :=
  intros Hwf; destruct v; unfold opaque, array, array_wf in *; cbn -[fits_u] in *; ands;
  rewrite <- ?app_assoc; repeat (field_step; cbv beta iota); done.

(** *** Flow records *)

Definition sampled_header_octets (v : SampledHeader) : bytes :=
  be_bytes 4 (HeaderProtocol.into v.(sph_protocol)) ++ be_bytes 4 v.(sph_frame_length) ++
  be_bytes 4 v.(sph_stripped) ++ opaque v.(sph_header).
Definition sampled_header_wf (v : SampledHeader) : Prop := fits_u 32 v.(sph_frame_length) /\
  fits_u 32 v.(sph_stripped) /\ fits_u 32 (zlen v.(sph_header)).
Lemma parse_sampled_header_octets v rest :
  sampled_header_wf v -> parse_sampled_header (sampled_header_octets v ++ rest) = Ok (rest, v).
Proof. unfold sampled_header_wf, sampled_header_octets, parse_sampled_header. by_fields v. Qed.

Definition sampled_ethernet_octets (v : SampledEthernet) : bytes := be_bytes 4 v.(se_length) ++
  padded_mac v.(se_src_mac) ++ padded_mac v.(se_dst_mac) ++ be_bytes 4 v.(se_type).
Definition sampled_ethernet_wf (v : SampledEthernet) : Prop := fits_u 32 v.(se_length) /\
  fits_u 32 v.(se_type).
Lemma parse_sampled_ethernet_octets v rest :
  sampled_ethernet_wf v -> parse_sampled_ethernet (sampled_ethernet_octets v ++ rest) = Ok (rest, v).
Proof. unfold sampled_ethernet_wf, sampled_ethernet_octets, parse_sampled_ethernet. by_fields v. Qed.

Definition sampled_ipv4_octets (v : SampledIpv4) : bytes := be_bytes 4 v.(s4_length) ++
  be_bytes 4 v.(s4_protocol) ++ be_bytes 4 v.(s4_src_ip) ++ be_bytes 4 v.(s4_dst_ip) ++
  be_bytes 4 v.(s4_src_port) ++ be_bytes 4 v.(s4_dst_port) ++ be_bytes 4 v.(s4_tcp_flags) ++
  be_bytes 4 v.(s4_tos).
Definition sampled_ipv4_wf (v : SampledIpv4) : Prop := fits_u 32 v.(s4_length) /\
  fits_u 32 v.(s4_protocol) /\ fits_u 32 v.(s4_src_ip) /\ fits_u 32 v.(s4_dst_ip) /\
  fits_u 32 v.(s4_src_port) /\ fits_u 32 v.(s4_dst_port) /\ fits_u 32 v.(s4_tcp_flags) /\
  fits_u 32 v.(s4_tos).
Lemma parse_sampled_ipv4_octets v rest :
  sampled_ipv4_wf v -> parse_sampled_ipv4 (sampled_ipv4_octets v ++ rest) = Ok (rest, v).
Proof. unfold sampled_ipv4_wf, sampled_ipv4_octets, parse_sampled_ipv4. by_fields v. Qed.

Definition sampled_ipv6_octets (v : SampledIpv6) : bytes := be_bytes 4 v.(s6_length) ++
  be_bytes 4 v.(s6_protocol) ++ be_bytes 16 v.(s6_src_ip) ++ be_bytes 16 v.(s6_dst_ip) ++
  be_bytes 4 v.(s6_src_port) ++ be_bytes 4 v.(s6_dst_port) ++ be_bytes 4 v.(s6_tcp_flags) ++
  be_bytes 4 v.(s6_priority).
Definition sampled_ipv6_wf (v : SampledIpv6) : Prop := fits_u 32 v.(s6_length) /\
  fits_u 32 v.(s6_protocol) /\ fits_u 128 v.(s6_src_ip) /\ fits_u 128 v.(s6_dst_ip) /\
  fits_u 32 v.(s6_src_port) /\ fits_u 32 v.(s6_dst_port) /\ fits_u 32 v.(s6_tcp_flags) /\
  fits_u 32 v.(s6_priority).
Lemma parse_sampled_ipv6_octets v rest :
  sampled_ipv6_wf v -> parse_sampled_ipv6 (sampled_ipv6_octets v ++ rest) = Ok (rest, v).
Proof. unfold sampled_ipv6_wf, sampled_ipv6_octets, parse_sampled_ipv6. by_fields v. Qed.

Definition extended_switch_octets (v : ExtendedSwitch) : bytes := be_bytes 4 v.(sw_src_vlan) ++
  be_bytes 4 v.(sw_src_priority) ++ be_bytes 4 v.(sw_dst_vlan) ++ be_bytes 4 v.(sw_dst_priority).
Definition extended_switch_wf (v : ExtendedSwitch) : Prop := fits_u 32 v.(sw_src_vlan) /\
  fits_u 32 v.(sw_src_priority) /\ fits_u 32 v.(sw_dst_vlan) /\ fits_u 32 v.(sw_dst_priority).
Lemma parse_extended_switch_octets v rest :
  extended_switch_wf v -> parse_extended_switch (extended_switch_octets v ++ rest) = Ok (rest, v).
Proof. unfold extended_switch_wf, extended_switch_octets, parse_extended_switch. by_fields v. Qed.

Definition extended_router_octets (v : ExtendedRouter) : bytes := address_octets v.(rt_nexthop) ++
  be_bytes 4 v.(rt_src_mask) ++ be_bytes 4 v.(rt_dst_mask).
Definition extended_router_wf (v : ExtendedRouter) : Prop := address_wf v.(rt_nexthop) /\
  fits_u 32 v.(rt_src_mask) /\ fits_u 32 v.(rt_dst_mask).
Lemma parse_extended_router_octets v rest :
  extended_router_wf v -> parse_extended_router (extended_router_octets v ++ rest) = Ok (rest, v).
Proof. unfold extended_router_wf, extended_router_octets, parse_extended_router. by_fields v. Qed.

Definition extended_gateway_octets (v : ExtendedGateway) : bytes :=
  address_octets v.(gw_nexthop) ++ be_bytes 4 v.(gw_as) ++ be_bytes 4 v.(gw_src_as) ++
  be_bytes 4 v.(gw_src_peer_as) ++ array segment_octets v.(gw_dst_as_path) ++
  array (be_bytes 4) v.(gw_communities) ++ be_bytes 4 v.(gw_localpref).
Definition extended_gateway_wf (v : ExtendedGateway) : Prop := address_wf v.(gw_nexthop) /\
  fits_u 32 v.(gw_as) /\ fits_u 32 v.(gw_src_as) /\ fits_u 32 v.(gw_src_peer_as) /\
  array_wf segment_wf v.(gw_dst_as_path) /\ array_wf (fits_u 32) v.(gw_communities) /\
  fits_u 32 v.(gw_localpref).
Lemma parse_extended_gateway_octets v rest :
  extended_gateway_wf v -> parse_extended_gateway (extended_gateway_octets v ++ rest) = Ok (rest, v).
Proof. unfold extended_gateway_wf, extended_gateway_octets, parse_extended_gateway. by_fields v. Qed.

Definition extended_user_octets (v : ExtendedUser) : bytes := be_bytes 4 v.(us_src_charset) ++
  xdr_string v.(us_src_user) ++ be_bytes 4 v.(us_dst_charset) ++ xdr_string v.(us_dst_user).
Definition extended_user_wf (v : ExtendedUser) : Prop := fits_u 32 v.(us_src_charset) /\
  xdr_string_wf v.(us_src_user) /\ fits_u 32 v.(us_dst_charset) /\ xdr_string_wf v.(us_dst_user).
Lemma parse_extended_user_octets v rest :
  extended_user_wf v -> parse_extended_user (extended_user_octets v ++ rest) = Ok (rest, v).
Proof. unfold extended_user_wf, extended_user_octets, parse_extended_user. by_fields v. Qed.

Definition extended_url_octets (v : ExtendedUrl) : bytes :=
  be_bytes 4 (UrlDirection.into v.(url_direction)) ++ xdr_string v.(url_url).
Definition extended_url_wf (v : ExtendedUrl) : Prop := xdr_string_wf v.(url_url).
Lemma parse_extended_url_octets v rest :
  extended_url_wf v -> parse_extended_url (extended_url_octets v ++ rest) = Ok (rest, v).
Proof. unfold extended_url_wf, extended_url_octets, parse_extended_url. by_fields v. Qed.

Definition extended_egress_queue_octets (v : ExtendedEgressQueue) : bytes :=
  be_bytes 4 v.(eq_queue).
Definition extended_egress_queue_wf (v : ExtendedEgressQueue) : Prop := fits_u 32 v.(eq_queue).
Lemma parse_extended_egress_queue_octets v rest :
  extended_egress_queue_wf v -> parse_extended_egress_queue (extended_egress_queue_octets v ++ rest) = Ok (rest, v).
Proof. unfold extended_egress_queue_wf, extended_egress_queue_octets, parse_extended_egress_queue. by_fields v. Qed.

Definition extended_acl_octets (v : ExtendedAcl) : bytes := be_bytes 4 v.(acl_number) ++
  xdr_string v.(acl_name) ++ be_bytes 4 (Direction.into v.(acl_direction)).
Definition extended_acl_wf (v : ExtendedAcl) : Prop := fits_u 32 v.(acl_number) /\
  xdr_string_wf v.(acl_name).
Lemma parse_extended_acl_octets v rest :
  extended_acl_wf v -> parse_extended_acl (extended_acl_octets v ++ rest) = Ok (rest, v).
Proof. unfold extended_acl_wf, extended_acl_octets, parse_extended_acl. by_fields v. Qed.

Definition extended_function_octets (v : ExtendedFunction) : bytes := xdr_string v.(fun_symbol).
Definition extended_function_wf (v : ExtendedFunction) : Prop := xdr_string_wf v.(fun_symbol).
Lemma parse_extended_function_octets v rest :
  extended_function_wf v -> parse_extended_function (extended_function_octets v ++ rest) = Ok (rest, v).
Proof. unfold extended_function_wf, extended_function_octets, parse_extended_function. by_fields v. Qed.

(** *** Counter records *)

Definition if_counters_octets (v : IfCounters) : bytes := be_bytes 4 v.(if_index) ++
  be_bytes 4 v.(if_type) ++ be_bytes 8 v.(if_speed) ++ be_bytes 4 v.(if_direction) ++
  be_bytes 4 v.(if_status) ++ be_bytes 8 v.(if_in_octets) ++ be_bytes 4 v.(if_in_ucast_pkts) ++
  be_bytes 4 v.(if_in_multicast_pkts) ++ be_bytes 4 v.(if_in_broadcast_pkts) ++
  be_bytes 4 v.(if_in_discards) ++ be_bytes 4 v.(if_in_errors) ++
  be_bytes 4 v.(if_in_unknown_protos) ++ be_bytes 8 v.(if_out_octets) ++
  be_bytes 4 v.(if_out_ucast_pkts) ++ be_bytes 4 v.(if_out_multicast_pkts) ++
  be_bytes 4 v.(if_out_broadcast_pkts) ++ be_bytes 4 v.(if_out_discards) ++
  be_bytes 4 v.(if_out_errors) ++ be_bytes 4 v.(if_promiscuous_mode).
Definition if_counters_wf (v : IfCounters) : Prop := fits_u 32 v.(if_index) /\
  fits_u 32 v.(if_type) /\ fits_u 64 v.(if_speed) /\ fits_u 32 v.(if_direction) /\
  fits_u 32 v.(if_status) /\ fits_u 64 v.(if_in_octets) /\ fits_u 32 v.(if_in_ucast_pkts) /\
  fits_u 32 v.(if_in_multicast_pkts) /\ fits_u 32 v.(if_in_broadcast_pkts) /\
  fits_u 32 v.(if_in_discards) /\ fits_u 32 v.(if_in_errors) /\
  fits_u 32 v.(if_in_unknown_protos) /\ fits_u 64 v.(if_out_octets) /\
  fits_u 32 v.(if_out_ucast_pkts) /\ fits_u 32 v.(if_out_multicast_pkts) /\
  fits_u 32 v.(if_out_broadcast_pkts) /\ fits_u 32 v.(if_out_discards) /\
  fits_u 32 v.(if_out_errors) /\ fits_u 32 v.(if_promiscuous_mode).
Lemma parse_if_counters_octets v rest :
  if_counters_wf v -> parse_if_counters (if_counters_octets v ++ rest) = Ok (rest, v).
Proof. unfold if_counters_wf, if_counters_octets, parse_if_counters. by_fields v. Qed.

Definition ethernet_counters_octets (v : EthernetCounters) : bytes :=
  be_bytes 4 v.(dot3_stats_alignment_errors) ++ be_bytes 4 v.(dot3_stats_fcs_errors) ++
  be_bytes 4 v.(dot3_stats_single_collision_frames) ++
  be_bytes 4 v.(dot3_stats_multiple_collision_frames) ++
  be_bytes 4 v.(dot3_stats_sqetest_errors) ++ be_bytes 4 v.(dot3_stats_deferred_transmissions) ++
  be_bytes 4 v.(dot3_stats_late_collisions) ++ be_bytes 4 v.(dot3_stats_excessive_collisions) ++
  be_bytes 4 v.(dot3_stats_internal_mac_transmit_errors) ++
  be_bytes 4 v.(dot3_stats_carrier_sense_errors) ++ be_bytes 4 v.(dot3_stats_frame_too_longs) ++
  be_bytes 4 v.(dot3_stats_internal_mac_receive_errors) ++
  be_bytes 4 v.(dot3_stats_symbol_errors).
Definition ethernet_counters_wf (v : EthernetCounters) : Prop :=
  fits_u 32 v.(dot3_stats_alignment_errors) /\ fits_u 32 v.(dot3_stats_fcs_errors) /\
  fits_u 32 v.(dot3_stats_single_collision_frames) /\
  fits_u 32 v.(dot3_stats_multiple_collision_frames) /\ fits_u 32 v.(dot3_stats_sqetest_errors) /\
  fits_u 32 v.(dot3_stats_deferred_transmissions) /\ fits_u 32 v.(dot3_stats_late_collisions) /\
  fits_u 32 v.(dot3_stats_excessive_collisions) /\
  fits_u 32 v.(dot3_stats_internal_mac_transmit_errors) /\
  fits_u 32 v.(dot3_stats_carrier_sense_errors) /\ fits_u 32 v.(dot3_stats_frame_too_longs) /\
  fits_u 32 v.(dot3_stats_internal_mac_receive_errors) /\ fits_u 32 v.(dot3_stats_symbol_errors).
Lemma parse_ethernet_counters_octets v rest :
  ethernet_counters_wf v -> parse_ethernet_counters (ethernet_counters_octets v ++ rest) = Ok (rest, v).
Proof. unfold ethernet_counters_wf, ethernet_counters_octets, parse_ethernet_counters. by_fields v. Qed.

Definition tokenring_counters_octets (v : TokenringCounters) : bytes :=
  be_bytes 4 v.(dot5_stats_line_errors) ++ be_bytes 4 v.(dot5_stats_burst_errors) ++
  be_bytes 4 v.(dot5_stats_ac_errors) ++ be_bytes 4 v.(dot5_stats_abort_trans_errors) ++
  be_bytes 4 v.(dot5_stats_internal_errors) ++ be_bytes 4 v.(dot5_stats_lost_frame_errors) ++
  be_bytes 4 v.(dot5_stats_receive_congestions) ++
  be_bytes 4 v.(dot5_stats_frame_copied_errors) ++ be_bytes 4 v.(dot5_stats_token_errors) ++
  be_bytes 4 v.(dot5_stats_soft_errors) ++ be_bytes 4 v.(dot5_stats_hard_errors) ++
  be_bytes 4 v.(dot5_stats_signal_loss) ++ be_bytes 4 v.(dot5_stats_transmit_beacons) ++
  be_bytes 4 v.(dot5_stats_recoveries) ++ be_bytes 4 v.(dot5_stats_lobe_wires) ++
  be_bytes 4 v.(dot5_stats_removes) ++ be_bytes 4 v.(dot5_stats_singles) ++
  be_bytes 4 v.(dot5_stats_freq_errors).
Definition tokenring_counters_wf (v : TokenringCounters) : Prop :=
  fits_u 32 v.(dot5_stats_line_errors) /\ fits_u 32 v.(dot5_stats_burst_errors) /\
  fits_u 32 v.(dot5_stats_ac_errors) /\ fits_u 32 v.(dot5_stats_abort_trans_errors) /\
  fits_u 32 v.(dot5_stats_internal_errors) /\ fits_u 32 v.(dot5_stats_lost_frame_errors) /\
  fits_u 32 v.(dot5_stats_receive_congestions) /\ fits_u 32 v.(dot5_stats_frame_copied_errors) /\
  fits_u 32 v.(dot5_stats_token_errors) /\ fits_u 32 v.(dot5_stats_soft_errors) /\
  fits_u 32 v.(dot5_stats_hard_errors) /\ fits_u 32 v.(dot5_stats_signal_loss) /\
  fits_u 32 v.(dot5_stats_transmit_beacons) /\ fits_u 32 v.(dot5_stats_recoveries) /\
  fits_u 32 v.(dot5_stats_lobe_wires) /\ fits_u 32 v.(dot5_stats_removes) /\
  fits_u 32 v.(dot5_stats_singles) /\ fits_u 32 v.(dot5_stats_freq_errors).
Lemma parse_tokenring_counters_octets v rest :
  tokenring_counters_wf v -> parse_tokenring_counters (tokenring_counters_octets v ++ rest) = Ok (rest, v).
Proof. unfold tokenring_counters_wf, tokenring_counters_octets, parse_tokenring_counters. by_fields v. Qed.

Definition vg_counters_octets (v : VgCounters) : bytes :=
  be_bytes 4 v.(dot12_in_high_priority_frames) ++ be_bytes 8 v.(dot12_in_high_priority_octets) ++
  be_bytes 4 v.(dot12_in_norm_priority_frames) ++ be_bytes 8 v.(dot12_in_norm_priority_octets) ++
  be_bytes 4 v.(dot12_in_ipm_errors) ++ be_bytes 4 v.(dot12_in_oversize_frame_errors) ++
  be_bytes 4 v.(dot12_in_data_errors) ++ be_bytes 4 v.(dot12_in_null_addressed_frames) ++
  be_bytes 4 v.(dot12_out_high_priority_frames) ++
  be_bytes 8 v.(dot12_out_high_priority_octets) ++
  be_bytes 4 v.(dot12_transition_into_training) ++
  be_bytes 8 v.(dot12_hc_in_high_priority_octets) ++
  be_bytes 8 v.(dot12_hc_in_norm_priority_octets) ++
  be_bytes 8 v.(dot12_hc_out_high_priority_octets).
Definition vg_counters_wf (v : VgCounters) : Prop :=
  fits_u 32 v.(dot12_in_high_priority_frames) /\ fits_u 64 v.(dot12_in_high_priority_octets) /\
  fits_u 32 v.(dot12_in_norm_priority_frames) /\ fits_u 64 v.(dot12_in_norm_priority_octets) /\
  fits_u 32 v.(dot12_in_ipm_errors) /\ fits_u 32 v.(dot12_in_oversize_frame_errors) /\
  fits_u 32 v.(dot12_in_data_errors) /\ fits_u 32 v.(dot12_in_null_addressed_frames) /\
  fits_u 32 v.(dot12_out_high_priority_frames) /\ fits_u 64 v.(dot12_out_high_priority_octets) /\
  fits_u 32 v.(dot12_transition_into_training) /\
  fits_u 64 v.(dot12_hc_in_high_priority_octets) /\
  fits_u 64 v.(dot12_hc_in_norm_priority_octets) /\
  fits_u 64 v.(dot12_hc_out_high_priority_octets).
Lemma parse_vg_counters_octets v rest :
  vg_counters_wf v -> parse_vg_counters (vg_counters_octets v ++ rest) = Ok (rest, v).
Proof. unfold vg_counters_wf, vg_counters_octets, parse_vg_counters. by_fields v. Qed.

Definition vlan_counters_octets (v : VlanCounters) : bytes := be_bytes 4 v.(vlan_vlan_id) ++
  be_bytes 8 v.(vlan_octets) ++ be_bytes 4 v.(vlan_ucast_pkts) ++
  be_bytes 4 v.(vlan_multicast_pkts) ++ be_bytes 4 v.(vlan_broadcast_pkts) ++
  be_bytes 4 v.(vlan_discards).
Definition vlan_counters_wf (v : VlanCounters) : Prop := fits_u 32 v.(vlan_vlan_id) /\
  fits_u 64 v.(vlan_octets) /\ fits_u 32 v.(vlan_ucast_pkts) /\
  fits_u 32 v.(vlan_multicast_pkts) /\ fits_u 32 v.(vlan_broadcast_pkts) /\
  fits_u 32 v.(vlan_discards).
Lemma parse_vlan_counters_octets v rest :
  vlan_counters_wf v -> parse_vlan_counters (vlan_counters_octets v ++ rest) = Ok (rest, v).
Proof. unfold vlan_counters_wf, vlan_counters_octets, parse_vlan_counters. by_fields v. Qed.

Definition processor_octets (v : Processor) : bytes := be_bytes 4 v.(cpu_avg_5s_cpu) ++
  be_bytes 4 v.(cpu_avg_1m_cpu) ++ be_bytes 4 v.(cpu_avg_5m_cpu) ++
  be_bytes 8 v.(cpu_total_memory) ++ be_bytes 8 v.(cpu_free_memory).
Definition processor_wf (v : Processor) : Prop := fits_i 32 v.(cpu_avg_5s_cpu) /\
  fits_i 32 v.(cpu_avg_1m_cpu) /\ fits_i 32 v.(cpu_avg_5m_cpu) /\
  fits_u 64 v.(cpu_total_memory) /\ fits_u 64 v.(cpu_free_memory).
Lemma parse_processor_octets v rest :
  processor_wf v -> parse_processor (processor_octets v ++ rest) = Ok (rest, v).
Proof. unfold processor_wf, processor_octets, parse_processor. by_fields v. Qed.

(** *** Records *)

(** Zeros after [c] up to [n] octets. *)
Definition pad_to (n : Z) (c : bytes) : bytes := c ++ replicate (Z.to_nat (n - zlen c)) x00.

Lemma zlen_pad_to n c : zlen c <= n -> zlen (pad_to n c) = n.
Proof. intros. unfold pad_to, zlen in *. rewrite length_app, length_replicate. lia. Qed.

Definition flow_data_octets (d : FlowRecordType) : bytes :=
  match d with
  | FlowRecordType.SampledHeader v => sampled_header_octets v
  | FlowRecordType.SampledEthernet v => sampled_ethernet_octets v
  | FlowRecordType.SampledIpv4 v => sampled_ipv4_octets v
  | FlowRecordType.SampledIpv6 v => sampled_ipv6_octets v
  | FlowRecordType.ExtendedSwitch v => extended_switch_octets v
  | FlowRecordType.ExtendedRouter v => extended_router_octets v
  | FlowRecordType.ExtendedGateway v => extended_gateway_octets v
  | FlowRecordType.ExtendedUser v => extended_user_octets v
  | FlowRecordType.ExtendedUrl v => extended_url_octets v
  | FlowRecordType.ExtendedEgressQueue v => extended_egress_queue_octets v
  | FlowRecordType.ExtendedAcl v => extended_acl_octets v
  | FlowRecordType.ExtendedFunction v => extended_function_octets v
  | FlowRecordType.Unknown v => v
  end.

(** Data of the format [format]; what is kept as octets could not be more. *)
Definition flow_data_wf (format : Z) (d : FlowRecordType) : Prop :=
  match d with
  | FlowRecordType.SampledHeader v => format = FlowType.into FlowType.SampledHeader /\ sampled_header_wf v
  | FlowRecordType.SampledEthernet v => format = FlowType.into FlowType.SampledEthernet /\ sampled_ethernet_wf v
  | FlowRecordType.SampledIpv4 v => format = FlowType.into FlowType.SampledIpv4 /\ sampled_ipv4_wf v
  | FlowRecordType.SampledIpv6 v => format = FlowType.into FlowType.SampledIpv6 /\ sampled_ipv6_wf v
  | FlowRecordType.ExtendedSwitch v => format = FlowType.into FlowType.ExtendedSwitch /\ extended_switch_wf v
  | FlowRecordType.ExtendedRouter v => format = FlowType.into FlowType.ExtendedRouter /\ extended_router_wf v
  | FlowRecordType.ExtendedGateway v => format = FlowType.into FlowType.ExtendedGateway /\ extended_gateway_wf v
  | FlowRecordType.ExtendedUser v => format = FlowType.into FlowType.ExtendedUser /\ extended_user_wf v
  | FlowRecordType.ExtendedUrl v => format = FlowType.into FlowType.ExtendedUrl /\ extended_url_wf v
  | FlowRecordType.ExtendedEgressQueue v => format = FlowType.into FlowType.ExtendedEgressQueue /\ extended_egress_queue_wf v
  | FlowRecordType.ExtendedAcl v => format = FlowType.into FlowType.ExtendedAcl /\ extended_acl_wf v
  | FlowRecordType.ExtendedFunction v => format = FlowType.into FlowType.ExtendedFunction /\ extended_function_wf v
  | FlowRecordType.Unknown v =>
      unwrap_or (flow_record_data format v) (FlowRecordType.Unknown v) = FlowRecordType.Unknown v
  end.

Definition counter_data_octets (d : CounterRecordType) : bytes :=
  match d with
  | CounterRecordType.IfCounters v => if_counters_octets v
  | CounterRecordType.EthernetCounters v => ethernet_counters_octets v
  | CounterRecordType.TokenringCounters v => tokenring_counters_octets v
  | CounterRecordType.VgCounters v => vg_counters_octets v
  | CounterRecordType.VlanCounters v => vlan_counters_octets v
  | CounterRecordType.Processor v => processor_octets v
  | CounterRecordType.Unknown v => v
  end.

Definition counter_data_wf (format : Z) (d : CounterRecordType) : Prop :=
  match d with
  | CounterRecordType.IfCounters v => format = CounterType.into CounterType.IfCounters /\ if_counters_wf v
  | CounterRecordType.EthernetCounters v => format = CounterType.into CounterType.EthernetCounters /\ ethernet_counters_wf v
  | CounterRecordType.TokenringCounters v => format = CounterType.into CounterType.TokenringCounters /\ tokenring_counters_wf v
  | CounterRecordType.VgCounters v => format = CounterType.into CounterType.VgCounters /\ vg_counters_wf v
  | CounterRecordType.VlanCounters v => format = CounterType.into CounterType.VlanCounters /\ vlan_counters_wf v
  | CounterRecordType.Processor v => format = CounterType.into CounterType.Processor /\ processor_wf v
  | CounterRecordType.Unknown v =>
      unwrap_or (counter_record_data format v) (CounterRecordType.Unknown v) = CounterRecordType.Unknown v
  end.

Definition record_header_octets (h : RecordHeader) : bytes :=
  be_bytes 4 h.(rh_data_format) ++ be_bytes 4 h.(rh_length).

Definition record_header_wf (h : RecordHeader) : Prop :=
  fits_u 32 h.(rh_data_format) /\ fits_u 32 h.(rh_length).

Definition flow_record_octets (r : FlowRecord) : bytes :=
  record_header_octets r.(fr_header) ++ pad_to r.(fr_header).(rh_length) (flow_data_octets r.(fr_data)).

Definition flow_record_wf (r : FlowRecord) : Prop :=
  record_header_wf r.(fr_header) /\ flow_data_wf r.(fr_header).(rh_data_format) r.(fr_data) /\
  match r.(fr_data) with
  | FlowRecordType.Unknown v => zlen v = r.(fr_header).(rh_length)
  | d => zlen (flow_data_octets d) <= r.(fr_header).(rh_length)
  end.

Definition counter_record_octets (r : CounterRecord) : bytes :=
  record_header_octets r.(cr_header) ++
  concat ((fun d => pad_to r.(cr_header).(rh_length) (counter_data_octets d)) <$> r.(cr_data)).

Definition counter_record_wf (r : CounterRecord) : Prop :=
  record_header_wf r.(cr_header) /\
  exists d, r.(cr_data) = [d] /\ counter_data_wf r.(cr_header).(rh_data_format) d /\
    match d with
    | CounterRecordType.Unknown v => zlen v = r.(cr_header).(rh_length)
    | d => zlen (counter_data_octets d) <= r.(cr_header).(rh_length)
    end.

Lemma parse_record_header_octets h rest :
  record_header_wf h -> parse_record_header (record_header_octets h ++ rest) = Ok (rest, h).
Proof.
  unfold record_header_wf, record_header_octets, parse_record_header. destruct h; cbn. intros [H1 H2].
  by rewrite <- app_assoc, !be_u32_app.
Qed.

(** A framed record is always read, and from its own octets alone. *)
Lemma parse_flow_record_framed h body rest :
  record_header_wf h -> zlen body = h.(rh_length) ->
  parse_flow_record (record_header_octets h ++ body ++ rest)
  = Ok (rest, mkFlowRecord h
      (unwrap_or (flow_record_data h.(rh_data_format) body) (FlowRecordType.Unknown body))).
Proof.
  intros Hh Hb. unfold parse_flow_record. rewrite parse_record_header_octets by done.
  by rewrite nom_take_app.
Qed.

Lemma parse_counter_record_framed h body rest :
  record_header_wf h -> zlen body = h.(rh_length) ->
  parse_counter_record (record_header_octets h ++ body ++ rest)
  = Ok (rest, mkCounterRecord h
      [unwrap_or (counter_record_data h.(rh_data_format) body) (CounterRecordType.Unknown body)]).
Proof.
  intros Hh Hb. unfold parse_counter_record. rewrite parse_record_header_octets by done.
  by rewrite nom_take_app.
Qed.

Lemma flow_data_octets_read format d pad :
  flow_data_wf format d ->
  match d with
  | FlowRecordType.Unknown v => True
  | _ => flow_record_data format (flow_data_octets d ++ pad) = Ok d
  end.
Proof.
  destruct d; cbn [flow_data_wf flow_data_octets]; try done; intros [-> Hwf];
    unfold flow_record_data; rewrite FlowType.FlowType_try_from_into;
    first [ rewrite parse_sampled_header_octets by done; done
          | rewrite parse_sampled_ethernet_octets by done; done
          | rewrite parse_sampled_ipv4_octets by done; done
          | rewrite parse_sampled_ipv6_octets by done; done
          | rewrite parse_extended_switch_octets by done; done
          | rewrite parse_extended_router_octets by done; done
          | rewrite parse_extended_gateway_octets by done; done
          | rewrite parse_extended_user_octets by done; done
          | rewrite parse_extended_url_octets by done; done
          | rewrite parse_extended_egress_queue_octets by done; done
          | rewrite parse_extended_acl_octets by done; done
          | rewrite parse_extended_function_octets by done; done ].
Qed.

Lemma counter_data_octets_read format d pad :
  counter_data_wf format d ->
  match d with
  | CounterRecordType.Unknown v => True
  | _ => counter_record_data format (counter_data_octets d ++ pad) = Ok d
  end.
Proof.
  destruct d; cbn [counter_data_wf counter_data_octets]; try done; intros [-> Hwf];
    unfold counter_record_data; rewrite CounterType.CounterType_try_from_into;
    first [ rewrite parse_if_counters_octets by done; done
          | rewrite parse_ethernet_counters_octets by done; done
          | rewrite parse_tokenring_counters_octets by done; done
          | rewrite parse_vg_counters_octets by done; done
          | rewrite parse_vlan_counters_octets by done; done
          | rewrite parse_processor_octets by done; done ].
Qed.

Lemma pad_to_exact n c : zlen c = n -> pad_to n c = c.
Proof. intros <-. unfold pad_to. by rewrite Z.sub_diag, app_nil_r. Qed.

Lemma parse_flow_record_octets r rest :
  flow_record_wf r -> parse_flow_record (flow_record_octets r ++ rest) = Ok (rest, r).
Proof.
  intros (Hh & Hd & Hl). unfold flow_record_octets. rewrite <- app_assoc.
  rewrite parse_flow_record_framed; [|done|apply zlen_pad_to; destruct (fr_data r); cbn in *; lia].
  do 2 f_equal. destruct r as [h d]. cbn [fr_header fr_data] in *. f_equal.
  pose proof (flow_data_octets_read _ d
    (replicate (Z.to_nat (rh_length h - zlen (flow_data_octets d))) x00) Hd) as E.
  fold (pad_to (rh_length h) (flow_data_octets d)) in E.
  destruct d; try (by rewrite E). cbn [flow_data_octets flow_data_wf] in *.
  by rewrite pad_to_exact.
Qed.

Lemma parse_counter_record_octets r rest :
  counter_record_wf r -> parse_counter_record (counter_record_octets r ++ rest) = Ok (rest, r).
Proof.
  intros (Hh & d & Er & Hd & Hl). unfold counter_record_octets. rewrite Er. cbn [fmap list_fmap concat].
  rewrite app_nil_r, <- app_assoc.
  rewrite parse_counter_record_framed; [|done|apply zlen_pad_to; destruct d; cbn in *; lia].
  do 2 f_equal. destruct r as [h ds]. cbn [cr_header cr_data] in *. subst ds. do 2 f_equal.
  pose proof (counter_data_octets_read _ d
    (replicate (Z.to_nat (rh_length h - zlen (counter_data_octets d))) x00) Hd) as E.
  fold (pad_to (rh_length h) (counter_data_octets d)) in E.
  destruct d; try (by rewrite E). cbn [counter_data_octets counter_data_wf] in *.
  by rewrite pad_to_exact.
Qed.

(** *** Samples *)

Definition sample_header_octets (h : SampleHeader) : bytes :=
  be_bytes 4 h.(sh_format) ++ be_bytes 4 h.(sh_length) ++ be_bytes 4 h.(sh_sample_sequence_number) ++
  match SampleFormat.try_from h.(sh_format) with
  | Some (SampleFormat.Flow | SampleFormat.Counter) =>
      be_bytes 4 (h.(sh_source_id_type) * 2 ^ 24 + h.(sh_source_id_value))
  | _ => be_bytes 4 h.(sh_source_id_type) ++ be_bytes 4 h.(sh_source_id_value)
  end.

(** The compact formats have 8 bits of type and 24 of value. *)
Definition sample_header_wf (f : SampleFormat) (h : SampleHeader) : Prop :=
  h.(sh_format) = SampleFormat.into f /\ fits_u 32 h.(sh_length) /\
  fits_u 32 h.(sh_sample_sequence_number) /\
  match f with
  | SampleFormat.Flow | SampleFormat.Counter =>
      fits_u 8 h.(sh_source_id_type) /\ fits_u 24 h.(sh_source_id_value)
  | _ => fits_u 32 h.(sh_source_id_type) /\ fits_u 32 h.(sh_source_id_value)
  end.

Definition flow_sample_octets (v : FlowSample) : bytes :=
  sample_header_octets v.(fs_header) ++ be_bytes 4 v.(fs_sampling_rate) ++
  be_bytes 4 v.(fs_sample_pool) ++ be_bytes 4 v.(fs_drops) ++ be_bytes 4 v.(fs_input) ++
  be_bytes 4 v.(fs_output) ++ array flow_record_octets v.(fs_records).

Definition flow_sample_wf (v : FlowSample) : Prop :=
  sample_header_wf SampleFormat.Flow v.(fs_header) /\ fits_u 32 v.(fs_sampling_rate) /\
  fits_u 32 v.(fs_sample_pool) /\ fits_u 32 v.(fs_drops) /\ fits_u 32 v.(fs_input) /\
  fits_u 32 v.(fs_output) /\ array_wf flow_record_wf v.(fs_records).

Definition counter_sample_octets (v : CounterSample) : bytes :=
  sample_header_octets v.(cs_header) ++ array counter_record_octets v.(cs_records).

Definition counter_sample_wf (f : SampleFormat) (v : CounterSample) : Prop :=
  sample_header_wf f v.(cs_header) /\ array_wf counter_record_wf v.(cs_records).

Definition expanded_flow_sample_octets (v : ExpandedFlowSample) : bytes :=
  sample_header_octets v.(efs_header) ++ be_bytes 4 v.(efs_sampling_rate) ++
  be_bytes 4 v.(efs_sample_pool) ++ be_bytes 4 v.(efs_drops) ++
  be_bytes 4 v.(efs_input_if_format) ++ be_bytes 4 v.(efs_input_if_value) ++
  be_bytes 4 v.(efs_output_if_format) ++ be_bytes 4 v.(efs_output_if_value) ++
  array flow_record_octets v.(efs_records).

Definition expanded_flow_sample_wf (v : ExpandedFlowSample) : Prop :=
  sample_header_wf SampleFormat.ExpandedFlow v.(efs_header) /\ fits_u 32 v.(efs_sampling_rate) /\
  fits_u 32 v.(efs_sample_pool) /\ fits_u 32 v.(efs_drops) /\ fits_u 32 v.(efs_input_if_format) /\
  fits_u 32 v.(efs_input_if_value) /\ fits_u 32 v.(efs_output_if_format) /\
  fits_u 32 v.(efs_output_if_value) /\ array_wf flow_record_wf v.(efs_records).

Definition drop_sample_octets (v : DropSample) : bytes :=
  sample_header_octets v.(ds_header) ++ be_bytes 4 v.(ds_drops) ++ be_bytes 4 v.(ds_input) ++
  be_bytes 4 v.(ds_output) ++ be_bytes 4 (DropReason.into v.(ds_reason)) ++
  array flow_record_octets v.(ds_records).

Definition drop_sample_wf (v : DropSample) : Prop :=
  sample_header_wf SampleFormat.Drop v.(ds_header) /\ fits_u 32 v.(ds_drops) /\
  fits_u 32 v.(ds_input) /\ fits_u 32 v.(ds_output) /\
  fits_u 32 (DropReason.into v.(ds_reason)) /\
  DropReason.from (DropReason.into v.(ds_reason)) = v.(ds_reason) /\
  array_wf flow_record_wf v.(ds_records).

(** A sample padded to the length its header gives. *)
Definition sample_octets (s : Sample) : bytes :=
  match s with
  | Sample.Flow v => pad_to (8 + v.(fs_header).(sh_length)) (flow_sample_octets v)
  | Sample.Counter v => pad_to (8 + v.(cs_header).(sh_length)) (counter_sample_octets v)
  | Sample.ExpandedFlow v => pad_to (8 + v.(efs_header).(sh_length)) (expanded_flow_sample_octets v)
  | Sample.ExpandedCounter v => pad_to (8 + v.(cs_header).(sh_length)) (counter_sample_octets v)
  | Sample.Drop v => pad_to (8 + v.(ds_header).(sh_length)) (drop_sample_octets v)
  | Sample.Unknown c => be_bytes 4 0 ++ be_bytes 4 (zlen c) ++ c
  end.

Definition sample_wf (s : Sample) : Prop :=
  match s with
  | Sample.Flow v => flow_sample_wf v /\ zlen (flow_sample_octets v) <= 8 + v.(fs_header).(sh_length)
  | Sample.Counter v =>
      counter_sample_wf SampleFormat.Counter v /\
      zlen (counter_sample_octets v) <= 8 + v.(cs_header).(sh_length)
  | Sample.ExpandedFlow v =>
      expanded_flow_sample_wf v /\
      zlen (expanded_flow_sample_octets v) <= 8 + v.(efs_header).(sh_length)
  | Sample.ExpandedCounter v =>
      counter_sample_wf SampleFormat.ExpandedCounter v /\
      zlen (counter_sample_octets v) <= 8 + v.(cs_header).(sh_length)
  | Sample.Drop v => drop_sample_wf v /\ zlen (drop_sample_octets v) <= 8 + v.(ds_header).(sh_length)
  | Sample.Unknown c => fits_u 32 (zlen c)
  end.

Lemma parse_sample_header_octets f h rest :
  sample_header_wf f h -> parse_sample_header (sample_header_octets h ++ rest) = Ok (rest, h).
Proof.
  intros (Hf & Hl & Hs & Hid). unfold sample_header_octets, parse_sample_header.
  assert (Hff : fits_u 32 (sh_format h)) by (rewrite Hf; apply SampleFormat.SampleFormat_into_fits).
  rewrite <- !app_assoc, !be_u32_app by done.
  rewrite Hf, SampleFormat.SampleFormat_try_from_into, <- Hf.
  destruct h as [fmt len seq ty val]. cbn in *.
  destruct f; destruct Hid as [H1 H2]; rewrite <- ?app_assoc, ?be_u32_app by (done || width);
    rewrite ?shiftr_join by done;
    try change 0x00ffffff with (Z.ones 24); rewrite ?land_join by done; done.
Qed.

Lemma parse_flow_records l rest :
  Forall flow_record_wf l ->
  count parse_flow_record (zlen l) (concat (flow_record_octets <$> l) ++ rest) = Ok (rest, l).
Proof. apply count_array. intros. by apply parse_flow_record_octets. Qed.

Lemma parse_counter_records l rest :
  Forall counter_record_wf l ->
  count parse_counter_record (zlen l) (concat (counter_record_octets <$> l) ++ rest) = Ok (rest, l).
Proof. apply count_array. intros. by apply parse_counter_record_octets. Qed.

Lemma parse_drop_reason r rest :
  fits_u 32 (DropReason.into r) -> DropReason.from (DropReason.into r) = r ->
  nom_map be_u32 DropReason.from (be_bytes 4 (DropReason.into r) ++ rest) = Ok (rest, r).
Proof. intros Hf Hr. by rewrite nom_map_law, be_u32_app, Hr. Qed.

Ltac sample_fields v f :=
  intros Hwf; destruct v; unfold array, array_wf in *; cbn -[fits_u sample_header_wf] in *; ands;
  rewrite <- !app_assoc, (parse_sample_header_octets f) by done;
  repeat (first [field_step | rewrite parse_drop_reason by done]; cbv beta iota);
  first [rewrite parse_flow_records by done | rewrite parse_counter_records by done]; done.

Lemma parse_flow_sample_octets v rest :
  flow_sample_wf v -> parse_flow_sample (flow_sample_octets v ++ rest) = Ok (rest, v).
Proof. unfold flow_sample_wf, flow_sample_octets, parse_flow_sample. sample_fields v SampleFormat.Flow. Qed.

Lemma parse_counter_sample_octets f v rest :
  counter_sample_wf f v -> parse_counter_sample (counter_sample_octets v ++ rest) = Ok (rest, v).
Proof. unfold counter_sample_wf, counter_sample_octets, parse_counter_sample. sample_fields v f. Qed.

Lemma parse_expanded_flow_sample_octets v rest :
  expanded_flow_sample_wf v ->
  parse_expanded_flow_sample (expanded_flow_sample_octets v ++ rest) = Ok (rest, v).
Proof.
  unfold expanded_flow_sample_wf, expanded_flow_sample_octets, parse_expanded_flow_sample.
  sample_fields v SampleFormat.ExpandedFlow.
Qed.

Lemma parse_drop_sample_octets v rest :
  drop_sample_wf v -> parse_drop_sample (drop_sample_octets v ++ rest) = Ok (rest, v).
Proof.
  intros (Hh & H1 & H2 & H3 & H4 & H5 & H6 & H7). unfold drop_sample_octets, parse_drop_sample, array.
  rewrite <- !app_assoc, (parse_sample_header_octets SampleFormat.Drop) by exact Hh.
  rewrite !be_u32_app by assumption. rewrite (parse_drop_reason _ _ H4 H5).
  rewrite be_u32_app by assumption. rewrite parse_flow_records by assumption. by destruct v.
Qed.

(** ** Framing *)

(** A sample as it is framed: a format, a length, and that many octets. *)
Definition frame_octets (f : Z * bytes) : bytes := be_bytes 4 f.1 ++ be_bytes 4 (zlen f.2) ++ f.2.

Definition frame_wf (f : Z * bytes) : Prop := fits_u 32 f.1 /\ fits_u 32 (zlen f.2).

(** What a framed sample is read as: by the parser of its format, or else as
    its octets. *)
Definition sample_reading (f : Z * bytes) : Sample :=
  let sample := frame_octets f in
  match SampleFormat.try_from f.1 with
  | None => Sample.Unknown f.2
  | Some SampleFormat.Flow =>
      match parse_flow_sample sample with Ok (_, v) => Sample.Flow v | Err _ => Sample.Unknown f.2 end
  | Some SampleFormat.Counter =>
      match parse_counter_sample sample with Ok (_, v) => Sample.Counter v | Err _ => Sample.Unknown f.2 end
  | Some SampleFormat.ExpandedFlow =>
      match parse_expanded_flow_sample sample with
      | Ok (_, v) => Sample.ExpandedFlow v
      | Err _ => Sample.Unknown f.2
      end
  | Some SampleFormat.ExpandedCounter =>
      match parse_counter_sample sample with
      | Ok (_, v) => Sample.ExpandedCounter v
      | Err _ => Sample.Unknown f.2
      end
  | Some SampleFormat.Drop =>
      match parse_drop_sample sample with Ok (_, v) => Sample.Drop v | Err _ => Sample.Unknown f.2 end
  end.

Lemma zlen_frame f : zlen (frame_octets f) = 8 + zlen f.2.
Proof. unfold frame_octets. rewrite !zlen_app, !zlen_be_bytes. lia. Qed.

Lemma parse_sample_framed f rest :
  frame_wf f -> parse_sample (frame_octets f ++ rest) = Ok (rest, sample_reading f).
Proof.
  intros [H1 H2]. unfold parse_sample, sample_reading.
  assert (E : peek (tuple2 be_u32 be_u32) (frame_octets f ++ rest)
    = Ok (frame_octets f ++ rest, (f.1, zlen f.2))).
  { rewrite peek_law, tuple2_law. unfold frame_octets. by rewrite <- !app_assoc, !be_u32_app. }
  rewrite E, nom_take_app.
  2:{ rewrite zlen_frame. unfold usize_saturating_add. width. }
  assert (E8 : drop 8 (frame_octets f) = f.2) by done. rewrite E8.
  destruct (SampleFormat.try_from f.1) as [[]|]; [| | | | |done]; unfold sample_value, unwrap_or;
    by repeat match goal with |- context [match ?r with Ok _ => _ | Err _ => _ end] => destruct r as [[? ?]|] end.
Qed.

Lemma wp_frame i0 :
  wp (parse_sample i0) (fun '(i', s) => exists f, frame_wf f /\ i0 = frame_octets f ++ i' /\ s = sample_reading f).
Proof.
  assert (Hw : wp (parse_sample i0) (fun '(i', _) => exists f, frame_wf f /\ i0 = frame_octets f ++ i')).
  { unfold parse_sample. wp_step. apply wp_peek, wp_tuple2. wp_steps.
    lazymatch goal with |- context [be_bytes 4 v0 ++ ?t] => rename t into tl end.
    unfold usize_saturating_add. rewrite Z.min_r by width.
    rewrite nom_take_law. unfold take_ref.
    rewrite !zlen_app, !zlen_be_bytes.
    destruct (Z.ltb_spec (Z.of_nat 4 + (Z.of_nat 4 + zlen tl)) (v0 + 8)); [done|].
    assert (Hr : exists f, frame_wf f /\
      be_bytes 4 v ++ be_bytes 4 v0 ++ tl
      = frame_octets f ++ drop (Z.to_nat (v0 + 8)) (be_bytes 4 v ++ be_bytes 4 v0 ++ tl)).
    { exists (v, take (Z.to_nat v0) tl). unfold frame_wf, frame_octets. cbn [fst snd].
      assert (Hz : zlen (take (Z.to_nat v0) tl) = v0).
      { unfold zlen in *. rewrite length_take. unfold fits_u in *. lia. }
      rewrite Hz. split; [done|]. rewrite !drop_app_ge by (rewrite !length_be_bytes; unfold fits_u in *; lia).
      rewrite !length_be_bytes. rewrite <- !app_assoc. do 2 f_equal.
      replace (Z.to_nat (v0 + 8) - 4 - 4)%nat with (Z.to_nat v0) by (unfold fits_u in *; lia).
      by rewrite take_drop. }
    apply wp_ret. destruct (SampleFormat.try_from v); apply wp_ret, Hr. }
  destruct (parse_sample i0) as [[i' s]|e] eqn:E; [|exact Hw]. cbn in *.
  destruct Hw as (f & Hf & ->). rewrite parse_sample_framed in E by done. injection E as <-. eauto.
Qed.

(** A datagram's header. *)
Definition datagram_header (agent : option IpAddr) (sub_agent sequence uptime : Z) : bytes :=
  be_bytes 4 SFLOW_V5_VERSION ++ address_octets agent ++ be_bytes 4 sub_agent ++
  be_bytes 4 sequence ++ be_bytes 4 uptime.

Definition datagram_header_wf (agent : option IpAddr) (sub_agent sequence uptime : Z) : Prop :=
  address_wf agent /\ fits_u 32 sub_agent /\ fits_u 32 sequence /\ fits_u 32 uptime.

Lemma parse_datagram agent sub_agent sequence uptime n samples rest rest' :
  datagram_header_wf agent sub_agent sequence uptime -> fits_u 32 n ->
  count parse_sample n rest = Ok (rest', samples) ->
  parse_sflow_v5 (datagram_header agent sub_agent sequence uptime ++ be_bytes 4 n ++ rest)
  = Ok (rest', mkSFlowV5 SFLOW_V5_VERSION agent sub_agent sequence uptime samples).
Proof.
  intros (Ha & H1 & H2 & H3) Hn Hc. unfold parse_sflow_v5, datagram_header.
  rewrite <- !app_assoc, verify_law, be_u32_app by done. cbn [Z.eqb SFLOW_V5_VERSION Pos.eqb].
  rewrite parse_address_octets by done. by rewrite !be_u32_app, Hc by done.
Qed.

Lemma wp_address i (Q : bytes * option IpAddr -> Prop) :
  (forall i' a, i = address_octets a ++ i' -> address_wf a -> Q (i', a)) -> wp (parse_address i) Q.
Proof.
  intros HQ. unfold parse_address. wp_steps.
  destruct (Z.eqb_spec v UNKNOWN) as [->|]; [by apply wp_ret, (HQ _ None)|].
  destruct (Z.eqb_spec v IPV4) as [->|]; wp_steps; [by eapply (HQ _ (Some (V4 _)))|].
  destruct (Z.eqb_spec v IPV6) as [->|]; wp_steps. by eapply (HQ _ (Some (V6 _))).
Qed.

Lemma wp_samples n i (Q : bytes * list Sample -> Prop) :
  0 <= n ->
  (forall i' fs, i = concat (frame_octets <$> fs) ++ i' -> Forall frame_wf fs -> zlen fs = n ->
    Q (i', sample_reading <$> fs)) ->
  wp (count parse_sample n i) Q.
Proof.
  intros Hn HQ. eapply wp_mono.
  - apply (wp_count _ (fun c s => exists f, frame_wf f /\ c = frame_octets f /\ s = sample_reading f)); [done|].
    intros j. eapply wp_mono; [apply wp_frame|]. intros [j' s] (f & Hf & -> & ->). eauto 6.
  - intros [i' l] (cs & -> & HR & Hl).
    assert (Hfs : exists fs, cs = frame_octets <$> fs /\ l = sample_reading <$> fs /\ Forall frame_wf fs).
    { clear -HR. induction HR as [|c s cs l (f & Hf & -> & ->) _ (fs & -> & -> & Hfs)]; [by exists []|].
      exists (f :: fs). auto. }
    destruct Hfs as (fs & -> & -> & Hfs). apply HQ; [done|done|]. by rewrite zlen_fmap in Hl.
Qed.

Lemma count_frames fs rest :
  Forall frame_wf fs ->
  count parse_sample (zlen fs) (concat (frame_octets <$> fs) ++ rest) = Ok (rest, sample_reading <$> fs).
Proof.
  intros Hfs. rewrite count_law by apply zlen_nonneg. unfold zlen. rewrite Nat2Z.id.
  induction Hfs as [|f fs Hf _ IH]; [done|]. cbn.
  rewrite <- app_assoc, parse_sample_framed by done. by rewrite IH.
Qed.

(** A padded sample is framed by its header. *)
Lemma sample_frame f h tl :
  sample_header_wf f h -> zlen (sample_header_octets h ++ tl) <= 8 + h.(sh_length) ->
  exists body, frame_wf (h.(sh_format), body) /\
    pad_to (8 + h.(sh_length)) (sample_header_octets h ++ tl) = frame_octets (h.(sh_format), body).
Proof.
  intros (Hf & Hl & _) Hz.
  pose proof (zlen_pad_to _ _ Hz) as Hp. revert Hp.
  set (p := pad_to (8 + sh_length h) (sample_header_octets h ++ tl)). intros Hp.
  assert (E : p = be_bytes 4 (sh_format h) ++ be_bytes 4 (sh_length h) ++ drop 8 p) by done.
  exists (drop 8 p).
  assert (Hb : zlen (drop 8 p) = sh_length h) by (rewrite zlen_drop, Hp; unfold fits_u in Hl; lia).
  unfold frame_wf, frame_octets. cbn [fst snd]. rewrite Hb. split; [|done]. split; [|done].
  rewrite Hf. apply SampleFormat.SampleFormat_into_fits.
Qed.

Ltac framed_sample f :=
  lazymatch goal with
  | Hh : sample_header_wf f ?h, Hz : zlen ?o <= _ |- exists f', _ /\ pad_to _ ?o = _ /\ _ =>
      destruct (sample_frame f h _ Hh Hz) as (body & Hb & E);
      change (pad_to (8 + sh_length h) o = frame_octets (sh_format h, body)) in E;
      exists (sh_format h, body); split; [exact Hb|]; split; [exact E|];
      unfold sample_reading; cbn [fst snd]; rewrite <- E; destruct Hh as [-> _];
      rewrite SampleFormat.SampleFormat_try_from_into; cbv iota; unfold pad_to
  end.

Lemma sample_octets_frame s :
  sample_wf s -> exists f, frame_wf f /\ sample_octets s = frame_octets f /\ sample_reading f = s.
Proof.
  destruct s as [v|v|v|v|v|c]; cbn [sample_wf sample_octets].
  - intros [Hv Hz]. pose proof (proj1 Hv) as Hh. framed_sample SampleFormat.Flow.
    by rewrite parse_flow_sample_octets.
  - intros [Hv Hz]. pose proof (proj1 Hv) as Hh. framed_sample SampleFormat.Counter.
    by rewrite (parse_counter_sample_octets SampleFormat.Counter).
  - intros [Hv Hz]. pose proof (proj1 Hv) as Hh. framed_sample SampleFormat.ExpandedFlow.
    by rewrite parse_expanded_flow_sample_octets.
  - intros [Hv Hz]. pose proof (proj1 Hv) as Hh. framed_sample SampleFormat.ExpandedCounter.
    by rewrite (parse_counter_sample_octets SampleFormat.ExpandedCounter).
  - intros [Hv Hz]. pose proof (proj1 Hv) as Hh. framed_sample SampleFormat.Drop.
    by rewrite parse_drop_sample_octets.
  - intros Hc. by exists (0, c).
Qed.

(** ** Properties *)

(** A datagram parses exactly when it is a header followed by as many framed
    samples as it counts, and then to the reading of each sample from its own
    octets: whatever a sample holds, neither the others nor what follows the
    datagram depend on it.  No failure but the recoverable one occurs. *)
Theorem sflow_framing input :
  match parse_sflow_v5 input with
  | Ok (rest, d) =>
      exists agent sub_agent sequence uptime fs,
        datagram_header_wf agent sub_agent sequence uptime /\ Forall frame_wf fs /\
        input = datagram_header agent sub_agent sequence uptime ++ array frame_octets fs ++ rest /\
        d = mkSFlowV5 SFLOW_V5_VERSION agent sub_agent sequence uptime (sample_reading <$> fs)
  | Err e =>
      e = Error /\
      forall agent sub_agent sequence uptime fs rest,
        datagram_header_wf agent sub_agent sequence uptime -> array_wf frame_wf fs ->
        input <> datagram_header agent sub_agent sequence uptime ++ array frame_octets fs ++ rest
  end.
Proof.
  assert (Hw : wp (parse_sflow_v5 input) (fun '(rest, d) =>
    exists agent sub_agent sequence uptime fs,
      datagram_header_wf agent sub_agent sequence uptime /\ Forall frame_wf fs /\
      input = datagram_header agent sub_agent sequence uptime ++ array frame_octets fs ++ rest /\
      d = mkSFlowV5 SFLOW_V5_VERSION agent sub_agent sequence uptime (sample_reading <$> fs))).
  { unfold parse_sflow_v5. wp_step. apply wp_verify. wp_steps. intros Hv%Z.eqb_eq. subst.
    wp_step. apply wp_address. intros i1 a -> Ha. wp_steps. apply wp_samples; [width|].
    intros i' fs -> Hfs Hn. wp_steps. exists a, v, v0, v1, fs. split; [by split_and!|].
    split; [done|]. split; [|done]. unfold datagram_header, array. by rewrite <- !app_assoc, Hn. }
  destruct (parse_sflow_v5 input) as [[rest d]|e] eqn:E; [exact Hw|]. split; [exact Hw|].
  intros agent sub_agent sequence uptime fs rest Hh [Hn Hfs] ->. unfold array in E.
  rewrite <- !app_assoc in E.
  by rewrite (parse_datagram _ _ _ _ _ _ _ _ Hh Hn (count_frames fs rest Hfs)) in E.
Qed.


(** C39: A datagram encoded as the sFlow specification says is parsed back as it
    was, whatever follows it: every kind of sample and of record, with any
    padding that its length allows. *)
Theorem sflow_parse_octets d rest :
  d.(sf_version) = SFLOW_V5_VERSION ->
  datagram_header_wf d.(sf_agent_address) d.(sf_sub_agent_id) d.(sf_sequence_number) d.(sf_uptime) ->
  array_wf sample_wf d.(sf_samples) ->
  parse_sflow_v5
    (datagram_header d.(sf_agent_address) d.(sf_sub_agent_id) d.(sf_sequence_number) d.(sf_uptime) ++
     array sample_octets d.(sf_samples) ++ rest)
  = Ok (rest, d).
Proof.
  intros Hv Hh [Hn Hs]. unfold array. rewrite <- app_assoc.
  assert (Hc : forall l, Forall sample_wf l -> exists fs, Forall frame_wf fs /\ zlen fs = zlen l /\
    concat (sample_octets <$> l) = concat (frame_octets <$> fs) /\ sample_reading <$> fs = l).
  { induction 1 as [|s l (f & Hf & E & Er)%sample_octets_frame _ (fs & Hfs & Hl & Ec & El)]; [by exists []|].
    exists (f :: fs). rewrite !zlen_cons, Hl. cbn. rewrite E, Ec, Er, El. auto. }
  destruct (Hc _ Hs) as (fs & Hfs & Hl & -> & Er).
  pose proof (count_frames fs rest Hfs) as Hcount. rewrite Hl, Er in Hcount.
  rewrite (parse_datagram _ _ _ _ _ _ _ _ Hh Hn Hcount). destruct d. cbn in *. by subst.
Qed.

(** The records of a sample, each a format, a length and that many octets,
    are read one by one, each from its own octets: a record of a format that
    is not known, or that does not parse, is kept as octets and loses none of
    the others. *)
Theorem sflow_records_kept rs rest :
  Forall (fun '(h, body) => record_header_wf h /\ zlen body = h.(rh_length)) rs ->
  let octets := concat ((fun '(h, body) => record_header_octets h ++ body) <$> rs) ++ rest in
  count parse_flow_record (zlen rs) octets
    = Ok (rest, (fun '(h, body) => mkFlowRecord h
        (match flow_record_data h.(rh_data_format) body with
         | Ok v => v
         | Err _ => FlowRecordType.Unknown body
         end)) <$> rs) /\
  count parse_counter_record (zlen rs) octets
    = Ok (rest, (fun '(h, body) => mkCounterRecord h
        [match counter_record_data h.(rh_data_format) body with
         | Ok v => v
         | Err _ => CounterRecordType.Unknown body
         end]) <$> rs).
Proof.
  intros Hrs. cbv zeta. rewrite !count_law by apply zlen_nonneg.
  assert (E : Z.to_nat (zlen rs) = length rs) by (unfold zlen; lia). rewrite E. clear E.
  split; induction Hrs as [|[h body] rs [Hh Hb] _ IH]; try done; cbn; rewrite <- !app_assoc.
  - rewrite parse_flow_record_framed by done. by rewrite IH.
  - rewrite parse_counter_record_framed by done. by rewrite IH.
Qed.

(** A string takes its length, its octets and the padding to a multiple of
    four; what it gives is always valid UTF-8, and the octets themselves when
    they are. *)
Theorem sflow_xdr_string c pad rest :
  fits_u 32 (zlen c) -> zlen pad = (4 - zlen c mod 4) mod 4 ->
  exists s, parse_xdr_string (be_bytes 4 (zlen c) ++ c ++ pad ++ rest) = Ok (rest, s) /\
    utf8_valid s = true /\ (utf8_valid c = true -> s = c) /\
    (zlen (be_bytes 4 (zlen c) ++ c ++ pad)) mod 4 = 0.
Proof.
  intros Hc Hp. exists (from_utf8_lossy c). unfold parse_xdr_string.
  rewrite be_u32_app by done. rewrite nom_map_law, nom_take_app by done.
  rewrite nom_take_app by done. split_and!; [done|apply from_utf8_lossy_valid|apply from_utf8_lossy_id|].
  rewrite !zlen_app, zlen_be_bytes, Hp. pose proof (zlen_nonneg c). dlia.
Qed.

(** A drop reason keeps its code, also one that has no name. *)
Theorem drop_reason_roundtrip v : DropReason.into (DropReason.from v) = v.
Proof.
  unfold DropReason.from. destruct (find _ _) as [t|] eqn:E; [|done]. cbn.
  apply find_some in E as [_ E]. by apply Z.eqb_eq.
Qed.
End wire.

(** ** Samples *)

Section samples.
#[local] Instance sample_nom : Nom := nom_std.
#[local] Instance sample_crates : Crates := crates_std.

#[local] Ltac computed := apply (bool_decide_unpack _); vm_compute; exact I.

(** A record of twenty octets in twenty-four. *)
Definition sample_record : FlowRecord :=
  mkFlowRecord (mkRecordHeader 1004 24)
    (FlowRecordType.ExtendedUser (mkExtendedUser 106 (str "ab") 106 [])).

(** A flow sample with four octets past its record, and an unknown one. *)
Definition sample_flow : FlowSample :=
  mkFlowSample (mkSampleHeader 1 68 7 0 3) 100 1000 0 3 4 [sample_record].

Definition sample_datagram : SFlowV5 :=
  mkSFlowV5 5 (Some (V4 0xc0000201)) 0 1 1000 [Sample.Flow sample_flow; Sample.Unknown [x01; x02]].

Lemma sample_record_wf : flow_record_wf sample_record.
Proof.
  split; [split; computed|]. split; [|computed]. split; [reflexivity|].
  split; [computed|]. split; [split; [computed|reflexivity]|]. split; [computed|].
  split; [computed|reflexivity].
Qed.

Lemma sample_flow_wf : sample_wf (Sample.Flow sample_flow).
Proof.
  split; [|computed]. split; [|repeat (split; [computed|])].
  - split; [reflexivity|]. repeat (split; [computed|]). computed.
  - constructor; [exact sample_record_wf|constructor].
Qed.

Lemma sflow_parse_octets_witness :
  parse_sflow_v5
    (datagram_header (Some (V4 0xc0000201)) 0 1 1000 ++
     array sample_octets [Sample.Flow sample_flow; Sample.Unknown [x01; x02]] ++ [x09])
  = Ok ([x09], sample_datagram).
Proof.
  apply (sflow_parse_octets sample_datagram [x09] eq_refl).
  - repeat (split; [computed|]). computed.
  - split; [computed|]. constructor; [exact sample_flow_wf|].
    constructor; [|constructor]. change (fits_u 32 2). computed.
Defined.

(** An unknown header protocol in the first record. *)
Lemma sflow_records_kept_witness :
  let rs := [(mkRecordHeader 1 4, be_bytes 4 15); (mkRecordHeader 1036 4, be_bytes 4 6)] in
  count parse_flow_record 2 (concat ((fun '(h, body) => record_header_octets h ++ body) <$> rs) ++ [])
  = Ok ([], [mkFlowRecord (mkRecordHeader 1 4) (FlowRecordType.Unknown (be_bytes 4 15));
             mkFlowRecord (mkRecordHeader 1036 4)
               (FlowRecordType.ExtendedEgressQueue (mkExtendedEgressQueue 6))]).
Proof.
  intros rs.
  assert (Hrs : Forall (fun '(h, body) => record_header_wf h /\ zlen body = h.(rh_length)) rs).
  { constructor; [split; [split; computed|reflexivity]|].
    constructor; [split; [split; computed|reflexivity]|constructor]. }
  exact (proj1 (sflow_records_kept rs [] Hrs)).
Defined.

Lemma sflow_xdr_string_witness :
  exists s, parse_xdr_string (be_bytes 4 3 ++ [x61; xff; x62] ++ [x00] ++ []) = Ok ([], s) /\
    utf8_valid s = true /\ s <> [x61; xff; x62].
Proof.
  destruct (sflow_xdr_string [x61; xff; x62] [x00] []) as (s & E & Hv & _ & _); [computed|reflexivity|].
  exists s. split; [exact E|]. split; [exact Hv|]. intros ->. discriminate Hv.
Defined.
End samples.
