(* ===== verification/CryptoPan.v ===== *)
(** [common/cryptopan.rs]: prefix-preserving address anonymization.

    The AES block cipher is the [aes] crate's; nothing is assumed of it but
    that it maps blocks to blocks. *)

From Stdlib Require Import ZArith Lia Strings.Byte.
From stdpp Require Import base tactics numbers list.
From S2P Require Import Prelude Std.
#[local] Open Scope Z_scope.

(** [aes::Aes128]: a block is sixteen octets. *)
Class Aes := {
  Aes128 : Type;
  Aes128_new : bytes -> Aes128;
  encrypt_block : Aes128 -> bytes -> bytes;
  encrypt_block_length : forall k b, length b = 16%nat -> length (encrypt_block k b) = 16%nat;
}.

Definition KEY_LEN : nat := 32.

Definition u128_MAX : Z := 2 ^ 128 - 1.

Section cryptopan.
Context `{AES : Aes}.

Record CryptoPan := mkCryptoPan { cipher : Aes128; pad : Z }.

(** The key is an array of [KEY_LEN] octets. *)
Definition new (key : bytes) : CryptoPan :=
  let aes_key := take 16 key in
  let pad_seed := drop 16 key in
  let cipher := Aes128_new aes_key in
  let pad := encrypt_block cipher pad_seed in
  mkCryptoPan cipher (be_value pad).

Definition prefix_mask (i : Z) : Z := if i =? 0 then 0 else wrap 128 (Z.shiftl u128_MAX (128 - i)).

(** [!v] of a [u128] *)
Definition u128_not (v : Z) : Z := u128_MAX - v.

(** The block holds an octet, [block[0]]. *)
Definition flip_bit (self : CryptoPan) (addr i : Z) : Z :=
  let input := Z.lor (Z.land addr (prefix_mask i)) (Z.land self.(pad) (u128_not (prefix_mask i))) in
  let block := encrypt_block self.(cipher) (be_bytes 16 input) in
  Z.shiftr (u8_of (nth 0 block x00)) 7.

Definition anonymize_bits (self : CryptoPan) (addr bits : Z) : Z :=
  let flips :=
    fold_left (fun flips i => Z.lor flips (wrap 128 (Z.shiftl (flip_bit self addr i) (127 - i))))
      (seqZ 0 bits) 0 in
  Z.lxor addr flips.

Definition anonymize_v4 (self : CryptoPan) (addr : Z) : Z :=
  let bits := wrap 128 (Z.shiftl addr 96) in
  let out := anonymize_bits self bits 32 in
  wrap 32 (Z.shiftr out 96).

Definition anonymize_v6 (self : CryptoPan) (addr : Z) : Z := anonymize_bits self addr 128.

Definition anonymize (self : CryptoPan) (addr : IpAddr) : IpAddr :=
  match addr with
  | V4 v4 => V4 (anonymize_v4 self v4)
  | V6 v6 => V6 (anonymize_v6 self v6)
  end.

(** ** Bits *)

(** [a] and [b] share their first [n] of 128 bits. *)
Definition share (n a b : Z) : Prop :=
  forall i, 0 <= i < n -> Z.testbit a (127 - i) = Z.testbit b (127 - i).

Lemma share_shiftr w k n a b :
  0 <= n <= w -> 0 <= k -> w + k = 128 -> fits_u w a -> fits_u w b ->
  Z.shiftr a (w - n) = Z.shiftr b (w - n) <-> share n (Z.shiftl a k) (Z.shiftl b k).
Proof.
  intros Hn Hk Hw Ha Hb. unfold share. split.
  - intros E i Hi. rewrite !Z.shiftl_spec by lia.
    apply (f_equal (fun z => Z.testbit z (n - 1 - i))) in E.
    rewrite !Z.shiftr_spec in E by lia. replace (127 - i - k) with (n - 1 - i + (w - n)) by lia. done.
  - intros H. apply Z.bits_inj'. intros j Hj. rewrite !Z.shiftr_spec by lia.
    destruct (Z.lt_ge_cases j n).
    + specialize (H (n - 1 - j) ltac:(lia)). rewrite !Z.shiftl_spec in H by lia.
      by replace (127 - (n - 1 - j) - k) with (j + (w - n)) in H by lia.
    + rewrite <- (wrap_small w a), <- (wrap_small w b) by done. unfold wrap.
      by rewrite !Z.mod_pow2_bits_high by lia.
Qed.

Lemma prefix_mask_bits i j :
  0 <= i <= 128 -> 0 <= j < 128 -> Z.testbit (prefix_mask i) (127 - j) = (j <? i).
Proof.
  intros Hi Hj. unfold prefix_mask, wrap. destruct (Z.eqb_spec i 0) as [->|H0].
  - rewrite Z.bits_0. by destruct (Z.ltb_spec j 0); [lia|].
  - rewrite Z.mod_pow2_bits_low by lia. rewrite Z.shiftl_spec by lia.
    change u128_MAX with (Z.ones 128). destruct (Z.ltb_spec j i).
    + apply Z.ones_spec_low. lia.
    + apply Z.testbit_neg_r. lia.
Qed.

Lemma prefix_mask_high i j : 0 <= i <= 128 -> 128 <= j -> Z.testbit (prefix_mask i) j = false.
Proof.
  intros Hi Hj. unfold prefix_mask, wrap. destruct (_ =? _); [apply Z.bits_0|].
  by rewrite Z.mod_pow2_bits_high by lia.
Qed.

(** The flips of a prefix depend on nothing else. *)
Lemma flip_bit_prefix self a b i :
  0 <= i <= 128 -> share i a b -> flip_bit self a i = flip_bit self b i.
Proof.
  intros Hi Hs. unfold flip_bit. assert (E : Z.land a (prefix_mask i) = Z.land b (prefix_mask i)).
  { apply Z.bits_inj'. intros j Hj. rewrite !Z.land_spec.
    destruct (Z.lt_ge_cases j 128); [|rewrite prefix_mask_high by lia; by rewrite !andb_false_r].
    replace j with (127 - (127 - j)) by lia. rewrite prefix_mask_bits by lia.
    destruct (Z.ltb_spec (127 - j) i); [|by rewrite !andb_false_r].
    by rewrite (Hs (127 - j)) by lia. }
  by rewrite E.
Qed.

Lemma flip_bit_01 self a i : flip_bit self a i = 0 \/ flip_bit self a i = 1.
Proof.
  unfold flip_bit. rewrite Z.shiftr_div_pow2 by lia. change (2 ^ 7) with 128.
  pose proof (u8_of_range (nth 0 (encrypt_block (cipher self) (be_bytes 16
    (Z.lor (Z.land a (prefix_mask i)) (Z.land (pad self) (u128_not (prefix_mask i)))))) x00)). dlia.
Qed.

Lemma flips_bits self addr n j :
  0 <= n <= 128 -> 0 <= j ->
  Z.testbit (fold_left (fun flips i => Z.lor flips (wrap 128 (Z.shiftl (flip_bit self addr i) (127 - i))))
    (seqZ 0 n) 0) j
  = (128 - n <=? j) && (j <? 128) && (flip_bit self addr (127 - j) =? 1).
Proof.
  intros Hn Hj. replace n with (Z.of_nat (Z.to_nat n)) in * by lia.
  set (k := Z.to_nat n) in *. clearbody k. induction k as [|k IH].
  - rewrite Z.bits_0. destruct (Z.leb_spec (128 - Z.of_nat 0) j); [|done].
    by destruct (Z.ltb_spec j 128); [lia|].
  - rewrite seqZ_S, fold_left_app. cbn [fold_left].
    rewrite Z.lor_spec, IH by lia. unfold wrap.
    destruct (Z.lt_ge_cases j 128).
    2:{ rewrite Z.mod_pow2_bits_high by lia. destruct (Z.ltb_spec j 128); [lia|].
        by rewrite !andb_false_r. }
    rewrite Z.mod_pow2_bits_low by lia. rewrite Z.shiftl_spec by lia.
    destruct (Z.ltb_spec j 128); [|lia]. rewrite !andb_true_r.
    assert (Hb : Z.testbit (flip_bit self addr (0 + Z.of_nat k)) (j - (127 - (0 + Z.of_nat k)))
      = (j =? 127 - Z.of_nat k) && (flip_bit self addr (127 - j) =? 1)).
    { destruct (Z.eqb_spec j (127 - Z.of_nat k)) as [->|Hne].
      - replace (127 - Z.of_nat k - (127 - (0 + Z.of_nat k))) with 0 by lia.
        replace (127 - (127 - Z.of_nat k)) with (0 + Z.of_nat k) by lia.
        by destruct (flip_bit_01 self addr (0 + Z.of_nat k)) as [->| ->].
      - destruct (Z.lt_ge_cases (j - (127 - (0 + Z.of_nat k))) 0); [by rewrite Z.testbit_neg_r|].
        destruct (flip_bit_01 self addr (0 + Z.of_nat k)) as [->| ->]; [apply Z.bits_0|].
        change 1 with (2 ^ 0). rewrite Z.pow2_bits_false by lia. done. }
    rewrite Hb. destruct (flip_bit self addr (127 - j) =? 1); rewrite ?andb_true_r, ?andb_false_r; [|done].
    destruct (Z.leb_spec (128 - Z.of_nat k) j), (Z.eqb_spec j (127 - Z.of_nat k)),
      (Z.leb_spec (128 - Z.of_nat (S k)) j); (done || lia).
Qed.

Lemma anonymize_bits_spec self addr n i :
  0 <= n <= 128 -> 0 <= i < 128 ->
  Z.testbit (anonymize_bits self addr n) (127 - i)
  = xorb (Z.testbit addr (127 - i)) ((i <? n) && (flip_bit self addr i =? 1)).
Proof.
  intros Hn Hi. unfold anonymize_bits. rewrite Z.lxor_spec, flips_bits by lia. f_equal.
  replace (127 - (127 - i)) with i by lia.
  destruct (Z.leb_spec (128 - n) (127 - i)), (Z.ltb_spec (127 - i) 128), (Z.ltb_spec i n); (done || lia).
Qed.

(** Sharing a prefix is preserved and reflected. *)
Lemma anonymize_bits_share self a b n k :
  0 <= n <= 128 -> 0 <= k <= n ->
  share k (anonymize_bits self a n) (anonymize_bits self b n) <-> share k a b.
Proof.
  intros Hn Hk. split.
  - intros H. replace k with (Z.of_nat (Z.to_nat k)) in * by lia.
    set (m := Z.to_nat k) in *. clearbody m. induction m as [|m IH]; [intros i Hi; lia|].
    assert (Hm : share (Z.of_nat m) a b) by (apply IH; [lia|]; intros i Hi; apply H; lia).
    intros i Hi. destruct (Z.lt_ge_cases i (Z.of_nat m)); [by apply Hm; lia|].
    specialize (H i Hi). rewrite !anonymize_bits_spec in H by lia.
    rewrite (flip_bit_prefix self a b i) in H; [|lia|intros x Hx; apply Hm; lia].
    by destruct (Z.testbit a (127 - i)), (Z.testbit b (127 - i)), ((i <? n) && (flip_bit self b i =? 1)).
  - intros H i Hi. rewrite !anonymize_bits_spec by lia. rewrite H by lia.
    by rewrite (flip_bit_prefix self a b i) by (lia || intros x Hx; apply H; lia).
Qed.

(** Only the bits asked for are flipped, and none past the block. *)
Lemma anonymize_bits_other self addr n j :
  0 <= n <= 128 -> 0 <= j -> ~ (128 - n <= j < 128) ->
  Z.testbit (anonymize_bits self addr n) j = Z.testbit addr j.
Proof.
  intros Hn Hj Hout. unfold anonymize_bits. rewrite Z.lxor_spec, flips_bits by lia.
  destruct (Z.leb_spec (128 - n) j), (Z.ltb_spec j 128); try lia; apply xorb_false_r.
Qed.

Lemma fits_bits w z : 0 <= w -> (forall j, w <= j -> Z.testbit z j = false) -> fits_u w z.
Proof.
  intros Hw H. assert (E : z = wrap w z).
  { apply Z.bits_inj'. intros j Hj. unfold wrap. destruct (Z.lt_ge_cases j w).
    - by rewrite Z.mod_pow2_bits_low.
    - rewrite Z.mod_pow2_bits_high by lia. by apply H. }
  rewrite E. by apply wrap_range.
Qed.

Lemma fits_high w z j : 0 <= w -> fits_u w z -> w <= j -> Z.testbit z j = false.
Proof. intros Hw Hz Hj. rewrite <- (wrap_small w z Hz). unfold wrap. by apply Z.mod_pow2_bits_high; lia. Qed.

Lemma anonymize_v6_fits self a : fits_u 128 a -> fits_u 128 (anonymize_v6 self a).
Proof.
  intros Ha. apply fits_bits; [lia|]. intros j Hj. unfold anonymize_v6.
  rewrite anonymize_bits_other by lia. by apply (fits_high 128).
Qed.

(** The four octets of the result are followed by zeros in the block. *)
Lemma anonymize_v4_block self a :
  fits_u 32 a -> Z.shiftl (anonymize_v4 self a) 96 = anonymize_bits self (Z.shiftl a 96) 32.
Proof.
  intros Ha. unfold anonymize_v4.
  assert (Hw : wrap 128 (Z.shiftl a 96) = Z.shiftl a 96).
  { apply wrap_small. rewrite Z.shiftl_mul_pow2 by lia. width. }
  rewrite Hw. set (out := anonymize_bits self (Z.shiftl a 96) 32).
  assert (Hlow : forall j, 0 <= j < 96 -> Z.testbit out j = false).
  { intros j Hj. unfold out. rewrite anonymize_bits_other by lia. apply Z.shiftl_spec_low. lia. }
  assert (Hhigh : forall j, 128 <= j -> Z.testbit out j = false).
  { intros j Hj. unfold out. rewrite anonymize_bits_other by lia. rewrite Z.shiftl_spec by lia.
    apply (fits_high 32); [lia|done|lia]. }
  apply Z.bits_inj'. intros j Hj. destruct (Z.lt_ge_cases j 96).
  - rewrite Z.shiftl_spec_low by lia. by rewrite Hlow.
  - rewrite Z.shiftl_spec by lia. unfold wrap. destruct (Z.lt_ge_cases (j - 96) 32).
    + rewrite Z.mod_pow2_bits_low by lia. rewrite Z.shiftr_spec by lia. f_equal. lia.
    + rewrite Z.mod_pow2_bits_high by lia. by rewrite Hhigh by lia.
Qed.

Lemma anonymize_v4_fits self a : fits_u 32 (anonymize_v4 self a).
Proof. apply wrap_range. lia. Qed.

(** ** Properties *)

(** C40: Two addresses of a family share their first [n] bits exactly when their
    images do, for every [n]: subnets are mapped to subnets of the same size
    and never merged. *)
Theorem anonymize_prefix self n :
  (0 <= n <= 32 -> forall a b, fits_u 32 a -> fits_u 32 b ->
     Z.shiftr (anonymize_v4 self a) (32 - n) = Z.shiftr (anonymize_v4 self b) (32 - n) <->
     Z.shiftr a (32 - n) = Z.shiftr b (32 - n)) /\
  (0 <= n <= 128 -> forall a b, fits_u 128 a -> fits_u 128 b ->
     Z.shiftr (anonymize_v6 self a) (128 - n) = Z.shiftr (anonymize_v6 self b) (128 - n) <->
     Z.shiftr a (128 - n) = Z.shiftr b (128 - n)).
Proof.
  split; intros Hn a b Ha Hb.
  - rewrite !(share_shiftr 32 96) by (lia || done || apply anonymize_v4_fits).
    rewrite !anonymize_v4_block by done. apply anonymize_bits_share; lia.
  - rewrite !(share_shiftr 128 0) by (lia || done || by apply anonymize_v6_fits).
    rewrite !Z.shiftl_0_r. apply anonymize_bits_share; lia.
Qed.

(** The address of a well-formed [IpAddr] is in its family's range. *)
Definition ip_wf (a : IpAddr) : Prop :=
  match a with V4 a => fits_u 32 a | V6 a => fits_u 128 a end.

(** Anonymizing keeps the family and is injective on it: distinct addresses
    stay distinct, whatever the key. *)
Theorem anonymize_injective self a b :
  ip_wf a -> ip_wf b ->
  ip_wf (anonymize self a) /\ (anonymize self a = anonymize self b -> a = b).
Proof.
  destruct a as [a|a], b as [b|b]; cbn; intros Ha Hb;
    (split; [by apply anonymize_v4_fits || apply anonymize_v6_fits|]); try done; intros [= E]; f_equal.
  - assert (H : share 32 (Z.shiftl a 96) (Z.shiftl b 96)).
    { apply (anonymize_bits_share self _ _ 32); [lia|lia|].
      rewrite <- !anonymize_v4_block, E by done. by intros i Hi. }
    by apply (share_shiftr 32 96) in H; rewrite ?Z.sub_diag, ?Z.shiftr_0_r in H; try lia.
  - assert (H : share 128 (Z.shiftl a 0) (Z.shiftl b 0)).
    { rewrite !Z.shiftl_0_r. apply (anonymize_bits_share self _ _ 128); [lia|lia|].
      unfold anonymize_v6 in E. rewrite E. by intros i Hi. }
    by apply (share_shiftr 128 0) in H; rewrite ?Z.sub_diag, ?Z.shiftr_0_r in H; try lia.
Qed.
End cryptopan.

(** ** Samples *)

(** A stand-in cipher that adds the key to the block, octet by octet. *)
#[refine] Definition aes_sample : Aes := {|
  Aes128 := bytes;
  Aes128_new k := k;
  encrypt_block k b := imap (fun i x => byte_of (u8_of x * 7 + u8_of (nth i k x00))) b;
|}.
Proof. intros k b Hb. by rewrite length_imap. Defined.

Section samples.
#[local] Instance sample_aes : Aes := aes_sample.

Definition sample_pan : CryptoPan := new (byte_of <$> seqZ 11 32).

(** 192.0.2.1 and 192.0.2.200 share 24 bits. *)
Lemma anonymize_prefix_witness :
  Z.shiftr (anonymize_v4 sample_pan 0xc0000201) 8 = Z.shiftr (anonymize_v4 sample_pan 0xc00002c8) 8 /\
  anonymize_v4 sample_pan 0xc0000201 <> 0xc0000201.
Proof.
  split; [|vm_compute; discriminate].
  assert (Ha : fits_u 32 0xc0000201) by (apply (bool_decide_unpack _); vm_compute; exact I).
  assert (Hb : fits_u 32 0xc00002c8) by (apply (bool_decide_unpack _); vm_compute; exact I).
  apply (proj1 (anonymize_prefix sample_pan 24) ltac:(lia) _ _ Ha Hb). reflexivity.
Defined.

Lemma anonymize_injective_witness :
  anonymize sample_pan (V4 1) <> anonymize sample_pan (V4 2).
Proof.
  assert (H1 : ip_wf (V4 1)) by (apply (bool_decide_unpack (fits_u 32 1)); vm_compute; exact I).
  assert (H2 : ip_wf (V4 2)) by (apply (bool_decide_unpack (fits_u 32 2)); vm_compute; exact I).
  intros E. discriminate (proj2 (anonymize_injective sample_pan _ _ H1 H2) E).
Defined.
End samples.
