(* ===== verification/CommonFlow.v ===== *)
(** [common/common_flow.rs]: the flow every protocol's records are converted
    into.  Fields keep the source's names behind [cf_]; [#[serde]] attributes
    only concern its output formats. *)

From Stdlib Require Import ZArith Lia Strings.Byte.
From stdpp Require Import base tactics numbers list.
From coqutil Require Import Datatypes.RecordSetters.
From S2P Require Import Prelude Std Crates.
Export TriangleBracketNotations.
#[local] Open Scope Z_scope.

Module FlowType.
Inductive FlowType := NetflowV5 | NetflowV9 | Ipfix | SflowV5.

Definition name (self : FlowType) : bytes :=
  match self with
  | NetflowV5 => str "netflow_v5"
  | NetflowV9 => str "netflow_v9"
  | Ipfix => str "ipfix"
  | SflowV5 => str "sflow_v5"
  end.
End FlowType.
Abbreviation FlowType := FlowType.FlowType.

Section flow.
Context `{CR : Crates}.

Record CommonFlow := mkCommonFlow {
  cf_flow_type : FlowType;
  cf_time_received_ns : option Z;
  cf_sequence_num : Z;
  cf_sampling_rate : option Z;
  cf_sampler_address : option IpAddr;
  cf_time_flow_start_ns : option Z;
  cf_time_flow_end_ns : option Z;
  cf_bytes : Z;
  cf_packets : Z;
  cf_src_addr : option IpAddr;
  cf_dst_addr : option IpAddr;
  cf_src_mac : option MacAddr6;
  cf_dst_mac : option MacAddr6;
  cf_etype : option Z;
  cf_proto : option Z;
  cf_src_port : option Z;
  cf_dst_port : option Z;
  cf_in_if : option Z;
  cf_out_if : option Z;
  cf_ip_tos : option Z;
  cf_ip_ttl : option Z;
  cf_tcp_flags : option Z;
  cf_icmp_type : option Z;
  cf_icmp_code : option Z;
  cf_ipv6_flow_label : option Z;
  cf_fragment_id : option Z;
  cf_fragment_offset : option Z;
  cf_src_as : option Z;
  cf_dst_as : option Z;
  cf_next_hop : option IpAddr;
  cf_src_net : option Z;
  cf_dst_net : option Z;
  cf_bgp_next_hop : option IpAddr;
  cf_src_vlan : option Z;
  cf_dst_vlan : option Z;
  cf_observation_domain_id : option Z;
  cf_template_id : option Z;
  cf_forwarding_status : option Z;
}.

Definition default_flow : CommonFlow := {|
  cf_flow_type := FlowType.NetflowV5;
  cf_time_received_ns := None;
  cf_sequence_num := 0;
  cf_sampling_rate := None;
  cf_sampler_address := None;
  cf_time_flow_start_ns := None;
  cf_time_flow_end_ns := None;
  cf_bytes := 0;
  cf_packets := 0;
  cf_src_addr := None;
  cf_dst_addr := None;
  cf_src_mac := None;
  cf_dst_mac := None;
  cf_etype := None;
  cf_proto := None;
  cf_src_port := None;
  cf_dst_port := None;
  cf_in_if := None;
  cf_out_if := None;
  cf_ip_tos := None;
  cf_ip_ttl := None;
  cf_tcp_flags := None;
  cf_icmp_type := None;
  cf_icmp_code := None;
  cf_ipv6_flow_label := None;
  cf_fragment_id := None;
  cf_fragment_offset := None;
  cf_src_as := None;
  cf_dst_as := None;
  cf_next_hop := None;
  cf_src_net := None;
  cf_dst_net := None;
  cf_bgp_next_hop := None;
  cf_src_vlan := None;
  cf_dst_vlan := None;
  cf_observation_domain_id := None;
  cf_template_id := None;
  cf_forwarding_status := None;
|}.

(** [CommonFlow::new] *)
Definition CommonFlow_new (flow_type : FlowType) : CommonFlow :=
  default_flow<|cf_flow_type := flow_type|>.

Definition with_time_received (self : CommonFlow) (time : DateTime) : CommonFlow :=
  self<|cf_time_received_ns := timestamp_nanos_opt time|>.
End flow.
