(* ===== verification/Convert.v ===== *)
(** [common/convert/mod.rs]: exporter uptimes as absolute times; and what it
    is for a flow to hold what a record's fields say, which the converters of
    the template-based protocols share. *)

From Stdlib Require Import ZArith Lia Strings.Byte.
From stdpp Require Import base tactics numbers list.
From coqutil Require Import Datatypes.RecordSetters.
From S2P Require Import Prelude Std Crates InformationElement CommonFlow.
#[local] Open Scope Z_scope.

Section uptime.
Context `{CR : Crates}.

Definition uptime_to_absolute_ns (export_time : DateTime) (sys_uptime_ms uptime_ms : Z) : option Z :=
  let offset_ms := to_signed 32 (wrap 32 (sys_uptime_ms - uptime_ms)) in
  t ← checked_sub_millis export_time offset_ms;
  timestamp_nanos_opt t.

(** The nanoseconds since 1970 of a time. *)
Definition nanoseconds (d : DateTime) : Z := timestamp d * NANOS + timestamp_subsec_nanos d.

(** A time a header can name: within [u32] seconds, and no leap second. *)
Definition header_time (d : DateTime) : Prop :=
  fits_u 32 (timestamp d) /\ timestamp_subsec_nanos d < NANOS.

Lemma uptime_absolute d s u :
  header_time d -> - 2 ^ 31 <= s - u < 2 ^ 31 ->
  uptime_to_absolute_ns d (wrap 32 s) (wrap 32 u)
  = Some (nanoseconds d - (s - u) * 1_000_000).
Proof.
  intros [Ht Hn] Hsu. unfold uptime_to_absolute_ns.
  assert (E : to_signed 32 (wrap 32 (wrap 32 s - wrap 32 u)) = s - u).
  { unfold wrap. rewrite <- Zminus_mod. fold (wrap 32 (s - u)).
    apply to_signed_wrap; unfold fits_i; lia. }
  rewrite E. unfold fits_u in Ht.
  destruct (checked_sub_millis_law d (s - u)) as (d' & -> & Ed & _); [done|lia|lia|].
  cbn. rewrite timestamp_nanos_opt_law, Ed. pose proof (subsec_nanos_range d).
  rewrite decide_True by (unfold fits_i, NANOS in *; lia). done.
Qed.
End uptime.

(** ** What the fields of a record say

    [V] is the protocol's field value; [elements] are the record's fields with
    the Information Elements they are, in template order. *)

Section fields.
Context `{CR : Crates} {V : Type}.

(** How a value is read, as each flow field needs it. *)
Record Reading := mkReading {
  as_u64 : V -> option Z;
  as_ipv4 : V -> option Z;
  as_ipv6 : V -> option Z;
  as_mac : V -> option MacAddr6;
}.

Context (r : Reading).

Definition as_u (w : Z) (v : V) : option Z := as_u64 r v ≫= try_u w.
Definition as_v4 (v : V) : option IpAddr := V4 <$> as_ipv4 r v.
Definition as_v6 (v : V) : option IpAddr := V6 <$> as_ipv6 r v.

Definition is_one_of (ies : list InformationElement) (ie : InformationElement) : bool :=
  existsb (fun e => ie_discriminant e =? ie_discriminant ie) ies.

(** A flow field's new content under a record field; [None] leaves it. *)
Abbreviation Writes A := (InformationElement -> V -> option A).

(** The elements set the flow field, to nothing if the value does not fit. *)
Definition sets {A} (ies : list InformationElement) (f : V -> A) : Writes A :=
  fun ie v => if is_one_of ies ie then Some (f v) else None.

(** The elements set the flow field only if they have a value for it. *)
Definition sets_some {A} (ies : list InformationElement) (f : V -> option A) : Writes (option A) :=
  fun ie v => if is_one_of ies ie then Some <$> f v else None.

Definition either {A} (w w' : Writes A) : Writes A :=
  fun ie v => match w ie v with Some a => Some a | None => w' ie v end.

(** What is in the flow field after all elements: what the last one that
    writes it says. *)
Definition written {A} (w : Writes A) (a : A) (elements : list (InformationElement * V)) : A :=
  fold_left (fun a '(ie, v) => default a (w ie v)) elements a.

Lemma written_last {A} (w : Writes A) a l1 ie v b l2 :
  w ie v = Some b -> Forall (fun '(ie, v) => w ie v = None) l2 ->
  written w a (l1 ++ (ie, v) :: l2) = b.
Proof.
  intros Hw H2. unfold written. rewrite fold_left_app. cbn. rewrite Hw. cbn.
  induction H2 as [|[ie' v'] l2 E _ IH]; cbn; [done|]. by rewrite E.
Qed.

Lemma written_none {A} (w : Writes A) a l :
  Forall (fun '(ie, v) => w ie v = None) l -> written w a l = a.
Proof. unfold written. induction 1 as [|[ie v] l E _ IH]; cbn; [done|]. by rewrite E. Qed.

Lemma written_app {A} (w : Writes A) a l l' : written w a (l ++ l') = written w (written w a l) l'.
Proof. apply fold_left_app. Qed.

Definition said {A} (elements : list (InformationElement * V)) (flow flow' : CommonFlow)
    (field : CommonFlow -> A) (w : Writes A) : Prop :=
  field flow' = written w (field flow) elements.

(** [flow'] is [flow] with what the elements say, [starts] and [ends] saying
    when the flow was; octets, packets and the sampling rate are left open. *)
Definition says (starts ends : Writes (option Z)) (elements : list (InformationElement * V))
    (flow flow' : CommonFlow) : Prop :=
  said elements flow flow' cf_time_flow_start_ns starts /\
  said elements flow flow' cf_time_flow_end_ns ends /\
  said elements flow flow' cf_src_addr (either (sets_some [SourceIpv4Address] as_v4) (sets_some [SourceIpv6Address] as_v6)) /\
  said elements flow flow' cf_dst_addr
    (either (sets_some [DestinationIpv4Address] as_v4) (sets_some [DestinationIpv6Address] as_v6)) /\
  said elements flow flow' cf_etype
    (either (sets_some [SourceIpv4Address] (fun v => (fun _ => 0x0800) <$> as_v4 v))
            (sets_some [SourceIpv6Address] (fun v => (fun _ => 0x86dd) <$> as_v6 v))) /\
  said elements flow flow' cf_next_hop
    (either (sets_some [IpNextHopIpv4Address] as_v4) (sets_some [IpNextHopIpv6Address] as_v6)) /\
  said elements flow flow' cf_bgp_next_hop
    (either (sets_some [BgpNextHopIpv4Address] as_v4) (sets_some [BgpNextHopIpv6Address] as_v6)) /\
  said elements flow flow' cf_src_mac (sets_some [SourceMacAddress; PostSourceMacAddress] (as_mac r)) /\
  said elements flow flow' cf_dst_mac (sets_some [DestinationMacAddress; PostDestinationMacAddress] (as_mac r)) /\
  said elements flow flow' cf_proto (sets [ProtocolIdentifier] (as_u 8)) /\
  said elements flow flow' cf_ip_tos (sets [IpClassOfService] (as_u 8)) /\
  said elements flow flow' cf_ip_ttl (sets [MinimumTtl; MaximumTtl] (as_u 8)) /\
  said elements flow flow' cf_src_net (sets [SourceIpv4PrefixLength; SourceIpv6PrefixLength] (as_u 8)) /\
  said elements flow flow' cf_dst_net (sets [DestinationIpv4PrefixLength; DestinationIpv6PrefixLength] (as_u 8)) /\
  said elements flow flow' cf_tcp_flags (sets [TcpControlBits] (as_u 16)) /\
  said elements flow flow' cf_src_port (sets [SourceTransportPort] (as_u 16)) /\
  said elements flow flow' cf_dst_port (sets [DestinationTransportPort] (as_u 16)) /\
  said elements flow flow' cf_src_vlan (sets [SrcVlan] (as_u 16)) /\
  said elements flow flow' cf_dst_vlan (sets [DstVlan] (as_u 16)) /\
  said elements flow flow' cf_in_if (sets [IngressInterface] (as_u 32)) /\
  said elements flow flow' cf_out_if (sets [EgressInterface] (as_u 32)) /\
  said elements flow flow' cf_forwarding_status (sets [ForwardingStatus] (as_u 32)) /\
  said elements flow flow' cf_src_as (sets [BgpSourceAsNumber] (as_u 32)) /\
  said elements flow flow' cf_dst_as (sets [BgpDestinationAsNumber] (as_u 32)) /\
  said elements flow flow' cf_ipv6_flow_label (sets [FlowLabelIpv6] (as_u 32)) /\
  said elements flow flow' cf_fragment_id (sets [FragmentIdentification] (as_u 32)) /\
  said elements flow flow' cf_icmp_type
    (either (sets_some [IcmpTypeCodeIpv4; IcmpTypeCodeIpv6] (fun v => (fun c => c / 256) <$> as_u 16 v))
            (sets [IcmpTypeIpv4; IcmpTypeIpv6] (as_u 8))) /\
  said elements flow flow' cf_icmp_code
    (either (sets_some [IcmpTypeCodeIpv4; IcmpTypeCodeIpv6] (fun v => (fun c => c mod 256) <$> as_u 16 v))
            (sets [IcmpCodeIpv4; IcmpCodeIpv6] (as_u 8))) /\
  cf_flow_type flow' = cf_flow_type flow /\ cf_time_received_ns flow' = cf_time_received_ns flow /\ cf_sequence_num flow' = cf_sequence_num flow /\
  cf_sampler_address flow' = cf_sampler_address flow /\ cf_fragment_offset flow' = cf_fragment_offset flow /\ cf_observation_domain_id flow' = cf_observation_domain_id flow /\
  cf_template_id flow' = cf_template_id flow.

Lemma says_app starts ends l l' flow flow' flow'' :
  says starts ends l flow flow' -> says starts ends l' flow' flow'' ->
  says starts ends (l ++ l') flow flow''.
Proof.
  unfold says, said. intros H H'. ands. split_and!; rewrite ?written_app; congruence.
Qed.

(** It is enough to look at one element at a time. *)
Lemma says_fold starts ends (step : CommonFlow -> InformationElement * V -> CommonFlow) l :
  (forall flow e, says starts ends [e] flow (step flow e)) ->
  forall flow, says starts ends l flow (fold_left step l flow).
Proof.
  intros Hs. induction l as [|e l IH]; intros flow; [by repeat split|].
  apply (says_app _ _ [e] l _ (step flow e)); auto.
Qed.
End fields.
Arguments Reading {CR} V.
