(* ===== verification/ConvertV5.v ===== *)
(** [common/convert/netflow_v5.rs]: NetFlow v5 records as flows. *)

From Stdlib Require Import ZArith Lia Strings.Byte.
From stdpp Require Import base tactics numbers list.
From coqutil Require Import Datatypes.RecordSetters.
From S2P Require Import Prelude Std Crates NetflowV5 CommonFlow Convert.
#[local] Open Scope Z_scope.

Record NetFlowV5Context := mkContext { header : Header; sampler_address : option IpAddr }.

Section convert.
Context `{CR : Crates}.
Implicit Types (self : NetFlowV5Context).

Definition context_uptime_to_absolute_ns self (uptime_ms : Z) : option Z :=
  t ← unix_time self.(header);
  uptime_to_absolute_ns t self.(header).(h_sys_uptime) uptime_ms.

Definition convert self (record : FlowRecord) : CommonFlow := {|
  cf_flow_type := FlowType.NetflowV5;
  cf_time_received_ns := None;
  cf_sequence_num := self.(header).(h_flow_sequence);
  cf_sampling_rate := Some self.(header).(h_sampling_interval);
  cf_sampler_address := self.(sampler_address);
  cf_time_flow_start_ns := context_uptime_to_absolute_ns self record.(r_first);
  cf_time_flow_end_ns := context_uptime_to_absolute_ns self record.(r_last);
  cf_bytes := record.(r_d_ockts);
  cf_packets := record.(r_d_pkts);
  cf_src_addr := Some (V4 record.(r_srcaddr));
  cf_dst_addr := Some (V4 record.(r_dstaddr));
  cf_src_mac := None;
  cf_dst_mac := None;
  cf_etype := Some 0x0800;
  cf_proto := Some record.(r_prot);
  cf_src_port := Some record.(r_srcport);
  cf_dst_port := Some record.(r_dstport);
  cf_in_if := Some record.(r_input);
  cf_out_if := Some record.(r_output);
  cf_ip_tos := Some record.(r_tos);
  cf_ip_ttl := None;
  cf_tcp_flags := Some record.(r_tcp_flags);
  cf_icmp_type := None;
  cf_icmp_code := None;
  cf_ipv6_flow_label := None;
  cf_fragment_id := None;
  cf_fragment_offset := None;
  cf_src_as := Some record.(r_src_as);
  cf_dst_as := Some record.(r_dst_as);
  cf_next_hop := Some (V4 record.(r_nexthop));
  cf_src_net := Some record.(r_src_mask);
  cf_dst_net := Some record.(r_dst_mask);
  cf_bgp_next_hop := None;
  cf_src_vlan := None;
  cf_dst_vlan := None;
  cf_observation_domain_id := None;
  cf_template_id := None;
  cf_forwarding_status := None;
|}.

(** ** When a flow was *)

Lemma unix_time_valid h :
  fits_u 32 h.(h_unix_secs) -> 0 <= h.(h_unix_nsecs) < NANOS ->
  exists d, unix_time h = Some d /\ header_time d /\
    nanoseconds d = h.(h_unix_secs) * NANOS + h.(h_unix_nsecs).
Proof.
  unfold unix_time, fits_u, header_time, nanoseconds. intros Hs Hn.
  destruct (from_timestamp_range h.(h_unix_secs) h.(h_unix_nsecs)) as [d E]; [lia|done|].
  exists d. destruct (from_timestamp_law _ _ _ E) as [-> ->]. unfold fits_u. split_and!; done || lia.
Qed.

(** The start and end of a flow are the header's time less how long before
    the header they were stamped, to the nanosecond: the exporter's true
    uptimes [s], [f] and [l] in milliseconds need only be within about 24.8
    days of one another, however often the 32-bit counters wrapped.  With a
    header time that is no time, both are unset. *)
Theorem v5_flow_times self record s f l :
  fits_u 32 self.(header).(h_unix_secs) -> 0 <= self.(header).(h_unix_nsecs) ->
  self.(header).(h_sys_uptime) = wrap 32 s ->
  record.(r_first) = wrap 32 f -> record.(r_last) = wrap 32 l ->
  - 2 ^ 31 <= s - f < 2 ^ 31 -> - 2 ^ 31 <= s - l < 2 ^ 31 ->
  let now := self.(header).(h_unix_secs) * NANOS + self.(header).(h_unix_nsecs) in
  let flow := convert self record in
  (self.(header).(h_unix_nsecs) < NANOS ->
    flow.(cf_time_flow_start_ns) = Some (now - (s - f) * 1_000_000) /\
    flow.(cf_time_flow_end_ns) = Some (now - (s - l) * 1_000_000)) /\
  (NANOS <= self.(header).(h_unix_nsecs) -> self.(header).(h_unix_secs) mod 60 <> 59 ->
    flow.(cf_time_flow_start_ns) = None /\ flow.(cf_time_flow_end_ns) = None).
Proof.
  intros Hs Hn Es Ef El Hf Hl now flow. subst flow. cbn. unfold context_uptime_to_absolute_ns.
  rewrite Es, Ef, El. split.
  - intros Hn'. destruct (unix_time_valid self.(header)) as (d & -> & Hd & En); [done..|].
    cbn. rewrite !uptime_absolute by done. by rewrite En.
  - intros Hn' H59. unfold unix_time. by rewrite from_timestamp_nanos.
Qed.
End convert.

(** The uptime counter wrapped five seconds before the export. *)
Lemma v5_flow_times_witness :
  let _ := crates_std in
  let h := mkHeader 5 1 5_000 1_700_000_000 7 0 0 0 0 0 in
  let r := mkFlowRecord 0 0 0 0 0 0 0 (2 ^ 32 - 5_000) 4_000 0 0 0 0 0 0 0 0 0 in
  let flow := convert (mkContext h None) r in
  flow.(cf_time_flow_start_ns) = Some 1_699_999_990_000_000_007 /\
  flow.(cf_time_flow_end_ns) = Some 1_699_999_999_000_000_007.
Proof.
  intros c h r flow.
  exact (proj1 (v5_flow_times (mkContext h None) r (2 ^ 32 + 5_000) (2 ^ 32 - 5_000) (2 ^ 32 + 4_000)
    ltac:(unfold fits_u; cbn; lia) ltac:(cbn; lia) eq_refl eq_refl eq_refl
    ltac:(lia) ltac:(lia)) ltac:(cbn; unfold NANOS; lia)).
Defined.
