(* ===== verification/ConvertV9.v ===== *)
(** [common/convert/netflow_v9.rs]: NetFlow v9 records as flows. *)

From Stdlib Require Import ZArith Lia Strings.Byte.
From stdpp Require Import base tactics numbers list.
From coqutil Require Import Datatypes.RecordSetters.
From S2P Require Import Prelude Std Crates IERegistry DataRecord InformationElement NetflowV9 CommonFlow Convert.
Import TriangleBracketNotations.
#[local] Open Scope Z_scope.

Section convert.
Context `{CR : Crates}.

Abbreviation DataRecord := (DataRecord.DataRecord TemplateField FieldValue).

Record NetFlowV9Context := mkContext {
  header : Header;
  sampler_address : option IpAddr;
  sampling_rate : option Z;
}.
Implicit Types (self : NetFlowV9Context).

Definition context_uptime_to_absolute_ns self (uptime_ms : Z) : option Z :=
  uptime_to_absolute_ns self.(header).(h_unix_seconds) self.(header).(h_system_uptime) uptime_ms.

Definition extract_u64 (value : FieldValue) : option Z :=
  match value with
  | FieldValue.Unsigned8 v | FieldValue.Unsigned16 v | FieldValue.Unsigned32 v
  | FieldValue.Unsigned64 v => Some v
  | _ => None
  end.

Definition extract_u8 (value : FieldValue) : option Z := v ← extract_u64 value; try_u 8 v.
Definition extract_u16 (value : FieldValue) : option Z := v ← extract_u64 value; try_u 16 v.
Definition extract_u32 (value : FieldValue) : option Z := v ← extract_u64 value; try_u 32 v.

Definition extract_datetime_ns (value : FieldValue) : option Z :=
  match value with
  | FieldValue.DateTimeSeconds dt | FieldValue.DateTimeMilliseconds dt
  | FieldValue.DateTimeMicroseconds dt | FieldValue.DateTimeNanoseconds dt =>
      timestamp_nanos_opt dt
  | _ => None
  end.

(** An iteration of the loop over a record, past the lookup of the element:
    the flow, and the rate the record states. *)
Definition convert_field self (st : CommonFlow * option Z) (ie : InformationElement)
    (value : FieldValue) : CommonFlow * option Z :=
  let '(flow, record_rate) := st in
  match ie with
  | OctetDeltaCount => (flow<|cf_bytes := default 0 (extract_u64 value)|>, record_rate)
  | PacketDeltaCount => (flow<|cf_packets := default 0 (extract_u64 value)|>, record_rate)
  | ProtocolIdentifier => (flow<|cf_proto := extract_u8 value|>, record_rate)
  | IpClassOfService => (flow<|cf_ip_tos := extract_u8 value|>, record_rate)
  | TcpControlBits => (flow<|cf_tcp_flags := extract_u16 value|>, record_rate)
  | SourceTransportPort => (flow<|cf_src_port := extract_u16 value|>, record_rate)
  | SourceIpv4Address =>
      match value with
      | FieldValue.Ipv4Address addr =>
          (flow<|cf_src_addr := Some (V4 addr)|><|cf_etype := Some 0x0800|>, record_rate)
      | _ => st
      end
  | SourceIpv4PrefixLength => (flow<|cf_src_net := extract_u8 value|>, record_rate)
  | IngressInterface => (flow<|cf_in_if := extract_u32 value|>, record_rate)
  | DestinationTransportPort => (flow<|cf_dst_port := extract_u16 value|>, record_rate)
  | DestinationIpv4Address =>
      match value with
      | FieldValue.Ipv4Address addr => (flow<|cf_dst_addr := Some (V4 addr)|>, record_rate)
      | _ => st
      end
  | DestinationIpv4PrefixLength => (flow<|cf_dst_net := extract_u8 value|>, record_rate)
  | EgressInterface => (flow<|cf_out_if := extract_u32 value|>, record_rate)
  | ForwardingStatus => (flow<|cf_forwarding_status := extract_u32 value|>, record_rate)
  | IpNextHopIpv4Address =>
      match value with
      | FieldValue.Ipv4Address addr => (flow<|cf_next_hop := Some (V4 addr)|>, record_rate)
      | _ => st
      end
  | BgpSourceAsNumber => (flow<|cf_src_as := extract_u32 value|>, record_rate)
  | BgpDestinationAsNumber => (flow<|cf_dst_as := extract_u32 value|>, record_rate)
  | BgpNextHopIpv4Address =>
      match value with
      | FieldValue.Ipv4Address addr => (flow<|cf_bgp_next_hop := Some (V4 addr)|>, record_rate)
      | _ => st
      end
  | FlowStartSysUpTime =>
      (flow<|cf_time_flow_start_ns :=
         v ← extract_u32 value; context_uptime_to_absolute_ns self v|>, record_rate)
  | FlowEndSysUpTime =>
      (flow<|cf_time_flow_end_ns :=
         v ← extract_u32 value; context_uptime_to_absolute_ns self v|>, record_rate)
  | FlowStartSeconds | FlowStartMilliseconds | FlowStartMicroseconds | FlowStartNanoseconds =>
      (flow<|cf_time_flow_start_ns := extract_datetime_ns value|>, record_rate)
  | FlowEndSeconds | FlowEndMilliseconds | FlowEndMicroseconds | FlowEndNanoseconds =>
      (flow<|cf_time_flow_end_ns := extract_datetime_ns value|>, record_rate)
  | SourceIpv6Address =>
      match value with
      | FieldValue.Ipv6Address addr =>
          (flow<|cf_src_addr := Some (V6 addr)|><|cf_etype := Some 0x86dd|>, record_rate)
      | _ => st
      end
  | DestinationIpv6Address =>
      match value with
      | FieldValue.Ipv6Address addr => (flow<|cf_dst_addr := Some (V6 addr)|>, record_rate)
      | _ => st
      end
  | SourceIpv6PrefixLength => (flow<|cf_src_net := extract_u8 value|>, record_rate)
  | DestinationIpv6PrefixLength => (flow<|cf_dst_net := extract_u8 value|>, record_rate)
  | FlowLabelIpv6 => (flow<|cf_ipv6_flow_label := extract_u32 value|>, record_rate)
  | IcmpTypeCodeIpv4 | IcmpTypeCodeIpv6 =>
      match extract_u16 value with
      | Some v =>
          (flow<|cf_icmp_type := Some (wrap 8 (Z.shiftr v 8))|>
               <|cf_icmp_code := Some (wrap 8 (Z.land v 0xff))|>, record_rate)
      | None => st
      end
  | IcmpTypeIpv4 | IcmpTypeIpv6 => (flow<|cf_icmp_type := extract_u8 value|>, record_rate)
  | IcmpCodeIpv4 | IcmpCodeIpv6 => (flow<|cf_icmp_code := extract_u8 value|>, record_rate)
  | SamplingInterval | SamplingPacketInterval | SamplerRandomInterval =>
      (flow, match record_rate with Some _ => record_rate | None => extract_u32 value end)
  | SrcVlan => (flow<|cf_src_vlan := extract_u16 value|>, record_rate)
  | DstVlan => (flow<|cf_dst_vlan := extract_u16 value|>, record_rate)
  | IpNextHopIpv6Address =>
      match value with
      | FieldValue.Ipv6Address addr => (flow<|cf_next_hop := Some (V6 addr)|>, record_rate)
      | _ => st
      end
  | BgpNextHopIpv6Address =>
      match value with
      | FieldValue.Ipv6Address addr => (flow<|cf_bgp_next_hop := Some (V6 addr)|>, record_rate)
      | _ => st
      end
  | MinimumTtl | MaximumTtl => (flow<|cf_ip_ttl := extract_u8 value|>, record_rate)
  | FragmentIdentification => (flow<|cf_fragment_id := extract_u32 value|>, record_rate)
  | SourceMacAddress | PostSourceMacAddress =>
      match value with
      | FieldValue.MacAddress mac => (flow<|cf_src_mac := Some mac|>, record_rate)
      | _ => st
      end
  | DestinationMacAddress | PostDestinationMacAddress =>
      match value with
      | FieldValue.MacAddress mac => (flow<|cf_dst_mac := Some mac|>, record_rate)
      | _ => st
      end
  | _ => st
  end.

Definition convert self (record : DataRecord) (template_id : Z) : CommonFlow :=
  let flow := CommonFlow_new FlowType.NetflowV9 in
  let flow := flow<|cf_sequence_num := self.(header).(h_sequence_number)|>
    <|cf_sampler_address := self.(sampler_address)|>
    <|cf_observation_domain_id := Some self.(header).(h_source_id)|>
    <|cf_template_id := Some template_id|> in
  let '(flow, record_rate) :=
    fold_left (fun st '(field, _, value) =>
      match from_id field.(f_type) with
      | Some ie => convert_field self st ie value
      | None => st
      end) (rec_iter record) (flow, None) in
  flow<|cf_sampling_rate :=
    match record_rate with Some _ => record_rate | None => self.(sampling_rate) end|>.

Definition extract_v9_sampling_rate (record : DataRecord) : option Z :=
  let sampling_interval_id := ie_discriminant SamplingInterval in
  let sampling_packet_interval_id := ie_discriminant SamplingPacketInterval in
  let sampler_random_interval_id := ie_discriminant SamplerRandomInterval in
  match find (fun '(field, _, _) =>
    (field.(f_type) =? sampling_interval_id) || (field.(f_type) =? sampling_packet_interval_id)
    || (field.(f_type) =? sampler_random_interval_id)) (rec_iter record) with
  | Some (_, _, value) => extract_u32 value
  | None => None
  end.

Definition extract_v9_sampler_id (record : DataRecord) : option Z :=
  let sampler_id := ie_discriminant SamplerId in
  match find (fun '(field, _, _) => field.(f_type) =? sampler_id) (rec_iter record) with
  | Some (_, _, value) => extract_u64 value
  | None => None
  end.
End convert.

(** ** What a flow says *)

Section fields.
Context `{CR : Crates}.
Implicit Types (self : NetFlowV9Context) (value : FieldValue).

(** The fields of a record that are elements the converter knows of. *)
Definition elements (record : DataRecord.DataRecord TemplateField FieldValue)
    : list (InformationElement * FieldValue) :=
  omap (fun '(field, _, value) => (fun ie => (ie, value)) <$> from_id field.(f_type))
    (rec_iter record).

Definition reading : Reading FieldValue := {|
  as_u64 := extract_u64;
  as_ipv4 v := match v with FieldValue.Ipv4Address a => Some a | _ => None end;
  as_ipv6 v := match v with FieldValue.Ipv6Address a => Some a | _ => None end;
  as_mac v := match v with FieldValue.MacAddress m => Some m | _ => None end;
|}.

Definition starts self : InformationElement -> FieldValue -> option (option Z) :=
  either (sets [FlowStartSysUpTime] (fun v => as_u reading 32 v ≫= context_uptime_to_absolute_ns self))
         (sets [FlowStartSeconds; FlowStartMilliseconds; FlowStartMicroseconds; FlowStartNanoseconds]
            extract_datetime_ns).

Definition ends self : InformationElement -> FieldValue -> option (option Z) :=
  either (sets [FlowEndSysUpTime] (fun v => as_u reading 32 v ≫= context_uptime_to_absolute_ns self))
         (sets [FlowEndSeconds; FlowEndMilliseconds; FlowEndMicroseconds; FlowEndNanoseconds]
            extract_datetime_ns).

(** The rates a record states, in template order. *)
Definition rates (es : list (InformationElement * FieldValue)) : list Z :=
  omap (fun '(ie, v) =>
    if is_one_of [SamplingInterval; SamplingPacketInterval; SamplerRandomInterval] ie
    then as_u reading 32 v else None) es.

Definition octets : InformationElement -> FieldValue -> option Z :=
  sets [OctetDeltaCount] (fun v => default 0 (extract_u64 v)).
Definition packets : InformationElement -> FieldValue -> option Z :=
  sets [PacketDeltaCount] (fun v => default 0 (extract_u64 v)).

(** What the loop has done to its state after the elements [es]. *)
Definition looped self es (st st' : CommonFlow * option Z) : Prop :=
  says reading (starts self) (ends self) es st.1 st'.1 /\
  said es st.1 st'.1 cf_bytes octets /\ said es st.1 st'.1 cf_packets packets /\
  cf_sampling_rate st'.1 = cf_sampling_rate st.1 /\
  st'.2 = match st.2 with Some r => Some r | None => head (rates es) end.

Lemma icmp_octets v : fits_u 16 v -> wrap 8 (Z.shiftr v 8) = v / 256 /\ wrap 8 (Z.land v 0xff) = v mod 256.
Proof.
  intros Hv. unfold fits_u, wrap in *. rewrite Z.shiftr_div_pow2 by lia.
  change 0xff with (Z.ones 8). rewrite Z.land_ones by lia. change (2 ^ 8) with 256. split; dlia.
Qed.

Lemma extract_u16_fits value v : extract_u16 value = Some v -> fits_u 16 v.
Proof.
  unfold extract_u16. destruct (extract_u64 value) as [u|]; cbn; [|done].
  intros [-> H]%try_u_Some. done.
Qed.

Lemma looped_one self st ie value : looped self [(ie, value)] st (convert_field self st ie value).
Proof.
  destruct st as [flow rate]. unfold looped, says, said, written.
  destruct ie; cbn -[extract_u64 extract_u16 extract_u8 extract_u32];
    try match goal with
    | |- context [match extract_u16 value with _ => _ end] =>
        unfold either, sets_some, as_u; cbn -[extract_u64 extract_u16 extract_u8 extract_u32];
        change (extract_u64 value ≫= try_u 16) with (extract_u16 value);
        destruct (extract_u16 value) as [v|] eqn:E16; cbn;
        [destruct (icmp_octets v (extract_u16_fits _ _ E16)) as [Eh El]; rewrite Eh, El|]
    | |- context [match ?v with _ => _ end] => constr_eq v value; destruct value; cbn
    end; repeat split; destruct rate; try reflexivity;
    change (extract_u64 value ≫= try_u 32) with (extract_u32 value); destruct (extract_u32 value);
    reflexivity.
Qed.

Lemma looped_app self es es' st st' st'' :
  looped self es st st' -> looped self es' st' st'' -> looped self (es ++ es') st st''.
Proof.
  unfold looped, said. intros (H1 & H2 & H3 & H4 & H5) (H1' & H2' & H3' & H4' & H5').
  split_and!; [by eapply says_app|rewrite written_app; congruence..|congruence|].
  rewrite H5', H5. unfold rates. rewrite omap_app. destruct st.2; [done|]. by destruct (omap _ es).
Qed.

Lemma looped_nil self st : looped self [] st st.
Proof. unfold looped, said. repeat split. by destruct st.2. Qed.

Lemma looped_record self record : forall st,
  looped self (elements record) st
    (fold_left (fun st '(field, _, value) =>
       match from_id field.(f_type) with
       | Some ie => convert_field self st ie value
       | None => st
       end) (rec_iter record) st).
Proof.
  unfold elements. induction (rec_iter record) as [|[[field name] value] l IH]; intros st;
    [apply looped_nil|].
  cbn. destruct (from_id (f_type field)) as [ie|]; cbn; [|apply IH].
  apply (looped_app self [(ie, value)] _ _ (convert_field self st ie value)); [apply looped_one|apply IH].
Qed.

(** The flow before the record is looked at. *)
Definition base_flow self (template_id : Z) : CommonFlow :=
  default_flow<|cf_flow_type := FlowType.NetflowV9|><|cf_sequence_num := self.(header).(h_sequence_number)|>
    <|cf_sampler_address := self.(sampler_address)|>
    <|cf_observation_domain_id := Some self.(header).(h_source_id)|>
    <|cf_template_id := Some template_id|>.

Lemma convert_looped self record template_id : exists flow rate,
  convert self record template_id
  = flow<|cf_sampling_rate := match rate with Some r => Some r | None => self.(sampling_rate) end|> /\
  looped self (elements record) (base_flow self template_id, None) (flow, rate).
Proof.
  pose proof (looped_record self record (base_flow self template_id, None)) as H.
  unfold convert, CommonFlow_new. fold (base_flow self template_id). revert H.
  destruct (fold_left _ _ _) as [flow rate]. intros H.
  exists flow, rate. split; [by destruct rate|done].
Qed.

(** What a flow takes from the message it came in. *)
Lemma v9_flow_origin self record template_id :
  let flow := convert self record template_id in
  flow.(cf_flow_type) = FlowType.NetflowV9 /\ flow.(cf_sampler_address) = self.(sampler_address) /\
  flow.(cf_sequence_num) = self.(header).(h_sequence_number) /\
  flow.(cf_observation_domain_id) = Some self.(header).(h_source_id) /\
  flow.(cf_template_id) = Some template_id.
Proof.
  intros flow. subst flow. destruct (convert_looped self record template_id) as (flow & rate & -> & H & _).
  unfold says in H. ands. by split_and!.
Qed.

(** Each flow field holds what the last field of the record that is about it
    says, read at the field's own width, and is unset when none is or the
    value is too wide; the sampling rate is the first the record states, or
    else the exporter's. *)
Theorem v9_flow_fields self record template_id :
  let flow := convert self record template_id in
  let es := elements record in
  says reading (starts self) (ends self) es (base_flow self template_id) flow /\
  flow.(cf_bytes) = written octets 0 es /\ flow.(cf_packets) = written packets 0 es /\
  flow.(cf_sampling_rate)
    = match head (rates es) with Some rate => Some rate | None => self.(sampling_rate) end.
Proof.
  intros flow es. subst flow es.
  destruct (convert_looped self record template_id) as (flow & rate & -> & H).
  destruct H as (H1 & H2 & H3 & H4 & H5).
  cbn in H5. subst rate. split_and!; [exact H1|exact H2|exact H3|]. by destruct (rates _).
Qed.
End fields.
