(* ===== verification/Etherparse.v ===== *)
(** The packet slicer of the [etherparse] crate, as [common/packet.rs] and
    [common/convert/packet.rs] see it: the parts of a sliced packet they read,
    and that slices are pieces of the octets they were made from. *)

From Stdlib Require Import ZArith Lia Strings.Byte.
From stdpp Require Import base tactics numbers list.
From S2P Require Import Prelude.
#[local] Open Scope Z_scope.

(** A contiguous piece of octets: what a Rust slice of them is. *)
Definition slice_of (s b : bytes) : Prop := exists pre post, b = pre ++ s ++ post.

Lemma slice_of_refl b : slice_of b b.
Proof. exists [], []. by rewrite app_nil_r. Qed.

Lemma slice_of_trans a b c : slice_of a b -> slice_of b c -> slice_of a c.
Proof.
  intros (p & q & ->) (p' & q' & ->). exists (p' ++ p), (q ++ q'). by rewrite <- !app_assoc.
Qed.

Lemma slice_of_drop n b : slice_of (drop n b) b.
Proof. exists (take n b), []. by rewrite app_nil_r, take_drop. Qed.

Lemma slice_of_suffix a b : slice_of b (a ++ b).
Proof. exists a, []. by rewrite app_nil_r. Qed.

Record Ethernet2Header := mkEthernet2 {
  eth_source : bytes;
  eth_destination : bytes;
  eth_ether_type : Z;
}.

(** Only an Ethernet II header is looked into. *)
Inductive LinkSlice := Ethernet2 (h : Ethernet2Header) | OtherLink.

Record SingleVlanHeader := mkVlan { vlan_id : Z; vlan_ether_type : Z }.

Inductive VlanHeader := Single (h : SingleVlanHeader) | Double (outer inner : SingleVlanHeader).

Record EtherPayload := mkEtherPayload { ep_ether_type : Z; ep_payload : bytes }.

Record IpPayload := mkIpPayload {
  ip_number : Z;
  ip_fragmented : bool;
  ip_incomplete : bool;
  ip_bytes : bytes;
}.

(** An IPv4 header, with the checksum it should have. *)
Record Ipv4Header := mkIpv4Header {
  v4_source_addr : Z;
  v4_destination_addr : Z;
  v4_protocol : Z;
  v4_dcp : Z;
  v4_ecn : Z;
  v4_ttl : Z;
  v4_identification : Z;
  v4_fragments_offset : Z;
  v4_header_checksum : Z;
  v4_calc_header_checksum : Z;
  v4_total_len : Z;
}.

Record Ipv6Header := mkIpv6Header {
  v6_source_addr : Z;
  v6_destination_addr : Z;
  v6_traffic_class : Z;
  v6_hop_limit : Z;
  v6_flow_label : Z;
  v6_payload_length : Z;
}.

Inductive Ipv6ExtensionSlice := Fragment (fragment_offset : Z) | OtherExtension.

Inductive LaxNetSlice :=
  | Ipv4 (header : Ipv4Header) (payload : IpPayload)
  | Ipv6 (header : Ipv6Header) (extensions : list Ipv6ExtensionSlice) (payload : IpPayload)
  | Arp.

Record TcpSlice := mkTcp {
  tcp_source_port : Z;
  tcp_destination_port : Z;
  tcp_ns : bool; tcp_cwr : bool; tcp_ece : bool; tcp_urg : bool; tcp_ack : bool;
  tcp_psh : bool; tcp_rst : bool; tcp_syn : bool; tcp_fin : bool;
}.

Record UdpSlice := mkUdp {
  udp_source_port : Z;
  udp_destination_port : Z;
  udp_length : Z;
  udp_payload : bytes;
}.

Record IcmpSlice := mkIcmp { type_u8 : Z; code_u8 : Z }.

Inductive TransportSlice :=
  | Tcp (s : TcpSlice)
  | Udp (s : UdpSlice)
  | Icmpv4 (s : IcmpSlice)
  | Icmpv6 (s : IcmpSlice).

Class Etherparse := {
  LaxSlicedPacket : Type;
  from_ethernet : bytes -> option LaxSlicedPacket;
  from_ip : bytes -> option LaxSlicedPacket;
  from_ether_type : Z -> bytes -> LaxSlicedPacket;

  link : LaxSlicedPacket -> option LinkSlice;
  vlan : LaxSlicedPacket -> option VlanHeader;
  net : LaxSlicedPacket -> option LaxNetSlice;
  transport : LaxSlicedPacket -> option TransportSlice;
  ether_payload : LaxSlicedPacket -> option EtherPayload;
  ip_payload : LaxSlicedPacket -> option IpPayload;

  TcpSlice_from_slice : bytes -> option TcpSlice;
  UdpSlice_from_slice_lax : bytes -> option UdpSlice;
  Icmpv4Slice_from_slice : bytes -> option IcmpSlice;
  Icmpv6Slice_from_slice : bytes -> option IcmpSlice;

  (* the octets a packet was sliced from *)
  sliced_from : LaxSlicedPacket -> bytes;
  from_ethernet_law : forall b s, from_ethernet b = Some s -> sliced_from s = b;
  from_ip_law : forall b s, from_ip b = Some s -> sliced_from s = b;
  from_ether_type_law : forall t b, sliced_from (from_ether_type t b) = b;
  ether_payload_law : forall s p, ether_payload s = Some p -> slice_of p.(ep_payload) (sliced_from s);
  ip_payload_law : forall s p, ip_payload s = Some p -> slice_of p.(ip_bytes) (sliced_from s);
  udp_payload_law : forall s u,
    transport s = Some (Udp u) -> slice_of u.(udp_payload) (sliced_from s);
  (* the payload of a packet is that of its network layer *)
  net_payload_law : forall s,
    match net s with
    | Some (Ipv4 _ p) | Some (Ipv6 _ _ p) => ip_payload s = Some p
    | _ => True
    end;
  (* a packet sliced from its IP header has no link layer, a frame has *)
  from_ethernet_link : forall b s, from_ethernet b = Some s -> is_Some (link s);
  from_ip_link : forall b s, from_ip b = Some s -> link s = None;
}.
