(* ===== verification/Packet.v ===== *)
(** [common/packet.rs]: the headers inside a sampled packet, through tunnels,
    and the UDP payload of a captured one. *)

From Stdlib Require Import ZArith Lia Strings.Byte.
From stdpp Require Import base tactics numbers list sets.
From S2P Require Import Prelude Std Etherparse.
#[local] Open Scope Z_scope.

Definition MAX_TUNNEL_DEPTH : nat := 4.

Definition MPLS_UNICAST : Z := 0x8847.
Definition MPLS_MULTICAST : Z := 0x8848.
Definition TRANSPARENT_ETHERNET_BRIDGING : Z := 0x6558.
Definition ERSPAN_I_II : Z := 0x88be.
Definition ERSPAN_III : Z := 0x22eb.
Definition UDP_PORT_VXLAN : Z := 4789.
Definition UDP_PORT_GENEVE : Z := 6081.
Definition LINUX_SLL_HEADER_LEN : Z := 16.
Definition LINUX_SLL2_HEADER_LEN : Z := 20.

(** Constants of the crate: [EtherType::IPV4], [IpNumber::GRE] and so on. *)
Definition EtherType_IPV4 : Z := 0x0800.
Definition EtherType_IPV6 : Z := 0x86dd.
Definition IpNumber_ICMP : Z := 1.
Definition IpNumber_TCP : Z := 6.
Definition IpNumber_UDP : Z := 17.
Definition IpNumber_GRE : Z := 47.
Definition IpNumber_IPV6_ICMP : Z := 58.

(** [bytes.get(n..)] *)
Definition get_from (n : Z) (b : bytes) : option bytes :=
  if n <=? zlen b then Some (drop (Z.to_nat n) b) else None.

(** [x & mask != 0] *)
Definition has (x mask : Z) : bool := negb (Z.land x mask =? 0).

Inductive Inner := InnerEthernet (frame : bytes) | InnerIp (bytes : bytes).

Inductive LinkType := LinkEthernet | LinuxSll | LinuxSll2 | RawIp.

Definition from_pcap (link_type : Z) : option LinkType :=
  if link_type =? 1 then Some LinkEthernet
  else if link_type =? 113 then Some LinuxSll
  else if link_type =? 276 then Some LinuxSll2
  else if existsb (Z.eqb link_type) [12; 14; 101; 228; 229] then Some RawIp
  else None.

Section packet.
Context `{EP : Etherparse}.

Record Peeled := mkPeeled { p_link : option LaxSlicedPacket; p_packet : LaxSlicedPacket }.

Definition is_mpls (ether_type : Z) : bool :=
  (ether_type =? MPLS_UNICAST) || (ether_type =? MPLS_MULTICAST).

Definition ipv6_fragment_offset (extensions : list Ipv6ExtensionSlice) : Z :=
  default 0 (head (omap (fun ext =>
    match ext with Fragment offset => Some offset | OtherExtension => None end) extensions)).

Definition first_fragment_transport (sliced : LaxSlicedPacket) : option TransportSlice :=
  let payload :=
    match net sliced with
    | Some (Ipv4 header payload) =>
        if header.(v4_fragments_offset) =? 0 then Some payload else None
    | Some (Ipv6 _ extensions payload) =>
        if ipv6_fragment_offset extensions =? 0 then Some payload else None
    | _ => None
    end in
  payload ← payload;
  if negb payload.(ip_fragmented) then None
  else
    let bytes := payload.(ip_bytes) in
    let n := payload.(ip_number) in
    if n =? IpNumber_TCP then Tcp <$> TcpSlice_from_slice bytes
    else if n =? IpNumber_UDP then Udp <$> UdpSlice_from_slice_lax bytes
    else if n =? IpNumber_ICMP then Icmpv4 <$> Icmpv4Slice_from_slice bytes
    else if n =? IpNumber_IPV6_ICMP then Icmpv6 <$> Icmpv6Slice_from_slice bytes
    else None.

Definition is_complete (sliced : LaxSlicedPacket) : bool :=
  match ip_payload sliced with
  | None => true
  | Some payload =>
      if payload.(ip_incomplete) || payload.(ip_fragmented) then false
      else
        match transport sliced with
        | Some (Udp udp) => zlen udp.(udp_payload) + 8 =? udp.(udp_length)
        | _ => true
        end
  end.

Definition plausible (inner : Inner) : bool :=
  match inner with
  | InnerIp bytes =>
      match from_ip bytes with
      | None => false
      | Some s =>
          match net s with
          | Some (Ipv4 header _) => header.(v4_calc_header_checksum) =? header.(v4_header_checksum)
          | Some (Ipv6 _ _ _) => true
          | _ => false
          end
      end
  | InnerEthernet frame =>
      match from_ethernet frame with
      | None => false
      | Some s =>
          match net s with Some _ => true | None => false end
          || match ether_payload s with Some p => is_mpls p.(ep_ether_type) | None => false end
      end
  end.

(** The loop of [mpls_inner] over the label stack. *)
Fixpoint skip_labels (bytes : bytes) : option Prelude.bytes :=
  match bytes with
  | _ :: _ :: label2 :: _ :: rest => if has (u8_of label2) 0x01 then Some rest else skip_labels rest
  | _ => None
  end.

Definition mpls_inner (bytes : bytes) : option Inner :=
  bytes ← skip_labels bytes;
  first ← head bytes;
  let readings :=
    match Z.shiftr (u8_of first) 4 with
    | 4 | 6 => [Some (InnerIp bytes); Some (InnerEthernet bytes)]
    | 0 => [InnerEthernet <$> get_from 4 bytes; Some (InnerEthernet bytes)]
    | _ => [Some (InnerEthernet bytes); None]
    end in
  find plausible (omap id readings).

Definition gre_inner (bytes : bytes) : option Inner :=
  match bytes with
  | f0 :: f1 :: f2 :: f3 :: _ =>
      let flags := be_value [f0; f1] in
      let protocol := be_value [f2; f3] in
      if has flags 0x0007 || has flags 0x4000 then None
      else
        let offset := 4 in
        let offset := if has flags 0x8000 then offset + 4 else offset in
        let offset := if has flags 0x2000 then offset + 4 else offset in
        let has_sequence := has flags 0x1000 in
        let offset := if has_sequence then offset + 4 else offset in
        payload ← get_from offset bytes;
        if (protocol =? EtherType_IPV4) || (protocol =? EtherType_IPV6) then Some (InnerIp payload)
        else if protocol =? TRANSPARENT_ETHERNET_BRIDGING then Some (InnerEthernet payload)
        else if is_mpls protocol then mpls_inner payload
        else if protocol =? ERSPAN_I_II then
          if has_sequence then InnerEthernet <$> get_from 8 payload else Some (InnerEthernet payload)
        else if protocol =? ERSPAN_III then
          match payload !! 11%nat with
          | None => None
          | Some o =>
              let skip := if has (u8_of o) 0x01 then 20 else 12 in
              InnerEthernet <$> get_from skip payload
          end
        else None
  | _ => None
  end.

Definition vxlan_inner (payload : bytes) : option Inner :=
  match payload with
  | h0 :: _ :: _ :: _ :: _ :: _ :: _ :: _ :: frame =>
      if has (u8_of h0) 0x08 then Some (InnerEthernet frame) else None
  | _ => None
  end.

Definition geneve_inner (payload : bytes) : option Inner :=
  match payload with
  | h0 :: _ :: h2 :: h3 :: _ :: _ :: _ :: _ :: _ =>
      if negb (Z.shiftr (u8_of h0) 6 =? 0) then None
      else
        let options_len := Z.land (u8_of h0) 0x3f * 4 in
        let protocol := be_value [h2; h3] in
        inner ← get_from (8 + options_len) payload;
        if protocol =? TRANSPARENT_ETHERNET_BRIDGING then Some (InnerEthernet inner)
        else if (protocol =? EtherType_IPV4) || (protocol =? EtherType_IPV6) then Some (InnerIp inner)
        else None
  | _ => None
  end.

(** [encapsulated] past the check for a label stack. *)
Definition encapsulated_ip (sliced : LaxSlicedPacket) : option Inner :=
  ip_payload ← ip_payload sliced;
  if ip_payload.(ip_fragmented) then None
  else if ip_payload.(ip_number) =? IpNumber_GRE then gre_inner ip_payload.(ip_bytes)
  else
    match transport sliced with
    | Some (Udp udp) =>
        if udp.(udp_destination_port) =? UDP_PORT_VXLAN then vxlan_inner udp.(udp_payload)
        else if udp.(udp_destination_port) =? UDP_PORT_GENEVE then geneve_inner udp.(udp_payload)
        else None
    | _ => None
    end.

Definition encapsulated (sliced : LaxSlicedPacket) : option Inner :=
  match ether_payload sliced with
  | Some payload =>
      if is_mpls payload.(ep_ether_type) then mpls_inner payload.(ep_payload)
      else encapsulated_ip sliced
  | None => encapsulated_ip sliced
  end.

(** The [for] loop of [peel_with], with [depth] iterations left. *)
Fixpoint peel_loop (depth : nat) (require_complete : bool) (l : option LaxSlicedPacket)
    (packet : LaxSlicedPacket) : Peeled :=
  match depth with
  | O => mkPeeled l packet
  | S depth =>
      if require_complete && negb (is_complete packet) then mkPeeled l packet
      else
        match encapsulated packet with
        | Some (InnerEthernet frame) =>
            match from_ethernet frame with
            | Some inner => peel_loop depth require_complete None inner
            | None => mkPeeled l packet
            end
        | Some (InnerIp bytes) =>
            match from_ip bytes with
            | Some inner =>
                let l :=
                  match l, link packet with
                  | None, Some _ => Some packet
                  | _, _ => l
                  end in
                peel_loop depth require_complete l inner
            | None => mkPeeled l packet
            end
        | None => mkPeeled l packet
        end
  end.

Definition peel_with (sliced : LaxSlicedPacket) (require_complete : bool) : Peeled :=
  peel_loop MAX_TUNNEL_DEPTH require_complete None sliced.

Definition peel (sliced : LaxSlicedPacket) : Peeled := peel_with sliced false.

Definition peel_strict (sliced : LaxSlicedPacket) : Peeled := peel_with sliced true.

Definition peel_ethernet (frame : bytes) : option Peeled := peel <$> from_ethernet frame.

Definition peel_ip (packet : bytes) : option Peeled := peel <$> from_ip packet.

(** The slicing of a captured frame, by its link type. *)
Definition slice_frame (link_type : LinkType) (frame : bytes) : option LaxSlicedPacket :=
  match link_type with
  | LinkEthernet => from_ethernet frame
  | LinuxSll =>
      if LINUX_SLL_HEADER_LEN <=? zlen frame then
        let header := take (Z.to_nat LINUX_SLL_HEADER_LEN) frame in
        let payload := drop (Z.to_nat LINUX_SLL_HEADER_LEN) frame in
        Some (from_ether_type (be_value (drop 14 header)) payload)
      else None
  | LinuxSll2 =>
      if LINUX_SLL2_HEADER_LEN <=? zlen frame then
        let header := take (Z.to_nat LINUX_SLL2_HEADER_LEN) frame in
        let payload := drop (Z.to_nat LINUX_SLL2_HEADER_LEN) frame in
        Some (from_ether_type (be_value (take 2 header)) payload)
      else None
  | RawIp => from_ip frame
  end.

Definition parse_udp_packet (link_type : Z) (frame : bytes) : option (IpAddr * bytes) :=
  link_type ← from_pcap link_type;
  sliced ← slice_frame link_type frame;
  let packet := (peel_strict sliced).(p_packet) in
  if negb (is_complete packet) then None
  else
    let source_ip :=
      match net packet with
      | Some (Ipv4 header _) => Some (V4 header.(v4_source_addr))
      | Some (Ipv6 header _ _) => Some (V6 header.(v6_source_addr))
      | _ => None
      end in
    source_ip ← source_ip;
    match transport packet with
    | Some (Udp udp) => Some (source_ip, udp.(udp_payload))
    | _ => None
    end.
End packet.

(** ** What tunnels carry *)

Section tunnels.
Context `{EP : Etherparse}.

Definition inner_bytes (i : Inner) : bytes :=
  match i with InnerEthernet b | InnerIp b => b end.

Lemma get_from_app n a b : zlen a = n -> get_from n (a ++ b) = Some b.
Proof.
  intros <-. unfold get_from. rewrite zlen_app. pose proof (zlen_nonneg b).
  destruct (Z.leb_spec (zlen a) (zlen a + zlen b)); [|lia].
  unfold zlen. by rewrite Nat2Z.id, drop_app_length.
Qed.

Lemma get_from_slice n b s : get_from n b = Some s -> slice_of s b.
Proof. unfold get_from. destruct (_ <=? _); [|done]. intros [= <-]. apply slice_of_drop. Qed.

Lemma skip_labels_slice b s : skip_labels b = Some s -> slice_of s b.
Proof.
  induction b as [b IH] using (induction_ltof1 _ (@length byte)). unfold ltof in IH.
  destruct b as [|b0 [|b1 [|b2 [|b3 b]]]]; cbn [skip_labels]; try done.
  assert (Hb : slice_of b (b0 :: b1 :: b2 :: b3 :: b)) by apply (slice_of_drop 4 (b0 :: b1 :: b2 :: b3 :: b)).
  destruct (has _ _).
  - intros [= <-]. done.
  - intros H. eapply slice_of_trans; [apply (IH b); [cbn; lia|done]|done].
Qed.

Lemma mpls_inner_slice b i : mpls_inner b = Some i -> slice_of (inner_bytes i) b.
Proof.
  unfold mpls_inner. destruct (skip_labels b) as [b'|] eqn:E; cbn; [|done].
  destruct (head b') as [f|]; cbn; [|done]. intros H.
  apply skip_labels_slice in E. apply find_some in H as [Hin _].
  eapply slice_of_trans; [|exact E]. apply list_elem_of_In in Hin.
  assert (Hg : forall x, InnerEthernet <$> get_from 4 b' = Some x -> slice_of (inner_bytes x) b').
  { intros x. destruct (get_from 4 b') as [g|] eqn:Eg; cbn; [|done]. intros [= <-].
    by apply get_from_slice in Eg. }
  apply list_elem_of_omap in Hin as (r & Hr & Er). cbn in Er. subst r.
  repeat case_match; set_unfold in Hr; repeat destruct Hr as [Hr|Hr]; simplify_eq;
    first [apply slice_of_refl | by apply Hg].
Qed.

Lemma gre_inner_slice b i : gre_inner b = Some i -> slice_of (inner_bytes i) b.
Proof.
  unfold gre_inner. destruct b as [|f0 [|f1 [|f2 [|f3 b]]]]; try done.
  set (whole := f0 :: f1 :: f2 :: f3 :: b). case_match; [done|]. cbv zeta.
  destruct (get_from _ whole) as [p|] eqn:Ep; cbn; [|done]. apply get_from_slice in Ep.
  assert (Hg : forall n x, InnerEthernet <$> get_from n p = Some x -> slice_of (inner_bytes x) whole).
  { intros n x. destruct (get_from n p) as [g|] eqn:Eg; cbn; [|done]. intros [= <-].
    apply get_from_slice in Eg. by eapply slice_of_trans. }
  repeat case_match; intros Hi; simplify_eq; first [done | by eapply Hg | idtac].
  apply mpls_inner_slice in Hi. by eapply slice_of_trans.
Qed.

Lemma vxlan_inner_slice b i : vxlan_inner b = Some i -> slice_of (inner_bytes i) b.
Proof.
  unfold vxlan_inner. do 8 (destruct b as [|? b]; [done|]). destruct (has _ _); [|done].
  intros [= <-]. apply (slice_of_drop 8 (_ :: _ :: _ :: _ :: _ :: _ :: _ :: _ :: b)).
Qed.

Lemma geneve_inner_slice b i : geneve_inner b = Some i -> slice_of (inner_bytes i) b.
Proof.
  unfold geneve_inner. do 8 (destruct b as [|? b]; [done|]). destruct (negb _); [done|].
  destruct (get_from _ _) as [p|] eqn:Ep; cbn; [|done]. apply get_from_slice in Ep.
  repeat case_match; intros Hi; by simplify_eq.
Qed.

Lemma encapsulated_slice p i : encapsulated p = Some i -> slice_of (inner_bytes i) (sliced_from p).
Proof.
  assert (Hip : encapsulated_ip p = Some i -> slice_of (inner_bytes i) (sliced_from p)).
  { unfold encapsulated_ip. destruct (ip_payload p) as [ip|] eqn:Ei; cbn; [|done].
    apply ip_payload_law in Ei. repeat case_match; try done; intros Hi.
    - apply gre_inner_slice in Hi. by eapply slice_of_trans.
    - eapply slice_of_trans; [by apply vxlan_inner_slice|by apply udp_payload_law].
    - eapply slice_of_trans; [by apply geneve_inner_slice|by apply udp_payload_law]. }
  unfold encapsulated. destruct (ether_payload p) as [e|] eqn:Ee; [|done].
  apply ether_payload_law in Ee. destruct (is_mpls _); [|done].
  intros H%mpls_inner_slice. by eapply slice_of_trans.
Qed.

(** [p] carries [q]. *)
Definition carries (p q : LaxSlicedPacket) : Prop :=
  match encapsulated p with
  | Some (InnerEthernet frame) => from_ethernet frame = Some q
  | Some (InnerIp bytes) => from_ip bytes = Some q
  | None => False
  end.

Lemma carries_slice p q : carries p q -> slice_of (sliced_from q) (sliced_from p).
Proof.
  unfold carries. destruct (encapsulated p) as [i|] eqn:E; [|done]. apply encapsulated_slice in E.
  destruct i; intros H; [apply from_ethernet_law in H|apply from_ip_law in H]; by subst.
Qed.

(** Each packet carries the next; [q] is the last. *)
Fixpoint nested (ps : list LaxSlicedPacket) (q : LaxSlicedPacket) : Prop :=
  match ps with
  | [] => True
  | p :: ps => carries p (default q (head ps)) /\ nested ps q
  end.

Lemma nested_snoc ps p q : nested ps p -> carries p q -> nested (ps ++ [p]) q.
Proof.
  induction ps as [|p0 ps IH]; cbn; [done|]. intros [H1 H2] Hq. split; [|by apply IH].
  by destruct ps.
Qed.

Lemma nested_slice ps q : nested ps q -> slice_of (sliced_from q) (sliced_from (default q (head ps))).
Proof.
  induction ps as [|p ps IH]; cbn; intros H; [apply slice_of_refl|]. destruct H as [H1 H2].
  eapply slice_of_trans; [by apply IH|by apply carries_slice].
Qed.

Definition has_link (p : LaxSlicedPacket) : bool := bool_decide (is_Some (link p)).

(** The nearest enclosing packet with a link header, for a packet without. *)
Definition enclosing_link (ps : list LaxSlicedPacket) (q : LaxSlicedPacket) : option LaxSlicedPacket :=
  if has_link q then None else find has_link (rev ps).

Lemma enclosing_link_frame ps p q :
  is_Some (link q) -> enclosing_link (ps ++ [p]) q = None.
Proof. intros H. unfold enclosing_link, has_link. by rewrite bool_decide_true. Qed.

Lemma enclosing_link_ip ps p q :
  link q = None ->
  enclosing_link (ps ++ [p]) q
  = match enclosing_link ps p, link p with None, Some _ => Some p | l, _ => l end.
Proof.
  intros H. unfold enclosing_link, has_link. rewrite H, rev_app_distr. cbn.
  case_bool_decide as Hp; [by destruct Hp as [x ->]|]. apply eq_None_not_Some in Hp.
  rewrite Hp. by destruct (find _ _).
Qed.

(** What [peel_loop] ends with, [n] layers at most. *)
Definition peeled_to (n : nat) (strict : bool) (sliced : LaxSlicedPacket)
    (ps : list LaxSlicedPacket) (r : Peeled) : Prop :=
  nested ps r.(p_packet) /\ default r.(p_packet) (head ps) = sliced /\ (length ps <= n)%nat /\
  r.(p_link) = enclosing_link ps r.(p_packet) /\
  (strict = true -> Forall (fun p => is_complete p = true) ps) /\
  (length ps = n \/ (strict = true /\ is_complete r.(p_packet) = false) \/
   forall q, ~ carries r.(p_packet) q).

Lemma peel_loop_spec sliced strict n : forall depth l packet ps,
  nested ps packet -> default packet (head ps) = sliced -> (length ps + depth = n)%nat ->
  l = enclosing_link ps packet -> (strict = true -> Forall (fun p => is_complete p = true) ps) ->
  exists ps', peeled_to n strict sliced ps' (peel_loop depth strict l packet).
Proof.
  induction depth as [|depth IH]; intros l packet ps Hn Hh Hd Hl Hc; cbn [peel_loop].
  { exists ps. unfold peeled_to. cbn. split_and!; auto; lia. }
  assert (Hstop : (strict = true /\ is_complete packet = false) \/ (forall q, ~ carries packet q) ->
    exists ps', peeled_to n strict sliced ps' (mkPeeled l packet)).
  { intros H. exists ps. unfold peeled_to. cbn. split_and!; auto; lia. }
  destruct (strict && negb (is_complete packet)) eqn:Es.
  { apply andb_true_iff in Es as [-> Es%negb_true_iff]. apply Hstop. auto. }
  assert (Hstep : forall inner l', carries packet inner ->
    l' = enclosing_link (ps ++ [packet]) inner ->
    exists ps', peeled_to n strict sliced ps' (peel_loop depth strict l' inner)).
  { intros inner l' Hi El. apply (IH l' inner (ps ++ [packet])); [by apply nested_snoc| |rewrite length_app; cbn; lia|done|].
    - by destruct ps.
    - intros Et. rewrite Forall_app. split; [by apply Hc|]. subst strict.
      constructor; [by destruct (is_complete packet)|constructor]. }
  destruct (encapsulated packet) as [[f|b]|] eqn:Ee.
  - destruct (from_ethernet f) as [inner|] eqn:Ef.
    + apply Hstep; [unfold carries; by rewrite Ee|]. symmetry.
      apply enclosing_link_frame. by eapply from_ethernet_link.
    + apply Hstop. right. intros q. unfold carries. rewrite Ee. congruence.
  - destruct (from_ip b) as [inner|] eqn:Ef.
    + apply Hstep; [unfold carries; by rewrite Ee|]. subst l.
      rewrite enclosing_link_ip by (by eapply from_ip_link).
      destruct (enclosing_link ps packet); [done|]. by destruct (link packet).
    + apply Hstop. right. intros q. unfold carries. rewrite Ee. congruence.
  - apply Hstop. right. intros q. unfold carries. rewrite Ee. by intros [].
Qed.

(** C30: Peeling goes from a packet to one it carries, four layers at most, and
    stops only at that depth, at a packet that carries none that can be
    sliced, or (strictly) at one that is not whole, so that every packet
    strict peeling went through was whole.  The packet kept for its link
    layer is the nearest enclosing one that has one, if the last has none. *)
Theorem peel_with_spec sliced strict :
  exists ps, peeled_to MAX_TUNNEL_DEPTH strict sliced ps (peel_with sliced strict).
Proof.
  unfold peel_with. apply (peel_loop_spec sliced strict _ _ _ _ []); try done.
  unfold enclosing_link. by destruct (has_link _).
Qed.

Lemma slice_frame_slice lt frame s :
  slice_frame lt frame = Some s -> slice_of (sliced_from s) frame.
Proof.
  unfold slice_frame. destruct lt.
  - intros ->%from_ethernet_law. apply slice_of_refl.
  - case_match; [|done]. intros [= <-]. rewrite from_ether_type_law. apply slice_of_drop.
  - case_match; [|done]. intros [= <-]. rewrite from_ether_type_law. apply slice_of_drop.
  - intros ->%from_ip_law. apply slice_of_refl.
Qed.

(** A captured frame gives a datagram only out of whole packets: some packet
    at most four layers deep in it, every packet around it being complete,
    is complete itself and no fragment, has the given source address, and
    its UDP payload, of the length the UDP header says, is what is returned:
    a piece of the frame. *)
Theorem parse_udp_packet_whole link_type frame ip payload :
  parse_udp_packet link_type frame = Some (ip, payload) ->
  slice_of payload frame /\
  exists lt outer ps q udp ip_part,
    from_pcap link_type = Some lt /\ slice_frame lt frame = Some outer /\
    nested ps q /\ default q (head ps) = outer /\ (length ps <= MAX_TUNNEL_DEPTH)%nat /\
    Forall (fun p => is_complete p = true) (ps ++ [q]) /\
    transport q = Some (Udp udp) /\ payload = udp.(udp_payload) /\
    zlen payload + 8 = udp.(udp_length) /\
    ip_payload q = Some ip_part /\ ip_part.(ip_fragmented) = false /\ ip_part.(ip_incomplete) = false /\
    ((exists h, net q = Some (Ipv4 h ip_part) /\ ip = V4 h.(v4_source_addr)) \/
     (exists h e, net q = Some (Ipv6 h e ip_part) /\ ip = V6 h.(v6_source_addr))).
Proof.
  unfold parse_udp_packet. destruct (from_pcap link_type) as [lt|] eqn:El; cbn [mbind option_bind]; [|done].
  destruct (slice_frame lt frame) as [outer|] eqn:Ef; cbn [mbind option_bind]; [|done].
  assert (Hp : exists ps, peeled_to MAX_TUNNEL_DEPTH true outer ps (peel_strict outer)).
  { unfold peel_strict, peel_with. apply (peel_loop_spec outer true _ _ _ _ []); try done.
    unfold enclosing_link. by destruct (has_link _). }
  destruct Hp as (ps & Hn & Hh & Hlen & _ & Hc & _). cbv zeta.
  revert Hn Hh Hc. generalize (p_packet (peel_strict outer)). intros q Hn Hh Hc.
  destruct (is_complete q) eqn:Eq; cbn; [|done]. intros H.
  pose proof (net_payload_law q) as Hnet.
  assert (exists udp, transport q = Some (Udp udp) /\ payload = udp_payload udp) as (udp & Et & ->).
  { repeat (case_match; cbn in *; simplify_eq); eauto. }
  assert (exists ip_part, ip_payload q = Some ip_part /\
    ((exists h, net q = Some (Ipv4 h ip_part) /\ ip = V4 h.(v4_source_addr)) \/
     (exists h e, net q = Some (Ipv6 h e ip_part) /\ ip = V6 h.(v6_source_addr)))) as (part & Ep & Hip).
  { rewrite Et in H. destruct (net q) as [[]|]; cbn in H; simplify_eq; eauto 7. }
  pose proof Eq as Hw. unfold is_complete in Hw. rewrite Ep, Et in Hw.
  destruct (ip_incomplete part) eqn:Ei; [done|]. destruct (ip_fragmented part) eqn:Eg; [done|].
  cbn in Hw. apply Z.eqb_eq in Hw. split.
  - eapply slice_of_trans; [by eapply udp_payload_law|].
    eapply slice_of_trans; [by apply nested_slice|]. rewrite Hh. by eapply slice_frame_slice.
  - exists lt, outer, ps, q, udp, part. split_and!; try done.
    rewrite Forall_app. auto.
Qed.
End tunnels.

(** ** Tunnel headers, as their RFCs write them *)

Section headers.
Context `{EP : Etherparse}.

(** A GRE header without its optional words: checksum, key and sequence
    number announced by the flags. *)
Definition gre_flags (c k s : bool) : Z :=
  (if c then 0x8000 else 0) + (if k then 0x2000 else 0) + (if s then 0x1000 else 0).
Definition gre_fixed (c k s : bool) (protocol : Z) : bytes :=
  be_bytes 2 (gre_flags c k s) ++ be_bytes 2 protocol.
Definition gre_options_len (c k s : bool) : Z := 4 * (Z.b2z c + Z.b2z k + Z.b2z s).

Lemma two_octets v : fits_u 16 v -> exists a b, be_bytes 2 v = [a; b] /\ be_value [a; b] = v.
Proof.
  intros Hv. pose proof (length_be_bytes 2 v) as Hl. pose proof (be_value_be_bytes 2 v) as Hb.
  destruct (be_bytes 2 v) as [|a [|b [|]]]; try discriminate. exists a, b. split; [done|].
  rewrite Hb. by apply Z.mod_small.
Qed.

(** A GRE header lets its payload through at the offset its flags say. *)
Lemma gre_inner_header c k s protocol opts payload :
  fits_u 16 protocol -> zlen opts = gre_options_len c k s ->
  gre_inner (gre_fixed c k s protocol ++ opts ++ payload)
  = if (protocol =? EtherType_IPV4) || (protocol =? EtherType_IPV6) then Some (InnerIp payload)
    else if protocol =? TRANSPARENT_ETHERNET_BRIDGING then Some (InnerEthernet payload)
    else if is_mpls protocol then mpls_inner payload
    else if protocol =? ERSPAN_I_II then
      if s then InnerEthernet <$> get_from 8 payload else Some (InnerEthernet payload)
    else if protocol =? ERSPAN_III then
      match payload !! 11%nat with
      | None => None
      | Some o => InnerEthernet <$> get_from (if has (u8_of o) 0x01 then 20 else 12) payload
      end
    else None.
Proof.
  intros Hp Ho. unfold gre_fixed.
  destruct (two_octets (gre_flags c k s)) as (f0 & f1 & Ef & Hf); [by destruct c, k, s|].
  destruct (two_octets protocol Hp) as (f2 & f3 & Ep & Hv).
  rewrite Ef, Ep. cbn [app gre_inner]. rewrite Hf, Hv.
  assert (E : get_from (4 + gre_options_len c k s) (f0 :: f1 :: f2 :: f3 :: opts ++ payload) = Some payload).
  { apply (get_from_app _ (f0 :: f1 :: f2 :: f3 :: opts)). rewrite <- Ho. unfold zlen. cbn. lia. }
  replace (has (gre_flags c k s) 0x0007 || has (gre_flags c k s) 0x4000) with false
    by by destruct c, k, s.
  replace (has (gre_flags c k s) 0x1000) with s by by destruct c, k, s.
  match goal with |- context [get_from ?n (f0 :: _)] =>
    replace n with (4 + gre_options_len c k s) by by destruct c, k, s
  end.
  by rewrite E.
Qed.

(** A label stack entry, and whether it is the last. *)
Definition label (bottom : bool) (l : bytes) : Prop :=
  exists a b c d, l = [a; b; c; d] /\ has (u8_of c) 0x01 = bottom.

Lemma skip_labels_stack labels bottom rest :
  Forall (label false) labels -> label true bottom ->
  skip_labels (concat labels ++ bottom ++ rest) = Some rest.
Proof.
  intros Hl (a & b & c & d & -> & Hb). induction Hl as [|l labels Hl _ IH]; cbn [concat app skip_labels].
  - by rewrite Hb.
  - destruct Hl as (a' & b' & c' & d' & -> & Hb'). cbn [app skip_labels]. by rewrite Hb'.
Qed.

Lemma mpls_inner_stack labels bottom rest :
  Forall (label false) labels -> label true bottom ->
  let inner := mpls_inner (concat labels ++ bottom ++ rest) in
  (forall i, inner = Some i -> plausible i = true /\
     (i = InnerIp rest \/ i = InnerEthernet rest \/ i = InnerEthernet (drop 4 rest))) /\
  (forall f, head rest = Some f -> u8_of f / 16 = 4 \/ u8_of f / 16 = 6 ->
     plausible (InnerIp rest) = true -> inner = Some (InnerIp rest)).
Proof.
  intros Hl Hb. cbv zeta. unfold mpls_inner. rewrite skip_labels_stack by done. cbn [mbind option_bind].
  destruct (head rest) as [f|]; cbn [mbind option_bind]; [|by split].
  split.
  - intros i H. apply find_some in H as [Hin Hp]. split; [done|].
    apply list_elem_of_In, list_elem_of_omap in Hin as (r & Hr & Er). cbn in Er. subst r.
    unfold get_from in Hr.
    repeat case_match; set_unfold in Hr; repeat destruct Hr as [Hr|Hr]; cbn in Hr;
      simplify_eq; first [by left | by right; left | by right; right].
  - intros g [= <-] Hn Hp. rewrite Z.shiftr_div_pow2 by lia. change (2 ^ 4) with 16.
    destruct Hn as [-> | ->]; cbn -[plausible]; by rewrite Hp.
Qed.

Lemma has_bit3 b : has (u8_of b) 0x08 = Z.testbit (u8_of b) 3.
Proof. by destruct b. Qed.

(** The tunnels recognised carry what their headers say, at the offset they
    say: GRE with any of its optional words, the ERSPAN headers behind it,
    VXLAN with its VNI flag set, Geneve with up to 63 words of options; and an
    MPLS label stack carries a reading of what follows it that slices, IP
    before Ethernet when it starts like IP. *)
Theorem tunnel_headers :
  (forall c k s protocol opts payload, zlen opts = gre_options_len c k s ->
    let packet := gre_fixed c k s protocol ++ opts ++ payload in
    (protocol = EtherType_IPV4 \/ protocol = EtherType_IPV6 ->
      gre_inner packet = Some (InnerIp payload)) /\
    (protocol = TRANSPARENT_ETHERNET_BRIDGING -> gre_inner packet = Some (InnerEthernet payload)) /\
    (protocol = MPLS_UNICAST \/ protocol = MPLS_MULTICAST -> gre_inner packet = mpls_inner payload) /\
    (protocol = ERSPAN_I_II -> s = false -> gre_inner packet = Some (InnerEthernet payload)) /\
    (forall header frame, protocol = ERSPAN_I_II -> s = true -> payload = header ++ frame ->
      zlen header = 8 -> gre_inner packet = Some (InnerEthernet frame)) /\
    (forall header o platform frame, protocol = ERSPAN_III -> payload = header ++ o :: platform ++ frame ->
      zlen header = 11 -> zlen platform = (if has (u8_of o) 0x01 then 8 else 0) ->
      gre_inner packet = Some (InnerEthernet frame))) /\
  (forall h0 header frame, zlen header = 7 ->
    vxlan_inner (h0 :: header ++ frame)
    = if Z.testbit (u8_of h0) 3 then Some (InnerEthernet frame) else None) /\
  (forall n flags protocol vni options inner, 0 <= n < 64 -> zlen vni = 4 -> zlen options = 4 * n ->
    let packet := byte_of n :: flags :: be_bytes 2 protocol ++ vni ++ options ++ inner in
    (protocol = EtherType_IPV4 \/ protocol = EtherType_IPV6 ->
      geneve_inner packet = Some (InnerIp inner)) /\
    (protocol = TRANSPARENT_ETHERNET_BRIDGING -> geneve_inner packet = Some (InnerEthernet inner))) /\
  (forall labels bottom rest, Forall (label false) labels -> label true bottom ->
    let inner := mpls_inner (concat labels ++ bottom ++ rest) in
    (forall i, inner = Some i -> plausible i = true /\
       (i = InnerIp rest \/ i = InnerEthernet rest \/ i = InnerEthernet (drop 4 rest))) /\
    (forall f, head rest = Some f -> u8_of f / 16 = 4 \/ u8_of f / 16 = 6 ->
       plausible (InnerIp rest) = true -> inner = Some (InnerIp rest))).
Proof.
  split_and!; [| | |exact mpls_inner_stack].
  - intros c k s protocol opts payload Ho packet.
    assert (H : fits_u 16 protocol -> gre_inner packet = _) by (intros Hp; by apply gre_inner_header).
    split_and!.
    + intros [->| ->]; by apply H.
    + intros ->; by apply H.
    + intros [->| ->]; by apply H.
    + intros -> ->; by apply H.
    + intros header frame -> -> -> Hh. rewrite H by done. cbn.
      by rewrite (get_from_app 8) by done.
    + intros header o platform frame -> -> Hh Hp. rewrite H by done. cbn.
      rewrite lookup_app_r by (unfold zlen in Hh; lia).
      replace (11 - length header)%nat with 0%nat by (unfold zlen in Hh; lia). cbn.
      assert (E : header ++ o :: platform ++ frame = (header ++ o :: platform) ++ frame)
        by by rewrite <- app_assoc.
      rewrite E, get_from_app; [done|]. rewrite zlen_app, zlen_cons, Hh, Hp. by case_match.
  - intros h0 header frame Hh. unfold zlen in Hh.
    do 7 (destruct header as [|? header]; [discriminate|]). destruct header; [|cbn in Hh; lia].
    cbn. by rewrite has_bit3.
  - intros n flags protocol vni options inner Hn Hv Ho packet.
    assert (H : forall a b, be_bytes 2 protocol = [a; b] -> be_value [a; b] = protocol ->
      geneve_inner packet
      = if protocol =? TRANSPARENT_ETHERNET_BRIDGING then Some (InnerEthernet inner)
        else if (protocol =? EtherType_IPV4) || (protocol =? EtherType_IPV6) then Some (InnerIp inner)
        else None).
    { intros a b E1 E2. subst packet. rewrite E1. unfold zlen in Hv.
      destruct vni as [|b0 [|b1 [|b2 [|b3 [|]]]]]; try (cbn in Hv; lia).
      cbn [app geneve_inner]. rewrite u8_of_byte_of, E2.
      replace (n mod 256) with n by (symmetry; apply Z.mod_small; lia).
      replace (Z.shiftr n 6) with 0 by (rewrite Z.shiftr_div_pow2 by lia; symmetry; apply Z.div_small; lia).
      change 0x3f with (Z.ones 6). rewrite Z.land_ones, Z.mod_small by lia. cbn [Z.eqb negb].
      pose proof (get_from_app (8 + n * 4) (byte_of n :: flags :: a :: b :: b0 :: b1 :: b2 :: b3 :: options)
        inner) as E. cbn [app] in E. rewrite E; [done|]. rewrite !zlen_cons. lia. }
    split; [intros [->| ->]|intros ->]; (edestruct two_octets as (a & b & E1 & E2);
      [|rewrite (H a b E1 E2); reflexivity]; done).
Qed.
End headers.

(** ** A sample *)

Section sample.
(** A slicer that knows Ethernet, IPv4 without options and UDP: a packet is
    its octets and where slicing began. *)
Inductive start := AtEthernet | AtIp | AtType (ether_type : Z).

Definition mini_ip (p : start * bytes) : option bytes :=
  let '(k, b) := p in
  let ip := match k with
    | AtEthernet => if be_value (take 2 (drop 12 b)) =? EtherType_IPV4 then Some (drop 14 b) else None
    | AtIp => Some b
    | AtType t => if t =? EtherType_IPV4 then Some b else None
    end in
  b ← ip; if 20 <=? zlen b then Some b else None.

Definition octet (n : nat) (b : bytes) : Z := default 0 (u8_of <$> b !! n).

Definition mini_ip_payload (b : bytes) : IpPayload :=
  mkIpPayload (octet 9 b) (negb (Z.land (be_value (take 2 (drop 6 b))) 0x3fff =? 0))
    (zlen b <? be_value (take 2 (drop 2 b))) (drop 20 b).

Definition mini_net (p : start * bytes) : option LaxNetSlice :=
  (fun b => Ipv4 (mkIpv4Header (be_value (take 4 (drop 12 b))) (be_value (take 4 (drop 16 b)))
     (octet 9 b) 0 0 (octet 8 b) 0 0 0 0 (be_value (take 2 (drop 2 b)))) (mini_ip_payload b)) <$> mini_ip p.

Definition mini_transport (p : start * bytes) : option TransportSlice :=
  b ← mini_ip p;
  let u := drop 20 b in
  if (octet 9 b =? IpNumber_UDP) && (8 <=? zlen u) then
    Some (Udp (mkUdp (be_value (take 2 u)) (be_value (take 2 (drop 2 u)))
                 (be_value (take 2 (drop 4 u))) (drop 8 u)))
  else None.

Lemma mini_ip_slice p b : mini_ip p = Some b -> slice_of b p.2.
Proof.
  destruct p as [k o]. unfold mini_ip. intros H.
  match type of H with ?ip ≫= _ = _ => destruct ip as [b0|] eqn:E; cbn in H; [|done] end.
  case_match; simplify_eq. destruct k; repeat case_match; simplify_eq;
    (apply slice_of_drop || apply slice_of_refl).
Qed.

#[local, refine] Instance mini : Etherparse := {|
  LaxSlicedPacket := start * bytes;
  from_ethernet b := if 14 <=? zlen b then Some (AtEthernet, b) else None;
  from_ip b := if 20 <=? zlen b then Some (AtIp, b) else None;
  from_ether_type t b := (AtType t, b);
  link p := match p.1 with
    | AtEthernet => Some (Ethernet2 (mkEthernet2 (take 6 (drop 6 p.2)) (take 6 p.2)
                                       (be_value (take 2 (drop 12 p.2)))))
    | _ => None
    end;
  vlan p := None;
  net := mini_net;
  transport := mini_transport;
  ether_payload p := match p.1 with
    | AtEthernet => Some (mkEtherPayload (be_value (take 2 (drop 12 p.2))) (drop 14 p.2))
    | _ => None
    end;
  ip_payload p := mini_ip_payload <$> mini_ip p;
  TcpSlice_from_slice _ := None;
  UdpSlice_from_slice_lax _ := None;
  Icmpv4Slice_from_slice _ := None;
  Icmpv6Slice_from_slice _ := None;
  sliced_from p := p.2;
|}.
Proof.
  - intros b s. case_match; [|done]. by intros [= <-].
  - intros b s. case_match; [|done]. by intros [= <-].
  - done.
  - intros [[] b] p; cbn; intros [= <-]; apply slice_of_drop.
  - intros p q. destruct (mini_ip p) as [b|] eqn:E; cbn; [|done]. intros [= <-].
    eapply slice_of_trans; [apply slice_of_drop|by apply mini_ip_slice].
  - intros p u. unfold mini_transport. destruct (mini_ip p) as [b|] eqn:E; cbn; [|done].
    case_match; [|done]. intros [= <-]. cbn.
    eapply slice_of_trans; [apply slice_of_drop|].
    eapply slice_of_trans; [apply slice_of_drop|by apply mini_ip_slice].
  - intros p. unfold mini_net. by destruct (mini_ip p).
  - intros b s. case_match; [|done]. intros [= <-]. by eexists.
  - intros b s. case_match; [|done]. by intros [= <-].
Defined.

(** IPv4 and UDP headers around a payload. *)
Definition udp_ip (source port : Z) (payload : bytes) : bytes :=
  [x45; x00] ++ be_bytes 2 (28 + zlen payload) ++ [x00; x00; x00; x00; x40; x11; x00; x00] ++
  be_bytes 4 source ++ be_bytes 4 1 ++
  be_bytes 2 1000 ++ be_bytes 2 port ++ be_bytes 2 (8 + zlen payload) ++ [x00; x00] ++ payload.

(** An Ethernet frame at the Ethernet type's offset. *)
Definition framed (packet : bytes) : bytes := replicate 12 x02 ++ be_bytes 2 EtherType_IPV4 ++ packet.

(** An exporter's datagram captured inside a VXLAN tunnel. *)
Definition sample_frame : bytes :=
  framed (udp_ip 7 UDP_PORT_VXLAN
    ([x08; x00; x00; x00; x00; x00; x01; x00] ++ framed (udp_ip 0xc0000201 2055 [x01; x02; x03]))).

Lemma parse_udp_packet_whole_witness :
  parse_udp_packet 1 sample_frame = Some (V4 0xc0000201, [x01; x02; x03]) /\
  slice_of [x01; x02; x03] sample_frame.
Proof.
  assert (H : parse_udp_packet 1 sample_frame = Some (V4 0xc0000201, [x01; x02; x03]))
    by reflexivity.
  split; [exact H|]. exact (proj1 (parse_udp_packet_whole _ _ _ _ H)).
Defined.
End sample.
