(* ===== verification/ConvertPacket.v ===== *)
(** [common/convert/packet.rs]: what the headers of a packet say of a flow. *)

From Stdlib Require Import ZArith Lia Strings.Byte.
From stdpp Require Import base tactics numbers list.
From coqutil Require Import Datatypes.RecordSetters.
From S2P Require Import Prelude Std Crates Etherparse Packet CommonFlow.
Import TriangleBracketNotations.
#[local] Open Scope Z_scope.

Section apply.
Context `{CR : Crates} `{EP : Etherparse}.
Implicit Types (flow : CommonFlow).

Definition apply_link flow (sliced : LaxSlicedPacket) : CommonFlow :=
  let flow :=
    match link sliced with
    | Some (Ethernet2 header) =>
        flow<|cf_src_mac := Some (MacAddr6_from header.(eth_source))|>
          <|cf_dst_mac := Some (MacAddr6_from header.(eth_destination))|>
          <|cf_etype := Some header.(eth_ether_type)|>
    | _ => flow
    end in
  match vlan sliced with
  | Some vlan =>
      let inner := match vlan with Single h => h | Double _ inner => inner end in
      let flow := flow<|cf_etype := Some inner.(vlan_ether_type)|> in
      match flow.(cf_src_vlan) with
      | None => flow<|cf_src_vlan := Some inner.(vlan_id)|>
      | Some _ => flow
      end
  | None => flow
  end.

(** The [if]s over the flag bits of a TCP header. *)
Definition tcp_flags_of (header : TcpSlice) : Z :=
  let flags := 0 in
  let flags := if header.(tcp_fin) then Z.lor flags 0x01 else flags in
  let flags := if header.(tcp_syn) then Z.lor flags 0x02 else flags in
  let flags := if header.(tcp_rst) then Z.lor flags 0x04 else flags in
  let flags := if header.(tcp_psh) then Z.lor flags 0x08 else flags in
  let flags := if header.(tcp_ack) then Z.lor flags 0x10 else flags in
  let flags := if header.(tcp_urg) then Z.lor flags 0x20 else flags in
  let flags := if header.(tcp_ece) then Z.lor flags 0x40 else flags in
  let flags := if header.(tcp_cwr) then Z.lor flags 0x80 else flags in
  if header.(tcp_ns) then Z.lor flags 0x100 else flags.

Definition apply_net flow (sliced : LaxSlicedPacket) : CommonFlow :=
  match net sliced with
  | Some (Ipv4 header _) =>
      flow<|cf_src_addr := Some (V4 header.(v4_source_addr))|>
        <|cf_dst_addr := Some (V4 header.(v4_destination_addr))|>
        <|cf_proto := Some header.(v4_protocol)|>
        <|cf_ip_tos := Some (Z.lor (wrap 8 (Z.shiftl header.(v4_dcp) 2)) header.(v4_ecn))|>
        <|cf_ip_ttl := Some header.(v4_ttl)|>
        <|cf_fragment_id := Some header.(v4_identification)|>
        <|cf_fragment_offset := Some header.(v4_fragments_offset)|>
        <|cf_etype := Some EtherType_IPV4|>
  | Some (Ipv6 header _ payload) =>
      flow<|cf_src_addr := Some (V6 header.(v6_source_addr))|>
        <|cf_dst_addr := Some (V6 header.(v6_destination_addr))|>
        <|cf_proto := Some payload.(ip_number)|>
        <|cf_ip_tos := Some header.(v6_traffic_class)|>
        <|cf_ip_ttl := Some header.(v6_hop_limit)|>
        <|cf_ipv6_flow_label := Some header.(v6_flow_label)|>
        <|cf_etype := Some EtherType_IPV6|>
  | Some Arp | None => flow
  end.

Definition apply_transport flow (sliced : LaxSlicedPacket) : CommonFlow :=
  let transport :=
    match transport sliced with
    | Some t => Some t
    | None => first_fragment_transport sliced
    end in
  match transport with
  | Some (Tcp s) =>
      flow<|cf_src_port := Some s.(tcp_source_port)|>
        <|cf_dst_port := Some s.(tcp_destination_port)|>
        <|cf_tcp_flags := Some (tcp_flags_of s)|>
  | Some (Udp s) =>
      flow<|cf_src_port := Some s.(udp_source_port)|>
        <|cf_dst_port := Some s.(udp_destination_port)|>
  | Some (Icmpv4 s) | Some (Icmpv6 s) =>
      flow<|cf_icmp_type := Some s.(type_u8)|><|cf_icmp_code := Some s.(code_u8)|>
  | None => flow
  end.

Definition apply_net_transport flow (sliced : LaxSlicedPacket) : CommonFlow :=
  apply_transport (apply_net flow sliced) sliced.

Definition apply flow (peeled : Peeled) : CommonFlow :=
  let flow := apply_link flow (default peeled.(p_packet) peeled.(p_link)) in
  apply_net_transport flow peeled.(p_packet).

Definition apply_ethernet_frame flow (frame : bytes) : CommonFlow :=
  match peel_ethernet frame with Some peeled => apply flow peeled | None => flow end.

Definition apply_ip_packet flow (packet : bytes) : CommonFlow :=
  match peel_ip packet with Some peeled => apply flow peeled | None => flow end.

(** ** What of a flow a packet has no part in *)

Definition others_kept (flow flow' : CommonFlow) : Prop :=
  cf_flow_type flow' = cf_flow_type flow /\
  cf_time_received_ns flow' = cf_time_received_ns flow /\
  cf_sequence_num flow' = cf_sequence_num flow /\
  cf_sampling_rate flow' = cf_sampling_rate flow /\
  cf_sampler_address flow' = cf_sampler_address flow /\
  cf_time_flow_start_ns flow' = cf_time_flow_start_ns flow /\
  cf_time_flow_end_ns flow' = cf_time_flow_end_ns flow /\
  cf_bytes flow' = cf_bytes flow /\ cf_packets flow' = cf_packets flow /\
  cf_in_if flow' = cf_in_if flow /\ cf_out_if flow' = cf_out_if flow /\
  cf_src_as flow' = cf_src_as flow /\ cf_dst_as flow' = cf_dst_as flow /\
  cf_next_hop flow' = cf_next_hop flow /\ cf_bgp_next_hop flow' = cf_bgp_next_hop flow /\
  cf_src_net flow' = cf_src_net flow /\ cf_dst_net flow' = cf_dst_net flow /\
  cf_dst_vlan flow' = cf_dst_vlan flow /\
  (is_Some (cf_src_vlan flow) -> cf_src_vlan flow' = cf_src_vlan flow) /\
  cf_observation_domain_id flow' = cf_observation_domain_id flow /\
  cf_template_id flow' = cf_template_id flow /\
  cf_forwarding_status flow' = cf_forwarding_status flow.

Lemma apply_link_others flow sliced : others_kept flow (apply_link flow sliced).
Proof.
  unfold apply_link, others_kept. destruct flow.
  destruct (link sliced) as [[]|], (vlan sliced) as [v|]; cbn;
    try match goal with |- context [match ?x with Some _ => _ | None => _ end] => is_var x; destruct x end;
    vm_compute; repeat split; by intros [].
Qed.

Lemma others_kept_trans a b c : others_kept a b -> others_kept b c -> others_kept a c.
Proof.
  unfold others_kept. intros H1 H2. ands. split_and!; try congruence.
  intros Hv. assert (E : cf_src_vlan b = cf_src_vlan a) by auto. rewrite <- E in *. auto.
Qed.

Lemma apply_net_others flow sliced : others_kept flow (apply_net flow sliced).
Proof.
  unfold apply_net, others_kept. destruct flow, (net sliced) as [[]|]; vm_compute; repeat split.
Qed.

Lemma apply_transport_others flow sliced : others_kept flow (apply_transport flow sliced).
Proof.
  unfold apply_transport, others_kept. cbv zeta.
  generalize (match transport sliced with Some t => Some t | None => first_fragment_transport sliced end).
  intros t. destruct flow, t as [[]|]; vm_compute; repeat split.
Qed.

Lemma apply_net_transport_others flow sliced : others_kept flow (apply_net_transport flow sliced).
Proof. eapply others_kept_trans; [apply apply_net_others|apply apply_transport_others]. Qed.

Lemma apply_others flow peeled : others_kept flow (apply flow peeled).
Proof. eapply others_kept_trans; [apply apply_link_others|apply apply_net_transport_others]. Qed.

Lemma others_kept_refl flow : others_kept flow flow.
Proof. by repeat split. Qed.

(** A packet fills in only the fields its headers have: not a VLAN that is
    already known, nor the destination's VLAN, and nothing of the counters,
    times, interfaces, routing and identity of the flow. *)
Lemma apply_ethernet_frame_others flow frame : others_kept flow (apply_ethernet_frame flow frame).
Proof. unfold apply_ethernet_frame. case_match; [apply apply_others|apply others_kept_refl]. Qed.

Lemma apply_ip_packet_others flow packet : others_kept flow (apply_ip_packet flow packet).
Proof. unfold apply_ip_packet. case_match; [apply apply_others|apply others_kept_refl]. Qed.
End apply.
