(* ===== verification/ConvertIpfix.v ===== *)
(** [common/convert/ipfix.rs]: IPFIX records as flows. *)

From Stdlib Require Import ZArith Lia Strings.Byte.
From stdpp Require Import base tactics numbers list.
From coqutil Require Import Datatypes.RecordSetters.
From S2P Require Import Prelude Std Crates IERegistry DataRecord InformationElement IpfixTypes Etherparse Packet CommonFlow Convert ConvertPacket.
Import TriangleBracketNotations.
#[local] Open Scope Z_scope.

Section convert.
Context `{CR : Crates} `{EP : Etherparse}.

Abbreviation DataRecord := (DataRecord.DataRecord FieldSpecifier FieldValue).

Definition iana_element (field : FieldSpecifier) : option InformationElement :=
  match field.(enterprise_number) with
  | None => from_id field.(information_element_identifier)
  | Some _ => None
  end.

Record IpfixContext := mkContext {
  header : Header;
  sampler_address : option IpAddr;
  sampling_rate : option Z;
  system_init_time_ms : option Z;
}.
Implicit Types (self : IpfixContext).

(** The subtraction wraps at 64 bits in a release build. *)
Definition delta_to_absolute_ns self (delta_us : Z) : option Z :=
  export_time_ns ← timestamp_nanos_opt self.(header).(h_export_time);
  Some (to_signed 64 (wrap 64 (export_time_ns - delta_us * 1_000))).

Definition context_uptime_to_absolute_ns self (uptime_ms : Z) : option Z :=
  let export_time := self.(header).(h_export_time) in
  boot ← self.(system_init_time_ms);
  let sys_uptime_ms := wrap 32 (wrap 64 (timestamp_millis export_time - boot)) in
  uptime_to_absolute_ns export_time sys_uptime_ms uptime_ms.

Definition ipfix_extract_u64 (value : FieldValue) : option Z :=
  match value with
  | FieldValue.Unsigned8 v | FieldValue.Unsigned16 v | FieldValue.Unsigned32 v
  | FieldValue.Unsigned64 v => Some v
  | _ => None
  end.

Definition ipfix_extract_u8 (value : FieldValue) : option Z := v ← ipfix_extract_u64 value; try_u 8 v.
Definition ipfix_extract_u16 (value : FieldValue) : option Z := v ← ipfix_extract_u64 value; try_u 16 v.
Definition ipfix_extract_u32 (value : FieldValue) : option Z := v ← ipfix_extract_u64 value; try_u 32 v.

Definition ipfix_extract_datetime_ns (value : FieldValue) : option Z :=
  match value with
  | FieldValue.DateTimeSeconds dt | FieldValue.DateTimeMilliseconds dt
  | FieldValue.DateTimeMicroseconds dt | FieldValue.DateTimeNanoseconds dt =>
      timestamp_nanos_opt dt
  | _ => None
  end.

Inductive PacketSection := SectionFrame (bytes : bytes) | SectionIp (bytes : bytes).

Definition PacketSection_len (self : PacketSection) : Z :=
  match self with SectionFrame bytes | SectionIp bytes => zlen bytes end.

(** The loop of [packet_section], with the IP section seen so far. *)
Fixpoint section_loop (fields : list (FieldSpecifier * bytes * FieldValue)) (ip : option bytes)
    : option PacketSection :=
  match fields with
  | [] => SectionIp <$> ip
  | (field, _, value) :: fields =>
      match value with
      | FieldValue.OctetArray bytes =>
          match iana_element field with
          | Some DataLinkFrameSection => Some (SectionFrame bytes)
          | Some IpHeaderPacketSection => section_loop fields (Some bytes)
          | _ => section_loop fields ip
          end
      | _ => section_loop fields ip
      end
  end.

Definition packet_section (record : DataRecord) : option PacketSection :=
  section_loop (rec_iter record) None.

Definition extract_ipfix_system_init_time (record : DataRecord) : option Z :=
  head (omap (fun '(field, _, value) =>
    match iana_element field with
    | Some SystemInitTimeMilliseconds =>
        match value with
        | FieldValue.DateTimeMilliseconds dt => Some (timestamp_millis dt)
        | _ => None
        end
    | _ => None
    end) (rec_iter record)).

(** ** Sampling *)

Record SamplingFields := mkSampling {
  s_rate : option Z;
  s_packet_interval : option Z;
  s_packet_space : option Z;
}.

Definition default_sampling : SamplingFields := mkSampling None None None.

Definition observe (self : SamplingFields) (ie : InformationElement) (value : FieldValue)
    : SamplingFields :=
  match ie with
  | SamplingInterval | SamplerRandomInterval =>
      mkSampling (match self.(s_rate) with Some r => Some r | None => ipfix_extract_u32 value end)
        self.(s_packet_interval) self.(s_packet_space)
  | SamplingPacketInterval => mkSampling self.(s_rate) (ipfix_extract_u32 value) self.(s_packet_space)
  | SamplingPacketSpace => mkSampling self.(s_rate) self.(s_packet_interval) (ipfix_extract_u32 value)
  | _ => self
  end.

Definition rate (self : SamplingFields) : option Z :=
  match self.(s_rate) with
  | Some r => Some r
  | None =>
      match self.(s_packet_interval), self.(s_packet_space) with
      | Some interval, Some space =>
          if 0 <? interval then
            let population := interval + space in
            if population mod interval =? 0 then try_u 32 (population / interval) else None
          else Some interval
      | interval, _ => interval
      end
  end.

Definition extract_ipfix_sampler_id (record : DataRecord) : option Z :=
  match find (fun '(field, _, _) =>
    match iana_element field with
    | Some SamplerId | Some SelectorId => true
    | _ => false
    end) (rec_iter record) with
  | Some (_, _, value) => ipfix_extract_u64 value
  | None => None
  end.

Definition extract_ipfix_sampling_rate (record : DataRecord) : option Z :=
  rate (fold_left (fun sampling '(field, _, value) =>
    match iana_element field with
    | Some ie => observe sampling ie value
    | None => sampling
    end) (rec_iter record) default_sampling).

(** ** Conversion *)

(** The variables of the loop over a record. *)
Record Loop := mkLoop {
  l_flow : CommonFlow;
  l_frame_size : option Z;
  l_sampling : SamplingFields;
}.

Definition convert_field self (st : Loop) (ie : InformationElement) (value : FieldValue) : Loop :=
  let '(mkLoop flow frame_size sampling) := st in
  let with_flow flow := mkLoop flow frame_size sampling in
  match ie with
  | OctetDeltaCount => with_flow (flow<|cf_bytes := default 0 (ipfix_extract_u64 value)|>)
  | PacketDeltaCount => with_flow (flow<|cf_packets := default 0 (ipfix_extract_u64 value)|>)
  | DataLinkFrameSize => mkLoop flow (ipfix_extract_u64 value) sampling
  | DataLinkFrameSection | IpHeaderPacketSection => st
  | ProtocolIdentifier => with_flow (flow<|cf_proto := ipfix_extract_u8 value|>)
  | IpClassOfService => with_flow (flow<|cf_ip_tos := ipfix_extract_u8 value|>)
  | TcpControlBits => with_flow (flow<|cf_tcp_flags := ipfix_extract_u16 value|>)
  | SourceTransportPort => with_flow (flow<|cf_src_port := ipfix_extract_u16 value|>)
  | SourceIpv4Address =>
      match value with
      | FieldValue.Ipv4Address addr =>
          with_flow (flow<|cf_src_addr := Some (V4 addr)|><|cf_etype := Some 0x0800|>)
      | _ => st
      end
  | SourceIpv4PrefixLength => with_flow (flow<|cf_src_net := ipfix_extract_u8 value|>)
  | IngressInterface => with_flow (flow<|cf_in_if := ipfix_extract_u32 value|>)
  | DestinationTransportPort => with_flow (flow<|cf_dst_port := ipfix_extract_u16 value|>)
  | DestinationIpv4Address =>
      match value with
      | FieldValue.Ipv4Address addr => with_flow (flow<|cf_dst_addr := Some (V4 addr)|>)
      | _ => st
      end
  | DestinationIpv4PrefixLength => with_flow (flow<|cf_dst_net := ipfix_extract_u8 value|>)
  | EgressInterface => with_flow (flow<|cf_out_if := ipfix_extract_u32 value|>)
  | ForwardingStatus => with_flow (flow<|cf_forwarding_status := ipfix_extract_u32 value|>)
  | IpNextHopIpv4Address =>
      match value with
      | FieldValue.Ipv4Address addr => with_flow (flow<|cf_next_hop := Some (V4 addr)|>)
      | _ => st
      end
  | BgpSourceAsNumber => with_flow (flow<|cf_src_as := ipfix_extract_u32 value|>)
  | BgpDestinationAsNumber => with_flow (flow<|cf_dst_as := ipfix_extract_u32 value|>)
  | BgpNextHopIpv4Address =>
      match value with
      | FieldValue.Ipv4Address addr => with_flow (flow<|cf_bgp_next_hop := Some (V4 addr)|>)
      | _ => st
      end
  | FlowStartSysUpTime =>
      with_flow (flow<|cf_time_flow_start_ns :=
         v ← ipfix_extract_u32 value; context_uptime_to_absolute_ns self v|>)
  | FlowEndSysUpTime =>
      with_flow (flow<|cf_time_flow_end_ns :=
         v ← ipfix_extract_u32 value; context_uptime_to_absolute_ns self v|>)
  | FlowStartSeconds | FlowStartMilliseconds | FlowStartMicroseconds | FlowStartNanoseconds =>
      with_flow (flow<|cf_time_flow_start_ns := ipfix_extract_datetime_ns value|>)
  | FlowEndSeconds | FlowEndMilliseconds | FlowEndMicroseconds | FlowEndNanoseconds =>
      with_flow (flow<|cf_time_flow_end_ns := ipfix_extract_datetime_ns value|>)
  | FlowStartDeltaMicroseconds =>
      with_flow (flow<|cf_time_flow_start_ns :=
         v ← ipfix_extract_u32 value; delta_to_absolute_ns self v|>)
  | FlowEndDeltaMicroseconds =>
      with_flow (flow<|cf_time_flow_end_ns :=
         v ← ipfix_extract_u32 value; delta_to_absolute_ns self v|>)
  | SourceIpv6Address =>
      match value with
      | FieldValue.Ipv6Address addr =>
          with_flow (flow<|cf_src_addr := Some (V6 addr)|><|cf_etype := Some 0x86dd|>)
      | _ => st
      end
  | DestinationIpv6Address =>
      match value with
      | FieldValue.Ipv6Address addr => with_flow (flow<|cf_dst_addr := Some (V6 addr)|>)
      | _ => st
      end
  | SourceIpv6PrefixLength => with_flow (flow<|cf_src_net := ipfix_extract_u8 value|>)
  | DestinationIpv6PrefixLength => with_flow (flow<|cf_dst_net := ipfix_extract_u8 value|>)
  | FlowLabelIpv6 => with_flow (flow<|cf_ipv6_flow_label := ipfix_extract_u32 value|>)
  | IcmpTypeCodeIpv4 | IcmpTypeCodeIpv6 =>
      match ipfix_extract_u16 value with
      | Some v =>
          with_flow (flow<|cf_icmp_type := Some (wrap 8 (Z.shiftr v 8))|>
               <|cf_icmp_code := Some (wrap 8 (Z.land v 0xff))|>)
      | None => st
      end
  | IcmpTypeIpv4 | IcmpTypeIpv6 => with_flow (flow<|cf_icmp_type := ipfix_extract_u8 value|>)
  | IcmpCodeIpv4 | IcmpCodeIpv6 => with_flow (flow<|cf_icmp_code := ipfix_extract_u8 value|>)
  | SamplingInterval | SamplerRandomInterval | SamplingPacketInterval | SamplingPacketSpace =>
      mkLoop flow frame_size (observe sampling ie value)
  | SrcVlan => with_flow (flow<|cf_src_vlan := ipfix_extract_u16 value|>)
  | DstVlan => with_flow (flow<|cf_dst_vlan := ipfix_extract_u16 value|>)
  | IpNextHopIpv6Address =>
      match value with
      | FieldValue.Ipv6Address addr => with_flow (flow<|cf_next_hop := Some (V6 addr)|>)
      | _ => st
      end
  | BgpNextHopIpv6Address =>
      match value with
      | FieldValue.Ipv6Address addr => with_flow (flow<|cf_bgp_next_hop := Some (V6 addr)|>)
      | _ => st
      end
  | MinimumTtl | MaximumTtl => with_flow (flow<|cf_ip_ttl := ipfix_extract_u8 value|>)
  | FragmentIdentification => with_flow (flow<|cf_fragment_id := ipfix_extract_u32 value|>)
  | SourceMacAddress | PostSourceMacAddress =>
      match value with
      | FieldValue.MacAddress mac => with_flow (flow<|cf_src_mac := Some mac|>)
      | _ => st
      end
  | DestinationMacAddress | PostDestinationMacAddress =>
      match value with
      | FieldValue.MacAddress mac => with_flow (flow<|cf_dst_mac := Some mac|>)
      | _ => st
      end
  | _ => st
  end.

(** The end of [convert], after its loop. *)
Definition finish self (section : option PacketSection) (st : Loop) : CommonFlow :=
  let flow := st.(l_flow)<|cf_sampling_rate :=
    match rate st.(l_sampling) with Some r => Some r | None => self.(sampling_rate) end|> in
  match section with
  | Some section =>
      let flow :=
        if flow.(cf_bytes) =? 0
        then flow<|cf_bytes := default (PacketSection_len section) st.(l_frame_size)|> else flow in
      if flow.(cf_packets) =? 0 then flow<|cf_packets := 1|> else flow
  | None => flow
  end.

Definition convert self (record : DataRecord) (template_id : Z) : CommonFlow :=
  let flow := CommonFlow_new FlowType.Ipfix in
  let flow := flow<|cf_sequence_num := self.(header).(h_sequence_number)|>
    <|cf_sampler_address := self.(sampler_address)|>
    <|cf_observation_domain_id := Some self.(header).(h_observation_domain_id)|>
    <|cf_template_id := Some template_id|> in
  let section := packet_section record in
  let flow :=
    match section with
    | Some (SectionFrame bytes) => apply_ethernet_frame flow bytes
    | Some (SectionIp bytes) => apply_ip_packet flow bytes
    | None => flow
    end in
  finish self section
    (fold_left (fun st '(field, _, value) =>
      match iana_element field with
      | Some ie => convert_field self st ie value
      | None => st
      end) (rec_iter record) (mkLoop flow None default_sampling)).
End convert.

(** ** Sampling rates *)

Section sampling.
Context `{CR : Crates}.

(** The fields of a record that are elements the converter knows of. *)
Definition elements (record : DataRecord.DataRecord FieldSpecifier FieldValue)
    : list (InformationElement * FieldValue) :=
  omap (fun '(field, _, value) => (fun ie => (ie, value)) <$> iana_element field) (rec_iter record).

Lemma fold_elements {S} (f : S -> InformationElement -> FieldValue -> S) record : forall s,
  fold_left (fun s '(field, _, value) =>
    match iana_element field with Some ie => f s ie value | None => s end) (rec_iter record) s
  = fold_left (fun s '(ie, value) => f s ie value) (elements record) s.
Proof.
  unfold elements. induction (rec_iter record) as [|[[field name] value] l IH]; intros s; [done|].
  cbn. by destruct (iana_element field); cbn.
Qed.

Definition reading : Reading FieldValue := {|
  as_u64 := ipfix_extract_u64;
  as_ipv4 v := match v with FieldValue.Ipv4Address a => Some a | _ => None end;
  as_ipv6 v := match v with FieldValue.Ipv6Address a => Some a | _ => None end;
  as_mac v := match v with FieldValue.MacAddress m => Some m | _ => None end;
|}.

(** The rates a record states directly, in template order. *)
Definition direct_rates (es : list (InformationElement * FieldValue)) : list Z :=
  omap (fun '(ie, v) =>
    if is_one_of [SamplingInterval; SamplerRandomInterval] ie then as_u reading 32 v else None) es.

Definition interval es : option Z := written (sets [SamplingPacketInterval] (as_u reading 32)) None es.
Definition space es : option Z := written (sets [SamplingPacketSpace] (as_u reading 32)) None es.

(** What [rate] reports of what the elements say. *)
Definition one_in_n (es : list (InformationElement * FieldValue)) (n : Z) : Prop :=
  head (direct_rates es) = Some n \/
  (direct_rates es = [] /\
   ((exists i s, interval es = Some i /\ space es = Some s /\ 0 < i /\ i * n = i + s /\ fits_u 32 n) \/
    (interval es = Some n /\ (space es = None \/ n = 0)))).

Lemma observed es : forall s,
  fold_left (fun s '(ie, v) => observe s ie v) es s
  = mkSampling (match s.(s_rate) with Some r => Some r | None => head (direct_rates es) end)
      (written (sets [SamplingPacketInterval] (as_u reading 32)) s.(s_packet_interval) es)
      (written (sets [SamplingPacketSpace] (as_u reading 32)) s.(s_packet_space) es).
Proof.
  induction es as [|[ie v] es IH]; intros [r i p]; [by destruct r|].
  cbn [fold_left]. rewrite IH. clear IH. unfold direct_rates, written, sets, as_u.
  destruct ie; try reflexivity; cbn; destruct r; try reflexivity;
    change (ipfix_extract_u64 v ≫= try_u 32) with (ipfix_extract_u32 v); by destruct (ipfix_extract_u32 v).
Qed.

Lemma written_fits es i : written (sets [SamplingPacketInterval] (as_u reading 32)) None es = Some i ->
  fits_u 32 i.
Proof.
  assert (H : forall a, (forall x, a = Some x -> fits_u 32 x) ->
    written (sets [SamplingPacketInterval] (as_u reading 32)) a es = Some i -> fits_u 32 i);
    [|by apply H].
  induction es as [|[ie v] es IH]; intros a Ha; [by apply Ha|]. apply IH. intros x.
  unfold sets, as_u. destruct (is_one_of _ _); cbn; [|apply Ha].
  destruct (ipfix_extract_u64 v); cbn; [|done]. by intros [-> H]%try_u_Some.
Qed.

Lemma rate_spec es n :
  rate (fold_left (fun s '(ie, v) => observe s ie v) es default_sampling) = Some n <-> one_in_n es n.
Proof.
  rewrite observed. unfold one_in_n, rate, interval, space. cbn [s_rate s_packet_interval s_packet_space default_sampling].
  pose proof (written_fits es) as Hf.
  destruct (direct_rates es) as [|r rs]; cbn [head].
  2:{ split; [intros [= ->]; by left|]. intros [H|[H _]]; [done|discriminate H]. }
  destruct (written _ _ es) as [i|].
  2:{ split; [done|]. intros [H|[_ [(i & s & H & _)|[H _]]]]; done. }
  specialize (Hf i eq_refl). unfold fits_u in Hf.
  destruct (written _ _ es) as [s|].
  2:{ split; [intros [= ->]; naive_solver|]. intros [H|[_ [(j & s & _ & H & _)|[H _]]]]; done. }
  destruct (Z.ltb_spec 0 i) as [Hi|Hi].
  - assert (Hdiv : (i + s) mod i = 0 -> i * ((i + s) / i) = i + s) by dlia. split.
    + destruct (Z.eqb_spec ((i + s) mod i) 0) as [E|]; [|done].
      intros [-> Hn]%try_u_Some. right. split; [done|]. left. exists i, s. split_and!; auto.
    + intros [H|[_ [(i' & s' & [= <-] & [= <-] & _ & H & Hn)|[[= ->] [H|H]]]]]; try done; [|lia].
      assert (En : (i + s) / i = n).
      { rewrite <- H. rewrite Z.mul_comm. apply Z.div_mul. lia. }
      assert (Em : (i + s) mod i = 0).
      { rewrite <- H. rewrite Z.mul_comm. apply Z.mod_mul. lia. }
      rewrite Em, En. cbn. by apply try_u_Some.
  - split.
    + intros [= ->]. right. split; [done|]. right. split; [done|]. right. lia.
    + intros [H|[_ [(i' & s' & [= <-] & _ & H & _)|[[= ->] _]]]]; done || lia.
Qed.

(** The rate an options record describes: the first direct one; or else the
    whole N for which the stated interval of packets out of interval and space
    is one in N; or the interval alone. *)
Theorem ipfix_sampling_rate record n :
  extract_ipfix_sampling_rate record = Some n <-> one_in_n (elements record) n.
Proof. unfold extract_ipfix_sampling_rate. rewrite (fold_elements observe). apply rate_spec. Qed.
End sampling.

(** ** What a flow says *)

Section fields.
Context `{CR : Crates} `{EP : Etherparse}.
Implicit Types (self : IpfixContext) (value : FieldValue).

Definition starts self : InformationElement -> FieldValue -> option (option Z) :=
  either (sets [FlowStartSysUpTime] (fun v => as_u reading 32 v ≫= context_uptime_to_absolute_ns self))
  (either (sets [FlowStartDeltaMicroseconds] (fun v => as_u reading 32 v ≫= delta_to_absolute_ns self))
          (sets [FlowStartSeconds; FlowStartMilliseconds; FlowStartMicroseconds; FlowStartNanoseconds]
             ipfix_extract_datetime_ns)).

Definition ends self : InformationElement -> FieldValue -> option (option Z) :=
  either (sets [FlowEndSysUpTime] (fun v => as_u reading 32 v ≫= context_uptime_to_absolute_ns self))
  (either (sets [FlowEndDeltaMicroseconds] (fun v => as_u reading 32 v ≫= delta_to_absolute_ns self))
          (sets [FlowEndSeconds; FlowEndMilliseconds; FlowEndMicroseconds; FlowEndNanoseconds]
             ipfix_extract_datetime_ns)).

Definition octets : InformationElement -> FieldValue -> option Z :=
  sets [OctetDeltaCount] (fun v => default 0 (ipfix_extract_u64 v)).
Definition packets : InformationElement -> FieldValue -> option Z :=
  sets [PacketDeltaCount] (fun v => default 0 (ipfix_extract_u64 v)).
Definition frame_size : InformationElement -> FieldValue -> option (option Z) :=
  sets [DataLinkFrameSize] ipfix_extract_u64.

(** What the loop has done to its variables after the elements [es]. *)
Definition looped self es (st st' : Loop) : Prop :=
  says reading (starts self) (ends self) es st.(l_flow) st'.(l_flow) /\
  said es st.(l_flow) st'.(l_flow) cf_bytes octets /\
  said es st.(l_flow) st'.(l_flow) cf_packets packets /\
  cf_sampling_rate st'.(l_flow) = cf_sampling_rate st.(l_flow) /\
  st'.(l_frame_size) = written frame_size st.(l_frame_size) es /\
  st'.(l_sampling) = fold_left (fun s '(ie, v) => observe s ie v) es st.(l_sampling).

Lemma ipfix_icmp_octets value v : ipfix_extract_u16 value = Some v ->
  wrap 8 (Z.shiftr v 8) = v / 256 /\ wrap 8 (Z.land v 0xff) = v mod 256.
Proof.
  unfold ipfix_extract_u16. destruct (ipfix_extract_u64 value) as [u|]; cbn; [|done].
  intros [-> Hv]%try_u_Some. unfold fits_u, wrap in *. rewrite Z.shiftr_div_pow2 by lia.
  change 0xff with (Z.ones 8). rewrite Z.land_ones by lia. change (2 ^ 8) with 256. split; dlia.
Qed.

Lemma ipfix_looped_one self st ie value : looped self [(ie, value)] st (convert_field self st ie value).
Proof.
  destruct st as [flow size sampling]. unfold looped, says, said, written.
  destruct ie; cbn -[ipfix_extract_u64 ipfix_extract_u16 ipfix_extract_u8 ipfix_extract_u32];
    try match goal with
    | |- context [match ipfix_extract_u16 value with _ => _ end] =>
        unfold either, sets_some, as_u;
        cbn -[ipfix_extract_u64 ipfix_extract_u16 ipfix_extract_u8 ipfix_extract_u32];
        change (ipfix_extract_u64 value ≫= try_u 16) with (ipfix_extract_u16 value);
        destruct (ipfix_extract_u16 value) as [v|] eqn:E16; cbn;
        [destruct (ipfix_icmp_octets _ _ E16) as [Eh El]; rewrite Eh, El|]
    | |- context [match ?v with _ => _ end] => constr_eq v value; destruct value; cbn
    end; repeat split.
Qed.

Lemma ipfix_looped_app self es es' st st' st'' :
  looped self es st st' -> looped self es' st' st'' -> looped self (es ++ es') st st''.
Proof.
  unfold looped, said. intros (H1 & H2 & H3 & H4 & H5 & H6) (H1' & H2' & H3' & H4' & H5' & H6').
  split_and!; [by eapply says_app|rewrite written_app; congruence..|congruence| |].
  - rewrite written_app. congruence.
  - rewrite fold_left_app. congruence.
Qed.

Lemma ipfix_looped_record self es : forall st,
  looped self es st (fold_left (fun st '(ie, value) => convert_field self st ie value) es st).
Proof.
  induction es as [|[ie value] es IH]; intros st; [by repeat split|].
  apply (ipfix_looped_app self [(ie, value)] _ _ (convert_field self st ie value)); [apply ipfix_looped_one|apply IH].
Qed.

(** The flow before the record's fields are looked at: what the packet
    section the record carries, if any, says. *)
Definition bare_flow self (template_id : Z) : CommonFlow :=
  default_flow<|cf_flow_type := FlowType.Ipfix|><|cf_sequence_num := self.(header).(h_sequence_number)|>
    <|cf_sampler_address := self.(sampler_address)|>
    <|cf_observation_domain_id := Some self.(header).(h_observation_domain_id)|>
    <|cf_template_id := Some template_id|>.

Definition base_flow self record (template_id : Z) : CommonFlow :=
  match packet_section record with
  | Some (SectionFrame bytes) => apply_ethernet_frame (bare_flow self template_id) bytes
  | Some (SectionIp bytes) => apply_ip_packet (bare_flow self template_id) bytes
  | None => bare_flow self template_id
  end.

Lemma base_flow_others self record template_id :
  others_kept (bare_flow self template_id) (base_flow self record template_id).
Proof.
  unfold base_flow. destruct (packet_section record) as [[]|];
    [apply apply_ethernet_frame_others|apply apply_ip_packet_others|apply others_kept_refl].
Qed.

(** A record that counts nothing is one packet. *)
Definition counted (section : option PacketSection) (count one : Z) : Z :=
  match section with Some _ => if count =? 0 then one else count | None => count end.

Lemma says_sampling_rate self es flow flow' r :
  says reading (starts self) (ends self) es flow flow' ->
  says reading (starts self) (ends self) es flow (flow'<|cf_sampling_rate := r|>).
Proof. intros H. exact H. Qed.

Lemma says_bytes self es flow flow' n :
  says reading (starts self) (ends self) es flow flow' ->
  says reading (starts self) (ends self) es flow (flow'<|cf_bytes := n|>).
Proof. intros H. exact H. Qed.

Lemma says_packets self es flow flow' n :
  says reading (starts self) (ends self) es flow flow' ->
  says reading (starts self) (ends self) es flow (flow'<|cf_packets := n|>).
Proof. intros H. exact H. Qed.

Lemma finish_spec self es section flow st :
  says reading (starts self) (ends self) es flow st.(l_flow) ->
  let flow' := finish self section st in
  says reading (starts self) (ends self) es flow flow' /\
  cf_bytes flow' = counted section (cf_bytes st.(l_flow))
    (default (default 0 (PacketSection_len <$> section)) st.(l_frame_size)) /\
  cf_packets flow' = counted section (cf_packets st.(l_flow)) 1 /\
  cf_sampling_rate flow'
  = match rate st.(l_sampling) with Some r => Some r | None => self.(sampling_rate) end.
Proof.
  destruct st as [f size sampling]. cbn [l_flow l_frame_size l_sampling]. intros H. unfold finish, counted.
  cbn [l_flow l_frame_size l_sampling].
  apply (says_sampling_rate self es flow f
    (match rate sampling with Some r => Some r | None => self.(sampling_rate) end)) in H.
  set (g := f<|cf_sampling_rate := _|>) in *.
  assert (Eb : cf_bytes f = cf_bytes g) by reflexivity. assert (Ep : cf_packets f = cf_packets g) by reflexivity.
  assert (Er : cf_sampling_rate g = match rate sampling with Some r => Some r | None => sampling_rate self end)
    by reflexivity.
  rewrite Eb, Ep, <- Er. clearbody g. clear Eb Ep Er.
  destruct section as [section|]; [|done]. cbv zeta. cbn [fmap option_fmap option_map default].
  destruct (Z.eqb_spec (cf_bytes g) 0).
  - assert (E : cf_packets (g<|cf_bytes := default (PacketSection_len section) size|>) = cf_packets g)
      by reflexivity.
    rewrite E. destruct (cf_packets g =? 0) eqn:E0.
    + split_and!; try reflexivity. by apply says_packets, says_bytes.
    + split_and!; try reflexivity. by apply says_bytes.
  - destruct (cf_packets g =? 0); [|done]. split_and!; try reflexivity. by apply says_packets.
Qed.

Lemma convert_finished self record template_id : exists st,
  let es := elements record in
  convert self record template_id = finish self (packet_section record) st /\
  looped self es (mkLoop (base_flow self record template_id) None default_sampling) st.
Proof.
  exists (fold_left (fun st '(ie, value) => convert_field self st ie value) (elements record)
    (mkLoop (base_flow self record template_id) None default_sampling)).
  split; [|apply ipfix_looped_record]. rewrite <- (fold_elements (convert_field self)). reflexivity.
Qed.

Lemma convert_said self record template_id :
  says reading (starts self) (ends self) (elements record) (base_flow self record template_id)
    (convert self record template_id).
Proof.
  destruct (convert_finished self record template_id) as (st & -> & H & _).
  apply (finish_spec self _ (packet_section record) _ st H).
Qed.

(** What a flow takes from the message it came in. *)
Lemma ipfix_flow_origin self record template_id :
  let flow := convert self record template_id in
  cf_flow_type flow = FlowType.Ipfix /\ cf_sampler_address flow = self.(sampler_address) /\
  cf_sequence_num flow = self.(header).(h_sequence_number) /\
  cf_observation_domain_id flow = Some self.(header).(h_observation_domain_id) /\
  cf_template_id flow = Some template_id.
Proof.
  intros flow. pose proof (convert_said self record template_id : says _ _ _ _ _ flow) as H.
  clearbody flow. pose proof (base_flow_others self record template_id) as Hb. revert Hb H.
  generalize (base_flow self record template_id). unfold others_kept, says. intros f Hb H. ands.
  split_and!; (etrans; [eassumption|]); (etrans; [eassumption|reflexivity]).
Qed.

(** Each flow field holds what the last field of the record that is about it
    says, and only where none is, what the packet section the record carries
    says, wherever in the template either is; counts a record with a section
    leaves out or at zero are those of one packet; the sampling rate is the
    record's or else the exporter's. *)
Theorem ipfix_flow_fields self record template_id :
  let flow := convert self record template_id in
  let es := elements record in
  let section := packet_section record in
  says reading (starts self) (ends self) es (base_flow self record template_id) flow /\
  cf_bytes flow = counted section (written octets 0 es)
    (default (default 0 (PacketSection_len <$> section)) (written frame_size None es)) /\
  cf_packets flow = counted section (written packets 0 es) 1 /\
  (forall n, one_in_n es n -> cf_sampling_rate flow = Some n) /\
  ((forall n, ~ one_in_n es n) -> cf_sampling_rate flow = self.(sampling_rate)).
Proof.
  intros flow es section. pose proof (convert_said self record template_id : says _ _ _ _ _ flow) as Hs.
  pose proof (base_flow_others self record template_id) as (_ & _ & _ & _ & _ & _ & _ & Eb & Ep & _).
  pose proof (rate_spec es) as Hr.
  destruct (convert_finished self record template_id) as (st & E & H). change (flow = finish self section st) in E.
  clearbody flow. subst flow. destruct st as [f size sampling]. fold es in H.
  destruct H as (H1 & H2 & H3 & _ & H5 & H6). cbn [l_flow l_frame_size l_sampling] in *. subst size sampling.
  match goal with |- context [finish self section ?st] =>
    destruct (finish_spec self es section _ st H1) as (_ & G2 & G3 & G4) end.
  unfold said in H2, H3. rewrite Eb in H2. rewrite Ep in H3. split_and!; [exact Hs| | | |].
  - rewrite G2. cbn [l_flow l_frame_size]. by rewrite H2.
  - rewrite G3. cbn [l_flow]. by rewrite H3.
  - intros n Hn. apply Hr in Hn. rewrite G4. cbn [l_sampling]. by rewrite Hn.
  - intros Hn. rewrite G4. cbn [l_sampling]. destruct (rate _) as [n|]; [|done].
    destruct (Hn n). by apply Hr.
Qed.

(** An uptime becomes the boot time the exporter stated plus the uptime, with
    what the export time has beyond a millisecond, if the true uptime [u] is
    within about 24.8 days of the one at the export, however often the
    32-bit counter wrapped; and nothing before the boot time is known. *)
Theorem ipfix_uptime self boot u :
  header_time self.(header).(h_export_time) ->
  - 2 ^ 31 <= timestamp_millis self.(header).(h_export_time) - boot - u < 2 ^ 31 ->
  context_uptime_to_absolute_ns (mkContext self.(header) self.(sampler_address) self.(sampling_rate) (Some boot))
    (wrap 32 u)
  = Some ((boot + u) * 1_000_000 + nanoseconds self.(header).(h_export_time) mod 1_000_000) /\
  context_uptime_to_absolute_ns (mkContext self.(header) self.(sampler_address) self.(sampling_rate) None)
    (wrap 32 u) = None.
Proof.
  intros Ht Hu. split; [|done]. unfold context_uptime_to_absolute_ns. cbn.
  set (d := h_export_time (header self)) in *.
  assert (E : wrap 32 (wrap 64 (timestamp_millis d - boot)) = wrap 32 (timestamp_millis d - boot)).
  { unfold wrap. change (2 ^ 64) with (2 ^ 32 * 2 ^ 32). rewrite Z.rem_mul_r by lia.
    rewrite (Z.mul_comm (2 ^ 32)), Z_mod_plus_full. apply Z.mod_mod. lia. }
  rewrite E, uptime_absolute by done. f_equal. rewrite timestamp_millis_law in *.
  unfold nanoseconds, NANOS. pose proof (subsec_nanos_range d). dlia.
Qed.
End fields.

Section sample.
#[local] Instance sample_crates : Crates := crates_std.

(** The exporter booted 60 days before the export: its counter has wrapped. *)
Definition sample_export : DateTime := exist _ (1_700_000_000 + 60 * 86_400, 0) eq_refl.

Lemma ipfix_uptime_witness :
  context_uptime_to_absolute_ns
    (mkContext (Header_new sample_export 1 1) None None (Some 1_700_000_000_000))
    (wrap 32 (60 * 86_400_000 - 10_000))
  = Some ((1_700_000_000 + 60 * 86_400 - 10) * 1_000_000_000).
Proof.
  assert (Ht : header_time sample_export) by (split; [split; cbn; lia|cbn; unfold NANOS; lia]).
  assert (Hu : timestamp_millis sample_export - 1_700_000_000_000 - (60 * 86_400_000 - 10_000) = 10_000)
    by reflexivity.
  refine (proj1 (ipfix_uptime (mkContext (Header_new sample_export 1 1) None None None) 1_700_000_000_000
    (60 * 86_400_000 - 10_000) Ht _)).
  change (- 2 ^ 31 <= timestamp_millis sample_export - 1_700_000_000_000 - (60 * 86_400_000 - 10_000) < 2 ^ 31).
  rewrite Hu. lia.
Defined.
End sample.
