(* ===== verification/ConvertSflow.v ===== *)
(** [common/convert/sflow_v5.rs]: sFlow samples as flows. *)

From Stdlib Require Import ZArith Lia Strings.Byte.
From stdpp Require Import base tactics numbers list.
From coqutil Require Import Datatypes.RecordSetters.
From S2P Require Import Prelude Std Crates SflowV5 Etherparse Packet CommonFlow ConvertPacket.
Import TriangleBracketNotations.
#[local] Open Scope Z_scope.

Definition INTERFACE_VALUE_MASK : Z := 0x3fff_ffff.
Definition INTERNAL_INTERFACE : Z := 0x3fff_ffff.

Definition if_index (format value : Z) : option Z :=
  if (format =? 0) && negb (value =? 0) then Some value else None.

Definition compact_if_index (field : Z) : option Z :=
  let value := Z.land field INTERFACE_VALUE_MASK in
  if value =? INTERNAL_INTERFACE then None else if_index (Z.shiftr field 30) value.

Section convert.
Context `{CR : Crates} `{EP : Etherparse}.
Implicit Types (flow : CommonFlow).

Record SFlowV5Context := mkContext { header : SFlowV5 }.
Implicit Types (self : SFlowV5Context).

Definition apply_sampled_header flow (header : SampledHeader) : CommonFlow :=
  let flow := flow<|cf_bytes := header.(sph_frame_length)|><|cf_packets := 1|> in
  match header.(sph_protocol) with
  | HeaderProtocol.EthernetIso8023 => apply_ethernet_frame flow header.(sph_header)
  | HeaderProtocol.Ipv4 => apply_ip_packet (flow<|cf_etype := Some 0x0800|>) header.(sph_header)
  | HeaderProtocol.Ipv6 => apply_ip_packet (flow<|cf_etype := Some 0x86dd|>) header.(sph_header)
  | _ => flow
  end.

Definition apply_sampled_ethernet flow (ethernet : SampledEthernet) : CommonFlow :=
  flow<|cf_src_mac := Some ethernet.(se_src_mac)|>
    <|cf_dst_mac := Some ethernet.(se_dst_mac)|>
    <|cf_etype := Some (wrap 16 ethernet.(se_type))|>
    <|cf_bytes := ethernet.(se_length)|>
    <|cf_packets := 1|>.

Definition apply_sampled_ipv4 flow (ipv4 : SampledIpv4) : CommonFlow :=
  flow<|cf_src_addr := Some (V4 ipv4.(s4_src_ip))|>
    <|cf_dst_addr := Some (V4 ipv4.(s4_dst_ip))|>
    <|cf_etype := Some 0x0800|>
    <|cf_proto := Some (wrap 8 ipv4.(s4_protocol))|>
    <|cf_src_port := Some (wrap 16 ipv4.(s4_src_port))|>
    <|cf_dst_port := Some (wrap 16 ipv4.(s4_dst_port))|>
    <|cf_tcp_flags := Some (wrap 16 ipv4.(s4_tcp_flags))|>
    <|cf_ip_tos := Some (wrap 8 ipv4.(s4_tos))|>
    <|cf_bytes := ipv4.(s4_length)|>
    <|cf_packets := 1|>.

Definition apply_sampled_ipv6 flow (ipv6 : SampledIpv6) : CommonFlow :=
  flow<|cf_src_addr := Some (V6 ipv6.(s6_src_ip))|>
    <|cf_dst_addr := Some (V6 ipv6.(s6_dst_ip))|>
    <|cf_etype := Some 0x86dd|>
    <|cf_proto := Some (wrap 8 ipv6.(s6_protocol))|>
    <|cf_src_port := Some (wrap 16 ipv6.(s6_src_port))|>
    <|cf_dst_port := Some (wrap 16 ipv6.(s6_dst_port))|>
    <|cf_tcp_flags := Some (wrap 16 ipv6.(s6_tcp_flags))|>
    <|cf_bytes := ipv6.(s6_length)|>
    <|cf_packets := 1|>.

Definition apply_extended_router flow (router : ExtendedRouter) : CommonFlow :=
  flow<|cf_next_hop := router.(rt_nexthop)|>
    <|cf_src_net := Some (wrap 8 router.(rt_src_mask))|>
    <|cf_dst_net := Some (wrap 8 router.(rt_dst_mask))|>.

Definition apply_extended_switch flow (switch : ExtendedSwitch) : CommonFlow :=
  flow<|cf_src_vlan := try_u 16 switch.(sw_src_vlan)|>
    <|cf_dst_vlan := try_u 16 switch.(sw_dst_vlan)|>.

Definition apply_extended_gateway flow (gateway : ExtendedGateway) : CommonFlow :=
  flow<|cf_bgp_next_hop := gateway.(gw_nexthop)|>
    <|cf_src_as := Some gateway.(gw_src_as)|>
    <|cf_dst_as :=
      match last gateway.(gw_dst_as_path) with
      | Some (AsPathType.AsSequence as_seq) => last as_seq
      | _ => None
      end|>.

Definition apply_flow_record flow (record_type : FlowRecordType) : CommonFlow :=
  match record_type with
  | FlowRecordType.SampledHeader header => apply_sampled_header flow header
  | FlowRecordType.SampledEthernet ethernet => apply_sampled_ethernet flow ethernet
  | FlowRecordType.SampledIpv4 ipv4 => apply_sampled_ipv4 flow ipv4
  | FlowRecordType.SampledIpv6 ipv6 => apply_sampled_ipv6 flow ipv6
  | FlowRecordType.ExtendedRouter router => apply_extended_router flow router
  | FlowRecordType.ExtendedSwitch switch => apply_extended_switch flow switch
  | FlowRecordType.ExtendedGateway gateway => apply_extended_gateway flow gateway
  | _ => flow
  end.

Definition convert_flow_sample self (sample : FlowSample) : CommonFlow :=
  let flow := CommonFlow_new FlowType.SflowV5 in
  let flow := flow<|cf_sequence_num := self.(header).(sf_sequence_number)|>
    <|cf_sampler_address := self.(header).(sf_agent_address)|>
    <|cf_sampling_rate := Some sample.(fs_sampling_rate)|>
    <|cf_in_if := compact_if_index sample.(fs_input)|>
    <|cf_out_if := compact_if_index sample.(fs_output)|> in
  fold_left (fun flow record => apply_flow_record flow record.(fr_data)) sample.(fs_records) flow.

Definition convert_expanded_flow_sample self (sample : ExpandedFlowSample) : CommonFlow :=
  let flow := CommonFlow_new FlowType.SflowV5 in
  let flow := flow<|cf_sequence_num := self.(header).(sf_sequence_number)|>
    <|cf_sampler_address := self.(header).(sf_agent_address)|>
    <|cf_sampling_rate := Some sample.(efs_sampling_rate)|>
    <|cf_in_if := if_index sample.(efs_input_if_format) sample.(efs_input_if_value)|>
    <|cf_out_if := if_index sample.(efs_output_if_format) sample.(efs_output_if_value)|> in
  fold_left (fun flow record => apply_flow_record flow record.(fr_data)) sample.(efs_records) flow.

(** ** What the records of a sample have no part in *)

Definition sample_kept flow flow' : Prop :=
  cf_flow_type flow' = cf_flow_type flow /\
  cf_time_received_ns flow' = cf_time_received_ns flow /\
  cf_sequence_num flow' = cf_sequence_num flow /\
  cf_sampling_rate flow' = cf_sampling_rate flow /\
  cf_sampler_address flow' = cf_sampler_address flow /\
  cf_time_flow_start_ns flow' = cf_time_flow_start_ns flow /\
  cf_time_flow_end_ns flow' = cf_time_flow_end_ns flow /\
  cf_in_if flow' = cf_in_if flow /\ cf_out_if flow' = cf_out_if flow.

Lemma others_sample_kept flow flow' : others_kept flow flow' -> sample_kept flow flow'.
Proof. unfold others_kept, sample_kept. intros H. ands. split_and!; assumption. Qed.

Lemma sample_kept_trans a b c : sample_kept a b -> sample_kept b c -> sample_kept a c.
Proof. unfold sample_kept. intros H1 H2. ands. split_and!; congruence. Qed.

Lemma apply_flow_record_kept flow r : sample_kept flow (apply_flow_record flow r).
Proof.
  destruct r as [h| | | | | | | | | | | |]; try (repeat split; fail); cbn [apply_flow_record].
  unfold apply_sampled_header.
  set (f := flow<|cf_bytes := _|><|cf_packets := _|>).
  assert (H : sample_kept flow f) by repeat split. clearbody f.
  destruct (sph_protocol h); try exact H; (eapply sample_kept_trans; [exact H|]).
  - apply others_sample_kept, apply_ethernet_frame_others.
  - eapply sample_kept_trans; [|apply others_sample_kept, apply_ip_packet_others]. repeat split.
  - eapply sample_kept_trans; [|apply others_sample_kept, apply_ip_packet_others]. repeat split.
Qed.

Lemma apply_flow_records_kept rs : forall flow,
  sample_kept flow (fold_left (fun flow record => apply_flow_record flow record.(fr_data)) rs flow).
Proof.
  induction rs as [|r rs IH]; intros flow; cbn; [repeat split|].
  eapply sample_kept_trans; [apply apply_flow_record_kept|apply IH].
Qed.

Lemma if_index_spec format value v :
  if_index format value = Some v <-> format = 0 /\ value = v /\ v <> 0.
Proof.
  unfold if_index. destruct (Z.eqb_spec format 0), (Z.eqb_spec value 0); cbn; naive_solver.
Qed.

Lemma compact_if_index_spec field v : fits_u 32 field ->
  compact_if_index field = Some v <-> field = v /\ 0 < v < 2 ^ 30 - 1.
Proof.
  unfold fits_u, compact_if_index. intros Hf. change INTERFACE_VALUE_MASK with (Z.ones 30).
  change INTERNAL_INTERFACE with (2 ^ 30 - 1). rewrite Z.land_ones, Z.shiftr_div_pow2 by lia.
  destruct (Z.eqb_spec (field mod 2 ^ 30) (2 ^ 30 - 1)); [split; [done|]; dlia|].
  rewrite if_index_spec. dlia.
Qed.

Definition is_switch (r : FlowRecordType) : bool :=
  match r with FlowRecordType.ExtendedSwitch _ => true | _ => false end.

(** [flow'] has the VLANs of [flow], or else learned the source's. *)
Definition vlan_kept flow flow' : Prop :=
  (is_Some (cf_src_vlan flow) -> cf_src_vlan flow' = cf_src_vlan flow) /\
  cf_dst_vlan flow' = cf_dst_vlan flow.

Lemma others_vlan_kept flow flow' : others_kept flow flow' -> vlan_kept flow flow'.
Proof. unfold others_kept, vlan_kept. intros H. ands. by split. Qed.

Lemma vlan_kept_trans a b c : vlan_kept a b -> vlan_kept b c -> vlan_kept a c.
Proof.
  unfold vlan_kept. intros [H1 H2] [H3 H4]. split; [|congruence].
  intros Hv. rewrite H3; [auto|]. by rewrite H1.
Qed.

Lemma apply_flow_record_vlan flow r : is_switch r = false -> vlan_kept flow (apply_flow_record flow r).
Proof.
  destruct r as [h| | | | | | | | | | | |]; try discriminate; intros _; try (by split).
  cbn [apply_flow_record]. unfold apply_sampled_header.
  set (f := flow<|cf_bytes := _|><|cf_packets := _|>).
  assert (H : vlan_kept flow f) by by split. clearbody f.
  destruct (sph_protocol h); try exact H; (eapply vlan_kept_trans; [exact H|]).
  - apply others_vlan_kept, apply_ethernet_frame_others.
  - eapply vlan_kept_trans; [|apply others_vlan_kept, apply_ip_packet_others]. by split.
  - eapply vlan_kept_trans; [|apply others_vlan_kept, apply_ip_packet_others]. by split.
Qed.

Lemma apply_flow_records_vlan rs : forall flow,
  Forall (fun r => is_switch r.(fr_data) = false) rs ->
  vlan_kept flow (fold_left (fun flow record => apply_flow_record flow record.(fr_data)) rs flow).
Proof.
  induction rs as [|r rs IH]; intros flow Hs; cbn; [by split|].
  apply Forall_cons in Hs as [Hr Hs]. eapply vlan_kept_trans; [by apply apply_flow_record_vlan|by apply IH].
Qed.

Lemma records_switch_vlan flow l1 l2 h sw :
  Forall (fun r => is_switch r.(fr_data) = false) l2 ->
  let flow' := fold_left (fun flow record => apply_flow_record flow record.(fr_data))
    (l1 ++ mkFlowRecord h (FlowRecordType.ExtendedSwitch sw) :: l2) flow in
  (fits_u 16 sw.(sw_src_vlan) -> cf_src_vlan flow' = Some sw.(sw_src_vlan)) /\
  cf_dst_vlan flow' = try_u 16 sw.(sw_dst_vlan).
Proof.
  intros Hl flow'. subst flow'. rewrite fold_left_app. cbn [fold_left fr_data apply_flow_record].
  generalize (fold_left (fun flow record => apply_flow_record flow (fr_data record)) l1 flow). intros f.
  destruct (apply_flow_records_vlan l2 (apply_extended_switch f sw) Hl) as [H1 H2]. split.
  - intros Hv. assert (E : cf_src_vlan (apply_extended_switch f sw) = try_u 16 (sw_src_vlan sw)) by reflexivity.
    unfold try_u in E. rewrite decide_True in E by done. rewrite H1, E; [done|by rewrite E].
  - rewrite H2. reflexivity.
Qed.

(** A flow with the given identity. *)
Definition started self (rate : Z) (in_if out_if : option Z) flow : Prop :=
  cf_flow_type flow = FlowType.SflowV5 /\ cf_sequence_num flow = self.(header).(sf_sequence_number) /\
  cf_sampler_address flow = self.(header).(sf_agent_address) /\ cf_sampling_rate flow = Some rate /\
  cf_time_received_ns flow = None /\ cf_time_flow_start_ns flow = None /\ cf_time_flow_end_ns flow = None /\
  cf_in_if flow = in_if /\ cf_out_if flow = out_if.

Lemma started_records self rate i o rs flow :
  started self rate i o flow ->
  started self rate i o (fold_left (fun flow record => apply_flow_record flow record.(fr_data)) rs flow).
Proof.
  intros H. pose proof (apply_flow_records_kept rs flow) as K. revert K.
  generalize (fold_left (fun flow record => apply_flow_record flow (fr_data record)) rs flow). intros flow' K.
  unfold started, sample_kept in *. ands. split_and!; congruence.
Qed.

Lemma started_flow self sample :
  started self sample.(fs_sampling_rate) (compact_if_index sample.(fs_input))
    (compact_if_index sample.(fs_output)) (convert_flow_sample self sample).
Proof. apply started_records. repeat split. Qed.

Lemma started_expanded self sample :
  started self sample.(efs_sampling_rate) (if_index sample.(efs_input_if_format) sample.(efs_input_if_value))
    (if_index sample.(efs_output_if_format) sample.(efs_output_if_value))
    (convert_expanded_flow_sample self sample).
Proof. apply started_records. repeat split. Qed.

(** A flow sample's flow, compact or expanded, has the datagram's sequence
    number and agent, the sample's rate, no times, and as interfaces just the
    ones of format 0 (other than the unknown 0, and in the compact encoding
    the agent itself), whatever its records say. *)
Theorem sflow_sample_flow self sample expanded :
  fits_u 32 sample.(fs_input) -> fits_u 32 sample.(fs_output) ->
  let flow := convert_flow_sample self sample in
  let flow' := convert_expanded_flow_sample self expanded in
  (forall f rate, (f, rate) = (flow, sample.(fs_sampling_rate)) \/ (f, rate) = (flow', expanded.(efs_sampling_rate)) ->
    cf_flow_type f = FlowType.SflowV5 /\ cf_sequence_num f = self.(header).(sf_sequence_number) /\
    cf_sampler_address f = self.(header).(sf_agent_address) /\ cf_sampling_rate f = Some rate /\
    cf_time_received_ns f = None /\ cf_time_flow_start_ns f = None /\ cf_time_flow_end_ns f = None) /\
  (forall v, cf_in_if flow = Some v <-> sample.(fs_input) = v /\ 0 < v < 2 ^ 30 - 1) /\
  (forall v, cf_out_if flow = Some v <-> sample.(fs_output) = v /\ 0 < v < 2 ^ 30 - 1) /\
  (forall v, cf_in_if flow' = Some v <->
     expanded.(efs_input_if_format) = 0 /\ expanded.(efs_input_if_value) = v /\ v <> 0) /\
  (forall v, cf_out_if flow' = Some v <->
     expanded.(efs_output_if_format) = 0 /\ expanded.(efs_output_if_value) = v /\ v <> 0).
Proof.
  intros Hi Ho flow flow'.
  pose proof (started_flow self sample) as (H1 & H2 & H3 & H4 & H5 & H6 & H7 & H8 & H9).
  pose proof (started_expanded self expanded) as (K1 & K2 & K3 & K4 & K5 & K6 & K7 & K8 & K9).
  split_and!.
  - intros f rate [E|E]; injection E as -> ->; split_and!; assumption.
  - intros v. unfold flow. rewrite H8. by apply compact_if_index_spec.
  - intros v. unfold flow. rewrite H9. by apply compact_if_index_spec.
  - intros v. unfold flow'. rewrite K8. apply if_index_spec.
  - intros v. unfold flow'. rewrite K9. apply if_index_spec.
Qed.

(** The VLANs of a sample are those of its last extended switch record,
    whichever order it and the packet header come in: a tag in the packet is
    only taken when no VLAN is known.  A switch record that does not know the
    VLAN, on the other hand, also takes away what a header before it said. *)
Theorem sflow_switch_vlan self sample l1 l2 h sw :
  sample.(fs_records) = l1 ++ mkFlowRecord h (FlowRecordType.ExtendedSwitch sw) :: l2 ->
  Forall (fun r => is_switch r.(fr_data) = false) l2 ->
  let flow := convert_flow_sample self sample in
  (fits_u 16 sw.(sw_src_vlan) -> cf_src_vlan flow = Some sw.(sw_src_vlan)) /\
  (l2 = [] -> cf_src_vlan flow = try_u 16 sw.(sw_src_vlan)) /\
  cf_dst_vlan flow = try_u 16 sw.(sw_dst_vlan).
Proof.
  intros Hr Hl flow. subst flow. unfold convert_flow_sample. rewrite Hr.
  generalize (CommonFlow_new FlowType.SflowV5). intros f0. cbv zeta.
  match goal with |- context [fold_left _ _ ?f] => generalize f end. intros f.
  destruct (records_switch_vlan f l1 l2 h sw Hl) as [H1 H2].
  split_and!; [exact H1| |exact H2]. intros ->. rewrite fold_left_app. reflexivity.
Qed.
End convert.

Section sample.
#[local] Instance sample_crates : Crates := crates_std.
#[local] Instance sample_etherparse : Etherparse := mini.

Definition sample_flow : FlowSample :=
  mkFlowSample (mkSampleHeader 1 0 0 0 0) 100 0 0 7 0x3fff_ffff
    [mkFlowRecord (mkRecordHeader 1 0) (FlowRecordType.SampledHeader
       (mkSampledHeader HeaderProtocol.Ipv4 60 0 (udp_ip 7 53 [x01])));
     mkFlowRecord (mkRecordHeader 1001 0)
       (FlowRecordType.ExtendedSwitch (mkExtendedSwitch 10 0 0xffff_ffff 0));
     mkFlowRecord (mkRecordHeader 1002 0) (FlowRecordType.ExtendedRouter (mkExtendedRouter None 24 16))].

Definition sample_expanded : ExpandedFlowSample :=
  mkExpandedFlowSample (mkSampleHeader 3 0 0 0 0) 100 0 0 0 8 1 2 [].

Definition sample_context : SFlowV5Context := mkContext (mkSFlowV5 5 (Some (V4 1)) 0 9 0 []).

Lemma sflow_sample_flow_witness :
  cf_in_if (convert_flow_sample sample_context sample_flow) = Some 7 /\
  cf_out_if (convert_flow_sample sample_context sample_flow) <> Some 0x3fff_ffff /\
  cf_in_if (convert_expanded_flow_sample sample_context sample_expanded) = Some 8 /\
  cf_out_if (convert_expanded_flow_sample sample_context sample_expanded) <> Some 2.
Proof.
  destruct (sflow_sample_flow sample_context sample_flow sample_expanded) as (_ & Hi & Ho & Hi' & Ho').
  - unfold fits_u. cbn. lia.
  - unfold fits_u. cbn. lia.
  - split_and!.
    + apply Hi. cbn. lia.
    + intros H. apply Ho in H. cbn in H. lia.
    + apply Hi'. cbn. lia.
    + intros H. apply Ho' in H. cbn in H. lia.
Defined.

Lemma sflow_switch_vlan_witness :
  cf_src_vlan (convert_flow_sample sample_context sample_flow) = Some 10 /\
  cf_dst_vlan (convert_flow_sample sample_context sample_flow) = None.
Proof.
  destruct (sflow_switch_vlan sample_context sample_flow (take 1 sample_flow.(fs_records))
    (drop 2 sample_flow.(fs_records)) (mkRecordHeader 1001 0) (mkExtendedSwitch 10 0 0xffff_ffff 0))
    as (H1 & _ & H2); [reflexivity|by repeat constructor|].
  split; [apply H1; unfold fits_u; cbn; lia|exact H2].
Defined.
End sample.
