(* ===== verification/Processor.v ===== *)
(** [rustflow/src/processor.rs]: datagrams in, flows out.  Each exporter
    address has its own parser and, per observation domain, what its options
    records said. *)

From Stdlib Require Import ZArith Lia Strings.Byte.
From stdpp Require Import base tactics numbers list gmap.
From coqutil Require Import Datatypes.RecordSetters.
From S2P Require Import Prelude Nom Std Crates IERegistry DataRecord Etherparse CommonFlow.
From S2P Require NetflowV5 NetflowV9 IpfixTypes Ipfix SflowV5 ConvertV5 ConvertV9 ConvertIpfix ConvertSflow.
Import TriangleBracketNotations.
#[local] Open Scope Z_scope.

Definition SWEEP_INTERVAL : Z := from_secs 10.
Definition MAX_SAMPLERS : Z := 1024.

(** ** What the options records of a domain said *)

Record Domain := mkDomain {
  d_sampling_rate : option Z;
  d_sampler_rates : gmap Z Z;
  d_shared_sampler_rate : option Z;
  d_system_init_time_ms : option Z;
}.

Definition default_domain : Domain := mkDomain None ∅ None None.

(** The first of the values if the others are the same. *)
Definition shared (rates : list Z) : option Z :=
  match rates with
  | first :: rates => if forallb (Z.eqb first) rates then Some first else None
  | [] => None
  end.

Definition set_sampling_rate (self : Domain) (sampler_id : option Z) (rate : Z) : Domain :=
  let '(mkDomain sampling_rate rates _ boot) := self in
  let '(sampling_rate, rates) :=
    match sampler_id with
    | None => (Some rate, rates)
    | Some id =>
        if Z.of_nat (size rates) <? MAX_SAMPLERS then (sampling_rate, <[id := rate]> rates)
        else
          match rates !! id with
          | Some _ => (sampling_rate, <[id := rate]> rates)
          | None => (sampling_rate, rates)
          end
    end in
  mkDomain sampling_rate rates (shared (map_to_list rates).*2) boot.

(** [sampler_id] is what the closure gives. *)
Definition sampling_rate (self : Domain) (sampler_id : option Z) : option Z :=
  if decide (self.(d_sampler_rates) = ∅) then self.(d_sampling_rate)
  else
    match (id ← sampler_id; self.(d_sampler_rates) !! id) with
    | Some r => Some r
    | None =>
        match self.(d_sampling_rate) with
        | Some r => Some r
        | None => self.(d_shared_sampler_rate)
        end
    end.

(** ** Exporters *)

Record Exporter (P : Type) := mkExporter {
  parser : P;
  domains : gmap Z Domain;
  last_seen : Z;
}.
Arguments mkExporter {P}.
Arguments parser {P}.
Arguments domains {P}.
Arguments last_seen {P}.

Record Exporters (P : Type) := mkExporters {
  map : gmap IpAddr (Exporter P);
  next_sweep : Z;
}.
Arguments mkExporters {P}.
Arguments map {P}.
Arguments next_sweep {P}.

Section exporters.
Context `{CK : Clock} {P : Type}.
Implicit Types (self : Exporters P).

Definition Exporters_new (reads : nat) : nat * Exporters P :=
  let '(reads, now) := instant_now reads in (reads, mkExporters ∅ now).

(** The exporter at [src], which the caller goes on to change in place
    ([update]); [new] may read the clock. *)
Definition entry self (src : IpAddr) (now timeout : Z) (new : nat -> nat * P) (reads : nat)
    : nat * Exporters P * Exporter P :=
  let '(map, next_sweep) :=
    if self.(next_sweep) <=? now then
      (filter (fun '(_, exporter) => duration_since now exporter.(last_seen) < timeout) self.(map),
       now + SWEEP_INTERVAL)
    else (self.(map), self.(next_sweep)) in
  let '(reads, exporter) :=
    match map !! src with
    | Some exporter => (reads, exporter)
    | None => let '(reads, parser) := new reads in (reads, mkExporter parser ∅ now)
    end in
  let exporter := mkExporter exporter.(parser) exporter.(domains) now in
  (reads, mkExporters (<[src := exporter]> map) next_sweep, exporter).

(** What is done through the [&mut Exporter]. *)
Definition update self (src : IpAddr) (exporter : Exporter P) : Exporters P :=
  mkExporters (<[src := exporter]> self.(map)) self.(next_sweep).

Definition domain self (src : IpAddr) (id : Z) : option Domain :=
  exporter ← self.(map) !! src; exporter.(domains) !! id.
End exporters.

(** ** Packets and processors *)

Class Packet (Pkt : Type) := {
  version : Pkt -> FlowType;
  flow_count : Pkt -> Z;
}.

(** [parse] is a step of the processor's state, reads of the clock included. *)
Class Processor `{CR : Crates} (S Pkt : Type) := {
  NAME : bytes;
  parse : nat * S -> IpAddr -> bytes -> (nat * S) * option Pkt;
  convert_into : S -> IpAddr -> Pkt -> option Z -> list CommonFlow -> list CommonFlow;
  version_of : bytes -> option FlowType;
}.

Section provided.
Context `{CR : Crates} {S Pkt : Type} `{PR : !Processor S Pkt}.

Definition convert (self : S) (src : IpAddr) (packet : Pkt) (time_received_ns : option Z)
    : list CommonFlow :=
  convert_into self src packet time_received_ns [].

Definition process (self : nat * S) (src : IpAddr) (payload : bytes) (time_received_ns : option Z)
    : (nat * S) * list CommonFlow :=
  match parse self src payload with
  | (self, Some packet) => (self, convert self.2 src packet time_received_ns)
  | (self, None) => (self, [])
  end.

Definition process_into (self : nat * S) (src : IpAddr) (payload : bytes)
    (time_received_ns : option Z) (flows : list CommonFlow) : (nat * S) * list CommonFlow :=
  match parse self src payload with
  | (self, Some packet) => (self, convert_into self.2 src packet time_received_ns flows)
  | (self, None) => (self, flows)
  end.
End provided.

(** [u16::from_be_bytes(payload.get(..2)?)], and for [u32]. *)
Definition leading (n : nat) (payload : bytes) : option Z :=
  if (n <=? length payload)%nat then Some (be_value (take n payload)) else None.

Section processor.
Context `{NM : Nom} `{CR : Crates} `{CK : Clock} `{EP : Etherparse}.

Inductive NetflowPacket :=
  | V5 (p : NetflowV5.NetFlowV5Packet)
  | V9 (p : NetflowV9.NetFlowV9Packet)
  | Ipfix (p : IpfixTypes.IpfixPacket).

Inductive SflowPacket := SV5 (p : SflowV5.SFlowV5).

#[export] Instance NetflowPacket_Packet : Packet NetflowPacket := {|
  version self :=
    match self with
    | V5 _ => FlowType.NetflowV5
    | V9 _ => FlowType.NetflowV9
    | Ipfix _ => FlowType.Ipfix
    end;
  flow_count self :=
    match self with
    | V5 p => zlen p.(NetflowV5.p_flow_records)
    | V9 p =>
        zlen (List.filter (fun record => match record with NetflowV9.Data _ => true | _ => false end)
          (p.(NetflowV9.p_flow_sets) ≫= NetflowV9.fs_records))
    | Ipfix p =>
        zlen (List.filter (fun record => match record with IpfixTypes.Data _ => true | _ => false end)
          (p.(IpfixTypes.p_sets) ≫= IpfixTypes.set_records))
    end;
|}.

#[export] Instance SflowPacket_Packet : Packet SflowPacket := {|
  version self := match self with SV5 _ => FlowType.SflowV5 end;
  flow_count self :=
    match self with
    | SV5 p =>
        zlen (List.filter (fun sample =>
          match sample with
          | SflowV5.Sample.Flow _ | SflowV5.Sample.ExpandedFlow _ => true
          | _ => false
          end) p.(SflowV5.sf_samples))
    end;
|}.

(** ** NetFlow and IPFIX *)

Record NetflowProcessor := mkProcessor {
  ie_registry : IERegistry;
  template_timeout : Z;
  v9 : Exporters NetflowV9.NetflowV9Parser;
  ipfix : Exporters Ipfix.IpfixParser;
}.

Definition NetflowProcessor_new (reads : nat) : nat * NetflowProcessor :=
  let '(reads, v9) := Exporters_new reads in
  let '(reads, ipfix) := Exporters_new reads in
  (reads, mkProcessor new_with_iana_elements (from_secs 600) v9 ipfix).

Definition with_ie_registry (self : NetflowProcessor) (registry : IERegistry) : NetflowProcessor :=
  mkProcessor registry self.(template_timeout) self.(v9) self.(ipfix).

Definition with_template_timeout (self : NetflowProcessor) (timeout : Z) : NetflowProcessor :=
  mkProcessor self.(ie_registry) timeout self.(v9) self.(ipfix).

(** What the options records among [records] say of a source, in turn. *)
Definition v9_options (domain : Domain) (records : list NetflowV9.Record_) : Domain :=
  fold_left (fun domain record =>
    match record with
    | NetflowV9.OptionsData data_record =>
        match ConvertV9.extract_v9_sampling_rate data_record with
        | Some rate => set_sampling_rate domain (ConvertV9.extract_v9_sampler_id data_record) rate
        | None => domain
        end
    | _ => domain
    end) records domain.

Definition ipfix_options (domain : Domain) (records : list IpfixTypes.Record_) : Domain :=
  fold_left (fun domain record =>
    match record with
    | IpfixTypes.OptionsData data_record =>
        let domain :=
          match ConvertIpfix.extract_ipfix_sampling_rate data_record with
          | Some rate => set_sampling_rate domain (ConvertIpfix.extract_ipfix_sampler_id data_record) rate
          | None => domain
          end in
        match ConvertIpfix.extract_ipfix_system_init_time data_record with
        | Some boot =>
            mkDomain domain.(d_sampling_rate) domain.(d_sampler_rates) domain.(d_shared_sampler_rate)
              (Some boot)
        | None => domain
        end
    | _ => domain
    end) records domain.

(** The match arms of [parse] for the versions with state: the parser of the
    exporter reads the payload, and its options go to the packet's domain. *)
Definition parse_v9 (self : nat * NetflowProcessor) (src : IpAddr) (payload : bytes)
    : (nat * NetflowProcessor) * option NetflowPacket :=
  let '(reads, self) := self in
  let timeout := self.(template_timeout) in
  let '(reads, now) := instant_now reads in
  let '(reads, v9, exporter) :=
    entry self.(v9) src now timeout (NetflowV9.new self.(ie_registry) timeout) reads in
  let '(reads, parser, r) := NetflowV9.parse (reads, exporter.(parser)) payload in
  let put domains :=
    mkProcessor self.(ie_registry) timeout
      (update v9 src (mkExporter parser domains exporter.(last_seen))) self.(ipfix) in
  match r with
  | Err _ => ((reads, put exporter.(domains)), None)
  | Ok (_, parsed) =>
      let id := parsed.(NetflowV9.p_header).(NetflowV9.h_source_id) in
      let domain := default default_domain (exporter.(domains) !! id) in
      let domain := v9_options domain (parsed.(NetflowV9.p_flow_sets) ≫= NetflowV9.fs_records) in
      ((reads, put (<[id := domain]> exporter.(domains))), Some (V9 parsed))
  end.

Definition parse_ipfix (self : nat * NetflowProcessor) (src : IpAddr) (payload : bytes)
    : (nat * NetflowProcessor) * option NetflowPacket :=
  let '(reads, self) := self in
  let timeout := self.(template_timeout) in
  let '(reads, now) := instant_now reads in
  let '(reads, ipfix, exporter) :=
    entry self.(ipfix) src now timeout (Ipfix.new self.(ie_registry) timeout) reads in
  let '(reads, parser, r) := Ipfix.parse (reads, exporter.(parser)) payload in
  let put domains :=
    mkProcessor self.(ie_registry) timeout self.(v9)
      (update ipfix src (mkExporter parser domains exporter.(last_seen))) in
  match r with
  | Err _ => ((reads, put exporter.(domains)), None)
  | Ok (_, parsed) =>
      let id := parsed.(IpfixTypes.p_header).(IpfixTypes.h_observation_domain_id) in
      let domain := default default_domain (exporter.(domains) !! id) in
      let domain := ipfix_options domain (parsed.(IpfixTypes.p_sets) ≫= IpfixTypes.set_records) in
      ((reads, put (<[id := domain]> exporter.(domains))), Some (Ipfix parsed))
  end.

Definition netflow_parse (self : nat * NetflowProcessor) (src : IpAddr) (payload : bytes)
    : (nat * NetflowProcessor) * option NetflowPacket :=
  match leading 2 payload with
  | None => (self, None)
  | Some version =>
      if version =? NetflowV5.NETFLOW_V5_VERSION then
        match NetflowV5.NetFlowV5Parser_parse payload with
        | Ok (_, parsed) => (self, Some (V5 parsed))
        | Err _ => (self, None)
        end
      else if version =? NetflowV9.NETFLOW_V9_VERSION then parse_v9 self src payload
      else if version =? IpfixTypes.IPFIX_VERSION then parse_ipfix self src payload
      else (self, None)
  end.

(** [flow.time_received_ns = time_received_ns; flows.extend([flow])] *)
Definition extend (flows : list CommonFlow) (flow : CommonFlow) (time_received_ns : option Z)
    : list CommonFlow :=
  flows ++ [flow<|cf_time_received_ns := time_received_ns|>].

Definition netflow_convert_into (self : NetflowProcessor) (src : IpAddr) (packet : NetflowPacket)
    (time_received_ns : option Z) (flows : list CommonFlow) : list CommonFlow :=
  match packet with
  | V5 parsed =>
      let ctx := ConvertV5.mkContext parsed.(NetflowV5.p_header) (Some src) in
      fold_left (fun flows record => extend flows (ConvertV5.convert ctx record) time_received_ns)
        parsed.(NetflowV5.p_flow_records) flows
  | V9 parsed =>
      let header := parsed.(NetflowV9.p_header) in
      let domain := domain self.(v9) src header.(NetflowV9.h_source_id) in
      fold_left (fun flows flow_set =>
        fold_left (fun flows record =>
          match record with
          | NetflowV9.Data data_record =>
              let ctx := ConvertV9.mkContext header (Some src)
                (d ← domain; sampling_rate d (ConvertV9.extract_v9_sampler_id data_record)) in
              extend flows (ConvertV9.convert ctx data_record flow_set.(NetflowV9.fs_id)) time_received_ns
          | _ => flows
          end) flow_set.(NetflowV9.fs_records) flows) parsed.(NetflowV9.p_flow_sets) flows
  | Ipfix parsed =>
      let header := parsed.(IpfixTypes.p_header) in
      let domain := domain self.(ipfix) src header.(IpfixTypes.h_observation_domain_id) in
      let system_init_time_ms := d ← domain; d.(d_system_init_time_ms) in
      fold_left (fun flows set =>
        fold_left (fun flows record =>
          match record with
          | IpfixTypes.Data data_record =>
              let ctx := ConvertIpfix.mkContext header (Some src)
                (d ← domain; sampling_rate d (ConvertIpfix.extract_ipfix_sampler_id data_record))
                system_init_time_ms in
              extend flows (ConvertIpfix.convert ctx data_record set.(IpfixTypes.set_id)) time_received_ns
          | _ => flows
          end) set.(IpfixTypes.set_records) flows) parsed.(IpfixTypes.p_sets) flows
  end.

Definition netflow_version_of (payload : bytes) : option FlowType :=
  v ← leading 2 payload;
  if v =? NetflowV5.NETFLOW_V5_VERSION then Some FlowType.NetflowV5
  else if v =? NetflowV9.NETFLOW_V9_VERSION then Some FlowType.NetflowV9
  else if v =? IpfixTypes.IPFIX_VERSION then Some FlowType.Ipfix
  else None.

#[export] Instance NetflowProcessor_Processor : Processor NetflowProcessor NetflowPacket := {|
  NAME := str "netflow";
  parse := netflow_parse;
  convert_into := netflow_convert_into;
  version_of := netflow_version_of;
|}.

(** ** sFlow *)

Inductive SflowProcessor := SflowProcessor_new.

Definition sflow_parse (self : nat * SflowProcessor) (src : IpAddr) (payload : bytes)
    : (nat * SflowProcessor) * option SflowPacket :=
  match leading 4 payload with
  | None => (self, None)
  | Some version =>
      if negb (version =? SflowV5.SFLOW_V5_VERSION) then (self, None)
      else
        match SflowV5.SflowV5Parser_parse payload with
        | Ok (_, parsed) => (self, Some (SV5 parsed))
        | Err _ => (self, None)
        end
  end.

Definition sflow_convert_into (self : SflowProcessor) (src : IpAddr) (packet : SflowPacket)
    (time_received_ns : option Z) (flows : list CommonFlow) : list CommonFlow :=
  let '(SV5 parsed) := packet in
  let ctx := ConvertSflow.mkContext parsed in
  fold_left (fun flows sample =>
    match sample with
    | SflowV5.Sample.Flow flow_sample =>
        extend flows (ConvertSflow.convert_flow_sample ctx flow_sample) time_received_ns
    | SflowV5.Sample.ExpandedFlow expanded_sample =>
        extend flows (ConvertSflow.convert_expanded_flow_sample ctx expanded_sample) time_received_ns
    | _ => flows
    end) parsed.(SflowV5.sf_samples) flows.

Definition sflow_version_of (payload : bytes) : option FlowType :=
  v ← leading 4 payload;
  if v =? SflowV5.SFLOW_V5_VERSION then Some FlowType.SflowV5 else None.

#[export] Instance SflowProcessor_Processor : Processor SflowProcessor SflowPacket := {|
  NAME := str "sflow";
  parse := sflow_parse;
  convert_into := sflow_convert_into;
  version_of := sflow_version_of;
|}.
End processor.
