(* ===== verification/ProcessorFacts.v ===== *)
(** What the processor promises: the sampling rates of a domain are a function
    of what was announced, exporters do not affect one another and are
    forgotten when quiet, and the flows of a packet are those of its data
    records. *)

From Stdlib Require Import ZArith Lia Strings.Byte.
From stdpp Require Import base tactics numbers list gmap fin_maps fin_map_dom sets.
From coqutil Require Import Datatypes.RecordSetters.
From S2P Require Import Prelude Nom Std Crates IERegistry DataRecord Etherparse CommonFlow Processor.
From S2P Require NetflowV5 NetflowV9 IpfixTypes Ipfix SflowV5 Convert ConvertPacket ConvertV5 ConvertV9 ConvertIpfix ConvertSflow.
Import TriangleBracketNotations.
#[local] Open Scope Z_scope.

(** ** The sampling rates of a domain *)

(** Announcements in the order they were made: a sampler, or none, and its rate. *)
Abbreviation Announcements := (list (option Z * Z)).

Definition announce (d : Domain) (l : Announcements) : Domain :=
  fold_left (fun d '(sampler, rate) => set_sampling_rate d sampler rate) l d.

(** The last rate announced for a sampler, or for no sampler. *)
Definition said (who : option Z) (l : Announcements) : option Z :=
  last (omap (fun '(w, rate) => if decide (w = who) then Some rate else None) l).

(** The samplers named, each once, in order of first mention. *)
Definition mention (named : list Z) (who : option Z) : list Z :=
  match who with
  | Some id => if decide (id ∈ named) then named else named ++ [id]
  | None => named
  end.
Definition named (l : Announcements) : list Z := fold_left mention l.*1 [].

(** The samplers that have a rate: the first [MAX_SAMPLERS] named. *)
Definition admitted (l : Announcements) : list Z := take (Z.to_nat MAX_SAMPLERS) (named l).

Lemma shared_spec l r : shared l = Some r <-> l <> [] /\ Forall (fun x => x = r) l.
Proof.
  unfold shared. destruct l as [|a l]; [naive_solver|].
  destruct (forallb (Z.eqb a) l) eqn:E.
  - split.
    + intros [= ->]. split; [done|]. constructor; [done|]. apply Forall_forall. intros x Hx.
      rewrite forallb_forall in E. apply list_elem_of_In, E, Z.eqb_eq in Hx. done.
    + intros [_ H]. inversion H; subst. done.
  - split; [done|]. intros [_ H]. inversion H as [|? ? -> Hl]; subst.
    rewrite <- not_true_iff_false in E. destruct E. apply forallb_forall. intros x Hx.
    rewrite Forall_forall in Hl. apply list_elem_of_In, Hl in Hx. subst. apply Z.eqb_refl.
Qed.

Lemma said_snoc who l w r :
  said who (l ++ [(w, r)]) = if decide (w = who) then Some r else said who l.
Proof.
  unfold said. rewrite omap_app. cbn. case_decide; [by rewrite last_snoc|by rewrite app_nil_r].
Qed.

Lemma named_snoc l w r : named (l ++ [(w, r)]) = mention (named l) w.
Proof. unfold named. by rewrite fmap_app, fold_left_app. Qed.

Lemma named_NoDup l : NoDup (named l).
Proof.
  induction l as [|[w r] l IH] using rev_ind; [constructor|]. rewrite named_snoc.
  destruct w as [id|]; cbn; [|done]. case_decide; [done|].
  apply NoDup_app. split_and!; [done| |apply NoDup_singleton]. set_solver.
Qed.

(** The rates kept are those last announced of the admitted samplers. *)
Definition rates_of (l : Announcements) (m : gmap Z Z) : Prop :=
  forall id, m !! id = if decide (id ∈ admitted l) then said (Some id) l else None.

Lemma admitted_said l id : id ∈ named l -> is_Some (said (Some id) l).
Proof.
  induction l as [|[w r] l IH] using rev_ind; [by intros ?%not_elem_of_nil|].
  rewrite named_snoc, said_snoc. case_decide as Hw; [by eexists|]. intros H. apply IH.
  destruct w as [w|]; cbn in H; [|done]. case_decide; [done|].
  apply elem_of_app in H as [H|H]; [done|]. apply list_elem_of_singleton in H. congruence.
Qed.

Lemma rates_of_size l m : rates_of l m -> size m = length (admitted l).
Proof.
  intros H.
  assert (E : dom m = list_to_set (admitted l)).
  { apply set_eq. intros id. rewrite elem_of_dom, elem_of_list_to_set, H.
    case_decide as Hi; [|split; [by intros []|done]]. split; [done|]. intros _.
    apply admitted_said. unfold admitted in Hi. by apply elem_of_take in Hi as (? & ?%list_elem_of_lookup_2 & _). }
  rewrite <- size_dom, E. apply size_list_to_set.
  pose proof (named_NoDup l) as Hn. rewrite <- (take_drop (Z.to_nat MAX_SAMPLERS) (named l)) in Hn.
  by apply NoDup_app in Hn as [? _].
Qed.

Lemma admitted_small l : (length (admitted l) < Z.to_nat MAX_SAMPLERS)%nat -> admitted l = named l.
Proof. unfold admitted. rewrite length_take. intros H. apply take_ge. lia. Qed.

Lemma elem_of_mention id named who : id ∈ mention named who <-> who = Some id \/ id ∈ named.
Proof. destruct who as [w|]; cbn; [case_decide|]; set_solver. Qed.

Lemma rates_of_insert l m id r :
  rates_of l m -> id ∈ admitted (l ++ [(Some id, r)]) ->
  (forall id', id' <> id -> id' ∈ admitted (l ++ [(Some id, r)]) <-> id' ∈ admitted l) ->
  rates_of (l ++ [(Some id, r)]) (<[id := r]> m).
Proof.
  intros H Hid Ho id'. rewrite said_snoc. destruct (decide (id' = id)) as [->|Hne].
  - rewrite lookup_insert_eq, !decide_True by done. done.
  - rewrite lookup_insert_ne, H by done.
    rewrite (decide_ext _ _ _ _ (Ho id' Hne)). case_decide; [|done]. rewrite decide_False by congruence. done.
Qed.

Lemma rates_of_announce l m id r :
  rates_of l m ->
  rates_of (l ++ [(Some id, r)])
    (if Z.of_nat (size m) <? MAX_SAMPLERS then <[id := r]> m
     else match m !! id with Some _ => <[id := r]> m | None => m end).
Proof.
  intros H. pose proof (rates_of_size l m H) as Hs. destruct (Z.ltb_spec (Z.of_nat (size m)) MAX_SAMPLERS) as [Hlt|Hge].
  - assert (Hl : (length (admitted l) < Z.to_nat MAX_SAMPLERS)%nat) by (unfold MAX_SAMPLERS in *; lia).
    pose proof (admitted_small l Hl) as E.
    assert (E' : admitted (l ++ [(Some id, r)]) = mention (named l) (Some id)).
    { unfold admitted. rewrite named_snoc. apply take_ge. cbn. rewrite E in Hl.
      case_decide; [|rewrite length_app; cbn]; lia. }
    apply rates_of_insert; [done|rewrite E', elem_of_mention; by left|].
    intros id' Hne. rewrite E', E, elem_of_mention. naive_solver.
  - assert (E' : admitted (l ++ [(Some id, r)]) = admitted l).
    { unfold admitted in *. rewrite named_snoc. rewrite length_take in Hs. cbn.
      case_decide; [done|]. apply take_app_le. unfold MAX_SAMPLERS in *. lia. }
    destruct (m !! id) as [old|] eqn:Em.
    + apply rates_of_insert; [done| |by rewrite E'].
      rewrite E'. rewrite H in Em. by case_decide.
    + intros id'. rewrite E', said_snoc, H. case_decide as Hi; [|done].
      rewrite decide_False; [done|]. intros [= ->]. rewrite H, decide_True in Em by done.
      unfold admitted in Hi. apply elem_of_take in Hi as (k & Hk & _).
      apply list_elem_of_lookup_2, admitted_said in Hk. rewrite Em in Hk. by destruct Hk.
Qed.

Lemma announce_snoc d l w r : announce d (l ++ [(w, r)]) = set_sampling_rate (announce d l) w r.
Proof. unfold announce. by rewrite fold_left_app. Qed.

(** A domain after announcements. *)
Definition domain_spec (l : Announcements) (d : Domain) : Prop :=
  d.(d_sampling_rate) = said None l /\ rates_of l d.(d_sampler_rates) /\
  (forall r, d.(d_shared_sampler_rate) = Some r <->
     d.(d_sampler_rates) <> ∅ /\ map_Forall (fun _ r' => r' = r) d.(d_sampler_rates)).

Lemma shared_values (m : gmap Z Z) r :
  shared (map_to_list m).*2 = Some r <-> m <> ∅ /\ map_Forall (fun _ r' => r' = r) m.
Proof.
  rewrite shared_spec, Forall_fmap, map_Forall_to_list.
  split; intros [H1 H2]; (split; [|eapply Forall_impl; [exact H2|]; intros []; naive_solver]).
  - intros ->. by rewrite map_to_list_empty in H1.
  - intros E%fmap_nil_inv. by apply map_to_list_empty_iff in E.
Qed.

Lemma announce_spec l : domain_spec l (announce default_domain l).
Proof.
  induction l as [|[w r] l IH] using rev_ind.
  - split_and!; [done| |].
    + intros id. cbn. rewrite lookup_empty. case_decide as Hi; [|done]. cbn in Hi. set_solver.
    + intros r. cbn. naive_solver.
  - rewrite announce_snoc. destruct (announce default_domain l) as [rate rates sh boot].
    destruct IH as (H1 & H2 & _). cbn [d_sampling_rate d_sampler_rates] in *.
    unfold domain_spec, set_sampling_rate. destruct w as [id|].
    + pose proof (rates_of_announce l rates id r H2) as H3.
      rewrite said_snoc, decide_False by done.
      destruct (_ <? _); [|destruct (rates !! id)]; cbn; split_and!; try done; intros; apply shared_values.
    + cbn. rewrite said_snoc, decide_True by done. split_and!; [done| |intros; apply shared_values].
      intros id. rewrite H2, said_snoc, (decide_False (P := None = Some id)) by done.
      unfold admitted. by rewrite named_snoc.
Qed.

(** The rate the admitted samplers' last rates agree on. *)
Definition agreed (l : Announcements) : option Z :=
  match admitted l with
  | [] => None
  | id :: ids =>
      if decide (Forall (fun i => said (Some i) l = said (Some id) l) ids) then said (Some id) l else None
  end.

Lemma agreed_spec l m r : rates_of l m -> agreed l = Some r <-> m <> ∅ /\ map_Forall (fun _ r' => r' = r) m.
Proof.
  intros H.
  assert (Hm : forall id r', m !! id = Some r' <-> id ∈ admitted l /\ said (Some id) l = Some r').
  { intros id r'. rewrite H. case_decide; naive_solver. }
  assert (Hs : forall id, id ∈ admitted l -> is_Some (said (Some id) l)).
  { intros id Hi. apply admitted_said. unfold admitted in Hi.
    apply elem_of_take in Hi as (k & Hk & _). by eapply list_elem_of_lookup_2. }
  unfold agreed. destruct (admitted l) as [|id ids].
  { split; [done|]. intros [Hne _]. destruct Hne. apply map_empty. intros id.
    apply eq_None_not_Some. intros [x Hx]. apply Hm in Hx as [Hx _]. by apply not_elem_of_nil in Hx. }
  destruct (Hs id) as [r0 E0]; [by left|].
  assert (Hid : m !! id = Some r0) by (apply Hm; split; [by left|done]).
  case_decide as Ha.
  - rewrite E0. split.
    + intros [= ->]. split; [intros ->; by rewrite lookup_empty in Hid|].
      intros i r' Hi. apply Hm in Hi as [[->|Hi]%elem_of_cons E]; [congruence|].
      rewrite Forall_forall in Ha. rewrite (Ha i Hi) in E. congruence.
    + intros [_ Hall]. f_equal. by apply (Hall id).
  - split; [done|]. intros [_ Hall]. destruct Ha. apply Forall_forall. intros i Hi.
    destruct (Hs i) as [r' E']; [by right|]. rewrite E', E0. f_equal.
    trans r; [|symmetry; by apply (Hall id)]. apply (Hall i). apply Hm. split; [by right|done].
Qed.

(** C11: The sampling rates of a domain are what a log of the announcements its
    options records made says: a sampler among the first 1,024 named has the
    rate last announced for it, the others have none and take no room; a data
    record takes its sampler's rate, or else the one last announced for no
    sampler, or else the one all samplers' last rates agree on. *)
Theorem domain_rates l sampler :
  let d := announce default_domain l in
  (size d.(d_sampler_rates) <= Z.to_nat MAX_SAMPLERS)%nat /\
  (forall id, d.(d_sampler_rates) !! id = if decide (id ∈ admitted l) then said (Some id) l else None) /\
  sampling_rate d sampler
  = match (id ← sampler; if decide (id ∈ admitted l) then said (Some id) l else None) with
    | Some r => Some r
    | None => match said None l with Some r => Some r | None => agreed l end
    end.
Proof.
  intros d. destruct (announce_spec l) as (H1 & H2 & H3). fold d in H1, H2, H3. split_and!.
  - rewrite (rates_of_size l _ H2). unfold admitted. rewrite length_take. lia.
  - exact H2.
  - assert (E : (id ← sampler; d_sampler_rates d !! id)
      = (id ← sampler; if decide (id ∈ admitted l) then said (Some id) l else None)).
    { destruct sampler as [id|]; [apply H2|done]. }
    assert (E3 : d_shared_sampler_rate d = agreed l).
    { apply option_eq. intros r. rewrite H3. symmetry. by apply agreed_spec. }
    unfold sampling_rate. rewrite E, E3, H1. case_decide as He; [|done].
    rewrite <- E, He.
    assert (Ea : agreed l = None).
    { apply eq_None_not_Some. intros [r Hr]. apply (agreed_spec l _ r H2) in Hr as [Hr _]. done. }
    rewrite Ea. destruct sampler; cbn; rewrite ?lookup_empty; by destruct (said None l).
Qed.

(** ** Domains stay well-formed *)

Definition domain_inv (d : Domain) : Prop :=
  (size d.(d_sampler_rates) <= Z.to_nat MAX_SAMPLERS)%nat /\
  d.(d_shared_sampler_rate) = shared (map_to_list d.(d_sampler_rates)).*2.

Lemma default_domain_inv : domain_inv default_domain.
Proof. split; [apply Nat.le_0_l|reflexivity]. Qed.

Lemma set_sampling_rate_inv d w r : domain_inv d -> domain_inv (set_sampling_rate d w r).
Proof.
  destruct d as [rate rates sh boot]. intros [Hs _]. cbn in Hs. unfold set_sampling_rate, domain_inv.
  destruct w as [id|]; [|by split].
  destruct (Z.ltb_spec (Z.of_nat (size rates)) MAX_SAMPLERS) as [Hlt|Hge].
  - cbn. split; [|done]. destruct (rates !! id) eqn:E.
    + rewrite map_size_insert_Some; [lia|by eexists].
    + rewrite map_size_insert_None by done. unfold MAX_SAMPLERS in *. lia.
  - destruct (rates !! id) eqn:E; cbn; (split; [|done]); [|done].
    rewrite map_size_insert_Some; [lia|by eexists].
Qed.

Section options.
Context `{CR : Crates}.

Lemma v9_options_inv records : forall d, domain_inv d -> domain_inv (v9_options d records).
Proof.
  unfold v9_options. induction records as [|r records IH]; intros d Hd; [done|]. cbn. apply IH.
  destruct r; try done. case_match; [by apply set_sampling_rate_inv|done].
Qed.

Lemma ipfix_options_inv records : forall d, domain_inv d -> domain_inv (ipfix_options d records).
Proof.
  unfold ipfix_options. induction records as [|r records IH]; intros d Hd; [done|]. cbn. apply IH.
  destruct r as [| | |r]; try done.
  assert (H : domain_inv (match ConvertIpfix.extract_ipfix_sampling_rate r with
    | Some rate => set_sampling_rate d (ConvertIpfix.extract_ipfix_sampler_id r) rate | None => d end)).
  { case_match; [by apply set_sampling_rate_inv|done]. }
  destruct (ConvertIpfix.extract_ipfix_system_init_time r); exact H.
Qed.
End options.

(** ** Exporters *)

Section exporters.
Context `{CK : Clock} {P : Type}.
Implicit Types (self : Exporters P) (e : Exporter P).

(** Whether an exporter is swept out at [now]. *)
Definition swept_out self (now timeout : Z) e : bool :=
  (self.(next_sweep) <=? now) && negb (duration_since now e.(last_seen) <? timeout).

Lemma entry_spec self src now timeout new reads :
  let '(reads', self', e) := entry self src now timeout new reads in
  self'.(map) !! src = Some e /\ e.(last_seen) = now /\
  (forall src', src' <> src -> self'.(map) !! src'
     = (e' ← self.(map) !! src'; if swept_out self now timeout e' then None else Some e')) /\
  self'.(next_sweep) = (if self.(next_sweep) <=? now then now + SWEEP_INTERVAL else self.(next_sweep)) /\
  match (e' ← self.(map) !! src; if swept_out self now timeout e' then None else Some e') with
  | Some e' => reads' = reads /\ e = mkExporter e'.(parser) e'.(domains) now
  | None => reads' = (new reads).1 /\ e = mkExporter (new reads).2 ∅ now
  end.
Proof.
  unfold entry.
  set (m := if next_sweep self <=? now
    then filter (fun '(_, exporter) => duration_since now (last_seen exporter) < timeout) (map self)
    else map self).
  assert (Hm : forall s, m !! s = (e' ← map self !! s; if swept_out self now timeout e' then None else Some e')).
  { intros s. subst m. unfold swept_out. destruct (next_sweep self <=? now); cbn [andb].
    - rewrite map_lookup_filter. destruct (map self !! s) as [e'|]; cbn; [|done].
      destruct (Z.ltb_spec (duration_since now (last_seen e')) timeout) as [Hl|Hl]; cbn.
      + by rewrite option_guard_True.
      + rewrite option_guard_False; [done|lia].
    - by destruct (map self !! s). }
  assert (E : (if next_sweep self <=? now
     then (filter (fun '(_, exporter) => duration_since now (last_seen exporter) < timeout) (map self),
           now + SWEEP_INTERVAL)
     else (map self, next_sweep self))
    = (m, if next_sweep self <=? now then now + SWEEP_INTERVAL else next_sweep self)).
  { subst m. by destruct (_ <=? _). }
  rewrite E. rewrite <- (Hm src). destruct (m !! src) as [e|] eqn:Es.
  - cbn. rewrite lookup_insert_eq. split_and!; try done.
    intros s Hs. by rewrite lookup_insert_ne, Hm by done.
  - destruct (new reads) as [reads' p]. cbn. rewrite lookup_insert_eq. split_and!; try done.
    intros s Hs. by rewrite lookup_insert_ne, Hm by done.
Qed.

(** At the last sweep every exporter had been heard from within the timeout. *)
Definition exporters_inv (timeout : Z) (good : Exporter P -> Z -> Prop) self (t : Z) : Prop :=
  self.(next_sweep) <= t + SWEEP_INTERVAL /\
  forall src e, self.(map) !! src = Some e ->
    e.(last_seen) <= t /\ self.(next_sweep) - SWEEP_INTERVAL - e.(last_seen) < timeout /\ good e t.

Lemma exporters_inv_later timeout good self t t' :
  (forall e t t', t <= t' -> good e t -> good e t') ->
  t <= t' -> exporters_inv timeout good self t -> exporters_inv timeout good self t'.
Proof.
  intros Hg Ht [H1 H2]. split; [lia|]. intros src e He. destruct (H2 src e He) as (? & ? & ?).
  split_and!; [lia|lia|by eapply Hg].
Qed.

(** Marking [src] as seen and changing it keeps the invariant. *)
Lemma entry_inv timeout (good : Exporter P -> Z -> Prop) self src now t new reads e' :
  (forall e t t', t <= t' -> good e t -> good e t') ->
  0 < timeout -> exporters_inv timeout good self now -> now <= t ->
  e'.(last_seen) = now -> good e' t ->
  exporters_inv timeout good (update (entry self src now timeout new reads).1.2 src e') t.
Proof.
  intros Hg Ht [H1 H2] Hn El Hgood. pose proof (entry_spec self src now timeout new reads) as H.
  destruct (entry self src now timeout new reads) as [[reads' self'] e].
  destruct H as (_ & _ & Ho & Hs & _). cbn. split; cbn.
  - rewrite Hs. unfold SWEEP_INTERVAL, from_secs in *. case_match; lia.
  - intros s x. destruct (decide (s = src)) as [->|Hne].
    + rewrite lookup_insert_eq. intros [= <-]. rewrite Hs, El. split_and!; [lia| |done].
      unfold SWEEP_INTERVAL, from_secs in *. case_match; lia.
    + rewrite lookup_insert_ne, Ho by done. destruct (map self !! s) as [y|] eqn:Ey; cbn; [|done].
      destruct (swept_out self now timeout y) eqn:Esw; [done|]. intros [= ->].
      destruct (H2 s x Ey) as (Hx1 & Hx2 & Hx3). rewrite Hs. split_and!; [lia| |by eapply Hg].
      unfold swept_out in Esw. destruct (next_sweep self <=? now); [|lia].
      cbn in Esw. apply negb_false_iff, Z.ltb_lt in Esw. unfold duration_since in Esw. lia.
Qed.

(** Nothing is left of an exporter that has been quiet for the timeout and a
    sweep interval. *)
Lemma entry_quiet timeout good self src now new reads e' src' e :
  0 < timeout -> exporters_inv timeout good self now -> e'.(last_seen) = now ->
  (update (entry self src now timeout new reads).1.2 src e').(map) !! src' = Some e ->
  now - e.(last_seen) < timeout + SWEEP_INTERVAL.
Proof.
  intros Ht [H1 H2] El. pose proof (entry_spec self src now timeout new reads) as H.
  destruct (entry self src now timeout new reads) as [[reads' self'] e0].
  destruct H as (_ & _ & Ho & Hs & _). cbn. destruct (decide (src' = src)) as [->|Hne].
  - rewrite lookup_insert_eq. intros [= <-]. rewrite El. unfold SWEEP_INTERVAL, from_secs. lia.
  - rewrite lookup_insert_ne, Ho by done. destruct (map self !! src') as [y|] eqn:Ey; cbn; [|done].
    destruct (swept_out self now timeout y) eqn:Esw; [done|]. intros [= ->].
    destruct (H2 src' e Ey) as (Hx1 & Hx2 & _). unfold swept_out in Esw.
    destruct (Z.leb_spec (next_sweep self) now); cbn in Esw; [|lia].
    apply negb_false_iff, Z.ltb_lt in Esw. unfold duration_since, SWEEP_INTERVAL, from_secs in *. lia.
Qed.
End exporters.
