(* ===== verification/ProcessorInv.v ===== *)
(** The processor over a whole run: whatever datagrams arrive, in whatever
    order and from whoever, its parsers and domains stay well-formed, one
    exporter's datagrams change nothing of another's, and exporters that went
    quiet are forgotten. *)

From Stdlib Require Import ZArith Lia Strings.Byte.
From stdpp Require Import base tactics numbers list gmap fin_maps.
From S2P Require Import Prelude Nom Std Crates IERegistry DataRecord Etherparse CommonFlow Processor ProcessorFacts.
From S2P Require NetflowV5 NetflowV9 IpfixTypes Ipfix.
#[local] Open Scope Z_scope.

Section processor.
Context `{NM : Nom} `{CR : Crates} `{CK : Clock} `{CM : !ClockMonotone CK}.
Implicit Types (st : nat * NetflowProcessor).

(** ** One step of one exporter *)

Definition v9_good (e : Exporter NetflowV9.NetflowV9Parser) (t : Z) : Prop :=
  NetflowV9.parser_inv e.(parser) t /\ map_Forall (fun _ => domain_inv) e.(domains).
Definition ipfix_good (e : Exporter Ipfix.IpfixParser) (t : Z) : Prop :=
  Ipfix.parser_inv e.(parser) t /\ map_Forall (fun _ => domain_inv) e.(domains).

Lemma v9_good_later e t t' : t <= t' -> v9_good e t -> v9_good e t'.
Proof. intros Ht [H H']. split; [by eapply NetflowV9.parser_inv_later|done]. Qed.
Lemma ipfix_good_later e t t' : t <= t' -> ipfix_good e t -> ipfix_good e t'.
Proof. intros Ht [H H']. split; [by eapply Ipfix.ipfix_parser_inv_later|done]. Qed.

(** What a datagram does to the exporter [e] it comes from. *)
Definition v9_heard (e : Exporter NetflowV9.NetflowV9Parser) (reads : nat) (payload : bytes)
    (reads' : nat) (e' : Exporter NetflowV9.NetflowV9Parser) (r : option NetflowPacket) : Prop :=
  exists parsed, NetflowV9.parse (reads, e.(parser)) payload = ((reads', e'.(parser)), parsed) /\
    e'.(last_seen) = e.(last_seen) /\
    match parsed with
    | Err _ => r = None /\ e'.(domains) = e.(domains)
    | Ok (_, p) =>
        r = Some (V9 p) /\
        let id := p.(NetflowV9.p_header).(NetflowV9.h_source_id) in
        e'.(domains) = <[id := v9_options (default default_domain (e.(domains) !! id))
          (p.(NetflowV9.p_flow_sets) ≫= NetflowV9.fs_records)]> e.(domains)
    end.

Definition ipfix_heard (e : Exporter Ipfix.IpfixParser) (reads : nat) (payload : bytes)
    (reads' : nat) (e' : Exporter Ipfix.IpfixParser) (r : option NetflowPacket) : Prop :=
  exists parsed, Ipfix.parse (reads, e.(parser)) payload = ((reads', e'.(parser)), parsed) /\
    e'.(last_seen) = e.(last_seen) /\
    match parsed with
    | Err _ => r = None /\ e'.(domains) = e.(domains)
    | Ok (_, p) =>
        r = Some (Ipfix p) /\
        let id := p.(IpfixTypes.p_header).(IpfixTypes.h_observation_domain_id) in
        e'.(domains) = <[id := ipfix_options (default default_domain (e.(domains) !! id))
          (p.(IpfixTypes.p_sets) ≫= IpfixTypes.set_records)]> e.(domains)
    end.

(** The exporter a datagram is taken to, and what is left of the others. *)
Definition found_v9 (reads : nat) (self : NetflowProcessor) (src : IpAddr) :=
  entry self.(v9) src (instant_at reads) self.(template_timeout)
    (NetflowV9.new self.(ie_registry) self.(template_timeout)) (S reads).
Definition found_ipfix (reads : nat) (self : NetflowProcessor) (src : IpAddr) :=
  entry self.(ipfix) src (instant_at reads) self.(template_timeout)
    (Ipfix.new self.(ie_registry) self.(template_timeout)) (S reads).

Definition v9_step (reads : nat) (self : NetflowProcessor) src payload
    (reads' : nat) (self' : NetflowProcessor) (r : option NetflowPacket) : Prop :=
  let found := found_v9 reads self src in
  exists e', v9_heard found.2 found.1.1 payload reads' e' r /\
    self' = mkProcessor self.(ie_registry) self.(template_timeout) (update found.1.2 src e') self.(ipfix).
Definition ipfix_step (reads : nat) (self : NetflowProcessor) src payload
    (reads' : nat) (self' : NetflowProcessor) (r : option NetflowPacket) : Prop :=
  let found := found_ipfix reads self src in
  exists e', ipfix_heard found.2 found.1.1 payload reads' e' r /\
    self' = mkProcessor self.(ie_registry) self.(template_timeout) self.(v9) (update found.1.2 src e').

Lemma parse_v9_spec reads self src payload :
  let '((reads', self'), r) := parse_v9 (reads, self) src payload in
  v9_step reads self src payload reads' self' r.
Proof.
  unfold parse_v9, instant_now, v9_step. fold (found_v9 reads self src).
  destruct (found_v9 reads self src) as [[reads1 v9'] e]. cbn [fst snd].
  destruct (NetflowV9.parse (reads1, parser e) payload) as [[reads' p'] [[rest p]|err]] eqn:E;
    (eexists (mkExporter _ _ _); split; [eexists; split; [exact E|]; by split_and!|done]).
Qed.

Lemma parse_ipfix_spec reads self src payload :
  let '((reads', self'), r) := parse_ipfix (reads, self) src payload in
  ipfix_step reads self src payload reads' self' r.
Proof.
  unfold parse_ipfix, instant_now, ipfix_step. fold (found_ipfix reads self src).
  destruct (found_ipfix reads self src) as [[reads1 ipfix'] e]. cbn [fst snd].
  destruct (Ipfix.parse (reads1, parser e) payload) as [[reads' p'] [[rest p]|err]] eqn:E;
    (eexists (mkExporter _ _ _); split; [eexists; split; [exact E|]; by split_and!|done]).
Qed.

(** A datagram of a protocol without state does nothing; of the others it
    goes to one exporter. *)
Lemma netflow_parse_spec st src payload :
  let '((reads', self'), r) := netflow_parse st src payload in
  match netflow_version_of payload with
  | Some FlowType.NetflowV9 => v9_step st.1 st.2 src payload reads' self' r
  | Some FlowType.Ipfix => ipfix_step st.1 st.2 src payload reads' self' r
  | Some FlowType.NetflowV5 =>
      (reads', self') = st /\
      r = match NetflowV5.NetFlowV5Parser_parse payload with Ok (_, p) => Some (V5 p) | Err _ => None end
  | Some FlowType.SflowV5 => False
  | None => (reads', self') = st /\ r = None
  end.
Proof.
  unfold netflow_parse, netflow_version_of. destruct st as [reads self].
  destruct (leading 2 payload) as [v|]; [|done]. cbn [mbind option_bind].
  destruct (v =? _); [by destruct (NetflowV5.NetFlowV5Parser_parse payload) as [[? ?]|]|].
  destruct (v =? _); [apply parse_v9_spec|]. by destruct (v =? _); [apply parse_ipfix_spec|].
Qed.

Lemma v9_heard_good e reads payload reads' e' r :
  v9_good e (instant_at reads) -> v9_heard e reads payload reads' e' r ->
  v9_good e' (instant_at reads') /\ (reads <= reads')%nat.
Proof.
  intros [Hp Hd] (parsed & E & _ & Hm).
  destruct (NetflowV9.v9_parse_steps (reads, parser e) payload) as (sid & H & _).
  rewrite E in H. cbn in H. destruct (H Hp) as [Hp' (Hle & _)]. cbn in Hle, Hp'.
  split; [split; [done|]|done]. destruct parsed as [[rest p]|err].
  - destruct Hm as [_ ->]. apply map_Forall_insert_2; [|done]. apply v9_options_inv.
    destruct (domains e !! _) eqn:Ed; cbn; [by eapply Hd|apply default_domain_inv].
  - by destruct Hm as [_ ->].
Qed.

Lemma ipfix_heard_good e reads payload reads' e' r :
  ipfix_good e (instant_at reads) -> ipfix_heard e reads payload reads' e' r ->
  ipfix_good e' (instant_at reads') /\ (reads <= reads')%nat.
Proof.
  intros [Hp Hd] (parsed & E & _ & Hm).
  destruct (Ipfix.ipfix_parse_steps (reads, parser e) payload) as (sid & H & _).
  rewrite E in H. cbn in H. destruct (H Hp) as [Hp' (Hle & _)]. cbn in Hle, Hp'.
  split; [split; [done|]|done]. destruct parsed as [[rest p]|err].
  - destruct Hm as [_ ->]. apply map_Forall_insert_2; [|done]. apply ipfix_options_inv.
    destruct (domains e !! _) eqn:Ed; cbn; [by eapply Hd|apply default_domain_inv].
  - by destruct Hm as [_ ->].
Qed.

(** The parser a new exporter is given. *)
Lemma v9_new_good registry tmo now reads :
  0 <= tmo ->
  v9_good (mkExporter (NetflowV9.new registry tmo reads).2 ∅ now)
    (instant_at (NetflowV9.new registry tmo reads).1).
Proof. intros Ht. split; [by apply NetflowV9.new_parser_inv|apply map_Forall_empty]. Qed.
Lemma ipfix_new_good registry tmo now reads :
  0 <= tmo ->
  ipfix_good (mkExporter (Ipfix.new registry tmo reads).2 ∅ now)
    (instant_at (Ipfix.new registry tmo reads).1).
Proof. intros Ht. split; [by apply Ipfix.ipfix_new_parser_inv|apply map_Forall_empty]. Qed.
End processor.

(** Splits a step of the processor into the one that does nothing and those of
    NetFlow v9 and IPFIX. *)
Ltac by_protocol st src payload :=
  pose proof (netflow_parse_spec st src payload) as Hs;
  destruct (netflow_parse st src payload) as [[reads' self'] r];
  assert (Hc : (netflow_version_of payload <> Some FlowType.NetflowV9 /\
      netflow_version_of payload <> Some FlowType.Ipfix /\ (reads', self') = st) \/
    (netflow_version_of payload = Some FlowType.NetflowV9 /\ v9_step st.1 st.2 src payload reads' self' r) \/
    (netflow_version_of payload = Some FlowType.Ipfix /\ ipfix_step st.1 st.2 src payload reads' self' r))
    by (destruct (netflow_version_of payload) as [[]|];
      first [by left; split_and!; [done|done|apply Hs]|by right; left|by right; right|done]);
  clear Hs; destruct Hc as [(Hn9 & Hnx & <-)|[(Hv & e' & Hh & ->)|(Hv & e' & Hh & ->)]].

(** ** The exporter found for a datagram *)

Section found.
Context `{CK : Clock} `{CM : !ClockMonotone CK} {P : Type}.
Context (good : Exporter P -> Z -> Prop) (new : nat -> nat * P) (tmo : Z).
Context (good_later : forall e t t', t <= t' -> good e t -> good e t').
Context (good_seen : forall e now t, good e t -> good (mkExporter e.(parser) e.(domains) now) t).
Context (good_new : forall now reads,
  (reads <= (new reads).1)%nat /\ good (mkExporter (new reads).2 ∅ now) (instant_at (new reads).1)).

Lemma found_good self src reads :
  exporters_inv tmo good self (instant_at reads) ->
  let found := entry self src (instant_at reads) tmo new (S reads) in
  (S reads <= found.1.1)%nat /\ good found.2 (instant_at found.1.1).
Proof.
  intros [_ H] found. pose proof (entry_spec self src (instant_at reads) tmo new (S reads)) as Hs.
  subst found. destruct (entry _ _ _ _ _ _) as [[reads' self'] e]. destruct Hs as (_ & _ & _ & _ & Hs).
  cbn. destruct (map self !! src) as [e0|] eqn:E0; cbn in Hs; [destruct (swept_out _ _ _ _)|].
  - destruct Hs as [-> ->]. apply good_new.
  - destruct Hs as [-> ->]. split; [done|]. apply good_seen.
    eapply good_later; [|by apply (H src)]. apply instant_mono. lia.
  - destruct Hs as [-> ->]. apply good_new.
Qed.

Lemma entry_seen self src now reads : (entry self src now tmo new reads).2.(last_seen) = now.
Proof.
  pose proof (entry_spec self src now tmo new reads) as H. destruct (entry _ _ _ _ _ _) as [[? ?] ?]. apply H.
Qed.

(** What the caller leaves in place of the exporter it found. *)
Lemma heard_inv self src reads reads' e' :
  let found := entry self src (instant_at reads) tmo new (S reads) in
  0 < tmo -> exporters_inv tmo good self (instant_at reads) ->
  e'.(last_seen) = found.2.(last_seen) -> good e' (instant_at reads') -> (reads <= reads')%nat ->
  exporters_inv tmo good (update found.1.2 src e') (instant_at reads').
Proof.
  intros found Ht Hi El Hg Hr. apply entry_inv; try assumption; [by apply instant_mono|].
  rewrite El. apply entry_seen.
Qed.
End found.

(** ** Runs *)

Section runs.
Context `{NM : Nom} `{CR : Crates} `{CK : Clock} `{CM : !ClockMonotone CK}.
Implicit Types (st : nat * NetflowProcessor).

(** The datagrams that have arrived, and from whom. *)
Definition run st (datagrams : list (IpAddr * bytes)) : nat * NetflowProcessor :=
  fold_left (fun st '(src, payload) => (netflow_parse st src payload).1) datagrams st.

(** A processor as it is built. *)
Definition start (registry : IERegistry) (timeout : Z) (reads : nat) : nat * NetflowProcessor :=
  let '(reads, self) := NetflowProcessor_new reads in
  (reads, with_template_timeout (with_ie_registry self registry) timeout).

(** Every parser satisfies its invariant, every domain's rates are within
    bounds and its shared rate is up to date, and no exporter was quiet for the
    timeout when the exporters were last swept. *)
Definition netflow_inv st : Prop :=
  0 < st.2.(template_timeout) /\
  exporters_inv st.2.(template_timeout) v9_good st.2.(v9) (instant_at st.1) /\
  exporters_inv st.2.(template_timeout) ipfix_good st.2.(ipfix) (instant_at st.1).

Lemma start_inv registry timeout reads : 0 < timeout -> netflow_inv (start registry timeout reads).
Proof.
  intros Ht. split; [done|]. cbn.
  pose proof (instant_mono reads (S (S reads)) ltac:(lia)).
  pose proof (instant_mono (S reads) (S (S reads)) ltac:(lia)).
  split; (split; [cbn; unfold SWEEP_INTERVAL, from_secs; lia|cbn; intros src e; by rewrite lookup_empty]).
Qed.

Lemma v9_step_inv st src payload reads' self' r :
  netflow_inv st -> v9_step st.1 st.2 src payload reads' self' r -> netflow_inv (reads', self').
Proof.
  destruct st as [reads self]. intros (Ht & H9 & Hx) (e' & Hh & ->). cbn in Ht, H9, Hx, Hh |- *.
  destruct (found_good v9_good (NetflowV9.new (ie_registry self) (template_timeout self))
    (template_timeout self) v9_good_later ltac:(done)
    ltac:(intros; split; [cbn; lia|apply v9_new_good; lia]) _ src _ H9) as [Hr Hg].
  fold (found_v9 reads self src) in Hr, Hg.
  destruct (v9_heard_good _ _ _ _ _ _ Hg Hh) as [Hg' Hr'].
  split; [done|]. cbn. split.
  - apply heard_inv; try assumption; [apply v9_good_later|by destruct Hh as (? & _ & ? & _)|lia].
  - eapply exporters_inv_later; [apply ipfix_good_later| |exact Hx]. apply instant_mono. lia.
Qed.

Lemma ipfix_step_inv st src payload reads' self' r :
  netflow_inv st -> ipfix_step st.1 st.2 src payload reads' self' r -> netflow_inv (reads', self').
Proof.
  destruct st as [reads self]. intros (Ht & H9 & Hx) (e' & Hh & ->). cbn in Ht, H9, Hx, Hh |- *.
  destruct (found_good ipfix_good (Ipfix.new (ie_registry self) (template_timeout self))
    (template_timeout self) ipfix_good_later ltac:(done)
    ltac:(intros; split; [cbn; lia|apply ipfix_new_good; lia]) _ src _ Hx) as [Hr Hg].
  fold (found_ipfix reads self src) in Hr, Hg.
  destruct (ipfix_heard_good _ _ _ _ _ _ Hg Hh) as [Hg' Hr'].
  split; [done|]. cbn. split.
  - eapply exporters_inv_later; [apply v9_good_later| |exact H9]. apply instant_mono. lia.
  - apply heard_inv; try assumption; [apply ipfix_good_later|by destruct Hh as (? & _ & ? & _)|lia].
Qed.

Lemma netflow_parse_inv st src payload : netflow_inv st -> netflow_inv (netflow_parse st src payload).1.
Proof.
  intros H. by_protocol st src payload; [done| |]; cbn.
  - eapply v9_step_inv; [exact H|]. by eexists.
  - eapply ipfix_step_inv; [exact H|]. by eexists.
Qed.

Lemma parse_timeout st src payload :
  (netflow_parse st src payload).1.2.(template_timeout) = st.2.(template_timeout).
Proof. by by_protocol st src payload. Qed.

Lemma run_timeout datagrams : forall st, (run st datagrams).2.(template_timeout) = st.2.(template_timeout).
Proof.
  induction datagrams as [|[src payload] l IH]; intros st; [done|].
  etrans; [apply IH|apply parse_timeout].
Qed.

Lemma run_inv datagrams : forall st, netflow_inv st -> netflow_inv (run st datagrams).
Proof.
  induction datagrams as [|[src payload] l IH]; intros st H; [done|]. by apply IH, netflow_parse_inv.
Qed.

(** C6: Whatever datagrams arrive, every parser keeps its caches and learned
    elements well-formed, every domain has at most 1,024 samplers and the
    shared rate that goes with them, and no exporter is kept that was quiet
    for the timeout at the last sweep. *)
Theorem processor_well_formed registry timeout reads datagrams :
  0 < timeout -> netflow_inv (run (start registry timeout reads) datagrams).
Proof. intros Ht. by apply run_inv, start_inv. Qed.
End runs.

(** ** Exporters and one another *)

(** Of the exporters other than [src], none appears or changes, and those
    heard from within the timeout stay. *)
Definition keeps_others {P} (timeout now : Z) (src : IpAddr) (self self' : Exporters P) : Prop :=
  forall src', src' <> src ->
    (forall e, self'.(map) !! src' = Some e -> self.(map) !! src' = Some e) /\
    (forall e, self.(map) !! src' = Some e -> duration_since now e.(last_seen) < timeout ->
       self'.(map) !! src' = Some e).

Section others.
Context `{NM : Nom} `{CR : Crates} `{CK : Clock}.
Implicit Types (st : nat * NetflowProcessor).

Lemma heard_keeps_others {P} (self : Exporters P) src now tmo new reads e' :
  keeps_others tmo now src self (update (entry self src now tmo new reads).1.2 src e').
Proof.
  intros src' Hne. pose proof (entry_spec self src now tmo new reads) as H.
  destruct (entry _ _ _ _ _ _) as [[reads' self'] e]. destruct H as (_ & _ & Ho & _). cbn.
  rewrite lookup_insert_ne, Ho by done. split; intros x Hx.
  - destruct (map self !! src') as [y|]; cbn in Hx; [|done]. by destruct (swept_out _ _ _ _).
  - intros Hn. rewrite Hx. cbn. unfold swept_out.
    destruct (Z.ltb_spec (duration_since now (last_seen x)) tmo); [|lia]. by rewrite andb_false_r.
Qed.

(** C8: A datagram, whatever is in it, changes nothing of any other exporter that
    is kept, not its templates, its learned elements, its sampling rates or its
    boot time, and adds none; those heard from within the timeout are kept, and
    only one quiet for the timeout may be forgotten.  And of its own exporter
    it changes only what belongs to its protocol. *)
Theorem exporter_isolation st src payload :
  let st' := (netflow_parse st src payload).1 in
  keeps_others st.2.(template_timeout) (instant_at st.1) src st.2.(v9) st'.2.(v9) /\
  keeps_others st.2.(template_timeout) (instant_at st.1) src st.2.(ipfix) st'.2.(ipfix) /\
  (netflow_version_of payload <> Some FlowType.NetflowV9 -> st'.2.(v9) = st.2.(v9)) /\
  (netflow_version_of payload <> Some FlowType.Ipfix -> st'.2.(ipfix) = st.2.(ipfix)) /\
  st'.2.(template_timeout) = st.2.(template_timeout) /\ st'.2.(ie_registry) = st.2.(ie_registry).
Proof.
  intros st'. subst st'.
  assert (Hrefl : forall P (x : Exporters P), keeps_others (template_timeout st.2) (instant_at st.1) src x x)
    by by split.
  by_protocol st src payload; cbn; split_and!; try done; apply heard_keeps_others.
Qed.
End others.

(** ** Quiet exporters *)

Section quiet.
Context `{NM : Nom} `{CR : Crates} `{CK : Clock} `{CM : !ClockMonotone CK}.
Implicit Types (st : nat * NetflowProcessor).

(** C9: Whatever arrived before, a datagram of NetFlow v9 or IPFIX leaves no
    exporter of that protocol that has been quiet for the timeout and a sweep
    interval, so a steady stream from anyone is enough for an exporter that
    went silent to be forgotten, with all it was using. *)
Theorem quiet_exporters_forgotten registry timeout reads datagrams src payload :
  0 < timeout ->
  let st := run (start registry timeout reads) datagrams in
  let st' := (netflow_parse st src payload).1 in
  (netflow_version_of payload = Some FlowType.NetflowV9 ->
     forall src' e, st'.2.(v9).(map) !! src' = Some e ->
       instant_at st.1 - e.(last_seen) < timeout + SWEEP_INTERVAL) /\
  (netflow_version_of payload = Some FlowType.Ipfix ->
     forall src' e, st'.2.(ipfix).(map) !! src' = Some e ->
       instant_at st.1 - e.(last_seen) < timeout + SWEEP_INTERVAL).
Proof.
  intros Ht st st'. pose proof (run_inv datagrams _ (start_inv registry timeout reads Ht)) as Hi.
  fold st in Hi. assert (Et : template_timeout st.2 = timeout) by apply run_timeout.
  subst st'. clearbody st. destruct Hi as (_ & H9 & Hx). rewrite Et in H9, Hx.
  by_protocol st src payload; (split; [intros Hv'|intros Hv']); try congruence; intros src' e; cbn;
    unfold found_v9, found_ipfix; rewrite Et.
  - apply (entry_quiet _ v9_good); [done..|]. destruct Hh as (? & _ & -> & _). apply entry_seen.
  - apply (entry_quiet _ ipfix_good); [done..|]. destruct Hh as (? & _ & -> & _). apply entry_seen.
Qed.
End quiet.
