(* ===== verification/ProcessorFlows.v ===== *)
(** The flows of a packet: one per data record or sample, in their order, told
    apart by what the packet and its options say. *)

From Stdlib Require Import ZArith Lia Strings.Byte.
From stdpp Require Import base tactics numbers list gmap fin_maps.
From coqutil Require Import Datatypes.RecordSetters.
From S2P Require Import Prelude Nom Std Crates IERegistry DataRecord Etherparse CommonFlow Processor ProcessorFacts ProcessorInv.
From S2P Require NetflowV5 NetflowV9 IpfixTypes Ipfix SflowV5 ConvertV5 ConvertV9 ConvertIpfix ConvertSflow.
Import TriangleBracketNotations.
#[local] Open Scope Z_scope.

(** ** What options records say *)

Section options.
Context `{CR : Crates}.

Definition v9_announcements (records : list NetflowV9.Record_) : Announcements :=
  omap (fun record =>
    match record with
    | NetflowV9.OptionsData r =>
        rate ← ConvertV9.extract_v9_sampling_rate r; Some (ConvertV9.extract_v9_sampler_id r, rate)
    | _ => None
    end) records.

Definition ipfix_announcements (records : list IpfixTypes.Record_) : Announcements :=
  omap (fun record =>
    match record with
    | IpfixTypes.OptionsData r =>
        rate ← ConvertIpfix.extract_ipfix_sampling_rate r; Some (ConvertIpfix.extract_ipfix_sampler_id r, rate)
    | _ => None
    end) records.

Definition boots (records : list IpfixTypes.Record_) : list Z :=
  omap (fun record =>
    match record with
    | IpfixTypes.OptionsData r => ConvertIpfix.extract_ipfix_system_init_time r
    | _ => None
    end) records.

Definition with_boot (d : Domain) (boot : option Z) : Domain :=
  mkDomain d.(d_sampling_rate) d.(d_sampler_rates) d.(d_shared_sampler_rate)
    match boot with Some b => Some b | None => d.(d_system_init_time_ms) end.

Lemma v9_options_announce records : forall d,
  v9_options d records = announce d (v9_announcements records).
Proof.
  unfold v9_options, announce. induction records as [|r records IH]; intros d; [done|]. cbn.
  destruct r as [| | |r]; try apply IH. rewrite IH. by destruct (ConvertV9.extract_v9_sampling_rate r).
Qed.

Lemma announce_boot l : forall d boot, announce (with_boot d boot) l = with_boot (announce d l) boot.
Proof.
  unfold announce. induction l as [|[w r] l IH]; intros d boot; [done|]. cbn. rewrite <- IH. f_equal.
  unfold set_sampling_rate, with_boot. destruct d as [rate rates sh b]. cbn.
  destruct w as [id|]; [|done]. destruct (_ <? _); [done|]. by destruct (rates !! id).
Qed.

Lemma ipfix_options_announce records : forall d,
  ipfix_options d records = with_boot (announce d (ipfix_announcements records)) (last (boots records)).
Proof.
  unfold ipfix_options. induction records as [|r records IH]; intros d; [by destruct d|]. cbn.
  destruct r as [| | |r]; try apply IH. rewrite IH. clear IH. cbn.
  destruct (ConvertIpfix.extract_ipfix_sampling_rate r) as [rate|];
    (destruct (ConvertIpfix.extract_ipfix_system_init_time r) as [boot|]; [|done]);
    rewrite last_cons; cbn.
  all: etrans; [apply (f_equal (fun d => with_boot d _)), (announce_boot _ _ (Some boot))|].
  all: fold (boots records); destruct (last (boots records)); reflexivity.
Qed.
End options.

(** ** Options and domains *)

Section domains.
Context `{NM : Nom} `{CR : Crates} `{CK : Clock}.
Implicit Types (st : nat * NetflowProcessor).

(** What is known at [now] of a domain of an exporter, nothing if it is about
    to be forgotten. *)
Definition known {P} (self : Exporters P) (timeout now : Z) (src : IpAddr) (id : Z) : option Domain :=
  e ← self.(map) !! src; if swept_out self now timeout e then None else e.(domains) !! id.

Lemma entry_domains {P} (self : Exporters P) src now tmo new reads id :
  (entry self src now tmo new reads).2.(domains) !! id = known self tmo now src id.
Proof.
  pose proof (entry_spec self src now tmo new reads) as H. unfold known.
  destruct (entry _ _ _ _ _ _) as [[reads' self'] e]. destruct H as (_ & _ & _ & _ & H). cbn.
  destruct (map self !! src) as [x|]; cbn in *; [destruct (swept_out _ _ _ _)|];
    destruct H as [_ ->]; cbn; by rewrite ?lookup_empty.
Qed.

(** The domain of a packet, another of its exporter, and one of another
    exporter. *)
Ltac by_domain src src' id :=
  destruct (decide (src' = src)) as [->|?]; [|by rewrite decide_False by (by intros [])];
  match goal with |- context [decide (_ /\ id = ?own)] => destruct (decide (id = own)) as [->|?] end;
    [by rewrite decide_True, lookup_insert_eq|];
  rewrite decide_False by (by intros []); rewrite lookup_insert_ne by done; apply entry_domains.

(** The exporter a datagram came from is updated; of the others, those not
    about to be forgotten are there as they were. *)
Lemma updated_domains {P} (self : Exporters P) src now tmo new reads e' src' id :
  domain (update (entry self src now tmo new reads).1.2 src e') src' id =
  if decide (src' = src) then e'.(domains) !! id else known self tmo now src' id.
Proof.
  pose proof (entry_spec self src now tmo new reads) as H. unfold domain, known.
  destruct (entry _ _ _ _ _ _) as [[reads' self'] e]. destruct H as (_ & _ & Ho & _). cbn. case_decide as Hs.
  - subst src'. by rewrite lookup_insert_eq.
  - rewrite lookup_insert_ne, Ho by done. destruct (map self !! src') as [y|]; cbn; [|done]. by destruct (swept_out _ _ _ _).
Qed.

(** C7: The options a packet carries go to its own domain of its own exporter, in
    the order they are written and whatever sets they are in, on top of what
    the domain was known to say; and nowhere else: every other domain of that
    exporter, every domain of every other exporter and every domain of the
    other protocol is what it was known to be, nothing if its exporter is
    forgotten for having been quiet. *)
Theorem options_reach_domain st src payload st' p :
  netflow_parse st src payload = (st', Some p) ->
  let now := instant_at st.1 in
  let tmo := st.2.(template_timeout) in
  match p with
  | V5 _ => st' = st
  | V9 p =>
      let records := p.(NetflowV9.p_flow_sets) ≫= NetflowV9.fs_records in
      st'.2.(ipfix) = st.2.(ipfix) /\
      forall src' id, domain st'.2.(v9) src' id
        = if decide (src' = src /\ id = p.(NetflowV9.p_header).(NetflowV9.h_source_id))
          then Some (announce (default default_domain (known st.2.(v9) tmo now src id))
                      (v9_announcements records))
          else known st.2.(v9) tmo now src' id
  | Ipfix p =>
      let records := p.(IpfixTypes.p_sets) ≫= IpfixTypes.set_records in
      st'.2.(v9) = st.2.(v9) /\
      forall src' id, domain st'.2.(ipfix) src' id
        = if decide (src' = src /\ id = p.(IpfixTypes.p_header).(IpfixTypes.h_observation_domain_id))
          then Some (with_boot (announce (default default_domain (known st.2.(ipfix) tmo now src id))
                      (ipfix_announcements records)) (last (boots records)))
          else known st.2.(ipfix) tmo now src' id
  end.
Proof.
  intros E now tmo. pose proof (netflow_parse_spec st src payload) as Hs. rewrite E in Hs.
  destruct st' as [reads' self'], (netflow_version_of payload) as [[]|].
  - destruct Hs as [<- Hs]. by destruct (NetflowV5.NetFlowV5Parser_parse payload) as [[? ?]|]; simplify_eq.
  - destruct Hs as (e' & (parsed & _ & _ & Hm) & ->). destruct parsed as [[rest q]|err]; [|by destruct Hm].
    destruct Hm as [[= ->] Hd]. cbn. split; [done|]. intros src' id. unfold found_v9 in *. rewrite updated_domains, Hd, v9_options_announce, entry_domains.
    by_domain src src' id.
  - destruct Hs as (e' & (parsed & _ & _ & Hm) & ->). destruct parsed as [[rest q]|err]; [|by destruct Hm].
    destruct Hm as [[= ->] Hd]. cbn. split; [done|]. intros src' id. unfold found_ipfix in *. rewrite updated_domains, Hd, ipfix_options_announce, entry_domains.
    by_domain src src' id.
  - done.
  - by destruct Hs.
Qed.
End domains.

(** ** Flows *)

Section flows.
Context `{NM : Nom} `{CR : Crates} `{CK : Clock} `{EP : Etherparse}.
Implicit Types (st : nat * NetflowProcessor).

(** A loop that adds the flows of some of the elements. *)
Lemma extend_loop {A} (f : list CommonFlow -> A -> list CommonFlow) (g : A -> option CommonFlow) time l :
  (forall flows x, f flows x = match g x with Some flow => extend flows flow time | None => flows end) ->
  forall flows, fold_left f l flows
    = flows ++ ((fun flow => flow<|cf_time_received_ns := time|>) <$> omap g l).
Proof.
  intros Hf. induction l as [|x l IH]; intros flows; cbn; [by rewrite app_nil_r|].
  rewrite IH, Hf. destruct (g x) as [flow|]; [|done]. unfold extend. by rewrite <- app_assoc.
Qed.

Lemma extend_loops {A B} (f : list CommonFlow -> A -> list CommonFlow) (g : A -> B -> option CommonFlow)
    (members : A -> list B) time l :
  (forall flows x, f flows x
     = flows ++ ((fun flow => flow<|cf_time_received_ns := time|>) <$> omap (g x) (members x))) ->
  forall flows, fold_left f l flows
    = flows ++ ((fun flow => flow<|cf_time_received_ns := time|>) <$> (x ← l; omap (g x) (members x))).
Proof.
  intros Hf. induction l as [|x l IH]; intros flows; cbn; [by rewrite app_nil_r|].
  by rewrite IH, Hf, fmap_app, app_assoc.
Qed.

(** The flows of a packet, without the time it was received: those of its
    records in turn, where only a data record has one, which is the record
    converted with the header of the packet and the sampling rate and boot time
    its domain has. *)
Definition v9_flow (ctx : option Z -> ConvertV9.NetFlowV9Context) (d : option Domain)
    (fs : NetflowV9.FlowSet) (record : NetflowV9.Record_) : option CommonFlow :=
  match record with
  | NetflowV9.Data r =>
      Some (ConvertV9.convert (ctx (d ← d; sampling_rate d (ConvertV9.extract_v9_sampler_id r))) r
        fs.(NetflowV9.fs_id))
  | _ => None
  end.

Definition ipfix_flow (ctx : option Z -> ConvertIpfix.IpfixContext) (d : option Domain)
    (s : IpfixTypes.Set_) (record : IpfixTypes.Record_) : option CommonFlow :=
  match record with
  | IpfixTypes.Data r =>
      Some (ConvertIpfix.convert (ctx (d ← d; sampling_rate d (ConvertIpfix.extract_ipfix_sampler_id r))) r
        s.(IpfixTypes.set_id))
  | _ => None
  end.

Definition flows_of (self : NetflowProcessor) (src : IpAddr) (p : NetflowPacket) : list CommonFlow :=
  match p with
  | V5 p => ConvertV5.convert (ConvertV5.mkContext p.(NetflowV5.p_header) (Some src)) <$> p.(NetflowV5.p_flow_records)
  | V9 p =>
      let header := p.(NetflowV9.p_header) in
      fs ← p.(NetflowV9.p_flow_sets);
      omap (v9_flow (ConvertV9.mkContext header (Some src))
        (domain self.(v9) src header.(NetflowV9.h_source_id)) fs) fs.(NetflowV9.fs_records)
  | Ipfix p =>
      let header := p.(IpfixTypes.p_header) in
      let d := domain self.(ipfix) src header.(IpfixTypes.h_observation_domain_id) in
      s ← p.(IpfixTypes.p_sets);
      omap (ipfix_flow (fun rate => ConvertIpfix.mkContext header (Some src) rate
        (d ← d; d.(d_system_init_time_ms))) d s) s.(IpfixTypes.set_records)
  end.

Lemma convert_into_flows self src p time flows :
  netflow_convert_into self src p time flows
  = flows ++ ((fun flow => flow<|cf_time_received_ns := time|>) <$> flows_of self src p).
Proof.
  destruct p as [p|p|p]; cbn [netflow_convert_into flows_of].
  - etrans; [apply (extend_loop _ (fun r => Some (ConvertV5.convert
      (ConvertV5.mkContext (NetflowV5.p_header p) (Some src)) r))); done|].
    f_equal.
  - apply (extend_loops _ (v9_flow (ConvertV9.mkContext (NetflowV9.p_header p) (Some src))
      (domain (v9 self) src (NetflowV9.h_source_id (NetflowV9.p_header p)))) NetflowV9.fs_records).
    intros fl fs. by apply extend_loop; intros ? [].
  - apply (extend_loops _ (ipfix_flow (fun rate => ConvertIpfix.mkContext (IpfixTypes.p_header p) (Some src) rate _) _)
      IpfixTypes.set_records).
    intros fl fs. by apply extend_loop; intros ? [].
Qed.

(** What ties a flow to the packet it came in. *)
Definition origin (src : IpAddr) (p : NetflowPacket) (flow : CommonFlow) : Prop :=
  flow.(cf_flow_type) = version p /\ flow.(cf_sampler_address) = Some src /\
  match p with
  | V5 p => flow.(cf_sequence_num) = p.(NetflowV5.p_header).(NetflowV5.h_flow_sequence)
  | V9 p =>
      flow.(cf_sequence_num) = p.(NetflowV9.p_header).(NetflowV9.h_sequence_number) /\
      flow.(cf_observation_domain_id) = Some p.(NetflowV9.p_header).(NetflowV9.h_source_id)
  | Ipfix p =>
      flow.(cf_sequence_num) = p.(IpfixTypes.p_header).(IpfixTypes.h_sequence_number) /\
      flow.(cf_observation_domain_id) = Some p.(IpfixTypes.p_header).(IpfixTypes.h_observation_domain_id)
  end.

Lemma flows_of_origin self src p : Forall (origin src p) (flows_of self src p).
Proof.
  apply Forall_forall. intros flow Hf. unfold origin. destruct p as [p|p|p]; cbn in Hf.
  - apply list_elem_of_fmap in Hf as (r & -> & _). done.
  - apply list_elem_of_bind in Hf as (fs & Hf & _). apply list_elem_of_omap in Hf as (r & _ & Hr).
    destruct r as [| |r|]; try done. injection Hr as <-.
    match goal with |- context [ConvertV9.convert ?c r ?i] =>
      destruct (ConvertV9.v9_flow_origin c r i) as (H1 & H2 & H3 & H4 & _) end. by split_and!.
  - apply list_elem_of_bind in Hf as (fs & Hf & _). apply list_elem_of_omap in Hf as (r & _ & Hr).
    destruct r as [| |r|]; try done. injection Hr as <-.
    match goal with |- context [ConvertIpfix.convert ?c r ?i] =>
      destruct (ConvertIpfix.ipfix_flow_origin c r i) as (H1 & H2 & H3 & H4 & _) end. by split_and!.
Qed.

Lemma flows_of_length self src p : zlen (flows_of self src p) = flow_count p.
Proof.
  destruct p as [p|p|p]; cbn.
  - unfold zlen. by rewrite length_fmap.
  - unfold zlen. f_equal. induction (NetflowV9.p_flow_sets p) as [|fs l IH]; [done|]. cbn.
    rewrite List.filter_app, !length_app, IH. f_equal.
    clear. induction (NetflowV9.fs_records fs) as [|[] rs IH]; cbn; auto.
  - unfold zlen. f_equal.
    generalize (domain (ipfix self) src (IpfixTypes.h_observation_domain_id (IpfixTypes.p_header p))). intros d.
    induction (IpfixTypes.p_sets p) as [|fs l IH]; [done|]. cbn.
    rewrite List.filter_app, !length_app, IH. f_equal.
    clear. induction (IpfixTypes.set_records fs) as [|[] rs IH]; cbn; auto.
Qed.

(** C10: A datagram that parses is of the version its leading octets announce, and
    becomes one flow per data record, after whatever flows were there, in the
    order of the records: that record converted, at the rate its domain knows
    for its sampler, with the time it was received at, the address and protocol
    it came by, and the sequence number and domain of its packet. *)
Theorem packet_flows st src payload time st' p flows :
  netflow_parse st src payload = (st', Some p) ->
  netflow_version_of payload = Some (version p) /\
  let new := convert st'.2 src p time in
  new = (fun flow => flow<|cf_time_received_ns := time|>) <$> flows_of st'.2 src p /\
  zlen new = flow_count p /\
  convert_into st'.2 src p time flows = flows ++ new /\
  process_into st src payload time flows = (st', flows ++ new) /\
  Forall (fun flow => origin src p flow /\ flow.(cf_time_received_ns) = time) new.
Proof.
  intros E. split.
  - pose proof (netflow_parse_spec st src payload) as Hs. rewrite E in Hs.
    destruct st' as [reads' self'], (netflow_version_of payload) as [[]|].
    + destruct Hs as [_ Hs]. by destruct (NetflowV5.NetFlowV5Parser_parse payload) as [[? ?]|]; simplify_eq.
    + destruct Hs as (e' & (parsed & _ & _ & Hm) & _). destruct parsed as [[rest q]|err]; [|by destruct Hm].
      by destruct Hm as [[= ->] _].
    + destruct Hs as (e' & (parsed & _ & _ & Hm) & _). destruct parsed as [[rest q]|err]; [|by destruct Hm].
      by destruct Hm as [[= ->] _].
    + done.
    + by destruct Hs.
  - intros new. assert (En : forall fl, convert_into st'.2 src p time fl = fl ++ new).
    { intros fl. etrans; [apply convert_into_flows|]. f_equal. symmetry.
      apply (convert_into_flows st'.2 src p time []). }
    assert (En' : new = (fun flow => flow<|cf_time_received_ns := time|>) <$> flows_of st'.2 src p)
      by apply (convert_into_flows st'.2 src p time []).
    split_and!; [exact En'| |apply En| |].
    + rewrite En'. unfold zlen. rewrite length_fmap. apply flows_of_length.
    + unfold process_into. change (parse st src payload) with (netflow_parse st src payload).
      rewrite E. by rewrite En.
    + rewrite En'. apply Forall_fmap. eapply Forall_impl; [apply flows_of_origin|].
      intros flow Ho. split; [|done]. unfold origin in *. exact Ho.
Qed.
End flows.

(** ** Samples

    Samples for the processor: a NetFlow v9 packet that states a sampling rate
    and carries one flow, and exporters that send it. *)

From S2P Require Packet.
#[local] Open Scope Z_scope.

Section samples.
#[local] Instance sample_nom : Nom := nom_std.
#[local] Instance sample_crates : Crates := crates_std.
#[local] Instance sample_etherparse : Etherparse := Packet.mini.

(** Microseconds pass between reads of the clock, and a thousand seconds
    after the ninth. *)
#[local] Instance sample_clock : Clock := fun n =>
  1000 * Z.of_nat n + (if (n <? 9)%nat then 0 else from_secs 1000).
#[local] Instance sample_clock_mono : ClockMonotone sample_clock.
Proof.
  intros m n H. unfold instant_at, sample_clock, from_secs.
  destruct (Nat.ltb_spec m 9), (Nat.ltb_spec n 9); lia.
Qed.

Definition sample_src : IpAddr := V4 1.
Definition other_src : IpAddr := V4 2.

(** From source 7: an options template and its record, one in 100 sampled;
    then a template and its record, 3000 octets in 4 packets. *)
Definition sample_datagram : bytes :=
  be_bytes 2 9 ++ be_bytes 2 4 ++ be_bytes 4 5000 ++ be_bytes 4 1_700_000_000 ++ be_bytes 4 1 ++ be_bytes 4 7 ++
  be_bytes 2 1 ++ be_bytes 2 20 ++ be_bytes 2 257 ++ be_bytes 2 4 ++ be_bytes 2 4 ++
    be_bytes 2 1 ++ be_bytes 2 4 ++ be_bytes 2 34 ++ be_bytes 2 4 ++ [x00; x00] ++
  be_bytes 2 257 ++ be_bytes 2 12 ++ be_bytes 4 0 ++ be_bytes 4 100 ++
  be_bytes 2 0 ++ be_bytes 2 16 ++ be_bytes 2 256 ++ be_bytes 2 2 ++
    be_bytes 2 1 ++ be_bytes 2 4 ++ be_bytes 2 2 ++ be_bytes 2 4 ++
  be_bytes 2 256 ++ be_bytes 2 12 ++ be_bytes 4 3000 ++ be_bytes 4 4.

Definition sample_registry : IERegistry :=
  add_element NetflowV9.sample_registry 34 None (str "samplingInterval") DataType.Unsigned.

Definition sample_start : nat * NetflowProcessor := start sample_registry (from_secs 600) 0.

Lemma sample_parses : exists st' p,
  netflow_parse sample_start sample_src sample_datagram = (st', Some (V9 p)) /\
  p.(NetflowV9.p_header).(NetflowV9.h_source_id) = 7 /\
  v9_announcements (p.(NetflowV9.p_flow_sets) ≫= NetflowV9.fs_records) = [(None, 100)].
Proof.
  assert (Hc : match netflow_parse sample_start sample_src sample_datagram with
    | (st', Some (V9 p)) =>
        (p.(NetflowV9.p_header).(NetflowV9.h_source_id),
         v9_announcements (p.(NetflowV9.p_flow_sets) ≫= NetflowV9.fs_records)) = (7, [(None, 100)])
    | _ => False
    end) by (vm_compute; reflexivity).
  destruct (netflow_parse sample_start sample_src sample_datagram) as [st' [[p|p|p]|]]; try done.
  injection Hc as H1 H2. by exists st', p.
Defined.

Lemma options_reach_domain_witness : exists st' p,
  netflow_parse sample_start sample_src sample_datagram = (st', Some (V9 p)) /\
  domain st'.2.(v9) sample_src 7 = Some (announce default_domain [(None, 100)]) /\
  domain st'.2.(v9) sample_src 8 = None /\ domain st'.2.(v9) other_src 7 = None.
Proof.
  destruct sample_parses as (st' & p & E & Hs & Ha). exists st', p.
  pose proof (options_reach_domain _ _ _ _ _ E) as H. cbv beta iota zeta in H. destruct H as [_ H]. rewrite Ha, Hs in H.
  split; [exact E|]. split; [|split]; rewrite H; reflexivity.
Defined.

Lemma packet_flows_witness : exists st' p,
  netflow_parse sample_start sample_src sample_datagram = (st', Some (V9 p)) /\
  netflow_version_of sample_datagram = Some FlowType.NetflowV9 /\
  Forall (fun flow => origin sample_src (V9 p) flow /\ cf_time_received_ns flow = Some 5)
    (convert st'.2 sample_src (V9 p) (Some 5)).
Proof.
  destruct sample_parses as (st' & p & E & _). exists st', p.
  destruct (packet_flows _ _ _ (Some 5) _ _ [] E) as (H1 & _ & _ & _ & _ & H). by split_and!.
Defined.

Lemma processor_well_formed_witness :
  netflow_inv (run sample_start [(sample_src, sample_datagram); (other_src, [x00; x05])]).
Proof. apply processor_well_formed. reflexivity. Defined.

(** Heard once and then quiet, an exporter is gone with the other's next
    datagram. *)
Lemma quiet_exporters_forgotten_witness :
  let st := run sample_start [(sample_src, sample_datagram)] in
  let st' := (netflow_parse st other_src sample_datagram).1 in
  bool_decide (is_Some (st.2.(v9).(map) !! sample_src)) = true /\
  bool_decide (is_Some (st'.2.(v9).(map) !! other_src)) = true /\
  st'.2.(v9).(map) !! sample_src = None /\
  forall src' e, st'.2.(v9).(map) !! src' = Some e ->
    instant_at st.1 - e.(last_seen) < from_secs 600 + SWEEP_INTERVAL.
Proof.
  intros st st'. split_and!; [by vm_compute|by vm_compute|by vm_compute|].
  apply (quiet_exporters_forgotten sample_registry (from_secs 600) 0 [(sample_src, sample_datagram)]
    other_src sample_datagram); reflexivity.
Defined.
End samples.
