(* ===== verification/Sampler.v ===== *)
(** [rustflow_export/src/sampler.rs]: systematic count-based sampling. *)

From Stdlib Require Import ZArith Lia.
From stdpp Require Import base tactics numbers list.
From S2P Require Import Prelude.
#[local] Open Scope Z_scope.

Module Sampling.
(** One out of every [interval] packets. *)
Inductive Sampling := Count (interval : Z).
End Sampling.
Export Sampling(Sampling).

Module Sampler.
Inductive Sampler := Count (interval countdown : Z).
End Sampler.
Export Sampler(Sampler).

Definition Sampler_new (sampling : Sampling) : Sampler :=
  match sampling with
  | Sampling.Count interval => Sampler.Count (Z.max interval 1) 1
  end.

Definition select (self : Sampler) : Sampler * bool :=
  match self with
  | Sampler.Count interval countdown =>
      if 1 <? countdown then (Sampler.Count interval (countdown - 1), false)
      else (Sampler.Count interval interval, true)
  end.

(** ** Which packets are selected *)

(** The packets of [l] a sampler lets through, and the sampler afterwards. *)
Fixpoint sampled {A} (self : Sampler) (l : list A) : Sampler * list A :=
  match l with
  | [] => (self, [])
  | a :: l =>
      let '(self, selected) := select self in
      let '(self, l) := sampled self l in
      (self, if selected then a :: l else l)
  end.

Lemma sampled_app {A} (l l' : list A) : forall self,
  sampled self (l ++ l')
  = let '(self, a) := sampled self l in let '(self, b) := sampled self l' in (self, a ++ b).
Proof.
  induction l as [|x l IH]; intros self; cbn.
  - by destruct (sampled self l').
  - destruct (select self) as [self1 b]. rewrite IH. destruct (sampled self1 l) as [self2 a].
    destruct (sampled self2 l'). by destruct b.
Qed.

(** The elements of [l], counted from [k], at the multiples of [n]. *)
Fixpoint every {A} (n k : Z) (l : list A) : list A :=
  match l with
  | [] => []
  | a :: l => if k mod n =? 0 then a :: every n (k + 1) l else every n (k + 1) l
  end.

Lemma sampled_every {A} n (l : list A) : forall c k,
  1 <= c <= n -> (k + (c - 1)) mod n = 0 -> (sampled (Sampler.Count n c) l).2 = every n k l.
Proof.
  induction l as [|x l IH]; intros c k Hc Hk; [done|]. cbn.
  destruct (Z.ltb_spec 1 c).
  - destruct (Z.eqb_spec (k mod n) 0) as [E|_].
    + exfalso. rewrite Z.add_mod, E, Z.add_0_l, Z.mod_mod, Z.mod_small in Hk by lia. lia.
    + specialize (IH (c - 1) (k + 1) ltac:(lia)). replace (k + 1 + (c - 1 - 1)) with (k + (c - 1)) in IH by lia.
      specialize (IH Hk). by destruct (sampled (Sampler.Count n (c - 1)) l).
  - assert (c = 1) as -> by lia. replace (k + (1 - 1)) with k in Hk by lia. rewrite Hk. cbn.
    specialize (IH n (k + 1) ltac:(lia)). replace (k + 1 + (n - 1)) with (k + 1 * n) in IH by lia.
    rewrite Z.mod_add in IH by lia. specialize (IH Hk). destruct (sampled (Sampler.Count n n) l). cbn in *. by f_equal.
Qed.

(** A new sampler lets through the first packet and then every [interval]th;
    an interval of zero is one of one. *)
Lemma sampler_every {A} interval (l : list A) :
  (sampled (Sampler_new (Sampling.Count interval)) l).2 = every (Z.max interval 1) 0 l.
Proof. apply sampled_every; [lia|reflexivity]. Qed.

(** ** Arguments and frames

    What the exporter is told and what it captures: [args.rs], the mode of
    [meter.rs] and the frames of [capture/mod.rs] in [rustflow_export/src]. *)

From Stdlib Require Import Strings.Byte.
From S2P Require Import Std Crates.
#[local] Open Scope Z_scope.

(** Where the octets of a frame start. *)
Module Link.
Inductive Link := Ethernet | Ip.
End Link.
Export Link(Link).

Module Mode.
Inductive Mode := Flow | Packet.
End Mode.
Export Mode(Mode).

(** The arguments that reach the meter and the exporter. *)
Record ExportArgs := mkArgs {
  mode : Mode;
  clip_length : Z;
  observation_domain_id : Z;
  a_active_timeout : Z;
  a_inactive_timeout : Z;
  a_max_flows : Z;
  template_refresh_rate : Z;
  sampling_packet_interval : Z;
}.

Definition sampling (self : ExportArgs) : Sampling := Sampling.Count self.(sampling_packet_interval).

Section frame.
Context `{CR : Crates}.

Record Frame := mkFrame { data : bytes; length : Z; time : DateTime }.
End frame.

(** [std::net::SocketAddr] *)
Record SocketAddr := mkSocketAddr { ip : IpAddr; port : Z }.
