(* ===== verification/FlowCache.v ===== *)
(** [rustflow_export/src/flow/mod.rs]: packets aggregated into flows, ended
    by timeout, to make room, or by force. *)

From Stdlib Require Import ZArith Lia Strings.Byte.
From stdpp Require Import base tactics numbers list gmap fin_maps sorting.
From S2P Require Import Prelude Std Crates.
#[local] Open Scope Z_scope.

Module FlowEndReason.
Inductive FlowEndReason := IdleTimeout | ActiveTimeout | ForcedEnd | LackOfResources.

(** [reason as u8] *)
Definition into (reason : FlowEndReason) : Z :=
  match reason with IdleTimeout => 1 | ActiveTimeout => 2 | ForcedEnd => 4 | LackOfResources => 5 end.
End FlowEndReason.
Export FlowEndReason(FlowEndReason).

Record FlowKey := mkKey {
  source_ip : IpAddr;
  destination_ip : IpAddr;
  protocol : Z;
  source_port : Z;
  destination_port : Z;
}.

#[export] Instance FlowKey_eq_dec : EqDecision FlowKey.
Proof. solve_decision. Defined.
#[export] Program Instance FlowKey_countable : Countable FlowKey :=
  inj_countable' (fun k => (k.(source_ip), k.(destination_ip), k.(protocol), k.(source_port), k.(destination_port)))
    (fun '(a, b, c, d, e) => mkKey a b c d e) _.
Next Obligation. by intros []. Qed.

Section flow.
Context `{CR : Crates}.

Record Seen := mkSeen { time : DateTime; instant : Z }.

Record Flow := mkFlow {
  key : FlowKey;
  octet_count : Z;
  packet_count : Z;
  tcp_flags : Z;
  flow_start : DateTime;
  flow_end : DateTime;
  first_seen : Z;
  last_seen : Z;
  flow_end_reason : option FlowEndReason;
}.

Definition Flow_new (key : FlowKey) (seen : Seen) : Flow :=
  mkFlow key 0 0 0 seen.(time) seen.(time) seen.(instant) seen.(instant) None.

Definition ended (self : Flow) (reason : FlowEndReason) : Flow :=
  mkFlow self.(key) self.(octet_count) self.(packet_count) self.(tcp_flags) self.(flow_start)
    self.(flow_end) self.(first_seen) self.(last_seen) (Some reason).

Definition Flow_update (self : Flow) (packet_size flags : Z) (seen : Seen) : Flow :=
  mkFlow self.(key) (wrap 64 (self.(octet_count) + packet_size)) (wrap 64 (self.(packet_count) + 1))
    (Z.lor self.(tcp_flags) flags) self.(flow_start) seen.(time) self.(first_seen) seen.(instant)
    self.(flow_end_reason).

(** ** The cache *)

Definition EVICTION_FRACTION : Z := 8.

Record FlowCache := mkCache {
  flows : gmap FlowKey Flow;
  active_timeout : Z;
  inactive_timeout : Z;
  max_flows : Z;
  evicted : list Flow;
}.

Definition FlowCache_new (active_timeout inactive_timeout max_flows : Z) : FlowCache :=
  mkCache ∅ (from_secs active_timeout) (from_secs inactive_timeout) max_flows [].

(** [select_nth_unstable(index)]: the element at [index] in sorted order; a
    panic when there is none. *)
Definition select_nth (l : list Z) (index : Z) : option Z := merge_sort Z.le l !! Z.to_nat index.

(** What [retain] keeps, and what it is called with otherwise; the order of
    the latter is the map's own. *)
Definition retain (keep : Flow -> bool) (m : gmap FlowKey Flow) : gmap FlowKey Flow * list Flow :=
  (filter (fun '(_, flow) => keep flow) m,
   List.filter (fun flow => negb (keep flow)) (map_to_list m).*2).

(** [None] is a panic. *)
Definition evict_idle_longest (self : FlowCache) : option FlowCache :=
  let count := Z.max (self.(max_flows) / EVICTION_FRACTION) 1 in
  let ends := last_seen <$> (map_to_list self.(flows)).*2 in
  cutoff ← select_nth ends (count - 1);
  let '(kept, out) := retain (fun flow => cutoff <? flow.(last_seen)) self.(flows) in
  Some (mkCache kept self.(active_timeout) self.(inactive_timeout) self.(max_flows)
    (self.(evicted) ++ ((fun flow => ended flow FlowEndReason.LackOfResources) <$> out))).

Definition update_flow (self : FlowCache) (k : FlowKey) (packet_size flags : Z) (seen : Seen)
    : option FlowCache :=
  let set_flows self flows :=
    mkCache flows self.(active_timeout) self.(inactive_timeout) self.(max_flows) self.(evicted) in
  match self.(flows) !! k with
  | Some flow => Some (set_flows self (<[k := Flow_update flow packet_size flags seen]> self.(flows)))
  | None =>
      self ← (if self.(max_flows) <=? Z.of_nat (size self.(flows)) then evict_idle_longest self
              else Some self);
      let flow := Flow_update (Flow_new k seen) packet_size flags seen in
      Some (set_flows self (<[k := flow]> self.(flows)))
  end.

Definition has_evicted (self : FlowCache) : bool :=
  match self.(evicted) with [] => false | _ => true end.

(** Why a flow has ended by [now], if it has. *)
Definition reason_at (self : FlowCache) (now : Z) (flow : Flow) : option FlowEndReason :=
  let age := duration_since now flow.(first_seen) in
  let idle_time := duration_since now flow.(last_seen) in
  if self.(active_timeout) <=? age then Some FlowEndReason.ActiveTimeout
  else if self.(inactive_timeout) <=? idle_time then Some FlowEndReason.IdleTimeout
  else None.

(** The table's capacity, which [check_expired_flows] goes on to trim, does
    not show. *)
Definition check_expired_flows (self : FlowCache) (now : Z) : FlowCache * list Flow :=
  let '(kept, out) :=
    retain (fun flow => match reason_at self now flow with Some _ => false | None => true end)
      self.(flows) in
  let expired := self.(evicted) ++
    omap (fun flow => ended flow <$> reason_at self now flow) out in
  (mkCache kept self.(active_timeout) self.(inactive_timeout) self.(max_flows) [], expired).

Definition export_all (self : FlowCache) : FlowCache * list Flow :=
  (mkCache ∅ self.(active_timeout) self.(inactive_timeout) self.(max_flows) [],
   self.(evicted) ++ ((fun flow => ended flow FlowEndReason.ForcedEnd) <$> (map_to_list self.(flows)).*2)).

Definition len (self : FlowCache) : Z := Z.of_nat (size self.(flows)).
End flow.
