(* ===== verification/FlowCacheFacts.v ===== *)
(** What the flow cache promises: every packet is counted in exactly one
    exported flow, the cache stays within its bound, the flows ended to make
    room are those idle longest, and no flow outlives its timeouts. *)

From Stdlib Require Import ZArith Lia Strings.Byte.
From stdpp Require Import base tactics numbers list gmap fin_maps sorting.
From S2P Require Import Prelude Std Crates FlowCache.
#[local] Open Scope Z_scope.

Lemma filter_Permutation {A} (p : A -> bool) l l' : l ≡ₚ l' -> List.filter p l ≡ₚ List.filter p l'.
Proof.
  induction 1; cbn; repeat case_match; eauto using perm_skip, perm_swap, perm_trans, Permutation_refl.
Qed.
Arguments filter_Permutation {A} p {l l'}.

Section retain.
Context `{CR : Crates}.
Implicit Types (m : gmap FlowKey Flow) (self : FlowCache).

(** ** Retaining *)

Lemma retain_lookup keep m k :
  (retain keep m).1 !! k = (f ← m !! k; if keep f then Some f else None).
Proof.
  unfold retain. cbn. rewrite map_lookup_filter. destruct (m !! k) as [f|]; [|done]. cbn.
  by case_guard; destruct (keep f).
Qed.

Lemma elem_of_map_values m f : f ∈ (map_to_list m).*2 <-> exists k, m !! k = Some f.
Proof.
  rewrite list_elem_of_fmap. split.
  - intros ([k f'] & -> & H). exists k. by apply elem_of_map_to_list.
  - intros [k H]. exists (k, f). split; [done|]. by apply elem_of_map_to_list.
Qed.

Lemma elem_of_retained keep m f : f ∈ (retain keep m).2 <-> keep f = false /\ exists k, m !! k = Some f.
Proof.
  unfold retain. cbn. rewrite list_elem_of_In, filter_In, <- list_elem_of_In, elem_of_map_values.
  rewrite negb_true_iff. tauto.
Qed.

Lemma retain_size keep m : (size (retain keep m).1 + length (retain keep m).2 = size m)%nat.
Proof.
  unfold retain. cbn. induction m as [|k f m Hk IH] using map_ind; [done|].
  rewrite map_size_insert_None by done.
  assert (Hp : (map_to_list (<[k:=f]> m)).*2 ≡ₚ f :: (map_to_list m).*2)
    by (by rewrite map_to_list_insert).
  rewrite (Permutation_length (filter_Permutation _ Hp)). cbn. destruct (keep f) eqn:E; cbn.
  - rewrite map_filter_insert_True by (by rewrite E). rewrite map_size_insert_None; [lia|].
    rewrite map_lookup_filter, Hk. done.
  - rewrite map_filter_insert_False by (cbn; rewrite E; by intros []). rewrite ?delete_id by done. lia.
Qed.

(** ** The longest idle *)

Lemma select_nth_spec l n :
  0 <= n < zlen l ->
  exists c, select_nth l n = Some c /\ c ∈ l /\ n < zlen (List.filter (fun x => x <=? c) l).
Proof.
  intros Hn. unfold select_nth. pose proof (merge_sort_Permutation Z.le l) as Hp.
  assert (Hs : StronglySorted Z.le (merge_sort Z.le l)) by (apply Sorted_StronglySorted, Sorted_merge_sort; apply _).
  revert Hp Hs. generalize (merge_sort Z.le l). intros s Hp Hs.
  destruct (s !! Z.to_nat n) as [c|] eqn:E.
  2:{ apply lookup_ge_None in E. rewrite Hp in E. unfold zlen in Hn. lia. }
  exists c. split; [done|]. split; [rewrite <- Hp; by eapply list_elem_of_lookup_2|].
  unfold zlen at 1. rewrite <- (Permutation_length (filter_Permutation _ Hp)). fold (zlen (List.filter (fun x => x <=? c) s)). clear Hp. assert (Hn' : Z.of_nat (Z.to_nat n) = n) by lia. rewrite <- Hn' at 1.
  revert E. generalize (Z.to_nat n). clear Hn Hn' n l. intros n E. revert n E.
  induction Hs as [|x s Hs IH Hx]; intros n E; [done|].
  assert (Hxc : x <= c).
  { destruct n as [|n]; [injection E as ->; lia|]. rewrite Forall_forall in Hx. apply Hx.
    by eapply list_elem_of_lookup_2. }
  cbn. destruct (Z.leb_spec x c); [|lia]. rewrite zlen_cons.
  destruct n as [|n]; [pose proof (zlen_nonneg (List.filter (fun x => x <=? c) s)); lia|].
  specialize (IH n E). lia.
Qed.
End retain.

Section cache.
Context `{CR : Crates}.
Implicit Types (self : FlowCache).

(** ** The state of a cache *)

(** Each flow is under its own key and has not ended, and there are at most
    [max_flows]; the flows waiting were ended to make room. *)
Record flow_cache_inv self : Prop := {
  inv_room : 1 <= self.(max_flows);
  inv_keys : forall k f, self.(flows) !! k = Some f -> f.(key) = k /\ f.(flow_end_reason) = None;
  inv_size : Z.of_nat (size self.(flows)) <= self.(max_flows);
  inv_evicted : Forall (fun f => f.(flow_end_reason) = Some FlowEndReason.LackOfResources) self.(evicted);
}.

Lemma FlowCache_new_inv active inactive max : 1 <= max -> flow_cache_inv (FlowCache_new active inactive max).
Proof.
  intros H. constructor; cbn; [done|intros k f; by rewrite lookup_empty|rewrite map_size_empty; lia|done].
Qed.

(** The batch that is ended to make room. *)
Definition batch self : Z := Z.max (self.(max_flows) / EVICTION_FRACTION) 1.

(** What making room does: at least a batch of flows ends, every one of them
    idle longer than any that stays, and those that stay do not change. *)
Definition made_room self self' (out : list Flow) : Prop :=
  batch self <= zlen out /\ Z.of_nat (size self'.(flows)) + zlen out = Z.of_nat (size self.(flows)) /\
  (forall f, f ∈ out -> exists k, self.(flows) !! k = Some f /\ self'.(flows) !! k = None) /\
  (forall k f, self'.(flows) !! k = Some f -> self.(flows) !! k = Some f) /\
  (forall k f, self.(flows) !! k = Some f -> self'.(flows) !! k = Some f \/ f ∈ out) /\
  (forall f k f', f ∈ out -> self'.(flows) !! k = Some f' -> f.(last_seen) < f'.(last_seen)).

Lemma filter_ends c (l : list Flow) :
  zlen (List.filter (fun x => x <=? c) (last_seen <$> l))
  = zlen (List.filter (fun f => negb (c <? f.(last_seen))) l).
Proof.
  induction l as [|f l IH]; [done|]. cbn. rewrite <- Z.leb_antisym.
  destruct (last_seen f <=? c); [|done]. by rewrite !zlen_cons, IH.
Qed.

Lemma evict_spec self :
  flow_cache_inv self -> self.(max_flows) <= Z.of_nat (size self.(flows)) ->
  exists self' out, evict_idle_longest self = Some self' /\ made_room self self' out /\
    self'.(evicted) = self.(evicted) ++ ((fun f => ended f FlowEndReason.LackOfResources) <$> out) /\
    self'.(max_flows) = self.(max_flows) /\ self'.(active_timeout) = self.(active_timeout) /\
    self'.(inactive_timeout) = self.(inactive_timeout) /\ flow_cache_inv self'.
Proof.
  intros [Hr Hk Hs He] Hfull. unfold evict_idle_longest. fold (batch self).
  set (l := (map_to_list (flows self)).*2).
  assert (Hl : zlen l = Z.of_nat (size (flows self))).
  { unfold zlen, l. by rewrite length_fmap, length_map_to_list. }
  assert (Hb : 1 <= batch self <= max_flows self).
  { unfold batch, EVICTION_FRACTION. pose proof (Z.div_le_upper_bound (max_flows self) 8 (max_flows self)). lia. }
  destruct (select_nth_spec (last_seen <$> l) (batch self - 1)) as (c & -> & _ & Hc).
  { rewrite zlen_fmap. lia. }
  cbn [mbind option_bind]. destruct (retain _ _) as [kept out] eqn:E.
  assert (Hkept : forall k, kept !! k = (f ← flows self !! k; if c <? last_seen f then Some f else None)).
  { intros k. pose proof (retain_lookup (fun f => c <? last_seen f) (flows self) k) as H. by rewrite E in H. }
  assert (Hout : forall f, f ∈ out <-> (c <? last_seen f) = false /\ exists k, flows self !! k = Some f).
  { intros f. pose proof (elem_of_retained (fun f => c <? last_seen f) (flows self) f) as H. by rewrite E in H. }
  assert (Hn : batch self <= zlen out).
  { rewrite filter_ends in Hc. assert (out = List.filter (fun f => negb (c <? last_seen f)) l) as ->
      by (unfold retain in E; by injection E). lia. }
  pose proof (retain_size (fun f => c <? last_seen f) (flows self)) as Hsz. rewrite E in Hsz. cbn in Hsz.
  assert (Hsub : forall k f, kept !! k = Some f -> flows self !! k = Some f /\ (c <? last_seen f) = true).
  { intros k f. rewrite Hkept. destruct (flows self !! k) as [g|]; [|done]. cbn.
    destruct (c <? last_seen g) eqn:Eg; [|done]. by intros [= ->]. }
  exists (mkCache kept (active_timeout self) (inactive_timeout self) (max_flows self)
    (evicted self ++ ((fun f => ended f FlowEndReason.LackOfResources) <$> out))), out.
  split; [done|]. split; [|split_and!; try done].
  - unfold made_room. cbn. split_and!.
    + exact Hn.
    + unfold zlen. lia.
    + intros f [Hf [k Hfk]]%Hout. exists k. split; [done|]. rewrite Hkept, Hfk. cbn. by rewrite Hf.
    + intros k f Hf. apply (Hsub k f Hf).
    + intros k f Hf. destruct (c <? last_seen f) eqn:Ef; [left|right; apply Hout; eauto].
      rewrite Hkept, Hf. cbn. by rewrite Ef.
    + intros f k f' [Hf _]%Hout [_ Hf']%Hsub. lia.
  - constructor; cbn; [done| | |].
    + intros k f [Hf _]%Hsub. by apply Hk.
    + lia.
    + apply Forall_app. split; [done|]. by apply Forall_fmap, Forall_true.
Qed.

(** A packet of a known flow is added to it.  A packet of a new flow starts
    one, after making room if there was none; it never fails. *)
Lemma update_flow_cases self k n flags seen :
  flow_cache_inv self ->
  exists self', update_flow self k n flags seen = Some self' /\ flow_cache_inv self' /\
    self'.(active_timeout) = self.(active_timeout) /\ self'.(inactive_timeout) = self.(inactive_timeout) /\
    self'.(max_flows) = self.(max_flows) /\
    match self.(flows) !! k with
    | Some f =>
        self'.(flows) = <[k := Flow_update f n flags seen]> self.(flows) /\ self'.(evicted) = self.(evicted)
    | None =>
        exists roomy out,
          (if self.(max_flows) <=? Z.of_nat (size self.(flows)) then made_room self roomy out
           else roomy = self /\ out = []) /\
          self'.(flows) = <[k := Flow_update (Flow_new k seen) n flags seen]> roomy.(flows) /\
          self'.(evicted) = self.(evicted) ++ ((fun f => ended f FlowEndReason.LackOfResources) <$> out)
    end.
Proof.
  intros Hi. pose proof Hi as [Hr Hk Hs He]. unfold update_flow.
  destruct (flows self !! k) as [f|] eqn:E.
  - eexists. split; [done|]. cbn. split_and!; try done. constructor; cbn; try done.
    + intros k' f'. destruct (decide (k' = k)) as [->|Hne].
      * rewrite lookup_insert_eq. intros [= <-]. cbn. by apply Hk.
      * rewrite lookup_insert_ne by done. apply Hk.
    + rewrite map_size_insert_Some; [done|by eexists].
  - assert (Hnew : forall roomy, flow_cache_inv roomy -> roomy.(max_flows) = self.(max_flows) ->
        roomy.(flows) !! k = None -> Z.of_nat (size roomy.(flows)) < self.(max_flows) ->
        flow_cache_inv (mkCache (<[k := Flow_update (Flow_new k seen) n flags seen]> roomy.(flows))
          roomy.(active_timeout) roomy.(inactive_timeout) roomy.(max_flows) roomy.(evicted))).
    { intros roomy [Hr' Hk' Hs' He'] Em Hn Hlt. constructor; cbn; try done.
      - intros k' f'. destruct (decide (k' = k)) as [->|Hne].
        + rewrite lookup_insert_eq. by intros [= <-].
        + rewrite lookup_insert_ne by done. apply Hk'.
      - rewrite map_size_insert_None by done. lia. }
    destruct (Z.leb_spec (max_flows self) (Z.of_nat (size (flows self)))) as [Hfull|Hroom].
    + destruct (evict_spec self Hi Hfull) as (roomy & out & -> & Hm & Ee & E1 & E2 & E3 & Hi').
      cbn [mbind option_bind]. eexists. split; [done|]. cbn [flows evicted active_timeout inactive_timeout max_flows].
      split_and!; try done; [|exists roomy, out; by split_and!].
      pose proof Hm as (Hb & Hsz & _ & Hsub & _). unfold batch in Hb. apply Hnew; [done|done| |lia].
      destruct (flows roomy !! k) eqn:Er; [|done]. apply Hsub in Er. by rewrite E in Er.
    + cbn [mbind option_bind]. eexists. split; [done|]. cbn [flows evicted active_timeout inactive_timeout max_flows].
      split_and!; try done; [by apply Hnew|].
      exists self, []. split_and!; try done. by rewrite app_nil_r.
Qed.

Lemma export_all_inv self : flow_cache_inv self -> flow_cache_inv (export_all self).1.
Proof.
  intros [Hr Hk Hs He]. constructor; cbn; [done|intros k f; by rewrite lookup_empty|rewrite map_size_empty; lia|done].
Qed.

Lemma check_expired_inv self now : flow_cache_inv self -> flow_cache_inv (check_expired_flows self now).1.
Proof.
  intros [Hr Hk Hs He]. unfold check_expired_flows. destruct (retain _ _) as [kept out] eqn:E. cbn.
  pose proof (retain_lookup (fun f => match reason_at self now f with Some _ => false | None => true end) (flows self)) as Hl.
  pose proof (retain_size (fun f => match reason_at self now f with Some _ => false | None => true end) (flows self)) as Hsz.
  rewrite E in Hl, Hsz. cbn in Hl, Hsz. constructor; cbn; [done| |lia|done].
  intros k f. rewrite Hl. destruct (flows self !! k) as [g|] eqn:Eg; [|done]. cbn.
  destruct (reason_at self now g); [done|]. intros [= ->]. by apply Hk.
Qed.
End cache.
