(* ===== verification/FlowAccounting.v ===== *)
(** Whatever packets are observed, whenever flows time out and however often
    room has to be made, the flows exported account for every packet once. *)

From Stdlib Require Import ZArith Lia Strings.Byte.
From stdpp Require Import base tactics numbers list gmap fin_maps sorting.
From S2P Require Import Prelude Std Crates FlowCache FlowCacheFacts.
#[local] Open Scope Z_scope.

(** ** Measures of flows

    What packets add up to: a commutative operation with its unit, what a
    packet counts for and what a flow holds. *)

Record Measure `{CR : Crates} (T : Type) := mkMeasure {
  add : T -> T -> T;
  none : T;
  of_packet : Z -> Z -> T;
  of_flow : Flow -> T;
  add_comm a b : add a b = add b a;
  add_assoc a b c : add a (add b c) = add (add a b) c;
  add_none : add none none = none;
  add_none_add a b : add none (add a b) = add a b;
  add_none_flow f : add none (of_flow f) = of_flow f;
  add_none_packet n flags : add none (of_packet n flags) = of_packet n flags;
  of_flow_new k s : of_flow (Flow_new k s) = none;
  of_flow_update f n flags s : of_flow (Flow_update f n flags s) = add (of_flow f) (of_packet n flags);
  of_flow_ended f r : of_flow (ended f r) = of_flow f;
}.
Arguments mkMeasure {CR T}.
Arguments add {CR T}.
Arguments none {CR T}.
Arguments of_packet {CR T}.
Arguments of_flow {CR T}.
Arguments add_comm {CR T}.
Arguments add_assoc {CR T}.
Arguments add_none {CR T}.
Arguments add_none_add {CR T}.
Arguments add_none_flow {CR T}.
Arguments add_none_packet {CR T}.
Arguments of_flow_new {CR T}.
Arguments of_flow_update {CR T}.
Arguments of_flow_ended {CR T}.

(** ** What happens to a cache *)

Section accounting.
Context `{CR : Crates}.
Implicit Types (self : FlowCache).

Inductive event :=
  | Observe (k : FlowKey) (packet_size flags : Z) (seen : Seen)
  | Expire (now : Z)
  | ExportAll.

Definition handle self (e : event) : option (FlowCache * list Flow) :=
  match e with
  | Observe k n flags seen => (fun self => (self, [])) <$> update_flow self k n flags seen
  | Expire now => Some (check_expired_flows self now)
  | ExportAll => Some (export_all self)
  end.

(** The cache after some events and all flows exported meanwhile. *)
Fixpoint handle_all self (es : list event) : option (FlowCache * list Flow) :=
  match es with
  | [] => Some (self, [])
  | e :: es =>
      '(self, out) ← handle self e;
      '(self, more) ← handle_all self es;
      Some (self, out ++ more)
  end.

(** The packets of a flow key, their sizes and TCP flags. *)
Definition event_packet (k : FlowKey) (e : event) : option (Z * Z) :=
  match e with Observe k' n flags _ => if decide (k' = k) then Some (n, flags) else None | _ => None end.
Definition packets (k : FlowKey) (es : list event) : list (Z * Z) := omap (event_packet k) es.

(** The exported flows of a key. *)
Definition of_key (k : FlowKey) (l : list Flow) : list Flow := filter (fun f => f.(key) = k) l.

Section measure.
Context {T : Type} (M : Measure T) (k : FlowKey).

Definition total (l : list Flow) : T := foldr (fun f acc => add M (of_flow M f) acc) (none M) l.
Definition total_packets (l : list (Z * Z)) : T :=
  foldr (fun '(n, flags) acc => add M (of_packet M n flags) acc) (none M) l.

(** What a cache holds of the key, in the table and waiting. *)
Definition held self : T :=
  add M (default (none M) (of_flow M <$> self.(flows) !! k)) (total (of_key k self.(evicted))).

#[local] Arguments retain : simpl never.
#[local] Arguments of_key : simpl never.

Lemma total_cons f l : total (f :: l) = add M (of_flow M f) (total l).
Proof. done. Qed.
#[local] Arguments total : simpl never.

Lemma total_none l : add M (none M) (total l) = total l.
Proof. destruct l; [apply add_none|apply add_none_add]. Qed.

Lemma total_app l l' : total (l ++ l') = add M (total l) (total l').
Proof.
  induction l as [|f l IH]; [by rewrite total_none|].
  etrans; [apply (f_equal (add M _) IH)|apply add_assoc].
Qed.

Lemma total_Permutation l l' : l ≡ₚ l' -> total l = total l'.
Proof.
  induction 1 as [|f l l' _ IH|f g l|l l' l'' _ IH _ IH']; rewrite ?total_cons; [done|by rewrite IH| |congruence].
  rewrite !add_assoc. f_equal. apply add_comm.
Qed.

Lemma total_ended (r : Flow -> FlowEndReason) l :
  total (of_key k ((fun f => ended f (r f)) <$> l)) = total (of_key k l).
Proof.
  induction l as [|f l IH]; [done|]. unfold of_key in *. cbn.
  destruct (decide (key f = k)); [|exact IH]. rewrite !total_cons, of_flow_ended. f_equal. exact IH.
Qed.

Lemma of_key_app l l' : of_key k (l ++ l') = of_key k l ++ of_key k l'.
Proof. apply filter_app. Qed.

Lemma of_key_none l : (forall f, f ∈ l -> f.(key) <> k) -> of_key k l = [].
Proof.
  intros H. unfold of_key. induction l as [|f l IH]; [done|]. rewrite filter_cons_False.
  - apply IH. intros g Hg. apply H. by right.
  - apply H. by left.
Qed.

(** What of the key is put out is what is no longer kept. *)
Lemma retain_total keep (m : gmap FlowKey Flow) :
  (forall k f, m !! k = Some f -> f.(key) = k) ->
  add M (default (none M) (of_flow M <$> (retain keep m).1 !! k)) (total (of_key k (retain keep m).2))
  = default (none M) (of_flow M <$> m !! k).
Proof.
  intros Hk. rewrite retain_lookup.
  assert (Hother : forall f, f ∈ (retain keep m).2 -> f.(key) = k -> m !! k = Some f /\ keep f = false).
  { intros f [Hf [k' Hf']]%elem_of_retained E. by rewrite <- E, (Hk _ _ Hf'). }
  destruct (m !! k) as [f|] eqn:E; cbn.
  - destruct (keep f) eqn:Ef; cbn.
    + rewrite of_key_none; [cbn; unfold total; cbn; by rewrite (add_comm M), add_none_flow|].
      intros g Hg Eg. destruct (Hother g Hg Eg) as [[= ->] Hg']. congruence.
    + assert (Hp : (retain keep m).2 ≡ₚ f :: (retain keep (delete k m)).2).
      { unfold retain. cbn. rewrite <- (insert_delete_id m k f E) at 1.
        erewrite (filter_Permutation _ (l' := f :: (map_to_list (delete k m)).*2));
          [|by rewrite map_to_list_insert by apply lookup_delete_eq].
        cbn. by rewrite Ef. }
      unfold of_key. rewrite (total_Permutation _ (f :: of_key k (retain keep (delete k m)).2)).
      * rewrite of_key_none; [cbn; rewrite total_cons; unfold total; cbn; by rewrite (add_comm M (of_flow M f)), !add_none_flow|].
        intros g [_ [k' Hg]]%elem_of_retained Eg. apply lookup_delete_Some in Hg as [Hne Hg].
        apply Hk in Hg. congruence.
      * rewrite Hp. by rewrite filter_cons_True by by apply Hk.
  - rewrite of_key_none; [apply add_none|]. intros g Hg Eg. by destruct (Hother g Hg Eg).
Qed.

(** ** What each event does to a measure *)

(** Taken together, what is held and what was put out only change by the
    packets observed. *)
Definition accounts self (out : list Flow) self' (ps : list (Z * Z)) : Prop :=
  add M (held self') (total (of_key k out)) = add M (held self) (total_packets ps).

Lemma evict_held self roomy :
  flow_cache_inv self -> evict_idle_longest self = Some roomy -> held roomy = held self.
Proof.
  intros [_ Hk _ _] E. unfold evict_idle_longest in E.
  destruct (select_nth _ _) as [c|]; cbn in E; [|done].
  pose proof (retain_total (fun f => c <? last_seen f) (flows self) (fun k f H => proj1 (Hk k f H))) as Hr.
  destruct (retain _ _) as [kept gone]. injection E as <-. unfold held. cbn in *.
  rewrite of_key_app, total_app, (total_ended (fun _ => FlowEndReason.LackOfResources)).
  rewrite <- Hr, <- (add_assoc M). f_equal. apply add_comm.
Qed.

(** A packet put into a table that may have a flow for it. *)
Lemma insert_held self table a i mx k' f n flags seen :
  default (none M) (of_flow M <$> table !! k') = of_flow M f ->
  add M (held (mkCache (<[k' := Flow_update f n flags seen]> table) a i mx self.(evicted))) (none M)
  = add M (add M (default (none M) (of_flow M <$> table !! k)) (total (of_key k self.(evicted))))
      (total_packets (option_list (event_packet k (Observe k' n flags seen)))).
Proof.
  intros Hf. unfold held. cbn. rewrite (add_comm M _ (none M)), add_none_add.
  destruct (decide (k' = k)) as [->|Hne]; cbn.
  - rewrite lookup_insert_eq. cbn. rewrite of_flow_update, Hf, (add_comm M _ (none M)), add_none_packet.
    rewrite <- !(add_assoc M). f_equal. apply add_comm.
  - by rewrite lookup_insert_ne, (add_comm M _ (none M)), add_none_add.
Qed.

Lemma held_none self : add M (held self) (none M) = held self.
Proof. unfold held. by rewrite (add_comm M _ (none M)), add_none_add. Qed.

(** Putting out what waited, and what is not kept, under any reasons. *)
Lemma flush_held self keep table l a i mx :
  (forall k f, self.(flows) !! k = Some f -> f.(key) = k) ->
  (forall k, table !! k = (retain keep self.(flows)).1 !! k) ->
  total (of_key k l) = total (of_key k (retain keep self.(flows)).2) ->
  add M (held (mkCache table a i mx [])) (total (of_key k (self.(evicted) ++ l))) = held self.
Proof.
  intros Hk Ht Hl. unfold held. cbn. rewrite of_key_app, total_app, Hl, Ht, <- (retain_total keep (flows self) Hk).
  unfold of_key at 1. cbn. change (total []) with (none M).
  rewrite (add_comm M _ (none M)), <- (add_assoc M (none M)), add_none_add.
  rewrite <- (add_assoc M). f_equal. apply add_comm.
Qed.

Lemma observe_accounts self k' n flags seen self' :
  flow_cache_inv self -> update_flow self k' n flags seen = Some self' ->
  accounts self [] self' (option_list (event_packet k (Observe k' n flags seen))).
Proof.
  intros Hi E. unfold accounts, update_flow in *. destruct (flows self !! k') as [f|] eqn:Ef; cbn [mbind option_bind] in E.
  - injection E as <-. etrans; [apply insert_held|done]. by rewrite Ef.
  - destruct (max_flows self <=? Z.of_nat (size (flows self))) eqn:Em; cbn [mbind option_bind] in E.
    + destruct (evict_idle_longest self) as [roomy|] eqn:Ev; [|done]. injection E as <-.
      rewrite <- (evict_held self roomy) by done. etrans; [apply insert_held|done].
      rewrite of_flow_new. destruct (evict_spec self Hi) as (r & gone & E' & Hm & _); [lia|].
      rewrite Ev in E'. injection E' as <-. destruct Hm as (_ & _ & _ & Hsub & _).
      destruct (flows roomy !! k') as [g|] eqn:Eg; [|done]. apply Hsub in Eg. congruence.
    + injection E as <-. etrans; [apply insert_held|done]. by rewrite Ef, of_flow_new.
Qed.

Lemma expire_accounts self now :
  flow_cache_inv self ->
  accounts self (check_expired_flows self now).2 (check_expired_flows self now).1 [].
Proof.
  intros [_ Hk _ _]. unfold accounts, check_expired_flows.
  pose proof (elem_of_retained (fun f => match reason_at self now f with Some _ => false | None => true end)
    (flows self)) as Hel.
  pose proof (fun l => flush_held self (fun f => match reason_at self now f with Some _ => false | None => true end)
    (retain (fun f => match reason_at self now f with Some _ => false | None => true end) (flows self)).1 l
    (active_timeout self) (inactive_timeout self) (max_flows self) (fun k f H => proj1 (Hk k f H)) (fun _ => eq_refl)) as Hf.
  destruct (retain _ _) as [kept gone]. cbn [fst snd] in *. cbn. rewrite held_none. apply Hf.
  rewrite <- (total_ended (fun f => default FlowEndReason.ForcedEnd (reason_at self now f)) gone). f_equal. f_equal.
  assert (Hg : forall f, f ∈ gone -> is_Some (reason_at self now f)).
  { intros f [Hf' _]%Hel. by destruct (reason_at self now f). }
  clear -Hg. induction gone as [|f l IH]; [done|]. cbn.
  destruct (Hg f) as [r Er]; [by left|]. rewrite Er. cbn. f_equal. apply IH. intros g Hg'. apply Hg. by right.
Qed.

Lemma export_all_accounts self :
  flow_cache_inv self -> accounts self (export_all self).2 (export_all self).1 [].
Proof.
  intros [_ Hk _ _]. unfold accounts. cbn. rewrite held_none.
  apply (flush_held self (fun _ => false)).
  - intros k' f H. by apply Hk.
  - intros k'. rewrite retain_lookup, lookup_empty. by destruct (flows self !! k').
  - rewrite (total_ended (fun _ => FlowEndReason.ForcedEnd)). f_equal. f_equal. unfold retain. cbn.
    induction ((map_to_list (flows self)).*2) as [|f l IH]; [done|]. cbn. by f_equal.
Qed.

Lemma total_packets_app ps ps' : total_packets (ps ++ ps') = add M (total_packets ps) (total_packets ps').
Proof.
  induction ps as [|[n flags] ps IH]; cbn.
  - destruct ps' as [|[n flags] ps']; cbn; by rewrite ?add_none, ?add_none_add.
  - etrans; [apply (f_equal (add M _) IH)|apply add_assoc].
Qed.

Lemma accounts_trans self1 out1 self2 ps1 out2 self3 ps2 :
  accounts self1 out1 self2 ps1 -> accounts self2 out2 self3 ps2 ->
  accounts self1 (out1 ++ out2) self3 (ps1 ++ ps2).
Proof.
  unfold accounts. intros H1 H2. rewrite of_key_app, total_app, total_packets_app.
  rewrite (add_assoc M (held self1)), <- H1, <- (add_assoc M (held self2)).
  rewrite (add_comm M (total (of_key k out1)) (total_packets ps2)), (add_assoc M (held self2)), <- H2.
  rewrite <- (add_assoc M). f_equal. apply add_comm.
Qed.
End measure.

(** ** Runs *)

Lemma packets_cons k e es : packets k (e :: es) = option_list (event_packet k e) ++ packets k es.
Proof. unfold packets. cbn. by destruct (event_packet k e). Qed.

Lemma handle_ok self e :
  flow_cache_inv self ->
  exists self' out, handle self e = Some (self', out) /\ flow_cache_inv self' /\
    forall T (M : Measure T) k, accounts M k self out self' (option_list (event_packet k e)).
Proof.
  intros Hi. destruct e as [k' n flags seen|now|]; cbn [handle].
  - destruct (update_flow_cases self k' n flags seen Hi) as (self' & E & Hi' & _).
    exists self', []. rewrite E. split_and!; [done|done|]. intros T M k. by apply observe_accounts.
  - exists (check_expired_flows self now).1, (check_expired_flows self now).2.
    split_and!; [by destruct (check_expired_flows self now)|by apply check_expired_inv|].
    intros T M k. by apply expire_accounts.
  - eexists _, _. split_and!; [done|by apply (export_all_inv self)|].
    intros T M k. by apply (export_all_accounts M k self).
Qed.

Lemma handle_all_ok es : forall self,
  flow_cache_inv self ->
  exists self' out, handle_all self es = Some (self', out) /\ flow_cache_inv self' /\
    forall T (M : Measure T) k, accounts M k self out self' (packets k es).
Proof.
  induction es as [|e es IH]; intros self Hi.
  - exists self, []. split_and!; [done|done|]. intros T M k. unfold accounts, of_key. done.
  - destruct (handle_ok self e Hi) as (self1 & out1 & E1 & Hi1 & H1).
    destruct (IH self1 Hi1) as (self2 & out2 & E2 & Hi2 & H2).
    exists self2, (out1 ++ out2). split_and!; [cbn; rewrite E1; cbn; by rewrite E2|done|].
    intros T M k. rewrite packets_cons. by eapply accounts_trans.
Qed.

Lemma handle_all_app es es' : forall self,
  handle_all self (es ++ es')
  = ('(self, out) ← handle_all self es; '(self, more) ← handle_all self es'; Some (self, out ++ more)).
Proof.
  induction es as [|e es IH]; intros self; cbn.
  - by destruct (handle_all self es') as [[? ?]|].
  - destruct (handle self e) as [[self1 out1]|]; [|done]. cbn. rewrite IH.
    destruct (handle_all self1 es) as [[self2 out2]|]; [|done]. cbn.
    destruct (handle_all self2 es') as [[self3 out3]|]; [|done]. cbn. by rewrite app_assoc.
Qed.
End accounting.

(** ** The three counters *)

Section counters.
Context `{CR : Crates}.

Lemma wrap_add_wrap a b : wrap 64 (a + wrap 64 b) = wrap 64 (a + b).
Proof. unfold wrap. by rewrite Zplus_mod_idemp_r. Qed.
Lemma wrap_wrap_add a b : wrap 64 (wrap 64 a + b) = wrap 64 (a + b).
Proof. unfold wrap. by rewrite Zplus_mod_idemp_l. Qed.
Lemma wrap_wrap a : wrap 64 (wrap 64 a) = wrap 64 a.
Proof. unfold wrap. by rewrite Zmod_mod. Qed.

(** A 64-bit counter. *)
Definition counter (count : Flow -> Z) (packet : Z -> Z)
    (count_new : forall k s, count (Flow_new k s) = 0)
    (count_update : forall f n flags s, count (Flow_update f n flags s) = wrap 64 (count f + packet n))
    (count_ended : forall f r, count (ended f r) = count f) : Measure Z.
Proof.
  refine (mkMeasure (fun a b => wrap 64 (a + b)) 0 (fun n _ => wrap 64 (packet n)) (fun f => wrap 64 (count f))
    _ _ _ _ _ _ _ _ _); intros; cbn beta.
  - by rewrite Z.add_comm.
  - by rewrite wrap_add_wrap, wrap_wrap_add, Z.add_assoc.
  - done.
  - by rewrite Z.add_0_l, wrap_wrap.
  - by rewrite Z.add_0_l, wrap_wrap.
  - by rewrite Z.add_0_l, wrap_wrap.
  - by rewrite count_new.
  - by rewrite count_update, wrap_wrap, wrap_add_wrap, wrap_wrap_add.
  - by rewrite count_ended.
Defined.

Definition octets : Measure Z := counter octet_count (fun n => n) (fun _ _ => eq_refl) (fun _ _ _ _ => eq_refl) (fun _ _ => eq_refl).
Definition packet_counts : Measure Z := counter packet_count (fun _ => 1) (fun _ _ => eq_refl) (fun _ _ _ _ => eq_refl) (fun _ _ => eq_refl).
Definition flag_union : Measure Z :=
  mkMeasure Z.lor 0 (fun _ flags => flags) tcp_flags Z.lor_comm Z.lor_assoc eq_refl
    (fun _ _ => eq_refl) (fun _ => eq_refl) (fun _ _ => eq_refl) (fun _ _ => eq_refl) (fun _ _ _ _ => eq_refl) (fun _ _ => eq_refl).

Lemma counter_total count packet H1 H2 H3 l :
  total (counter count packet H1 H2 H3) l = wrap 64 (zsum count l).
Proof. induction l as [|f l IH]; [done|]. rewrite total_cons, IH. cbn. by rewrite wrap_add_wrap, wrap_wrap_add. Qed.

Lemma counter_packets count packet H1 H2 H3 ps :
  total_packets (counter count packet H1 H2 H3) ps = wrap 64 (zsum (fun p => packet p.1) ps).
Proof.
  induction ps as [|[n flags] ps IH]; [done|]. cbn [total_packets foldr]. 
  etrans; [apply (f_equal (add _ _) IH)|]. cbn. by rewrite wrap_add_wrap, wrap_wrap_add.
Qed.

Lemma flags_total l : total flag_union l = foldr Z.lor 0 (tcp_flags <$> l).
Proof. induction l as [|f l IH]; [done|]. by rewrite total_cons, IH. Qed.
Lemma flags_packets ps : total_packets flag_union ps = foldr Z.lor 0 ps.*2.
Proof.
  induction ps as [|[n flags] ps IH]; [done|]. etrans; [apply (f_equal (Z.lor flags) IH)|done].
Qed.

(** Emptied in the end, an empty cache has put out what it was given. *)
Lemma handle_all_emptied self es :
  flow_cache_inv self -> self.(flows) = ∅ /\ self.(evicted) = [] ->
  exists self' out, handle_all self es = Some (self', out) /\
    forall k,
      let fs := of_key k (out ++ (export_all self').2) in
      let ps := packets k es in
      wrap 64 (zsum packet_count fs) = wrap 64 (zlen ps) /\
      wrap 64 (zsum octet_count fs) = wrap 64 (zsum fst ps) /\
      foldr Z.lor 0 (tcp_flags <$> fs) = foldr Z.lor 0 ps.*2.
Proof.
  intros Hi [Hf He]. destruct (handle_all_ok es _ Hi) as (self' & out & E & Hi' & Ha).
  exists self', out. split; [done|]. intros k.
  assert (H : forall T (M : Measure T), total M (of_key k (out ++ (export_all self').2)) = total_packets M (packets k es)).
  { intros T M. pose proof (export_all_accounts M k self' Hi') as He'.
    pose proof (accounts_trans M k _ _ _ _ _ _ _ (Ha T M k) He') as H. unfold accounts in H.
    rewrite app_nil_r in H. unfold held in H. cbn in H. rewrite lookup_empty, Hf, He, lookup_empty in H. cbn in H.
    change (total M []) with (none M) in H. rewrite add_none, total_none in H. etrans; [exact H|].
    destruct (packets k es) as [|[n flags] ps]; [apply add_none|apply add_none_add]. }
  cbv zeta. split_and!.
  - pose proof (H _ packet_counts) as H1. unfold packet_counts in H1. rewrite counter_total, counter_packets in H1.
    rewrite H1. f_equal. rewrite (zsum_const _ 1) by done. lia.
  - pose proof (H _ octets) as H1. unfold octets in H1. by rewrite counter_total, counter_packets in H1.
  - pose proof (H _ flag_union) as H1. by rewrite flags_total, flags_packets in H1.
Qed.

(** C32: Whatever packets a new cache observes, at whatever times flows expire in
    between, and however often room has to be made, it never fails; and the
    flows it has exported once it is emptied count, for every key, the packets
    and octets of that key's packets and carry the union of their TCP flags:
    no packet is lost and none is counted twice. *)
Theorem flow_accounting active inactive max es k :
  1 <= max ->
  exists self out, handle_all (FlowCache_new active inactive max) (es ++ [ExportAll]) = Some (self, out) /\
    let fs := of_key k out in
    let ps := packets k es in
    wrap 64 (zsum packet_count fs) = wrap 64 (zlen ps) /\
    wrap 64 (zsum octet_count fs) = wrap 64 (zsum fst ps) /\
    foldr Z.lor 0 (tcp_flags <$> fs) = foldr Z.lor 0 ps.*2.
Proof.
  intros Hm. destruct (handle_all_emptied (FlowCache_new active inactive max) es) as (self & out & E & H);
    [by apply FlowCache_new_inv|done|].
  eexists _, _. split; [|apply (H k)]. rewrite handle_all_app, E. cbn. by rewrite app_nil_r.
Qed.

(** ** Room and time *)

(** A packet of a flow that is not in a full cache ends at least an eighth of
    the flows, for lack of resources: every one of them was idle longer than
    any flow that stays.  The cache never holds more than its bound, and apart
    from the packet's own flow the others are as they were. *)
Theorem full_cache_ends_idle_longest self k n flags seen :
  flow_cache_inv self -> self.(flows) !! k = None ->
  Z.of_nat (size self.(flows)) = self.(max_flows) ->
  exists self' out, update_flow self k n flags seen = Some self' /\ flow_cache_inv self' /\
    self'.(evicted) = self.(evicted) ++ ((fun f => ended f FlowEndReason.LackOfResources) <$> out) /\
    self.(max_flows) / 8 <= zlen out /\ 1 <= zlen out /\
    self'.(flows) !! k = Some (Flow_update (Flow_new k seen) n flags seen) /\
    (forall k' f, k' <> k -> self.(flows) !! k' = Some f ->
       (self'.(flows) !! k' = Some f /\ forall g, g ∈ out -> g.(last_seen) < f.(last_seen)) \/
       (self'.(flows) !! k' = None /\ f ∈ out)).
Proof.
  intros Hi Hk Hs. destruct (update_flow_cases self k n flags seen Hi) as (self' & E & Hi' & _ & _ & _ & H).
  rewrite Hk in H. destruct H as (roomy & out & H & Ef & Ee).
  rewrite Hs, Z.leb_refl in H. destruct H as (Hb & _ & Hout & Hsub & Hall & Hlt).
  exists self', out. unfold batch, EVICTION_FRACTION in Hb. split_and!; try done; [lia|lia|by rewrite Ef, lookup_insert_eq|].
  intros k' f Hne Hf. rewrite Ef, lookup_insert_ne by done. destruct (Hall k' f Hf) as [H|H].
  - left. split; [done|]. intros g Hg. by eapply Hlt.
  - right. split; [|done]. destruct (Hout f H) as (k'' & Hf'' & Hn).
    assert (k'' = k') as ->; [|done].
    pose proof (inv_keys self Hi _ _ Hf) as [<- _]. pose proof (inv_keys self Hi _ _ Hf'') as [<- _]. done.
Qed.

(** Checking at [now] keeps exactly the flows younger than the active timeout
    and idle for less than the inactive one, and exports each of the others
    once, for the timeout that ended it, after those ended to make room. *)
Theorem check_expired_flows_spec self now :
  let '(self', out) := check_expired_flows self now in
  let age f := duration_since now f.(first_seen) in
  let idle f := duration_since now f.(last_seen) in
  (forall k f, self'.(flows) !! k = Some f <->
     self.(flows) !! k = Some f /\ age f < self.(active_timeout) /\ idle f < self.(inactive_timeout)) /\
  self'.(evicted) = [] /\
  exists expired, out = self.(evicted) ++ expired /\
    Z.of_nat (size self'.(flows)) + zlen expired = Z.of_nat (size self.(flows)) /\
    forall g, g ∈ expired <-> exists k f, self.(flows) !! k = Some f /\
      ((self.(active_timeout) <= age f /\ g = ended f FlowEndReason.ActiveTimeout) \/
       (age f < self.(active_timeout) /\ self.(inactive_timeout) <= idle f /\
        g = ended f FlowEndReason.IdleTimeout)).
Proof.
  unfold check_expired_flows. set (keep := fun f => match reason_at self now f with Some _ => false | None => true end).
  pose proof (retain_lookup keep (flows self)) as Hl. pose proof (elem_of_retained keep (flows self)) as He.
  pose proof (retain_size keep (flows self)) as Hs.
  destruct (retain keep (flows self)) as [kept gone]. cbn [fst snd] in *. cbn zeta. cbn [flows evicted].
  assert (Hgone : forall f, f ∈ gone -> is_Some (reason_at self now f)).
  { intros f [Hf _]%He. unfold keep in Hf. by destruct (reason_at self now f). }
  split_and!; [|done|].
  - intros k f. rewrite Hl. destruct (flows self !! k) as [g|]; cbn; [|naive_solver].
    unfold keep, reason_at.
    destruct (Z.leb_spec (active_timeout self) (duration_since now (first_seen g)));
      [|destruct (Z.leb_spec (inactive_timeout self) (duration_since now (last_seen g)))];
      (split; [intros [= <-] || intros [=]|intros ([= <-] & ? & ?)]); try done; lia.
  - eexists. split; [done|]. split.
    + assert (El : zlen (omap (fun flow => ended flow <$> reason_at self now flow) gone) = zlen gone).
      { clear -Hgone. induction gone as [|f l IH]; [done|]. cbn. destruct (Hgone f) as [r ->]; [by left|].
        cbn. rewrite !zlen_cons, IH; [done|]. intros g Hg. apply Hgone. by right. }
      rewrite El. unfold zlen. lia.
    + intros g. rewrite list_elem_of_omap. split.
      * intros (f & Hf & Eg). apply He in Hf as [_ [k Hk]]. exists k, f. split; [done|]. revert Eg. unfold reason_at.
        destruct (Z.leb_spec (active_timeout self) (duration_since now (first_seen f))); [intros [= <-]; by left|].
        destruct (Z.leb_spec (inactive_timeout self) (duration_since now (last_seen f))); [|done].
        intros [= <-]. right. by split_and!.
      * intros (k & f & Hk & H). exists f.
        assert (Er : ended f <$> reason_at self now f = Some g).
        { unfold reason_at. destruct H as [[Ha ->]|(Ha & Hb & ->)];
            destruct (Z.leb_spec (active_timeout self) (duration_since now (first_seen f))); try done; try lia.
          destruct (Z.leb_spec (inactive_timeout self) (duration_since now (last_seen f))); [done|lia]. }
        split; [|done]. apply He. split; [|eauto]. unfold keep. by destruct (reason_at self now f).
Qed.
End counters.

Section samples.
#[local] Instance sample_crates : Crates := crates_std.

Definition sample_time : date := exist _ (1_700_000_000, 0) eq_refl.
Definition sample_seen (t : Z) : Seen := mkSeen sample_time (from_secs t).
Definition sample_key (port : Z) : FlowKey := mkKey (V4 1) (V4 2) 6 port 80.

(** A cache of two flows: the third port makes room, then the first returns. *)
Definition sample_events : list event :=
  [Observe (sample_key 1) 100 0x02 (sample_seen 0); Observe (sample_key 2) 60 0 (sample_seen 1);
   Observe (sample_key 3) 60 0 (sample_seen 2); Expire (from_secs 3);
   Observe (sample_key 1) 40 0x10 (sample_seen 4)].

Lemma flow_accounting_witness :
  exists self out, handle_all (FlowCache_new 60 15 2) (sample_events ++ [ExportAll]) = Some (self, out) /\
    length (of_key (sample_key 1) out) = 2%nat /\
    wrap 64 (zsum octet_count (of_key (sample_key 1) out)) = 140 /\
    foldr Z.lor 0 (tcp_flags <$> of_key (sample_key 1) out) = 0x12.
Proof.
  destruct (flow_accounting 60 15 2 sample_events (sample_key 1) ltac:(lia)) as (self & out & E & _ & H2 & H3).
  exists self, out. split; [exact E|]. split; [|split; [exact H2|exact H3]].
  assert (Hc : match handle_all (FlowCache_new 60 15 2) (sample_events ++ [ExportAll]) with
    | Some (_, out) => length (of_key (sample_key 1) out) = 2%nat | None => False end) by (vm_compute; reflexivity).
  rewrite E in Hc. exact Hc.
Defined.

Definition sample_cache : FlowCache :=
  default (FlowCache_new 60 15 2) (fst <$> handle_all (FlowCache_new 60 15 2) (take 2 sample_events)).

Lemma sample_cache_inv : flow_cache_inv sample_cache.
Proof.
  destruct (handle_all_ok (take 2 sample_events) (FlowCache_new 60 15 2)) as (self & out & E & Hi & _).
  { by apply FlowCache_new_inv. }
  unfold sample_cache. by rewrite E.
Qed.

Lemma full_cache_ends_idle_longest_witness :
  exists self' out, update_flow sample_cache (sample_key 3) 60 0 (sample_seen 2) = Some self' /\
    self'.(evicted) = sample_cache.(evicted) ++ ((fun f => ended f FlowEndReason.LackOfResources) <$> out) /\
    1 <= zlen out.
Proof.
  destruct (full_cache_ends_idle_longest sample_cache (sample_key 3) 60 0 (sample_seen 2) sample_cache_inv)
    as (self' & out & E & _ & Ee & _ & Ho & _); [|vm_compute; reflexivity|].
  { apply eq_None_not_Some, (bool_decide_eq_false_1 _). vm_compute. reflexivity. }
  exists self', out. auto.
Defined.
End samples.
