(* ===== verification/FlowParse.v ===== *)
(** [rustflow_export/src/flow/parse.rs]: the flow key, size and TCP flags of a
    captured frame. *)

From Stdlib Require Import ZArith Lia Strings.Byte.
From stdpp Require Import base tactics numbers list.
From S2P Require Import Prelude Std Etherparse FlowCache Sampler.
#[local] Open Scope Z_scope.

Record PacketInfo := mkInfo {
  flow_key : FlowKey;
  packet_size : Z;
  i_tcp_flags : Z;
}.

Section parse.
Context `{EP : Etherparse}.

(** The shifted flag bits, or'ed. *)
Definition header_flags (header : TcpSlice) : Z :=
  let flag (b : bool) n := Z.shiftl (Z.b2z b) n in
  Z.lor (Z.lor (Z.lor (Z.lor (Z.lor (Z.lor (Z.lor (Z.lor
    (flag header.(tcp_ns) 8) (Z.b2z header.(tcp_fin))) (flag header.(tcp_syn) 1)) (flag header.(tcp_rst) 2))
    (flag header.(tcp_psh) 3)) (flag header.(tcp_ack) 4)) (flag header.(tcp_urg) 5))
    (flag header.(tcp_ece) 6)) (flag header.(tcp_cwr) 7).

Definition packet_info (sliced : LaxSlicedPacket) : option PacketInfo :=
  '(source_ip, dest_ip, protocol, total_length) ←
    match net sliced with
    | Some (Ipv4 header _) =>
        Some (V4 header.(v4_source_addr), V4 header.(v4_destination_addr), header.(v4_protocol),
              header.(v4_total_len))
    | Some (Ipv6 header _ payload) =>
        Some (V6 header.(v6_source_addr), V6 header.(v6_destination_addr), payload.(ip_number),
              header.(v6_payload_length) + 40)
    | Some Arp | None => None
    end;
  let '(source_port, dest_port, flags) :=
    match transport sliced with
    | Some (Tcp header) =>
        (header.(tcp_source_port), header.(tcp_destination_port), header_flags header)
    | Some (Udp header) => (header.(udp_source_port), header.(udp_destination_port), 0)
    | _ => (0, 0, 0)
    end in
  Some (mkInfo (mkKey source_ip dest_ip protocol source_port dest_port) total_length flags).

Definition parse (link : Link) (data : bytes) : option PacketInfo :=
  sliced ← match link with
           | Link.Ethernet => from_ethernet data
           | Link.Ip => from_ip data
           end;
  packet_info sliced.
End parse.
