(* ===== verification/Meter.v ===== *)
(** [rustflow_export/src/meter.rs]: the frames captured, sampled and turned
    into records to export. *)

From Stdlib Require Import ZArith Lia Strings.Byte.
From stdpp Require Import base tactics numbers list gmap.
From S2P Require Import Prelude Std Crates Etherparse FlowCache Sampler FlowParse.
#[local] Open Scope Z_scope.

Definition PACKET_BATCH : Z := 64.
Definition UDP : Z := 17.

(** [ipfix/data.rs]: the start of a sampled packet. *)
Record PacketData := mkPacketData { pd_link : Link; pd_length : Z; pd_section : bytes }.

Module Records.
Section records.
Context `{CR : Crates}.
Inductive Records := Flows (flows : list Flow) | Packets (packets : list PacketData).
End records.
End Records.
Export Records(Records).

Module Output.
Section output.
Context `{CR : Crates}.
Inductive Output := Flows (cache : FlowCache) | Packets (clip_length : Z) (pending : list PacketData).
End output.
End Output.
Export Output(Output).

Section meter.
Context `{CR : Crates} `{CK : Clock} `{EP : Etherparse}.

Record Meter := mkMeter {
  link : Link;
  local_port : Z;
  collector : SocketAddr;
  sampler : Sampler;
  output : Output;
}.

Definition Meter_new (args : ExportArgs) (link : Link) (local_port : Z) (collector : SocketAddr) : Meter :=
  let output :=
    match args.(mode) with
    | Mode.Flow =>
        Output.Flows (FlowCache_new args.(a_active_timeout) args.(a_inactive_timeout) args.(a_max_flows))
    | Mode.Packet => Output.Packets args.(clip_length) []
    end in
  mkMeter link local_port collector (Sampler_new (sampling args)) output.

Definition is_export (self : Meter) (packet : PacketInfo) : bool :=
  let key := packet.(flow_key) in
  (key.(protocol) =? UDP) && (key.(source_port) =? self.(local_port)) &&
  bool_decide (key.(destination_ip) = self.(collector).(ip)) &&
  (key.(destination_port) =? self.(collector).(port)).

(** [None] is a panic of the flow cache. *)
Definition observe (self : nat * Meter) (frame : Frame) : option (nat * Meter) :=
  let '(reads, self) := self in
  let '(sampler, selected) := select self.(sampler) in
  let set output := mkMeter self.(link) self.(local_port) self.(collector) sampler output in
  if negb selected then Some (reads, set self.(output))
  else
    let packet := parse self.(link) frame.(data) in
    if match packet with Some packet => is_export self packet | None => false end
    then Some (reads, set self.(output))
    else
      match self.(output) with
      | Output.Flows cache =>
          match packet with
          | Some packet =>
              let '(reads, now) := instant_now reads in
              let seen := mkSeen frame.(time) now in
              cache ← update_flow cache packet.(flow_key) packet.(packet_size) packet.(i_tcp_flags) seen;
              Some (reads, set (Output.Flows cache))
          | None => Some (reads, set self.(output))
          end
      | Output.Packets clip_length pending =>
          let section := take (Nat.min (List.length frame.(data)) (Z.to_nat clip_length)) frame.(data) in
          Some (reads, set (Output.Packets clip_length
            (pending ++ [mkPacketData self.(link) frame.(length) section])))
      end.

Definition is_full (self : Meter) : bool :=
  match self.(output) with
  | Output.Flows cache => has_evicted cache
  | Output.Packets _ pending => PACKET_BATCH <=? zlen pending
  end.

Definition take_due (self : nat * Meter) : (nat * Meter) * Records :=
  let '(reads, self) := self in
  let set output := mkMeter self.(link) self.(local_port) self.(collector) self.(sampler) output in
  match self.(output) with
  | Output.Flows cache =>
      let '(reads, now) := instant_now reads in
      let '(cache, flows) := check_expired_flows cache now in
      ((reads, set (Output.Flows cache)), Records.Flows flows)
  | Output.Packets clip_length pending =>
      ((reads, set (Output.Packets clip_length [])), Records.Packets pending)
  end.

Definition take_all (self : Meter) : Meter * Records :=
  let set output := mkMeter self.(link) self.(local_port) self.(collector) self.(sampler) output in
  match self.(output) with
  | Output.Flows cache =>
      let '(cache, flows) := export_all cache in
      (set (Output.Flows cache), Records.Flows flows)
  | Output.Packets clip_length pending =>
      (set (Output.Packets clip_length []), Records.Packets pending)
  end.

Definition active_flows (self : Meter) : Z :=
  match self.(output) with
  | Output.Flows cache => len cache
  | Output.Packets _ _ => 0
  end.
End meter.

(** ** What it promises

    What the meter promises: one in every so many frames is metered, the
    exporter's own datagrams never are, and what is exported accounts for the
    frames metered and nothing else. *)

From S2P Require Import FlowCacheFacts FlowAccounting.
From S2P Require Packet ConvertPacket.

(** The TCP flags are those the collector reads from a packet section. *)
Lemma header_flags_eq header : header_flags header = ConvertPacket.tcp_flags_of header.
Proof. by destruct header as [? ? [] [] [] [] [] [] [] [] []]. Qed.

Section runs.
Context `{CR : Crates} `{CK : Clock} `{EP : Etherparse}.

(** What befalls a meter: frames, and requests for the records due. *)
Inductive meter_event := Captured (frame : Frame) | Due.

Definition meter_step (st : nat * Meter) (e : meter_event) : option ((nat * Meter) * list Records) :=
  match e with
  | Captured frame => (fun st => (st, [])) <$> observe st frame
  | Due => let '(st, records) := take_due st in Some (st, [records])
  end.

Fixpoint meter_run (st : nat * Meter) (es : list meter_event) : option ((nat * Meter) * list Records) :=
  match es with
  | [] => Some (st, [])
  | e :: es =>
      '(st, out) ← meter_step st e;
      '(st, more) ← meter_run st es;
      Some (st, out ++ more)
  end.

Definition frames (es : list meter_event) : list Frame :=
  omap (fun e => match e with Captured frame => Some frame | Due => None end) es.

(** The flows, or the packets, among records. *)
Definition all_flows (rs : list Records) : list Flow :=
  rs ≫= fun r => match r with Records.Flows flows => flows | Records.Packets _ => [] end.
Definition all_packets (rs : list Records) : list PacketData :=
  rs ≫= fun r => match r with Records.Packets packets => packets | Records.Flows _ => [] end.

(** ** What is metered *)

Section meter.
Context (link : Link) (local_port : Z) (collector : SocketAddr).

(** A datagram from the exporter's port to the collector. *)
Definition own (packet : PacketInfo) : bool :=
  let k := packet.(flow_key) in
  bool_decide (k.(protocol) = 17 /\ k.(source_port) = local_port /\
    k.(destination_ip) = collector.(ip) /\ k.(destination_port) = collector.(port)).

Lemma is_export_own sampler output packet :
  is_export (mkMeter link local_port collector sampler output) packet = own packet.
Proof.
  apply eq_true_iff_eq. unfold is_export, own, UDP. cbn.
  rewrite !andb_true_iff, !Z.eqb_eq, !bool_decide_eq_true. tauto.
Qed.

(** The packet of a frame that goes into a flow. *)
Definition metered (frame : Frame) : option PacketInfo :=
  p ← parse link frame.(data); if own p then None else Some p.

(** Whether a frame goes into the pending packets. *)
Definition kept (frame : Frame) : bool :=
  match parse link frame.(data) with Some p => negb (own p) | None => true end.

Definition clip (clip_length : Z) (frame : Frame) : PacketData :=
  mkPacketData link frame.(length) (take (Z.to_nat clip_length) frame.(data)).

Definition at_state sampler output : Meter := mkMeter link local_port collector sampler output.

Lemma observe_packets reads sampler clip_length pending frame :
  observe (reads, at_state sampler (Output.Packets clip_length pending)) frame
  = let '(sampler, selected) := select sampler in
    Some (reads, at_state sampler (Output.Packets clip_length
      (pending ++ if selected && kept frame then [clip clip_length frame] else []))).
Proof.
  unfold observe, kept. destruct (select _) as [sampler' selected]. cbn [Meter.output at_state Meter.link].
  destruct selected; cbn [negb andb]; [|by rewrite app_nil_r].
  assert (Ec : take (Nat.min (List.length (data frame)) (Z.to_nat clip_length)) (data frame)
    = take (Z.to_nat clip_length) (data frame)).
  { destruct (Nat.le_ge_cases (List.length (data frame)) (Z.to_nat clip_length)).
    - rewrite Nat.min_l by done. by rewrite !take_ge by done.
    - by rewrite Nat.min_r by done. }
  rewrite Ec. destruct (parse link (data frame)) as [p|]; [|done].
  unfold at_state. rewrite is_export_own. destruct (own p); cbn; by rewrite ?app_nil_r.
Qed.

Lemma observe_flows reads sampler cache frame :
  observe (reads, at_state sampler (Output.Flows cache)) frame
  = let '(sampler, selected) := select sampler in
    match (if selected then metered frame else None) with
    | Some p =>
        cache ← update_flow cache p.(flow_key) p.(packet_size) p.(i_tcp_flags) (mkSeen frame.(time) (instant_at reads));
        Some (S reads, at_state sampler (Output.Flows cache))
    | None => Some (reads, at_state sampler (Output.Flows cache))
    end.
Proof.
  unfold observe, metered. destruct (select _) as [sampler' selected]. cbn [Meter.output at_state Meter.link].
  destruct selected; cbn [negb]; [|done]. destruct (parse link (data frame)) as [p|]; [|done]. cbn [mbind option_bind].
  unfold at_state. rewrite is_export_own. by destruct (own p).
Qed.

(** *** Packet mode *)

Lemma meter_run_packets clip_length es : forall reads sampler pending, exists reads' out pending',
  meter_run (reads, at_state sampler (Output.Packets clip_length pending)) es
  = Some ((reads', at_state (sampled sampler (frames es)).1 (Output.Packets clip_length pending')), out) /\
  all_packets out ++ pending'
  = pending ++ (clip clip_length <$> List.filter kept (sampled sampler (frames es)).2).
Proof.
  induction es as [|[frame|] es IH]; intros reads sampler pending.
  - exists reads, [], pending. split; [done|]. by rewrite app_nil_r.
  - cbn [meter_run meter_step]. rewrite observe_packets. cbn [frames omap list_omap sampled]. fold (frames es).
    destruct (select sampler) as [sampler' selected].
    destruct (IH reads sampler' (pending ++ if selected && kept frame then [clip clip_length frame] else []))
      as (reads' & out & pending' & E & H). exists reads', out, pending'. split.
    + cbn. rewrite E. cbn. by destruct (sampled sampler' (frames es)).
    + rewrite H, <- app_assoc. f_equal. destruct (sampled sampler' (frames es)) as [? l]. cbn.
      destruct selected; cbn; [|done]. by destruct (kept frame).
  - cbn [meter_run meter_step frames omap list_omap]. fold (frames es).
    destruct (IH reads sampler []) as (reads' & out & pending' & E & H).
    exists reads', (Records.Packets pending :: out), pending'. split.
    + cbn. unfold at_state in *. by rewrite E.
    + unfold all_packets in *. cbn. by rewrite <- app_assoc, H.
Qed.

(** *** Flow mode *)

#[local] Arguments check_expired_flows : simpl never.

(** What the flow cache sees of the frames and requests. *)
Fixpoint flow_events (sampler : Sampler) (reads : nat) (es : list meter_event) : list event :=
  match es with
  | [] => []
  | Captured frame :: es =>
      let '(sampler, selected) := select sampler in
      match (if selected then metered frame else None) with
      | Some p =>
          Observe p.(flow_key) p.(packet_size) p.(i_tcp_flags) (mkSeen frame.(time) (instant_at reads))
          :: flow_events sampler (S reads) es
      | None => flow_events sampler reads es
      end
  | Due :: es => Expire (instant_at reads) :: flow_events sampler (S reads) es
  end.

Lemma meter_run_flows es : forall reads sampler cache cache' fs,
  handle_all cache (flow_events sampler reads es) = Some (cache', fs) ->
  exists reads' out,
    meter_run (reads, at_state sampler (Output.Flows cache)) es
    = Some ((reads', at_state (sampled sampler (frames es)).1 (Output.Flows cache')), out) /\
    all_flows out = fs.
Proof.
  induction es as [|[frame|] es IH]; intros reads sampler cache cache' fs.
  - intros [= <- <-]. by exists reads, [].
  - cbn [meter_run meter_step flow_events]. rewrite observe_flows. cbn [frames omap list_omap sampled]. fold (frames es).
    destruct (select sampler) as [sampler' selected].
    destruct (if selected then metered frame else None) as [p|].
    + cbn. destruct (update_flow cache _ _ _ _) as [cache1|]; [|done]. cbn.
      destruct (handle_all cache1 _) as [[c f]|] eqn:Eh; [|done]. intros [= <- <-].
      destruct (IH _ _ _ _ _ Eh) as (reads' & out & E & H). exists reads', out.
      rewrite E. cbn. by destruct (sampled sampler' (frames es)).
    + intros Eh. destruct (IH _ _ _ _ _ Eh) as (reads' & out & E & H). exists reads', out.
      cbn. rewrite E. cbn. by destruct (sampled sampler' (frames es)).
  - cbn [meter_run meter_step flow_events frames omap list_omap]. fold (frames es). cbn.
    destruct (check_expired_flows cache (instant_at reads)) as [cache1 expired]. cbn.
    destruct (handle_all cache1 _) as [[c f]|] eqn:Eh; [|done]. intros [= <- <-].
    destruct (IH _ _ _ _ _ Eh) as (reads' & out & E & H). exists reads', (Records.Flows expired :: out).
    split; [unfold at_state in *; by rewrite E|]. unfold all_flows in *. cbn. by rewrite H.
Qed.

(** The packets of a key among the frames the cache saw. *)
Lemma flow_events_packets k es : forall sampler reads,
  packets k (flow_events sampler reads es)
  = omap (fun frame => p ← metered frame;
      if decide (p.(flow_key) = k) then Some (p.(packet_size), p.(i_tcp_flags)) else None)
    (sampled sampler (frames es)).2.
Proof.
  induction es as [|[frame|] es IH]; intros sampler reads; [done| |].
  - cbn [flow_events frames omap list_omap sampled]. fold (frames es).
    destruct (select sampler) as [sampler' selected]. specialize (IH sampler').
    destruct (sampled sampler' (frames es)) as [sampler2 l]. destruct selected; cbn.
    + destruct (metered frame) as [p|]; cbn; [|apply IH].
      unfold packets in IH. rewrite IH. by case_decide.
    + apply IH.
  - apply IH.
Qed.

Lemma metered_of_key k l :
  omap (fun frame => p ← metered frame;
    if decide (p.(flow_key) = k) then Some (p.(packet_size), p.(i_tcp_flags)) else None) l
  = (fun p => (p.(packet_size), p.(i_tcp_flags))) <$>
    List.filter (fun p => bool_decide (p.(flow_key) = k)) (omap metered l).
Proof.
  induction l as [|x l IH]; [done|]. cbn [omap list_omap]. destruct (metered x) as [p|]; [|exact IH].
  cbn [mbind option_bind List.filter]. destruct (bool_decide_reflect (flow_key p = k)).
  - rewrite decide_True by done. cbn. f_equal. exact IH.
  - rewrite decide_False by done. exact IH.
Qed.
End meter.

(** C33: Of the frames captured, those the sampler selects - the first and then one
    in every [interval] - and that are not the exporter's own datagrams are
    metered, and nothing else: in packet mode the records taken, up to and at
    the end, are their clipped sections in order; in flow mode the flows taken
    count each key's packets and octets among them, whatever was taken in
    between.  The meter never fails. *)
Theorem meter_exports args link local_port collector reads es :
  1 <= args.(a_max_flows) ->
  exists st out, meter_run (reads, Meter_new args link local_port collector) es = Some (st, out) /\
    let selected := every (Z.max args.(sampling_packet_interval) 1) 0 (frames es) in
    let records := out ++ [(take_all st.2).2] in
    match args.(mode) with
    | Mode.Packet =>
        all_packets records
        = clip link args.(clip_length) <$> List.filter (kept link local_port collector) selected
    | Mode.Flow =>
        forall k,
          let fs := of_key k (all_flows records) in
          let ps := List.filter (fun p => bool_decide (p.(flow_key) = k))
            (omap (metered link local_port collector) selected) in
          wrap 64 (zsum packet_count fs) = wrap 64 (zlen ps) /\
          wrap 64 (zsum octet_count fs) = wrap 64 (zsum packet_size ps) /\
          foldr Z.lor 0 (tcp_flags <$> fs) = foldr Z.lor 0 (i_tcp_flags <$> ps)
    end.
Proof.
  intros Hm. unfold Meter_new, sampling. rewrite <- (sampler_every (sampling_packet_interval args)).
  set (sampler := Sampler_new _). destruct (mode args).
  - set (cache := FlowCache_new _ _ _).
    destruct (handle_all_emptied cache (flow_events link local_port collector sampler reads es))
      as (cache' & fs & E & H); [by apply FlowCache_new_inv|done|].
    destruct (meter_run_flows link local_port collector es reads sampler cache cache' fs E)
      as (reads' & out & Er & Ho).
    unfold at_state in Er. exists (reads', at_state link local_port collector (sampled sampler (frames es)).1 (Output.Flows cache')), out.
    split; [exact Er|]. cbv zeta. intros k.
    assert (Ef : all_flows (out ++ [(take_all (at_state link local_port collector (sampled sampler (frames es)).1 (Output.Flows cache'))).2])
      = fs ++ (export_all cache').2).
    { unfold all_flows in *. rewrite bind_app, Ho. cbn. by rewrite app_nil_r. }
    cbn [fst snd]. rewrite Ef. clear Ef. specialize (H k). rewrite flow_events_packets in H.
    rewrite metered_of_key in H. destruct H as (H1 & H2 & H3). split_and!.
    + by rewrite H1, zlen_fmap.
    + by rewrite H2, zsum_fmap.
    + rewrite H3. by rewrite <- list_fmap_compose.
  - destruct (meter_run_packets link local_port collector (clip_length args) es reads sampler [])
      as (reads' & out & pending' & E & H).
    eexists _, out. split; [exact E|]. cbn. unfold all_packets in *. rewrite bind_app. cbn. by rewrite app_nil_r.
Qed.
End runs.

Section samples.
#[local] Instance sample_crates : Crates := crates_std.
#[local] Instance sample_etherparse : Etherparse := Packet.mini.
#[local] Instance sample_clock : Clock := fun n => 1000 * Z.of_nat n.

Definition sample_args (m : Mode) : ExportArgs := mkArgs m 20 1 60 15 16 300 2.
Definition sample_frame (source dest : Z) : Frame :=
  let packet := Packet.framed (Packet.udp_ip 7 dest [x01; x02]) in
  mkFrame packet (zlen packet) sample_time.
Definition sample_collector : SocketAddr := mkSocketAddr (V4 1) 4739.

(** Every other of five frames; the third is the exporter's own. *)
Definition sample_capture : list meter_event :=
  [Captured (sample_frame 7 53); Captured (sample_frame 7 53); Captured (sample_frame 7 4739); Due;
   Captured (sample_frame 7 53); Captured (sample_frame 7 53)].

Lemma meter_exports_witness :
  exists st out,
    meter_run (0%nat, Meter_new (sample_args Mode.Flow) Link.Ethernet 1000 sample_collector) sample_capture
    = Some (st, out) /\
    wrap 64 (zsum octet_count (of_key (mkKey (V4 7) (V4 1) 17 1000 53) (all_flows (out ++ [(take_all st.2).2])))) = 60.
Proof.
  destruct (meter_exports (sample_args Mode.Flow) Link.Ethernet 1000 sample_collector 0 sample_capture ltac:(cbn; lia))
    as (st & out & E & H). exists st, out. split; [exact E|].
  destruct (H (mkKey (V4 7) (V4 1) 17 1000 53)) as (_ & H2 & _). etrans; [exact H2|]. vm_compute. reflexivity.
Defined.
End samples.
