(* ===== verification/Ring.v ===== *)
(** [rustflow_export/src/capture/af_packet.rs] and [libpcap.rs]: where the
    frames of the exporter come from.

    The kernel and the exporter pass the blocks of a ring back and forth
    through their status words.  Every frame the kernel hands over is yielded
    once, in order, but for the echoes of a loopback device, however the two
    take turns, and nothing is read of a block that was not handed over.
    Opening sockets and the pcap library are the system and another crate. *)

From Stdlib Require Import ZArith Lia Strings.Byte.
From stdpp Require Import base tactics numbers list gmap relations.
From S2P Require Import Prelude Std Crates Etherparse FlowCache Sampler.
#[local] Open Scope Z_scope.
#[local] Abbreviation length := List.length.

(** ** The ring *)

Definition BLOCK_SIZE : Z := 2 ^ 16.
Definition BLOCK_NR : Z := 64.
Definition FRAME_SIZE : Z := 2048.
Definition FRAME_NR : Z := BLOCK_SIZE / FRAME_SIZE * BLOCK_NR.
Definition SNAPLEN : Z := 2048.
Definition BPF_RET : Z := 0x06.

(** [libc]'s constants. *)
Definition TP_STATUS_KERNEL : Z := 0.
Definition TP_STATUS_USER : Z := 1.
Definition PACKET_OUTGOING : Z := 4.
Definition ARPHRD_LOOPBACK : Z := 772.

(** [tpacket3_hdr] and the [sockaddr_ll] after it. *)
Record FrameHeader := mkHeader {
  tp_next_offset : Z;
  tp_sec : Z;
  tp_nsec : Z;
  tp_snaplen : Z;
  tp_len : Z;
  tp_mac : Z;
  sll_hatype : Z;
  sll_pkttype : Z;
}.

(** A block: its descriptor, and what is at the offsets where frames start,
    with the octets from there on. *)
Record Block := mkBlock {
  block_status : Z;
  num_pkts : Z;
  offset_to_first_pkt : Z;
  frames_in : gmap Z (FrameHeader * bytes);
}.

Abbreviation Ring := (list Block).

Record AfPacket := mkAfPacket {
  block_idx : Z;
  block_held : bool;
  frames_left : Z;
  frame_offset : Z;
}.

(** What [poll] gave: nothing in time, a socket error, or data. *)
Inductive Poll := PollNothing | PollError | PollReady.

Definition AfPacket_new : AfPacket := mkAfPacket 0 false 0 0.

Definition block_offset (self : AfPacket) : Z := wrap 32 (self.(block_idx) * BLOCK_SIZE).

(** The block at an offset of the ring, and the frame at one. *)
Definition block_at (ring : Ring) (offset : Z) : option Block := ring !! Z.to_nat (offset / BLOCK_SIZE).

Definition frame_at (ring : Ring) (offset : Z) : option (FrameHeader * bytes) :=
  b ← block_at ring offset; b.(frames_in) !! (offset mod BLOCK_SIZE).

Definition block (ring : Ring) (self : AfPacket) : option Block := block_at ring (block_offset self).

Definition ready (b : Block) : bool := negb (Z.land b.(block_status) TP_STATUS_USER =? 0).

Definition block_ready (ring : Ring) (self : AfPacket) : option bool := ready <$> block ring self.

Definition is_loopback_echo (frame : FrameHeader) : bool :=
  (frame.(sll_pkttype) =? PACKET_OUTGOING) && (frame.(sll_hatype) =? ARPHRD_LOOPBACK).

Definition set_status (b : Block) (status : Z) : Block := mkBlock status b.(num_pkts) b.(offset_to_first_pkt) b.(frames_in).

Definition release_block (ring : Ring) (self : AfPacket) : option (Ring * AfPacket) :=
  b ← block ring self;
  Some (<[Z.to_nat (block_offset self / BLOCK_SIZE) := set_status b TP_STATUS_KERNEL]> ring,
        mkAfPacket (wrap 32 (self.(block_idx) + 1) mod BLOCK_NR) false self.(frames_left) self.(frame_offset)).

Section rings.
Context `{CR : Crates}.

Definition capture_time (secs nanos : Z) (now : DateTime) : DateTime := default now (from_timestamp secs nanos).

Definition AfPacket_link : Link := Link.Ethernet.

(** Where a call of [next_frame] has come to, by what it does next: it goes
    round its loop, looks at the status word, waits, looks again, takes the
    block, or reads a frame.  [None] is undefined behaviour. *)
Inductive Control := Outside | AtLoop | AtStatus | AtPoll | AtRetry | AtBlock | AtFrame.

#[export] Instance Control_eq_dec : EqDecision Control.
Proof. solve_decision. Defined.

Definition Step : Type := option (Ring * AfPacket * Control * option (option Frame)).

(** A frame of the block held. *)
Definition read_frame (ring : Ring) (self : AfPacket) (now : DateTime) : Step :=
  '(hdr, octets) ← frame_at ring self.(frame_offset);
  let self := mkAfPacket self.(block_idx) self.(block_held) (wrap 32 (self.(frames_left) - 1))
    (self.(frame_offset) + hdr.(tp_next_offset)) in
  if is_loopback_echo hdr then Some (ring, self, AtLoop, None)
  else
    let data := take (Z.to_nat hdr.(tp_snaplen)) (drop (Z.to_nat hdr.(tp_mac)) octets) in
    if bool_decide (zlen data = hdr.(tp_snaplen)) then
      Some (ring, self, Outside, Some (Some (mkFrame data hdr.(tp_len) (capture_time hdr.(tp_sec) hdr.(tp_nsec) now))))
    else None.

(** [acquire_block], from where the block is known to be handed over. *)
Definition take_block (ring : Ring) (self : AfPacket) : Step :=
  b ← block ring self;
  let self := mkAfPacket self.(block_idx) true self.(frames_left) self.(frame_offset) in
  if b.(num_pkts) =? 0 then
    '(ring, self) ← release_block ring self; Some (ring, self, Outside, Some None)
  else Some (ring, mkAfPacket self.(block_idx) true b.(num_pkts) (block_offset self + b.(offset_to_first_pkt)), AtFrame, None).

(** [AfPacket::next_frame] and the [acquire_block] in it, to the next point
    where the kernel may have come between. *)
Definition next_frame_step (poll : Poll) (now : DateTime) (ring : Ring) (self : AfPacket) (at_ : Control) : Step :=
  match at_ with
  | Outside => Some (ring, self, AtLoop, None)
  | AtLoop =>
      if self.(frames_left) =? 0 then
        if self.(block_held) then '(ring, self) ← release_block ring self; Some (ring, self, AtStatus, None)
        else Some (ring, self, AtStatus, None)
      else Some (ring, self, AtFrame, None)
  | AtStatus =>
      b ← block_ready ring self; Some (ring, self, if b : bool then AtBlock else AtPoll, None)
  | AtPoll =>
      match poll with
      | PollReady => Some (ring, self, AtRetry, None)
      | PollError | PollNothing => Some (ring, self, Outside, Some None)
      end
  | AtRetry =>
      b ← block_ready ring self;
      Some (if b : bool then (ring, self, AtBlock, None) else (ring, self, Outside, Some None))
  | AtBlock => take_block ring self
  | AtFrame => read_frame ring self now
  end.

(** ** libpcap *)

Inductive LinkLayer := LayerEthernet | LayerLoopback | LayerRawIp.

(** [pcap::Linktype] *)
Definition DLT_RAW : Z := 12.
Definition link_layer_of (datalink : Z) : option LinkLayer :=
  if datalink =? 1 then Some LayerEthernet
  else if (datalink =? 0) || (datalink =? 108) then Some LayerLoopback
  else if (datalink =? DLT_RAW) || (datalink =? 101) || (datalink =? 228) || (datalink =? 229) then Some LayerRawIp
  else None.

Definition Libpcap_link (self : LinkLayer) : Link :=
  match self with LayerEthernet => Link.Ethernet | LayerLoopback | LayerRawIp => Link.Ip end.

(** [pcap::Packet]: seconds and microseconds, the length on the wire, and the
    octets that were taken. *)
Record PcapPacket := mkPcapPacket { pk_sec : Z; pk_usec : Z; pk_len : Z; pk_data : bytes }.

(** [Libpcap::next_frame]: the wait, and what the library read after it, if
    not an error. *)
Definition Libpcap_next_frame (self : LinkLayer) (waited : bool) (packet : option PcapPacket) (now : DateTime) : option Frame :=
  if negb waited then None
  else
    packet ← packet;
    let skip := match self with LayerLoopback => 4 | LayerEthernet | LayerRawIp => 0 end in
    if skip <=? zlen packet.(pk_data) then
      Some (mkFrame (drop (Z.to_nat skip) packet.(pk_data)) (Z.max 0 (packet.(pk_len) - skip))
        (capture_time packet.(pk_sec) (wrap 32 (wrap 32 packet.(pk_usec) * 1000)) now))
    else None.

(** Classic BPF: an instruction. *)
Record Instruction := mkInstruction { code : Z; jt : Z; jf : Z; k : Z }.

(** [compile]: accepting returns give the snap length. *)
Definition with_snaplen (snaplen : Z) (program : list Instruction) : list Instruction :=
  (fun i => if (i.(code) =? BPF_RET) && negb (i.(k) =? 0) then mkInstruction i.(code) i.(jt) i.(jf) snaplen else i) <$> program.

(** The program of a ring without a filter. *)
Definition snap : list Instruction := [mkInstruction BPF_RET 0 0 SNAPLEN].

(** ** The kernel *)

(** A frame the kernel captured. *)
Record Captured := mkCaptured { c_frame : Frame; c_echo : bool }.

(** How it is laid out in a block. *)
Definition frame_holds (m : FrameHeader * bytes) (f : Captured) : Prop :=
  let '(hdr, octets) := m in
  0 <= hdr.(tp_next_offset) /\ 0 <= hdr.(tp_mac) /\ hdr.(tp_mac) + zlen f.(c_frame).(data) <= zlen octets /\
  hdr.(tp_snaplen) = zlen f.(c_frame).(data) /\
  take (Z.to_nat hdr.(tp_snaplen)) (drop (Z.to_nat hdr.(tp_mac)) octets) = f.(c_frame).(data) /\
  hdr.(tp_len) = f.(c_frame).(Sampler.length) /\ from_timestamp hdr.(tp_sec) hdr.(tp_nsec) = Some f.(c_frame).(time) /\
  is_loopback_echo hdr = f.(c_echo).

(** Frames one after another from an offset of a block, each leading to the
    next. *)
Inductive frames_hold (frames : gmap Z (FrameHeader * bytes)) : Z -> list Captured -> Prop :=
  | hold_nil off : frames_hold frames off []
  | hold_cons off hdr octets f fs :
      0 <= off < BLOCK_SIZE -> frames !! off = Some (hdr, octets) -> frame_holds (hdr, octets) f ->
      frames_hold frames (off + hdr.(tp_next_offset)) fs -> frames_hold frames off (f :: fs).

(** A block that was handed over with frames. *)
Definition block_holds (b : Block) (fs : list Captured) : Prop :=
  ready b = true /\ b.(num_pkts) = zlen fs /\ zlen fs < 2 ^ 32 /\ frames_hold b.(frames_in) b.(offset_to_first_pkt) fs.

(** The ring and the two that take turns on it.  What was handed over, what was
    yielded, and the frame the caller has borrowed until its next call, with
    where it lies in the ring, are kept here; none is there in the program. *)
Record State := mkState {
  ring : Ring;
  next_block : Z;
  capture : AfPacket;
  control : Control;
  handed_over : list Captured;
  yielded : list Frame;
  borrowed : option (Z * Frame);
}.

Definition yields (result : option (option Frame)) : list Frame := match result with Some (Some f) => [f] | _ => [] end.

(** A call that returns a frame lends it; the next call ends that. *)
Definition lends (self : AfPacket) (result : option (option Frame)) : option (Z * Frame) :=
  match result with Some (Some f) => Some (self.(frame_offset), f) | _ => None end.

(** A step of the kernel, which fills the blocks in turn, as far as they are
    its own, or one of the exporter. *)
Inductive act : State -> State -> Prop :=
  | act_kernel st b b' fs :
      block_at st.(ring) (st.(next_block) * BLOCK_SIZE) = Some b -> ready b = false -> block_holds b' fs ->
      act st (mkState (<[Z.to_nat st.(next_block) := b']> st.(ring)) ((st.(next_block) + 1) mod BLOCK_NR) st.(capture)
        st.(control) (st.(handed_over) ++ fs) st.(yielded) st.(borrowed))
  | act_exporter st poll now ring' capture' control' result :
      next_frame_step poll now st.(ring) st.(capture) st.(control) = Some (ring', capture', control', result) ->
      act st (mkState ring' st.(next_block) capture' control' st.(handed_over) (st.(yielded) ++ yields result)
        (lends st.(capture) result)).

Definition empty_block : Block := mkBlock TP_STATUS_KERNEL 0 0 ∅.

Definition initial : State := mkState (replicate (Z.to_nat BLOCK_NR) empty_block) 0 AfPacket_new Outside [] [] None.

(** The frames that are yielded. *)
Definition wanted (fs : list Captured) : list Frame := c_frame <$> filter (fun f => f.(c_echo) = false) fs.

(** ** What the ring holds *)

(** The blocks in the order they are read, from the next one. *)
Definition in_turn (idx : Z) (j : nat) : nat := Z.to_nat ((idx + Z.of_nat j) mod BLOCK_NR).

(** The blocks handed over and not yet given back, the first of which is the
    next to be read. *)
Definition pending (ring : Ring) (idx : Z) (groups : list (list Captured)) : Prop :=
  (length groups <= Z.to_nat BLOCK_NR)%nat /\
  forall j, (j < Z.to_nat BLOCK_NR)%nat -> exists b, ring !! in_turn idx j = Some b /\
    match groups !! j with Some fs => block_holds b fs | None => ready b = false end.

(** The frames of the first block that are still to be read. *)
Definition reading (st : State) (groups : list (list Captured)) (left : list Captured) : Prop :=
  if st.(capture).(block_held) then
    exists fs rest b, groups = fs :: rest /\ left `suffix_of` fs /\ st.(capture).(frames_left) = zlen left /\
      st.(ring) !! Z.to_nat st.(capture).(block_idx) = Some b /\
      frames_hold b.(frames_in) (st.(capture).(frame_offset) - st.(capture).(block_idx) * BLOCK_SIZE) left
  else left = [] /\ st.(capture).(frames_left) = 0.

Definition control_ok (st : State) (groups : list (list Captured)) : Prop :=
  match st.(control) with
  | Outside | AtLoop => True
  | AtStatus | AtPoll | AtRetry => st.(capture).(block_held) = false
  | AtBlock => st.(capture).(block_held) = false /\ groups <> []
  | AtFrame => st.(capture).(frames_left) <> 0
  end.

(** The frames still to come. *)
Definition to_come (st : State) (groups : list (list Captured)) (left : list Captured) : list Captured :=
  left ++ concat (if st.(capture).(block_held) then tail groups else groups).

(** The frame lent is in the block held, as it was. *)
Definition lent_ok (st : State) : Prop :=
  forall off f, st.(borrowed) = Some (off, f) ->
    st.(control) = Outside /\ st.(capture).(block_held) = true /\
    off / BLOCK_SIZE = st.(capture).(block_idx) /\
    exists hdr octets, frame_at st.(ring) off = Some (hdr, octets) /\
      f.(data) = take (Z.to_nat hdr.(tp_snaplen)) (drop (Z.to_nat hdr.(tp_mac)) octets).

Record ring_ok (st : State) (groups : list (list Captured)) (left : list Captured) : Prop := {
  ok_length : length st.(ring) = Z.to_nat BLOCK_NR;
  ok_idx : 0 <= st.(capture).(block_idx) < BLOCK_NR;
  ok_next : st.(next_block) = (st.(capture).(block_idx) + zlen groups) mod BLOCK_NR;
  ok_pending : pending st.(ring) st.(capture).(block_idx) groups;
  ok_reading : reading st groups left;
  ok_control : control_ok st groups;
  ok_yielded : wanted st.(handed_over) = st.(yielded) ++ wanted (to_come st groups left);
  ok_lent : lent_ok st;
}.

(** ** Turns *)

Lemma in_turn_lt idx j : (in_turn idx j < Z.to_nat BLOCK_NR)%nat.
Proof. unfold in_turn, BLOCK_NR. dlia. Qed.

Lemma in_turn_0 idx : 0 <= idx < BLOCK_NR -> in_turn idx 0 = Z.to_nat idx.
Proof. unfold in_turn, BLOCK_NR. intros. dlia. Qed.

Lemma in_turn_inj idx j j' : (j < Z.to_nat BLOCK_NR)%nat -> (j' < Z.to_nat BLOCK_NR)%nat -> in_turn idx j = in_turn idx j' -> j = j'.
Proof. unfold in_turn, BLOCK_NR. intros. dlia. Qed.

Lemma in_turn_next idx j : in_turn ((idx + 1) mod BLOCK_NR) j = in_turn idx (Datatypes.S j).
Proof. unfold in_turn, BLOCK_NR. dlia. Qed.

Lemma in_turn_round idx : in_turn idx (Z.to_nat BLOCK_NR) = in_turn idx 0.
Proof. unfold in_turn, BLOCK_NR. dlia. Qed.

Lemma block_offset_spec self : 0 <= self.(block_idx) < BLOCK_NR -> block_offset self = self.(block_idx) * BLOCK_SIZE.
Proof. intros H. unfold block_offset, wrap, BLOCK_SIZE, BLOCK_NR in *. apply Z.mod_small. lia. Qed.

Lemma block_at_spec ring k : 0 <= k -> block_at ring (k * BLOCK_SIZE) = ring !! Z.to_nat k.
Proof. intros H. unfold block_at. by rewrite Z.div_mul. Qed.

Lemma block_spec ring self : 0 <= self.(block_idx) < BLOCK_NR -> block ring self = ring !! Z.to_nat self.(block_idx).
Proof. intros H. unfold block. rewrite block_offset_spec by done. apply block_at_spec. lia. Qed.

Lemma frame_at_spec ring idx off b : 0 <= idx -> 0 <= off - idx * BLOCK_SIZE < BLOCK_SIZE -> ring !! Z.to_nat idx = Some b ->
  frame_at ring off = b.(frames_in) !! (off - idx * BLOCK_SIZE).
Proof.
  intros Hi Ho Hb. unfold frame_at, block_at. set (o := off - idx * BLOCK_SIZE) in *.
  assert (E : off = o + idx * BLOCK_SIZE) by lia. rewrite E, Z.div_add, Z.mod_add, Z.div_small, Z.mod_small by (done || lia).
  change (0 + idx) with idx. by rewrite Hb.
Qed.

(** The first block handed over. *)
Lemma pending_first ring idx fs groups : pending ring idx (fs :: groups) -> 0 <= idx < BLOCK_NR ->
  exists b, ring !! Z.to_nat idx = Some b /\ block_holds b fs.
Proof.
  intros [_ H] Hi. destruct (H 0%nat ltac:(unfold BLOCK_NR; lia)) as (b & Hb & Hf). rewrite in_turn_0 in Hb by done. by exists b.
Qed.

Lemma pending_none ring idx : pending ring idx [] -> 0 <= idx < BLOCK_NR ->
  exists b, ring !! Z.to_nat idx = Some b /\ ready b = false.
Proof.
  intros [_ H] Hi. destruct (H 0%nat ltac:(unfold BLOCK_NR; lia)) as (b & Hb & Hf). rewrite in_turn_0 in Hb by done. by exists b.
Qed.

Lemma pending_ready ring idx groups b : pending ring idx groups -> 0 <= idx < BLOCK_NR -> ring !! Z.to_nat idx = Some b ->
  ready b = bool_decide (groups <> []).
Proof.
  intros H Hi Hb. destruct groups as [|fs groups].
  - destruct (pending_none _ _ H Hi) as (b' & Hb' & Hr). rewrite Hb in Hb'. by injection Hb' as <-.
  - destruct (pending_first _ _ _ _ H Hi) as (b' & Hb' & Hr & _). rewrite Hb in Hb'. by injection Hb' as <-.
Qed.

(** A block the kernel fills comes last. *)
Lemma pending_filled ring idx groups b b' fs k :
  pending ring idx groups -> 0 <= idx < BLOCK_NR -> length ring = Z.to_nat BLOCK_NR ->
  k = (idx + zlen groups) mod BLOCK_NR -> ring !! Z.to_nat k = Some b -> ready b = false -> block_holds b' fs ->
  (length groups < Z.to_nat BLOCK_NR)%nat /\ pending (<[Z.to_nat k := b']> ring) idx (groups ++ [fs]).
Proof.
  intros [Hn H] Hi Hl -> Hb Hr Hf. change (Z.to_nat ((idx + zlen groups) mod BLOCK_NR)) with (in_turn idx (length groups)) in *.
  assert (Hlt : (length groups < Z.to_nat BLOCK_NR)%nat).
  { destruct (decide (length groups = Z.to_nat BLOCK_NR)) as [E|E]; [|lia]. exfalso.
    rewrite E, in_turn_round in Hb. destruct (H 0%nat ltac:(unfold BLOCK_NR; lia)) as (b1 & Hb1 & Hg).
    rewrite Hb in Hb1. injection Hb1 as <-. destruct groups as [|g groups]; [by unfold BLOCK_NR in E|].
    destruct Hg as [Hg _]. by rewrite Hr in Hg. }
  split; [done|]. split; [rewrite length_app; cbn [length]; lia|]. intros j Hj. destruct (decide (j = length groups)) as [->|Hne].
  - exists b'. rewrite list_lookup_insert_eq by (rewrite Hl; apply in_turn_lt). by rewrite list_lookup_middle.
  - rewrite list_lookup_insert_ne by (intros E; apply in_turn_inj in E; done).
    destruct (H j Hj) as (b1 & Hb1 & Hg). exists b1. split; [done|]. destruct (decide (j < length groups)%nat) as [Hlt'|Hge].
    + by rewrite lookup_app_l.
    + rewrite (lookup_ge_None_2 groups j) in Hg by lia. rewrite lookup_ge_None_2; [done|]. rewrite length_app. cbn [length]. lia.
Qed.

(** A block given back is the last the kernel fills. *)
Lemma pending_released ring idx fs groups b :
  pending ring idx (fs :: groups) -> 0 <= idx < BLOCK_NR -> length ring = Z.to_nat BLOCK_NR -> ring !! Z.to_nat idx = Some b ->
  pending (<[Z.to_nat idx := set_status b TP_STATUS_KERNEL]> ring) ((idx + 1) mod BLOCK_NR) groups.
Proof.
  intros [Hn H] Hi Hl Hb. cbn [length] in Hn. split; [lia|]. intros j Hj. rewrite in_turn_next.
  destruct (decide (Datatypes.S j = Z.to_nat BLOCK_NR)) as [E|E].
  - rewrite E, in_turn_round, in_turn_0 by done. eexists. split; [apply list_lookup_insert_eq; rewrite Hl; unfold BLOCK_NR in *; lia|].
    rewrite lookup_ge_None_2; [done|]. lia.
  - destruct (H (Datatypes.S j) ltac:(lia)) as (b1 & Hb1 & Hg). exists b1. split; [|done].
    rewrite list_lookup_insert_ne; [done|]. rewrite <- (in_turn_0 idx) by done. intros E'. apply in_turn_inj in E'; [done|unfold BLOCK_NR in *; lia|lia].
Qed.

Lemma wanted_app fs gs : wanted (fs ++ gs) = wanted fs ++ wanted gs.
Proof. unfold wanted. by rewrite filter_app, fmap_app. Qed.

Lemma ring_initial_ok : ring_ok initial [] [].
Proof.
  split; try done.
  split; [cbn; lia|]. intros j Hj. exists empty_block. split; [|done]. cbn [initial ring]. apply lookup_replicate_2, in_turn_lt.
Qed.

Lemma kernel_ok st groups left b b' fs :
  ring_ok st groups left -> block_at st.(ring) (st.(next_block) * BLOCK_SIZE) = Some b -> ready b = false -> block_holds b' fs ->
  ring_ok (mkState (<[Z.to_nat st.(next_block) := b']> st.(ring)) ((st.(next_block) + 1) mod BLOCK_NR) st.(capture)
    st.(control) (st.(handed_over) ++ fs) st.(yielded) st.(borrowed)) (groups ++ [fs]) left.
Proof.
  intros [Hl Hi Hk Hp Hrd Hc Hy Hlent] Hb Hr Hf. rewrite block_at_spec in Hb by (rewrite Hk; unfold BLOCK_NR; dlia).
  destruct (pending_filled _ _ _ b b' fs _ Hp Hi Hl Hk Hb Hr Hf) as [Hlt Hp'].
  split; cbn [ring next_block capture control handed_over yielded].
  - by rewrite length_insert.
  - done.
  - rewrite Hk, zlen_app. unfold BLOCK_NR, zlen. cbn [length]. dlia.
  - done.
  - unfold reading in *. cbn [ring capture]. destruct (block_held (capture st)); [|done].
    destruct Hrd as (f0 & rest & b0 & -> & Hs & Hn & Hb0 & Hh). exists f0, (rest ++ [fs]), b0. split_and!; try done.
    rewrite list_lookup_insert_ne; [done|]. intros E. rewrite E, Hb0 in Hb. injection Hb as ->.
    destruct (pending_first _ _ _ _ Hp Hi) as (b1 & Hb1 & Hr1 & _). rewrite Hb0 in Hb1. injection Hb1 as <-. by rewrite Hr in Hr1.
  - unfold control_ok in *. cbn [control capture]. destruct (control st); try done. split; [apply Hc|]. by destruct groups.
  - rewrite wanted_app, Hy, <- app_assoc, <- wanted_app. f_equal. f_equal. unfold to_come. cbn [capture].
    unfold reading in Hrd. destruct (block_held (capture st)).
    + destruct Hrd as (f0 & rest & b0 & -> & _). cbn [tail app]. rewrite concat_app. cbn. by rewrite app_nil_r, app_assoc.
    + rewrite concat_app. cbn. by rewrite app_nil_r, app_assoc.
  - intros off f Hof. destruct (Hlent off f Hof) as (E1 & E2 & E3 & hdr & octets & E4 & E5). split_and!; [done..|].
    exists hdr, octets. split; [|done]. rewrite <- E4. unfold frame_at, block_at. cbn [ring]. rewrite E3.
    rewrite list_lookup_insert_ne; [done|]. unfold reading in Hrd. rewrite E2 in Hrd. destruct Hrd as (f0 & rest & b0 & -> & _).
    destruct (pending_first _ _ _ _ Hp Hi) as (b1 & Hb1 & Hr1 & _). intros E. rewrite E, Hb1 in Hb. injection Hb as ->. by rewrite Hr in Hr1.
Qed.

(** How far a call is from returning. *)
Definition rank (at_ : Control) : nat :=
  match at_ with Outside => 0 | AtFrame => 1 | AtBlock => 2 | AtRetry => 3 | AtPoll => 4 | AtStatus => 5 | AtLoop => 6 end.

Definition weight (st : State) (groups : list (list Captured)) (left : list Captured) : nat :=
  7 * length (to_come st groups left) + rank st.(control).

(** A step of the exporter is defined, leads to a state of the kind, and brings
    the call nearer to its return. *)
Definition step_ok (st : State) (groups : list (list Captured)) (left : list Captured) (step : Step) : Prop :=
  exists ring' capture' control' result groups' left', step = Some (ring', capture', control', result) /\
    let st' := mkState ring' st.(next_block) capture' control' st.(handed_over) (st.(yielded) ++ yields result)
      (lends st.(capture) result) in
    ring_ok st' groups' left' /\ (control' = Outside \/ st.(control) = Outside \/ weight st' groups' left' < weight st groups left)%nat.

(** A step that only goes on. *)
Lemma goes_to_ok st groups left control' result :
  ring_ok st groups left ->
  control_ok (mkState st.(ring) st.(next_block) st.(capture) control' st.(handed_over) st.(yielded) None) groups ->
  yields result = [] -> control' = Outside \/ st.(control) = Outside \/ (rank control' < rank st.(control))%nat ->
  step_ok st groups left (Some (st.(ring), st.(capture), control', result)).
Proof.
  intros [Hl Hi Hk Hp Hrd Hc Hy _] Hc' Hr Hw. assert (E : lends st.(capture) result = None) by by destruct result as [[]|]. exists st.(ring), st.(capture), control', result, groups, left. split; [done|].
  cbv zeta. rewrite Hr, E, app_nil_r. split; [by split|]. destruct Hw as [Hw|[Hw|Hw]]; [by left|by right; left|right; right].
  unfold weight, to_come. cbn [capture control]. lia.
Qed.

Lemma release_spec st groups left :
  ring_ok st groups left -> st.(capture).(block_held) = true -> st.(capture).(frames_left) = 0 ->
  exists ring' capture', release_block st.(ring) st.(capture) = Some (ring', capture') /\
    capture'.(frames_left) = 0 /\ capture'.(block_held) = false /\
    ring_ok (mkState ring' st.(next_block) capture' AtStatus st.(handed_over) st.(yielded) None) (tail groups) [].
Proof.
  intros [Hl Hi Hk Hp Hrd Hc Hy _] Hheld Hleft. unfold reading in Hrd. rewrite Hheld in Hrd.
  destruct Hrd as (fs & rest & b & -> & Hs & Hn & Hb & Hf). rewrite Hleft in Hn.
  assert (left = []) as -> by (destruct left; [done|rewrite zlen_cons in Hn; pose proof (zlen_nonneg left); lia]).
  unfold release_block. rewrite block_spec, Hb by done. cbn [mbind option_bind].
  rewrite block_offset_spec, Z.div_mul by done.
  assert (Ew : wrap 32 (st.(capture).(block_idx) + 1) = st.(capture).(block_idx) + 1)
    by (unfold wrap, BLOCK_NR in *; apply Z.mod_small; lia).
  rewrite Ew. do 2 eexists. split; [done|]. split; [done|]. split; [done|]. cbn [tail].
  split; cbn [ring next_block capture control handed_over yielded block_idx block_held frames_left].
  - by rewrite length_insert.
  - unfold BLOCK_NR. dlia.
  - rewrite Hk, zlen_cons. unfold BLOCK_NR. dlia.
  - by eapply pending_released.
  - by unfold reading.
  - done.
  - rewrite Hy. unfold to_come. rewrite Hheld. done.
  - done.
Qed.

Lemma loop_ok st groups left : ring_ok st groups left -> st.(control) = AtLoop ->
  forall poll now, step_ok st groups left (next_frame_step poll now st.(ring) st.(capture) AtLoop).
Proof.
  intros H Hc poll now. cbn [next_frame_step]. destruct (Z.eqb_spec st.(capture).(frames_left) 0) as [E|E].
  - destruct (block_held (capture st)) eqn:Hh.
    + destruct (release_spec st groups left H Hh E) as (ring' & capture' & -> & _ & Hn & Hok). cbn [mbind option_bind].
      exists ring', capture', AtStatus, None, (tail groups), []. split; [done|]. cbv zeta. cbn [yields]. rewrite app_nil_r. split; [done|].
      right. right. unfold weight, to_come. cbn [capture control]. rewrite Hc, Hh, Hn. cbn [rank]. rewrite !length_app. cbn [length]. lia.
    + eapply goes_to_ok; [done..|]. right. right. rewrite Hc. cbn. lia.
  - eapply goes_to_ok; [done..|]. right. right. rewrite Hc. cbn. lia.
Qed.

(** What the status word of the next block says. *)
Lemma status_spec st groups left : ring_ok st groups left ->
  block_ready st.(ring) st.(capture) = Some (bool_decide (groups <> [])).
Proof.
  intros [Hl Hi Hk Hp Hrd Hc Hy _]. unfold block_ready. rewrite block_spec by done.
  destruct groups as [|fs groups].
  - destruct (pending_none _ _ Hp Hi) as (b & Hb & Hr). rewrite Hb. cbn. by rewrite Hr.
  - destruct (pending_first _ _ _ _ Hp Hi) as (b & Hb & Hr & _). rewrite Hb. cbn. by rewrite Hr.
Qed.

(** A block held is one that was handed over. *)
Lemma held_ready st groups left : ring_ok st groups left -> st.(capture).(block_held) = true ->
  block_ready st.(ring) st.(capture) = Some true.
Proof.
  intros H Hh. rewrite (status_spec _ _ _ H). destruct H as [_ _ _ _ Hrd _ _ _]. unfold reading in Hrd. rewrite Hh in Hrd.
  by destruct Hrd as (fs & rest & b & -> & _).
Qed.

(** The offset of a frame to be read is in the block held. *)
Lemma reads_held st groups left : ring_ok st groups left -> st.(control) = AtFrame ->
  st.(capture).(block_held) = true /\ st.(capture).(frame_offset) / BLOCK_SIZE = st.(capture).(block_idx).
Proof.
  intros [_ _ _ _ Hrd Hct _ _] Hc. unfold control_ok in Hct. rewrite Hc in Hct. unfold reading in Hrd.
  destruct (block_held (capture st)); [|by destruct Hrd]. split; [done|]. destruct Hrd as (fs & rest & b & -> & _ & Hn & _ & Hf).
  remember (st.(capture).(frame_offset) - st.(capture).(block_idx) * BLOCK_SIZE) as o eqn:Eo.
  destruct Hf as [o|o hdr octets f fs' Ho _ _ _]; [by rewrite Hn in Hct|].
  symmetry. apply Z.div_unique with (st.(capture).(frame_offset) - st.(capture).(block_idx) * BLOCK_SIZE); unfold BLOCK_SIZE in *; lia.
Qed.

Lemma take_ok st groups left : ring_ok st groups left -> st.(control) = AtBlock ->
  step_ok st groups left (take_block st.(ring) st.(capture)).
Proof.
  intros H Hc. destruct (H) as [Hl Hi Hk Hp Hrd Hct Hy _]. unfold control_ok in Hct. rewrite Hc in Hct. destruct Hct as [Hh Hne].
  unfold reading in Hrd. rewrite Hh in Hrd. destruct Hrd as [-> Hleft]. destruct groups as [|fs groups]; [done|].
  destruct (pending_first _ _ _ _ Hp Hi) as (b & Hb & Hr & Hn & Hlt & Hf). unfold take_block. rewrite block_spec, Hb by done.
  cbn [mbind option_bind]. rewrite Hn.
  set (taken := mkAfPacket st.(capture).(block_idx) true st.(capture).(frames_left) st.(capture).(frame_offset)).
  destruct (Z.eqb_spec (zlen fs) 0) as [E|E].
  - assert (fs = []) as -> by (destruct fs; [done|rewrite zlen_cons in E; pose proof (zlen_nonneg fs); lia]).
    assert (Hok : ring_ok (mkState st.(ring) st.(next_block) taken AtLoop st.(handed_over) st.(yielded) None) ([] :: groups) []).
    { split; cbn [ring next_block capture control handed_over yielded taken block_idx]; try done.
      - unfold reading. cbn [capture taken block_held]. exists [], groups, b. split_and!; try done. constructor.
      - rewrite Hy. unfold to_come. by rewrite Hh. }
    destruct (release_spec _ _ _ Hok eq_refl Hleft) as (ring' & capture' & E' & _ & _ & Hok').
    cbn [ring capture] in E'. rewrite E'. cbn [mbind option_bind]. cbn [tail next_block handed_over yielded] in Hok'.
    exists ring', capture', Outside, (Some None), groups, []. split; [done|]. cbv zeta. cbn [yields]. rewrite app_nil_r.
    destruct Hok' as [K1 K2 K3 K4 K5 K6 K7 _]. split; [by split|by left].
  - do 4 eexists. exists (fs :: groups), fs. split; [done|]. cbv zeta. cbn [yields]. rewrite app_nil_r.
    split; [|right; right; unfold weight, to_come; cbn [capture control block_held tail]; rewrite Hc, Hh; cbn [rank concat app]; lia].
    split; cbn [ring next_block capture control handed_over yielded block_idx frames_left]; try done.
    + unfold reading. cbn [capture block_held frames_left frame_offset block_idx ring]. exists fs, groups, b. split_and!; try done.
      rewrite block_offset_spec by done. cbn [taken block_idx].
      by replace (st.(capture).(block_idx) * BLOCK_SIZE + b.(offset_to_first_pkt) - st.(capture).(block_idx) * BLOCK_SIZE)
        with b.(offset_to_first_pkt) by lia.
    + rewrite Hy. unfold to_come. rewrite Hh. done.
Qed.

Lemma frame_ok st groups left : ring_ok st groups left -> st.(control) = AtFrame ->
  forall now, step_ok st groups left (read_frame st.(ring) st.(capture) now).
Proof.
  intros [Hl Hi Hk Hp Hrd Hct Hy _] Hc now. unfold control_ok in Hct. rewrite Hc in Hct. unfold reading in Hrd.
  destruct (block_held (capture st)) eqn:Hh; [|by destruct Hrd]. destruct Hrd as (fs & rest & b & -> & Hs & Hn & Hb & Hf).
  destruct left as [|f left]; [by rewrite Hn in Hct|].
  inversion Hf as [|off hdr octets f' fs' Ho Hlk Hfr Hnext E1 E2]. subst off f' fs'.
  destruct (pending_first _ _ _ _ Hp Hi) as (b1 & Hb1 & _ & _ & Hlt & _). rewrite Hb in Hb1. injection Hb1 as <-.
  unfold read_frame. rewrite (frame_at_spec _ st.(capture).(block_idx) _ b) by (done || lia). rewrite Hlk. cbn [mbind option_bind].
  destruct Hfr as (F1 & F2 & F3 & F4 & F5 & F6 & F7 & F8).
  assert (Hleft : wrap 32 (st.(capture).(frames_left) - 1) = zlen left).
  { rewrite Hn, zlen_cons. destruct Hs as [pre ->]. rewrite zlen_app, zlen_cons in Hlt. pose proof (zlen_nonneg pre). pose proof (zlen_nonneg left).
    unfold wrap. rewrite Z.mod_small by lia. lia. }
  set (capture' := mkAfPacket _ _ _ _).
  assert (Hok : forall control' ys lent, wanted [f] = ys -> control' = AtLoop \/ control' = Outside ->
    lent_ok (mkState st.(ring) st.(next_block) capture' control' st.(handed_over) (st.(yielded) ++ ys) lent) ->
    ring_ok (mkState st.(ring) st.(next_block) capture' control' st.(handed_over) (st.(yielded) ++ ys) lent) (fs :: rest) left).
  { intros control' ys lent Hys Hctl Hlent. split; cbn [ring next_block capture control handed_over yielded capture' block_idx]; try done.
    - unfold reading. cbn [capture ring capture' block_held frames_left frame_offset block_idx]. rewrite Hh, Hleft.
      exists fs, rest, b. split_and!; try done.
      + destruct Hs as [pre ->]. exists (pre ++ [f]). by rewrite <- app_assoc.
      + by replace (st.(capture).(frame_offset) + hdr.(tp_next_offset) - st.(capture).(block_idx) * BLOCK_SIZE)
          with (st.(capture).(frame_offset) - st.(capture).(block_idx) * BLOCK_SIZE + hdr.(tp_next_offset)) by lia.
    - unfold control_ok. by destruct Hctl as [-> | ->].
    - rewrite Hy, <- app_assoc. f_equal. unfold to_come. cbn [capture capture' block_held]. rewrite Hh. cbn [tail].
      rewrite <- Hys, <- wanted_app. done. }
  rewrite F8. destruct (c_echo f) eqn:Ee.
  - do 4 eexists. exists (fs :: rest), left. split; [done|]. cbv zeta. cbn [yields].
    split; [|right; right; unfold weight, to_come; cbn [capture control capture' block_held]; rewrite Hc, Hh; cbn [rank app length tail]; lia].
    apply Hok; [|by left|done].
    unfold wanted. by rewrite filter_cons_False by (rewrite Ee; done).
  - rewrite F5. rewrite bool_decide_eq_true_2 by done. do 4 eexists. exists (fs :: rest), left. split; [done|]. cbv zeta. cbn [yields].
    split; [|by left]. apply Hok; [|by right|].
    + unfold wanted. rewrite filter_cons_True by done. cbn. f_equal.
      unfold capture_time. rewrite F6, F7. cbn. by destruct (c_frame f).
    + cbn [lends]. intros off f' [= <- <-]. cbn [control capture capture' block_held block_idx ring data]. split_and!; [done|done| |].
      * symmetry. apply Z.div_unique with (st.(capture).(frame_offset) - st.(capture).(block_idx) * BLOCK_SIZE); unfold BLOCK_SIZE in *; lia.
      * exists hdr, octets. rewrite (frame_at_spec _ st.(capture).(block_idx) _ b) by (done || lia). by rewrite Hlk.
Qed.

Lemma exporter_ok st groups left : ring_ok st groups left ->
  forall poll now, step_ok st groups left (next_frame_step poll now st.(ring) st.(capture) st.(control)).
Proof.
  intros H poll now. pose proof (ok_control _ _ _ H) as Hct. unfold control_ok in Hct. destruct (control st) eqn:Hc.
  - eapply goes_to_ok; [done..|]. by right; left.
  - by apply loop_ok.
  - cbn [next_frame_step]. rewrite (status_spec _ _ _ H). cbn [mbind option_bind].
    destruct (bool_decide_reflect (groups <> [])); (eapply goes_to_ok; [done|by try split|done|]); right; right; rewrite Hc; cbn; lia.
  - cbn [next_frame_step]. destruct poll; (eapply goes_to_ok; [done..|]); [by left|by left|]. right; right; rewrite Hc; cbn; lia.
  - cbn [next_frame_step]. rewrite (status_spec _ _ _ H). cbn [mbind option_bind].
    destruct (bool_decide_reflect (groups <> [])); (eapply goes_to_ok; [done|by try split|done|]); [|by left].
    right; right; rewrite Hc; cbn; lia.
  - by apply take_ok.
  - by apply frame_ok.
Qed.

Lemma ring_act_ok st st' groups left : ring_ok st groups left -> act st st' -> exists groups' left', ring_ok st' groups' left'.
Proof.
  intros IH Hs. inversion Hs as [? b b' fs Hb Hnr Hf|? poll now ring' capture' control' result E]; subst.
  - exists (groups ++ [fs]), left. by eapply kernel_ok.
  - destruct (exporter_ok _ _ _ IH poll now) as (r1 & c1 & k1 & res & groups' & left' & E' & Hok & _).
    rewrite E in E'. injection E' as <- <- <- <-. by exists groups', left'.
Qed.

Lemma reachable_ok st : rtc act initial st -> exists groups left, ring_ok st groups left.
Proof.
  assert (H : forall st0, rtc act st0 st -> (exists groups left, ring_ok st0 groups left) -> exists groups left, ring_ok st groups left).
  { induction 1 as [|st0 st1 st Hs _ IH]; [done|]. intros (groups & left & H0). apply IH. by eapply ring_act_ok. }
  intros Hr. apply (H initial Hr). exists [], []. apply ring_initial_ok.
Qed.

(** C31: However the kernel and the exporter take turns, no step of the exporter
    reads what it may not, frames only from the block it holds, which is not
    the kernel's to fill; the frames it yields are those handed over, each
    once and in order, but for the echoes of a loopback device, with none
    missing when nothing is handed over; and until its next call the block of
    the frame it returned is held and still has the octets of that frame where
    they were. *)
Theorem frames_yielded st :
  rtc act initial st ->
  (forall poll now, is_Some (next_frame_step poll now st.(ring) st.(capture) st.(control))) /\
  (st.(capture).(block_held) = true -> block_ready st.(ring) st.(capture) = Some true) /\
  (st.(control) = AtFrame -> st.(capture).(block_held) = true /\
    st.(capture).(frame_offset) / BLOCK_SIZE = st.(capture).(block_idx)) /\
  (forall off f, st.(borrowed) = Some (off, f) ->
    st.(capture).(block_held) = true /\
    exists b hdr octets, block_at st.(ring) off = Some b /\ ready b = true /\ frame_at st.(ring) off = Some (hdr, octets) /\
      f.(data) = take (Z.to_nat hdr.(tp_snaplen)) (drop (Z.to_nat hdr.(tp_mac)) octets)) /\
  exists rest, wanted st.(handed_over) = st.(yielded) ++ rest /\
    (Forall (fun b => ready b = false) st.(ring) -> rest = []).
Proof.
  intros (groups & left & H)%reachable_ok. split_and!.
  - intros poll now. destruct (exporter_ok _ _ _ H poll now) as (r1 & c1 & k1 & res & _ & _ & -> & _). by eexists.
  - by eapply held_ready.
  - by eapply reads_held.
  - intros off f Hof. destruct (ok_lent _ _ _ H off f Hof) as (_ & Hh & Ho & hdr & octets & Ef & Ed). split; [done|].
    pose proof (held_ready _ _ _ H Hh) as Hr. unfold block_ready in Hr. rewrite block_spec in Hr by apply H.
    unfold block_at. rewrite Ho. destruct (_ !! _) as [b|]; [|done]. injection Hr as Hr. by exists b, hdr, octets.
  - exists (wanted (to_come st groups left)). split; [apply H|]. intros Hn.
    assert (Hg : groups = []).
    { pose proof (status_spec _ _ _ H) as Hs. unfold block_ready in Hs. destruct (block st.(ring) st.(capture)) as [b|] eqn:Eb; [|done].
      cbn in Hs. assert (Hb : ready b = false).
      { rewrite Forall_lookup in Hn. rewrite block_spec in Eb by apply H. by eapply Hn. }
      rewrite Hb in Hs. injection Hs as Hs. by destruct groups. }
    destruct H as [_ _ _ _ Hrd _ _ _]. unfold reading in Hrd. unfold to_come. subst groups.
    destruct (block_held (capture st)); [by destruct Hrd as (? & ? & ? & [=] & _)|]. by destruct Hrd as [-> _].
Qed.

(** The exporter's steps alone, with what each meets. *)
Fixpoint call_steps (n : nat) (met : nat -> Poll * DateTime) (st : State) : option State :=
  match n with
  | O => Some st
  | Datatypes.S n =>
      '(ring', capture', control', result) ← next_frame_step (met 0%nat).1 (met 0%nat).2 st.(ring) st.(capture) st.(control);
      call_steps n (fun i => met (Datatypes.S i))
        (mkState ring' st.(next_block) capture' control' st.(handed_over) (st.(yielded) ++ yields result) (lends st.(capture) result))
  end.

(** A call of [next_frame] that the kernel leaves alone returns. *)
Theorem call_returns st met :
  rtc act initial st -> exists n st', call_steps n met st = Some st' /\ st'.(control) = Outside.
Proof.
  intros (groups & left & H)%reachable_ok. remember (weight st groups left) as w eqn:Ew.
  revert st groups left H Ew met. induction w as [w IH] using lt_wf_ind. intros st groups left H -> met.
  destruct (exporter_ok _ _ _ H (met 0%nat).1 (met 0%nat).2) as (r1 & c1 & k1 & res & groups' & left' & E' & Hok & Hw).
  cbv zeta in Hok, Hw. destruct (decide (st.(control) = Outside)) as [E|E]; [by exists 0%nat, st|].
  destruct Hw as [Hw|[Hw|Hw]]; [|done|].
  - eexists 1%nat, _. cbn [call_steps]. rewrite E'. by split.
  - destruct (IH _ Hw _ _ _ Hok eq_refl (fun i => met (Datatypes.S i))) as (n & st' & En & Ho).
    exists (Datatypes.S n), st'. cbn [call_steps]. rewrite E'. by split.
Qed.

Lemma call_steps_act n : forall met st st', call_steps n met st = Some st' -> rtc act st st'.
Proof.
  induction n as [|n IH]; intros met st st' E; [by injection E as <-|]. cbn [call_steps] in E.
  destruct (next_frame_step _ _ _ _ _) as [[[[r1 c1] k1] res]|] eqn:Es; [|done]. cbn [mbind option_bind] in E.
  eapply rtc_l; [by eapply act_exporter|]. by eapply IH.
Qed.
End rings.

(** ** Samples *)

Section samples.
#[local] Instance sample_crates : Crates := crates_std.

Definition captured_at : DateTime := exist (fun p => timestamp_ok p = true) (1_787_832_000, 5) eq_refl.

Definition header_of (next snaplen pkttype : Z) : FrameHeader := mkHeader next 1_787_832_000 5 snaplen 1500 82 ARPHRD_LOOPBACK pkttype.

Definition octets_of (data : bytes) : bytes := replicate 82 x00 ++ data.

Definition first_captured : Captured := mkCaptured (mkFrame [x01; x02] 1500 captured_at) true.
Definition second_captured : Captured := mkCaptured (mkFrame [x03; x04; x05] 1500 captured_at) false.

(** A packet as it was sent over a loopback device, and as it was received. *)
Definition filled_block : Block :=
  mkBlock (TP_STATUS_USER + 32) 2 48 {[48 := (header_of 96 2 PACKET_OUTGOING, octets_of [x01; x02]);
    144 := (header_of 0 3 0, octets_of [x03; x04; x05])]}.

Lemma filled_block_holds : block_holds filled_block [first_captured; second_captured].
Proof.
  split; [done|]. split; [done|]. split; [done|].
  eapply hold_cons; [split; done|done|by split_and!|]. eapply hold_cons; [split; done|done|by split_and!|]. constructor.
Qed.

Definition filled_state : State :=
  mkState (<[0%nat := filled_block]> (replicate (Z.to_nat BLOCK_NR) empty_block)) 1 AfPacket_new Outside
    [first_captured; second_captured] [] None.

Lemma frames_yielded_witness : exists st,
  rtc act initial st /\ data <$> st.(yielded) = [[x03; x04; x05]] /\
  (forall poll now, is_Some (next_frame_step poll now st.(ring) st.(capture) st.(control))) /\
  (exists f, st.(borrowed) = Some (144, f) /\ st.(capture).(block_held) = true) /\
  exists rest, wanted st.(handed_over) = st.(yielded) ++ rest /\ (Forall (fun b => ready b = false) st.(ring) -> rest = []).
Proof.
  destruct (call_steps 7 (fun _ => (PollNothing, captured_at)) filled_state) as [st|] eqn:E.
  2: { assert (Hb : match call_steps 7 (fun _ => (PollNothing, captured_at)) filled_state with Some _ => true | None => false end = true)
      by (vm_compute; reflexivity). rewrite E in Hb. discriminate Hb. }
  assert (H : rtc act initial st).
  { eapply rtc_l; [|by eapply call_steps_act]. apply (act_kernel initial empty_block filled_block); [done|done|exact filled_block_holds]. }
  exists st. destruct (frames_yielded st H) as (H1 & _ & _ & Hlent & H2). split; [exact H|]. split; [|split; [exact H1|split; [|exact H2]]].
  - assert (Ey : match call_steps 7 (fun _ => (PollNothing, captured_at)) filled_state with
      | Some st => data <$> st.(yielded) | None => [] end = [[x03; x04; x05]]) by (vm_compute; reflexivity).
    rewrite E in Ey. exact Ey.
  - assert (Eb : match call_steps 7 (fun _ => (PollNothing, captured_at)) filled_state with
      | Some st => fst <$> st.(borrowed) | None => None end = Some 144) by (vm_compute; reflexivity).
    rewrite E in Eb. destruct st.(borrowed) as [[off f]|] eqn:Ef; [|discriminate Eb]. injection Eb as ->.
    exists f. split; [reflexivity|]. apply (Hlent 144 f). reflexivity.
Defined.
End samples.
