(* ===== verification/ExportIpfix.v ===== *)
(** [rustflow_export/src/ipfix]: the templates the exporter announces
    ([template.rs]) and the records it sends ([data.rs]). *)

From Stdlib Require Import ZArith Lia Strings.Byte.
From stdpp Require Import base tactics numbers list.
From S2P Require Import Prelude Std Crates IERegistry InformationElement DataRecord IpfixTypes FlowCache Sampler Meter.
#[local] Open Scope Z_scope.

(** ** Templates *)

Definition FLOW_IPV4_TEMPLATE_ID : Z := 256.
Definition FLOW_IPV6_TEMPLATE_ID : Z := 257.
Definition OPTIONS_TEMPLATE_ID : Z := 258.
Definition PACKET_FRAME_TEMPLATE_ID : Z := 259.
Definition PACKET_IP_TEMPLATE_ID : Z := 260.

Definition packet_template_id (link : Link) : Z :=
  match link with
  | Link.Ethernet => PACKET_FRAME_TEMPLATE_ID
  | Link.Ip => PACKET_IP_TEMPLATE_ID
  end.

Definition packet_fields (link : Link) : list FieldSpecifier :=
  let section :=
    match link with
    | Link.Ethernet => DataLinkFrameSection
    | Link.Ip => IpHeaderPacketSection
    end in
  [from_ie DataLinkFrameSize 2; from_ie section IPFIX_VARIABLE_LENGTH].

Definition create_packet_template (link : Link) : TemplateRecord :=
  TemplateRecord_new (packet_template_id link) (packet_fields link).

Definition flow_template (template_id : Z) (addresses : list FieldSpecifier) : TemplateRecord :=
  TemplateRecord_new template_id (addresses ++
    [from_ie IpVersion 1;
     from_ie ProtocolIdentifier 1;
     from_ie SourceTransportPort 2;
     from_ie DestinationTransportPort 2;
     from_ie OctetDeltaCount 8;
     from_ie PacketDeltaCount 8;
     from_ie TcpControlBits 2;
     from_ie FlowStartMilliseconds 8;
     from_ie FlowEndMilliseconds 8;
     from_ie InformationElement.FlowEndReason 1]).

Definition create_flow_templates : list TemplateRecord :=
  [flow_template FLOW_IPV4_TEMPLATE_ID [from_ie SourceIpv4Address 4; from_ie DestinationIpv4Address 4];
   flow_template FLOW_IPV6_TEMPLATE_ID [from_ie SourceIpv6Address 16; from_ie DestinationIpv6Address 16]].

Definition create_templates (mode : Mode) : list TemplateRecord :=
  match mode with
  | Mode.Flow => create_flow_templates
  | Mode.Packet => create_packet_template <$> [Link.Ethernet; Link.Ip]
  end.

Definition create_options_template (sampling : Sampling) : OptionsTemplateRecord :=
  let fields := [from_ie ObservationDomainId 4] ++
    match sampling with
    | Sampling.Count _ =>
        [from_ie SamplingInterval 4;
         from_ie SelectorAlgorithm 2;
         from_ie SamplingPacketInterval 4;
         from_ie SamplingPacketSpace 4]
    end in
  OptionsTemplateRecord_new OPTIONS_TEMPLATE_ID 1 fields.

(** ** Records *)

Section data.
Context `{CR : Crates}.

Record FlowData := mkFlowData {
  fd_source_ip : IpAddr;
  fd_destination_ip : IpAddr;
  fd_protocol : Z;
  fd_source_port : Z;
  fd_destination_port : Z;
  fd_octet_count : Z;
  fd_packet_count : Z;
  fd_tcp_flags : Z;
  fd_flow_start : DateTime;
  fd_flow_end : DateTime;
  fd_flow_end_reason : Z;
}.

(** [Flow::to_flow_data] of flow/mod.rs. *)
Definition to_flow_data (self : Flow) : FlowData := {|
  fd_source_ip := self.(key).(source_ip);
  fd_destination_ip := self.(key).(destination_ip);
  fd_protocol := self.(key).(protocol);
  fd_source_port := self.(key).(source_port);
  fd_destination_port := self.(key).(destination_port);
  fd_octet_count := self.(octet_count);
  fd_packet_count := self.(packet_count);
  fd_tcp_flags := self.(tcp_flags);
  fd_flow_start := self.(flow_start);
  fd_flow_end := self.(flow_end);
  fd_flow_end_reason := match self.(flow_end_reason) with None => 0 | Some reason => FlowEndReason.into reason end;
|}.

Definition FlowData_template_id (self : FlowData) : Z :=
  match self.(fd_source_ip) with V4 _ => FLOW_IPV4_TEMPLATE_ID | V6 _ => FLOW_IPV6_TEMPLATE_ID end.

Definition ip_version (self : FlowData) : Z :=
  match self.(fd_source_ip) with V4 _ => 4 | V6 _ => 6 end.

Definition address (ip : IpAddr) : FieldValue :=
  match ip with V4 v4 => FieldValue.Ipv4Address v4 | V6 v6 => FieldValue.Ipv6Address v6 end.

Definition FlowData_values (self : FlowData) : list FieldValue :=
  [address self.(fd_source_ip);
   address self.(fd_destination_ip);
   FieldValue.Unsigned8 (ip_version self);
   FieldValue.Unsigned8 self.(fd_protocol);
   FieldValue.Unsigned16 self.(fd_source_port);
   FieldValue.Unsigned16 self.(fd_destination_port);
   FieldValue.Unsigned64 self.(fd_octet_count);
   FieldValue.Unsigned64 self.(fd_packet_count);
   FieldValue.Unsigned16 self.(fd_tcp_flags);
   FieldValue.DateTimeMilliseconds self.(fd_flow_start);
   FieldValue.DateTimeMilliseconds self.(fd_flow_end);
   FieldValue.Unsigned8 self.(fd_flow_end_reason)].

Definition FlowData_to_data_record (self : FlowData) : DataRecord.DataRecord FieldSpecifier FieldValue :=
  DataRecord_new (FlowData_values self).

Definition PacketData_template_id (self : PacketData) : Z := packet_template_id self.(pd_link).

Definition PacketData_values (self : PacketData) : list FieldValue :=
  [FieldValue.Unsigned16 (default 65535 (try_u 16 self.(pd_length)));
   FieldValue.OctetArray self.(pd_section)].

Definition PacketData_to_data_record (self : PacketData) : DataRecord.DataRecord FieldSpecifier FieldValue :=
  from_template ((fun spec => mkResolved spec DataType.OctetArray []) <$> packet_fields self.(pd_link))
    (PacketData_values self).

Definition SYSTEMATIC_COUNT_BASED : Z := 1.

Record OptionsData := mkOptionsData { od_observation_domain_id : Z; od_sampling : Sampling }.

Definition OptionsData_values (self : OptionsData) : list FieldValue :=
  [FieldValue.Unsigned32 self.(od_observation_domain_id)] ++
  match self.(od_sampling) with
  | Sampling.Count interval =>
      [FieldValue.Unsigned32 interval;
       FieldValue.Unsigned16 SYSTEMATIC_COUNT_BASED;
       FieldValue.Unsigned32 1;
       FieldValue.Unsigned32 (Z.max 0 (interval - 1))]
  end.

Definition OptionsData_to_data_record (self : OptionsData) : DataRecord.DataRecord FieldSpecifier FieldValue :=
  DataRecord_new (OptionsData_values self).
End data.
