(* ===== verification/Exporter.v ===== *)
(** [rustflow_export/src/exporter.rs]: the messages the exporter sends.

    The world outside is the wall clock, the monotonic clock and the socket;
    how often each was used so far is part of the state. *)

From Stdlib Require Import ZArith Lia Strings.Byte.
From stdpp Require Import base tactics numbers list.
From S2P Require Import Prelude Std Crates IERegistry DataRecord IpfixTypes IpfixEncoder FlowCache Sampler Meter ExportIpfix.
#[local] Open Scope Z_scope.

(** [chrono::Utc::now], the wall clock, at each of its readings. *)
Class Wall `{CR : Crates} := utc_at : nat -> DateTime.

(** [UdpSocket::send_to], on its n-th call: the error it returns, if any. *)
Class Socket := {
  SendError : Type;
  send_outcome : nat -> bytes -> option SendError;
}.

Definition MAX_MESSAGE_SIZE : Z := 1400.
Definition MAX_SET_BODY : Z := MAX_MESSAGE_SIZE - IPFIX_HEADER_SIZE - SET_HEADER_SIZE.

Section exporter.
Context `{CR : Crates} `{CK : Clock} `{WL : !Wall} `{SK : Socket}.

Abbreviation DataRecord := (DataRecord.DataRecord FieldSpecifier FieldValue).

(** [Result<T>] of an operation that fails only where a send does. *)
Abbreviation Result T := (T + SendError)%type.

(** [Result::and] *)
Definition result_and {A} (self result : Result A) : Result A :=
  match self with inl _ => result | inr e => inr e end.

(** The reads of both clocks, and the datagrams handed to the socket. *)
Record World := mkWorld { reads : nat; wall_reads : nat; datagrams : list bytes }.

Definition world_now (self : World) : World * Z :=
  let '(reads, now) := instant_now self.(reads) in
  (mkWorld reads self.(wall_reads) self.(datagrams), now).

Definition utc_now (self : World) : World * DateTime :=
  (mkWorld self.(reads) (S self.(wall_reads)) self.(datagrams), utc_at self.(wall_reads)).

Definition send_to (self : World) (datagram : bytes) : World * option SendError :=
  (mkWorld self.(reads) self.(wall_reads) (self.(datagrams) ++ [datagram]),
   send_outcome (List.length self.(datagrams)) datagram).

Record Exporter := mkExporter {
  e_collector_addr : SocketAddr;
  args : ExportArgs;
  sequence_number : Z;
  last_template_send : Z;
}.

(** [Exporter::new], given the address the collector's name resolves to. *)
Definition Exporter_new (world : World) (args : ExportArgs) (collector_addr : SocketAddr)
    : World * Exporter :=
  let '(world, now) := world_now world in (world, mkExporter collector_addr args 0 now).

Definition should_send_template (self : World * Exporter) : World * bool :=
  let '(world, self) := self in
  let '(world, now) := world_now world in
  let elapsed := duration_since now self.(last_template_send) in
  (world, from_secs self.(args).(template_refresh_rate) <=? elapsed).

Definition send_sets (self : World * Exporter) (sets : list Set_) : (World * Exporter) * Result Z :=
  let '(world, self) := self in
  let '(world, export_time) := utc_now world in
  let packet :=
    mkPacket (mkHeader IPFIX_VERSION 0 export_time self.(sequence_number)
      self.(args).(observation_domain_id)) sets in
  let encoded := IpfixPacket_encode packet ([] : bytes) in
  let '(world, error) := send_to world encoded in
  ((world, self), match error with Some e => inr e | None => inl (zlen encoded) end).

Definition send_data (self : World * Exporter) (template_id : Z) (records : list Record_)
    : (World * Exporter) * Result unit :=
  let count := wrap 32 (zlen records) in
  let '((world, self), result) := send_sets self [mkSet template_id 0 records] in
  match result with
  | inr e => ((world, self), inr e)
  | inl _ =>
      ((world, mkExporter self.(e_collector_addr) self.(args)
         (wrap 32 (self.(sequence_number) + count)) self.(last_template_send)), inl tt)
  end.

Definition send_templates (self : World * Exporter) : (World * Exporter) * Result unit :=
  let opts := self.2.(args) in
  let '((world, self), result) := send_sets self
    [mkSet IPFIX_TEMPLATE_SET_ID 0 (Template <$> create_templates opts.(mode));
     mkSet IPFIX_OPTIONS_TEMPLATE_SET_ID 0 [OptionsTemplate (create_options_template (sampling opts))]] in
  match result with
  | inr e => ((world, self), inr e)
  | inl _ =>
      let '(world, now) := world_now world in
      ((world, mkExporter self.(e_collector_addr) self.(args) self.(sequence_number) now), inl tt)
  end.

Definition send_options_data (self : World * Exporter) : (World * Exporter) * Result unit :=
  let opts := self.2.(args) in
  let options_data := mkOptionsData opts.(observation_domain_id) (sampling opts) in
  send_data self OPTIONS_TEMPLATE_ID [IpfixTypes.OptionsData (OptionsData_to_data_record options_data)].

(** The loop of [send_records]: what it has sent, its result so far, and the
    records waiting in the message it fills. *)
Record Filling := mkFilling {
  f_state : World * Exporter;
  f_result : Result unit;
  pending : list Record_;
  f_template_id : Z;
  f_size : Z;
}.

Definition push_record (self : Filling) (r : Z * DataRecord) : Filling :=
  let '(id, record) := r in
  let len := zlen (DataRecord_encode record ([] : bytes)) in
  let self :=
    if bool_decide (self.(pending) <> []) &&
       ((MAX_SET_BODY <? self.(f_size) + len) || negb (id =? self.(f_template_id))) then
      let '(state, sent) := send_data self.(f_state) self.(f_template_id) self.(pending) in
      mkFilling state (result_and self.(f_result) sent) [] self.(f_template_id) 0
    else self in
  mkFilling self.(f_state) self.(f_result) (self.(pending) ++ [Data record]) id (self.(f_size) + len).

Definition send_records (self : World * Exporter) (records : list (Z * DataRecord))
    : (World * Exporter) * Result unit :=
  let filled := fold_left push_record records (mkFilling self (inl tt) [] 0 0) in
  if bool_decide (filled.(pending) <> []) then
    let '(state, sent) := send_data filled.(f_state) filled.(f_template_id) filled.(pending) in
    (state, result_and filled.(f_result) sent)
  else (filled.(f_state), filled.(f_result)).

(** [IpAddr::is_ipv4] *)
Definition is_ipv4 (ip : IpAddr) : bool := match ip with V4 _ => true | V6 _ => false end.

Definition send_flows (self : World * Exporter) (flows : list Flow) : (World * Exporter) * Result unit :=
  match flows with
  | [] => (self, inl tt)
  | _ =>
      let '(ipv4, ipv6) := List.partition (fun data => is_ipv4 data.(fd_source_ip)) (to_flow_data <$> flows) in
      send_records self
        ((fun data => (FlowData_template_id data, FlowData_to_data_record data)) <$> (ipv4 ++ ipv6))
  end.

Definition send_packets (self : World * Exporter) (packets : list PacketData)
    : (World * Exporter) * Result unit :=
  send_records self
    ((fun packet => (PacketData_template_id packet, PacketData_to_data_record packet)) <$> packets).

Definition send (self : World * Exporter) (records : Records) : (World * Exporter) * Result unit :=
  match records with
  | Records.Flows flows => send_flows self flows
  | Records.Packets packets => send_packets self packets
  end.
End exporter.
