(* ===== verification/ExporterFacts.v ===== *)
(** What [send_records] sends: the messages it fills, their sizes, and what a
    failed send costs. *)

From Stdlib Require Import ZArith Lia Strings.Byte.
From stdpp Require Import base tactics numbers list.
From S2P Require Import Prelude Std Crates IERegistry InformationElement DataRecord IpfixTypes IpfixEncoder FlowCache Sampler Meter ExportIpfix Exporter.
#[local] Open Scope Z_scope.
#[local] Abbreviation length := List.length.

Section messages.
Context `{CR : Crates} `{WL : !Wall} `{SK : Socket}.

Abbreviation DataRecord := (DataRecord.DataRecord FieldSpecifier FieldValue).

(** The records of one message, with the template they share. *)
Definition group : Type := Z * list DataRecord.

Definition record_size (r : DataRecord) : Z := zlen (record_octets r).
Definition body_size (g : group) : Z := zsum record_size g.2.
Definition members (g : group) : list (Z * DataRecord) := (fun r => (g.1, r)) <$> g.2.

(** A message that is not empty and overflows only where one record does. *)
Definition fits (g : group) : Prop :=
  g.2 <> [] /\ (body_size g <= MAX_SET_BODY \/ zlen g.2 = 1).

(** No message could have taken the first record of the next one. *)
Fixpoint tight (gs : list group) : Prop :=
  match gs with
  | g :: (g' :: _) as gs' =>
      (match g'.2 with
       | [] => False
       | r :: _ => g.1 <> g'.1 \/ MAX_SET_BODY < body_size g + record_size r
       end) /\ tight gs'
  | _ => True
  end.

(** [records], in order, cut into messages. *)
Definition grouped (records : list (Z * DataRecord)) (gs : list group) : Prop :=
  concat (members <$> gs) = records /\ Forall fits gs /\ tight gs.

(** Messages sent one after the other. *)
Fixpoint send_messages (st : World * Exporter) (gs : list group)
    : (World * Exporter) * (unit + SendError) :=
  match gs with
  | [] => (st, inl tt)
  | g :: gs =>
      let '(st, result) := send_data st g.1 (Data <$> g.2) in
      let '(st, result') := send_messages st gs in (st, result_and result result')
  end.

Lemma result_and_assoc {A} (a b c : A + SendError) :
  result_and a (result_and b c) = result_and (result_and a b) c.
Proof. by destruct a. Qed.

(** Where the loop stops. *)
Definition finish (filled : Filling) : (World * Exporter) * (unit + SendError) :=
  if bool_decide (filled.(pending) <> []) then
    let '(state, sent) := send_data filled.(f_state) filled.(f_template_id) filled.(pending) in
    (state, result_and filled.(f_result) sent)
  else (filled.(f_state), filled.(f_result)).

(** The loop with the message [(id, p)] half filled. *)
Lemma fill_groups rs : forall st res id p,
  p <> [] -> fits (id, p) ->
  exists q gs,
    finish (fold_left push_record rs (mkFilling st res (Data <$> p) id (zsum record_size p)))
    = (let '(st, result) := send_messages st ((id, p ++ q) :: gs) in (st, result_and res result)) /\
    concat (members <$> ((id, p ++ q) :: gs)) = members (id, p) ++ rs /\
    Forall fits ((id, p ++ q) :: gs) /\ tight ((id, p ++ q) :: gs).
Proof.
  induction rs as [|[id' r] rs IH]; intros st res id p Hp Hf.
  { exists [], []. rewrite !app_nil_r. cbn [fold_left]. split_and!; [|exact (app_nil_r _)|by constructor|exact I].
    unfold finish. cbn [pending f_state f_template_id f_result].
    rewrite bool_decide_true by (by destruct p). cbn [send_messages fst snd].
    destruct (send_data st id _) as [st' res']. by destruct res, res' as [[]|]. }
  cbn [fold_left]. cbn [push_record pending f_size f_template_id f_state f_result].
  change (DataRecord_encode r []) with (record_octets r). fold (record_size r).
  rewrite bool_decide_true by (by destruct p). cbn [andb].
  destruct ((MAX_SET_BODY <? zsum record_size p + record_size r) || negb (id' =? id)) eqn:Eflush.
  - destruct (send_data st id (Data <$> p)) as [st' sent] eqn:Es. cbn.
    destruct (IH st' (result_and res sent) id' [r]) as (q & gs & E & Hc & Hall & Ht); [done|by split; [|right]|].
    exists [], ((id', [r] ++ q) :: gs). rewrite app_nil_r. cbn [app] in *. split_and!.
    + change (Data r :: []) with (Data <$> [r]). replace (record_size r) with (zsum record_size [r]) by (cbn; lia).
      etransitivity; [exact E|]. cbn [send_messages fst snd]. rewrite Es. destruct (send_data st' id' _) as [st1 r1].
      destruct (send_messages st1 gs) as [st2 r2]. by rewrite !result_and_assoc.
    + etransitivity; [exact (f_equal (app (members (id, p))) Hc)|done].
    + by constructor.
    + cbn [fst snd]. apply orb_true_iff in Eflush as [H|H]; [right; apply Z.ltb_lt, H|left; lia].
    + exact Ht.
  - apply orb_false_iff in Eflush as [H1 H2]. assert (id' = id) as -> by lia. cbn.
    destruct (IH st res id (p ++ [r])) as (q & gs & E & Hc & Hall & Ht); [by destruct p|..].
    { split; [by destruct p|]. left. unfold body_size. cbn [snd]. rewrite zsum_app. cbn in *. lia. }
    exists (r :: q), gs. rewrite <- app_assoc in E, Hc, Hall, Ht. cbn [app] in *. split_and!; [|..|done|done].
    + etransitivity; [|exact E]. do 3 f_equal; [by rewrite fmap_app|rewrite zsum_app; cbn; lia].
    + etransitivity; [exact Hc|]. unfold members. cbn [fst snd]. by rewrite fmap_app, <- app_assoc.
Qed.

(** [send_records] sends such messages. *)
Lemma send_records_groups st rs :
  exists gs, grouped rs gs /\ send_records st rs = send_messages st gs.
Proof.
  destruct rs as [|[id r] rs]; [by exists []|].
  destruct (fill_groups rs st (inl tt) id [r]) as (q & gs & E & Hc & Hf & Ht); [done|by split; [|right]|].
  exists ((id, [r] ++ q) :: gs). split; [by split|].
  replace (zsum record_size [r]) with (record_size r) in E by (cbn; lia).
  etransitivity; [exact E|]. by destruct (send_messages st _).
Qed.

(** ** What the world and the exporter come to *)

(** The message of a group. *)
Definition message (e : Exporter) (export_time : DateTime) (seq : Z) (g : group) : bytes :=
  IpfixPacket_encode (mkPacket (mkHeader IPFIX_VERSION 0 export_time seq
    e.(args).(observation_domain_id)) [mkSet g.1 0 (Data <$> g.2)]) ([] : bytes).

(** What the socket answers to datagrams sent after [n] others. *)
Definition outcomes (n : nat) (ds : list bytes) : list (option SendError) :=
  imap (fun k d => send_outcome (n + k) d) ds.

(** The records of the messages the socket accepted. *)
Definition accepted (gs : list group) (os : list (option SendError)) : Z :=
  zsum (fun go : group * option SendError => match go.2 with None => zlen go.1.2 | Some _ => 0 end) (zip gs os).

Definition first_error (os : list (option SendError)) : unit + SendError :=
  match omap id os with [] => inl tt | e :: _ => inr e end.

Lemma outcomes_cons n d ds : outcomes n (d :: ds) = send_outcome n d :: outcomes (S n) ds.
Proof.
  unfold outcomes. rewrite imap_cons, Nat.add_0_r. f_equal. apply imap_ext. intros k x _. cbn. f_equal. lia.
Qed.

Lemma first_error_cons o os :
  first_error (o :: os) = result_and (match o with None => inl tt | Some e => inr e end) (first_error os).
Proof. by destruct o. Qed.

Lemma accepted_cons g gs o os :
  accepted (g :: gs) (o :: os) = (match o with None => zlen g.2 | Some _ => 0 end) + accepted gs os.
Proof. done. Qed.

Lemma accepted_nonneg gs os : 0 <= accepted gs os.
Proof. apply zsum_nonneg. intros [g []]; cbn; [lia|apply zlen_nonneg]. Qed.

Definition with_sequence (e : Exporter) (seq : Z) : Exporter :=
  mkExporter e.(e_collector_addr) e.(args) seq e.(last_template_send).

(** A send of one set of data records. *)
Lemma send_data_eq w e id (records : list Record_) :
  let d := IpfixPacket_encode (mkPacket (mkHeader IPFIX_VERSION 0 (utc_at w.(wall_reads)) e.(sequence_number)
    e.(args).(observation_domain_id)) [mkSet id 0 records]) ([] : bytes) in
  let o := send_outcome (length w.(datagrams)) d in
  send_data (w, e) id records
  = ((mkWorld w.(reads) (S w.(wall_reads)) (w.(datagrams) ++ [d]),
      match o with
      | None => with_sequence e (wrap 32 (e.(sequence_number) + zlen records))
      | Some _ => e
      end), match o with None => inl tt | Some err => inr err end).
Proof.
  intros d o. unfold send_data, send_sets, utc_now, send_to.
  cbn [wall_reads datagrams Exporter.reads]. fold d. fold o. destruct o; [done|].
  unfold with_sequence. cbn. do 3 f_equal. unfold wrap. by rewrite Zplus_mod_idemp_r.
Qed.

(** The state after the messages [gs], sent as the datagrams [ds]. *)
Definition after (w : World) (e : Exporter) (gs : list group) (ds : list bytes) : World * Exporter :=
  (mkWorld w.(reads) (w.(wall_reads) + length ds) (w.(datagrams) ++ ds),
   with_sequence e (wrap 32 (e.(sequence_number) + accepted gs (outcomes (length w.(datagrams)) ds)))).

Lemma send_messages_spec gs : forall w e,
  fits_u 32 e.(sequence_number) ->
  exists ds,
    let os := outcomes (length w.(datagrams)) ds in
    length ds = length gs /\
    send_messages (w, e) gs = (after w e gs ds, first_error os) /\
    forall k g, gs !! k = Some g ->
      ds !! k = Some (message e (utc_at (w.(wall_reads) + k))
        (wrap 32 (e.(sequence_number) + accepted (take k gs) os)) g).
Proof.
  induction gs as [|g gs IH]; intros w e Hs.
  { exists []. split; [done|]. split; [|done]. cbn. unfold after, with_sequence, accepted. cbn.
    rewrite Nat.add_0_r, app_nil_r, Z.add_0_r, (wrap_small 32) by done. by destruct w, e. }
  cbn [send_messages]. rewrite send_data_eq. set (d := IpfixPacket_encode _ _).
  set (o := send_outcome _ d). set (w' := mkWorld _ _ _).
  set (e' := match o with None => _ | Some _ => e end).
  assert (Hs' : e'.(sequence_number) = wrap 32 (e.(sequence_number) + match o with None => zlen g.2 | Some _ => 0 end)
    /\ e' = with_sequence e e'.(sequence_number)).
  { subst e'. destruct o; cbn; [|by rewrite zlen_fmap]. split; [|by destruct e].
    by rewrite Z.add_0_r, (wrap_small 32). }
  destruct Hs' as [Hn He].
  assert (Hadd : forall x, wrap 32 (e'.(sequence_number) + x)
    = wrap 32 (e.(sequence_number) + (match o with None => zlen g.2 | Some _ => 0 end + x))).
  { intros x. rewrite Hn. unfold wrap. rewrite Zplus_mod_idemp_l. f_equal. lia. }
  destruct (IH w' e') as (ds & Hl & E & Hd); [rewrite Hn; apply wrap_range; lia|].
  exists (d :: ds). cbn zeta. rewrite outcomes_cons. fold o.
  assert (Hlen : length w'.(datagrams) = S (length w.(datagrams))).
  { subst w'. cbn. rewrite length_app. cbn. lia. }
  rewrite Hlen in E, Hd. split_and!; [cbn; by rewrite Hl| |].
  - rewrite E, first_error_cons. f_equal. unfold after. rewrite outcomes_cons, accepted_cons, Hlen. fold o.
    f_equal; [subst w'; cbn; f_equal; [lia|by rewrite <- app_assoc]|].
    rewrite Hadd, He. by destruct e.
  - intros [|k] g' Hk.
    + injection Hk as <-. change (accepted _ _) with 0.
      rewrite Nat.add_0_r, Z.add_0_r, (wrap_small 32) by done. reflexivity.
    + change (ds !! k = Some (message e (utc_at (w.(wall_reads) + S k))
        (wrap 32 (e.(sequence_number) + accepted (g :: take k gs) (o :: outcomes (S (length w.(datagrams))) ds))) g')).
      rewrite (Hd k g' Hk), Hadd, accepted_cons, <- Nat.add_succ_comm. by rewrite He.
Qed.

(** ** Sizes *)

Lemma set_bytes_size s : zlen (set_bytes s) = SET_HEADER_SIZE + zlen (set_body s).
Proof.
  unfold set_bytes, Set_encode, set_body. rewrite (fold_put_vec _ record_bytes) by (intros; apply record_vec_all).
  cbn [put_u16 put_slice Vec_BufMut app]. rewrite !zlen_app, !zlen_be_bytes. done.
Qed.

Lemma packet_size_eq p :
  zlen (IpfixPacket_encode p ([] : bytes)) = IPFIX_HEADER_SIZE + zsum (fun s => zlen (set_bytes s)) p.(p_sets).
Proof.
  unfold IpfixPacket_encode.
  rewrite (fold_put_vec _ set_bytes) by (intros s b _; apply (set_encode (BM := Vec_BufMut) s b)).
  cbn [put_u16 put_u32 put_slice Vec_BufMut app]. rewrite !zlen_app, !zlen_be_bytes, zlen_concat.
  rewrite zsum_fmap. unfold IPFIX_HEADER_SIZE. lia.
Qed.

Lemma data_body id rs :
  set_body (mkSet id 0 (Data <$> rs)) = concat (record_octets <$> rs).
Proof. unfold set_body. cbn [set_records]. by rewrite (set_body_fmap Data record_octets). Qed.

Lemma zlen_records rs : zlen (concat (record_octets <$> rs)) = zsum record_size rs.
Proof. by rewrite zlen_concat, zsum_fmap. Qed.

Lemma message_size e t seq g :
  zlen (message e t seq g) = IPFIX_HEADER_SIZE + SET_HEADER_SIZE + body_size g.
Proof.
  unfold message. rewrite packet_size_eq. cbn [p_sets zsum foldr].
  rewrite set_bytes_size, data_body, zlen_records. fold (body_size g). lia.
Qed.

(** Placeholders leave each value at its own length. *)
Lemma new_record_octets vs : record_octets (DataRecord_new vs) = concat (value_octets <$> vs).
Proof.
  unfold record_octets, DataRecord_new. cbn [rec_values rec_fields].
  induction vs as [|v vs IH]; [done|]. rewrite !fmap_cons, values_octets_cons. cbn [concat]. by rewrite IH.
Qed.

Lemma zlen_address ip : zlen (value_octets (address ip)) <= 16.
Proof. destruct ip; change (zlen (be_bytes 4 a) <= 16) || change (zlen (be_bytes 16 a) <= 16); rewrite zlen_be_bytes; lia. Qed.

Lemma flow_record_size data : record_size (FlowData_to_data_record data) <= 73.
Proof.
  unfold record_size, FlowData_to_data_record. rewrite new_record_octets, zlen_concat.
  pose proof (zlen_address (fd_source_ip data)). pose proof (zlen_address (fd_destination_ip data)).
  unfold FlowData_values. rewrite !fmap_cons, !zsum_cons.
  remember (zlen (value_octets (address (fd_source_ip data)))) as a.
  remember (zlen (value_octets (address (fd_destination_ip data)))) as b.
  unfold value_octets. cbn [FieldValue_encode put_u8 put_u16 put_u64 Vec_BufMut app].
  rewrite !zlen_be_bytes. cbn. lia.
Qed.

Lemma packet_record_octets packet :
  record_octets (PacketData_to_data_record packet)
  = be_bytes 2 (default 65535 (try_u 16 packet.(pd_length))) ++
    (let n := zlen packet.(pd_section) in
     if n <? 255 then be_bytes 1 (wrap 8 n) else be_bytes 1 255 ++ be_bytes 2 (wrap 16 n)) ++
    packet.(pd_section).
Proof.
  unfold PacketData_to_data_record, record_octets, packet_fields, PacketData_values. cbn [rec_values rec_fields].
  rewrite !fmap_cons, !values_octets_cons. cbn [spec field_length from_ie iana]. cbv zeta.
  assert (E1 : forall x, field_value_octets (FieldValue.Unsigned16 x) 2 = be_bytes 2 x).
  { intros x. unfold field_value_octets, encode_field_value, encode_field_value_with. cbn [Z.eqb].
    by rewrite put_uint_low. }
  rewrite E1. f_equal.
  assert (E2 : values_octets [] [] = []) by done. change (_ <$> []) with (@nil ResolvedField). rewrite E2, app_nil_r.
  unfold field_value_octets, encode_field_value, encode_field_value_with. rewrite Z.eqb_refl.
  cbn [FieldValue_encode put_u8 put_u16 put_slice Vec_BufMut app].
  by destruct (_ <? 255).
Qed.

Lemma packet_record_size packet :
  record_size (PacketData_to_data_record packet) <= 5 + zlen packet.(pd_section).
Proof.
  unfold record_size. rewrite packet_record_octets. cbv zeta. rewrite !zlen_app, zlen_be_bytes.
  destruct (_ <? 255); rewrite ?zlen_app, !zlen_be_bytes; lia.
Qed.

(** ** Messages fit *)

(** What is sent for the records of the meter. *)
Lemma send_outgoing st records :
  exists rs, send st records = send_records st rs /\
    match records with
    | Records.Flows _ => Forall (fun r => record_size r.2 <= 73) rs
    | Records.Packets packets => rs = (fun p => (PacketData_template_id p, PacketData_to_data_record p)) <$> packets
    end.
Proof.
  destruct records as [flows|packets]; [|by eexists].
  destruct flows as [|flow flows]; [by exists []|]. cbn [send send_flows].
  destruct (List.partition _ _) as [ipv4 ipv6]. eexists. split; [done|].
  apply Forall_fmap, Forall_forall. intros data _. apply flow_record_size.
Qed.

Lemma group_record g r gs rs :
  concat (members <$> gs) = rs -> g ∈ gs -> r ∈ g.2 -> (g.1, r) ∈ rs.
Proof.
  intros <- Hg Hr. induction gs as [|g' gs IH]; [by apply not_elem_of_nil in Hg|].
  cbn. apply elem_of_app. apply elem_of_cons in Hg as [<-|Hg]; [left|by right; apply IH].
  by apply (list_elem_of_fmap_2 (fun r => (g.1, r))).
Qed.

(** No record is larger than a message. *)
Definition clipped (records : Records) : Prop :=
  match records with
  | Records.Flows _ => True
  | Records.Packets packets => Forall (fun p => zlen p.(pd_section) <= 1024) packets
  end.

Lemma outgoing_fit records rs :
  match records with
  | Records.Flows _ => Forall (fun r => record_size r.2 <= 73) rs
  | Records.Packets packets => rs = (fun p => (PacketData_template_id p, PacketData_to_data_record p)) <$> packets
  end -> clipped records -> Forall (fun r : Z * DataRecord => record_size r.2 <= MAX_SET_BODY) rs.
Proof.
  unfold MAX_SET_BODY, MAX_MESSAGE_SIZE, IPFIX_HEADER_SIZE, SET_HEADER_SIZE.
  destruct records as [flows|packets]; intros H Hc.
  - eapply Forall_impl; [exact H|]. cbn. lia.
  - subst. apply Forall_fmap. eapply Forall_impl; [exact Hc|]. intros p Hp. cbn in *.
    pose proof (packet_record_size p). lia.
Qed.

Lemma group_fits g : fits g -> Forall (fun r => record_size r <= MAX_SET_BODY) g.2 -> body_size g <= MAX_SET_BODY.
Proof.
  intros [_ [H|H]] Hf; [done|]. apply zlen_1 in H as [r E]. unfold body_size. rewrite E in *.
  apply Forall_cons in Hf as [Hr _]. cbn. lia.
Qed.

(** What a send leaves of the exporter, and the datagrams it hands over. *)
Lemma send_within w e records :
  fits_u 32 e.(sequence_number) -> clipped records ->
  let '(w', e') := (send (w, e) records).1 in
  exists ds, w'.(datagrams) = w.(datagrams) ++ ds /\ Forall (fun d => zlen d <= MAX_MESSAGE_SIZE) ds /\
    e'.(args) = e.(args) /\ fits_u 32 e'.(sequence_number).
Proof.
  intros Hs Hc. destruct (send_outgoing (w, e) records) as (rs & E & Hrs). rewrite E.
  destruct (send_records_groups (w, e) rs) as (gs & (Hm & Hf & _) & Es).
  destruct (send_messages_spec gs w e Hs) as (ds & Hl & Em & Hd). rewrite Es, Em. cbn [fst after].
  exists ds. split; [done|]. split; [|split; [done|apply wrap_range; lia]].
  pose proof (outgoing_fit _ _ Hrs Hc) as Hsize.
  apply Forall_lookup_2. intros k d Ed.
  destruct (lookup_lt_is_Some_2 gs k) as [g Eg]; [rewrite <- Hl; by eapply lookup_lt_Some|].
  rewrite (Hd k g Eg) in Ed. injection Ed as <-. rewrite message_size.
  enough (body_size g <= MAX_SET_BODY) by (unfold MAX_SET_BODY in *; lia).
  apply group_fits; [by eapply Forall_lookup_1|]. apply Forall_forall. intros r Hr.
  apply (proj1 (Forall_forall _ _) Hsize (g.1, r)).
  eapply group_record; [exact Hm| |done]. by eapply list_elem_of_lookup_2.
Qed.

(** C2: A message is filled as far as the next record allows, a set never mixes
    templates, and records keep their order; every message is tried, with the
    number of data records the socket accepted before it as its sequence
    number, and the first error is returned. *)
Theorem send_records_spec w e records :
  fits_u 32 e.(sequence_number) ->
  exists gs ds,
    grouped records gs /\ length ds = length gs /\
    let os := outcomes (length w.(datagrams)) ds in
    send_records (w, e) records = (after w e gs ds, first_error os) /\
    forall k g, gs !! k = Some g ->
      ds !! k = Some (message e (utc_at (w.(wall_reads) + k))
        (wrap 32 (e.(sequence_number) + accepted (take k gs) os)) g).
Proof.
  intros Hs. destruct (send_records_groups (w, e) records) as (gs & Hg & E).
  destruct (send_messages_spec gs w e Hs) as (ds & Hl & Em & Hd). exists gs, ds. by rewrite E.
Qed.
End messages.

Section samples.
#[local] Instance sample_crates : Crates := crates_std.
#[local] Instance sample_wall : Wall := fun n => IpfixEncoder.sample_time.
(** Every second send fails. *)
#[local] Instance sample_socket : Socket :=
  {| SendError := nat; send_outcome n d := if Nat.even n then None else Some n |}.

Definition sample_exporter : Exporter :=
  mkExporter (mkSocketAddr (V4 1) 4739) (mkArgs Mode.Packet 128 1 60 15 16 300 1) 5 0.

Definition sample_packet (n : nat) : PacketData := mkPacketData Link.Ethernet 1500 (replicate n x00).

Definition sample_records : list (Z * DataRecord.DataRecord FieldSpecifier FieldValue) :=
  (fun p => (PacketData_template_id p, PacketData_to_data_record p)) <$>
  [sample_packet 1000; sample_packet 500; sample_packet 600; sample_packet 700].

(** Three messages, the second of which is lost with its two records. *)
Lemma send_records_spec_witness :
  exists gs ds,
    grouped sample_records gs /\ length ds = length gs /\
    (send_records (mkWorld 0 0 [], sample_exporter) sample_records).2 = first_error (outcomes 0 ds) /\
    (send_records (mkWorld 0 0 [], sample_exporter) sample_records).2 = inr 1%nat /\
    (send_records (mkWorld 0 0 [], sample_exporter) sample_records).1.2.(sequence_number) = 7.
Proof.
  destruct (send_records_spec (mkWorld 0 0 []) sample_exporter sample_records) as (gs & ds & Hg & Hl & E & _);
    [by apply (bool_decide_unpack _)|].
  exists gs, ds. split; [exact Hg|]. split; [exact Hl|]. split; [by rewrite E|]. split; vm_compute; reflexivity.
Defined.
End samples.
