(* ===== verification/ExportRun.v ===== *)
(** [rustflow_export/src/lib.rs]: the exporter from start to shutdown.

    The frames the capture yields while the exporter runs are an argument, one
    per turn of its loop, [None] where the capture timed out. *)

From Stdlib Require Import ZArith Lia Strings.Byte.
From stdpp Require Import base tactics numbers list.
From S2P Require Import Prelude Std Crates IpfixTypes Etherparse FlowCache Sampler FlowParse Meter ExportIpfix Exporter.
#[local] Open Scope Z_scope.

Definition check_interval : Z := from_secs 1.

Section run.
Context `{CR : Crates} `{CK : Clock} `{EP : Etherparse} `{WL : !Wall} `{SK : Socket}.

Record Running := mkRunning {
  world : World;
  exporter : Exporter;
  meter : Meter;
  last_check : Z;
}.

Definition set_reads (self : World) (reads : nat) : World :=
  mkWorld reads self.(wall_reads) self.(datagrams).

(** [meter.observe(&frame)], if there is one; [None] is a panic. *)
Definition observe_frame (world : World) (meter : Meter) (frame : option Frame) : option (World * Meter) :=
  match frame with
  | None => Some (world, meter)
  | Some frame =>
      '(reads, meter) ← observe (world.(reads), meter) frame;
      Some (set_reads world reads, meter)
  end.

(** [exporter.send(meter.take_due())], whose failure is logged. *)
Definition export_due (world : World) (exporter : Exporter) (meter : Meter) : World * Exporter * Meter :=
  let '((reads, meter), records) := take_due (world.(reads), meter) in
  let '((world, exporter), _) := send (set_reads world reads, exporter) records in
  (world, exporter, meter).

Definition refresh_templates (world : World) (exporter : Exporter) : World * Exporter :=
  let '(world, due) := should_send_template (world, exporter) in
  if due then
    let '((world, exporter), result) := send_templates (world, exporter) in
    match result with
    | inr _ => (world, exporter)
    | inl _ => (send_options_data (world, exporter)).1
    end
  else (world, exporter).

(** One turn of the loop. *)
Definition turn (self : Running) (frame : option Frame) : option Running :=
  '(world, meter) ← observe_frame self.(world) self.(meter) frame;
  let '(world, now) := world_now world in
  let tick := check_interval <=? duration_since now self.(last_check) in
  let '(world, exporter, meter) :=
    if tick || is_full meter then export_due world self.(exporter) meter
    else (world, self.(exporter), meter) in
  if tick then
    let '(world, exporter) := refresh_templates world exporter in
    let '(world, now) := world_now world in
    Some (mkRunning world exporter meter now)
  else Some (mkRunning world exporter meter self.(last_check)).

(** What happens before the loop: [inr] where the first messages cannot be
    sent, which ends the run. *)
Definition start (world : World) (args : ExportArgs) (link : Link) (collector_addr : SocketAddr)
    (local_port : Z) : Running + SendError :=
  let '(world, exporter) := Exporter_new world args collector_addr in
  let meter := Meter_new args link local_port exporter.(e_collector_addr) in
  let '((world, exporter), result) := send_templates (world, exporter) in
  match result with
  | inr e => inr e
  | inl _ =>
      let '((world, exporter), result) := send_options_data (world, exporter) in
      match result with
      | inr e => inr e
      | inl _ =>
          let '(world, now) := world_now world in
          inl (mkRunning world exporter meter now)
      end
  end.

(** The export of what is left. *)
Definition shutdown (self : Running) : Running :=
  let '(meter, records) := take_all self.(meter) in
  let '((world, exporter), _) := send (self.(world), self.(exporter)) records in
  mkRunning world exporter meter self.(last_check).

Fixpoint turns (self : Running) (frames : list (option Frame)) : option Running :=
  match frames with
  | [] => Some self
  | frame :: frames => self ← turn self frame; turns self frames
  end.

Definition run (world : World) (args : ExportArgs) (link : Link) (collector_addr : SocketAddr)
    (local_port : Z) (frames : list (option Frame)) : option (Running + SendError) :=
  match start world args link collector_addr local_port with
  | inr e => Some (inr e)
  | inl running => running ← turns running frames; Some (inl (shutdown running))
  end.
End run.

(** ** What it promises

    What a run of the exporter promises. *)

From S2P Require Import IERegistry InformationElement DataRecord IpfixEncoder ExporterFacts.
From S2P Require Packet Meter.
#[local] Abbreviation length := List.length.

Section within.
Context `{CR : Crates} `{CK : Clock} `{EP : Etherparse} `{WL : !Wall} `{SK : Socket}.

(** What the exporter may be left as by operations that send. *)
Definition sends (st st' : World * Exporter) : Prop :=
  exists ds, st'.1.(datagrams) = st.1.(datagrams) ++ ds /\ Forall (fun d => zlen d <= MAX_MESSAGE_SIZE) ds /\
    st'.2.(args) = st.2.(args) /\ fits_u 32 st'.2.(sequence_number).

Lemma sends_trans st1 st2 st3 : sends st1 st2 -> sends st2 st3 -> sends st1 st3.
Proof.
  intros (ds & E & Hd & Ha & _) (ds' & E' & Hd' & Ha' & Hs'). exists (ds ++ ds').
  split_and!; [by rewrite E', E, app_assoc|by apply Forall_app|by rewrite Ha', Ha|done].
Qed.

Lemma sends_refl w w' e : w'.(datagrams) = w.(datagrams) -> fits_u 32 e.(sequence_number) -> sends (w, e) (w', e).
Proof. intros E Hs. exists []. by rewrite app_nil_r. Qed.

Lemma sends_send w e records :
  fits_u 32 e.(sequence_number) -> clipped records -> sends (w, e) (send (w, e) records).1.
Proof. intros Hs Hc. pose proof (send_within w e records Hs Hc) as H. by destruct (send _ _).1. Qed.

Lemma sends_templates w e :
  fits_u 32 e.(sequence_number) -> sends (w, e) (send_templates (w, e)).1.
Proof.
  intros Hs. unfold send_templates, send_sets, utc_now, send_to. cbn [fst snd].
  set (d := IpfixPacket_encode _ _).
  assert (Hd : Forall (fun d => zlen d <= MAX_MESSAGE_SIZE) [d]).
  { constructor; [|constructor]. subst d. rewrite packet_size_eq. cbn [p_sets].
    destruct (mode (args e)), (sampling (args e)); by apply (bool_decide_unpack _); vm_compute. }
  destruct (send_outcome _ d); by exists [d].
Qed.

Lemma sends_options w e :
  fits_u 32 e.(sequence_number) -> sends (w, e) (send_options_data (w, e)).1.
Proof.
  intros Hs. unfold send_options_data. cbn [snd]. rewrite send_data_eq. set (d := IpfixPacket_encode _ _).
  assert (Hd : Forall (fun d => zlen d <= MAX_MESSAGE_SIZE) [d]).
  { constructor; [|constructor]. subst d. rewrite packet_size_eq. cbn [p_sets zsum foldr].
    rewrite set_bytes_size. unfold set_body. cbn [set_records fmap list_fmap concat]. rewrite app_nil_r.
    change (record_bytes (IpfixTypes.OptionsData ?r)) with (record_octets r).
    unfold OptionsData_to_data_record. rewrite new_record_octets, zlen_concat.
    destruct (sampling (args e)). by apply (bool_decide_unpack _); vm_compute. }
  destruct (send_outcome _ d); exists [d]; (split; [done|split; [done|split; [done|]]]); [done|].
  cbn. apply wrap_range. lia.
Qed.

Definition meter_clips (meter : Meter) : Prop :=
  match meter.(output) with
  | Output.Flows _ => True
  | Output.Packets clip_length pending =>
      clip_length <= 1024 /\ Forall (fun p => zlen p.(pd_section) <= 1024) pending
  end.

Lemma observe_clips reads meter frame reads' meter' :
  meter_clips meter -> observe (reads, meter) frame = Some (reads', meter') -> meter_clips meter'.
Proof.
  unfold observe, meter_clips. destruct (select _) as [s []]; cbn [negb]; [|by intros ? [= <- <-]].
  set (own := match parse _ _ with Some _ => _ | None => _ end). destruct own; [by intros ? [= <- <-]|].
  destruct (output meter) as [cache|clip pending].
  - destruct (parse _ _); [|by intros ? [= <- <-]]. cbn. destruct (update_flow _ _ _ _ _); [|done].
    by intros ? [= <- <-].
  - intros [Hc Hp] [= <- <-]. cbn. split; [done|]. apply Forall_app. split; [done|].
    constructor; [|constructor]. cbn. unfold zlen. rewrite length_take. lia.
Qed.

Lemma take_due_clips reads meter :
  meter_clips meter -> meter_clips (take_due (reads, meter)).1.2 /\ clipped (take_due (reads, meter)).2.
Proof.
  unfold take_due, meter_clips. destruct (output meter) as [cache|clip pending]; cbn.
  - done.
  - intros [Hc Hp]. by split; [split; [|constructor]|].
Qed.

Lemma take_all_clips meter : meter_clips meter -> clipped (take_all meter).2.
Proof.
  unfold take_all, meter_clips. destruct (output meter) as [cache|clip pending]; cbn.
  - done.
  - by intros [_ Hp].
Qed.

Definition run_ok (self : Running) : Prop :=
  Forall (fun d => zlen d <= MAX_MESSAGE_SIZE) self.(world).(datagrams) /\
  fits_u 32 self.(exporter).(sequence_number) /\ meter_clips self.(meter).

Lemma run_ok_sends w e w' e' meter last :
  Forall (fun d => zlen d <= MAX_MESSAGE_SIZE) w.(datagrams) -> sends (w, e) (w', e') ->
  meter_clips meter -> run_ok (mkRunning w' e' meter last).
Proof. intros Hw (ds & E & Hd & _ & Hs) Hm. cbn in *. split_and!; [cbn; rewrite E; by apply Forall_app|done|done]. Qed.

Lemma export_due_sends w e meter :
  fits_u 32 e.(sequence_number) -> meter_clips meter ->
  let '(w', e', meter') := export_due w e meter in sends (w, e) (w', e') /\ meter_clips meter'.
Proof.
  intros Hs Hm. unfold export_due. destruct (take_due_clips w.(reads) meter Hm) as [Hm' Hc].
  destruct (take_due _) as [[reads meter'] records]. cbn [fst snd] in *.
  pose proof (sends_send (set_reads w reads) e records Hs Hc) as H.
  destruct (send _ records) as [[w' e'] result]. cbn [fst] in H. split; [|done].
  eapply sends_trans; [|exact H]. by apply sends_refl.
Qed.

Lemma refresh_sends w e :
  fits_u 32 e.(sequence_number) ->
  let '(w', e') := refresh_templates w e in sends (w, e) (w', e').
Proof.
  intros Hs. unfold refresh_templates, should_send_template, world_now. cbn [instant_now].
  set (w1 := mkWorld _ _ _). assert (H0 : sends (w, e) (w1, e)) by by apply sends_refl.
  destruct (_ <=? _); [|done]. pose proof (sends_templates w1 e Hs) as H1.
  destruct (send_templates (w1, e)) as [[w2 e2] [[]|err]]; cbn [fst] in H1.
  - pose proof (sends_options w2 e2) as H2. destruct (send_options_data (w2, e2)) as [[w3 e3] r]. cbn [fst] in *.
    eapply sends_trans; [exact H0|]. eapply sends_trans; [exact H1|]. apply H2.
    by destruct H1 as (? & _ & _ & _ & H1).
  - exact (sends_trans _ _ _ H0 H1).
Qed.

Lemma turn_ok self frame self' : run_ok self -> turn self frame = Some self' -> run_ok self'.
Proof.
  intros (Hd & Hs & Hm). unfold turn.
  assert (Ho : forall w m, observe_frame self.(world) self.(meter) frame = Some (w, m) ->
    w.(datagrams) = self.(world).(datagrams) /\ meter_clips m).
  { intros w m. destruct frame as [frame|]; cbn [observe_frame]; [|by intros [= <- <-]].
    destruct (observe _ frame) as [[reads m']|] eqn:E; [|done]. cbn. intros [= <- <-].
    split; [done|by eapply observe_clips]. }
  destruct (observe_frame _ _ _) as [[w m]|]; [|done]. destruct (Ho w m eq_refl) as [Hw Hm']. clear Ho.
  cbn [mbind option_bind]. unfold world_now at 1. cbn [instant_now].
  set (w1 := mkWorld _ _ _). set (tick := check_interval <=? _).
  assert (H1 : sends (w1, self.(exporter)) (w1, self.(exporter))) by by apply sends_refl.
  assert (Hw1 : Forall (fun d => zlen d <= MAX_MESSAGE_SIZE) w1.(datagrams)) by (cbn; by rewrite Hw).
  pose proof (export_due_sends w1 self.(exporter) m Hs Hm') as He.
  destruct (if tick || is_full m then export_due _ _ _ else _) as [[w2 e2] m2] eqn:E2.
  assert (H2 : sends (w1, self.(exporter)) (w2, e2) /\ meter_clips m2).
  { destruct (tick || is_full m); [by rewrite E2 in He|]. by injection E2 as <- <- <-. }
  clear He E2. destruct H2 as [H2 Hm2]. destruct tick.
  - pose proof (refresh_sends w2 e2 ltac:(by destruct H2 as (? & _ & _ & _ & ?))) as H3.
    destruct (refresh_templates w2 e2) as [w3 e3]. cbn [world_now instant_now]. intros [= <-].
    eapply run_ok_sends; [exact Hw1| |done]. eapply sends_trans; [exact H2|]. eapply sends_trans; [exact H3|].
    apply sends_refl; [done|]. by destruct H3 as (? & _ & _ & _ & ?).
  - intros [= <-]. by eapply run_ok_sends.
Qed.

Lemma turns_ok frames : forall self self', run_ok self -> turns self frames = Some self' -> run_ok self'.
Proof.
  induction frames as [|frame frames IH]; intros self self' Hok; [by intros [= <-]|]. cbn.
  destruct (turn self frame) as [self1|] eqn:E; [|done]. apply IH. by eapply turn_ok.
Qed.

Lemma start_ok args link collector port running :
  args.(clip_length) <= 1024 ->
  start (mkWorld 0 0 []) args link collector port = inl running -> run_ok running.
Proof.
  intros Hc. unfold start, Exporter_new, world_now. cbn [instant_now fst snd Exporter.reads].
  set (w := mkWorld _ _ _). set (e := mkExporter _ _ _ _).
  assert (Hs : fits_u 32 e.(sequence_number)) by done. pose proof (sends_templates w e Hs) as H1.
  destruct (send_templates (w, e)) as [[w2 e2] [[]|err]]; [|done]. cbn [fst] in H1.
  pose proof (sends_options w2 e2 ltac:(by destruct H1 as (? & _ & _ & _ & ?))) as H2.
  destruct (send_options_data (w2, e2)) as [[w3 e3] [[]|err]]; [|done]. cbn [fst] in H2. intros [= <-].
  eapply (run_ok_sends w e); [constructor| |].
  - eapply sends_trans; [exact H1|]. eapply sends_trans; [exact H2|]. apply sends_refl; [done|].
    by destruct H2 as (? & _ & _ & _ & ?).
  - unfold meter_clips, Meter_new. by destruct (mode args); cbn.
Qed.

(** C3: Whatever the capture yields and whichever sends fail, from start to
    shutdown, no datagram is larger than the 1400 octets that fit an Ethernet
    frame, the templates and options included. *)
Theorem run_within_mtu args link collector port frames running :
  args.(clip_length) <= 1024 ->
  run (mkWorld 0 0 []) args link collector port frames = Some (inl running) ->
  Forall (fun d => zlen d <= MAX_MESSAGE_SIZE) running.(world).(datagrams).
Proof.
  intros Hc. unfold run. destruct (start _ _ _ _ _) as [running0|] eqn:E0; [|done].
  pose proof (start_ok _ _ _ _ _ Hc E0) as H0. destruct (turns running0 frames) as [running1|] eqn:E1; [|done].
  destruct (turns_ok _ _ _ H0 E1) as (Hd & Hs & Hm). cbn. intros [= <-].
  unfold shutdown. pose proof (take_all_clips _ Hm) as Hcl. destruct (take_all _) as [m records]. cbn [snd] in Hcl.
  pose proof (sends_send running1.(world) running1.(exporter) records Hs Hcl) as (ds & E & Hds & _).
  destruct (send _ records) as [[w e] r]. cbn in *. rewrite E. by apply Forall_app.
Qed.
End within.

Section samples.
#[local] Instance sample_crates : Crates := crates_std.
#[local] Instance sample_etherparse : Etherparse := Packet.mini.
#[local] Instance sample_clock : Clock := fun n => 1000 * Z.of_nat n.
#[local] Instance sample_wall : Wall := fun n => IpfixEncoder.sample_time.
#[local] Instance sample_socket : Socket := {| SendError := unit; send_outcome n d := None |}.

Definition sample_args : ExportArgs := mkArgs Mode.Packet 1024 1 60 15 16 300 1.
Definition sample_frames : list (option Frame) :=
  replicate 5 (Some (mkFrame (replicate 600 x00) 600 IpfixEncoder.sample_time)).

Definition sample_run : option (Running + SendError) :=
  run (mkWorld 0 0 []) sample_args Link.Ethernet (mkSocketAddr (V4 1) 4739) 1000 sample_frames.

(** Templates, options, and five sections of 600 octets, two to a message. *)
Lemma run_within_mtu_witness :
  exists running, sample_run = Some (inl running) /\
    (zlen <$> running.(world).(datagrams)) = [74; 38; 1230; 1230; 625] /\
    Forall (fun d => zlen d <= MAX_MESSAGE_SIZE) running.(world).(datagrams).
Proof.
  assert (Hb : match sample_run with
    | Some (inl r) => bool_decide ((zlen <$> r.(world).(datagrams)) = [74; 38; 1230; 1230; 625])
    | _ => false end = true) by (vm_compute; reflexivity).
  destruct sample_run as [[r|]|] eqn:E; [|done|done]. exists r. split; [done|].
  split; [exact (bool_decide_eq_true_1 _ Hb)|].
  exact (run_within_mtu sample_args Link.Ethernet (mkSocketAddr (V4 1) 4739) 1000 sample_frames r ltac:(cbn; lia) E).
Defined.
End samples.
