(* ===== verification/ExportWire.v ===== *)
(** The exporter's messages as a collector reads them. *)

From Stdlib Require Import ZArith Lia Strings.Byte.
From stdpp Require Import base tactics numbers list fin_maps gmap.
From S2P Require TemplateCache.
From S2P Require Import Prelude Nom Parsing Std Crates IERegistry InformationElement DataRecord IpfixTypes ElementTypes Ipfix IpfixEncoder Etherparse CommonFlow FlowCache Sampler Meter ExportIpfix Exporter ExporterFacts.
From S2P Require Packet ConvertIpfix.
#[local] Open Scope Z_scope.
#[local] Abbreviation length := List.length.

Section octets.
Context `{CR : Crates}.

Lemma set_bytes_ext s s' :
  s.(set_id) = s'.(set_id) -> set_body s = set_body s' -> set_bytes s = set_bytes s'.
Proof.
  intros Hid Hb. unfold set_bytes, Set_encode.
  assert (E : forall s, fold_left (fun buf record => Record_encode record buf) s.(set_records) ([] : bytes) = set_body s).
  { intros s0. by rewrite (fold_put_vec _ record_bytes) by (intros; apply record_vec_all). }
  by rewrite !E, Hid, Hb.
Qed.

(** The octets of a message depend on its header, whose time is written in
    seconds and whose length is computed, and on the octets of its sets. *)
Lemma packet_octets_ext p p' :
  p.(p_header).(h_version) = p'.(p_header).(h_version) ->
  timestamp p.(p_header).(h_export_time) = timestamp p'.(p_header).(h_export_time) ->
  p.(p_header).(h_sequence_number) = p'.(p_header).(h_sequence_number) ->
  p.(p_header).(h_observation_domain_id) = p'.(p_header).(h_observation_domain_id) ->
  set_bytes <$> p.(p_sets) = set_bytes <$> p'.(p_sets) ->
  IpfixPacket_encode p ([] : bytes) = IpfixPacket_encode p' ([] : bytes).
Proof.
  intros Hv Ht Hs Hd Hb. unfold IpfixPacket_encode.
  assert (E : forall p, fold_left (fun buf set => Set_encode set buf) p.(p_sets) ([] : bytes)
    = concat (set_bytes <$> p.(p_sets))).
  { intros p0. by rewrite (fold_put_vec _ set_bytes) by (intros s b _; apply (set_encode (BM := Vec_BufMut) s b)). }
  by rewrite !E, Hb, Hv, Ht, Hs, Hd.
Qed.

(** A value whose own length is the field's is written in the field as it
    writes itself. *)
Lemma natural_octets dt v n :
  value_fits dt v n -> zlen (value_octets v) = n -> n <> IPFIX_VARIABLE_LENGTH ->
  field_value_octets v n = value_octets v.
Proof.
  intros Hf Hl Hn. rewrite (wire_sized dt) by done. symmetry. rewrite <- Hl.
  apply (wire_natural dt). by rewrite Hl.
Qed.

(** A value the field can carry, in its own length. *)
Definition natural (f : ResolvedField) (v : FieldValue) : Prop :=
  f.(spec).(field_length) <> IPFIX_VARIABLE_LENGTH /\ fits_u 16 f.(spec).(field_length) /\
  zlen (value_octets v) = f.(spec).(field_length) /\ value_fits f.(data_type) v f.(spec).(field_length).

Lemma natural_wf f v : natural f v -> field_wf f v.
Proof. intros (Hn & Hw & Hl & Hf). unfold field_wf. cbv zeta. by rewrite (proj2 (Z.eqb_neq _ _) Hn). Qed.

Lemma natural_values fields vs :
  Forall2 natural fields vs -> values_octets vs fields = concat (value_octets <$> vs).
Proof.
  induction 1 as [|f v fields vs (Hn & _ & Hl & Hf) _ IH]; [done|].
  rewrite values_octets_cons, fmap_cons. cbn [concat]. by rewrite IH, (natural_octets _ _ _ Hf Hl Hn).
Qed.
End octets.

Section parsed.
Context `{CR : Crates} `{NM : Nom} `{CK : Clock}.

(** A record written like the values [vs] of a template with [fields]. *)
Definition written (fields : list ResolvedField) (r : DataRecord.DataRecord FieldSpecifier FieldValue)
    (vs : list FieldValue) : Prop :=
  record_octets r = values_octets vs fields /\ Forall2 field_wf fields vs.

Lemma field_wf_plain f v : field_wf f v -> is_list f.(data_type) = false.
Proof.
  unfold field_wf. cbv zeta. destruct (_ =? _); intros [H1 H2]; by eapply value_fits_plain.
Qed.

(** A message whose sets a parser can read, or are written like such sets. *)
Lemma packet_parsed st dom t seq sets sets' rest :
  set_bytes <$> sets = set_bytes <$> sets' -> sets_wf dom st sets' ->
  fits_u 16 (IPFIX_HEADER_SIZE + zlen (concat (set_bytes <$> sets))) ->
  fits_u 32 (timestamp t) -> fits_u 32 seq -> fits_u 32 dom ->
  exists p, parse st (IpfixPacket_encode (mkPacket (mkHeader IPFIX_VERSION 0 t seq dom) sets) ([] : bytes) ++ rest)
    = (fold_left (receive dom) sets' st, Ok (rest, p)) /\
    p.(p_header).(h_sequence_number) = seq /\ p.(p_header).(h_observation_domain_id) = dom /\
    timestamp p.(p_header).(h_export_time) = timestamp t /\
    p.(p_sets) = with_length <$> sets'.
Proof.
  intros Hb Hsets Hsize Ht Hseq Hdom.
  destruct (from_timestamp_range (timestamp t) 0) as [t' Et']; [destruct Ht; lia|unfold NANOS; lia|].
  destruct (from_timestamp_law _ _ _ Et') as [Ht1 Ht2].
  set (p := mkPacket (mkHeader IPFIX_VERSION 0 t' seq dom) sets').
  rewrite (packet_octets_ext _ p) by done.
  pose proof (zlen_nonneg (concat (set_bytes <$> sets))).
  assert (Hwf : packet_wf st p).
  { split_and!; cbn [p_header p p_sets h_version h_export_time h_sequence_number h_observation_domain_id];
      [done| |by rewrite Ht1|done|done|done|done].
    unfold sets_bytes. cbn [p_sets p]. by rewrite <- Hb. }
  exists (packet_with_lengths p). split; [|done].
  exact (parse_encoded (BM := Vec_BufMut) st p [] rest Hwf eq_refl).
Qed.

(** A message of such records is read back by a parser that knows the
    template. *)
Lemma records_parsed st dom t seq id rs fields vss rest :
  known dom st id = Some (fields, Data) ->
  256 <= id -> fits_u 16 id -> 0 < min_length fields ->
  vss <> [] -> Forall2 (written fields) rs vss ->
  fits_u 16 (IPFIX_HEADER_SIZE + SET_HEADER_SIZE + zsum record_size rs) ->
  fits_u 32 (timestamp t) -> fits_u 32 seq -> fits_u 32 dom ->
  let s := Set_new id ((fun vs => Data (from_template fields vs)) <$> vss) in
  exists p, parse st (IpfixPacket_encode (mkPacket (mkHeader IPFIX_VERSION 0 t seq dom) [mkSet id 0 (Data <$> rs)])
      ([] : bytes) ++ rest) = (receive dom st s, Ok (rest, p)) /\
    p.(p_header).(h_observation_domain_id) = dom /\ p.(p_sets) = [with_length s].
Proof.
  intros Hk Hid Hid' Hmin Hvs Hw Hsize Ht Hseq Hdom s.
  assert (Hbody : set_body s = concat (record_octets <$> rs)).
  { unfold s. unfold set_body. cbn [set_records Set_new].
    rewrite (set_body_fmap (fun vs => Data (from_template fields vs)) (fun vs => values_octets vs fields)) by done.
    clear -Hw. induction Hw as [|r vs rs vss [E _] _ IH]; [done|]. rewrite !fmap_cons. cbn [concat]. by rewrite IH, E. }
  assert (Eb : set_bytes <$> [mkSet id 0 (Data <$> rs)] = set_bytes <$> [s]).
  { cbn [fmap list_fmap]. f_equal. apply set_bytes_ext; [done|]. by rewrite data_body, Hbody. }
  pose proof (zlen_nonneg (concat (record_octets <$> rs))) as Hpos. rewrite <- Hbody in Hpos.
  rewrite <- zlen_records, <- Hbody in Hsize.
  destruct (packet_parsed st dom t seq [mkSet id 0 (Data <$> rs)] [s] rest) as (p & E & _ & Ed & _ & Ep);
    [exact Eb| |..|done|done|done|].
  - split; [|exact I]. split.
    { unfold fits_u, IPFIX_HEADER_SIZE, SET_HEADER_SIZE in *. lia. }
    do 2 right. split; [done|]. split; [done|]. exists fields, Data, vss. split; [exact Hk|]. split; [done|].
    assert (Hall : Forall (Forall2 field_wf fields) vss) by (clear -Hw; induction Hw as [|r vs' rs vss' [_ H] _ IH]; by constructor).
    destruct vss as [|vs vss]; [done|]. apply Forall_cons in Hall as [H1 Hall].
    split; [by eapply fields_wf_lengths|]. split; [done|]. split; [|by constructor].
    clear -H1. induction H1; constructor; [by eapply field_wf_plain|done].
  - rewrite Eb. cbn [fmap list_fmap concat]. rewrite app_nil_r, set_bytes_size, Z.add_assoc. exact Hsize.
  - by exists p.
Qed.

Lemma message_parsed st e t seq g fields vss rest :
  known e.(args).(observation_domain_id) st g.1 = Some (fields, Data) ->
  256 <= g.1 -> fits_u 16 g.1 -> 0 < min_length fields ->
  vss <> [] -> Forall2 (written fields) g.2 vss ->
  body_size g <= MAX_SET_BODY ->
  fits_u 32 (timestamp t) -> fits_u 32 seq -> fits_u 32 e.(args).(observation_domain_id) ->
  let dom := e.(args).(observation_domain_id) in
  let s := Set_new g.1 ((fun vs => Data (from_template fields vs)) <$> vss) in
  exists p, parse st (message e t seq g ++ rest) = (receive dom st s, Ok (rest, p)) /\
    p.(p_header).(h_observation_domain_id) = dom /\ p.(p_sets) = [with_length s].
Proof.
  intros Hk Hid Hid' Hmin Hvs Hw Hsize. apply records_parsed; try done.
  pose proof (zlen_nonneg (concat (record_octets <$> g.2))) as Hpos. rewrite zlen_records in Hpos.
  unfold body_size, MAX_SET_BODY, MAX_MESSAGE_SIZE, fits_u, IPFIX_HEADER_SIZE, SET_HEADER_SIZE in *. lia.
Qed.
End parsed.

(** ** Flow records *)

(** The fields of a template, as a collector with the default registry
    resolves them. *)
Definition announced (t : TemplateRecord) : list ResolvedField :=
  resolve_fields default_registry default_types 0 t.(t_fields).

Definition ipv4_flow_fields : list ResolvedField := Eval vm_compute in
  announced (flow_template FLOW_IPV4_TEMPLATE_ID [from_ie SourceIpv4Address 4; from_ie DestinationIpv4Address 4]).
Definition ipv6_flow_fields : list ResolvedField := Eval vm_compute in
  announced (flow_template FLOW_IPV6_TEMPLATE_ID [from_ie SourceIpv6Address 16; from_ie DestinationIpv6Address 16]).

Section flows.
Context `{CR : Crates}.

Definition flow_fields (data : FlowData) : list ResolvedField :=
  match data.(fd_source_ip) with V4 _ => ipv4_flow_fields | V6 _ => ipv6_flow_fields end.

(** A time as it is written: in whole milliseconds. *)
Definition to_millis (d : DateTime) : DateTime :=
  default d (from_timestamp_millis (Crates.timestamp_millis d)).

Definition in_millis (data : FlowData) : FlowData := {|
  fd_source_ip := data.(fd_source_ip);
  fd_destination_ip := data.(fd_destination_ip);
  fd_protocol := data.(fd_protocol);
  fd_source_port := data.(fd_source_port);
  fd_destination_port := data.(fd_destination_port);
  fd_octet_count := data.(fd_octet_count);
  fd_packet_count := data.(fd_packet_count);
  fd_tcp_flags := data.(fd_tcp_flags);
  fd_flow_start := to_millis data.(fd_flow_start);
  fd_flow_end := to_millis data.(fd_flow_end);
  fd_flow_end_reason := data.(fd_flow_end_reason);
|}.

Definition same_family (a b : IpAddr) : Prop :=
  match a, b with
  | V4 a, V4 b => fits_u 32 a /\ fits_u 32 b
  | V6 a, V6 b => fits_u 128 a /\ fits_u 128 b
  | _, _ => False
  end.

(** A time since 1970 whose nanoseconds 64 bits can count. *)
Definition time_ok (d : DateTime) : Prop := 0 <= timestamp d < 2 ^ 33.

(** What the types of [FlowData] say, with both addresses of one family and
    times since 1970. *)
Definition flow_ok (data : FlowData) : Prop :=
  same_family data.(fd_source_ip) data.(fd_destination_ip) /\
  fits_u 8 data.(fd_protocol) /\ fits_u 16 data.(fd_source_port) /\ fits_u 16 data.(fd_destination_port) /\
  fits_u 64 data.(fd_octet_count) /\ fits_u 64 data.(fd_packet_count) /\ fits_u 16 data.(fd_tcp_flags) /\
  time_ok data.(fd_flow_start) /\ time_ok data.(fd_flow_end) /\ fits_u 8 data.(fd_flow_end_reason).

Lemma to_millis_spec d :
  time_ok d ->
  Crates.timestamp_millis (to_millis d) = Crates.timestamp_millis d /\
  from_timestamp_millis (Crates.timestamp_millis d) = Some (to_millis d) /\
  fits_u 63 (Crates.timestamp_millis d).
Proof.
  intros [Hl Hh]. pose proof (subsec_nanos_range d) as Hn. unfold to_millis.
  assert (Hm : 0 <= Crates.timestamp_millis d < 2 ^ 33 * 1000 + 2000).
  { rewrite timestamp_millis_law. unfold NANOS in Hn. dlia. }
  set (m := Crates.timestamp_millis d) in *. rewrite !from_timestamp_millis_law.
  destruct (from_timestamp_range (m / 1000) (m mod 1000 * 1000000)) as [d' Hd']; [dlia|unfold NANOS; dlia|].
  rewrite Hd'. cbn [default from_option id]. split_and!; [|done|unfold fits_u; lia].
  apply from_timestamp_law in Hd' as [H1 H2]. rewrite timestamp_millis_law, H1, H2. dlia.
Qed.

Lemma millis_octets d : time_ok d ->
  value_octets (FieldValue.DateTimeMilliseconds (to_millis d)) = value_octets (FieldValue.DateTimeMilliseconds d).
Proof. intros H. destruct (to_millis_spec d H) as [E _]. unfold value_octets. cbn. by rewrite E. Qed.

Lemma natural_millis id s d :
  time_ok d ->
  natural (mkResolved (iana id 8) DataType.DateTimeMilliseconds s) (FieldValue.DateTimeMilliseconds (to_millis d)).
Proof.
  intros H. destruct (to_millis_spec d H) as (E & E' & Hf).
  split; [done|]. split; [by apply (bool_decide_unpack _)|]. split; [reflexivity|].
  cbn [data_type value_fits spec field_length iana]. by rewrite E.
Qed.

#[local] Ltac natural_width :=
  intros ?; split; [done|]; split; [by apply (bool_decide_unpack _)|]; split; [reflexivity|];
  split; [cbn; lia|done].

(** A number, or an address, of its own width. *)
Lemma natural_u8 id s x :
  fits_u 8 x -> natural (mkResolved (iana id 1) DataType.Unsigned s) (FieldValue.Unsigned8 x).
Proof. natural_width. Qed.

Lemma natural_u16 id s x :
  fits_u 16 x -> natural (mkResolved (iana id 2) DataType.Unsigned s) (FieldValue.Unsigned16 x).
Proof. natural_width. Qed.

Lemma natural_u64 id s x :
  fits_u 64 x -> natural (mkResolved (iana id 8) DataType.Unsigned s) (FieldValue.Unsigned64 x).
Proof. natural_width. Qed.

Lemma natural_v4 id s x :
  fits_u 32 x -> natural (mkResolved (iana id 4) DataType.Ipv4Address s) (FieldValue.Ipv4Address x).
Proof. natural_width. Qed.

Lemma natural_v6 id s x :
  fits_u 128 x -> natural (mkResolved (iana id 16) DataType.Ipv6Address s) (FieldValue.Ipv6Address x).
Proof. natural_width. Qed.

Lemma flow_natural data : flow_ok data -> Forall2 natural (flow_fields data) (FlowData_values (in_millis data)).
Proof.
  intros (Ha & H1 & H2 & H3 & H4 & H5 & H6 & H7 & H8 & H9).
  unfold flow_fields, FlowData_values, ip_version.
  destruct data as [src dst ? ? ? ? ? ? ? ? ?]; cbn in *.
  destruct src as [a|a], dst as [b|b]; try done; destruct Ha as [Ha Hb];
    repeat first [apply Forall2_cons; split | apply Forall2_nil_2];
    first [ by apply natural_v4 | by apply natural_v6 | by apply natural_millis | by apply natural_u16
          | by apply natural_u64 | by apply natural_u8 | by apply natural_u8, (bool_decide_unpack _) ].
Qed.

Lemma flow_written data :
  flow_ok data -> written (flow_fields data) (FlowData_to_data_record data) (FlowData_values (in_millis data)).
Proof.
  intros H. pose proof (flow_natural data H) as Hn. split.
  - unfold FlowData_to_data_record. rewrite new_record_octets, (natural_values _ _ Hn).
    destruct H as (_ & _ & _ & _ & _ & _ & _ & H7 & H8 & _). destruct data.
    unfold FlowData_values, in_millis. cbn -[value_octets] in *. by rewrite !millis_octets.
  - eapply Forall2_impl; [exact Hn|]. intros f v Hf. by apply natural_wf.
Qed.
End flows.

(** ** A collector *)

(** Inserting a template into a cache with room, before its next sweep. *)
Lemma insert_room {F} (self : TemplateCache.TemplateCache F) key (fs : list F) now :
  now < TemplateCache.next_sweep self -> TemplateCache.fits self key fs = true ->
  TemplateCache.insert_at self key fs now = TemplateCache.store self key fs now.
Proof.
  intros Hn Hf. rewrite TemplateCache.insert_at_eq. unfold TemplateCache.swept.
  rewrite (proj2 (Z.leb_gt _ _)) by done. by rewrite Hf.
Qed.

Section collector.
Context `{CR : Crates} `{NM : Nom} `{CK : Clock}.

(** The readings of the clock up to [n] span less than a template's lifetime. *)
Definition short (n : nat) : Prop :=
  forall i j, (i <= n)%nat -> (j <= n)%nat -> instant_at j < instant_at i + from_mins 10.

(** The collector has the exporter's flow templates, from one of the first
    [n] readings of its clock. *)
Definition has_template (dom : Z) (n : nat) (self : IpfixParser) (id : Z) (fields : list ResolvedField) : Prop :=
  exists i, (i <= n)%nat /\
    TemplateCache.find self.(templates) (dom, id) = Some (TemplateCache.mkEntry fields (instant_at i)).

Definition has_flow_templates (dom : Z) (n : nat) (self : IpfixParser) : Prop :=
  TemplateCache.timeout self.(templates) = from_mins 10 /\
  has_template dom n self FLOW_IPV4_TEMPLATE_ID ipv4_flow_fields /\
  has_template dom n self FLOW_IPV6_TEMPLATE_ID ipv6_flow_fields.

Lemma find_live dom n self id fields reads :
  TemplateCache.timeout self.(templates) = from_mins 10 -> has_template dom n self id fields ->
  (n <= reads)%nat -> short reads ->
  TemplateCache.get self.(templates) (dom, id) reads = (S reads, Some fields).
Proof.
  intros Ht (i & Hi & Hf) Hn Hs. unfold TemplateCache.get. rewrite Hf, Ht. unfold instant_now.
  cbn [TemplateCache.e_sent_at TemplateCache.e_fields].
  pose proof (Hs i reads ltac:(lia) ltac:(lia)). unfold duration_since.
  rewrite (proj2 (Z.ltb_lt _ _)); [done|]. unfold from_mins, from_secs in *. lia.
Qed.

Lemma fold_left_same {A B C} (f : A -> B -> A) (mk : C -> B) l : forall acc,
  (forall c acc, f acc (mk c) = acc) -> fold_left f (mk <$> l) acc = acc.
Proof. induction l as [|c l IH]; intros acc H; [done|]. cbn. rewrite H. by apply IH. Qed.

(** It decodes the records of either with it, and is left as it was. *)
Lemma flows_received dom n self reads id fields vss :
  TemplateCache.timeout self.(templates) = from_mins 10 -> has_template dom n self id fields ->
  256 <= id -> (n <= reads)%nat -> short reads ->
  known dom (reads, self) id = Some (fields, Data) /\
  receive dom (reads, self) (Set_new id ((fun vs => Data (from_template fields vs)) <$> vss)) = (S reads, self).
Proof.
  intros Ht Hf Hid Hn Hs. pose proof (find_live _ _ _ _ _ _ Ht Hf Hn Hs) as Hg.
  unfold known, receive. cbn [fst snd set_id Set_new set_records]. rewrite Hg. split; [done|].
  rewrite !(proj2 (Z.eqb_neq _ _)) by (unfold IPFIX_TEMPLATE_SET_ID, IPFIX_OPTIONS_TEMPLATE_SET_ID; lia).
  f_equal. unfold learn_element_types.
  rewrite (fold_left_same _ (fun vs => Data (from_template fields vs))) by (by intros ? []). by destruct self.
Qed.

(** The sets of [send_templates], as such a collector reads them. *)
Definition template_sets (sampling : Sampling) : list Set_ :=
  [mkSet IPFIX_TEMPLATE_SET_ID 0 (Template <$> create_templates Mode.Flow);
   mkSet IPFIX_OPTIONS_TEMPLATE_SET_ID 0 [OptionsTemplate (create_options_template sampling)]].

#[local] Ltac computed := apply (bool_decide_unpack _); vm_compute; exact I.

Lemma template_sets_wf dom st sampling : sets_wf dom st (template_sets sampling).
Proof.
  destruct sampling as [interval].
  split; [|split; [|exact I]].
  - split; [computed|]. left. split; [done|].
    exists (create_templates Mode.Flow). split; [done|].
    constructor; [|constructor; [|constructor]];
      (split; [computed|]; split; [computed|]; split; [reflexivity|]; repeat constructor; computed).
  - split; [computed|]. right. left. split; [done|].
    eexists [_]. split; [done|]. constructor; [|constructor].
    split; [computed|]. split; [computed|]. split; [reflexivity|]. split; [repeat constructor; computed|].
    split; [done|computed].
Qed.

Lemma flow_fields_resolved dom :
  resolve_fields default_registry default_types dom
    (t_fields (flow_template FLOW_IPV4_TEMPLATE_ID [from_ie SourceIpv4Address 4; from_ie DestinationIpv4Address 4]))
  = ipv4_flow_fields /\
  resolve_fields default_registry default_types dom
    (t_fields (flow_template FLOW_IPV6_TEMPLATE_ID [from_ie SourceIpv6Address 16; from_ie DestinationIpv6Address 16]))
  = ipv6_flow_fields.
Proof. split; vm_compute; reflexivity. Qed.

Lemma flow_templates_applied dom c reads tmo :
  short (S reads) -> tmo = from_mins 10 ->
  (exists i, (i <= S reads)%nat /\ c = TemplateCache.mkCache ∅ tmo 0 (instant_at i + tmo) None false) ->
  let '(reads', map) := apply_templates default_registry default_types c
    [(FLOW_IPV4_TEMPLATE_ID, t_fields (flow_template FLOW_IPV4_TEMPLATE_ID [from_ie SourceIpv4Address 4; from_ie DestinationIpv4Address 4]));
     (FLOW_IPV6_TEMPLATE_ID, t_fields (flow_template FLOW_IPV6_TEMPLATE_ID [from_ie SourceIpv6Address 16; from_ie DestinationIpv6Address 16]))]
    dom IPFIX_TEMPLATE_SET_ID reads in
  reads' = S (S reads) /\ TemplateCache.timeout map = tmo /\
  TemplateCache.find map (dom, FLOW_IPV4_TEMPLATE_ID) = Some (TemplateCache.mkEntry ipv4_flow_fields (instant_at reads)) /\
  TemplateCache.find map (dom, FLOW_IPV6_TEMPLATE_ID) = Some (TemplateCache.mkEntry ipv6_flow_fields (instant_at (S reads))).
Proof.
  intros Hs Ht (i & Hi & Hc). subst c.
  destruct (apply_templates _ _ _ _ _ _ _) as [reads' map] eqn:E. revert E.
  unfold apply_templates. cbn [fold_left]. cbn [t_fields flow_template TemplateRecord_new app].
  change (IPFIX_VALID_TEMPLATE_ID FLOW_IPV4_TEMPLATE_ID) with true.
  change (IPFIX_VALID_TEMPLATE_ID FLOW_IPV6_TEMPLATE_ID) with true. cbv iota.
  destruct (flow_fields_resolved dom) as [E4 E6]. cbn [t_fields flow_template TemplateRecord_new app] in E4, E6.
  rewrite E4. unfold TemplateCache.insert, instant_now. cbv beta iota. rewrite E6. cbv beta iota.
  pose proof (Hs i reads ltac:(lia) ltac:(lia)). pose proof (Hs i (S reads) ltac:(lia) ltac:(lia)).
  change (IPFIX_VALID_TEMPLATE_ID FLOW_IPV6_TEMPLATE_ID) with true. cbv iota.
  set (c0 := TemplateCache.mkCache _ _ _ _ _ _).
  assert (Hf0 : forall k, TemplateCache.find c0 k = None).
  { intros k. unfold TemplateCache.find, c0. cbn. by rewrite lookup_empty. }
  rewrite (insert_room c0);
    [|cbn; lia|unfold TemplateCache.fits; by rewrite Hf0].
  set (c1 := TemplateCache.store _ _ _ _).
  assert (Hf1 : TemplateCache.find c1 (dom, FLOW_IPV6_TEMPLATE_ID) = None).
  { unfold c1. by rewrite TemplateCache.find_store, decide_False. }
  rewrite insert_room; [| |].
  - intros [<- <-]%pair_equal_spec. split; [done|]. rewrite TemplateCache.timeout_store, !TemplateCache.find_store.
    rewrite decide_False, decide_True by done. split; [by unfold c1; rewrite TemplateCache.timeout_store|].
    split; [|done]. unfold c1. rewrite TemplateCache.find_store. by rewrite decide_True.
  - unfold c1, TemplateCache.store. cbn. rewrite lookup_empty. cbn. rewrite lookup_empty. cbn. lia.
  - unfold TemplateCache.fits. rewrite Hf1. unfold c1. rewrite TemplateCache.fields_store.
    unfold TemplateCache.replaced_len. by rewrite Hf0.
Qed.

Lemma receive_templates dom reads self len ts :
  receive dom (reads, self) (mkSet IPFIX_TEMPLATE_SET_ID len (Template <$> ts))
  = let '(reads, map) := apply_templates self.(ie_registry) self.(element_types) self.(templates)
      ((fun t => (t.(t_template_id), t.(t_fields))) <$> ts) dom IPFIX_TEMPLATE_SET_ID reads in
    (reads, mkParser self.(ie_registry) self.(element_types) map self.(options_templates)).
Proof.
  unfold receive. cbn [set_id set_records]. rewrite Z.eqb_refl.
  by rewrite (omap_fmap_Some _ _ (fun t => (t_template_id t, t_fields t))) by done.
Qed.

Lemma receive_options_templates dom reads self len ts :
  receive dom (reads, self) (mkSet IPFIX_OPTIONS_TEMPLATE_SET_ID len (OptionsTemplate <$> ts))
  = let '(reads, map) := apply_templates self.(ie_registry) self.(element_types) self.(options_templates)
      ((fun t => (t.(o_template_id), t.(o_fields))) <$> ts) dom IPFIX_OPTIONS_TEMPLATE_SET_ID reads in
    (reads, mkParser self.(ie_registry) self.(element_types) self.(templates) map).
Proof.
  unfold receive. cbn [set_id set_records].
  change (IPFIX_OPTIONS_TEMPLATE_SET_ID =? IPFIX_TEMPLATE_SET_ID) with false. rewrite Z.eqb_refl. cbv iota.
  by rewrite (omap_fmap_Some _ _ (fun t => (o_template_id t, o_fields t))) by done.
Qed.

Lemma options_applied registry types c sampling dom reads :
  (apply_templates registry types c
    ((fun t => (t.(o_template_id), t.(o_fields))) <$> [create_options_template sampling])
    dom IPFIX_OPTIONS_TEMPLATE_SET_ID reads).1 = S reads.
Proof. by destruct sampling. Qed.

Lemma templates_received dom sampling reads :
  short (reads + 4) ->
  let st := fold_left (receive dom) (template_sets sampling) (default_parser reads) in
  st.1 = (reads + 5)%nat /\ has_flow_templates dom (reads + 4) st.2.
Proof.
  intros Hs. unfold template_sets. cbn [fold_left].
  change [OptionsTemplate (create_options_template sampling)]
    with (OptionsTemplate <$> [create_options_template sampling]).
  change (default_parser reads) with (S (S reads), mkParser default_registry default_types
    (TemplateCache.mkCache ∅ (from_mins 10) 0 (instant_at reads + from_mins 10) None false)
    (TemplateCache.mkCache ∅ (from_mins 10) 0 (instant_at (S reads) + from_mins 10) None false)).
  set (c0 := TemplateCache.mkCache _ _ _ (instant_at reads + _) _ _).
  assert (Happ := flow_templates_applied dom c0 (S (S reads)) (from_mins 10)).
  rewrite receive_templates. cbn [ie_registry element_types templates].
  change ((fun t => (t_template_id t, t_fields t)) <$> create_templates Mode.Flow) with
    [(FLOW_IPV4_TEMPLATE_ID, t_fields (flow_template FLOW_IPV4_TEMPLATE_ID [from_ie SourceIpv4Address 4; from_ie DestinationIpv4Address 4]));
     (FLOW_IPV6_TEMPLATE_ID, t_fields (flow_template FLOW_IPV6_TEMPLATE_ID [from_ie SourceIpv6Address 16; from_ie DestinationIpv6Address 16]))].
  destruct (apply_templates _ _ c0 _ _ _ _) as [reads' map].
  destruct Happ as (-> & Ht & H4 & H6); [|done|by exists reads; split; [lia|]|].
  { intros i j Hi Hj. apply Hs; lia. }
  rewrite receive_options_templates. cbn [ie_registry element_types templates options_templates].
  pose proof (options_applied default_registry default_types
    (TemplateCache.mkCache ∅ (from_mins 10) 0 (instant_at (S reads) + from_mins 10) None false)
    sampling dom (S (S (S (S reads))))) as Ho.
  destruct (apply_templates _ _ _ _ _ _ _) as [reads' map']. cbn [fst snd] in *. split; [lia|]. split; [done|].
  split; [exists (S (S reads))|exists (S (S (S reads)))]; (split; [lia|]); cbn [templates]; assumption.
Qed.

End collector.

(** ** What the collector makes of a flow record *)

Section conversion.
Context `{CR : Crates} `{EP : Etherparse}.

(** The flow of a collector says what the exporter measured. *)
Definition measured (self : Flow) (flow : CommonFlow) : Prop :=
  cf_flow_type flow = FlowType.Ipfix /\
  cf_src_addr flow = Some self.(key).(source_ip) /\ cf_dst_addr flow = Some self.(key).(destination_ip) /\
  cf_etype flow = Some (if is_ipv4 self.(key).(source_ip) then 0x0800 else 0x86dd) /\
  cf_proto flow = Some self.(key).(protocol) /\
  cf_src_port flow = Some self.(key).(source_port) /\ cf_dst_port flow = Some self.(key).(destination_port) /\
  cf_bytes flow = self.(octet_count) /\ cf_packets flow = self.(packet_count) /\
  cf_tcp_flags flow = Some self.(tcp_flags) /\
  cf_time_flow_start_ns flow = Some (Crates.timestamp_millis self.(flow_start) * 1_000_000) /\
  cf_time_flow_end_ns flow = Some (Crates.timestamp_millis self.(flow_end) * 1_000_000).

Lemma millis_nanos d :
  time_ok d -> timestamp_nanos_opt (to_millis d) = Some (Crates.timestamp_millis d * 1_000_000).
Proof.
  intros H. destruct (to_millis_spec d H) as (E & E' & Hf). rewrite timestamp_nanos_opt_law. cbv zeta.
  rewrite from_timestamp_millis_law in E'. apply from_timestamp_law in E' as [H1 H2]. rewrite H1, H2.
  assert (Hm : 0 <= Crates.timestamp_millis d < 2 ^ 33 * 1000 + 2000).
  { pose proof (subsec_nanos_range d). destruct H. rewrite timestamp_millis_law. unfold NANOS in *. dlia. }
  assert (Ev : Crates.timestamp_millis d / 1000 * NANOS + Crates.timestamp_millis d mod 1000 * 1000000
    = Crates.timestamp_millis d * 1000000) by (unfold NANOS; dlia).
  rewrite Ev, decide_True; [done|]. unfold fits_i. lia.
Qed.

Lemma try_u_fits w x : fits_u w x -> try_u w x = Some x.
Proof. intros H. unfold try_u. by rewrite decide_True. Qed.

Lemma flow_measured ctx self :
  let data := to_flow_data self in
  flow_ok data ->
  measured self (ConvertIpfix.convert ctx
    (from_template (flow_fields data) (FlowData_values (in_millis data))) (FlowData_template_id data)).
Proof.
  intros data (Ha & H1 & H2 & H3 & H4 & H5 & H6 & H7 & H8 & H9).
  pose proof (millis_nanos _ H7) as E7. pose proof (millis_nanos _ H8) as E8.
  apply try_u_fits in H1, H2, H3, H6.
  subst data. destruct self as [[src dst ? ? ?] ? ? ? ? ? ? ? ?]. unfold measured. cbn in *.
  destruct src as [a|a], dst as [b|b]; try done; cbn; split_and!; first [done|eassumption].
Qed.
End conversion.

(** ** A session *)

Section session.
Context `{CR : Crates} `{NM : Nom} `{WL : !Wall} `{SK : Socket} `{EP : Etherparse}.

(** The record of a flow, what a collector reads from those of a batch, and a
    flow whose values are those its types allow. *)
Definition flow_record (self : Flow) : Z * DataRecord.DataRecord FieldSpecifier FieldValue :=
  let data := to_flow_data self in (FlowData_template_id data, FlowData_to_data_record data).

Definition read_values (batch : list Flow) : list (list FieldValue) :=
  (fun self => FlowData_values (in_millis (to_flow_data self))) <$> batch.

Definition flow_sound (self : Flow) : Prop := flow_ok (to_flow_data self).

Definition batch_of (batch : list Flow) (g : group) : Prop :=
  flow_record <$> batch = members g.

Lemma batches_of gs : forall datas : list Flow,
  concat (members <$> gs) = flow_record <$> datas ->
  exists batches, concat batches = datas /\ Forall2 batch_of batches gs.
Proof.
  induction gs as [|g gs IH]; intros datas H; cbn in H.
  { exists []. symmetry in H. apply fmap_nil_inv in H. by subst. }
  symmetry in H. apply fmap_app_inv in H as (l1 & l2 & H1 & H2 & ->).
  destruct (IH l2) as (bs & Hc & Hb); [done|]. exists (l1 :: bs). split; [cbn; by rewrite Hc|by constructor].
Qed.

Lemma template_fields data :
  flow_fields data = if FlowData_template_id data =? FLOW_IPV4_TEMPLATE_ID then ipv4_flow_fields else ipv6_flow_fields.
Proof. unfold flow_fields, FlowData_template_id. by destruct (fd_source_ip data). Qed.

Lemma batch_id batch g data : batch_of batch g -> data ∈ batch -> FlowData_template_id (to_flow_data data) = g.1.
Proof.
  intros Hb Hd. apply (list_elem_of_fmap_2 flow_record) in Hd. rewrite Hb in Hd.
  apply list_elem_of_fmap in Hd as (r & E & _). by injection E.
Qed.

Lemma batch_written batch g :
  batch_of batch g -> Forall flow_sound batch ->
  Forall2 (written (if g.1 =? FLOW_IPV4_TEMPLATE_ID then ipv4_flow_fields else ipv6_flow_fields)) g.2 (read_values batch).
Proof.
  intros Hb Hok. assert (Hid := fun data => batch_id batch g data Hb).
  assert (E : g.2 = (fun self => FlowData_to_data_record (to_flow_data self)) <$> batch).
  { assert (H : (flow_record <$> batch).*2 = (members g).*2) by (by rewrite Hb).
    unfold members in H. rewrite <- !list_fmap_compose in H. cbn in H. by rewrite list_fmap_id in H. }
  rewrite E. clear E Hb. unfold read_values. induction Hok as [|data batch Hd _ IH]; [constructor|].
  rewrite !fmap_cons. constructor; [|apply IH; intros; apply Hid; by right].
  rewrite <- (Hid data) by left. rewrite <- template_fields. by apply flow_written.
Qed.

Lemma fits_within g M :
  fits g -> M <= MAX_SET_BODY -> Forall (fun r => record_size r <= M) g.2 -> body_size g <= MAX_SET_BODY.
Proof.
  intros [_ [H|H]] HM Hf; [done|]. apply zlen_1 in H as [r E]. unfold body_size. rewrite E in *.
  apply Forall_cons in Hf as [Hr _]. cbn. lia.
Qed.

(** Whatever the collector knows of the exporter besides its templates. *)
Context (sampler_address : option IpAddr) (sampling_rate system_init_time_ms : option Z).

(** The flows of a parsed message. *)
Definition flows_in (p : IpfixPacket) : list CommonFlow :=
  p.(p_sets) ≫= fun s => omap (fun r =>
    match r with
    | Data r =>
        Some (ConvertIpfix.convert
          (ConvertIpfix.mkContext p.(p_header) sampler_address sampling_rate system_init_time_ms) r s.(set_id))
    | _ => None
    end) s.(set_records).

(** The flows of the datagrams a collector receives in turn. *)
Fixpoint collect `{CK : Clock} (st : nat * IpfixParser) (ds : list bytes) : list CommonFlow :=
  match ds with
  | [] => []
  | d :: ds =>
      let '(st, result) := parse st d in
      (match result with Ok (_, p) => flows_in p | Err _ => [] end) ++ collect st ds
  end.

(** A collector with the templates reads a batch from its message. *)
Lemma batch_read `{CK : Clock} e t seq g batch n reads self rest :
  let dom := e.(args).(observation_domain_id) in
  has_flow_templates dom n self -> (n <= reads)%nat -> short reads ->
  batch_of batch g -> Forall flow_sound batch -> fits g ->
  fits_u 32 (timestamp t) -> fits_u 32 seq -> fits_u 32 dom ->
  exists p, parse (reads, self) (message e t seq g ++ rest) = ((S reads, self), Ok (rest, p)) /\
    Forall2 measured batch (flows_in p) /\
    Forall (fun flow => cf_observation_domain_id flow = Some dom) (flows_in p).
Proof.
  intros dom (Ht & H4 & H6) Hn Hs Hb Hok Hf Htime Hseq Hdom.
  pose proof (batch_written _ _ Hb Hok) as Hw.
  set (fields := if g.1 =? FLOW_IPV4_TEMPLATE_ID then _ else _) in Hw.
  assert (Hbatch : batch <> []).
  { intros ->. destruct Hf as [Hne _]. unfold batch_of, members in Hb. cbn in Hb.
    symmetry in Hb. by apply fmap_nil_inv in Hb. }
  assert (Hhas : has_template dom n self g.1 fields /\ 256 <= g.1 /\ fits_u 16 g.1 /\ 0 < min_length fields).
  { destruct batch as [|data batch]; [done|]. pose proof (batch_id _ _ data Hb ltac:(left)) as Hid.
    unfold fields. rewrite <- Hid. unfold FlowData_template_id.
    by destruct (fd_source_ip (to_flow_data data)); (split; [done|]); (split; [by apply (bool_decide_unpack _)|]);
      (split; [by apply (bool_decide_unpack _)|by apply (bool_decide_unpack _)]). }
  destruct Hhas as (Hhas & Hid & Hid' & Hmin).
  destruct (flows_received dom n self reads g.1 fields (read_values batch) Ht Hhas Hid Hn Hs) as [Hk Hr].
  destruct (message_parsed (reads, self) e t seq g fields (read_values batch) rest) as (p & E & Ed & Ep); try done.
  - intros H. by apply fmap_nil_inv in H.
  - apply (fits_within _ 73); [done|unfold MAX_SET_BODY, MAX_MESSAGE_SIZE, IPFIX_HEADER_SIZE, SET_HEADER_SIZE; lia|].
    assert (E : (flow_record <$> batch).*2 = (members g).*2) by (by rewrite Hb).
    unfold members in E. rewrite <- !list_fmap_compose in E. cbn in E. rewrite list_fmap_id in E. rewrite <- E.
    apply Forall_fmap, Forall_forall. intros data _. apply flow_record_size.
  - exists p. unfold dom in Hr. rewrite E, Hr. split; [done|].
    set (ctx := ConvertIpfix.mkContext p.(p_header) sampler_address sampling_rate system_init_time_ms).
    assert (Ef : flows_in p = (fun self => let data := to_flow_data self in ConvertIpfix.convert ctx
      (from_template (flow_fields data) (FlowData_values (in_millis data))) (FlowData_template_id data)) <$> batch).
    { unfold flows_in. rewrite Ep. cbn [mbind list_bind with_length set_records set_id Set_new]. rewrite app_nil_r.
      unfold read_values. rewrite <- list_fmap_compose.
      rewrite (omap_fmap_Some _ _ (fun data => ConvertIpfix.convert ctx
        (from_template fields (FlowData_values (in_millis (to_flow_data data)))) g.1)) by done.
      apply list_fmap_ext. intros k data Hk'. apply list_elem_of_lookup_2 in Hk'.
      unfold fields. cbv zeta. by rewrite template_fields, (batch_id batch g data). }
    rewrite Ef. split.
    + apply Forall2_fmap_r, Forall_Forall2_diag. eapply Forall_impl; [exact Hok|]. intros data Hd. by apply flow_measured.
    + apply Forall_fmap, Forall_forall. intros data _. unfold compose.
      destruct (ConvertIpfix.ipfix_flow_origin ctx (from_template (flow_fields (to_flow_data data))
        (FlowData_values (in_millis (to_flow_data data)))) (FlowData_template_id (to_flow_data data))) as (_ & _ & _ & Eo & _). rewrite Eo. cbn. by rewrite Ed.
Qed.

(** Messages in whatever order, lost or repeated. *)
Lemma collect_batches `{CK : Clock} {A} (R : A -> CommonFlow -> Prop) dom n self ds (batches : list (list A)) ks : forall reads,
  (forall k d batch reads, ds !! k = Some d -> batches !! k = Some batch -> (n <= reads)%nat -> short reads ->
     exists p, parse (reads, self) d = ((S reads, self), Ok ([], p)) /\
       Forall2 R batch (flows_in p) /\
       Forall (fun flow => cf_observation_domain_id flow = Some dom) (flows_in p)) ->
  length ds = length batches ->
  (n <= reads)%nat -> short (reads + length ks) ->
  let flows := collect (reads, self) (omap (fun k => ds !! k) ks) in
  Forall2 R (concat (omap (fun k => batches !! k) ks)) flows /\
  Forall (fun flow => cf_observation_domain_id flow = Some dom) flows.
Proof.
  intros reads Hread Hl. revert reads. induction ks as [|k ks IH]; intros reads Hn Hs; [done|].
  cbn [omap list_omap]. destruct (ds !! k) as [d|] eqn:Ed, (batches !! k) as [batch|] eqn:Eb.
  - destruct (Hread k d batch reads) as (p & E & Em & Eo); [done|done|done|intros i j ??; apply Hs; lia|].
    cbn [collect]. rewrite E. cbn [concat].
    destruct (IH (S reads)) as [IH1 IH2]; [lia|intros i j ??; apply Hs; cbn; lia|].
    split; [by apply Forall2_app|by apply Forall_app].
  - apply lookup_lt_Some in Ed. apply lookup_ge_None in Eb. lia.
  - apply lookup_lt_Some in Eb. apply lookup_ge_None in Ed. lia.
  - apply IH; [lia|]. intros i j ??. apply Hs; cbn; lia.
Qed.

Lemma Forall_bool_filter {A} (P : A -> Prop) (p : A -> bool) l : Forall P l -> Forall P (List.filter p l).
Proof. induction 1 as [|x l Hx _ IH]; [constructor|]. cbn. destruct (p x); [by constructor|done]. Qed.

(** The flows of one address family and then of the other. *)
Definition by_family (flows : list Flow) : list Flow :=
  List.filter (fun self => is_ipv4 self.(key).(source_ip)) flows ++
  List.filter (fun self => negb (is_ipv4 self.(key).(source_ip))) flows.

Lemma filter_fmap {A B} (f : A -> B) (p : B -> bool) l :
  List.filter p (f <$> l) = f <$> List.filter (fun x => p (f x)) l.
Proof. induction l as [|x l IH]; [done|]. cbn. destruct (p (f x)); cbn; by rewrite <- IH. Qed.

Lemma send_flows_eq st flows :
  send st (Records.Flows flows) = send_records st (flow_record <$> by_family flows).
Proof.
  destruct flows as [|flow flows]; [done|]. unfold send, send_flows.
  rewrite List.partition_as_filter, !filter_fmap, <- fmap_app, <- list_fmap_compose. done.
Qed.

Lemma send_templates_eq `{CK : Clock} w e :
  e.(args).(mode) = Mode.Flow ->
  exists reads e',
    (send_templates (w, e)).1
    = (mkWorld reads (S w.(wall_reads)) (w.(datagrams) ++
         [IpfixPacket_encode (mkPacket (mkHeader IPFIX_VERSION 0 (utc_at w.(wall_reads)) e.(sequence_number)
            e.(args).(observation_domain_id)) (template_sets (sampling e.(args)))) []]), e') /\
    e'.(args) = e.(args) /\ e'.(sequence_number) = e.(sequence_number).
Proof.
  intros Hm. unfold send_templates, send_sets. cbn [fst snd utc_now]. rewrite Hm. unfold send_to.
  destruct (send_outcome _ _); eauto.
Qed.

Lemma announcement_read `{CK : Clock} reads t seq dom sampling :
  short (reads + 4) -> fits_u 32 (timestamp t) -> fits_u 32 seq -> fits_u 32 dom ->
  exists self p,
    parse (default_parser reads)
      (IpfixPacket_encode (mkPacket (mkHeader IPFIX_VERSION 0 t seq dom) (template_sets sampling)) [])
    = ((reads + 5)%nat, self, Ok ([], p)) /\ has_flow_templates dom (reads + 4) self /\ flows_in p = [].
Proof.
  intros Hs Ht Hseq Hd.
  destruct (packet_parsed (default_parser reads) dom t seq (template_sets sampling) (template_sets sampling) [])
    as (p & E & _ & _ & _ & Ep); [done|apply template_sets_wf| |done|done|done|].
  { destruct sampling. by apply (bool_decide_unpack _); vm_compute. }
  destruct (templates_received dom sampling reads Hs) as [Hr Hf].
  rewrite app_nil_r in E. destruct (fold_left _ _ _) as [reads' self]. cbn [fst snd] in *. subst reads'.
  exists self, p. split; [exact E|]. split; [done|]. unfold flows_in. by rewrite Ep.
Qed.

(** C1: What a flow exporter announces and sends, a collector that starts with
    the announcement turns into flows of its own: whichever data messages reach
    it within ten minutes, in whatever order and however often, each becomes
    flows with the addresses, ports, counters, flags and times, in whole
    milliseconds, that were measured; and the messages together hold the flows
    sent, IPv4 before IPv6. *)
Theorem flows_reach_collector `{CK : Clock} w e flows :
  e.(args).(mode) = Mode.Flow ->
  fits_u 32 e.(sequence_number) -> fits_u 32 e.(args).(observation_domain_id) ->
  (forall n, fits_u 32 (timestamp (utc_at n))) ->
  Forall flow_sound flows ->
  exists announcement ds batches,
    (send (send_templates (w, e)).1 (Records.Flows flows)).1.1.(datagrams)
    = w.(datagrams) ++ announcement :: ds /\
    length ds = length batches /\ concat batches = by_family flows /\
    forall (collector : Clock) reads ks,
      short (CK := collector) (reads + 5 + length ks) ->
      let received := collect (CK := collector) (default_parser reads) (announcement :: omap (fun k => ds !! k) ks) in
      Forall2 measured (concat (omap (fun k => batches !! k) ks)) received /\
      Forall (fun flow => cf_observation_domain_id flow = Some e.(args).(observation_domain_id)) received.
Proof.
  intros Hm Hseq Hdom Htime Hok.
  destruct (send_templates_eq w e Hm) as (r & e' & E & Ha & Hs). rewrite E. set (w' := mkWorld _ _ _).
  rewrite send_flows_eq. set (datas := by_family _).
  assert (Hdatas : Forall flow_sound datas).
  { apply Forall_app. by split; apply Forall_bool_filter. }
  destruct (send_records_groups (w', e') (flow_record <$> datas)) as (gs & (Hc & Hf & _) & Es).
  destruct (send_messages_spec gs w' e') as (ds & Hl & Em & Hd); [by rewrite Hs|].
  destruct (batches_of gs datas Hc) as (batches & Hb & Hbg). pose proof (Forall2_length _ _ _ Hbg) as Hlb.
  eexists _, ds, batches. rewrite Es, Em. cbn [fst snd after datagrams w']. rewrite <- app_assoc.
  split; [reflexivity|]. split; [lia|]. split; [done|]. intros collector reads ks Hshort.
  destruct (announcement_read (CK := collector) reads (utc_at (wall_reads w)) (sequence_number e)
    (observation_domain_id (args e)) (sampling (args e))) as (self & p & Ea & Hhas & Ep);
    [intros i j ??; apply Hshort; lia|done..|].
  cbn [collect]. rewrite Ea, Ep. cbn [app].
  eapply (collect_batches measured (observation_domain_id (args e)) (reads + 4)); [|lia|lia|done].
  intros k d batch rs Ed Eb Hn Hsh.
  destruct (Forall2_lookup_l _ _ _ _ _ Hbg Eb) as (g & Eg & Hbatch).
  rewrite (Hd k g Eg) in Ed. injection Ed as <-.
  assert (Hokb : Forall flow_sound batch).
  { rewrite <- Hb in Hdatas. apply Forall_concat in Hdatas. by eapply Forall_lookup_1. }
  destruct (batch_read (CK := collector) e' (utc_at (wall_reads w' + k))
    (wrap 32 (sequence_number e' + accepted (take k gs) (outcomes (length (datagrams w')) ds))) g batch
    (reads + 4) rs self []) as (q & Eq & Er & Eo); try done;
    [by rewrite Ha|by eapply Forall_lookup_1|apply wrap_range; lia|by rewrite Ha|].
  exists q. rewrite app_nil_r in Eq. rewrite Ha in Eo. by split.
Qed.
End session.

Section samples.
#[local] Instance sample_nom : Nom := nom_std.
#[local] Instance sample_crates : Crates := crates_std.
#[local] Instance sample_etherparse : Etherparse := Packet.mini.
#[local] Instance sample_clock : Clock := fun n => 1000 * Z.of_nat n.
#[local] Instance sample_wall : Wall := fun n => IpfixEncoder.sample_time.
#[local] Instance sample_socket : Socket := {| SendError := unit; send_outcome n d := None |}.

Definition sample_exporter : Exporter :=
  mkExporter (mkSocketAddr (V4 1) 4739) (mkArgs Mode.Flow 128 1 60 15 16 300 1) 0 0.

Definition sample_flow (source destination : IpAddr) : Flow :=
  mkFlow (mkKey source destination 17 1000 53) 150 2 0 IpfixEncoder.sample_time IpfixEncoder.sample_time 0 0
    (Some FlowEndReason.IdleTimeout).

Definition sample_flows : list Flow := [sample_flow (V6 1) (V6 2); sample_flow (V4 1) (V4 2)].

Lemma sample_short n : Z.of_nat n < 600_000 -> short n.
Proof. intros Hn i j Hi Hj. unfold instant_at, sample_clock, from_mins, from_secs. lia. Qed.

(** The data messages arrive in the other order. *)
Lemma flows_reach_collector_witness :
  exists announcement ds batches,
    (send (send_templates (mkWorld 0 0 [], sample_exporter)).1 (Records.Flows sample_flows)).1.1.(datagrams)
    = announcement :: ds /\
    concat batches = [sample_flow (V4 1) (V4 2); sample_flow (V6 1) (V6 2)] /\
    Forall2 measured (concat (omap (fun k => batches !! k) [1; 0]%nat))
      (collect None None None (default_parser 0) (announcement :: omap (fun k => ds !! k) [1; 0]%nat)).
Proof.
  assert (Hok : Forall flow_sound sample_flows).
  { repeat constructor; by apply (bool_decide_unpack _); vm_compute. }
  destruct (flows_reach_collector None None None (mkWorld 0 0 []) sample_exporter sample_flows)
    as (a & ds & bs & E & _ & Hb & Hc);
    [done|by apply (bool_decide_unpack _)|by apply (bool_decide_unpack _)
    |by intros n; apply (bool_decide_unpack _)|exact Hok|].
  exists a, ds, bs. split; [exact E|]. split; [exact Hb|].
  apply (Hc sample_clock 0%nat [1; 0]%nat), sample_short. cbn. lia.
Defined.
End samples.
