(* ===== verification/Calendar.v ===== *)
(** Calendar times in UTC: what the chrono crate's [Datelike], [Timelike],
    [TimeZone], [format] and [NaiveDateTime::parse_from_str] do, as an
    interface over [Crates], with an instance.

    The calendar is the proleptic Gregorian one; [strftime] says what the
    format specifiers used by the source mean for years of four digits. *)

From Stdlib Require Import ZArith Lia Strings.Byte Bool.
From stdpp Require Import base tactics numbers list.
From S2P Require Import Prelude Std Crates.
#[local] Open Scope Z_scope.

Record Civil := mkCivil {
  c_year : Z; c_month : Z; c_day : Z; c_hour : Z; c_minute : Z; c_second : Z }.

Definition leap (y : Z) : bool := (y mod 4 =? 0) && (negb (y mod 100 =? 0) || (y mod 400 =? 0)).

Definition days_in_month (y m : Z) : Z :=
  if m =? 2 then if leap y then 29 else 28
  else if (m =? 4) || (m =? 6) || (m =? 9) || (m =? 11) then 30 else 31.

Definition valid (c : Civil) : bool :=
  let '(mkCivil y m d h mi s) := c in
  (1 <=? m) && (m <=? 12) && (1 <=? d) && (d <=? days_in_month y m) &&
  (0 <=? h) && (h <? 24) && (0 <=? mi) && (mi <? 60) && (0 <=? s) && (s <? 60).

(** Days from 1970 to the start of a year, and from there to a month's. *)
Definition days_before_year (y : Z) : Z :=
  365 * (y - 1970) + ((y - 1) / 4 - (y - 1) / 100 + (y - 1) / 400) - 477.

Definition days_before_month (y m : Z) : Z :=
  let l := if leap y then 1 else 0 in
  if m <=? 1 then 0 else if m =? 2 then 31 else if m =? 3 then 59 + l else if m =? 4 then 90 + l
  else if m =? 5 then 120 + l else if m =? 6 then 151 + l else if m =? 7 then 181 + l
  else if m =? 8 then 212 + l else if m =? 9 then 243 + l else if m =? 10 then 273 + l
  else if m =? 11 then 304 + l else 334 + l.

Definition days_of (c : Civil) : Z :=
  days_before_year c.(c_year) + days_before_month c.(c_year) c.(c_month) + c.(c_day) - 1.

Definition unix_time (c : Civil) : Z :=
  days_of c * 86400 + c.(c_hour) * 3600 + c.(c_minute) * 60 + c.(c_second).

(** [n] in decimal, in exactly [w] digits. *)
Definition digit (d : Z) : byte := byte_of (48 + d).

Fixpoint digits (w : nat) (n : Z) : bytes :=
  match w with O => [] | S w => digits w (n / 10) ++ [digit (n mod 10)] end.

(** The specifiers the source uses; [None] for any other. *)
Fixpoint strftime (fmt : bytes) (c : Civil) : option bytes :=
  match fmt with
  | [] => Some []
  | x25 :: code :: fmt =>
      field ← match code with
        | x59 => Some (digits 4 c.(c_year))
        | x6d => Some (digits 2 c.(c_month))
        | x64 => Some (digits 2 c.(c_day))
        | x48 => Some (digits 2 c.(c_hour))
        | x4d => Some (digits 2 c.(c_minute))
        | x53 => Some (digits 2 c.(c_second))
        | _ => None
        end;
      rest ← strftime fmt c; Some (field ++ rest)
  | [x25] => None
  | b :: fmt => rest ← strftime fmt c; Some (b :: rest)
  end.

Definition four_digits (c : Civil) : Prop := 0 <= c.(c_year) <= 9999.

Definition set_year (c : Civil) (y : Z) : Civil :=
  mkCivil y c.(c_month) c.(c_day) c.(c_hour) c.(c_minute) c.(c_second).
Definition set_month (c : Civil) (m : Z) : Civil :=
  mkCivil c.(c_year) m c.(c_day) c.(c_hour) c.(c_minute) c.(c_second).

Class Calendar `{CR : Crates} := {
  civil : DateTime -> Civil;
  (* [Utc.with_ymd_and_hms(..).single()] *)
  with_ymd_and_hms : Z -> Z -> Z -> Z -> Z -> Z -> option DateTime;
  with_year : DateTime -> Z -> option DateTime;
  with_month : DateTime -> Z -> option DateTime;
  (* [+] of a [TimeDelta] of so many seconds, which panics past the calendar *)
  add_seconds : DateTime -> Z -> DateTime;
  format : bytes -> DateTime -> bytes;
  (* [NaiveDateTime::parse_from_str(..).ok()?.and_utc()] *)
  parse_from_str : bytes -> bytes -> option DateTime;

  civil_law : forall d, valid (civil d) = true /\ unix_time (civil d) = timestamp d;
  with_ymd_and_hms_law : forall y m d h mi s,
    let c := mkCivil y m d h mi s in
    - 262_000 <= y <= 262_000 ->
    if valid c then exists t, with_ymd_and_hms y m d h mi s = Some t /\ timestamp t = unix_time c /\
      timestamp_subsec_nanos t = 0
    else with_ymd_and_hms y m d h mi s = None;
  with_year_law : forall d y,
    - 262_000 <= y <= 262_000 ->
    if valid (set_year (civil d) y) then exists t, with_year d y = Some t /\ civil t = set_year (civil d) y
    else with_year d y = None;
  with_month_law : forall d m,
    - 262_000 <= c_year (civil d) <= 262_000 ->
    if valid (set_month (civil d) m) then exists t, with_month d m = Some t /\ civil t = set_month (civil d) m
    else with_month d m = None;
  add_seconds_law : forall d s,
    - 2 ^ 40 <= timestamp d + s <= 2 ^ 40 -> timestamp_subsec_nanos d = 0 ->
    timestamp (add_seconds d s) = timestamp d + s;
  format_law : forall fmt d s,
    four_digits (civil d) -> strftime fmt (civil d) = Some s -> format fmt d = s;
  (* a format with all six specifiers, the year first *)
  parse_from_str_law : forall c s,
    four_digits c -> valid c = true -> strftime (str "%Y%m%dT%H%M%SZ") c = Some s ->
    parse_from_str s (str "%Y%m%dT%H%M%SZ") = from_timestamp (unix_time c) 0;
}.

(** ** The calendar *)

Lemma valid_spec c : valid c = true <->
  1 <= c.(c_month) <= 12 /\ 1 <= c.(c_day) <= days_in_month c.(c_year) c.(c_month) /\
  0 <= c.(c_hour) < 24 /\ 0 <= c.(c_minute) < 60 /\ 0 <= c.(c_second) < 60.
Proof. destruct c. unfold valid. cbn. rewrite !andb_true_iff. lia. Qed.

Lemma leap_year y : days_before_year (y + 1) = days_before_year y + if leap y then 366 else 365.
Proof. unfold days_before_year, leap. destruct (Z.eqb_spec (y mod 4) 0), (Z.eqb_spec (y mod 100) 0), (Z.eqb_spec (y mod 400) 0); cbn; dlia. Qed.

Lemma year_monotone y y' : y <= y' -> days_before_year y + 365 * (y' - y) <= days_before_year y'.
Proof.
  intros H. replace y' with (y + Z.of_nat (Z.to_nat (y' - y))) by lia.
  induction (Z.to_nat (y' - y)) as [|n IH]; [rewrite Z.add_0_r; lia|].
  rewrite Nat2Z.inj_succ, <- Z.add_1_r, Z.add_assoc, leap_year. destruct (leap _); lia.
Qed.

(** One goal for each month. *)
Ltac each_month m :=
  assert (m = 1 \/ m = 2 \/ m = 3 \/ m = 4 \/ m = 5 \/ m = 6 \/ m = 7 \/ m = 8 \/ m = 9 \/
    m = 10 \/ m = 11 \/ m = 12) as Heach by lia;
  repeat destruct Heach as [->|Heach]; [..|rewrite Heach in *].

Lemma month_end y m : 1 <= m <= 12 ->
  days_before_month y m + days_in_month y m = if m =? 12 then (if leap y then 366 else 365) else days_before_month y (m + 1).
Proof.
  intros H. unfold days_before_month, days_in_month. generalize (leap y). intros l. each_month m; by destruct l.
Qed.

Lemma month_bounds y m : 1 <= m <= 12 ->
  0 <= days_before_month y m /\ days_before_month y m + days_in_month y m <= (if leap y then 366 else 365) /\
  28 <= days_in_month y m.
Proof.
  intros H. unfold days_before_month, days_in_month. generalize (leap y). intros l.
  each_month m; destruct l; cbn; lia.
Qed.

Lemma month_monotone y m m' : 1 <= m -> m < m' -> m' <= 12 ->
  days_before_month y m + days_in_month y m <= days_before_month y m'.
Proof.
  intros H1 H2 H3. replace m' with (m + 1 + Z.of_nat (Z.to_nat (m' - m - 1))) in * by lia.
  induction (Z.to_nat (m' - m - 1)) as [|n IH].
  - rewrite Z.add_0_r, month_end by lia. destruct (Z.eqb_spec m 12); lia.
  - specialize (IH ltac:(lia) ltac:(lia)).
    pose proof (month_end y (m + 1 + Z.of_nat n) ltac:(lia)) as E.
    pose proof (month_bounds y (m + 1 + Z.of_nat n) ltac:(lia)) as (_ & _ & H).
    destruct (Z.eqb_spec (m + 1 + Z.of_nat n) 12); [lia|].
    replace (m + 1 + Z.of_nat n + 1) with (m + 1 + Z.of_nat (S n)) in E by lia. lia.
Qed.

(** The days of a valid date lie in its year and month. *)
Lemma days_in_year c : valid c = true ->
  days_before_year c.(c_year) <= days_of c < days_before_year (c.(c_year) + 1).
Proof.
  intros (Hm & Hd & _)%valid_spec. pose proof (month_bounds c.(c_year) c.(c_month) Hm) as (H1 & H2 & _).
  rewrite leap_year. unfold days_of. lia.
Qed.

Lemma time_of_day c : valid c = true -> days_of c * 86400 <= unix_time c < (days_of c + 1) * 86400.
Proof. intros (_ & _ & H)%valid_spec. unfold unix_time. lia. Qed.

Lemma days_in_month_max y m : days_in_month y m <= 31.
Proof. unfold days_in_month. destruct (m =? 2), ((m =? 4) || (m =? 6) || (m =? 9) || (m =? 11)), (leap y); lia. Qed.

(** A time has one date. *)
Lemma unix_time_inj c c' : valid c = true -> valid c' = true -> unix_time c = unix_time c' -> c = c'.
Proof.
  intros Hc Hc' E. pose proof (time_of_day c Hc). pose proof (time_of_day c' Hc').
  assert (Ed : days_of c = days_of c') by lia.
  pose proof (days_in_year c Hc) as Hy. pose proof (days_in_year c' Hc') as Hy'.
  assert (Ey : c.(c_year) = c'.(c_year)).
  { destruct (Z.lt_trichotomy c.(c_year) c'.(c_year)) as [H1|[H1|H1]]; [|done|].
    - pose proof (year_monotone (c.(c_year) + 1) c'.(c_year) ltac:(lia)). lia.
    - pose proof (year_monotone (c'.(c_year) + 1) c.(c_year) ltac:(lia)). lia. }
  apply valid_spec in Hc, Hc'. destruct Hc as (Hm & Hd & Ht), Hc' as (Hm' & Hd' & Ht').
  destruct c as [y m d h mi s], c' as [y' m' d' h' mi' s']. unfold days_of, unix_time in *.
  cbn in *. subst y'.
  assert (Em : m = m').
  { destruct (Z.lt_trichotomy m m') as [H1|[H1|H1]]; [|done|].
    - pose proof (month_monotone y m m' ltac:(lia) H1 ltac:(lia)). lia.
    - pose proof (month_monotone y m' m ltac:(lia) H1 ltac:(lia)). lia. }
  subst m'. assert (d = d') by lia. subst d'. assert (Eh : h = h') by lia. subst h'.
  assert (Emi : mi = mi') by lia. subst mi'. f_equal. lia.
Qed.

(** ** What a year, month, day, hour or bucket spans *)

Lemma midnight y m d :
  unix_time (mkCivil y m d 0 0 0) = (days_before_year y + days_before_month y m + d - 1) * 86400.
Proof. unfold unix_time, days_of. cbn [c_year c_month c_day c_hour c_minute c_second]. lia. Qed.

Lemma in_year c : valid c = true ->
  unix_time (mkCivil c.(c_year) 1 1 0 0 0) <= unix_time c < unix_time (mkCivil (c.(c_year) + 1) 1 1 0 0 0).
Proof.
  intros H. pose proof (days_in_year c H). pose proof (time_of_day c H).
  rewrite !midnight. change (days_before_month _ 1) with 0. lia.
Qed.

Lemma in_month c : valid c = true ->
  unix_time (mkCivil c.(c_year) c.(c_month) 1 0 0 0) <= unix_time c <
  unix_time (if c.(c_month) =? 12 then mkCivil (c.(c_year) + 1) 1 1 0 0 0
             else mkCivil c.(c_year) (c.(c_month) + 1) 1 0 0 0).
Proof.
  intros H. pose proof (time_of_day c H) as Ht. pose proof (in_year c H) as Hy.
  apply valid_spec in H as (Hm & Hd & _). pose proof (month_end c.(c_year) c.(c_month) Hm) as E.
  rewrite midnight. unfold days_of in Ht.
  destruct (Z.eqb_spec (c_month c) 12); [lia|]. rewrite midnight. lia.
Qed.

Lemma in_day c : valid c = true ->
  let start := unix_time (mkCivil c.(c_year) c.(c_month) c.(c_day) 0 0 0) in
  start <= unix_time c < start + 86400.
Proof. intros H. pose proof (time_of_day c H) as Ht. unfold unix_time, days_of in *. cbn in *. lia. Qed.

Lemma in_hour c : valid c = true ->
  let start := unix_time (mkCivil c.(c_year) c.(c_month) c.(c_day) c.(c_hour) 0 0) in
  start <= unix_time c < start + 3600.
Proof. intros (_ & _ & H)%valid_spec. unfold unix_time, days_of. cbn. lia. Qed.

Lemma in_bucket c k : valid c = true -> 0 < k ->
  let start := unix_time (mkCivil c.(c_year) c.(c_month) c.(c_day) c.(c_hour) (c.(c_minute) / k * k) 0) in
  start <= unix_time c < start + k * 60.
Proof.
  intros (_ & _ & H)%valid_spec Hk. unfold unix_time, days_of. cbn.
  pose proof (Z.mul_div_le c.(c_minute) k Hk). pose proof (Z.mul_succ_div_gt c.(c_minute) k Hk). lia.
Qed.

(** Every time of a year of four digits. *)
Lemma four_digits_range c : valid c = true -> four_digits c -> - 2 ^ 37 <= unix_time c <= 2 ^ 38.
Proof.
  intros H Hy. pose proof (days_in_year c H). pose proof (time_of_day c H).
  pose proof (year_monotone 0 c.(c_year) ltac:(unfold four_digits in Hy; lia)).
  pose proof (year_monotone (c.(c_year) + 1) 10000 ltac:(unfold four_digits in Hy; lia)).
  assert (E0 : days_before_year 0 = -719528) by reflexivity. assert (E1 : days_before_year 10000 = 2932897) by reflexivity.
  unfold four_digits in Hy. lia.
Qed.

(** ** Decimal digits *)

Definition is_digit (b : byte) : bool := (48 <=? u8_of b) && (u8_of b <=? 57).

(** The number digits stand for. *)
Definition value_of (s : bytes) : Z := fold_left (fun acc b => acc * 10 + (u8_of b - 48)) s 0.

Lemma u8_of_digit d : 0 <= d < 10 -> u8_of (digit d) = 48 + d.
Proof. intros H. unfold digit. rewrite u8_of_byte_of. apply Z.mod_small. lia. Qed.

Lemma is_digit_digit d : 0 <= d < 10 -> is_digit (digit d) = true.
Proof. intros H. unfold is_digit. rewrite u8_of_digit by done. lia. Qed.

Lemma length_digits w : forall n, length (digits w n) = w.
Proof. induction w as [|w IH]; intros n; [done|]. cbn. rewrite length_app, IH. cbn. lia. Qed.

Lemma digits_all w : forall n, forallb is_digit (digits w n) = true.
Proof.
  induction w as [|w IH]; intros n; [done|]. cbn [digits]. rewrite forallb_app, IH. cbn.
  rewrite is_digit_digit; [done|]. apply Z.mod_pos_bound. lia.
Qed.

Lemma value_of_app s s' : value_of (s ++ s') = value_of s * 10 ^ zlen s' + value_of s'.
Proof.
  unfold value_of. rewrite fold_left_app. generalize (fold_left (fun acc b => acc * 10 + (u8_of b - 48)) s 0).
  induction s' as [|b s' IH] using rev_ind; intros a; [change (10 ^ zlen []) with 1; cbn; lia|].
  rewrite !fold_left_app, zlen_app. cbn [fold_left]. rewrite IH.
  change (zlen [b]) with 1. rewrite Z.pow_add_r by (pose proof (zlen_nonneg s'); lia). lia.
Qed.

Lemma value_digits w : forall n, 0 <= n < 10 ^ Z.of_nat w -> value_of (digits w n) = n.
Proof.
  induction w as [|w IH]; intros n Hn; [cbn in Hn; unfold value_of; cbn; lia|].
  rewrite Nat2Z.inj_succ, Z.pow_succ_r in Hn by lia. cbn [digits]. rewrite value_of_app, IH by dlia.
  unfold value_of. cbn [fold_left zlen]. rewrite u8_of_digit by (apply Z.mod_pos_bound; lia).
  change (zlen [digit (n mod 10)]) with 1. pose proof (Z.div_mod n 10). lia.
Qed.

(** ** An instance *)

Definition year_of (days : Z) : Z :=
  let y := days * 400 / 146097 + 1970 in
  if days <? days_before_year y then y - 1 else if days_before_year (y + 1) <=? days then y + 1 else y.

Fixpoint month_from (y doy : Z) (m : nat) : Z :=
  match m with
  | O => 1
  | S m' => if days_before_month y (Z.of_nat m) <=? doy then Z.of_nat m else month_from y doy m'
  end.

Definition civil_of (s : Z) : Civil :=
  let days := s / 86400 in
  let y := year_of days in
  let doy := days - days_before_year y in
  let m := month_from y doy 12 in
  let t := s mod 86400 in
  mkCivil y m (doy - days_before_month y m + 1) (t / 3600) (t mod 3600 / 60) (t mod 60).

Lemma year_of_spec days : days_before_year (year_of days) <= days < days_before_year (year_of days + 1).
Proof.
  unfold year_of. set (y := days * 400 / 146097 + 1970).
  assert (Hb : forall y, 146097 * (y - 1970) - 506 <= 400 * days_before_year y <= 146097 * (y - 1970) + 589)
    by (intros z; unfold days_before_year; dlia).
  assert (Hd : 146097 * (y - 1970) <= days * 400 < 146097 * (y - 1969)) by (unfold y; dlia).
  pose proof (Hb y). pose proof (Hb (y + 1)).
  destruct (Z.ltb_spec days (days_before_year y)).
  - pose proof (leap_year (y - 1)) as E. replace (y - 1 + 1) with y in * by lia. destruct (leap _); lia.
  - destruct (Z.leb_spec (days_before_year (y + 1)) days); [|lia].
    pose proof (leap_year (y + 1)) as E. destruct (leap _); lia.
Qed.

Lemma month_from_spec y doy m :
  (1 <= m <= 12)%nat -> 0 <= doy < days_before_month y (Z.of_nat m) + days_in_month y (Z.of_nat m) ->
  let m' := month_from y doy m in
  1 <= m' <= 12 /\ days_before_month y m' <= doy < days_before_month y m' + days_in_month y m'.
Proof.
  intros Hm Hd. induction m as [|m IH]; [lia|]. cbn [month_from].
  destruct (Z.leb_spec (days_before_month y (Z.of_nat (S m))) doy); [lia|].
  destruct m as [|m]; [change (days_before_month y (Z.of_nat 1)) with 0 in *; lia|].
  apply IH; [lia|]. pose proof (month_end y (Z.of_nat (S m)) ltac:(lia)) as E.
  destruct (Z.eqb_spec (Z.of_nat (S m)) 12); [lia|].
  replace (Z.of_nat (S m) + 1) with (Z.of_nat (S (S m))) in E by lia. lia.
Qed.

Lemma civil_of_spec s : valid (civil_of s) = true /\ unix_time (civil_of s) = s.
Proof.
  pose proof (year_of_spec (s / 86400)) as Hy. unfold civil_of. set (y := year_of (s / 86400)) in *.
  set (doy := s / 86400 - days_before_year y). rewrite leap_year in Hy.
  destruct (month_from_spec y doy 12) as [Hm Hd]; [lia| |].
  { change (days_before_month y (Z.of_nat 12)) with (334 + if leap y then 1 else 0).
    change (days_in_month y (Z.of_nat 12)) with 31. unfold doy. destruct (leap y); lia. }
  set (m := month_from y doy 12) in *. clearbody m.
  split; [rewrite valid_spec|unfold unix_time, days_of]; cbn [c_year c_month c_day c_hour c_minute c_second].
  - split_and!; try lia; dlia.
  - unfold doy. dlia.
Qed.

Definition STAMP : bytes := str "%Y%m%dT%H%M%SZ".

Lemma strftime_stamp c : strftime STAMP c
  = Some (digits 4 c.(c_year) ++ digits 2 c.(c_month) ++ digits 2 c.(c_day) ++ [x54] ++
      digits 2 c.(c_hour) ++ digits 2 c.(c_minute) ++ digits 2 c.(c_second) ++ [x5a]).
Proof. reflexivity. Qed.

Lemma zlen_stamp c s : strftime STAMP c = Some s -> zlen s = 16.
Proof. intros E. rewrite strftime_stamp in E. by injection E as <-. Qed.

(** The fields of a stamp, by their places. *)
Definition read_stamp (s : bytes) : Civil :=
  let part from n := value_of (take n (drop from s)) in
  mkCivil (part 0%nat 4%nat) (part 4%nat 2%nat) (part 6%nat 2%nat) (part 9%nat 2%nat) (part 11%nat 2%nat) (part 13%nat 2%nat).

Lemma read_stamp_spec c s :
  four_digits c -> valid c = true -> strftime STAMP c = Some s -> read_stamp s = c.
Proof.
  intros Hy (Hm & Hd & Hh & Hmi & Hs)%valid_spec E. rewrite strftime_stamp in E. injection E as <-.
  assert (Hd' : c_day c <= 31).
  { pose proof (days_in_month_max (c_year c) (c_month c)). lia. }
  unfold four_digits in Hy. destruct c as [y m d h mi s]. cbn [c_year c_month c_day c_hour c_minute c_second] in *.
  unfold read_stamp.
  assert (V4 : value_of (digits 4 y) = y) by (apply value_digits; cbn; lia).
  assert (V2 : forall n, 0 <= n < 100 -> value_of (digits 2 n) = n) by (intros; apply value_digits; cbn; lia).
  f_equal; [exact V4|..]; apply V2; lia.
Qed.

Definition date_at (c : Civil) (nanos : Z) : option date :=
  if valid c then date_of (unix_time c) nanos else None.

Lemma date_at_ok c nanos :
  - 262_000 <= c.(c_year) <= 262_000 -> valid c = true -> 0 <= nanos ->
  nanos < NANOS \/ (nanos < 2 * NANOS /\ c.(c_second) = 59) ->
  exists t, date_at c nanos = Some t /\ proj1_sig t = (unix_time c, nanos) /\ civil_of (proj1_sig t).1 = c.
Proof.
  intros Hy Hv Hn Hn'. unfold date_at. rewrite Hv.
  pose proof (days_in_year c Hv). pose proof (time_of_day c Hv).
  pose proof (year_monotone (- 262_000) c.(c_year) ltac:(lia)).
  pose proof (year_monotone (c.(c_year) + 1) 262_001 ltac:(lia)).
  assert (E0 : -96_420_000 <= days_before_year (- 262_000)) by (vm_compute; discriminate).
  assert (E1 : days_before_year 262_001 <= 94_980_000) by (vm_compute; discriminate).
  assert (Hs : unix_time c mod 60 = c.(c_second)).
  { apply valid_spec in Hv as (_ & _ & _ & _ & Hs). unfold unix_time. dlia. }
  destruct (date_of_ok (unix_time c) nanos) as [t Et].
  { unfold timestamp_ok, min_timestamp, max_timestamp. lia. }
  exists t. split; [done|]. pose proof (date_of_Some _ _ _ Et) as E. split; [done|]. rewrite E. cbn.
  destruct (civil_of_spec (unix_time c)). by apply unix_time_inj.
Qed.

Lemma date_nanos (d : date) :
  let n := (proj1_sig d).2 in
  0 <= n /\ (n < NANOS \/ (n < 2 * NANOS /\ c_second (civil_of (proj1_sig d).1) = 59)).
Proof.
  destruct d as [[s n] H]. cbn. unfold timestamp_ok in H.
  rewrite Z.mod_mod_divide by (by exists 1440). lia.
Qed.

Section calendar_std.
#[local] Existing Instance crates_std.

#[refine] Definition calendar_std : Calendar := {|
  civil d := civil_of (proj1_sig (d : date)).1;
  with_ymd_and_hms y m d h mi s := date_at (mkCivil y m d h mi s) 0 : option DateTime;
  with_year d y := date_at (set_year (civil_of (proj1_sig (d : date)).1) y) (proj1_sig (d : date)).2;
  with_month d m := date_at (set_month (civil_of (proj1_sig (d : date)).1) m) (proj1_sig (d : date)).2;
  add_seconds d s := default d (date_of ((proj1_sig (d : date)).1 + s) (proj1_sig (d : date)).2);
  format fmt d := default [] (strftime fmt (civil_of (proj1_sig (d : date)).1));
  parse_from_str s fmt :=
    if bool_decide (strftime fmt (read_stamp s) = Some s) then date_at (read_stamp s) 0 : option DateTime else None;
|}.
Proof.
  - intros d. apply civil_of_spec.
  - intros y m d h mi s c Hy. destruct (valid c) eqn:Hv; [|unfold date_at; by fold c; rewrite Hv].
    destruct (date_at_ok c 0) as (t & E & Et & _); [done|done|lia|unfold NANOS; lia|].
    exists t. split; [done|]. cbn. by rewrite Et.
  - intros d y Hy. destruct (valid _) eqn:Hv; [|unfold date_at; by rewrite Hv].
    destruct (date_at_ok (set_year (civil_of (proj1_sig d).1) y) (proj1_sig d).2) as (t & E & _ & Et);
      [done|done| | |by exists t].
    + apply date_nanos.
    + apply date_nanos.
  - intros d m Hy. destruct (valid _) eqn:Hv; [|unfold date_at; by rewrite Hv].
    destruct (date_at_ok (set_month (civil_of (proj1_sig d).1) m) (proj1_sig d).2) as (t & E & _ & Et);
      [done|done| | |by exists t].
    + apply date_nanos.
    + apply date_nanos.
  - intros d s Hs Hn. cbn in *. rewrite Hn.
    destruct (date_of_ok ((proj1_sig d).1 + s) 0) as [t Et]; [apply timestamp_ok_in_range; [done|unfold NANOS; lia]|].
    rewrite Et. cbn. by rewrite (date_of_Some _ _ _ Et).
  - intros fmt d s _ E. cbn in E. by rewrite E.
  - intros c s Hy Hv E. rewrite (read_stamp_spec c s Hy Hv E). rewrite bool_decide_true by exact E.
    unfold date_at. by rewrite Hv.
Defined.
End calendar_std.
