(* ===== verification/Layout.v ===== *)
(** [rustflow_collect/src/sink/layout.rs]: where the file of a window goes,
    which files are the collector's own, and which fall in a time range.

    A path is the list of its components.  The file system below the root is a
    tree; what cannot be read or is neither file nor directory has no
    contents. *)

From Stdlib Require Import ZArith Lia Strings.Byte.
From stdpp Require Import base tactics numbers list.
From S2P Require Import Prelude Std Crates Calendar.
#[local] Open Scope Z_scope.

Abbreviation Path := (list bytes).

(** ** Strings *)

(** [str::strip_prefix], [strip_suffix], [split_once], [rsplit_once] and
    [split_at_checked]. *)
Definition strip_prefix (p s : bytes) : option bytes :=
  if bool_decide (take (length p) s = p) then Some (drop (length p) s) else None.

Definition strip_suffix (p s : bytes) : option bytes :=
  let n := (length s - length p)%nat in
  if bool_decide (drop n s = p) then Some (take n s) else None.

Fixpoint split_once (b : byte) (s : bytes) : option (bytes * bytes) :=
  match s with
  | [] => None
  | c :: s =>
      if bool_decide (c = b) then Some ([], s)
      else '(before, after) ← split_once b s; Some (c :: before, after)
  end.

Fixpoint rsplit_once (b : byte) (s : bytes) : option (bytes * bytes) :=
  match s with
  | [] => None
  | c :: s =>
      match rsplit_once b s with
      | Some (before, after) => Some (c :: before, after)
      | None => if bool_decide (c = b) then Some ([], s) else None
      end
  end.

Definition split_at_checked (s : bytes) (mid : Z) : option (bytes * bytes) :=
  let n := Z.to_nat mid in
  if (mid <=? zlen s) && is_char_boundary s n then Some (take n s, drop n s) else None.

(** [format!("{n:02}")] *)
Definition two_digits (n : Z) : bytes := replicate (2 - length (show n)) x30 ++ show n.

Definition is_number (s : bytes) : bool :=
  match s with [] => false | _ => forallb is_digit s end.

(** A part of a partition name: digits of exactly [width]. *)
Definition partition_number (name : bytes) (width : Z) : option Z :=
  if negb (zlen name =? width) || negb (is_number name) then None else try_u 32 (value_of name).

(** ** Time ranges *)

Inductive Bound := Included (z : Z) | Excluded (z : Z) | Unbounded.

(** [RangeBounds<i64>] *)
Record Range := mkRange { start_bound : Bound; end_bound : Bound }.

Definition contains (range : Range) (z : Z) : bool :=
  match range.(start_bound) with
  | Included start => start <=? z | Excluded start => start <? z | Unbounded => true
  end &&
  match range.(end_bound) with
  | Included end_ => z <=? end_ | Excluded end_ => z <? end_ | Unbounded => true
  end.

(** [..end] *)
Definition until (end_ : Z) : Range := mkRange Unbounded (Excluded end_).

Record Period := mkPeriod { p_start : Z; p_end : Z }.

(** The successor of an excluded start wraps at 64 bits. *)
Definition overlaps (self : Period) (range : Range) : bool :=
  let after_start :=
    match range.(start_bound) with
    | Included start => start <? self.(p_end)
    | Excluded start => to_signed 64 (start + 1) <? self.(p_end)
    | Unbounded => true
    end in
  let before_end :=
    match range.(end_bound) with
    | Included end_ => self.(p_start) <=? end_
    | Excluded end_ => self.(p_start) <? end_
    | Unbounded => true
    end in
  after_start && before_end.

(** ** Layouts *)

Module Partitioning.
Inductive Partitioning := Plain | Hive.

Definition max_depth (self : Partitioning) : Z :=
  match self with Plain => 5 | Hive => 3 end.
End Partitioning.
Export Partitioning(Partitioning).

Definition MAX_PARTITION_LEVEL : Z := 3.
Definition LEVEL_3_MINUTES : Z := 5.
Definition STAMP_FORMAT : bytes := str "%Y%m%dT%H%M%SZ".
Definition STAMP_LEN : Z := 16.

Record Layout := mkLayout {
  root : Path;
  prefix : bytes;
  extension : bytes;
  level : Z;
  partitioning : Partitioning;
}.

Inductive Span := Year | Month | Day | Hour | Bucket.

Section layout.
Context `{CL : Calendar}.

Record Entry := mkEntry { e_path : Path; window : DateTime; temporary : bool }.

Definition path_for (self : Layout) (stamp : DateTime) : Path :=
  let bucket := (civil stamp).(c_minute) / LEVEL_3_MINUTES * LEVEL_3_MINUTES in
  let directories :=
    match self.(partitioning) with
    | Partitioning.Plain =>
        (if 1 <=? self.(level)
         then [format (str "%Y") stamp; format (str "%m") stamp; format (str "%d") stamp] else []) ++
        (if 2 <=? self.(level) then [format (str "%H") stamp] else []) ++
        (if 3 <=? self.(level) then [two_digits bucket] else [])
    | Partitioning.Hive =>
        (if 1 <=? self.(level) then [format (str "date=%Y-%m-%d") stamp] else []) ++
        (if 2 <=? self.(level) then [format (str "hour=%H") stamp] else []) ++
        (if 3 <=? self.(level) then [str "minute=" ++ two_digits bucket] else [])
    end in
  self.(root) ++ directories ++
    [self.(prefix) ++ str "-" ++ format STAMP_FORMAT stamp ++ str "." ++ self.(extension)].

(** [Layout::name] *)
Definition name_of (self : Layout) (name : bytes) : option (DateTime * bool) :=
  '(name, temporary) ←
    match s ← strip_prefix (str ".") name; strip_suffix (str ".tmp") s with
    | Some tmp =>
        '(name, pid) ← rsplit_once x2e tmp;
        if negb (is_number pid) then None else Some (name, true)
    | None => Some (name, false)
    end;
  middle ← strip_prefix self.(prefix) name;
  middle ← strip_prefix (str "-") middle;
  middle ← strip_suffix self.(extension) middle;
  middle ← strip_suffix (str ".") middle;
  '(stamp, rest) ← split_at_checked middle STAMP_LEN;
  if match strip_prefix (str "-") rest with
     | Some n => negb (is_number n)
     | None => bool_decide (rest <> [])
     end then None
  else
    window ← parse_from_str stamp STAMP_FORMAT;
    Some (window, temporary).

Definition plain_period (names : list bytes) : option (DateTime * Span) :=
  parts ← mapM (fun '(depth, name) => partition_number name (if bool_decide (depth = 0%nat) then 4 else 2))
    (imap pair names);
  let span :=
    match parts with
    | [_] => Year | [_; _] => Month | [_; _; _] => Day | [_; _; _; _] => Hour | _ => Bucket
    end in
  let part i def := default def (parts !! i) in
  if match span with Bucket => negb (part 4%nat 0 mod LEVEL_3_MINUTES =? 0) | _ => false end then None
  else
    year ← try_i 32 (part 0%nat 1970);
    start ← with_ymd_and_hms year (part 1%nat 1) (part 2%nat 1) (part 3%nat 0) (part 4%nat 0) 0;
    Some (start, span).

Definition hive_period (names : list bytes) : option (DateTime * Span) :=
  date ← names !! 0%nat ≫= strip_prefix (str "date=");
  '(year, rest) ← split_once x2d date;
  '(month, day) ← split_once x2d rest;
  year ← partition_number year 4 ≫= try_i 32;
  month ← partition_number month 2;
  day ← partition_number day 2;
  hour ←
    match names !! 1%nat with
    | Some name => n ← strip_prefix (str "hour=") name; partition_number n 2
    | None => Some 0
    end;
  minute ←
    match names !! 2%nat with
    | Some name =>
        n ← strip_prefix (str "minute=") name;
        bucket ← partition_number n 2;
        if bucket mod LEVEL_3_MINUTES =? 0 then Some bucket else None
    | None => Some 0
    end;
  let span := match names with [_] => Day | [_; _] => Hour | _ => Bucket end in
  start ← with_ymd_and_hms year month day hour minute 0;
  Some (start, span).

Definition span_end (start : DateTime) (span : Span) : option DateTime :=
  let c := civil start in
  match span with
  | Year => with_year start (c.(c_year) + 1)
  | Month =>
      if c.(c_month) =? 12 then next ← with_year start (c.(c_year) + 1); with_month next 1
      else with_month start (c.(c_month) + 1)
  | Day => Some (add_seconds start 86_400)
  | Hour => Some (add_seconds start 3_600)
  | Bucket => Some (add_seconds start (60 * LEVEL_3_MINUTES))
  end.

(** [Path::strip_prefix] *)
Fixpoint relative (root path : Path) : option Path :=
  match root, path with
  | [], _ => Some path
  | c :: root, d :: path => if bool_decide (c = d) then relative root path else None
  | _ :: _, [] => None
  end.

Definition period (self : Layout) (parent : Path) (name : bytes) : option Period :=
  below ← relative self.(root) parent;
  let names := (from_utf8_lossy <$> below) ++ [name] in
  if Partitioning.max_depth self.(partitioning) <? zlen names then None
  else
    '(start, span) ←
      match self.(partitioning) with
      | Partitioning.Plain => plain_period names
      | Partitioning.Hive => hive_period names
      end;
    end_ ← span_end start span;
    Some (mkPeriod (timestamp start) (timestamp end_)).

(** ** The tree *)

Inductive Node :=
  | FileNode
  | DirNode (entries : list (bytes * Node))
  | OtherNode.

Inductive Visit := VisitFile (entry : Entry) | LeaveDir (path : Path).

(** [walk], as the list of its visits. *)
Fixpoint walk (self : Layout) (dir : Path) (node : Node) (range : Range) {struct node} : list Visit :=
  match node with
  | DirNode entries =>
      (fix go (entries : list (bytes * Node)) : list Visit :=
         match entries with
         | [] => []
         | (file_name, child) :: entries =>
             let name := from_utf8_lossy file_name in
             let path := dir ++ [file_name] in
             match child with
             | DirNode _ =>
                 match period self dir name with
                 | Some p => if overlaps p range then walk self path child range ++ [LeaveDir path] else []
                 | None => []
                 end
             | FileNode =>
                 match name_of self name with
                 | Some (window, temporary) => [VisitFile (mkEntry path window temporary)]
                 | None => []
                 end
             | OtherNode => []
             end ++ go entries
         end) entries
  | _ => []
  end.

Definition files (self : Layout) (tree : Node) (range : Range) : list Entry :=
  omap (fun visit =>
    match visit with
    | VisitFile entry => if contains range (timestamp entry.(window)) then Some entry else None
    | LeaveDir _ => None
    end) (walk self self.(root) tree range).

Definition dirs (self : Layout) (tree : Node) (range : Range) : list Path :=
  omap (fun visit => match visit with LeaveDir path => Some path | VisitFile _ => None end)
    (walk self self.(root) tree range).
End layout.
