(* ===== verification/LayoutFacts.v ===== *)
(** What a layout promises: its files are recognised by their names and found
    by their windows, and nothing else is. *)

From Stdlib Require Import ZArith Lia Strings.Byte.
From stdpp Require Import base tactics numbers list pretty sorting.
From S2P Require Import Prelude Std Crates Calendar Layout.
#[local] Open Scope Z_scope.

(** ** Strings *)

Lemma strip_prefix_app p s : strip_prefix p (p ++ s) = Some s.
Proof. unfold strip_prefix. rewrite take_app_length, bool_decide_true by done. by rewrite drop_app_length. Qed.

Lemma strip_prefix_Some p s t : strip_prefix p s = Some t <-> s = p ++ t.
Proof.
  split; [|intros ->; apply strip_prefix_app]. unfold strip_prefix. case_bool_decide as H; [|done].
  intros [= <-]. by rewrite <- H at 1; rewrite take_drop.
Qed.

Lemma strip_suffix_app p s : strip_suffix p (s ++ p) = Some s.
Proof.
  unfold strip_suffix. rewrite length_app, Nat.add_sub, drop_app_length, bool_decide_true by done.
  by rewrite take_app_length.
Qed.

Lemma strip_suffix_Some p s t : strip_suffix p s = Some t <-> s = t ++ p.
Proof.
  split; [|intros ->; apply strip_suffix_app]. unfold strip_suffix. case_bool_decide as H; [|done].
  intros [= <-]. rewrite <- H at 2. by rewrite take_drop.
Qed.

Lemma rsplit_once_None b s : b ∉ s -> rsplit_once b s = None.
Proof.
  induction s as [|c s IH]; intros H; [done|]. apply not_elem_of_cons in H as [H1 H2]. cbn.
  rewrite IH by done. by rewrite bool_decide_false.
Qed.

Lemma rsplit_once_last b s t : b ∉ t -> rsplit_once b (s ++ b :: t) = Some (s, t).
Proof.
  intros H. induction s as [|c s IH]; cbn.
  - rewrite rsplit_once_None by done. by rewrite bool_decide_true.
  - by rewrite IH.
Qed.

Lemma rsplit_once_Some b s x y : rsplit_once b s = Some (x, y) -> s = x ++ b :: y.
Proof.
  revert x y. induction s as [|c s IH]; intros x y H; [done|]. cbn in H.
  destruct (rsplit_once b s) as [[x' y']|] eqn:E.
  - injection H as <- <-. cbn. f_equal. by apply IH.
  - case_bool_decide as Hc; [|done]. by injection H as <- <-; subst c.
Qed.

Lemma split_once_first b s t : b ∉ s -> split_once b (s ++ b :: t) = Some (s, t).
Proof.
  induction s as [|c s IH]; intros H; cbn; [by rewrite bool_decide_true|].
  apply not_elem_of_cons in H as [H1 H2]. rewrite bool_decide_false by done. by rewrite IH.
Qed.

(** ** Paths *)

Lemma relative_app root p : relative root (root ++ p) = Some p.
Proof. induction root as [|c root IH]; [done|]. cbn. by rewrite bool_decide_true. Qed.

Lemma relative_Some root path p : relative root path = Some p <-> path = root ++ p.
Proof.
  split; [|intros ->; apply relative_app]. revert path. induction root as [|c root IH]; intros path; [by intros [= ->]|].
  destruct path as [|d path]; [done|]. cbn. case_bool_decide as E; [|done]. subst d. intros H. by rewrite (IH _ H).
Qed.

(** ** Numbers *)

Lemma ascii_digit_not b s : forallb is_digit s = true -> is_digit b = false -> b ∉ s.
Proof.
  intros Hs Hb Hin. rewrite forallb_forall in Hs. apply list_elem_of_In in Hin. specialize (Hs _ Hin). congruence.
Qed.

Lemma digits_number w n : (0 < w)%nat -> is_number (digits w n) = true.
Proof.
  intros Hw. pose proof (length_digits w n) as Hl. pose proof (digits_all w n).
  unfold is_number. destruct (digits w n); [cbn in Hl; lia|done].
Qed.

Lemma partition_number_digits w n :
  (0 < w <= 9)%nat -> 0 <= n < 10 ^ Z.of_nat w -> partition_number (digits w n) (Z.of_nat w) = Some n.
Proof.
  intros Hw Hn. unfold partition_number, zlen. rewrite length_digits, Z.eqb_refl, digits_number by lia. cbn [negb orb].
  rewrite value_digits by done. unfold try_u. rewrite decide_True; [done|].
  pose proof (Z.pow_le_mono_r 10 (Z.of_nat w) 9). unfold fits_u. lia.
Qed.

(** The decimal digits of any number. *)
Lemma pretty_digits_go x : forall s, is_number (String.list_byte_of_string s) = true ->
  is_number (String.list_byte_of_string (pretty_N_go x s)) = true.
Proof.
  induction (N.lt_wf_0 x) as [x _ IH]. intros s Hs. destruct (decide (0 < x)%N) as [Hx|Hx].
  - rewrite pretty_N_go_step by done. apply IH; [apply N.div_lt; lia|].
    assert (Hs' : forallb is_digit (String.list_byte_of_string s) = true) by (by destruct (String.list_byte_of_string s)).
    change (is_digit (Ascii.byte_of_ascii (pretty_N_char (x `mod` 10)%N)) && forallb is_digit (String.list_byte_of_string s) = true).
    rewrite Hs', andb_true_r. pose proof (N.mod_lt x 10 ltac:(lia)) as Hm. revert Hm.
    generalize (x `mod` 10)%N. intros d Hd.
    assert (E : d = 0%N \/ d = 1%N \/ d = 2%N \/ d = 3%N \/ d = 4%N \/ d = 5%N \/ d = 6%N \/ d = 7%N \/ d = 8%N \/ d = 9%N) by lia.
    by repeat destruct E as [->|E]; [..|subst d].
  - assert (x = 0%N) as -> by lia. by rewrite pretty_N_go_0.
Qed.

Lemma show_number n : is_number (show n) = true.
Proof.
  unfold show, str, pretty, pretty_N. destruct (decide (Z.to_N n = 0%N)) as [E|E]; [done|].
  rewrite pretty_N_go_step by lia. apply pretty_digits_go.
  pose proof (N.mod_lt (Z.to_N n) 10 ltac:(lia)) as Hm. revert Hm. generalize (Z.to_N n `mod` 10)%N. intros d Hd.
  assert (Hc : d = 0%N \/ d = 1%N \/ d = 2%N \/ d = 3%N \/ d = 4%N \/ d = 5%N \/ d = 6%N \/ d = 7%N \/ d = 8%N \/ d = 9%N) by lia.
  by repeat destruct Hc as [->|Hc]; [..|subst d].
Qed.

Lemma two_digits_eq n : 0 <= n < 100 -> two_digits n = digits 2 n.
Proof.
  intros Hn. assert (H : forallb (fun n => bool_decide (two_digits (Z.of_nat n) = digits 2 (Z.of_nat n))) (seq 0 100) = true)
    by (vm_compute; reflexivity).
  rewrite forallb_forall in H. specialize (H (Z.to_nat n)). rewrite Z2Nat.id in H by lia.
  apply (bool_decide_eq_true_1 _), H, in_seq. lia.
Qed.

(** ** Names *)

Section names.
Context `{CL : Calendar}.

(** The name of the file of a window, with what [candidates] may insert. *)
Definition own_name (self : Layout) (stamp : DateTime) (suffix : bytes) : bytes :=
  self.(prefix) ++ str "-" ++ format STAMP_FORMAT stamp ++ suffix ++ str "." ++ self.(extension).

Definition numbered (suffix : bytes) : Prop :=
  suffix = [] \/ exists n, suffix = str "-" ++ n /\ is_number n = true.

(** No name ends like a temporary one; none of the extensions does. *)
Definition extension_ok (self : Layout) : Prop := last self.(extension) <> Some x70.

Lemma stamp_text stamp : four_digits (civil stamp) ->
  strftime STAMP (civil stamp) = Some (format STAMP_FORMAT stamp) /\ zlen (format STAMP_FORMAT stamp) = 16.
Proof.
  intros H. destruct (strftime STAMP (civil stamp)) as [s|] eqn:E; [|done].
  rewrite (format_law STAMP_FORMAT stamp s H E). split; [done|]. by eapply zlen_stamp.
Qed.

(** A name without the marks of a temporary one. *)
Lemma read_body self body temporary r :
  (middle ← strip_prefix self.(prefix) body;
   middle ← strip_prefix (str "-") middle;
   middle ← strip_suffix self.(extension) middle;
   middle ← strip_suffix (str ".") middle;
   '(stamp, rest) ← split_at_checked middle STAMP_LEN;
   if match strip_prefix (str "-") rest with
      | Some n => negb (is_number n)
      | None => bool_decide (rest <> [])
      end then None
   else window ← parse_from_str stamp STAMP_FORMAT; Some (window, temporary : bool)) = Some r <->
  exists stamp suffix w, body = self.(prefix) ++ str "-" ++ stamp ++ suffix ++ str "." ++ self.(extension) /\
    zlen stamp = STAMP_LEN /\ numbered suffix /\ parse_from_str stamp STAMP_FORMAT = Some w /\ r = (w, temporary).
Proof.
  split.
  - destruct (strip_prefix (prefix self) body) as [m1|] eqn:E1; [|done]. apply strip_prefix_Some in E1. cbn [mbind option_bind].
    destruct (strip_prefix (str "-") m1) as [m2|] eqn:E2; [|done]. apply strip_prefix_Some in E2. cbn [mbind option_bind].
    destruct (strip_suffix (extension self) m2) as [m3|] eqn:E3; [|done]. apply strip_suffix_Some in E3. cbn [mbind option_bind].
    destruct (strip_suffix (str ".") m3) as [m4|] eqn:E4; [|done]. apply strip_suffix_Some in E4. cbn [mbind option_bind].
    destruct (split_at_checked m4 STAMP_LEN) as [[stamp rest]|] eqn:E5; [|done]. cbn [mbind option_bind].
    unfold split_at_checked in E5. destruct (STAMP_LEN <=? zlen m4) eqn:Hl; [|done].
    destruct (is_char_boundary _ _); [|done]. injection E5 as <- <-.
    destruct (match strip_prefix _ _ with Some n => _ | None => _ end) eqn:E6; [done|].
    destruct (parse_from_str _ _) as [w|] eqn:Ew; [|done]. intros [= <-].
    eexists _, _, w. split_and!; [|..|exact Ew|done].
    + rewrite (app_assoc (take _ _)), take_drop, E1, E2, E3, E4. by rewrite <- !app_assoc.
    + unfold zlen in *. rewrite length_take_le by (unfold STAMP_LEN in *; lia). done.
    + destruct (strip_prefix (str "-") _) as [n|] eqn:E7.
      * apply strip_prefix_Some in E7. rewrite E7. right. exists n. split; [done|]. by destruct (is_number n).
      * left. by apply bool_decide_eq_false_1, dec_stable in E6.
  - intros (s & suffix & w & -> & Hl & Hs & Hw & ->).
    rewrite strip_prefix_app. cbn [mbind option_bind]. rewrite strip_prefix_app. cbn [mbind option_bind].
    rewrite !app_assoc.
    rewrite strip_suffix_app. cbn [mbind option_bind]. rewrite strip_suffix_app. cbn [mbind option_bind].
    assert (Hn : length s = 16%nat) by (unfold zlen, STAMP_LEN in Hl; lia).
    assert (Hsplit : split_at_checked (s ++ suffix) STAMP_LEN = Some (s, suffix)).
    { unfold split_at_checked, STAMP_LEN. change (Z.to_nat 16) with 16%nat. rewrite <- Hn, take_app_length, drop_app_length, Hn.
      rewrite zlen_app, Hl. pose proof (zlen_nonneg suffix). rewrite (proj2 (Z.leb_le _ _)) by (unfold STAMP_LEN; lia).
      assert (Hb : is_char_boundary (s ++ suffix) 16 = true); [|by rewrite Hb].
      unfold is_char_boundary. rewrite lookup_app_r by lia. rewrite Hn, Nat.sub_diag, length_app, Hn.
      destruct Hs as [->|(n & -> & _)]; [done|]. done. }
    rewrite Hsplit. cbn [mbind option_bind].
    assert (Hrest : match strip_prefix (str "-") suffix with
      | Some n => negb (is_number n) | None => bool_decide (suffix <> []) end = false).
    { destruct Hs as [->|(n & -> & Hn')]; [done|]. by rewrite strip_prefix_app, Hn'. }
    rewrite Hrest, Hw. done.
Qed.

(** The names of the layout's files: [prefix-stamp[-N].extension], or
    [.name.pid.tmp] while being written. *)
Definition names_window (self : Layout) (name : bytes) (w : DateTime) (temporary : bool) : Prop :=
  exists body stamp suffix, body = self.(prefix) ++ str "-" ++ stamp ++ suffix ++ str "." ++ self.(extension) /\
    zlen stamp = 16 /\ numbered suffix /\ parse_from_str stamp STAMP_FORMAT = Some w /\
    if temporary then exists pid, is_number pid = true /\ name = str "." ++ body ++ str "." ++ pid ++ str ".tmp"
    else name = body.

Lemma name_of_spec self name w temporary : extension_ok self ->
  name_of self name = Some (w, temporary) <-> names_window self name w temporary.
Proof.
  intros He. unfold name_of, names_window. split.
  - destruct (s ← strip_prefix (str ".") name; strip_suffix (str ".tmp") s) as [tmp|] eqn:Etmp.
    + destruct (strip_prefix (str ".") name) as [s|] eqn:E1; [|done]. cbn in Etmp.
      apply strip_prefix_Some in E1. apply strip_suffix_Some in Etmp. subst s.
      destruct (rsplit_once x2e tmp) as [[n pid]|] eqn:Er; [|done]. cbn [mbind option_bind].
      apply rsplit_once_Some in Er. destruct (is_number pid) eqn:Hp; [|done]. cbn [negb mbind option_bind].
      intros (stamp & suffix & w' & Hb & Hl & Hs & Hw & [= -> ->])%read_body.
      exists n, stamp, suffix. split_and!; try done. exists pid. split; [done|].
      rewrite E1, Er, <- app_assoc. done.
    + cbn [mbind option_bind]. intros (stamp & suffix & w' & Hb & Hl & Hs & Hw & [= -> ->])%read_body.
      by exists name, stamp, suffix.
  - intros (body & stamp & suffix & Hb & Hl & Hs & Hw & Hn).
    assert (Hread : forall t, exists stamp' suffix' w', body = self.(prefix) ++ str "-" ++ stamp' ++ suffix' ++ str "." ++ self.(extension) /\
      zlen stamp' = STAMP_LEN /\ numbered suffix' /\ parse_from_str stamp' STAMP_FORMAT = Some w' /\ (w, t : bool) = (w', t))
      by (intros t; by exists stamp, suffix, w).
    destruct temporary.
    + destruct Hn as (pid & Hp & ->). rewrite strip_prefix_app. cbn [mbind option_bind].
      replace (body ++ str "." ++ pid ++ str ".tmp") with ((body ++ x2e :: pid) ++ str ".tmp") by (by rewrite <- !app_assoc).
      rewrite strip_suffix_app, rsplit_once_last by (apply ascii_digit_not; [by destruct pid|done]).
      cbn [mbind option_bind]. rewrite Hp. cbn [negb mbind option_bind]. apply read_body, Hread.
    + subst name. assert (Htmp : (s ← strip_prefix (str ".") body; strip_suffix (str ".tmp") s) = None).
      { destruct (strip_prefix (str ".") body) as [s|] eqn:E1; [|done]. cbn.
        destruct (strip_suffix (str ".tmp") s) as [t|] eqn:E2; [|done]. exfalso.
        apply strip_prefix_Some in E1. apply strip_suffix_Some in E2. subst s.
        apply (f_equal last) in Hb. rewrite E1, !last_app in Hb. cbn in Hb.
        unfold extension_ok in He. destruct (last (extension self)) as [b|]; cbn in Hb; congruence. }
      rewrite Htmp. cbn [mbind option_bind]. apply read_body, Hread.
Qed.

(** A window stamp, read back. *)
Lemma stamp_read stamp : four_digits (civil stamp) ->
  exists w, parse_from_str (format STAMP_FORMAT stamp) STAMP_FORMAT = Some w /\ timestamp w = timestamp stamp /\
    timestamp_subsec_nanos w = 0.
Proof.
  intros Hy. destruct (stamp_text stamp Hy) as [Es _]. destruct (civil_law stamp) as [Hv Ht].
  destruct (from_timestamp_range (unix_time (civil stamp)) 0) as [w Ew]; [|unfold NANOS; lia|].
  { pose proof (four_digits_range _ Hv Hy). lia. }
  exists w. destruct (from_timestamp_law _ _ _ Ew) as [H1 H2]. rewrite H1.
  rewrite <- Ew. split; [|by rewrite Ht]. exact (parse_from_str_law _ _ Hy Hv Es).
Qed.

Lemma own_name_read self stamp suffix :
  extension_ok self -> four_digits (civil stamp) -> numbered suffix ->
  exists w, name_of self (own_name self stamp suffix) = Some (w, false) /\ timestamp w = timestamp stamp.
Proof.
  intros He Hy Hs. destruct (stamp_read stamp Hy) as (w & Hw & Ht & _). exists w. split; [|done].
  apply name_of_spec; [done|]. exists (own_name self stamp suffix), (format STAMP_FORMAT stamp), suffix.
  destruct (stamp_text stamp Hy). by split_and!.
Qed.

Lemma temp_name_read self stamp suffix pid :
  extension_ok self -> four_digits (civil stamp) -> numbered suffix ->
  exists w, name_of self (str "." ++ own_name self stamp suffix ++ str "." ++ show pid ++ str ".tmp") = Some (w, true) /\
    timestamp w = timestamp stamp.
Proof.
  intros He Hy Hs. destruct (stamp_read stamp Hy) as (w & Hw & Ht & _). exists w. split; [|done].
  apply name_of_spec; [done|]. exists (own_name self stamp suffix), (format STAMP_FORMAT stamp), suffix.
  destruct (stamp_text stamp Hy). split_and!; try done. exists (show pid). split; [apply show_number|done].
Qed.
End names.

(** ** What it promises

    A layout's tree of partition directories: each directory a path passes
    through spans the window of the file, so looking for a time range finds
    every file of the layout in it, and only those. *)


(** ** ASCII *)

Lemma ascii_digits_utf8 s : forallb is_digit s = true -> utf8_valid s = true.
Proof.
  intros H. induction s as [|b s IH]; [done|]. cbn in H. apply andb_true_iff in H as [Hb H].
  apply (utf8_valid_app [b] s); [|by apply IH]. by destruct b.
Qed.

Lemma digits_utf8 w n : utf8_valid (digits w n) = true.
Proof. apply ascii_digits_utf8, digits_all. Qed.

Lemma number_utf8 s : is_number s = true -> utf8_valid s = true.
Proof. intros H. apply ascii_digits_utf8. by destruct s. Qed.

(** ** What a partition directory spans *)

Section spans.
Context `{CL : Calendar}.

(** The first instant of the year, month, day, hour or bucket of a time. *)
Definition span_start (c : Civil) (span : Span) : Civil :=
  match span with
  | Year => mkCivil c.(c_year) 1 1 0 0 0
  | Month => mkCivil c.(c_year) c.(c_month) 1 0 0 0
  | Day => mkCivil c.(c_year) c.(c_month) c.(c_day) 0 0 0
  | Hour => mkCivil c.(c_year) c.(c_month) c.(c_day) c.(c_hour) 0 0
  | Bucket => mkCivil c.(c_year) c.(c_month) c.(c_day) c.(c_hour) (c.(c_minute) / 5 * 5) 0
  end.

Definition open_span (c : Civil) (span : Span) : option (DateTime * Span) :=
  let s := span_start c span in
  start ← with_ymd_and_hms s.(c_year) s.(c_month) s.(c_day) s.(c_hour) s.(c_minute) s.(c_second);
  Some (start, span).

Lemma span_start_valid c span : valid c = true -> valid (span_start c span) = true.
Proof.
  rewrite !valid_spec. intros (Hm & Hd & Hh & Hmi & Hs).
  pose proof (month_bounds (c_year c) 1 ltac:(lia)) as (_ & _ & H1).
  pose proof (month_bounds (c_year c) (c_month c) Hm) as (_ & _ & H2).
  destruct span; cbn; split_and!; try lia; dlia.
Qed.

Lemma start_at c : valid c = true -> four_digits c ->
  exists t, with_ymd_and_hms c.(c_year) c.(c_month) c.(c_day) c.(c_hour) c.(c_minute) c.(c_second) = Some t /\
    civil t = c /\ timestamp t = unix_time c /\ timestamp_subsec_nanos t = 0.
Proof.
  intros Hv Hy. pose proof (with_ymd_and_hms_law c.(c_year) c.(c_month) c.(c_day) c.(c_hour) c.(c_minute) c.(c_second)) as H.
  cbn zeta in H. unfold four_digits in Hy. destruct c as [y m d h mi s]. cbn in *. specialize (H ltac:(lia)).
  rewrite Hv in H. destruct H as (t & E & Ht & Hn). exists t. split_and!; try done.
  destruct (civil_law t) as [Hv' Ht']. apply unix_time_inj; [done|exact Hv|congruence].
Qed.

(** The next year or month, from the start of one. *)
Lemma year_after d y' :
  0 <= y' <= 10_000 -> valid (set_year (civil d) y') = true ->
  exists t, with_year d y' = Some t /\ civil t = set_year (civil d) y'.
Proof. intros Hy Hv. pose proof (with_year_law d y') as H. rewrite Hv in H. apply H. lia. Qed.

Lemma month_after d m' :
  0 <= c_year (civil d) <= 10_000 -> valid (set_month (civil d) m') = true ->
  exists t, with_month d m' = Some t /\ civil t = set_month (civil d) m'.
Proof. intros Hy Hv. pose proof (with_month_law d m') as H. rewrite Hv in H. apply H. lia. Qed.

Definition following (c : Civil) (span : Span) : Z :=
  match span with
  | Year => unix_time (mkCivil (c.(c_year) + 1) 1 1 0 0 0)
  | Month =>
      unix_time (if c.(c_month) =? 12 then mkCivil (c.(c_year) + 1) 1 1 0 0 0
                 else mkCivil c.(c_year) (c.(c_month) + 1) 1 0 0 0)
  | Day => unix_time (span_start c Day) + 86_400
  | Hour => unix_time (span_start c Hour) + 3_600
  | Bucket => unix_time (span_start c Bucket) + 300
  end.

Lemma in_span c span : valid c = true -> unix_time (span_start c span) <= unix_time c < following c span.
Proof.
  intros H. destruct span; cbn [span_start following].
  - by apply in_year.
  - by apply in_month.
  - by apply in_day.
  - by apply in_hour.
  - by apply (in_bucket c 5).
Qed.

Lemma span_end_spec c span start :
  valid c = true -> four_digits c -> civil start = span_start c span -> timestamp_subsec_nanos start = 0 ->
  exists end_, span_end start span = Some end_ /\ timestamp end_ = following c span.
Proof.
  intros Hv Hy Ec En. pose proof (span_start_valid c span Hv) as Hs.
  destruct (civil_law start) as [_ Et]. rewrite Ec in Et.
  pose proof (four_digits_range _ Hs ltac:(by destruct span)) as Hr. unfold four_digits in Hy.
  assert (Hnext : forall k, 0 <= k <= 86_400 ->
    exists end_, Some (add_seconds start k) = Some end_ /\ timestamp end_ = unix_time (span_start c span) + k).
  { intros k Hk. exists (add_seconds start k). split; [done|]. rewrite add_seconds_law by (done || lia). lia. }
  assert (Ht : forall t c', civil t = c' -> timestamp t = unix_time c')
    by (intros t c' <-; by destruct (civil_law t)).
  destruct span; cbn [span_end following]; [..|apply Hnext; lia|apply Hnext; lia|apply Hnext; lia].
  - rewrite Ec. cbn [span_start c_year].
    destruct (year_after start (c_year c + 1)) as (t & E & Hc); [lia|by rewrite Ec|].
    exists t. split; [done|]. apply Ht. by rewrite Hc, Ec.
  - rewrite Ec. cbn [span_start c_year c_month].
    pose proof Hv as (Hm & _)%valid_spec. destruct (Z.eqb_spec (c_month c) 12) as [E12|E12].
    + destruct (year_after start (c_year c + 1)) as (t & E & Hc); [lia|by rewrite Ec; cbn; rewrite E12|].
      rewrite E. cbn [mbind option_bind].
      destruct (month_after t 1) as (t' & E' & Hc'); [rewrite Hc; cbn; lia|by rewrite Hc, Ec|].
      exists t'. split; [done|]. apply Ht. by rewrite Hc', Hc, Ec.
    + destruct (month_after start (c_month c + 1)) as (t & E & Hc); [rewrite Ec; cbn; lia| |].
      { rewrite Ec. apply valid_spec. cbn. pose proof (month_bounds (c_year c) (c_month c + 1) ltac:(lia)). lia. }
      exists t. split; [done|]. apply Ht. by rewrite Hc, Ec.
Qed.

(** A directory's period holds every time it was made for. *)
Lemma span_holds t span : four_digits (civil t) ->
  exists start end_, open_span (civil t) span = Some (start, span) /\ span_end start span = Some end_ /\
    timestamp start <= timestamp t < timestamp end_.
Proof.
  intros Hy. destruct (civil_law t) as [Hv <-].
  destruct (start_at (span_start (civil t) span)) as (start & E & Ec & Et & En);
    [by apply span_start_valid|by destruct span|].
  destruct (span_end_spec (civil t) span start Hv Hy Ec En) as (end_ & Ee & Hend).
  exists start, end_. unfold open_span. rewrite E. cbn [mbind option_bind]. split_and!; [done|done|..];
    pose proof (in_span (civil t) span Hv); lia.
Qed.

(** ** The directories a path passes through *)

Definition plain_names (c : Civil) : list bytes :=
  [digits 4 c.(c_year); digits 2 c.(c_month); digits 2 c.(c_day); digits 2 c.(c_hour); digits 2 (c.(c_minute) / 5 * 5)].

Definition hive_names (c : Civil) : list bytes :=
  [str "date=" ++ digits 4 c.(c_year) ++ str "-" ++ digits 2 c.(c_month) ++ str "-" ++ digits 2 c.(c_day);
   str "hour=" ++ digits 2 c.(c_hour); str "minute=" ++ digits 2 (c.(c_minute) / 5 * 5)].

Definition names_at (p : Partitioning) (c : Civil) : list bytes :=
  match p with Partitioning.Plain => plain_names c | Partitioning.Hive => hive_names c end.

(** What the directory at a depth spans. *)
Definition span_at (p : Partitioning) (depth : nat) : Span :=
  match p, depth with
  | Partitioning.Plain, 0%nat => Year
  | Partitioning.Plain, 1%nat => Month
  | Partitioning.Plain, 2%nat | Partitioning.Hive, 0%nat => Day
  | Partitioning.Plain, 3%nat | Partitioning.Hive, 1%nat => Hour
  | _, _ => Bucket
  end.

(** How deep the files of a level lie. *)
Definition depth_of (p : Partitioning) (level : Z) : nat :=
  match p with
  | Partitioning.Plain => if level <=? 0 then 0%nat else if level =? 1 then 3%nat else if level =? 2 then 4%nat else 5%nat
  | Partitioning.Hive => if level <=? 0 then 0%nat else if level =? 1 then 1%nat else if level =? 2 then 2%nat else 3%nat
  end.

Lemma path_for_names self stamp : four_digits (civil stamp) ->
  path_for self stamp = self.(root) ++
    take (depth_of self.(partitioning) self.(level)) (names_at self.(partitioning) (civil stamp)) ++
    [own_name self stamp []].
Proof.
  intros Hy. destruct (civil_law stamp) as [(_ & _ & _ & Hmi & _)%valid_spec _].
  unfold path_for. f_equal. f_equal.
  assert (Ef : forall fmt s, strftime fmt (civil stamp) = Some s -> format fmt stamp = s)
    by (intros fmt s; by apply format_law).
  unfold LEVEL_3_MINUTES. rewrite two_digits_eq by dlia.
  destruct self.(partitioning); cbn [depth_of names_at].
  - rewrite (Ef (str "%Y") (digits 4 (c_year (civil stamp)))) by done.
    rewrite (Ef (str "%m") (digits 2 (c_month (civil stamp)))) by done.
    rewrite (Ef (str "%d") (digits 2 (c_day (civil stamp)))) by done.
    rewrite (Ef (str "%H") (digits 2 (c_hour (civil stamp)))) by done.
    destruct (Z.leb_spec 1 (level self)), (Z.leb_spec 2 (level self)), (Z.leb_spec 3 (level self)),
      (Z.leb_spec (level self) 0), (Z.eqb_spec (level self) 1), (Z.eqb_spec (level self) 2); done || lia.
  - rewrite (Ef (str "date=%Y-%m-%d") (str "date=" ++ digits 4 (c_year (civil stamp)) ++ str "-" ++
      digits 2 (c_month (civil stamp)) ++ str "-" ++ digits 2 (c_day (civil stamp)))) by done.
    rewrite (Ef (str "hour=%H") (str "hour=" ++ digits 2 (c_hour (civil stamp)))) by done.
    destruct (Z.leb_spec 1 (level self)), (Z.leb_spec 2 (level self)), (Z.leb_spec 3 (level self)),
      (Z.leb_spec (level self) 0), (Z.eqb_spec (level self) 1), (Z.eqb_spec (level self) 2); done || lia.
Qed.

Lemma names_utf8 p c : Forall (fun n => utf8_valid n = true) (names_at p c).
Proof.
  assert (Ha : forall a b, utf8_valid a = true -> utf8_valid b = true -> utf8_valid (a ++ b) = true)
    by (intros; by apply utf8_valid_app).
  destruct p; cbn [names_at]; unfold plain_names, hive_names; repeat constructor;
    repeat first [apply digits_utf8 | by apply digits_utf8 | apply Ha; [reflexivity || apply digits_utf8|]].
Qed.

Lemma lossy_names p c k : from_utf8_lossy <$> take k (names_at p c) = take k (names_at p c).
Proof.
  pose proof (Forall_take _ k _ (names_utf8 p c)) as H. revert H. generalize (take k (names_at p c)). intros l H.
  induction H as [|n l Hn _ IH]; [done|]. rewrite fmap_cons, IH. by rewrite from_utf8_lossy_id.
Qed.

Lemma part_digits w n : (0 < w <= 9)%nat -> 0 <= n < 10 ^ Z.of_nat w -> forall k, k = Z.of_nat w ->
  partition_number (digits w n) k = Some n.
Proof. intros Hw Hn k ->. by apply partition_number_digits. Qed.

Lemma plain_period_names c depth :
  valid c = true -> four_digits c -> (depth < 5)%nat ->
  plain_period (take (S depth) (plain_names c)) = open_span c (span_at Partitioning.Plain depth).
Proof.
  intros Hv Hy Hd. pose proof Hv as (Hm & Hdm & Hh & Hmi & _)%valid_spec. unfold four_digits in Hy.
  pose proof (days_in_month_max (c_year c) (c_month c)).
  assert (E4 : partition_number (digits 4 (c_year c)) 4 = Some (c_year c)) by (apply part_digits; cbn; lia).
  assert (E2 : forall n, 0 <= n < 100 -> partition_number (digits 2 n) 2 = Some n)
    by (intros; apply part_digits; cbn; lia).
  assert (Ey : try_i 32 (c_year c) = Some (c_year c)) by (unfold try_i; rewrite decide_True; [done|unfold fits_i; cbn; lia]).
  pose proof (E2 (c_month c) ltac:(lia)) as Em. pose proof (E2 (c_day c) ltac:(lia)) as Ed.
  pose proof (E2 (c_hour c) ltac:(lia)) as Eh. pose proof (E2 (c_minute c / 5 * 5) ltac:(dlia)) as Emi.
  unfold plain_period, open_span, plain_names. clear E2. revert E4 Em Ed Eh Emi.
  generalize (digits 4 (c_year c)) (digits 2 (c_month c)) (digits 2 (c_day c)) (digits 2 (c_hour c))
    (digits 2 (c_minute c / 5 * 5)). intros ny nm nd nh nb Eny Enm End Enh Enb.
  assert (depth = 0 \/ depth = 1 \/ depth = 2 \/ depth = 3 \/ depth = 4)%nat as Hcases by lia.
  repeat destruct Hcases as [->|Hcases]; [..|subst depth];
    cbn -[partition_number try_i Z.modulo LEVEL_3_MINUTES Z.div];
    rewrite (bool_decide_true (0%nat = 0%nat)) by reflexivity;
    repeat rewrite bool_decide_false by lia; rewrite Eny, ?Enm, ?End, ?Enh, ?Enb;
    cbn -[try_i Z.modulo LEVEL_3_MINUTES Z.div]; unfold LEVEL_3_MINUTES; rewrite ?Z_mod_mult;
    cbn -[try_i Z.modulo Z.div]; by rewrite Ey.
Qed.

Lemma hive_period_names c depth :
  valid c = true -> four_digits c -> (depth < 3)%nat ->
  hive_period (take (S depth) (hive_names c)) = open_span c (span_at Partitioning.Hive depth).
Proof.
  intros Hv Hy Hd. pose proof Hv as (Hm & Hdm & Hh & Hmi & _)%valid_spec. unfold four_digits in Hy.
  pose proof (days_in_month_max (c_year c) (c_month c)).
  assert (E4 : partition_number (digits 4 (c_year c)) 4 = Some (c_year c)) by (apply part_digits; cbn; lia).
  assert (E2 : forall n, 0 <= n < 100 -> partition_number (digits 2 n) 2 = Some n)
    by (intros; apply part_digits; cbn; lia).
  assert (Ey : try_i 32 (c_year c) = Some (c_year c)) by (unfold try_i; rewrite decide_True; [done|unfold fits_i; cbn; lia]).
  assert (Hdash : forall w n, x2d ∉ digits w n) by (intros w n; by apply ascii_digit_not; [apply digits_all|]).
  assert (Edate : forall (k : Z * Z * Z -> option (DateTime * Span)),
    (date ← take (S depth) (hive_names c) !! 0%nat ≫= strip_prefix (str "date=");
     '(year, rest) ← split_once x2d date;
     '(month, day) ← split_once x2d rest;
     year ← partition_number year 4 ≫= try_i 32;
     month ← partition_number month 2;
     day ← partition_number day 2; k (year, month, day)) = k (c_year c, c_month c, c_day c)).
  { intros k. unfold hive_names. cbn [take lookup list_lookup mbind option_bind].
    rewrite strip_prefix_app. cbn [mbind option_bind]. change (str "-") with [x2d]. cbn [app].
    rewrite split_once_first by done. cbn [mbind option_bind]. rewrite split_once_first by done. cbn [mbind option_bind].
    rewrite E4. cbn [mbind option_bind]. rewrite Ey. cbn [mbind option_bind]. rewrite !E2 by lia. done. }
  unfold hive_period. rewrite (Edate (fun '(year, month, day) => _)). clear Edate.
  unfold open_span, hive_names.
  assert (depth = 0 \/ depth = 1 \/ depth = 2)%nat as Hcases by lia.
  repeat destruct Hcases as [->|Hcases]; [..|subst depth];
    cbn [take lookup list_lookup span_at span_start c_year c_month c_day c_hour c_minute c_second mbind option_bind];
    rewrite ?strip_prefix_app; cbn [mbind option_bind]; rewrite ?E2 by dlia; cbn [mbind option_bind]; try reflexivity.
  unfold LEVEL_3_MINUTES. rewrite Z_mod_mult. reflexivity.
Qed.

(** Every directory a path passes through is a partition, whose period holds
    the stamp. *)
Lemma partition_holds self stamp depth name :
  four_digits (civil stamp) -> names_at self.(partitioning) (civil stamp) !! depth = Some name ->
  exists p, period self (self.(root) ++ take depth (names_at self.(partitioning) (civil stamp))) (from_utf8_lossy name) = Some p /\
    p.(p_start) <= timestamp stamp < p.(p_end).
Proof.
  intros Hy Hn. pose proof (Forall_lookup_1 _ _ _ _ (names_utf8 _ _) Hn) as Hu.
  destruct (civil_law stamp) as [Hv _].
  unfold period. rewrite relative_app. cbn [mbind option_bind]. rewrite lossy_names, from_utf8_lossy_id by done.
  rewrite <- (take_S_r _ _ _ Hn). pose proof (lookup_lt_Some _ _ _ Hn) as Hlt.
  destruct (span_holds stamp (span_at self.(partitioning) depth) Hy) as (start & end_ & Eo & Ee & Hin).
  unfold zlen. rewrite length_take_le by lia.
  assert (Hperiod : match self.(partitioning) with
    | Partitioning.Plain => plain_period (take (S depth) (names_at self.(partitioning) (civil stamp)))
    | Partitioning.Hive => hive_period (take (S depth) (names_at self.(partitioning) (civil stamp))) end
    = Some (start, span_at self.(partitioning) depth)).
  { rewrite <- Eo. destruct self.(partitioning); cbn in Hlt; [apply plain_period_names|apply hive_period_names]; done || lia. }
  rewrite (proj2 (Z.ltb_ge _ _)); [|destruct self.(partitioning); cbn in *; lia].
  rewrite Hperiod. cbn [mbind option_bind]. rewrite Ee. cbn [mbind option_bind]. by eexists.
Qed.
End spans.

(** ** Ranges *)

Definition bound_ok (b : Bound) : Prop :=
  match b with Included z | Excluded z => fits_i 64 z | Unbounded => True end.

Definition range_ok (range : Range) : Prop := bound_ok range.(start_bound) /\ bound_ok range.(end_bound).

Lemma to_signed_small w z : 0 < w -> fits_i w z -> to_signed w z = z.
Proof.
  intros Hw Hz. rewrite <- (to_signed_wrap w z) at 2 by done. unfold to_signed, wrap. by rewrite Z.mod_mod by lia.
Qed.

(** A period around an instant of a range overlaps the range. *)
Lemma overlaps_contains p range z :
  range_ok range -> fits_i 64 z -> contains range z = true -> p.(p_start) <= z < p.(p_end) -> overlaps p range = true.
Proof.
  intros [Hs He] Hz Hc Hp. unfold contains in Hc. apply andb_true_iff in Hc as [H1 H2].
  unfold overlaps. apply andb_true_iff. destruct range as [s e]. cbn [start_bound end_bound] in *. split.
  - destruct s as [a|a|]; [lia| |done]. cbn in Hs. unfold fits_i in *. rewrite to_signed_small; [lia|lia|]. unfold fits_i. lia.
  - destruct e; [lia|lia|done].
Qed.

(** ** Trees *)

(** Induction over a tree, with every entry of a directory. *)
Definition Node_tree_ind (P : Node -> Prop) (file : P FileNode) (other : P OtherNode)
    (dir : forall es, Forall (fun e => P e.2) es -> P (DirNode es)) : forall node, P node :=
  fix go node :=
    match node with
    | FileNode => file
    | OtherNode => other
    | DirNode es =>
        dir es ((fix all es : Forall (fun e => P e.2) es :=
          match es with [] => Forall_nil_2 _ | e :: es => Forall_cons_2 _ e es (go e.2) (all es) end) es)
    end.

(** [inside node path below]: [below] is found in [node] under [path]. *)
Inductive inside : Node -> Path -> Node -> Prop :=
  | inside_here node : inside node [] node
  | inside_down es name child path below :
      (name, child) ∈ es -> inside child path below -> inside (DirNode es) (name :: path) below.

Lemma inside_snoc node path es name child :
  inside node path (DirNode es) -> (name, child) ∈ es -> inside node (path ++ [name]) child.
Proof.
  intros H Hin. remember (DirNode es) as d eqn:E. induction H; subst; cbn.
  - econstructor; [done|constructor].
  - econstructor; [done|auto].
Qed.

Lemma inside_snoc_inv node path name child :
  inside node (path ++ [name]) child -> exists es, inside node path (DirNode es) /\ (name, child) ∈ es.
Proof.
  revert node. induction path as [|n path IH]; intros node H; cbn in H; inversion_clear H.
  - inversion H1; subst. eexists. split; [constructor|done].
  - destruct (IH _ H1) as (es' & Hi & Hin). exists es'. split; [by econstructor|done].
Qed.

Section tree.
Context `{CL : Calendar}.

(** A partition directory of the layout that may hold files of the range. *)
Definition wanted (self : Layout) (range : Range) (dir : Path) (name : bytes) : Prop :=
  exists p, period self dir (from_utf8_lossy name) = Some p /\ overlaps p range = true.

Definition visit_entry (self : Layout) (range : Range) (dir : Path) (e : bytes * Node) : list Visit :=
  let '(file_name, child) := e in
  let name := from_utf8_lossy file_name in
  let path := dir ++ [file_name] in
  match child with
  | DirNode _ =>
      match period self dir name with
      | Some p => if overlaps p range then walk self path child range ++ [LeaveDir path] else []
      | None => []
      end
  | FileNode =>
      match name_of self name with
      | Some (window, temporary) => [VisitFile (mkEntry path window temporary)]
      | None => []
      end
  | OtherNode => []
  end.

Lemma walk_dir self dir es range : walk self dir (DirNode es) range = mjoin (visit_entry self range dir <$> es).
Proof.
  cbn [walk]. induction es as [|[n c] es IH]; [done|]. rewrite fmap_cons. change (visit_entry self range dir (n, c) ++ walk self dir (DirNode es) range = visit_entry self range dir (n, c) ++ mjoin (visit_entry self range dir <$> es)).
  by rewrite <- IH.
Qed.

(** The directories of [path] lead from one directory to another, all of them
    wanted. *)
Inductive descends (self : Layout) (range : Range) : Path -> list (bytes * Node) -> Path -> list (bytes * Node) -> Prop :=
  | descends_here dir es : descends self range dir es [] es
  | descends_down dir es name es1 path es2 :
      (name, DirNode es1) ∈ es -> wanted self range dir name ->
      descends self range (dir ++ [name]) es1 path es2 -> descends self range dir es (name :: path) es2.

(** What a walk visits at an entry of a directory it reached. *)
Definition visits (self : Layout) (range : Range) (dir : Path) (name : bytes) (child : Node) (v : Visit) : Prop :=
  match v with
  | VisitFile e =>
      child = FileNode /\ e.(e_path) = dir ++ [name] /\
      name_of self (from_utf8_lossy name) = Some (e.(window), e.(temporary))
  | LeaveDir path =>
      (exists es, child = DirNode es) /\ wanted self range dir name /\ path = dir ++ [name]
  end.

Lemma visit_entry_spec self range dir name child v :
  v ∈ visit_entry self range dir (name, child) <->
  visits self range dir name child v \/
  exists es, child = DirNode es /\ wanted self range dir name /\ v ∈ walk self (dir ++ [name]) child range.
Proof.
  cbn [visit_entry]. destruct child as [|es|].
  - split.
    + destruct (name_of _ _) as [[w t]|] eqn:E; [|by intros ?%elem_of_nil].
      intros ->%list_elem_of_singleton. left. by repeat split.
    + intros [H|(es & H & _)]; [|done]. destruct v as [[p w t]|p]; cbn in H; [|by destruct H as ([es H] & _)].
      destruct H as (_ & -> & ->). by apply list_elem_of_singleton.
  - split.
    + destruct (period _ _ _) as [p|] eqn:E; [|by intros ?%elem_of_nil].
      destruct (overlaps p range) eqn:Eo; [|by intros ?%elem_of_nil].
      assert (wanted self range dir name) by (by exists p).
      intros [Hv|Hv]%elem_of_app; [right; by exists es|left]. apply list_elem_of_singleton in Hv as ->. by split_and!; [exists es|..].
    + assert (Hw : wanted self range dir name -> v ∈ walk self (dir ++ [name]) (DirNode es) range ++ [LeaveDir (dir ++ [name])] ->
        v ∈ match period self dir (from_utf8_lossy name) with
          | Some p => if overlaps p range then walk self (dir ++ [name]) (DirNode es) range ++ [LeaveDir (dir ++ [name])] else []
          | None => [] end) by (by intros (p & -> & ->)).
      intros [H|(es' & _ & H & H')].
      * destruct v as [e|p]; cbn in H; [by destruct H as [H _]|]. destruct H as (_ & H & ->).
        apply Hw; [done|]. apply elem_of_app. right. by apply list_elem_of_singleton.
      * apply Hw; [done|]. apply elem_of_app. by left.
  - split; [by intros ?%elem_of_nil|]. intros [H|(es & H & _)]; [|done].
    destruct v; cbn in H; [by destruct H|by destruct H as ([es H] & _)].
Qed.

(** Every visit is that of an entry of a directory reached through wanted
    partitions. *)
Lemma walk_visits self range node dir v :
  v ∈ walk self dir node range <->
  exists path es name child,
    match node with
    | DirNode es0 => descends self range dir es0 path es /\ (name, child) ∈ es /\
        visits self range (dir ++ path) name child v
    | _ => False
    end.
Proof.
  revert dir. induction node as [| |es Hes] using Node_tree_ind; intros dir;
    [split; [by intros ?%elem_of_nil|by intros (? & ? & ? & ? & ?)]..|].
  rewrite walk_dir. rewrite list_elem_of_join. split.
  - intros (l & Hv & Hl). apply list_elem_of_fmap in Hl as ([name child] & -> & Hin).
    apply visit_entry_spec in Hv as [Hv|(es1 & -> & Hw & Hv)].
    + exists [], es, name, child. rewrite app_nil_r. split_and!; [constructor|done|done].
    + rewrite Forall_forall in Hes. apply (Hes _ Hin) in Hv as (path & es2 & n & c & Hd & Hin' & Hv).
      exists (name :: path), es2, n, c. rewrite <- app_assoc in Hv. split_and!; [by econstructor|done|done].
  - intros (path & es2 & name & child & Hd & Hin & Hv). inversion Hd; subst.
    + exists (visit_entry self range dir (name, child)). split; [|by apply (list_elem_of_fmap_2 _ _ (name, child))].
      apply visit_entry_spec. left. by rewrite app_nil_r in Hv.
    + exists (visit_entry self range dir (name0, DirNode es1)).
      split; [|by apply (list_elem_of_fmap_2 _ _ (name0, DirNode es1))].
      apply visit_entry_spec. right. exists es1. split_and!; [done|done|].
      rewrite Forall_forall in Hes. apply (Hes _ H). exists path0, es2, name, child.
      rewrite <- app_assoc. by split_and!.
Qed.

(** ** Files *)

(** A listed file: its name is one of the layout's, its window in the range,
    and every directory on its way wanted. *)
Definition listed (self : Layout) (range : Range) (es0 : list (bytes * Node)) (e : Entry) : Prop :=
  exists path es name, descends self range self.(root) es0 path es /\ (name, FileNode) ∈ es /\
    e.(e_path) = self.(root) ++ path ++ [name] /\
    name_of self (from_utf8_lossy name) = Some (e.(window), e.(temporary)) /\
    contains range (timestamp e.(window)) = true.

Lemma elem_of_files self range es0 e : e ∈ files self (DirNode es0) range <-> listed self range es0 e.
Proof.
  unfold files, listed. rewrite list_elem_of_omap. split.
  - intros ([e'|p] & Hv & He); [|done]. destruct (contains _ _) eqn:Hc; [|done]. injection He as ->.
    apply walk_visits in Hv as (path & es & name & child & Hd & Hin & Hv). destruct Hv as (-> & Hp & Hn).
    exists path, es, name. rewrite app_assoc. by split_and!.
  - intros (path & es & name & Hd & Hin & Hp & Hn & Hc). exists (VisitFile e). rewrite Hc. split; [|done].
    apply walk_visits. exists path, es, name, FileNode. split_and!; [done|done|]. cbn. by rewrite <- app_assoc.
Qed.

Lemma elem_of_dirs self range es0 p :
  p ∈ dirs self (DirNode es0) range <->
  exists path es name es1, descends self range self.(root) es0 path es /\ (name, DirNode es1) ∈ es /\
    wanted self range (self.(root) ++ path) name /\ p = self.(root) ++ path ++ [name].
Proof.
  unfold dirs. rewrite list_elem_of_omap. split.
  - intros ([e'|p'] & Hv & He); [done|]. injection He as ->.
    apply walk_visits in Hv as (path & es & name & child & Hd & Hin & Hv). destruct Hv as ([es1 ->] & Hw & ->).
    exists path, es, name, es1. rewrite <- app_assoc. by split_and!.
  - intros (path & es & name & es1 & Hd & Hin & Hw & ->). exists (LeaveDir (self.(root) ++ path ++ [name])). split; [|done].
    apply walk_visits. exists path, es, name, (DirNode es1). split_and!; [done|done|]. cbn. rewrite <- app_assoc.
    split_and!; [by exists es1|done|done].
Qed.

(** ** The layout's own files are found *)

Lemma inside_descends self range dir path es es' :
  (forall i n, path !! i = Some n -> wanted self range (dir ++ take i path) n) ->
  inside (DirNode es) path (DirNode es') -> descends self range dir es path es'.
Proof.
  revert dir es. induction path as [|name path IH]; intros dir es Hw Hi; inversion_clear Hi; [constructor|].
  assert (exists es1, child = DirNode es1) as [es1 ->] by (inversion H0; by eexists).
  apply (descends_down self range dir es name es1); [done|..].
  - pose proof (Hw 0%nat name eq_refl) as H1. by rewrite app_nil_r in H1.
  - apply IH; [|done]. intros i n Hn. rewrite <- app_assoc. by apply (Hw (S i) n).
Qed.

Lemma descends_inside self range dir path es es' :
  descends self range dir es path es' -> inside (DirNode es) path (DirNode es').
Proof. induction 1; [constructor|by econstructor]. Qed.

Lemma descends_wanted self range dir path es es' :
  descends self range dir es path es' -> forall i n, path !! i = Some n -> wanted self range (dir ++ take i path) n.
Proof.
  induction 1 as [|dir es n es1 path es2 Hin Hw _ IH]; [done|]. intros [|i] n' H.
  - injection H as <-. by rewrite app_nil_r.
  - specialize (IH i n' H). by rewrite <- app_assoc in IH.
Qed.

(** The name of a window's file, or of its temporary file. *)
Definition file_name (self : Layout) (stamp : DateTime) (suffix : bytes) (pid : option Z) : bytes :=
  match pid with
  | None => own_name self stamp suffix
  | Some pid => str "." ++ own_name self stamp suffix ++ str "." ++ show pid ++ str ".tmp"
  end.

Definition layout_ok (self : Layout) : Prop :=
  utf8_valid self.(prefix) = true /\ utf8_valid self.(extension) = true /\ extension_ok self.

Lemma file_name_utf8 self stamp suffix pid :
  layout_ok self -> four_digits (civil stamp) -> numbered suffix -> utf8_valid (file_name self stamp suffix pid) = true.
Proof.
  intros (Hp & He & _) Hy Hs. destruct (stamp_text stamp Hy) as [Es _].
  assert (Hstamp : utf8_valid (format STAMP_FORMAT stamp) = true).
  { rewrite strftime_stamp in Es. apply (inj Some) in Es. rewrite <- Es.
    repeat (apply utf8_valid_app; [done || apply digits_utf8|]). done. }
  assert (Hsuffix : utf8_valid suffix = true).
  { destruct Hs as [->|(n & -> & Hn)]; [done|]. apply utf8_valid_app; [done|by apply number_utf8]. }
  assert (Hown : utf8_valid (own_name self stamp suffix) = true)
    by (unfold own_name; repeat (apply utf8_valid_app; [done|]); done).
  destruct pid as [pid|]; [|done]. cbn [file_name].
  repeat (apply utf8_valid_app; [done || apply number_utf8, show_number|]). done.
Qed.

(** A file under the directories of its window, at whatever depth, is listed
    for every range holding the window. *)
Lemma own_file_listed self range es0 stamp suffix pid k :
  layout_ok self -> four_digits (civil stamp) -> numbered suffix -> range_ok range ->
  contains range (timestamp stamp) = true ->
  let path := take k (names_at self.(partitioning) (civil stamp)) ++ [file_name self stamp suffix pid] in
  inside (DirNode es0) path FileNode ->
  exists w, mkEntry (self.(root) ++ path) w (bool_decide (is_Some pid)) ∈ files self (DirNode es0) range /\
    timestamp w = timestamp stamp.
Proof.
  intros Hl Hy Hs Hr Hc path Hi. destruct (inside_snoc_inv _ _ _ _ Hi) as (es & Hd & Hin).
  assert (Hname : exists w, name_of self (from_utf8_lossy (file_name self stamp suffix pid))
    = Some (w, bool_decide (is_Some pid)) /\ timestamp w = timestamp stamp).
  { rewrite from_utf8_lossy_id by (by apply file_name_utf8). destruct Hl as (_ & _ & He).
    destruct pid as [pid|]; [by apply temp_name_read|by apply own_name_read]. }
  destruct Hname as (w & Hn & Ht). exists w. split; [|done]. apply elem_of_files.
  exists (take k (names_at self.(partitioning) (civil stamp))), es, (file_name self stamp suffix pid).
  split_and!; [|done|done|done|by cbn; rewrite Ht].
  apply inside_descends; [|done]. intros i n Hn'. apply lookup_take_Some in Hn' as [Hn' Hlt].
  rewrite take_take, Nat.min_l by lia.
  destruct (partition_holds self stamp i n Hy Hn') as (p & Hp & Hin'). exists p. split; [done|].
  eapply overlaps_contains; [done| |done|done]. destruct (civil_law stamp) as [Hv Hu].
  pose proof (four_digits_range _ Hv Hy). unfold fits_i. lia.
Qed.

(** ** Directories, deepest first *)

(** No directory names two entries alike. *)
Inductive tree_ok : Node -> Prop :=
  | file_tree_ok : tree_ok FileNode
  | other_tree_ok : tree_ok OtherNode
  | dir_tree_ok es : NoDup es.*1 -> Forall (fun e => tree_ok e.2) es -> tree_ok (DirNode es).

Definition left_dir (v : Visit) : option Path :=
  match v with LeaveDir path => Some path | VisitFile _ => None end.

(** None of the paths is followed by one it leads to, or by itself. *)
Definition deepest_first : list Path -> Prop := StronglySorted (fun p q => ~ p `prefix_of` q).

Lemma left_dir_under self range dir es p :
  p ∈ omap left_dir (walk self dir (DirNode es) range) -> exists name path, p = dir ++ name :: path /\ name ∈ es.*1.
Proof.
  intros (v & Hv & Hp)%list_elem_of_omap. destruct v as [e|p']; [done|]. injection Hp as ->.
  apply walk_visits in Hv as (path & es' & name & child & Hd & Hin & Hv). destruct Hv as (_ & _ & ->).
  rewrite <- app_assoc. inversion Hd; subst.
  - exists name, []. split; [done|]. by apply (list_elem_of_fmap_2 fst _ (name, child)).
  - eexists _, _. cbn. split; [done|]. by apply (list_elem_of_fmap_2 fst _ (name0, DirNode es1)).
Qed.

Lemma left_dir_entry self range dir name child p :
  p ∈ omap left_dir (visit_entry self range dir (name, child)) -> exists path, p = dir ++ name :: path.
Proof.
  intros (v & Hv & Hp)%list_elem_of_omap. destruct v as [e|p']; [done|]. injection Hp as ->.
  apply visit_entry_spec in Hv as [(_ & _ & ->)|(es & -> & _ & Hv)]; [by exists []|].
  destruct (left_dir_under self range (dir ++ [name]) es p) as (n & path & -> & _).
  { apply list_elem_of_omap. by exists (LeaveDir p). }
  exists (n :: path). by rewrite <- app_assoc.
Qed.

Lemma walk_deepest_first self range node : tree_ok node ->
  forall dir, deepest_first (omap left_dir (walk self dir node range)).
Proof.
  induction node as [| |es IH] using Node_tree_ind; intros Hok dir; [constructor..|].
  inversion_clear Hok as [| |? Hnd Hes]. rewrite walk_dir.
  induction es as [|[name child] es IHes]; [constructor|].
  apply Forall_cons in IH as [IH1 IH2]. apply Forall_cons in Hes as [Hok1 Hes]. cbn in IH1, Hok1.
  rewrite fmap_cons in Hnd. apply NoDup_cons in Hnd as [Hnew Hnd].
  rewrite fmap_cons. cbn [mjoin list_join]. rewrite omap_app. apply StronglySorted_app. split_and!.
  - intros p q Hp Hq Hpre. apply left_dir_entry in Hp as [path ->].
    rewrite <- walk_dir in Hq. apply left_dir_under in Hq as (n & path' & -> & Hn).
    apply prefix_app_inv in Hpre. apply prefix_cons_inv_1 in Hpre as ->. done.
  - cbn [visit_entry]. destruct child as [|es1|]; [by destruct (name_of _ _) as [[]|]; constructor| |constructor].
    destruct (period _ _ _) as [p|]; [|constructor]. destruct (overlaps p range); [|constructor].
    rewrite omap_app. apply StronglySorted_app. split_and!; [|by apply IH1|repeat constructor].
    intros q r Hq Hr Hpre. apply left_dir_under in Hq as (n & path & -> & _).
    apply list_elem_of_singleton in Hr as ->. destruct Hpre as [k' Hk]. apply (f_equal length) in Hk.
    rewrite !length_app in Hk. cbn in Hk. lia.
  - by apply IHes.
Qed.
End tree.

(** ** What a layout promises *)

Section promises.
Context `{CL : Calendar}.

Definition at_level (self : Layout) (l : Z) : Layout :=
  mkLayout self.(root) self.(prefix) self.(extension) l self.(partitioning).

(** C27: A file written for a window at any level, under its own name, with a
    number or while still being written, is listed for every range of time
    that holds the start of the window, as the file of that window. *)
Theorem written_files_listed self l stamp suffix pid range es :
  layout_ok self -> four_digits (civil stamp) -> numbered suffix -> range_ok range ->
  contains range (timestamp stamp) = true ->
  exists dirs, path_for (at_level self l) stamp = self.(root) ++ dirs ++ [own_name self stamp []] /\
    (inside (DirNode es) (dirs ++ [file_name self stamp suffix pid]) FileNode ->
     exists w, mkEntry (self.(root) ++ dirs ++ [file_name self stamp suffix pid]) w (bool_decide (is_Some pid))
         ∈ files self (DirNode es) range /\ timestamp w = timestamp stamp).
Proof.
  intros Hl Hy Hs Hr Hc.
  exists (take (depth_of self.(partitioning) l) (names_at self.(partitioning) (civil stamp))).
  split; [by rewrite path_for_names|]. intros Hi. by apply own_file_listed.
Qed.

(** C28: Nothing else is listed: an entry is a file of the tree whose name says its
    window, the window starts in the range, and every directory on its way is
    a partition that overlaps the range. *)
Theorem files_only_own self range es e : extension_ok self ->
  e ∈ files self (DirNode es) range ->
  exists dirs name, e.(e_path) = self.(root) ++ dirs ++ [name] /\ inside (DirNode es) (dirs ++ [name]) FileNode /\
    names_window self (from_utf8_lossy name) e.(window) e.(temporary) /\ contains range (timestamp e.(window)) = true /\
    forall i n, dirs !! i = Some n -> wanted self range (self.(root) ++ take i dirs) n.
Proof.
  intros He (dirs & es' & name & Hd & Hin & Hp & Hn & Hc)%elem_of_files. exists dirs, name.
  split_and!; [done| |by apply name_of_spec|done|].
  - apply (inside_snoc _ _ es'); [by eapply descends_inside|done].
  - by eapply descends_wanted.
Qed.

(** The partition directories that overlap a range, each once, and each before
    the directory that holds it. *)
Theorem dirs_spec self range es : tree_ok (DirNode es) ->
  deepest_first (dirs self (DirNode es) range) /\
  forall p, p ∈ dirs self (DirNode es) range <->
    exists path name es1, p = self.(root) ++ path ++ [name] /\ inside (DirNode es) (path ++ [name]) (DirNode es1) /\
      forall i n, (path ++ [name]) !! i = Some n -> wanted self range (self.(root) ++ take i (path ++ [name])) n.
Proof.
  intros Hok. split; [by apply walk_deepest_first|]. intros p. rewrite elem_of_dirs. split.
  - intros (path & es' & name & es1 & Hd & Hin & Hw & ->). exists path, name, es1. split; [done|].
    assert (Hd' : descends self range (root self) es (path ++ [name]) es1).
    { revert Hd Hw. generalize (root self). clear -Hin. intros dir Hd.
      induction Hd as [|dir es n es0 path es2 Hin' Hw' Hd IH]; intros Hw; cbn.
      - rewrite app_nil_r in Hw. econstructor; [done|done|constructor].
      - econstructor; [done|done|]. apply IH; [done|]. by rewrite <- app_assoc. }
    split; [by eapply descends_inside|by eapply descends_wanted].
  - intros (path & name & es1 & -> & Hi & Hw). apply inside_snoc_inv in Hi as (es' & Hi & Hin).
    exists path, es', name, es1. split_and!; [|done| |done].
    + apply inside_descends; [|done]. intros i n Hn. pose proof (lookup_lt_Some _ _ _ Hn).
      rewrite <- (take_app_le path [name]) by lia. apply Hw. by rewrite lookup_app_l.
    + specialize (Hw (length path) name). rewrite take_app_length in Hw. apply Hw.
      by rewrite lookup_app_r, Nat.sub_diag.
Qed.
End promises.
