(* ===== verification/Storage.v ===== *)
(** The file system the collector writes to: what std::fs does, as an
    interface with the laws POSIX documents, and an instance.

    A path is the list of its components; [look] says what is at a path, and
    [content] what is in a file.  A file is known by a number, as several
    names may be links to it and a writer keeps it whatever it is called. *)

From Stdlib Require Import ZArith Lia Strings.Byte.
From stdpp Require Import base tactics numbers list gmap.
From S2P Require Import Prelude Std Crates Calendar Layout LayoutFacts.
#[local] Open Scope Z_scope.

(** [io::ErrorKind], as far as the source tells kinds apart. *)
Inductive ErrorKind := NotFound | AlreadyExists | OtherError.

#[export] Instance ErrorKind_eq_dec : EqDecision ErrorKind.
Proof. solve_decision. Defined.

(** [io::Result] *)
Abbreviation IoResult A := (A + ErrorKind)%type.

(** What a path names; [Special] is a link, a device, a socket. *)
Inductive Obj := File (file : N) | Dir | Special.

#[export] Instance Obj_eq_dec : EqDecision Obj.
Proof. solve_decision. Defined.

Inductive Kind := KindFile | KindDir | KindOther.

#[export] Instance Kind_eq_dec : EqDecision Kind.
Proof. solve_decision. Defined.

Definition kind_of (o : Obj) : Kind :=
  match o with File _ => KindFile | Dir => KindDir | Special => KindOther end.

(** Two views that agree, but where [p] is. *)
Definition same_but (p : Path -> Prop) (f g : Path -> option Obj) : Prop := forall q, ~ p q -> f q = g q.

Abbreviation same f g := (forall q : Path, f q = g q :> option Obj).

Class Storage := {
  World : Type;
  look : World -> Path -> option Obj;
  content : World -> N -> bytes;
  (* a directory this process may list *)
  readable : World -> Path -> Prop;

  create_dir_all : World -> Path -> World * IoResult unit;
  (* [OpenOptions] with create, write and truncate *)
  open_truncate : World -> Path -> World * IoResult N;
  (* one [write] to an open file: how many octets it took *)
  append : World -> N -> bytes -> World * IoResult Z;
  write_stdout : World -> bytes -> World * IoResult Z;
  hard_link : World -> Path -> Path -> World * IoResult unit;
  rename : World -> Path -> Path -> World * IoResult unit;
  path_exists : World -> Path -> bool;
  remove_file : World -> Path -> World * IoResult unit;
  remove_dir : World -> Path -> World * IoResult unit;
  (* nothing where a directory cannot be read *)
  read_dir : World -> Path -> list (bytes * Kind);

  create_dir_all_law : forall w p,
    forall q, look (create_dir_all w p).1 q = look w q \/
      (q `prefix_of` p /\ look w q = None /\ look (create_dir_all w p).1 q = Some Dir);
  open_truncate_law : forall w p,
    match open_truncate w p with
    | (w', inl i) =>
        (look w p = Some (File i) \/ (look w p = None /\ forall q, look w q <> Some (File i))) /\
        look w' p = Some (File i) /\ same_but (eq p) (look w) (look w') /\
        content w' i = [] /\ forall j, j <> i -> content w' j = content w j
    | (w', inr _) => same (look w) (look w') /\ forall j, content w' j = content w j
    end;
  append_law : forall w i s,
    same (look w) (look (append w i s).1) /\
    match append w i s with
    | (w', inl n) =>
        0 <= n <= zlen s /\ content w' i = content w i ++ take (Z.to_nat n) s /\
        forall j, j <> i -> content w' j = content w j
    | (w', inr _) => forall j, content w' j = content w j
    end;
  write_stdout_law : forall w s,
    same (look w) (look (write_stdout w s).1) /\ (forall j, content (write_stdout w s).1 j = content w j) /\
    match write_stdout w s with (_, inl n) => 0 <= n <= zlen s | (_, inr _) => True end;
  hard_link_law : forall w p q,
    match hard_link w p q with
    | (w', inl _) =>
        look w p <> None /\ look w q = None /\ look w' q = look w p /\ same_but (eq q) (look w) (look w')
    | (w', inr AlreadyExists) => look w q <> None /\ same (look w) (look w')
    | (w', inr _) => same (look w) (look w')
    end;
  (* of a file, to a path that is not another name of it, where nothing would
     be done *)
  rename_law : forall w p q i, look w p = Some (File i) -> look w q <> Some (File i) ->
    match rename w p q with
    | (w', inl _) =>
        look w' q = Some (File i) /\ look w' p = None /\ same_but (fun r => r = p \/ r = q) (look w) (look w')
    | (w', inr _) => same (look w) (look w')
    end;
  path_exists_law : forall w p o, look w p = Some o -> o <> Special -> path_exists w p = true;
  path_exists_look : forall w p, path_exists w p = true -> look w p <> None;
  remove_file_law : forall w p,
    match remove_file w p with
    | (w', inl _) => look w p <> None /\ look w p <> Some Dir /\ look w' p = None /\ same_but (eq p) (look w) (look w')
    | (w', inr NotFound) => look w p = None /\ same (look w) (look w')
    | (w', inr _) => same (look w) (look w')
    end;
  remove_dir_law : forall w p,
    match remove_dir w p with
    | (w', inl _) =>
        look w p = Some Dir /\ (forall name, look w (p ++ [name]) = None) /\
        look w' p = None /\ same_but (eq p) (look w) (look w')
    | (w', inr _) => same (look w) (look w')
    end;
  (* names come and go, files stay what they are *)
  create_dir_all_content : forall w p i, content (create_dir_all w p).1 i = content w i;
  hard_link_content : forall w p q i, content (hard_link w p q).1 i = content w i;
  rename_content : forall w p q i, content (rename w p q).1 i = content w i;
  remove_file_content : forall w p i, content (remove_file w p).1 i = content w i;
  remove_dir_content : forall w p i, content (remove_dir w p).1 i = content w i;
  read_dir_names : forall w p, NoDup (read_dir w p).*1;
  read_dir_law : forall w p name kind,
    (name, kind) ∈ read_dir w p -> exists o, look w (p ++ [name]) = Some o /\ kind_of o = kind;
  read_dir_all : forall w p name o,
    readable w p -> look w (p ++ [name]) = Some o -> (name, kind_of o) ∈ read_dir w p;
}.

(** ** An instance: paths and what they name *)

#[export] Program Instance byte_countable : Countable byte := inj_countable' u8_of byte_of _.
Next Obligation. apply byte_of_u8_of. Qed.

Definition parent_is_dir (w : gmap Path Obj) (p : Path) : bool := bool_decide (w !! removelast p = Some Dir).

(** Every directory on the way to a path, from the top. *)
Definition ancestors (p : Path) : list Path := (fun n => take n p) <$> seq 0 (S (length p)).

Definition make_dirs (w : gmap Path Obj) (ps : list Path) : gmap Path Obj :=
  foldl (fun w p => match w !! p with None => <[p := Dir]> w | Some _ => w end) w ps.

Definition link_store (w : gmap Path Obj) (p q : Path) : gmap Path Obj * IoResult unit :=
  match w !! p, w !! q with
  | None, _ => (w, inr NotFound)
  | Some _, Some _ => (w, inr AlreadyExists)
  | Some o, None => if parent_is_dir w q then (<[q := o]> w, inl tt) else (w, inr NotFound)
  end.

Definition rename_store (w : gmap Path Obj) (p q : Path) : gmap Path Obj * IoResult unit :=
  match w !! p, w !! q with
  | None, _ => (w, inr NotFound)
  | Some Dir, _ | _, Some Dir => (w, inr OtherError)
  | Some (File i), Some (File j) =>
      if bool_decide (i = j) then (w, inl tt)
      else if parent_is_dir w q then (<[q := File i]> (delete p w), inl tt) else (w, inr NotFound)
  | Some o, _ => if parent_is_dir w q then (<[q := o]> (delete p w), inl tt) else (w, inr NotFound)
  end.

Definition files_of (w : gmap Path Obj) : list N := omap (fun '(_, o) => match o with File i => Some i | _ => None end) (map_to_list w).

Definition open_store (w : gmap Path Obj) (c : gmap N bytes) (p : Path) : gmap Path Obj * gmap N bytes * IoResult N :=
  match w !! p with
  | Some (File i) => (w, <[i := []]> c, inl i)
  | Some _ => (w, c, inr OtherError)
  | None =>
      let i := fresh (files_of w) in
      if parent_is_dir w p then (<[p := File i]> w, <[i := []]> c, inl i) else (w, c, inr NotFound)
  end.

Definition unlink_store (w : gmap Path Obj) (p : Path) : gmap Path Obj * IoResult unit :=
  match w !! p with
  | None => (w, inr NotFound)
  | Some Dir => (w, inr OtherError)
  | Some _ => (delete p w, inl tt)
  end.

Definition list_store (w : gmap Path Obj) (p : Path) : list (bytes * Kind) :=
  omap (fun '(q, o) => match relative p q with Some [name] => Some (name, kind_of o) | _ => None end) (map_to_list w).

Definition rmdir_store (w : gmap Path Obj) (p : Path) : gmap Path Obj * IoResult unit :=
  match w !! p, list_store w p with
  | Some Dir, [] => (delete p w, inl tt)
  | None, _ => (w, inr NotFound)
  | _, _ => (w, inr OtherError)
  end.

(** ** It is one *)

Lemma make_dirs_spec ps w q :
  make_dirs w ps !! q = w !! q \/ (q ∈ ps /\ w !! q = None /\ make_dirs w ps !! q = Some Dir).
Proof.
  unfold make_dirs. revert w. induction ps as [|p ps IH]; intros w; [by left|]. cbn [foldl].
  destruct (w !! p) as [o|] eqn:E; [destruct (IH w) as [H|(H1 & H2)]; [by left|right; split; [by right|done]]|].
  destruct (IH (<[p := Dir]> w)) as [H|(H1 & H2 & H3)].
  - destruct (decide (q = p)) as [->|Hq]; [rewrite lookup_insert_eq in H|rewrite lookup_insert_ne in H by done; by left].
    right. split_and!; [by left|done|done].
  - destruct (decide (q = p)) as [->|Hq]; [by rewrite lookup_insert_eq in H2|].
    rewrite lookup_insert_ne in H2 by done. right. split_and!; [by right|done|done].
Qed.

Lemma elem_of_list_store w p name kind :
  (name, kind) ∈ list_store w p <-> exists o, w !! (p ++ [name]) = Some o /\ kind_of o = kind.
Proof.
  unfold list_store. rewrite list_elem_of_omap. split.
  - intros ([q o] & Hin & H). apply elem_of_map_to_list in Hin.
    destruct (relative p q) as [[|n [|]]|] eqn:E; try done. injection H as <- <-.
    apply relative_Some in E as ->. by exists o.
  - intros (o & Hl & <-). exists (p ++ [name], o). split; [by apply elem_of_map_to_list|]. by rewrite relative_app.
Qed.

Lemma list_store_names w p : NoDup (list_store w p).*1.
Proof.
  unfold list_store. pose proof (NoDup_fst_map_to_list w) as H. revert H.
  generalize (map_to_list w). intros l. induction l as [|[q o] l IH]; intros H; [constructor|].
  cbn in H. apply NoDup_cons in H as [Hq H]. cbn [omap list_omap].
  destruct (relative p q) as [[|n [|]]|] eqn:E; try by apply IH. rewrite fmap_cons.
  apply NoDup_cons. split; [|by apply IH]. intros Hin. apply Hq. apply relative_Some in E as ->.
  apply list_elem_of_fmap in Hin as ([n' k] & Hn & Hin). cbn in Hn. subst n'.
  apply list_elem_of_omap in Hin as ([q' o'] & Hin & H').
  destruct (relative p q') as [[|n' [|]]|] eqn:E'; try done. injection H' as -> _. apply relative_Some in E' as ->.
  by apply (list_elem_of_fmap_2 fst _ (p ++ [n], o')).
Qed.

(** Names and files; a write takes all it is given. *)
Record Store := mkStore { names : gmap Path Obj; contents : gmap N bytes }.

Definition on_names {A} (w : Store) (r : gmap Path Obj * A) : Store * A := (mkStore r.1 w.(contents), r.2).

Lemma files_of_fresh w q : w !! q <> Some (File (fresh (files_of w))).
Proof.
  intros H. apply (infinite_is_fresh (files_of w)). unfold files_of at 2. apply list_elem_of_omap.
  exists (q, File (fresh (files_of w))). split; [by apply elem_of_map_to_list|done].
Qed.

#[refine] Definition storage_std : Storage := {|
  World := Store;
  look w p := w.(names) !! p;
  content w i := default [] (w.(contents) !! i);
  readable _ _ := True;
  create_dir_all w p :=
    let dirs := make_dirs w.(names) (ancestors p) in
    (mkStore dirs w.(contents), if bool_decide (dirs !! p = Some Dir) then inl tt else inr OtherError);
  open_truncate w p := let '(n, c, r) := open_store w.(names) w.(contents) p in (mkStore n c, r);
  append w i s := (mkStore w.(names) (<[i := default [] (w.(contents) !! i) ++ s]> w.(contents)), inl (zlen s));
  write_stdout w s := (w, inl (zlen s));
  hard_link w p q := on_names w (link_store w.(names) p q);
  rename w p q := on_names w (rename_store w.(names) p q);
  path_exists w p := match w.(names) !! p with Some (File _) | Some Dir => true | _ => false end;
  remove_file w p := on_names w (unlink_store w.(names) p);
  remove_dir w p := on_names w (rmdir_store w.(names) p);
  read_dir w p := list_store w.(names) p;
|}.
Proof.
  - intros [w c] p q. cbn. destruct (make_dirs_spec (ancestors p) w q) as [H|(H1 & H2 & H3)]; [by left|right].
    split_and!; [|done|done]. unfold ancestors in H1. apply list_elem_of_fmap in H1 as (n & -> & _).
    exists (drop n p). by rewrite take_drop.
  - intros [w c] p. cbn. unfold open_store. destruct (w !! p) as [[i| |]|] eqn:E; cbn; try done.
    + split_and!; [by left|done|done|by rewrite lookup_insert_eq|]. intros j Hj. by rewrite lookup_insert_ne.
    + destruct (parent_is_dir w p); [|done]. cbn.
      split_and!; [right; split; [done|apply files_of_fresh]|by rewrite lookup_insert_eq| |by rewrite lookup_insert_eq|].
      * intros q Hq. by rewrite lookup_insert_ne.
      * intros j Hj. by rewrite lookup_insert_ne.
  - intros [w c] i s. cbn. split; [done|]. pose proof (zlen_nonneg s).
    split_and!; [lia|lia| |intros j Hj; by rewrite lookup_insert_ne].
    rewrite lookup_insert_eq. unfold zlen. by rewrite Nat2Z.id, firstn_all.
  - intros w s. pose proof (zlen_nonneg s). by split_and!.
  - intros [w c] p q. cbn. unfold link_store. destruct (w !! p) as [o|] eqn:Ep; [|done].
    destruct (w !! q) eqn:Eq; [done|]. destruct (parent_is_dir w q); [|done]. cbn.
    split_and!; [done|done|by rewrite lookup_insert_eq|]. intros r Hr. by rewrite lookup_insert_ne.
  - intros [w c] p q i Hp Hpq. cbn in *. unfold rename_store. rewrite Hp. assert (Hne : p <> q) by congruence. destruct (w !! q) as [[j| |]|] eqn:Eq; try done;
      rewrite ?bool_decide_eq_false_2 by congruence;
      (destruct (parent_is_dir w q); [|done]; cbn; split_and!;
        [by rewrite lookup_insert_eq|by rewrite lookup_insert_ne, lookup_delete_eq by done|
         intros r Hr; rewrite lookup_insert_ne, lookup_delete_ne by (intros ->; apply Hr; auto); done]).
  - intros [w c] p o H Ho. cbn in *. rewrite H. by destruct o.
  - intros [w c] p. cbn. by destruct (w !! p).
  - intros [w c] p. cbn. unfold unlink_store. destruct (w !! p) as [[i| |]|] eqn:E; try done;
      (cbn; split_and!; [done|done|by rewrite lookup_delete_eq|intros q Hq; by rewrite lookup_delete_ne]).
  - intros [w c] p. cbn. unfold rmdir_store. destruct (w !! p) as [[i| |]|] eqn:E; try done.
    destruct (list_store w p) as [|e l] eqn:El; [|done]. cbn. split_and!; [done| |by rewrite lookup_delete_eq|].
    + intros name. destruct (w !! (p ++ [name])) as [o|] eqn:Eo; [|done].
      assert (H : (name, kind_of o) ∈ list_store w p) by (apply elem_of_list_store; by exists o).
      rewrite El in H. by apply elem_of_nil in H.
    + intros q Hq. by rewrite lookup_delete_ne.
  - done.
  - done.
  - done.
  - done.
  - done.
  - intros w p. apply list_store_names.
  - intros [w c] p name kind H. by apply elem_of_list_store in H.
  - intros [w c] p name o _ H. apply elem_of_list_store. by exists o.
Defined.
