(* ===== verification/Destination.v ===== *)
(** [rustflow_collect/src/sink/destination.rs]: where the sink's bytes go, and
    how a finished file gets its final name without replacing another. *)

From Stdlib Require Import ZArith Lia Strings.Byte.
From stdpp Require Import base tactics numbers list.
From S2P Require Import Prelude Std Crates Calendar Layout LayoutFacts Storage.
#[local] Open Scope Z_scope.

(** ** Paths *)

(** [Path::file_name], [file_stem], [extension], [with_file_name] and
    [parent]. *)
Definition path_file_name (p : Path) : option bytes :=
  name ← last p; if bool_decide (name = str "..") then None else Some name.

(** A name before and after its last dot, unless that is its first octet. *)
Definition split_file_at_dot (name : bytes) : bytes * option bytes :=
  match rsplit_once x2e name with
  | Some ([], _) | None => (name, None)
  | Some (before, after) => (before, Some after)
  end.

Definition path_file_stem (p : Path) : option bytes := (fun name => (split_file_at_dot name).1) <$> path_file_name p.

Definition path_extension (p : Path) : option bytes := name ← path_file_name p; (split_file_at_dot name).2.

Definition with_file_name (p : Path) (name : bytes) : Path :=
  match path_file_name p with Some _ => removelast p | None => p end ++ [name].

Definition path_parent (p : Path) : option Path := match p with [] => None | _ => Some (removelast p) end.

(** [i64::div_euclid]: nothing where it panics. *)
Definition div_euclid (a b : Z) : option Z :=
  if b =? 0 then None else Some (Z.sgn b * (a / Z.abs b)).

(** ** Destinations *)

Definition MAX_NAME_ATTEMPTS : Z := 1000.

Definition candidates (wanted : Path) : list Path :=
  let stem := default (str "output") (from_utf8_lossy <$> path_file_stem wanted) in
  let extension := default [] ((fun e => str "." ++ from_utf8_lossy e) <$> path_extension wanted) in
  wanted :: ((fun n => with_file_name wanted (stem ++ str "-" ++ show (Z.of_nat n) ++ extension)) <$>
    seq 1 (Z.to_nat (MAX_NAME_ATTEMPTS - 1))).

Definition temp_path (pid : Z) (final_path : Path) : Path :=
  let name := default (str "output") (from_utf8_lossy <$> path_file_name final_path) in
  with_file_name final_path (str "." ++ name ++ str "." ++ show pid ++ str ".tmp").

Section destination.
Context `{CL : Calendar} `{ST : Storage}.

(** The first free candidate, by renaming. *)
Fixpoint rename_first (w : World) (tmp : Path) (cs : list Path) : World * IoResult Path :=
  match cs with
  | [] => (w, inr OtherError)
  | candidate :: cs =>
      if path_exists w candidate then rename_first w tmp cs
      else
        match rename w tmp candidate with
        | (w, inl _) => (w, inl candidate)
        | (w, inr e) => (w, inr e)
        end
  end.

Definition claim_by_rename (w : World) (tmp wanted : Path) : World * IoResult Path :=
  rename_first w tmp (candidates wanted).

(** By linking; where that fails for anything but a taken name, by renaming. *)
Fixpoint link_first (w : World) (tmp wanted : Path) (cs : list Path) : World * IoResult Path :=
  match cs with
  | [] => (w, inr OtherError)
  | candidate :: cs =>
      match hard_link w tmp candidate with
      | (w, inl _) =>
          match remove_file w tmp with
          | (w, inl _) => (w, inl candidate)
          | (w, inr e) => (w, inr e)
          end
      | (w, inr AlreadyExists) => link_first w tmp wanted cs
      | (w, inr _) => claim_by_rename w tmp wanted
      end
  end.

Definition claim_final_name (w : World) (tmp wanted : Path) : World * IoResult Path :=
  link_first w tmp wanted (candidates wanted).

Record PendingRename := mkPending {
  tmp : Path;
  final_path : Path;
  pending_window : DateTime;
  committed : bool;
}.

Definition claim (w : World) (self : PendingRename) : World * IoResult Path :=
  claim_final_name w self.(tmp) self.(final_path).

Definition commit (w : World) (self : PendingRename) : World * IoResult Path := claim w self.

(** [Drop for PendingRename] *)
Definition drop_pending (w : World) (self : PendingRename) : World :=
  if self.(committed) then w else (claim w self).1.

Inductive Destination := Stdout | ToFile (path : Path) | Partitioned (layout : Layout) (interval_secs : Z) | Null.

(** What an encoder writes to. *)
Inductive Writer := StdoutWriter | FileWriter (file : N) | SinkWriter.

Record Opened := mkOpened { writer : Writer; o_pending : option PendingRename; o_rotate_at : option Z }.

Definition create (w : World) (path : Path) : World * IoResult Writer :=
  let '(w, made) := match path_parent path with Some parent => create_dir_all w parent | None => (w, inl tt) end in
  match made with
  | inr e => (w, inr e)
  | inl _ =>
      match open_truncate w path with
      | (w, inl file) => (w, inl (FileWriter file))
      | (w, inr e) => (w, inr e)
      end
  end.

(** Nothing where the division panics. *)
Definition open_for (pid : Z) (self : Destination) (w : World) (now : DateTime) : option (World * IoResult Opened) :=
  match self with
  | Stdout => Some (w, inl (mkOpened StdoutWriter None None))
  | Null => Some (w, inl (mkOpened SinkWriter None None))
  | ToFile path =>
      Some match create w path with
      | (w, inl writer) => (w, inl (mkOpened writer None None))
      | (w, inr e) => (w, inr e)
      end
  | Partitioned layout interval_secs =>
      windows ← div_euclid (timestamp now) interval_secs;
      let window_start := to_signed 64 (windows * interval_secs) in
      let stamp := default now (from_timestamp window_start 0) in
      let final_path := path_for layout stamp in
      let tmp := temp_path pid final_path in
      Some match create w tmp with
      | (w, inl writer) =>
          (w, inl (mkOpened writer (Some (mkPending tmp final_path stamp false))
                     (Some (to_signed 64 (window_start + interval_secs)))))
      | (w, inr e) => (w, inr e)
      end
  end.
End destination.
