(* ===== verification/DestinationFacts.v ===== *)
(** What the destination promises: a window's file is named for the window
    that holds the time it was opened at, and finishing a file never replaces
    another. *)

From Stdlib Require Import ZArith Lia Strings.Byte.
From stdpp Require Import base tactics numbers list.
From S2P Require Import Prelude Std Crates Calendar Layout LayoutFacts Storage Destination.
#[local] Open Scope Z_scope.

(** ** Claiming a name *)

Section claiming.
Context `{ST : Storage}.

Definition taken (w : World) (q : Path) : Prop := look w q <> None.

(** What is at [p] can be lost: nothing, or a link to nothing. *)
Definition free (w : World) (p : Path) : Prop := look w p = None \/ look w p = Some Special.

(** [p] is the first of the candidates not taken. *)
Definition first_free (w : World) (cs : list Path) (p : Path) : Prop :=
  exists before after, cs = before ++ p :: after /\ Forall (taken w) before /\ free w p.

Definition moved (w w' : World) (tmp p : Path) (i : N) : Prop :=
  look w' p = Some (File i) /\ look w' tmp = None /\ same_but (fun r => r = tmp \/ r = p) (look w) (look w').

Lemma first_free_cons w c cs p : taken w c -> first_free w cs p -> first_free w (c :: cs) p.
Proof. intros Hc (before & after & -> & Hb & Hp). exists (c :: before), after. split_and!; [done|by constructor|done]. Qed.

Lemma first_free_head w c cs : free w c -> first_free w (c :: cs) c.
Proof. intros H. exists [], cs. by split_and!. Qed.

Lemma first_free_same w w' cs p : same (look w) (look w') -> first_free w' cs p -> first_free w cs p.
Proof.
  intros Hs (before & after & -> & Hb & Hp). exists before, after. unfold taken, free in *. rewrite Hs.
  split_and!; [done| |done]. eapply Forall_impl; [exact Hb|]. intros q. by rewrite Hs.
Qed.

Lemma rename_first_spec w tmp cs i :
  look w tmp = Some (File i) -> tmp ∉ cs ->
  match rename_first w tmp cs with
  | (w', inl p) => first_free w cs p /\ moved w w' tmp p i
  | (w', inr _) => same (look w) (look w')
  end.
Proof.
  intros Ht. induction cs as [|q cs IH]; intros Hn; [done|].
  apply not_elem_of_cons in Hn as [Hq Hn]. cbn [rename_first].
  destruct (path_exists w q) eqn:He.
  - apply path_exists_look in He. specialize (IH Hn).
    destruct (rename_first w tmp cs) as [w' [p|e]]; [|done]. destruct IH as [H1 H2]. split; [by apply first_free_cons|done].
  - pose proof (rename_law w tmp q i Ht ltac:(by intros E; rewrite (path_exists_law w q _ E) in He)) as H. destruct (rename w tmp q) as [w' [[]|e]]; [|done].
    destruct H as (H1 & H2 & H3). split; [|done]. apply first_free_head. unfold free.
    destruct (look w q) as [o|] eqn:Eq; [|by left]. right. destruct (decide (o = Special)) as [->|Ho]; [done|].
    by rewrite (path_exists_law w q o) in He.
Qed.

Lemma link_first_spec w tmp wanted cs i :
  look w tmp = Some (File i) -> tmp ∉ cs -> tmp ∉ candidates wanted ->
  match link_first w tmp wanted cs with
  | (w', inl p) => (first_free w cs p \/ first_free w (candidates wanted) p) /\ moved w w' tmp p i
  | (w', inr _) =>
      same (look w) (look w') \/
      exists p, p ∈ cs /\ look w p = None /\ look w' p = Some (File i) /\ same_but (eq p) (look w) (look w')
  end.
Proof.
  intros Ht Hn Hw. revert w Ht. induction cs as [|q cs IH]; intros w Ht; [by left|].
  apply not_elem_of_cons in Hn as [Hq Hn]. cbn [link_first]. pose proof (hard_link_law w tmp q) as H.
  assert (Hrename : forall w1, same (look w) (look w1) ->
    match claim_by_rename w1 tmp wanted with
    | (w', inl p) => (first_free w (q :: cs) p \/ first_free w (candidates wanted) p) /\ moved w w' tmp p i
    | (w', inr _) =>
        same (look w) (look w') \/
        exists p, p ∈ q :: cs /\ look w p = None /\ look w' p = Some (File i) /\ same_but (eq p) (look w) (look w')
    end).
  { intros w1 Hs. rewrite Hs in Ht. pose proof (rename_first_spec w1 tmp (candidates wanted) i Ht Hw) as H1.
    unfold claim_by_rename. destruct (rename_first _ _ _) as [w' [p|e]].
    - destruct H1 as [H1 (H2 & H3 & H4)]. split; [right; by eapply first_free_same|].
      split_and!; [done|done|]. intros r Hr. by rewrite Hs, H4.
    - left. intros r. by rewrite Hs, H1. }
  destruct (hard_link w tmp q) as [w1 [[]|e]]; [|destruct e].
  - destruct H as (_ & Hfree & Hl & Hs). pose proof (remove_file_law w1 tmp) as Hr.
    assert (Ht1 : look w1 tmp = Some (File i)) by (by rewrite <- Hs).
    destruct (remove_file w1 tmp) as [w2 [[]|e]].
    + destruct Hr as (_ & _ & Hr1 & Hr2). split; [left; apply first_free_head; by left|].
      split_and!; [rewrite <- Hr2 by done; congruence|done|].
      intros r Hr. rewrite Hs by (intros ->; apply Hr; by right). apply Hr2. intros ->. apply Hr. by left.
    + right. exists q. assert (Hs2 : same (look w1) (look w2)) by (destruct e; [by destruct Hr|done|done]).
      split_and!; [by left|done|by rewrite <- Hs2, Hl|]. intros r Hr'. rewrite <- Hs2. by apply Hs.
  - by apply Hrename.
  - destruct H as [Htaken Hs]. rewrite Hs in Ht. specialize (IH Hn w1 Ht).
    destruct (link_first w1 tmp wanted cs) as [w' [p|e]].
    + destruct IH as [H1 (H2 & H3 & H4)]. split.
      * destruct H1 as [H1|H1]; [left; apply first_free_cons; [done|]|right]; by eapply first_free_same.
      * split_and!; [done|done|]. intros r Hr. by rewrite Hs, H4.
    + destruct IH as [H1|(p & Hp & Hf & H1 & H2)]; [left; intros r; by rewrite Hs, H1|].
      right. exists p. rewrite Hs. split_and!; [by right|done|done|]. intros r Hr. by rewrite Hs, H2.
  - by apply Hrename.
Qed.

Lemma rename_first_content w tmp cs j : content (rename_first w tmp cs).1 j = content w j.
Proof.
  induction cs as [|q cs IH]; [done|]. cbn [rename_first]. destruct (path_exists w q); [done|].
  pose proof (rename_content w tmp q j). by destruct (rename w tmp q) as [w1 [[]|e]].
Qed.

Lemma link_first_content w tmp wanted cs j : content (link_first w tmp wanted cs).1 j = content w j.
Proof.
  revert w. induction cs as [|q cs IH]; intros w; [done|]. cbn [link_first].
  pose proof (hard_link_content w tmp q j) as H. unfold claim_by_rename.
  destruct (hard_link w tmp q) as [w1 [[]|[]]]; cbn [fst] in H; rewrite <- H.
  - pose proof (remove_file_content w1 tmp j). by destruct (remove_file w1 tmp) as [w2 [[]|e]].
  - apply rename_first_content.
  - apply IH.
  - apply rename_first_content.
Qed.

Lemma claim_spec w tmp wanted i :
  look w tmp = Some (File i) -> tmp ∉ candidates wanted ->
  let '(w', r) := claim_final_name w tmp wanted in
  match r with
  | inl p => first_free w (candidates wanted) p /\ look w' p = Some (File i) /\ look w' tmp = None
  | inr _ => look w' tmp = Some (File i)
  end /\
  (forall q o, q <> tmp -> look w q = Some o -> o <> Special -> look w' q = Some o) /\
  (forall q, q <> tmp -> look w' q = look w q \/ q ∈ candidates wanted /\ look w' q = Some (File i)) /\
  (forall j, content w' j = content w j).
Proof.
  intros Ht Hn. pose proof (link_first_content w tmp wanted (candidates wanted)) as Hcontent. pose proof (link_first_spec w tmp wanted _ i Ht Hn Hn) as H. unfold claim_final_name.
  destruct (link_first _ _ _ _) as [w' [p|e]]; cbn [fst] in Hcontent.
  - destruct H as [Hf (H1 & H2 & H3)]. assert (Hfirst : first_free w (candidates wanted) p) by (by destruct Hf).
    split_and!; [done|done|done| | |exact Hcontent].
    + intros q o Hq Ho Hs. rewrite <- H3; [done|]. intros [->| ->]; [done|].
      destruct Hfirst as (_ & _ & _ & _ & [Hp|Hp]); congruence.
    + intros q Hq. destruct (decide (q = p)) as [->|Hqp]; [right; split; [|done]|left; symmetry; apply H3; by intros [?|?]].
      destruct Hfirst as (before & after & -> & _). apply elem_of_app. right. by left.
  - destruct H as [Hs|(p & Hp & Hf & H1 & H2)].
    + split_and!; [by rewrite <- Hs|intros; by rewrite <- Hs| |exact Hcontent]. intros q _. left. by rewrite Hs.
    + assert (Hpt : p <> tmp) by (by intros ->). split_and!; [..|exact Hcontent].
      * by rewrite <- H2.
      * intros q o Hq Ho Hs. rewrite <- H2; [done|]. intros ->. congruence.
      * intros q Hq. destruct (decide (p = q)) as [<-|Hqp]; [by right|left; symmetry; by apply H2].
Qed.

(** C29: A finished file gets the first of its names that is free and leaves its
    temporary one; when that fails it is still under its temporary name.
Either way no other file or directory is touched. *)
Theorem claim_never_replaces w tmp wanted i :
  look w tmp = Some (File i) -> tmp ∉ candidates wanted ->
  let '(w', r) := claim_final_name w tmp wanted in
  match r with
  | inl p => first_free w (candidates wanted) p /\ look w' p = Some (File i) /\ look w' tmp = None
  | inr _ => look w' tmp = Some (File i)
  end /\
  (forall q o, q <> tmp -> look w q = Some o -> o <> Special -> look w' q = Some o) /\
  (forall q, q <> tmp -> look w' q = look w q \/ q ∈ candidates wanted /\ look w' q = Some (File i)) /\
  (forall j, content w' j = content w j).
Proof. apply claim_spec. Qed.
End claiming.

(** ** The names of a window's file *)

Section names.
Context `{CL : Calendar}.

(** The root of the tree names a directory, the extension is plain and the
    prefix one name. *)
Definition names_ok (self : Layout) : Prop :=
  layout_ok self /\ x2e ∉ self.(extension).

Lemma own_name_split self stamp suffix : x2e ∉ self.(extension) ->
  split_file_at_dot (own_name self stamp suffix) =
    (self.(prefix) ++ str "-" ++ format STAMP_FORMAT stamp ++ suffix, Some self.(extension)).
Proof.
  intros He. unfold own_name, split_file_at_dot. change (str ".") with [x2e]. rewrite !app_assoc.
  rewrite <- (app_assoc _ [x2e]). cbn [app]. rewrite rsplit_once_last by done.
  destruct ((prefix self ++ str "-") ++ format STAMP_FORMAT stamp) eqn:E; [|done].
  apply (f_equal length) in E. rewrite !length_app in E. cbn in E. lia.
Qed.

Lemma own_name_not_dots self stamp suffix : own_name self stamp suffix <> str "..".
Proof.
  intros E. assert (Hin : x2d ∈ own_name self stamp suffix).
  { unfold own_name. apply elem_of_app. right. apply elem_of_app. left. by left. }
  rewrite E in Hin. by repeat (apply elem_of_cons in Hin as [Hin|Hin]; [done|]); apply elem_of_nil in Hin.
Qed.

Lemma own_file_name dirs self stamp suffix :
  path_file_name (dirs ++ [own_name self stamp suffix]) = Some (own_name self stamp suffix).
Proof.
  unfold path_file_name. rewrite last_snoc. cbn [mbind option_bind].
  rewrite bool_decide_false by apply own_name_not_dots. done.
Qed.

Lemma own_name_utf8 self stamp suffix :
  layout_ok self -> four_digits (civil stamp) -> numbered suffix -> utf8_valid (own_name self stamp suffix) = true.
Proof. intros. by apply (file_name_utf8 self stamp suffix None). Qed.

Lemma with_own_file_name dirs self stamp suffix name :
  with_file_name (dirs ++ [own_name self stamp suffix]) name = dirs ++ [name].
Proof. unfold with_file_name. rewrite own_file_name. by rewrite removelast_last. Qed.

(** A window's temporary name and its candidates are names of its files. *)
Lemma own_temp_path dirs self stamp pid :
  layout_ok self -> four_digits (civil stamp) ->
  temp_path pid (dirs ++ [own_name self stamp []]) = dirs ++ [file_name self stamp [] (Some pid)].
Proof.
  intros Hl Hy. unfold temp_path. rewrite own_file_name, with_own_file_name. cbn [fmap option_fmap option_map default].
  rewrite from_utf8_lossy_id; [done|]. apply own_name_utf8; [done|done|by left].
Qed.

Lemma own_candidates dirs self stamp p :
  names_ok self -> four_digits (civil stamp) -> p ∈ candidates (dirs ++ [own_name self stamp []]) ->
  exists suffix, numbered suffix /\ p = dirs ++ [own_name self stamp suffix].
Proof.
  intros [Hl He] Hy Hin. unfold candidates in Hin. apply elem_of_cons in Hin as [->|Hin]; [by exists []; split; [left|]|].
  apply list_elem_of_fmap in Hin as (n & -> & _). rewrite with_own_file_name.
  exists (str "-" ++ show (Z.of_nat n)). split; [right; eexists; split; [done|apply show_number]|].
  unfold path_file_stem, path_extension. rewrite own_file_name. cbn [fmap option_fmap option_map mbind option_bind].
  rewrite own_name_split by done. cbn [fst snd default fmap option_fmap option_map]. rewrite app_nil_r.
  assert (Hu : utf8_valid (prefix self ++ str "-" ++ format STAMP_FORMAT stamp) = true).
  { pose proof (own_name_utf8 self stamp [] Hl Hy ltac:(by left)) as H. destruct Hl as (Hp & _).
    destruct (stamp_text stamp Hy) as [Es _]. rewrite strftime_stamp in Es. apply (inj Some) in Es. rewrite <- Es.
    repeat (apply utf8_valid_app; [done || apply digits_utf8|]). done. }
  destruct Hl as (_ & Hue & _). rewrite !from_utf8_lossy_id by done. unfold own_name, id. by rewrite <- !app_assoc.
Qed.

Lemma temp_not_candidate dirs self stamp pid :
  names_ok self -> four_digits (civil stamp) ->
  dirs ++ [file_name self stamp [] (Some pid)] ∉ candidates (dirs ++ [own_name self stamp []]).
Proof.
  intros Hn Hy Hin. apply own_candidates in Hin as (suffix & Hs & E); [|done|done].
  apply app_inj_2 in E as [_ E]; [|done]. pose proof Hn as [(_ & _ & He) _].
  destruct (temp_name_read self stamp [] pid He Hy ltac:(by left)) as (w & Hw & _).
  destruct (own_name_read self stamp suffix He Hy Hs) as (w' & Hw' & _).
  assert (E' : file_name self stamp [] (Some pid) = own_name self stamp suffix) by congruence.
  unfold file_name in E'. rewrite E' in Hw. congruence.
Qed.

(** ** Windows *)

(** The start of the window an instant falls in. *)
Definition window_start (interval z : Z) : Z := z / interval * interval.

Lemma window_start_spec interval z : 0 < interval ->
  window_start interval z <= z < window_start interval z + interval.
Proof. intros H. unfold window_start. pose proof (Z.mul_div_le z interval H). pose proof (Z.mul_succ_div_gt z interval H). lia. Qed.

Lemma div_euclid_pos a b : 0 < b -> div_euclid a b = Some (a / b).
Proof. intros H. unfold div_euclid. rewrite (proj2 (Z.eqb_neq _ _)), Z.sgn_pos, Z.abs_eq, Z.mul_1_l by lia. done. Qed.
End names.
