(* ===== verification/SinkConfig.v ===== *)
(** [rustflow_collect/src/sink/mod.rs] and the output half of
    [rustflow_collect/src/args.rs]: the flags of a sink, what they are checked
    for, and the destination they describe. *)

From Stdlib Require Import ZArith Lia Strings.Byte.
From stdpp Require Import base tactics numbers list.
From S2P Require Import Prelude Std Crates Calendar Layout Storage Destination.
#[local] Open Scope Z_scope.

Module OutputFormat.
Inductive OutputFormat := Raw | Common.
End OutputFormat.
Export OutputFormat(OutputFormat).

#[export] Instance OutputFormat_eq_dec : EqDecision OutputFormat.
Proof. solve_decision. Defined.

Module Serialization.
Inductive Serialization := Ndjson | Csv | Parquet | ArrowIpc | Protobuf | Discard.

(** Its name, by strum's kebab case. *)
Definition display (self : Serialization) : bytes :=
  match self with
  | Ndjson => str "ndjson" | Csv => str "csv" | Parquet => str "parquet"
  | ArrowIpc => str "arrow-ipc" | Protobuf => str "protobuf" | Discard => str "discard"
  end.

Definition extension (self : Serialization) : bytes :=
  match self with
  | Ndjson => str "ndjson" | Csv => str "csv" | Parquet => str "parquet"
  | ArrowIpc => str "arrows" | Protobuf => str "pb" | Discard => str "discard"
  end.

Definition takes_raw (self : Serialization) : bool :=
  match self with Ndjson | Discard => true | _ => false end.
End Serialization.
Export Serialization(Serialization).

#[export] Instance Serialization_eq_dec : EqDecision Serialization.
Proof. solve_decision. Defined.

(** Durations are in nanoseconds. *)
Record SinkConfig := mkSinkConfig {
  path : option Path;
  serialization : Serialization;
  interval : option Z;
  c_level : Z;
  c_partitioning : Partitioning;
  c_prefix : bytes;
  exec : option bytes;
  expire : option Z;
  expire_exec : option bytes;
}.

Definition as_secs (d : Z) : Z := d / NANOS.
Definition subsec_nanos (d : Z) : Z := d mod NANOS.

(** [SinkConfig::destination] *)
Definition destination_of (self : SinkConfig) : Destination :=
  match self.(path), self.(interval) with
  | None, _ => Stdout
  | Some path, None => ToFile path
  | Some root, Some interval =>
      Partitioned
        (mkLayout root self.(c_prefix) (Serialization.extension self.(serialization)) self.(c_level) self.(c_partitioning))
        (to_signed 64 (as_secs interval))
  end.

Definition MAX_SWEEP_GAP : Z := from_secs 3600.

(** [Ord::clamp], which panics when the bounds are crossed. *)
Definition clamp (v lo hi : Z) : option Z := if hi <? lo then None else Some (Z.max lo (Z.min v hi)).

Definition sweep_every (max_age interval : Z) : option Z := clamp (max_age / 100) interval (Z.max MAX_SWEEP_GAP interval).

(** ** Flags *)

(** The flags of the output. *)
Record CollectArgs := mkCollectArgs {
  format_ : OutputFormat;
  a_serialization : Serialization;
  a_output : option Path;
  a_interval : option Z;
  a_level : option Z;
  a_hive : bool;
  a_prefix : bytes;
  a_exec : option bytes;
  a_expire : option Z;
  a_expire_exec : option bytes;
}.

Definition is_multiple_of (n d : Z) : bool := if d =? 0 then n =? 0 else n mod d =? 0.

Fixpoint join (sep : bytes) (l : list bytes) : bytes :=
  match l with [] => [] | [s] => s | s :: l => s ++ sep ++ join sep l end.

Definition examples (period : Z) : bytes :=
  join (str ", ")
    ((fun secs =>
        if 3600 <=? secs then show (secs / 3600) ++ str "h"
        else if 60 <=? secs then show (secs / 60) ++ str "m"
        else show secs ++ str "s") <$>
      take 3 (filter (fun candidate => is_multiple_of period candidate && (candidate <=? period) = true)
        [3600; 1800; 600; 300; 60; 30; 10])).

Definition check_interval (interval : Z) (level : option Z) : unit + bytes :=
  if (interval =? 0) || negb (subsec_nanos interval =? 0) then inr (str "--interval must be whole seconds")
  else
    match level with
    | None => inl tt
    | Some level =>
        let '(period, name) :=
          if level =? 1 then (86400, str "a day")
          else if level =? 2 then (3600, str "an hour")
          else (LEVEL_3_MINUTES * 60, str "5 minutes") in
        if negb (is_multiple_of period (as_secs interval)) then
          inr (str "--interval must divide " ++ name ++ str " at --level " ++ show level ++ str ", e.g. " ++ examples period)
        else inl tt
    end.

Definition sink_config (self : CollectArgs) : SinkConfig + bytes :=
  let serialization := self.(a_serialization) in
  if bool_decide (self.(format_) = OutputFormat.Raw) && negb (Serialization.takes_raw serialization) then
    inr (str "--serialization " ++ Serialization.display serialization ++ str " requires --format common")
  else
    match (match self.(a_interval) with Some interval => check_interval interval self.(a_level) | None => inl tt end) with
    | inr e => inr e
    | inl _ =>
        if match self.(a_expire), self.(a_interval) with Some expire, Some interval => expire <? interval | _, _ => false end
        then inr (str "--expire must be at least as long as --interval")
        else
          inl (mkSinkConfig self.(a_output) self.(a_serialization) self.(a_interval) (default 0 self.(a_level))
            (if self.(a_hive) then Partitioning.Hive else Partitioning.Plain)
            self.(a_prefix) self.(a_exec) self.(a_expire) self.(a_expire_exec))
    end.
