(* ===== verification/SinkWindows.v ===== *)
(** Windows and the directories they are filed in: the window opened at an
    instant holds it, and an interval the flags admit never lets a window
    straddle two partition directories. *)

From Stdlib Require Import ZArith Lia Strings.Byte.
From stdpp Require Import base tactics numbers list.
From S2P Require Import Prelude Std Crates Calendar Layout LayoutFacts Storage Destination DestinationFacts SinkConfig.
#[local] Open Scope Z_scope.

(** ** Parts of the day *)

(** Days, hours and five minutes are counted from the epoch. *)
Lemma start_of_day c : valid c = true -> unix_time (span_start c Day) = unix_time c / 86_400 * 86_400.
Proof.
  intros H. pose proof (in_day c H) as Hd. cbn zeta in Hd. cbn [span_start].
  rewrite midnight in *. cbn [c_year c_month c_day] in *. dlia.
Qed.

Lemma start_of_hour c : valid c = true -> unix_time (span_start c Hour) = unix_time c / 3_600 * 3_600.
Proof.
  intros (_ & _ & H)%valid_spec. unfold unix_time, days_of. cbn.
  set (d := days_before_year (c_year c) + days_before_month (c_year c) (c_month c) + c_day c - 1). dlia.
Qed.

Lemma start_of_bucket c : valid c = true -> unix_time (span_start c Bucket) = unix_time c / 300 * 300.
Proof.
  intros (_ & _ & H)%valid_spec. unfold unix_time, days_of. cbn.
  set (d := days_before_year (c_year c) + days_before_month (c_year c) (c_month c) + c_day c - 1). dlia.
Qed.

Lemma start_of c span k :
  valid c = true -> (span, k) ∈ [(Day, 86_400); (Hour, 3_600); (Bucket, 300)] ->
  unix_time (span_start c span) = unix_time c / k * k.
Proof.
  intros H Hin. repeat (apply elem_of_cons in Hin as [[= -> ->]|Hin]; [|]);
    [by apply start_of_day|by apply start_of_hour|by apply start_of_bucket|by apply elem_of_nil in Hin].
Qed.

(** Instants of one day, hour or bucket start it together. *)
Lemma same_start c c' span k :
  valid c = true -> valid c' = true -> (span, k) ∈ [(Day, 86_400); (Hour, 3_600); (Bucket, 300)] ->
  unix_time c / k = unix_time c' / k -> span_start c span = span_start c' span.
Proof.
  intros Hc Hc' Hin E. apply unix_time_inj; [by apply span_start_valid..|].
  rewrite (start_of c span k), (start_of c' span k) by done. by rewrite E.
Qed.

(** What a level's directories are named for, and its length in seconds. *)
Definition level_span (level : Z) : Span * Z :=
  if level =? 1 then (Day, 86_400) else if level =? 2 then (Hour, 3_600) else (Bucket, 300).

(** The directories of a level are those of the span's start. *)
Lemma names_of_start p level c c' : 1 <= level ->
  span_start c (level_span level).1 = span_start c' (level_span level).1 ->
  take (depth_of p level) (names_at p c) = take (depth_of p level) (names_at p c').
Proof.
  intros Hl. unfold level_span, depth_of.
  rewrite (proj2 (Z.leb_gt level 0)) by lia.
  destruct (level =? 1); [|destruct (level =? 2)]; cbn [fst span_start]; intros [=];
    destruct p; cbn [take names_at plain_names hive_names]; congruence.
Qed.

(** A window of an interval that divides [k] seconds starts in the same [k]
    seconds its instants are in. *)
Lemma window_within interval k z z' :
  0 < interval -> 0 < k -> k mod interval = 0 ->
  window_start interval z <= z' < window_start interval z + interval -> z' / k = window_start interval z / k.
Proof.
  intros Hi Hk Hm Hz. unfold window_start in *. set (n := z / interval) in *. clearbody n.
  assert (Hd : k = interval * (k / interval)) by (pose proof (Z.div_mod k interval); lia).
  set (m := k / interval) in *. assert (0 < m) by nia. clearbody m. subst k.
  rewrite <- !Z.div_div by lia. f_equal. rewrite Z.div_mul by lia.
  symmetry. apply (Z.div_unique z' interval n (z' - n * interval)); lia.
Qed.

(** ** Opening a window *)

Section windows.
Context `{CL : Calendar} `{ST : Storage}.

Lemma four_digits_between d d0 :
  0 <= timestamp d <= timestamp d0 -> four_digits (civil d0) -> four_digits (civil d).
Proof.
  intros Ht Hy. destruct (civil_law d) as [Hv E], (civil_law d0) as [Hv0 E0].
  pose proof (days_in_year _ Hv) as H. pose proof (days_in_year _ Hv0) as H0.
  pose proof (time_of_day _ Hv) as H1. pose proof (time_of_day _ Hv0) as H2.
  pose proof (year_monotone (c_year (civil d0) + 1) 10_000) as Ha. pose proof (year_monotone 10_000 (c_year (civil d))) as Hb.
  pose proof (year_monotone (c_year (civil d) + 1) 0) as Hc.
  assert (E1 : days_before_year 0 = -719528) by reflexivity. unfold four_digits in *. lia.
Qed.

(** The instant a window starts at. *)
Lemma window_stamp interval now : 0 < interval -> 0 <= timestamp now -> four_digits (civil now) ->
  exists stamp, from_timestamp (window_start interval (timestamp now)) 0 = Some stamp /\
    timestamp stamp = window_start interval (timestamp now) /\ four_digits (civil stamp).
Proof.
  intros Hi Hn Hy. destruct (civil_law now) as [Hv E]. pose proof (four_digits_range _ Hv Hy).
  pose proof (window_start_spec interval (timestamp now) Hi).
  assert (0 <= window_start interval (timestamp now)) by (unfold window_start; pose proof (Z.div_pos (timestamp now) interval); nia).
  destruct (from_timestamp_range (window_start interval (timestamp now)) 0) as [stamp Es]; [lia|unfold NANOS; lia|].
  exists stamp. destruct (from_timestamp_law _ _ _ Es) as [Et _]. split_and!; [done|done|].
  eapply four_digits_between; [|exact Hy]. lia.
Qed.

(** The window opened at an instant: named for its start, ending an interval
    later. *)
Definition opened_window (pid : Z) (layout : Layout) (interval : Z) (now : DateTime) (o : Opened) : Prop :=
  exists stamp i, timestamp stamp = window_start interval (timestamp now) /\ four_digits (civil stamp) /\
    let final_path := path_for layout stamp in
    o = mkOpened (FileWriter i)
      (Some (mkPending (temp_path pid final_path) final_path stamp false))
      (Some (window_start interval (timestamp now) + interval)).

(** Only directories on the way to [p] are new. *)
Definition dirs_made (w w' : World) (p : Path) : Prop :=
  forall q, look w' q = look w q \/ (look w q = None /\ look w' q = Some Dir /\ q `prefix_of` removelast p).

(** The file at [p], emptied, or a new one. *)
Definition created (w w' : World) (p : Path) (i : N) : Prop :=
  look w' p = Some (File i) /\ content w' i = [] /\
  (look w p = Some (File i) \/ (look w p = None /\ forall q, look w q <> Some (File i))) /\
  (forall q, q <> p -> look w' q = look w q \/ (look w q = None /\ look w' q = Some Dir /\ q `prefix_of` removelast p)) /\
  forall j, j <> i -> content w' j = content w j.

Lemma create_spec w p :
  match create w p with
  | (w', inl wr) => exists i, wr = FileWriter i /\ created w w' p i
  | (w', inr _) => dirs_made w w' p /\ forall j, content w' j = content w j
  end.
Proof.
  unfold create. set (made := match path_parent p with Some parent => create_dir_all w parent | None => (w, inl tt) end).
  assert (Hd : dirs_made w made.1 p).
  { unfold made, path_parent. destruct p as [|c p]; [by left|].
    intros q. destruct (create_dir_all_law w (removelast (c :: p)) q) as [H|(H1 & H2 & H3)]; [by left|by right]. }
  assert (Hc : forall j, content made.1 j = content w j).
  { intros j. unfold made, path_parent. destruct p as [|c p]; [done|]. apply create_dir_all_content. }
  destruct made as [w1 [[]|e]]; [|done]. cbn [fst] in Hd, Hc.
  pose proof (open_truncate_law w1 p) as H. destruct (open_truncate w1 p) as [w2 [i|e]].
  - destruct H as (H1 & H2 & H3 & H4 & H5). exists i. split; [done|]. split_and!; [done|done| | |intros j Hj; by rewrite H5, Hc].
    + assert (Hfresh : (forall q, look w1 q <> Some (File i)) -> forall q, look w q <> Some (File i)).
      { intros Hf q E. destruct (Hd q) as [E'|(E' & _)]; [apply (Hf q)|]; congruence. }
      destruct (Hd p) as [E|(E1 & E2 & _)]; [rewrite <- E|rewrite E2 in H1; by destruct H1 as [?|[? ?]]].
      destruct H1 as [H1|[H1 Hf]]; [by left|right; by split; [|apply Hfresh]].
    + intros q Hq. rewrite <- H3 by done. apply Hd.
  - destruct H as [H1 H2]. split; [intros q; rewrite <- H1; apply Hd|intros j; by rewrite H2].
Qed.

Lemma open_for_spec pid layout interval w now :
  0 < interval < 2 ^ 62 -> 0 <= timestamp now -> four_digits (civil now) ->
  exists w' r, open_for pid (Partitioned layout interval) w now = Some (w', r) /\
    match r with
    | inl o => opened_window pid layout interval now o /\
        match o.(o_pending) with Some p => create w p.(tmp) = (w', inl o.(writer)) | None => False end
    | inr _ => exists p, dirs_made w w' p /\ forall j, content w' j = content w j
    end.
Proof.
  intros Hi Hn Hy. destruct (window_stamp interval now) as (stamp & Es & Et & Hys); [lia|done|done|].
  destruct (civil_law now) as [Hv E]. pose proof (four_digits_range _ Hv Hy).
  pose proof (window_start_spec interval (timestamp now) ltac:(lia)) as Hw.
  assert (0 <= window_start interval (timestamp now)) by (unfold window_start; pose proof (Z.div_pos (timestamp now) interval); nia).
  cbn [open_for]. rewrite div_euclid_pos by lia. cbn [mbind option_bind].
  fold (window_start interval (timestamp now)). rewrite to_signed_small by (unfold fits_i; lia).
  rewrite Es. cbn [default from_option]. unfold id.
  rewrite to_signed_small by (unfold fits_i; lia).
  pose proof (create_spec w (temp_path pid (path_for layout stamp))) as Hc.
  destruct (create w _) as [w' [wr|e]] eqn:Ec; eexists _, _; (split; [done|]).
  - destruct Hc as (i & -> & _). split; [by exists stamp, i|]. done.
  - by eexists.
Qed.

(** ** The flags *)

Lemma check_interval_spec interval level :
  0 <= interval -> (forall l, level = Some l -> 1 <= l <= MAX_PARTITION_LEVEL) ->
  check_interval interval level = inl tt <->
  0 < as_secs interval /\ interval = from_secs (as_secs interval) /\
  forall l, level = Some l -> (level_span l).2 mod as_secs interval = 0.
Proof.
  intros Hp Hl. unfold check_interval, as_secs, subsec_nanos, from_secs, NANOS, MAX_PARTITION_LEVEL in *.
  destruct (Z.eqb_spec interval 0) as [->|H0]; cbn [orb negb]; [split; [done|]; change (0 / 1000000000) with 0; lia|].
  destruct (Z.eqb_spec (interval mod 1_000_000_000) 0) as [Hz|Hz]; cbn [negb]; [|split; [done|dlia]].
  destruct level as [l|]; [|split; [intros _; split_and!; [dlia|dlia|done]|done]].
  specialize (Hl l eq_refl). unfold is_multiple_of.
  assert (Hs : 0 < interval / 1_000_000_000) by dlia. rewrite (proj2 (Z.eqb_neq (interval / 1_000_000_000) 0)) by lia.
  assert (Hper : (if l =? 1 then (86400, str "a day") else if l =? 2 then (3600, str "an hour")
    else (LEVEL_3_MINUTES * 60, str "5 minutes")).1 = (level_span l).2)
    by (unfold level_span; by destruct (l =? 1), (l =? 2)).
  destruct (if l =? 1 then (86400, str "a day") else _) as [period name]. cbn [fst] in Hper.
  destruct (Z.eqb_spec (period mod (interval / 1_000_000_000)) 0) as [Hm|Hm]; cbn [negb].
  - split; [|done]. intros _. split_and!; [done|dlia|intros l' [= <-]; by rewrite <- Hper].
  - split; [done|]. intros (_ & _ & H). specialize (H l eq_refl). by rewrite <- Hper in H.
Qed.

(** The instants of a window share its directories. *)
Lemma window_dirs layout every z stamp d :
  0 < every -> layout.(level) = 0 \/ (1 <= layout.(level) /\ (level_span layout.(level)).2 mod every = 0) ->
  timestamp stamp = window_start every z -> four_digits (civil stamp) -> four_digits (civil d) ->
  timestamp stamp <= timestamp d < timestamp stamp + every ->
  removelast (path_for layout d) = removelast (path_for layout stamp).
Proof.
  intros He Hl Et Hys Hd Hin. rewrite !path_for_names by done. rewrite !app_assoc, !removelast_last. f_equal.
  destruct Hl as [->|[Hl Hm]]; [by destruct layout.(partitioning)|]. apply names_of_start; [lia|].
  destruct (civil_law d) as [Hv Eu], (civil_law stamp) as [Hvs Eus].
  apply (same_start _ _ _ (level_span layout.(level)).2); [done|done| |].
  - unfold level_span. destruct (level layout =? 1); [by left|]. destruct (level layout =? 2); [by right; left|by right; right; left].
  - rewrite Eu, Eus, Et. rewrite Et in Hin. apply (window_within every); [done| |done|done].
    unfold level_span. by destruct (level layout =? 1), (level layout =? 2).
Qed.

(** A window opened with flags that passed their checks holds the instant it
    was opened at, and no partition directory begins or ends inside it: every
    instant of the window is filed in the directories of its file. *)
Theorem window_in_directory args config root every pid w now :
  sink_config args = inl config -> args.(a_output) = Some root -> args.(a_interval) = Some every ->
  0 <= every < from_secs (2 ^ 62) -> (forall l, args.(a_level) = Some l -> 1 <= l <= MAX_PARTITION_LEVEL) ->
  0 <= timestamp now -> four_digits (civil now) ->
  exists layout w' r, open_for pid (destination_of config) w now = Some (w', r) /\
    forall o p end_, r = inl o -> o.(o_pending) = Some p -> o.(o_rotate_at) = Some end_ ->
      p.(final_path) = path_for layout p.(pending_window) /\
      timestamp p.(pending_window) <= timestamp now < end_ /\ end_ = timestamp p.(pending_window) + as_secs every /\
      forall d, four_digits (civil d) -> timestamp p.(pending_window) <= timestamp d < end_ ->
        removelast (path_for layout d) = removelast p.(final_path).
Proof.
  intros Hc Ho Hi Hr Hl Hn Hy. unfold sink_config in Hc.
  destruct (bool_decide _ && _); [done|]. rewrite Hi in Hc.
  destruct (check_interval every (a_level args)) as [[]|] eqn:Hck; [|done].
  apply check_interval_spec in Hck as (Hpos & Hwhole & Hdiv); [|lia|done].
  destruct (match a_expire args with Some _ => _ | None => false end); [done|]. injection Hc as <-.
  unfold destination_of. cbn [path interval]. rewrite Ho.
  assert (Hs : as_secs every < 2 ^ 62) by (unfold as_secs, from_secs, NANOS in *; dlia).
  rewrite to_signed_small by (unfold fits_i; lia).
  set (layout := mkLayout _ _ _ _ _).
  destruct (open_for_spec pid layout (as_secs every) w now) as (w' & r & E & H); [lia|done|done|].
  exists layout, w', r. split; [done|]. intros o p end_ -> Hp He. destruct H as [(stamp & i & Et & Hys & ->) _].
  cbn in Hp, He. injection Hp as <-. injection He as <-. cbn [pending_window final_path].
  pose proof (window_start_spec (as_secs every) (timestamp now) Hpos).
  split_and!; [done|lia|lia|lia|]. intros d Hd Hin.
  apply (window_dirs layout (as_secs every) (timestamp now)); [done| |done|done|done|lia].
  unfold layout. cbn [level c_level]. destruct (a_level args) as [l|]; [|by left].
  specialize (Hl l eq_refl). specialize (Hdiv l eq_refl). right. split; [apply Hl|done].
Qed.
End windows.
