(* ===== verification/Encoder.v ===== *)
(** [rustflow_collect/src/sink/encoder/mod.rs], [ndjson.rs] and [discard.rs]:
    what turns records into octets.

    The trait is an interface; its promise is that an encoder writes to the
    writer it was opened over and to nothing else, and only adds to it. *)

From Stdlib Require Import ZArith Lia Strings.Byte.
From stdpp Require Import base tactics numbers list.
From S2P Require Import Prelude Std Crates Calendar CommonFlow Layout Storage Destination SinkConfig.
#[local] Open Scope Z_scope.

(** [OutputMetrics] *)
Record OutputMetrics := mkMetrics {
  m_flows : Z;
  m_bytes : Z;
  m_files : Z;
  m_write_errors : Z;
  m_rotate_errors : Z;
  m_hook_running : Z;
  m_hook_completed : Z;
  m_hook_errors : Z;
  m_expired_files : Z;
  m_expire_errors : Z;
}.

Definition add_bytes (m : OutputMetrics) (n : Z) : OutputMetrics :=
  mkMetrics m.(m_flows) (m.(m_bytes) + n) m.(m_files) m.(m_write_errors) m.(m_rotate_errors)
    m.(m_hook_running) m.(m_hook_completed) m.(m_hook_errors) m.(m_expired_files) m.(m_expire_errors).

Abbreviation Enriched := (list (option bytes)).

Section writers.
Context `{ST : Storage}.

(** The file system and the counters. *)
Record Sys := mkSys { fs : World; metrics : OutputMetrics }.

(** [CountingWriter::write] over the writer of a destination. *)
Definition counting_write (s : Sys) (wr : Writer) (data : bytes) : Sys * IoResult Z :=
  let '(w, r) :=
    match wr with
    | StdoutWriter => write_stdout s.(fs) data
    | FileWriter file => append s.(fs) file data
    | SinkWriter => (s.(fs), inl (zlen data))
    end in
  match r with
  | inl n => (mkSys w (add_bytes s.(metrics) n), inl n)
  | inr e => (mkSys w s.(metrics), inr e)
  end.

(** [io::Write::write_all]; a write that takes nothing is an error. *)
Fixpoint write_all_fuel (fuel : nat) (s : Sys) (wr : Writer) (data : bytes) : Sys * bytes * IoResult unit :=
  match data, fuel with
  | [], _ => (s, [], inl tt)
  | _, O => (s, data, inr OtherError)
  | _, S fuel =>
      match counting_write s wr data with
      | (s, inl n) =>
          if n =? 0 then (s, data, inr OtherError) else write_all_fuel fuel s wr (drop (Z.to_nat n) data)
      | (s, inr e) => (s, data, inr e)
      end
  end.

(** What is left of the data, with the result. *)
Definition write_rest (s : Sys) (wr : Writer) (data : bytes) : Sys * bytes * IoResult unit :=
  write_all_fuel (length data) s wr data.

(** [io::BufWriter] *)
Record BufWriter := mkBuf { inner : Writer; capacity : Z; buf : bytes }.

(** [flush_buf]: what was not written stays. *)
Definition flush_buf (s : Sys) (self : BufWriter) : Sys * BufWriter * IoResult unit :=
  let '(s, rest, r) := write_rest s self.(inner) self.(buf) in
  (s, mkBuf self.(inner) self.(capacity) rest, r).

Definition push_buf (self : BufWriter) (data : bytes) : BufWriter :=
  mkBuf self.(inner) self.(capacity) (self.(buf) ++ data).

Definition spare_capacity (self : BufWriter) : Z := self.(capacity) - zlen self.(buf).

Definition buf_write_all (s : Sys) (self : BufWriter) (data : bytes) : Sys * BufWriter * IoResult unit :=
  if zlen data <? spare_capacity self then (s, push_buf self data, inl tt)
  else
    match (if spare_capacity self <? zlen data then flush_buf s self else (s, self, inl tt)) with
    | (s, self, inr e) => (s, self, inr e)
    | (s, self, inl _) =>
        if self.(capacity) <=? zlen data then
          let '(s, _, r) := write_rest s self.(inner) data in (s, self, r)
        else (s, push_buf self data, inl tt)
    end.
End writers.

(** ** The trait *)

Section trait.
Context `{CR : Crates} `{ST : Storage}.

(** Between two states, only what [wr] writes to grew. *)
Definition through (wr : Writer) (s s' : Sys) : Prop :=
  same (look s.(fs)) (look s'.(fs)) /\
  (forall j, wr <> FileWriter j -> content s'.(fs) j = content s.(fs) j) /\
  (forall j, content s.(fs) j `prefix_of` content s'.(fs) j) /\
  exists n, 0 <= n /\ s'.(metrics) = add_bytes s.(metrics) n.

Class Encoders := {
  Encoder : Type;
  enc_writer : Encoder -> Writer;
  (* [Serialization::open] *)
  serialization_open : Serialization -> Sys -> Writer -> list bytes -> Sys * IoResult Encoder;
  encode : Sys -> Encoder -> CommonFlow -> Enriched -> Sys * Encoder * IoResult unit;
  write_raw : Sys -> Encoder -> bytes -> Sys * Encoder * IoResult unit;
  flush : Sys -> Encoder -> Sys * Encoder * IoResult unit;
  finish : Sys -> Encoder -> Sys * Encoder * IoResult unit;
  (* what an encoder still does when it is dropped *)
  drop_encoder : Sys -> Encoder -> Sys;

  open_law : forall ser s wr fields,
    through wr s (serialization_open ser s wr fields).1 /\
    match serialization_open ser s wr fields with (_, inl e) => enc_writer e = wr | (_, inr _) => True end;
  encode_law : forall s e flow enriched, let '(s', e', _) := encode s e flow enriched in
    through (enc_writer e) s s' /\ enc_writer e' = enc_writer e;
  write_raw_law : forall s e lines, let '(s', e', _) := write_raw s e lines in
    through (enc_writer e) s s' /\ enc_writer e' = enc_writer e;
  flush_law : forall s e, let '(s', e', _) := flush s e in
    through (enc_writer e) s s' /\ enc_writer e' = enc_writer e;
  finish_law : forall s e, let '(s', e', _) := finish s e in
    through (enc_writer e) s s' /\ enc_writer e' = enc_writer e;
  drop_law : forall s e, through (enc_writer e) s (drop_encoder s e);
}.
End trait.
