(* ===== verification/Ndjson.v ===== *)
(** [rustflow_collect/src/sink/encoder/ndjson.rs] and [discard.rs]: records as
    lines of JSON, and none at all.

    What is on disk is always whole lines: a line a failed write could not
    take is lost whole, and the others are kept in order. *)

From Stdlib Require Import ZArith Lia Strings.Byte.
From stdpp Require Import base tactics numbers list.
From S2P Require Import Prelude Std Crates Calendar CommonFlow Layout Storage Destination SinkConfig Encoder.
#[local] Open Scope Z_scope.

(** [serde_json::to_writer] of a row: the flow's fields and the entries of a
    map in one object. *)
Class SerdeJson `{CR : Crates} := to_json : CommonFlow -> list (bytes * bytes) -> IoResult bytes.

(** ** Definitions *)

Definition WRITE_BUFFER_BYTES : Z := 256 * 1024.

Section ndjson.
Context `{CR : Crates} `{ST : Storage} `{SJ : !SerdeJson}.

Record Ndjson := mkNdjson { out : BufWriter; names : list bytes; line : bytes }.

(** [EnrichedMap::serialize]: the entries written. *)
Definition enriched_entries (names : list bytes) (values : Enriched) : list (bytes * bytes) :=
  omap (fun '(name, value) => (fun v => (name, v)) <$> value) (zip names values).

Definition Ndjson_open (wr : Writer) (enriched_fields : list bytes) : IoResult Ndjson :=
  inl (mkNdjson (mkBuf wr WRITE_BUFFER_BYTES []) enriched_fields []).

Definition write_line (s : Sys) (out : BufWriter) (value : IoResult bytes) : Sys * BufWriter * bytes * IoResult unit :=
  match value with
  | inr e => (s, out, [], inr e)
  | inl json =>
      let line := json ++ [x0a] in
      let '(s, out, r) := buf_write_all s out line in (s, out, line, r)
  end.

Definition Ndjson_encode (s : Sys) (self : Ndjson) (flow : CommonFlow) (enriched : Enriched) : Sys * Ndjson * IoResult unit :=
  let '(s, out, line, r) := write_line s self.(out) (to_json flow (enriched_entries self.(names) enriched)) in
  (s, mkNdjson out self.(names) line, r).

(** [slice::split_inclusive] at line ends. *)
Fixpoint split_inclusive (bs : bytes) : list bytes :=
  match bs with
  | [] => []
  | b :: bs =>
      if bool_decide (b = x0a) then [b] :: split_inclusive bs
      else match split_inclusive bs with [] => [[b]] | l :: ls => (b :: l) :: ls end
  end.

Fixpoint write_lines (s : Sys) (out : BufWriter) (lines : list bytes) : Sys * BufWriter * IoResult unit :=
  match lines with
  | [] => (s, out, inl tt)
  | line :: lines =>
      match buf_write_all s out line with
      | (s, out, inl _) => write_lines s out lines
      | (s, out, inr e) => (s, out, inr e)
      end
  end.

Definition Ndjson_write_raw (s : Sys) (self : Ndjson) (lines : bytes) : Sys * Ndjson * IoResult unit :=
  let '(s, out, r) := write_lines s self.(out) (split_inclusive lines) in
  (s, mkNdjson out self.(names) self.(line), r).

(** Nothing behind the buffer has anything to flush. *)
Definition Ndjson_flush (s : Sys) (self : Ndjson) : Sys * Ndjson * IoResult unit :=
  let '(s, out, r) := flush_buf s self.(out) in (s, mkNdjson out self.(names) self.(line), r).

Definition Ndjson_finish := Ndjson_flush.

(** [Drop for BufWriter] *)
Definition Ndjson_drop (s : Sys) (self : Ndjson) : Sys := (Ndjson_flush s self).1.1.

(** Calls made of an encoder, with what came of them. *)
Inductive call := CallEncode (flow : CommonFlow) (enriched : Enriched) | CallRaw (lines : bytes) | CallFlush.

Definition Ndjson_call (s : Sys) (self : Ndjson) (c : call) : Sys * Ndjson * IoResult unit :=
  match c with
  | CallEncode flow enriched => Ndjson_encode s self flow enriched
  | CallRaw lines => Ndjson_write_raw s self lines
  | CallFlush => Ndjson_flush s self
  end.

(** ** Through the writer *)

Lemma through_refl wr s : through wr s s.
Proof. split_and!; [done|done|done|]. exists 0. split; [done|]. destruct s as [w [] ]. cbn. unfold add_bytes. cbn. by rewrite Z.add_0_r. Qed.

Lemma through_trans wr s1 s2 s3 : through wr s1 s2 -> through wr s2 s3 -> through wr s1 s3.
Proof.
  intros (H1 & H2 & H3 & n & Hn & H4) (K1 & K2 & K3 & m & Hm & K4). split_and!.
  - intros q. by rewrite H1, K1.
  - intros j Hj. by rewrite K2, H2.
  - intros j. by transitivity (content s2.(fs) j).
  - exists (n + m). split; [lia|]. rewrite K4, H4. unfold add_bytes. cbn. by rewrite Z.add_assoc.
Qed.

Lemma counting_write_spec s wr data :
  through wr s (counting_write s wr data).1 /\
  match counting_write s wr data with
  | (s', inl n) => 0 <= n <= zlen data /\
      forall i, wr = FileWriter i -> content s'.(fs) i = content s.(fs) i ++ take (Z.to_nat n) data
  | (s', inr _) => forall i, wr = FileWriter i -> content s'.(fs) i = content s.(fs) i
  end.
Proof.
  pose proof (zlen_nonneg data) as Hz. unfold counting_write. destruct wr as [|i|].
  - pose proof (write_stdout_law s.(fs) data) as (H1 & H2 & H3). destruct (write_stdout (fs s) data) as [w [n|e]]; cbn in *.
    + split; [|done]. split_and!; [done|intros j _; cbn [fs]; by rewrite H2|intros j; cbn [fs]; rewrite H2; reflexivity|exists n; split; [lia|done]].
    + split; [|done]. split_and!; [done|intros j _; cbn [fs]; by rewrite H2|intros j; cbn [fs]; rewrite H2; reflexivity|].
      apply (through_refl StdoutWriter s).
  - pose proof (append_law s.(fs) i data) as (H1 & H2). destruct (append (fs s) i data) as [w [n|e]]; cbn in *.
    + destruct H2 as (Hn & H2 & H3). split; [|split; [done|by intros j [= <-]]].
      split_and!; [done| | |exists n; split; [lia|done]].
      * intros j Hj. apply H3. by intros ->.
      * intros j. cbn [fs]. destruct (decide (j = i)) as [->|Hj]; [rewrite H2; by eexists|rewrite H3; [reflexivity|done]].
    + split; [|by intros j [= <-]]. split_and!; [done|by intros j _|intros j; cbn [fs]; rewrite H2; reflexivity|].
      apply (through_refl (FileWriter i) s).
  - cbn. split; [|done]. split_and!; [done|done|done|]. exists (zlen data). split; [lia|done].
Qed.

Lemma write_all_spec fuel : forall s wr data, (length data <= fuel)%nat ->
  let '(s', rest, r) := write_all_fuel fuel s wr data in
  through wr s s' /\ (forall i, wr = FileWriter i -> content s'.(fs) i ++ rest = content s.(fs) i ++ data) /\
  (r = inl tt -> rest = []).
Proof.
  induction fuel as [|fuel IH]; intros s wr data Hf; (destruct data as [|b data]; [by split_and!; [apply through_refl|..]|]).
  { cbn in Hf. lia. }
  cbn [write_all_fuel]. pose proof (counting_write_spec s wr (b :: data)) as [Ht H].
  destruct (counting_write s wr (b :: data)) as [s1 [n|e]]; cbn [fst] in Ht.
  - destruct H as [Hn H]. destruct (Z.eqb_spec n 0) as [->|Hn0].
    + split_and!; [done| |done]. intros i Hi. rewrite (H i Hi). cbn [Z.to_nat take]. by rewrite app_nil_r.
    + specialize (IH s1 wr (drop (Z.to_nat n) (b :: data))). destruct (write_all_fuel _ _ _ _) as [[s2 rest] r].
      destruct IH as (IH1 & IH2 & IH3); [rewrite length_drop; cbn in *; unfold zlen in Hn; cbn in Hn; lia|].
      split_and!; [by eapply through_trans| |done]. intros i Hi. rewrite (IH2 i Hi), (H i Hi), <- app_assoc. by rewrite take_drop.
  - split_and!; [done| |done]. intros i Hi. by rewrite (H i Hi).
Qed.

Lemma flush_buf_spec s self :
  let '(s', self', r) := flush_buf s self in
  through self.(inner) s s' /\ self'.(inner) = self.(inner) /\ self'.(capacity) = self.(capacity) /\
  (forall i, self.(inner) = FileWriter i -> content s'.(fs) i ++ self'.(buf) = content s.(fs) i ++ self.(buf)) /\
  (r = inl tt -> self'.(buf) = []).
Proof.
  unfold flush_buf, write_rest. pose proof (write_all_spec (length self.(buf)) s self.(inner) self.(buf) ltac:(lia)) as H.
  destruct (write_all_fuel _ _ _ _) as [[s' rest] r]. destruct H as (H1 & H2 & H3). by split_and!.
Qed.

(** A write that fits the buffer is taken whole or not at all. *)
Lemma buf_write_all_spec s self data :
  let '(s', self', r) := buf_write_all s self data in
  through self.(inner) s s' /\ self'.(inner) = self.(inner) /\ self'.(capacity) = self.(capacity) /\
  (zlen data < self.(capacity) -> forall i, self.(inner) = FileWriter i ->
    content s'.(fs) i ++ self'.(buf) = content s.(fs) i ++ self.(buf) ++ match r with inl _ => data | inr _ => [] end).
Proof.
  unfold buf_write_all. destruct (zlen data <? spare_capacity self).
  { split_and!; [apply through_refl|done|done|]. intros _ i Hi. done. }
  set (f := if spare_capacity self <? zlen data then flush_buf s self else (s, self, inl tt)).
  assert (Hf : let '(s', self', r) := f in through self.(inner) s s' /\ self'.(inner) = self.(inner) /\
    self'.(capacity) = self.(capacity) /\
    (forall i, self.(inner) = FileWriter i -> content s'.(fs) i ++ self'.(buf) = content s.(fs) i ++ self.(buf))).
  { unfold f. destruct (_ <? _); [|by split_and!; [apply through_refl|..]].
    pose proof (flush_buf_spec s self) as H. destruct (flush_buf s self) as [[s1 b1] r1]. destruct H as (H1 & H2 & H3 & H4 & _).
    by split_and!. }
  destruct f as [[s1 b1] [[]|e]]; destruct Hf as (H1 & H2 & H3 & H4).
  - rewrite H3. destruct (Z.leb_spec (capacity self) (zlen data)) as [Hc|Hc].
    + unfold write_rest. pose proof (write_all_spec (length data) s1 b1.(inner) data ltac:(lia)) as H.
      destruct (write_all_fuel _ _ _ _) as [[s2 rest] r]. destruct H as (K1 & _ & _). rewrite H2 in K1.
      split_and!; [by eapply through_trans|done|done|lia].
    + split_and!; [done|done|done|]. intros _ i Hi. cbn [push_buf buf]. by rewrite app_assoc, H4, app_assoc by done.
  - split_and!; [done|done|done|]. intros _ i Hi. rewrite app_nil_r. by apply H4.
Qed.

(** ** Calls *)

Lemma write_lines_spec lines : forall s self,
  let '(s', self', r) := write_lines s self lines in
  through self.(inner) s s' /\ self'.(inner) = self.(inner) /\ self'.(capacity) = self.(capacity) /\
  (Forall (fun l => zlen l < self.(capacity)) lines -> exists taken, taken `prefix_of` lines /\ (r = inl tt -> taken = lines) /\
    forall i, self.(inner) = FileWriter i -> content s'.(fs) i ++ self'.(buf) = content s.(fs) i ++ self.(buf) ++ concat taken).
Proof.
  induction lines as [|l lines IH]; intros s self; cbn [write_lines].
  { split_and!; [apply through_refl|done|done|]. intros _. exists []. split_and!; [done|done|]. intros i Hi. by rewrite app_nil_r. }
  pose proof (buf_write_all_spec s self l) as H. destruct (buf_write_all s self l) as [[s1 b1] [[]|e]].
  - destruct H as (H1 & H2 & H3 & H4). specialize (IH s1 b1). destruct (write_lines s1 b1 lines) as [[s2 b2] r].
    rewrite H2, H3 in IH. destruct IH as (K1 & K2 & K3 & K4). split_and!; [by eapply through_trans|done|done|].
    intros [Hl Hls]%Forall_cons. destruct (K4 Hls) as (taken & Ht & Hr & Hc). exists (l :: taken). split_and!.
    + by apply prefix_cons.
    + intros E. by rewrite Hr.
    + intros i Hi. rewrite Hc by done. rewrite app_assoc, H4 by done. cbn [concat]. by rewrite <- !app_assoc.
  - destruct H as (H1 & H2 & H3 & H4). split_and!; [done|done|done|].
    intros [Hl _]%Forall_cons. exists []. split_and!; [apply prefix_nil|done|]. intros i Hi. cbn [concat]. by apply H4.
Qed.

(** Every line a call may write fits the buffer. *)
Definition short (names : list bytes) (c : call) : Prop :=
  match c with
  | CallEncode flow enriched => forall json,
      to_json flow (enriched_entries names enriched) = inl json -> zlen json + 1 < WRITE_BUFFER_BYTES
  | CallRaw lines => Forall (fun l => zlen l < WRITE_BUFFER_BYTES) (split_inclusive lines)
  | CallFlush => True
  end.

(** The lines a call added, by its result: all of them, or what was before the
    line that failed. *)
Definition added (names : list bytes) (c : call) (r : IoResult unit) (lines : list bytes) : Prop :=
  match c, r with
  | CallEncode flow enriched, inl _ => exists json, to_json flow (enriched_entries names enriched) = inl json /\ lines = [json ++ [x0a]]
  | CallEncode _ _, inr _ => lines = []
  | CallRaw raw, inl _ => lines = split_inclusive raw
  | CallRaw raw, inr _ => lines `prefix_of` split_inclusive raw
  | CallFlush, _ => lines = []
  end.

Lemma Ndjson_flush_spec s self :
  let '(s', self', r) := Ndjson_flush s self in
  through self.(out).(inner) s s' /\ self'.(out).(inner) = self.(out).(inner) /\
  self'.(out).(capacity) = self.(out).(capacity) /\ self'.(names) = self.(names) /\
  (forall i, self.(out).(inner) = FileWriter i ->
    content s'.(fs) i ++ self'.(out).(buf) = content s.(fs) i ++ self.(out).(buf)) /\
  (r = inl tt -> self'.(out).(buf) = []).
Proof.
  unfold Ndjson_flush. pose proof (flush_buf_spec s self.(out)) as H. destruct (flush_buf s self.(out)) as [[s' o] r].
  destruct H as (H1 & H2 & H3 & H4 & H5). by split_and!.
Qed.

Lemma Ndjson_call_spec s self c :
  let '(s', self', r) := Ndjson_call s self c in
  through self.(out).(inner) s s' /\ self'.(out).(inner) = self.(out).(inner) /\
  self'.(out).(capacity) = self.(out).(capacity) /\ self'.(names) = self.(names) /\
  (short self.(names) c -> self.(out).(capacity) = WRITE_BUFFER_BYTES -> exists lines, added self.(names) c r lines /\
    forall i, self.(out).(inner) = FileWriter i ->
      content s'.(fs) i ++ self'.(out).(buf) = content s.(fs) i ++ self.(out).(buf) ++ concat lines).
Proof.
  destruct c as [flow enriched|raw|]; cbn [Ndjson_call].
  - unfold Ndjson_encode, write_line. destruct (to_json _ _) as [json|e] eqn:Ej.
    + pose proof (buf_write_all_spec s self.(out) (json ++ [x0a])) as H.
      destruct (buf_write_all s self.(out) (json ++ [x0a])) as [[s' o] r]. destruct H as (H1 & H2 & H3 & H4).
      split_and!; [done|done|done|done|]. intros Hs Hc. specialize (Hs _ Ej).
      exists (match r with inl _ => [json ++ [x0a]] | inr _ => [] end). split.
      * destruct r as [[]|e]; [by exists json|done].
      * intros i Hi. cbn [out]. rewrite (H4 ltac:(rewrite zlen_app, Hc; cbn; unfold zlen in *; cbn; lia) i Hi).
        destruct r; cbn [concat]; by rewrite ?app_nil_r.
    + split_and!; [apply through_refl|done|done|done|]. intros _ _. exists []. split; [done|]. intros i Hi. cbn. by rewrite app_nil_r.
  - unfold Ndjson_write_raw. pose proof (write_lines_spec (split_inclusive raw) s self.(out)) as H.
    destruct (write_lines s self.(out) (split_inclusive raw)) as [[s' o] r]. destruct H as (H1 & H2 & H3 & H4).
    split_and!; [done|done|done|done|]. intros Hs Hc. cbn in Hs. rewrite <- Hc in Hs.
    destruct (H4 Hs) as (taken & Ht & Hr & Hcc). exists taken. split; [|done].
    destruct r as [[]|e]; [by apply Hr|done].
  - pose proof (Ndjson_flush_spec s self) as H. destruct (Ndjson_flush s self) as [[s' n] r].
    destruct H as (H1 & H2 & H3 & H4 & H5 & _). split_and!; [done|done|done|done|]. intros _ _. exists [].
    split; [by destruct r|]. intros i Hi. cbn. rewrite app_nil_r. by apply H5.
Qed.

(** The calls in turn, with their results. *)
Fixpoint Ndjson_calls (s : Sys) (self : Ndjson) (cs : list call) : Sys * Ndjson * list (IoResult unit) :=
  match cs with
  | [] => (s, self, [])
  | c :: cs =>
      let '(s, self, r) := Ndjson_call s self c in
      let '(s, self, rs) := Ndjson_calls s self cs in (s, self, r :: rs)
  end.

Lemma Ndjson_calls_spec cs : forall s self,
  let '(s', self', rs) := Ndjson_calls s self cs in
  through self.(out).(inner) s s' /\ self'.(out).(inner) = self.(out).(inner) /\
  (Forall (short self.(names)) cs -> self.(out).(capacity) = WRITE_BUFFER_BYTES ->
    exists lines, Forall3 (added self.(names)) cs rs lines /\
    forall i, self.(out).(inner) = FileWriter i ->
      content s'.(fs) i ++ self'.(out).(buf) = content s.(fs) i ++ self.(out).(buf) ++ concat (concat lines)).
Proof.
  induction cs as [|c cs IH]; intros s self; cbn [Ndjson_calls].
  { split_and!; [apply through_refl|done|]. intros _ _. exists []. split; [constructor|]. intros i Hi. by rewrite app_nil_r. }
  pose proof (Ndjson_call_spec s self c) as H. destruct (Ndjson_call s self c) as [[s1 n1] r].
  destruct H as (H1 & H2 & H3 & H4 & H5). specialize (IH s1 n1). destruct (Ndjson_calls s1 n1 cs) as [[s2 n2] rs].
  destruct IH as (K1 & K2 & K3). rewrite H2 in K1, K2. split_and!; [by eapply through_trans|done|].
  intros [Hc Hcs]%Forall_cons Hcap. rewrite H4, H3, H2 in K3. destruct (H5 Hc Hcap) as (l & Hl & Hcl).
  destruct (K3 Hcs Hcap) as (ls & Hls & Hcls). exists (l :: ls). split; [by constructor|].
  intros i Hi. rewrite Hcls by done. rewrite app_assoc, Hcl by done. cbn [concat]. by rewrite concat_app, <- !app_assoc.
Qed.

(** C22: Of lines shorter than the buffer, and whatever writes and flushes fail: a
    file that is finished successfully holds whole lines, all those of the calls
    that succeeded and, of raw packets, those before the one that failed, in
    order, after what it held; one whose finish fails holds the beginning of
    that; and nothing else is written to. *)
Theorem ndjson_whole_lines s i fields cs self s1 self1 rs s2 self2 r :
  Ndjson_open (FileWriter i) fields = inl self -> Forall (short fields) cs ->
  Ndjson_calls s self cs = (s1, self1, rs) -> Ndjson_finish s1 self1 = (s2, self2, r) ->
  through (FileWriter i) s s2 /\
  exists lines, Forall3 (added fields) cs rs lines /\
    content s2.(fs) i `prefix_of` content s.(fs) i ++ concat (concat lines) /\
    (r = inl tt -> content s2.(fs) i = content s.(fs) i ++ concat (concat lines)).
Proof.
  intros [= <-] Hs Ec Ef. pose proof (Ndjson_calls_spec cs s (mkNdjson (mkBuf (FileWriter i) WRITE_BUFFER_BYTES []) fields [])) as H.
  rewrite Ec in H. destruct H as (H1 & H2 & H3). cbn [out inner buf capacity names] in *.
  pose proof (Ndjson_flush_spec s1 self1) as K. unfold Ndjson_finish in Ef. rewrite Ef in K. destruct K as (K1 & _ & _ & _ & K5 & K6).
  rewrite H2 in K1, K5. split; [by eapply through_trans|]. destruct (H3 Hs eq_refl) as (lines & Hl & Hc).
  specialize (K5 i eq_refl). rewrite (Hc i eq_refl) in K5. cbn [app] in K5.
  exists lines. split; [done|]. split; [by exists self2.(out).(buf)|]. intros Hr. by rewrite K6, app_nil_r in K5.
Qed.

Lemma concat_split_inclusive bs : concat (split_inclusive bs) = bs.
Proof.
  induction bs as [|b bs IH]; [done|]. cbn. case_bool_decide as Hb; cbn; [by rewrite IH|].
  destruct (split_inclusive bs) as [|l ls]; cbn in *; by rewrite <- IH.
Qed.
End ndjson.

(** ** Encoders *)

(** The formats modelled: NDJSON and discard; no other opens. *)
Section instance.
Context `{CR : Crates} `{ST : Storage} `{SJ : !SerdeJson}.

Inductive TextEncoder := NdjsonEncoder (self : Ndjson) | DiscardEncoder (wr : Writer).

Definition over_ndjson (wr : Ndjson -> Sys * Ndjson * IoResult unit) (s : Sys) (e : TextEncoder) : Sys * TextEncoder * IoResult unit :=
  match e with
  | NdjsonEncoder self => let '(s, self, r) := wr self in (s, NdjsonEncoder self, r)
  | DiscardEncoder _ => (s, e, inl tt)
  end.

#[refine] Definition text_encoders : Encoders := {|
  Encoder := TextEncoder;
  enc_writer e := match e with NdjsonEncoder self => self.(out).(inner) | DiscardEncoder wr => wr end;
  serialization_open ser s wr fields :=
    match ser with
    | Serialization.Ndjson =>
        match Ndjson_open wr fields with inl self => (s, inl (NdjsonEncoder self)) | inr e => (s, inr e) end
    | Serialization.Discard => (s, inl (DiscardEncoder wr))
    | _ => (s, inr OtherError)
    end;
  encode s e flow enriched := over_ndjson (fun self => Ndjson_encode s self flow enriched) s e;
  write_raw s e lines := over_ndjson (fun self => Ndjson_write_raw s self lines) s e;
  flush s e := over_ndjson (Ndjson_flush s) s e;
  finish s e := over_ndjson (Ndjson_finish s) s e;
  drop_encoder s e := match e with NdjsonEncoder self => Ndjson_drop s self | DiscardEncoder _ => s end;
|}.
Proof.
  all: assert (Hcall : forall s self c, let '(s', self', _) := Ndjson_call s self c in
    through self.(out).(inner) s s' /\ self'.(out).(inner) = self.(out).(inner))
    by (intros s self c; pose proof (Ndjson_call_spec s self c) as H; destruct (Ndjson_call s self c) as [[s' n] r];
        destruct H as (H1 & H2 & _); done).
  - intros ser s wr fields. destruct ser; (split; [apply through_refl|done]).
  - intros s [self|wr] flow enriched; [|by split; [apply through_refl|]]. cbn. specialize (Hcall s self (CallEncode flow enriched)).
    cbn [Ndjson_call] in Hcall. by destruct (Ndjson_encode s self flow enriched) as [[s' n] r].
  - intros s [self|wr] lines; [|by split; [apply through_refl|]]. cbn. specialize (Hcall s self (CallRaw lines)).
    cbn [Ndjson_call] in Hcall. by destruct (Ndjson_write_raw s self lines) as [[s' n] r].
  - intros s [self|wr]; [|by split; [apply through_refl|]]. cbn. specialize (Hcall s self CallFlush).
    cbn [Ndjson_call] in Hcall. by destruct (Ndjson_flush s self) as [[s' n] r].
  - intros s [self|wr]; [|by split; [apply through_refl|]]. cbn. specialize (Hcall s self CallFlush).
    cbn [Ndjson_call] in Hcall. unfold Ndjson_finish. by destruct (Ndjson_flush s self) as [[s' n] r].
  - intros s [self|wr]; [|apply through_refl]. specialize (Hcall s self CallFlush). cbn [Ndjson_call] in Hcall.
    unfold Ndjson_drop. destruct (Ndjson_flush s self) as [[s' n] r]. apply Hcall.
Defined.
End instance.
