(* ===== verification/Sink.v ===== *)
(** [rustflow_collect/src/sink/rotating.rs]: a destination and the encoder of
    its current window.

    The file system and the counters are passed along; jobs handed to the
    completion hook are returned.  [Utc::now] is an argument, and what panics
    has no result. *)

From Stdlib Require Import ZArith Lia Strings.Byte.
From stdpp Require Import base tactics numbers list.
From S2P Require Import Prelude Std Crates Calendar CommonFlow Layout Storage Destination SinkConfig Encoder.
#[local] Open Scope Z_scope.

Section sink.
Context `{CL : Calendar} `{ST : Storage} `{EN : !Encoders}.

(** [hook::Job]: a file and the start of its window. *)
Record Job := mkJob { job_path : Path; job_window : DateTime }.

Record Window := mkWindow {
  encoder : Encoder;
  pending : option PendingRename;
  rotate_at : option Z;
}.

Record RotatingSink := mkSink {
  serialization : Serialization;
  destination : Destination;
  enriched_fields : list bytes;
  current : option Window;
  hook : bool;
}.

Definition with_current (self : RotatingSink) (current : option Window) : RotatingSink :=
  mkSink self.(serialization) self.(destination) self.(enriched_fields) current self.(hook).

Definition on_fs (s : Sys) (w : World) : Sys := mkSys w s.(metrics).

Definition inc_files (m : OutputMetrics) : OutputMetrics :=
  mkMetrics m.(m_flows) m.(m_bytes) (m.(m_files) + 1) m.(m_write_errors) m.(m_rotate_errors)
    m.(m_hook_running) m.(m_hook_completed) m.(m_hook_errors) m.(m_expired_files) m.(m_expire_errors).

(** [Window::close].  The encoder is dropped last, whatever failed. *)
Definition close (self : Window) (hook : bool) (s : Sys) : Sys * list Job * IoResult unit :=
  let '(s, encoder, finished) := finish s self.(encoder) in
  let window := pending_window <$> self.(pending) in
  let '(w, committed) :=
    match self.(pending) with
    | Some pending => let '(w, r) := commit s.(fs) pending in
        (w, match r with inl path => inl (Some path) | inr e => inr e end)
    | None => (s.(fs), inl None)
    end in
  let s := drop_encoder (on_fs s w) encoder in
  match finished, committed with
  | inr e, _ => (s, [], inr e)
  | inl _, inr e => (s, [], inr e)
  | inl _, inl path =>
      (s, match hook, path, window with true, Some path, Some window => [mkJob path window] | _, _, _ => [] end, inl tt)
  end.

(** A pending rename still held when the encoder cannot open is dropped. *)
Definition open_window (pid : Z) (self : RotatingSink) (s : Sys) (now : DateTime) : option (Sys * IoResult Window) :=
  '(w, opened) ← open_for pid self.(destination) s.(fs) now;
  Some match opened with
  | inr e => (on_fs s w, inr e)
  | inl (mkOpened writer pending rotate_at) =>
      match serialization_open self.(serialization) (on_fs s w) writer self.(enriched_fields) with
      | (s, inr e) =>
          (on_fs s match pending with Some p => drop_pending s.(fs) p | None => s.(fs) end, inr e)
      | (s, inl encoder) =>
          (match pending with Some _ => mkSys s.(fs) (inc_files s.(metrics)) | None => s end,
           inl (mkWindow encoder pending rotate_at))
      end
  end.

(** [RotatingSink::open_at] *)
Definition open_at (pid : Z) (serialization : Serialization) (destination : Destination) (enriched_fields : list bytes)
    (s : Sys) (now : DateTime) : option (Sys * IoResult RotatingSink) :=
  let self := mkSink serialization destination enriched_fields None false in
  '(s, window) ← open_window pid self s now;
  Some (s, match window with inl window => inl (with_current self (Some window)) | inr e => inr e end).

Definition with_hook (self : RotatingSink) : RotatingSink :=
  mkSink self.(serialization) self.(destination) self.(enriched_fields) self.(current) true.

(** [RotatingSink::window]: the current window, opened when there is none. *)
Definition window (pid : Z) (self : RotatingSink) (s : Sys) (now : DateTime) : option (Sys * IoResult Window) :=
  match self.(current) with
  | Some window => Some (s, inl window)
  | None => open_window pid self s now
  end.

(** A call of the current window's encoder. *)
Definition with_window (pid : Z) (self : RotatingSink) (s : Sys) (now : DateTime)
    (call : Sys -> Encoder -> Sys * Encoder * IoResult unit) : option (Sys * RotatingSink * IoResult unit) :=
  '(s, opened) ← window pid self s now;
  Some match opened with
  | inr e => (s, self, inr e)
  | inl window =>
      let '(s, encoder, r) := call s window.(encoder) in
      (s, with_current self (Some (mkWindow encoder window.(pending) window.(rotate_at))), r)
  end.

Definition write (pid : Z) (self : RotatingSink) (s : Sys) (now : DateTime) (flow : CommonFlow) (enriched : Enriched) :=
  with_window pid self s now (fun s e => encode s e flow enriched).

Definition sink_write_raw (pid : Z) (self : RotatingSink) (s : Sys) (now : DateTime) (lines : bytes) :=
  with_window pid self s now (fun s e => write_raw s e lines).

Definition rotate_if_due (self : RotatingSink) (s : Sys) (now : DateTime) : Sys * RotatingSink * list Job * IoResult bool :=
  match self.(current) ≫= rotate_at with
  | None => (s, self, [], inl false)
  | Some at_ =>
      if timestamp now <? at_ then (s, self, [], inl false)
      else
        match self.(current) with
        | Some previous =>
            let self := with_current self None in
            match close previous self.(hook) s with
            | (s, jobs, inr e) => (s, self, jobs, inr e)
            | (s, jobs, inl _) => (s, self, jobs, inl true)
            end
        | None => (s, self, [], inl true)
        end
  end.

Definition sink_flush (self : RotatingSink) (s : Sys) : Sys * RotatingSink * IoResult unit :=
  match self.(current) with
  | Some window =>
      let '(s, encoder, r) := flush s window.(encoder) in
      (s, with_current self (Some (mkWindow encoder window.(pending) window.(rotate_at))), r)
  | None => (s, self, inl tt)
  end.

Definition sink_finish (self : RotatingSink) (s : Sys) : Sys * list Job * IoResult unit :=
  match self.(current) with
  | Some window => close window self.(hook) s
  | None => (s, [], inl tt)
  end.
End sink.
