(* ===== verification/SinkFacts.v ===== *)
(** What the sink promises, whatever is written when and whatever fails: files
    that are there stay as they are, and a completed file has a name of its
    window and keeps it. *)

From Stdlib Require Import ZArith Lia Strings.Byte.
From stdpp Require Import base tactics numbers list.
From S2P Require Import Prelude Std Crates Calendar CommonFlow Layout LayoutFacts Storage Destination DestinationFacts SinkConfig SinkWindows Encoder Sink.
#[local] Open Scope Z_scope.

Section facts.
Context `{CL : Calendar} `{ST : Storage} `{EN : !Encoders}.
Context (pid : Z) (layout : Layout) (interval : Z).

(** A temporary name this process gives a file. *)
Definition own_temp (q : Path) : Prop := exists stamp, four_digits (civil stamp) /\ q = temp_path pid (path_for layout stamp).

(** A file someone knows by a name that is not temporary, and that is not
    being written. *)
Definition settled (w : World) (i : N) : Prop :=
  (exists q, ~ own_temp q /\ look w q = Some (File i)) /\ forall t, own_temp t -> look w t <> Some (File i).

(** Names stay, and settled files but [j] stay as they are. *)
Definition keeps_but (j : N -> Prop) (w w' : World) : Prop :=
  (forall q o, ~ own_temp q -> look w q = Some o -> o <> Special -> look w' q = Some o) /\
  (forall i, ~ j i -> settled w i -> settled w' i /\ content w' i = content w i).

Definition keeps : World -> World -> Prop := keeps_but (fun _ => False).

Lemma keeps_but_refl j w : keeps_but j w w.
Proof. by split. Qed.

Lemma keeps_but_trans j w1 w2 w3 : keeps_but j w1 w2 -> keeps_but j w2 w3 -> keeps_but j w1 w3.
Proof.
  intros [H1 H2] [K1 K2]. split; [eauto|]. intros i Hj Hi. destruct (H2 i Hj Hi) as [Hs Hc].
  destruct (K2 i Hj Hs) as [Hs' Hc']. split; [done|congruence].
Qed.

Lemma keeps_weaken (j : N -> Prop) w w' : keeps w w' -> keeps_but j w w'.
Proof. intros [H1 H2]. split; [done|]. intros i _. apply H2. by intros []. Qed.

(** What is kept but for a file that is not settled is kept. *)
Lemma keeps_unsettled i w w' : ~ settled w i -> keeps_but (eq i) w w' -> keeps w w'.
Proof. intros Hi [H1 H2]. split; [done|]. intros k _ Hk. apply H2; [|done]. by intros ->. Qed.

Lemma keeps_same w w' : same (look w) (look w') -> (forall i, content w' i = content w i) -> keeps w w'.
Proof.
  intros Hl Hc. split; [intros q o _ E _; by rewrite <- Hl|]. intros i _ [(q & Hq & E) Ht]. split; [|done].
  split; [exists q; by rewrite <- Hl|]. intros t H. rewrite <- Hl. by apply Ht.
Qed.

Lemma through_keeps i (s s' : Sys) : through (FileWriter i) s s' -> keeps_but (eq i) s.(fs) s'.(fs).
Proof.
  intros (Hl & Hc & _ & _). split; [intros q o _ E _; by rewrite <- Hl|]. intros k Hk [(q & Hq & E) Ht]. split.
  - split; [exists q; by rewrite <- Hl|]. intros t H. rewrite <- Hl. by apply Ht.
  - apply Hc. congruence.
Qed.

Lemma dirs_made_keeps w w' p : dirs_made w w' p -> (forall i, content w' i = content w i) -> keeps w w'.
Proof.
  intros Hd Hc. assert (Hold : forall q o, look w q = Some o -> look w' q = Some o)
    by (intros q o E; destruct (Hd q) as [H|(H & _)]; congruence).
  split; [intros q o _ E _; by apply Hold|]. intros i _ [(q & Hq & E) Ht]. split; [|done].
  split; [exists q; split; [done|by apply Hold]|]. intros t H. destruct (Hd t) as [->|(_ & -> & _)]; [by apply Ht|done].
Qed.

(** A new window's file. *)
Lemma created_keeps w w' p i : own_temp p -> created w w' p i -> keeps w w' /\ ~ settled w' i.
Proof.
  intros Hp (H1 & H2 & H3 & H4 & H5). assert (Hns : forall v, look v p = Some (File i) -> ~ settled v i)
    by (intros v E [_ H]; by apply (H p)).
  split; [|by apply Hns].
  assert (Hold : forall q o, q <> p -> look w q = Some o -> look w' q = Some o)
    by (intros q o Hq E; destruct (H4 q Hq) as [H|(H & _)]; congruence).
  split; [intros q o Hq E _; apply Hold; [by intros ->|done]|].
  intros k _ Hk. pose proof Hk as [(q & Hq & E) Ht].
  assert (Hki : k <> i). { intros ->. destruct H3 as [H3|[_ H3]]; [by apply (Hns w H3)|by apply (H3 q)]. }
  split; [|by apply H5]. split; [exists q; split; [done|by apply Hold; [intros ->|]]|].
  intros t H. destruct (decide (t = p)) as [->|Htp]; [rewrite H1; congruence|].
  destruct (H4 t Htp) as [->|(_ & -> & _)]; [by apply Ht|done].
Qed.

(** A claimed name. *)
Lemma claim_keeps w p i w' r :
  look w p.(tmp) = Some (File i) -> own_temp p.(tmp) -> p.(tmp) ∉ candidates p.(final_path) ->
  (forall q, q ∈ candidates p.(final_path) -> ~ own_temp q) -> claim w p = (w', r) ->
  keeps_but (eq i) w w' /\
  match r with
  | inl q => q ∈ candidates p.(final_path) /\ look w' q = Some (File i)
  | inr _ => look w' p.(tmp) = Some (File i)
  end.
Proof.
  intros Ht Ho Hn Hc E. pose proof (claim_spec w p.(tmp) p.(final_path) i Ht Hn) as H. unfold claim in E. rewrite E in H.
  destruct H as (H1 & H2 & H3 & H4). split.
  - split; [intros q o Hq Eq Hs; apply H2; [by intros ->|done|done]|].
    intros k Hk [(q & Hq & Eq) Hts]. split; [|done]. split.
    + exists q. split; [done|]. apply H2; [by intros ->|done|done].
    + intros t Hot Et. destruct (decide (t = p.(tmp))) as [->|Htp].
      * destruct r as [q'|e]; [by destruct H1 as (_ & _ & H1); rewrite H1 in Et|congruence].
      * destruct (H3 t Htp) as [E'|[Hin E']]; [rewrite E' in Et; by apply (Hts t)|congruence].
  - destruct r as [q|e]; [|done]. destruct H1 as ((before & after & Eb & _) & H1 & _). split; [|done].
    rewrite Eb. apply elem_of_app. right. by left.
Qed.

(** ** Windows *)

Hypothesis Hnames : names_ok layout.
Hypothesis Hinterval : 0 < interval < 2 ^ 62.

Definition time_ok (now : DateTime) : Prop := 0 <= timestamp now /\ four_digits (civil now).

Lemma own_path stamp : four_digits (civil stamp) ->
  exists dirs, path_for layout stamp = dirs ++ [own_name layout stamp []] /\
    temp_path pid (path_for layout stamp) = dirs ++ [file_name layout stamp [] (Some pid)].
Proof.
  intros Hy. rewrite path_for_names by done. eexists. rewrite app_assoc. split; [done|].
  apply own_temp_path; [apply Hnames|done].
Qed.

Lemma candidate_not_temp stamp q : four_digits (civil stamp) -> q ∈ candidates (path_for layout stamp) -> ~ own_temp q.
Proof.
  intros Hy Hq (stamp' & Hy' & ->). destruct (own_path stamp Hy) as (dirs & Ep & _).
  destruct (own_path stamp' Hy') as (dirs' & _ & Et). rewrite Ep in Hq. rewrite Et in Hq.
  apply own_candidates in Hq as (suffix & Hs & E); [|done|done]. apply app_inj_2 in E as [_ E]; [|done].
  pose proof Hnames as [(_ & _ & He) _].
  destruct (temp_name_read layout stamp' [] pid He Hy' ltac:(by left)) as (w & Hw & _).
  destruct (own_name_read layout stamp suffix He Hy Hs) as (w' & Hw' & _).
  assert (E' : file_name layout stamp' [] (Some pid) = own_name layout stamp suffix) by congruence.
  unfold file_name in E'. rewrite E' in Hw. congruence.
Qed.

(** The pending file of the window starting at [stamp]. *)
Definition pending_of (stamp : DateTime) : PendingRename :=
  mkPending (temp_path pid (path_for layout stamp)) (path_for layout stamp) stamp false.

Definition window_ok (w : World) (win : Window) : Prop :=
  exists i stamp, four_digits (civil stamp) /\ win.(pending) = Some (pending_of stamp) /\
    enc_writer win.(encoder) = FileWriter i /\ look w (temp_path pid (path_for layout stamp)) = Some (File i).

Lemma temp_own stamp : four_digits (civil stamp) -> own_temp (temp_path pid (path_for layout stamp)).
Proof. intros Hy. by exists stamp. Qed.

Lemma temp_unsettled w stamp i : four_digits (civil stamp) ->
  look w (temp_path pid (path_for layout stamp)) = Some (File i) -> ~ settled w i.
Proof. intros Hy E [_ H]. exact (H _ (temp_own stamp Hy) E). Qed.

Lemma pending_claim w stamp i w' r : four_digits (civil stamp) ->
  look w (temp_path pid (path_for layout stamp)) = Some (File i) -> claim w (pending_of stamp) = (w', r) ->
  keeps_but (eq i) w w' /\
  match r with
  | inl q => q ∈ candidates (path_for layout stamp) /\ look w' q = Some (File i)
  | inr _ => look w' (temp_path pid (path_for layout stamp)) = Some (File i)
  end.
Proof.
  intros Hy E Ec. destruct (own_path stamp Hy) as (dirs & Ep & Et).
  apply (claim_keeps w (pending_of stamp) i w' r); [done|by apply temp_own| | |done]; cbn [tmp final_path pending_of].
  - rewrite Ep at 2. rewrite Et. by apply temp_not_candidate.
  - intros q. by apply candidate_not_temp.
Qed.

Lemma open_window_ok self s now :
  self.(destination) = Partitioned layout interval -> time_ok now ->
  exists s' r, open_window pid self s now = Some (s', r) /\ keeps s.(fs) s'.(fs) /\
    match r with inl win => window_ok s'.(fs) win | inr _ => True end.
Proof.
  intros Hd [Hn Hy]. unfold open_window. rewrite Hd.
  destruct (open_for_spec pid layout interval s.(fs) now Hinterval Hn Hy) as (w1 & r & E & H). rewrite E. cbn [mbind option_bind].
  destruct r as [[wr pending rotate]|e].
  - destruct H as [(stamp & i & Et & Hys & Ho) Hc]. injection Ho as -> -> ->. cbn [o_pending tmp writer] in Hc.
    pose proof (create_spec s.(fs) (temp_path pid (path_for layout stamp))) as Hcr. rewrite Hc in Hcr.
    destruct Hcr as (i' & [= <-] & Hcr). destruct (created_keeps _ _ _ _ (temp_own stamp Hys) Hcr) as [Hk Hns].
    destruct Hcr as (Hl & _).
    pose proof (open_law self.(serialization) (on_fs s w1) (FileWriter i) self.(enriched_fields)) as [Hth He].
    destruct (serialization_open _ _ _ _) as [s2 [enc|e]]; cbn [fst] in Hth.
    + eexists _, _. split; [done|]. cbn [fs]. pose proof (through_keeps i _ _ Hth) as Hk2. cbn [fs on_fs] in Hk2.
      split; [eapply keeps_but_trans; [exact Hk|by eapply keeps_unsettled]|].
      exists i, stamp. split_and!; [done|done|done|]. destruct Hth as (Hsame & _). by rewrite <- Hsame.
    + eexists _, _. split; [done|]. split; [|done]. cbn [fs on_fs].
      pose proof (through_keeps i _ _ Hth) as Hk2. cbn [fs on_fs] in Hk2.
      assert (Hl2 : look s2.(fs) (temp_path pid (path_for layout stamp)) = Some (File i))
        by (destruct Hth as (Hsame & _); by rewrite <- Hsame).
      unfold drop_pending. cbn [committed]. fold (pending_of stamp).
      destruct (claim s2.(fs) (pending_of stamp)) as [w3 r3] eqn:Ecl. cbn [fst].
      destruct (pending_claim _ _ _ _ _ Hys Hl2 Ecl) as [Hk3 _].
      eapply keeps_but_trans; [exact Hk|]. eapply keeps_unsettled; [exact Hns|]. by eapply keeps_but_trans.
  - eexists _, _. split; [done|]. split; [|done]. destruct H as (p & Hdm & Hcn). by eapply dirs_made_keeps.
Qed.

Lemma call_ok s win (call : Sys -> Encoder -> Sys * Encoder * IoResult unit) s' e' r :
  (forall s e, let '(s', e', _) := call s e in through (enc_writer e) s s' /\ enc_writer e' = enc_writer e) ->
  window_ok s.(fs) win -> call s win.(encoder) = (s', e', r) ->
  keeps s.(fs) s'.(fs) /\ window_ok s'.(fs) (mkWindow e' win.(pending) win.(rotate_at)).
Proof.
  intros Hcall (i & stamp & Hys & Hp & He & Hl) E. specialize (Hcall s win.(encoder)). rewrite E in Hcall.
  destruct Hcall as [Hth Hw]. rewrite He in Hth, Hw. split.
  - eapply keeps_unsettled; [by eapply temp_unsettled|by apply through_keeps].
  - exists i, stamp. split_and!; [done|done|done|]. destruct Hth as (Hsame & _). by rewrite <- Hsame.
Qed.

(** A job of a completed file: under one of its window's names. *)
Definition job_ok (w : World) (job : Job) : Prop :=
  four_digits (civil job.(job_window)) /\ job.(job_path) ∈ candidates (path_for layout job.(job_window)) /\
  exists i, look w job.(job_path) = Some (File i).

Lemma job_kept w w' job : keeps w w' -> job_ok w job -> job_ok w' job.
Proof.
  intros [H _] (Hy & Hc & i & E). split_and!; [done|done|]. exists i. apply H; [by eapply candidate_not_temp|done|done].
Qed.

Lemma close_ok win hook s s' jobs r :
  window_ok s.(fs) win -> close win hook s = (s', jobs, r) -> keeps s.(fs) s'.(fs) /\ Forall (job_ok s'.(fs)) jobs.
Proof.
  intros (i & stamp & Hys & Hp & He & Hl) E. unfold close in E. rewrite Hp in E. cbn [fmap option_fmap option_map] in E.
  pose proof (finish_law s win.(encoder)) as Hf. destruct (finish s win.(encoder)) as [[s1 e1] finished].
  rewrite He in Hf. destruct Hf as [Hth1 Hw1].
  assert (Hl1 : look s1.(fs) (temp_path pid (path_for layout stamp)) = Some (File i))
    by (destruct Hth1 as (Hsame & _); by rewrite <- Hsame).
  unfold commit in E. destruct (claim s1.(fs) (pending_of stamp)) as [w2 r2] eqn:Ecl.
  destruct (pending_claim _ _ _ _ _ Hys Hl1 Ecl) as [Hk2 Hq].
  pose proof (drop_law (on_fs s1 w2) e1) as Hth3. rewrite Hw1 in Hth3.
  set (s3 := drop_encoder (on_fs s1 w2) e1) in *.
  assert (Hk : keeps s.(fs) s3.(fs)).
  { eapply keeps_unsettled; [by eapply temp_unsettled|]. eapply keeps_but_trans; [by apply through_keeps|].
    eapply keeps_but_trans; [exact Hk2|]. by apply (through_keeps i (on_fs s1 w2)). }
  destruct finished as [[]|e]; [destruct r2 as [q|e]|]; injection E as <- <- <-; (split; [done|]); [|constructor..].
  destruct hook; [|constructor]. constructor; [|constructor]. destruct Hq as [Hq1 Hq2].
  split_and!; [done|done|]. exists i. destruct Hth3 as (Hsame & _). by rewrite <- Hsame.
Qed.

(** ** Runs *)

Inductive event :=
  | Write (now : DateTime) (flow : CommonFlow) (enriched : Enriched)
  | WriteRaw (now : DateTime) (lines : bytes)
  | Rotate (now : DateTime)
  | Flush.

Definition event_ok (e : event) : Prop :=
  match e with Write now _ _ | WriteRaw now _ | Rotate now => time_ok now | Flush => True end.

Definition step (s : Sys) (self : RotatingSink) (e : event) : option (Sys * RotatingSink * list Job) :=
  match e with
  | Write now flow enriched => '(s, self, _) ← write pid self s now flow enriched; Some (s, self, [])
  | WriteRaw now lines => '(s, self, _) ← sink_write_raw pid self s now lines; Some (s, self, [])
  | Rotate now => let '(s, self, jobs, _) := rotate_if_due self s now in Some (s, self, jobs)
  | Flush => let '(s, self, _) := sink_flush self s in Some (s, self, [])
  end.

(** The events in turn, then the end of the stream. *)
Fixpoint run (s : Sys) (self : RotatingSink) (es : list event) : option (Sys * list Job) :=
  match es with
  | [] => let '(s, jobs, _) := sink_finish self s in Some (s, jobs)
  | e :: es => '(s, self, jobs) ← step s self e; '(s, more) ← run s self es; Some (s, jobs ++ more)
  end.

Definition sink_ok (w : World) (self : RotatingSink) : Prop :=
  self.(destination) = Partitioned layout interval /\ forall win, self.(current) = Some win -> window_ok w win.

Lemma with_window_ok self s now call :
  (forall s e, let '(s', e', _) := call s e in through (enc_writer e) s s' /\ enc_writer e' = enc_writer e) ->
  sink_ok s.(fs) self -> time_ok now ->
  exists s' self' r, with_window pid self s now call = Some (s', self', r) /\ keeps s.(fs) s'.(fs) /\ sink_ok s'.(fs) self'.
Proof.
  intros Hcall [Hd Hw] Hn. unfold with_window, window.
  assert (Hopen : exists s1 r, match self.(current) with Some win => Some (s, inl win) | None => open_window pid self s now end = Some (s1, r) /\
    keeps s.(fs) s1.(fs) /\ match r with inl win => window_ok s1.(fs) win | inr _ => self.(current) = None end).
  { destruct self.(current) as [win|]; [exists s, (inl win); split_and!; [done|apply keeps_but_refl|by apply Hw]|].
    destruct (open_window_ok self s now Hd Hn) as (s1 & r & E & Hk & H). exists s1, r. split_and!; [done|done|by destruct r]. }
  destruct Hopen as (s1 & [win|e] & E & Hk & H); rewrite E; cbn [mbind option_bind].
  - destruct (call s1 win.(encoder)) as [[s2 e2] r2] eqn:Ec. destruct (call_ok _ _ _ _ _ _ Hcall H Ec) as [Hk2 Hw2].
    eexists _, _, _. split; [done|]. split; [by eapply keeps_but_trans|]. split; [done|]. by intros win' [= <-].
  - eexists _, _, _. split; [done|]. split; [done|]. split; [done|]. intros win' E'. congruence.
Qed.

Lemma step_ok s self e : sink_ok s.(fs) self -> event_ok e ->
  exists s' self' jobs, step s self e = Some (s', self', jobs) /\ keeps s.(fs) s'.(fs) /\ sink_ok s'.(fs) self' /\
    Forall (job_ok s'.(fs)) jobs.
Proof.
  intros Hok He. destruct e as [now flow enriched|now lines|now|]; cbn [step event_ok] in *.
  - destruct (with_window_ok self s now (fun s e => encode s e flow enriched)) as (s' & self' & r & E & Hk & Hok');
      [intros; apply encode_law|done|done|]. unfold write. rewrite E. eexists _, _, _. by split_and!.
  - destruct (with_window_ok self s now (fun s e => write_raw s e lines)) as (s' & self' & r & E & Hk & Hok');
      [intros; apply write_raw_law|done|done|]. unfold sink_write_raw. rewrite E. eexists _, _, _. by split_and!.
  - unfold rotate_if_due. destruct Hok as [Hd Hw]. destruct self.(current) as [win|] eqn:Ecur; cbn [mbind option_bind].
    2: { eexists _, _, _. split_and!; [done|apply keeps_but_refl|split; [done|]|done]. intros win. by rewrite Ecur. }
    specialize (Hw win eq_refl). destruct win.(rotate_at) as [at_|].
    2: { eexists _, _, _. split_and!; [done|apply keeps_but_refl|split; [done|]|done]. intros win'. rewrite Ecur. by intros [= <-]. }
    destruct (timestamp now <? at_).
    { eexists _, _, _. split_and!; [done|apply keeps_but_refl|split; [done|]|done]. intros win'. rewrite Ecur. by intros [= <-]. }
    destruct (close win _ s) as [[s' jobs] r] eqn:Ec. destruct (close_ok _ _ _ _ _ _ Hw Ec) as [Hk Hj].
    destruct r as [[]|e]; (eexists _, _, _; split; [done|]; split_and!; [done|split; [done|by intros win' [=]]|done]).
  - unfold sink_flush. destruct Hok as [Hd Hw]. destruct self.(current) as [win|] eqn:Ecur.
    + specialize (Hw win eq_refl). destruct (flush s win.(encoder)) as [[s2 e2] r2] eqn:Ec.
      destruct (call_ok s win flush _ _ _ flush_law Hw Ec) as [Hk2 Hw2].
      eexists _, _, _. split; [done|]. split_and!; [done|split; [done|by intros win' [= <-]]|constructor].
    + eexists _, _, _. split; [done|]. split_and!; [apply keeps_but_refl|split; [done|by rewrite Ecur]|constructor].
Qed.

Lemma run_ok es : forall s self, sink_ok s.(fs) self -> Forall event_ok es ->
  exists s' jobs, run s self es = Some (s', jobs) /\ keeps s.(fs) s'.(fs) /\ Forall (job_ok s'.(fs)) jobs.
Proof.
  induction es as [|e es IH]; intros s self Hok Hes; cbn [run].
  - unfold sink_finish. destruct Hok as [_ Hw]. destruct self.(current) as [win|].
    + destruct (close win _ s) as [[s' jobs] r] eqn:Ec. destruct (close_ok _ _ _ _ _ _ (Hw win eq_refl) Ec) as [Hk Hj].
      by exists s', jobs.
    + exists s, []. split_and!; [done|apply keeps_but_refl|constructor].
  - apply Forall_cons in Hes as [He Hes]. destruct (step_ok s self e Hok He) as (s1 & self1 & jobs & E & Hk & Hok1 & Hj).
    destruct (IH s1 self1 Hok1 Hes) as (s2 & more & E2 & Hk2 & Hj2). rewrite E. cbn [mbind option_bind]. rewrite E2. cbn [mbind option_bind].
    exists s2, (jobs ++ more). split_and!; [done|by eapply keeps_but_trans|].
    apply Forall_app. split; [|done]. eapply Forall_impl; [exact Hj|]. intros job. by apply job_kept.
Qed.
End facts.

(** C21: A sink opened at any time and driven by any sequence of writes, rotations
    and flushes until it finishes never panics, whatever the file system
    refuses.  No file or directory that was there is removed or replaced, but
    for the temporary names this process uses; no settled file loses or gains
    an octet; and every file handed to the completion hook lies under a name
    of its window at the end. *)
Theorem sink_run_safe `{CL : Calendar} `{ST : Storage} `{EN : !Encoders} pid layout interval ser fields s now hooked es :
  names_ok layout -> 0 < interval < 2 ^ 62 -> time_ok now -> Forall event_ok es ->
  exists s1 r, open_at pid ser (Partitioned layout interval) fields s now = Some (s1, r) /\
    forall self, r = inl self ->
    exists s2 jobs, run pid s1 (if hooked : bool then with_hook self else self) es = Some (s2, jobs) /\
      keeps pid layout s.(fs) s2.(fs) /\ Forall (job_ok layout s2.(fs)) jobs.
Proof.
  intros Hn Hi Ht Hes. unfold open_at.
  destruct (open_window_ok pid layout interval Hn Hi (mkSink ser (Partitioned layout interval) fields None false) s now)
    as (s1 & r & E & Hk & Hr); [done|done|].
  rewrite E. cbn [mbind option_bind]. eexists _, _. split; [done|]. intros self Hself.
  destruct r as [win|e]; [|done]. injection Hself as <-.
  destruct (run_ok pid layout interval Hn Hi es s1
    (if hooked then with_hook (with_current (mkSink ser (Partitioned layout interval) fields None false) (Some win))
     else with_current (mkSink ser (Partitioned layout interval) fields None false) (Some win)))
    as (s2 & jobs & E2 & Hk2 & Hj); [|done|].
  { destruct hooked; (split; [done|by intros win' [= <-]]). }
  exists s2, jobs. split_and!; [done|by eapply keeps_but_trans|done].
Qed.
