(* ===== verification/SinkSamples.v ===== *)
(** Samples for the collector's sink: an hourly tree with a file in it. *)

From Stdlib Require Import ZArith Lia Strings.Byte.
From stdpp Require Import base tactics numbers list gmap sorting.
From S2P Require Import Prelude Std Crates Calendar CommonFlow Layout LayoutFacts Storage Destination DestinationFacts SinkConfig SinkWindows Encoder Ndjson Sink SinkFacts.
#[local] Open Scope Z_scope.

Section samples.
#[local] Instance sample_crates : Crates := crates_std.
#[local] Instance sample_calendar : Calendar := calendar_std.
#[local] Instance sample_storage : Storage := storage_std.

(** 2026-08-27 12:00:00, and seven minutes later. *)
Definition noon : DateTime := exist (fun p => timestamp_ok p = true) (1_787_832_000, 0) eq_refl.
Definition later : DateTime := exist (fun p => timestamp_ok p = true) (1_787_832_420, 0) eq_refl.

Definition sample_layout : Layout := mkLayout [str "out"] (str "flows") (str "parquet") 2 Partitioning.Hive.

Definition sample_name : bytes := str "flows-20260827T120000Z.parquet".

(** The file of noon, one of another collector, and an older directory. *)
Definition sample_entries : list (bytes * Node) :=
  [(str "date=2026-08-27", DirNode
     [(str "hour=12", DirNode [(sample_name, FileNode); (str "netflow-20260827T120000Z.parquet", FileNode)]);
      (str "hour=11", DirNode [])]);
   (str "archive", DirNode [(sample_name, FileNode)])].

Lemma sample_layout_ok : layout_ok sample_layout.
Proof. split_and!; done. Qed.

Lemma noon_four_digits : four_digits (civil noon).
Proof. apply (bool_decide_unpack _). vm_compute. exact I. Qed.

Lemma written_files_listed_witness :
  exists w, mkEntry [str "out"; str "date=2026-08-27"; str "hour=12"; sample_name] w false
      ∈ files sample_layout (DirNode sample_entries) (mkRange (Included 1_787_832_000) (Excluded 1_787_835_600)) /\
    timestamp w = 1_787_832_000.
Proof.
  destruct (written_files_listed sample_layout 2 noon [] None
    (mkRange (Included 1_787_832_000) (Excluded 1_787_835_600)) sample_entries) as (dirs & E & H).
  - exact sample_layout_ok.
  - exact noon_four_digits.
  - by left.
  - split; cbn; unfold fits_i; lia.
  - reflexivity.
  - assert (Ep : path_for (at_level sample_layout 2) noon = [str "out"; str "date=2026-08-27"; str "hour=12"; sample_name])
      by (vm_compute; reflexivity).
    rewrite Ep in E. cbn [root sample_layout app] in E. injection E as E.
    assert (Hn : own_name sample_layout noon [] = sample_name) by (vm_compute; reflexivity).
    assert (Ed : dirs = [str "date=2026-08-27"; str "hour=12"]).
    { rewrite Hn in E. apply (app_inj_2 [str "date=2026-08-27"; str "hour=12"] dirs [sample_name] [sample_name]) in E as [<- _]; done. }
    subst dirs. cbn [file_name] in H. rewrite Hn in H. apply H.
    apply (inside_down _ _ (DirNode [(str "hour=12", DirNode [(sample_name, FileNode); (str "netflow-20260827T120000Z.parquet", FileNode)]);
      (str "hour=11", DirNode [])])); [by left|].
    apply (inside_down _ _ (DirNode [(sample_name, FileNode); (str "netflow-20260827T120000Z.parquet", FileNode)])); [by left|].
    apply (inside_down _ _ FileNode); [by left|]. constructor.
Defined.

Lemma files_only_own_witness :
  Forall (fun e => names_window sample_layout (from_utf8_lossy (default [] (last e.(e_path)))) e.(Layout.window) e.(temporary))
    (files sample_layout (DirNode sample_entries) (until 1_787_835_600)).
Proof.
  apply Forall_forall. intros e He. destruct (files_only_own sample_layout (until 1_787_835_600) sample_entries e) as (dirs & name & -> & _ & H & _).
  - by apply sample_layout_ok.
  - exact He.
  - rewrite app_assoc, last_snoc. exact H.
Defined.

Lemma dirs_spec_witness :
  dirs sample_layout (DirNode sample_entries) (until 1_787_835_600) =
    [[str "out"; str "date=2026-08-27"; str "hour=12"]; [str "out"; str "date=2026-08-27"; str "hour=11"];
     [str "out"; str "date=2026-08-27"]] /\
  deepest_first (dirs sample_layout (DirNode sample_entries) (until 1_787_835_600)).
Proof.
  split; [vm_compute; reflexivity|]. apply dirs_spec.
  repeat (constructor; [repeat constructor; set_solver|]; repeat constructor; cbn); repeat constructor; set_solver.
Defined.

(** Two files of the window are there already. *)
Definition sample_names : gmap Path Obj :=
  list_to_map [([], Dir); ([str "out"], Dir);
    ([str "out"; str ".f.ndjson.7.tmp"], File 1);
    ([str "out"; str "f.ndjson"], File 2); ([str "out"; str "f-1.ndjson"], File 3)].

Definition sample_store : Store := mkStore sample_names ∅.

Definition sample_world : World := sample_store.

Lemma claim_never_replaces_witness :
  let '(w', r) := claim_final_name sample_world [str "out"; str ".f.ndjson.7.tmp"] [str "out"; str "f.ndjson"] in
  r = inl [str "out"; str "f-2.ndjson"] /\
  (forall q o, q <> [str "out"; str ".f.ndjson.7.tmp"] -> look sample_world q = Some o -> o <> Special -> look w' q = Some o).
Proof.
  pose proof (claim_never_replaces sample_world [str "out"; str ".f.ndjson.7.tmp"] [str "out"; str "f.ndjson"] 1%N
    eq_refl) as H.
  assert (Hn : [str "out"; str ".f.ndjson.7.tmp"] ∉ candidates [str "out"; str "f.ndjson"])
    by (apply (bool_decide_unpack _); vm_compute; exact I).
  specialize (H Hn).
  assert (Hr : (claim_final_name sample_world [str "out"; str ".f.ndjson.7.tmp"] [str "out"; str "f.ndjson"]).2
    = inl [str "out"; str "f-2.ndjson"]) by (vm_compute; reflexivity).
  destruct (claim_final_name _ _ _) as [w' r]. cbn in Hr. split; [exact Hr|apply H].
Defined.

Definition sample_args : CollectArgs :=
  mkCollectArgs OutputFormat.Common Serialization.Parquet (Some [str "out"]) (Some (from_secs 1800)) (Some 2) true
    (str "flows") None None None.

Lemma window_in_directory_witness :
  exists config layout w' r, sink_config sample_args = inl config /\
    open_for 7 (destination_of config) sample_world later = Some (w', r) /\
    forall o p end_, r = inl o -> o.(o_pending) = Some p -> o.(o_rotate_at) = Some end_ ->
      timestamp p.(pending_window) <= timestamp later < end_ /\
      (forall d, four_digits (civil d) -> timestamp p.(pending_window) <= timestamp d < end_ ->
        removelast (path_for layout d) = removelast p.(final_path)).
Proof.
  destruct (sink_config sample_args) as [config|] eqn:Ec; [|vm_compute in Ec; discriminate].
  destruct (window_in_directory sample_args config [str "out"] (from_secs 1800) 7 sample_world later)
    as (layout & w' & r & E & H).
  - exact Ec.
  - done.
  - done.
  - unfold from_secs. lia.
  - intros l [= <-]. unfold MAX_PARTITION_LEVEL. lia.
  - done.
  - apply (bool_decide_unpack _). vm_compute. exact I.
  - exists config, layout, w', r. split; [done|]. split; [exact E|]. intros o p end_ Ho Hp He.
    destruct (H o p end_ Ho Hp He) as (_ & H1 & _ & H2). by split.
Defined.
Example check_interval_message :
  check_interval (from_secs 420) (Some 2) = inr (str "--interval must divide an hour at --level 2, e.g. 1h, 30m, 10m").
Proof. vm_compute. reflexivity. Qed.

(** ** Writing *)

#[local] Instance sample_json : SerdeJson := fun flow entries =>
  inl (str "{" ++ show flow.(cf_bytes) ++ concat ((fun '(name, value) => str "," ++ name ++ str ":" ++ value) <$> entries) ++ str "}").
#[local] Instance sample_encoders : Encoders := text_encoders.

Definition no_metrics : OutputMetrics := mkMetrics 0 0 0 0 0 0 0 0 0 0.

Definition sample_sys : Sys := mkSys sample_world no_metrics.

Definition sample_calls : list call :=
  [CallEncode default_flow [Some (str "lan")]; CallFlush; CallRaw (str "a" ++ [x0a] ++ str "b" ++ [x0a]); CallEncode default_flow [None]].

Lemma ndjson_whole_lines_witness : exists s1 self1 rs s2 self2,
  Ndjson_calls sample_sys (mkNdjson (mkBuf (FileWriter 9) WRITE_BUFFER_BYTES []) [str "site"] []) sample_calls = (s1, self1, rs) /\
  Ndjson_finish s1 self1 = (s2, self2, inl tt) /\
  exists lines, Forall3 (added [str "site"]) sample_calls rs lines /\
    content s2.(fs) 9 = content sample_sys.(fs) 9 ++ concat (concat lines).
Proof.
  destruct (Ndjson_calls sample_sys (mkNdjson (mkBuf (FileWriter 9) WRITE_BUFFER_BYTES []) [str "site"] []) sample_calls)
    as [[s1 self1] rs] eqn:Ec.
  destruct (Ndjson_finish s1 self1) as [[s2 self2] r] eqn:Ef.
  assert (Hr : r = inl tt).
  { assert (H : (let '(s1, self1, _) := Ndjson_calls sample_sys (mkNdjson (mkBuf (FileWriter 9) WRITE_BUFFER_BYTES []) [str "site"] [])
      sample_calls in (Ndjson_finish s1 self1).2) = inl tt) by (vm_compute; reflexivity).
    rewrite Ec, Ef in H. exact H. }
  subst r. exists s1, self1, rs, s2, self2. split; [done|]. split; [done|].
  destruct (ndjson_whole_lines sample_sys 9 [str "site"] sample_calls (mkNdjson (mkBuf (FileWriter 9) WRITE_BUFFER_BYTES []) [str "site"] [])
    s1 self1 rs s2 self2 (inl tt)) as (_ & lines & Hl & _ & Hc); [done| |done|done|].
  - constructor; [intros json [= <-]; vm_compute; reflexivity|].
    constructor; [exact I|]. constructor; [repeat constructor|].
    constructor; [intros json [= <-]; vm_compute; reflexivity|constructor].
  - exists lines. split; [exact Hl|]. exact (Hc eq_refl).
Defined.

(** Two flows, a rotation, and one more. *)
Definition sample_events : list event :=
  [Write later default_flow []; Flush; Write later default_flow []; Rotate later; Write later default_flow []].

Lemma sink_run_safe_witness : exists s1 self s2 jobs,
  open_at 7 Serialization.Ndjson (Partitioned sample_layout 3600) [] sample_sys noon = Some (s1, inl self) /\
  run 7 s1 (with_hook self) sample_events = Some (s2, jobs) /\
  keeps 7 sample_layout sample_sys.(fs) s2.(fs) /\ Forall (job_ok sample_layout s2.(fs)) jobs.
Proof.
  destruct (sink_run_safe 7 sample_layout 3600 Serialization.Ndjson [] sample_sys noon true sample_events) as (s1 & r & E & H).
  - split; [exact sample_layout_ok|]. apply (bool_decide_unpack _). vm_compute. exact I.
  - lia.
  - split; [vm_compute; discriminate|exact noon_four_digits].
  - assert (time_ok later) by (split; [vm_compute; discriminate|apply (bool_decide_unpack _); vm_compute; exact I]).
    repeat constructor; done.
  - destruct r as [self|e].
    + destruct (H self eq_refl) as (s2 & jobs & Er & Hk & Hj). exists s1, self, s2, jobs. exact (conj E (conj Er (conj Hk Hj))).
    + exfalso. assert (Hb : match open_at 7 Serialization.Ndjson (Partitioned sample_layout 3600) [] sample_sys noon with
        | Some (_, inl _) => true | _ => false end = true) by (vm_compute; reflexivity).
      rewrite E in Hb. discriminate Hb.
Defined.
End samples.
