(* ===== verification/Text.v ===== *)
(** Text as the standard library reads it: [str::trim], [str::split],
    [eq_ignore_ascii_case], and the numbers and addresses [str::parse] takes.
    Text is its UTF-8 octets. *)

From Stdlib Require Import ZArith Lia Strings.Byte.
From stdpp Require Import base tactics numbers list.
From S2P Require Import Prelude Std Crates Calendar Layout.
#[local] Open Scope Z_scope.

(** ** Splitting and trimming *)

(** [str::split] at an ASCII character. *)
Fixpoint str_split (sep : byte) (s : bytes) : list bytes :=
  match s with
  | [] => [[]]
  | c :: s =>
      if bool_decide (c = sep) then [] :: str_split sep s
      else match str_split sep s with [] => [[c]] | piece :: pieces => (c :: piece) :: pieces end
  end.

(** The characters [char::is_whitespace] holds for. *)
Definition WHITE_SPACE : list bytes :=
  ((fun b => [b]) <$> [x09; x0a; x0b; x0c; x0d; x20]) ++
  [[xc2; x85]; [xc2; xa0]; [xe1; x9a; x80]] ++
  ((fun b => [xe2; x80; b]) <$> [x80; x81; x82; x83; x84; x85; x86; x87; x88; x89; x8a; xa8; xa9; xaf]) ++
  [[xe2; x81; x9f]; [xe3; x80; x80]].

(** The text after the first of [seqs] it starts with. *)
Fixpoint strip_one (seqs : list bytes) (s : bytes) : option bytes :=
  match seqs with
  | [] => None
  | q :: seqs => match strip_prefix q s with Some s => Some s | None => strip_one seqs s end
  end.

Fixpoint strip_all (fuel : nat) (seqs : list bytes) (s : bytes) : bytes :=
  match fuel, strip_one seqs s with
  | S fuel, Some s => strip_all fuel seqs s
  | _, _ => s
  end.

Definition trim_start (s : bytes) : bytes := strip_all (length s) WHITE_SPACE s.

(** The same on reversed text. *)
Definition trim_end (s : bytes) : bytes := rev (strip_all (length s) (map (@rev byte) WHITE_SPACE) (rev s)).

Definition trim (s : bytes) : bytes := trim_end (trim_start s).

Definition lower (b : byte) : byte := if (65 <=? u8_of b) && (u8_of b <=? 90) then byte_of (u8_of b + 32) else b.

Definition eq_ignore_ascii_case (a b : bytes) : bool := bool_decide (lower <$> a = lower <$> b).

(** ** Numbers *)

(** [char::to_digit] *)
Definition to_digit (radix : Z) (b : byte) : option Z :=
  let v := u8_of b in
  let d :=
    if (48 <=? v) && (v <=? 57) then v - 48
    else if (97 <=? v) && (v <=? 122) then v - 87
    else if (65 <=? v) && (v <=? 90) then v - 55
    else radix in
  if d <? radix then Some d else None.

Fixpoint digits_value (w : Z) (acc : Z) (s : bytes) : option Z :=
  match s with
  | [] => Some acc
  | c :: s =>
      d ← to_digit 10 c;
      if bool_decide (fits_u w (acc * 10 + d)) then digits_value w (acc * 10 + d) s else None
  end.

(** [str::parse] of an unsigned integer: a plus sign may stand before it. *)
Definition parse_unsigned (w : Z) (s : bytes) : option Z :=
  match s with
  | [] => None
  | [x2b] => None
  | x2b :: digits => digits_value w 0 digits
  | digits => digits_value w 0 digits
  end.

(** ** Addresses *)

(** [core::net::parser]: what is read, and the rest. *)
Abbreviation Reader A := (bytes -> option (A * bytes)).

Fixpoint read_digits (radix : Z) (max_digits : nat) (acc : Z) (count : nat) (s : bytes) : option (Z * nat * bytes) :=
  match s with
  | c :: rest =>
      match to_digit radix c with
      | Some d => match max_digits with
          | O => None
          | S m => read_digits radix m (acc * radix + d) (S count) rest
          end
      | None => Some (acc, count, s)
      end
  | [] => Some (acc, count, s)
  end.

(** A number of so many digits at most, below [limit]. *)
Definition read_number (radix : Z) (max_digits : nat) (allow_zero_prefix : bool) (limit : Z) : Reader Z := fun s =>
  '(value, count, rest) ← read_digits radix max_digits 0 0 s;
  if (count =? 0)%nat then None
  else if negb allow_zero_prefix && bool_decide (head s = Some x30) && (1 <? count)%nat then None
  else if value <? limit then Some (value, rest) else None.

(** [read_separator]: behind a separator unless it is the first. *)
Definition read_separator {A} (sep : byte) (index : nat) (inner : Reader A) : Reader A := fun s =>
  match index with
  | O => inner s
  | S _ => match s with c :: s => if bool_decide (c = sep) then inner s else None | [] => None end
  end.

Definition read_octet (index : nat) : Reader Z := read_separator x2e index (read_number 10 3 false 256).

Definition read_ipv4_addr : Reader Z := fun s =>
  '(a, s) ← read_octet 0 s;
  '(b, s) ← read_octet 1 s;
  '(c, s) ← read_octet 2 s;
  '(d, s) ← read_octet 3 s;
  Some (a * 2 ^ 24 + b * 2 ^ 16 + c * 2 ^ 8 + d, s).

(** [read_groups] of [more] groups: the groups, whether an IPv4 address
    ended them, and the rest. *)
Fixpoint read_groups (more index : nat) (s : bytes) : list Z * bool * bytes :=
  match more with
  | O => ([], false, s)
  | S more =>
      match (match more with O => None | S _ => read_separator x3a index read_ipv4_addr s end) with
      | Some (v4, rest) => ([v4 / 2 ^ 16; v4 mod 2 ^ 16], true, rest)
      | None =>
          match read_separator x3a index (read_number 16 4 true (2 ^ 16)) s with
          | Some (group, rest) =>
              let '(groups, v4, rest) := read_groups more (S index) rest in (group :: groups, v4, rest)
          | None => ([], false, s)
          end
      end
  end.

Definition groups_value (groups : list Z) : Z := foldl (fun acc g => acc * 2 ^ 16 + g) 0 groups.

Definition read_ipv6_addr : Reader Z := fun s =>
  let '(head, head_ipv4, s) := read_groups 8 0 s in
  if (length head =? 8)%nat then Some (groups_value head, s)
  else if head_ipv4 : bool then None
  else match s with
  | x3a :: x3a :: s =>
      let '(tail, _, s) := read_groups (8 - (length head + 1)) 0 s in
      Some (groups_value (head ++ replicate (8 - length head - length tail) 0 ++ tail), s)
  | _ => None
  end.

(** [str::parse] of an [IpAddr]; all of it is the address. *)
Definition parse_ip (s : bytes) : option IpAddr :=
  match read_ipv4_addr s with
  | Some (a, []) => Some (V4 a)
  | Some _ => None
  | None => match read_ipv6_addr s with Some (a, []) => Some (V6 a) | _ => None end
  end.
