(* ===== verification/EnrichTables.v ===== *)
(** [rustflow_collect/src/enrich/key.rs], [row.rs] and [source]: tables rows
    are looked up in, and how a CSV input becomes one.

    A loaded table is a [Source]: what it answers and how many rows it has.
    The prefix tree, the CSV reader and the text form of a prefix are other
    crates': a class with laws, and arguments. *)

From Stdlib Require Import ZArith Lia Strings.Byte.
From stdpp Require Import base tactics numbers list gmap.
From S2P Require Import Prelude Std Text.
#[local] Open Scope Z_scope.

(** [enrich::Error], without its details. *)
Inductive EnrichError := ConfigError | DataError | LoadError | CommandError | IoError | CsvError | MmdbError | NotifyError.

Abbreviation EnrichResult A := (A + EnrichError)%type.

(** ** Keys *)

Inductive Key := KeyIp (ip : IpAddr) | KeyNumber (n : Z).

#[export] Instance Key_eq_dec : EqDecision Key.
Proof. solve_decision. Defined.

#[export] Program Instance Key_countable : Countable Key :=
  inj_countable' (fun k => match k with KeyIp ip => inl ip | KeyNumber n => inr n end)
    (fun k => match k with inl ip => KeyIp ip | inr n => KeyNumber n end) _.
Next Obligation. by intros []. Qed.

Module KeyType.
Inductive KeyType := Ip | Number.
End KeyType.
Export KeyType(KeyType).

#[export] Instance KeyType_eq_dec : EqDecision KeyType.
Proof. solve_decision. Defined.

(** ** Rows *)

Record Row := mkRow { row_schema : list bytes; values : list (option bytes) }.

(** [Schema::row]: nothing where the assertion fails. *)
Definition schema_row (schema : list bytes) (vs : list (option bytes)) : option Row :=
  if bool_decide (length vs = length schema) then Some (mkRow schema vs) else None.

(** [Row::iter] *)
Definition row_iter (self : Row) : list (bytes * bytes) :=
  omap (fun '(column, value) => (fun v => (column, v)) <$> value) (zip self.(row_schema) self.(values)).

(** ** Tables *)

(** [dyn Source] *)
Record Source := mkSource { source_lookup : list Key -> option Row; source_len : Z }.

Definition ExactTable : Type := gmap (list Key) Row.

Definition exact_insert (self : ExactTable) (key : list Key) (row : Row) : ExactTable := <[key := row]> self.

Definition exact_source (self : ExactTable) : Source :=
  mkSource (fun key => self !! key) (Z.of_nat (size self)).

(** A prefix of an address of [w] bits. *)
Record Net := mkNet { net_addr : Z; net_len : Z }.

#[export] Instance Net_eq_dec : EqDecision Net.
Proof. solve_decision. Defined.

#[export] Program Instance Net_countable : Countable Net :=
  inj_countable' (fun n => (n.(net_addr), n.(net_len))) (fun '(a, l) => mkNet a l) _.
Next Obligation. by intros []. Qed.

(** [Ipv4Net::trunc], [Ipv6Net::trunc] *)
Definition trunc (w : Z) (net : Net) : Net :=
  mkNet (Z.shiftl (Z.shiftr net.(net_addr) (w - net.(net_len))) (w - net.(net_len))) net.(net_len).

Definition net_ok (w : Z) (net : Net) : Prop := fits_u w net.(net_addr) /\ 0 <= net.(net_len) <= w.

(** The addresses of [net] share its first bits. *)
Definition covers (w : Z) (net : Net) (addr : Z) : Prop :=
  Z.shiftr addr (w - net.(net_len)) = Z.shiftr net.(net_addr) (w - net.(net_len)).

#[export] Instance covers_dec w net addr : Decision (covers w net addr).
Proof. unfold covers. apply _. Defined.

(** prefix_trie::PrefixMap, over truncated prefixes. *)
Class PrefixTrie := {
  PrefixMap : Z -> Type;
  pm_default : forall w, PrefixMap w;
  pm_insert : forall w, PrefixMap w -> Net -> Row -> PrefixMap w;
  (* the longest prefix of an address in the map *)
  get_lpm : forall w, PrefixMap w -> Z -> option (Net * Row);
  pm_len : forall w, PrefixMap w -> Z;
  pm_entries : forall w, PrefixMap w -> gmap Net Row;

  pm_default_law : forall w, pm_entries w (pm_default w) = ∅;
  pm_insert_law : forall w m net row,
    net_ok w net -> trunc w net = net -> pm_entries w (pm_insert w m net row) = <[net := row]> (pm_entries w m);
  get_lpm_entry : forall w m addr net row, get_lpm w m addr = Some (net, row) -> pm_entries w m !! net = Some row;
  get_lpm_law : forall w m addr,
    (w = 32 \/ w = 128) -> fits_u w addr -> (forall net row, pm_entries w m !! net = Some row -> net_ok w net) ->
    match get_lpm w m addr with
    | Some (net, row) => covers w net addr /\
        forall net' row', pm_entries w m !! net' = Some row' -> covers w net' addr -> net'.(net_len) <= net.(net_len)
    | None => forall net' row', pm_entries w m !! net' = Some row' -> ~ covers w net' addr
    end;
  pm_len_law : forall w m, pm_len w m = Z.of_nat (size (pm_entries w m));
}.

Inductive IpNet := NetV4 (net : Net) | NetV6 (net : Net).

Section prefix.
Context `{PT : PrefixTrie}.

Record PrefixTable := mkPrefixTable { ipv4 : PrefixMap 32; ipv6 : PrefixMap 128 }.

Definition prefix_default : PrefixTable := mkPrefixTable (pm_default 32) (pm_default 128).

Definition prefix_insert (self : PrefixTable) (net : IpNet) (row : Row) : PrefixTable :=
  match net with
  | NetV4 net => mkPrefixTable (pm_insert 32 self.(ipv4) (trunc 32 net) row) self.(ipv6)
  | NetV6 net => mkPrefixTable self.(ipv4) (pm_insert 128 self.(ipv6) (trunc 128 net) row)
  end.

Definition prefix_lookup (self : PrefixTable) (key : list Key) : option Row :=
  match key with
  | [KeyIp (V4 ip)] => snd <$> get_lpm 32 self.(ipv4) ip
  | [KeyIp (V6 ip)] => snd <$> get_lpm 128 self.(ipv6) ip
  | _ => None
  end.

Definition prefix_source (self : PrefixTable) : Source :=
  mkSource (prefix_lookup self) (pm_len 32 self.(ipv4) + pm_len 128 self.(ipv6)).
End prefix.

(** ** CSV *)

(** [KeyType::parse] *)
Definition parse_key (self : KeyType) (raw : bytes) : option Key :=
  match self with
  | KeyType.Ip => KeyIp <$> parse_ip raw
  | KeyType.Number => KeyNumber <$> parse_unsigned 64 raw
  end.

Inductive CsvLookup := CsvPrefix | CsvExact (key_types : list KeyType).

(** What [csv::Reader] reads: the first record, and the others in turn, or
    where it fails. *)
Record CsvInput := mkCsvInput { csv_headers : option (list bytes); csv_records : list (option (list bytes)) }.

(** [position] of an element *)
Definition position (b : bytes) (l : list bytes) : option nat := fst <$> list_find (eq b) l.

(** A cell's value: an empty cell has none. *)
Definition cell_value (v : bytes) : option bytes := if bool_decide (v = []) then None else Some v.

Definition cell (record : list bytes) (i : nat) : bytes := trim (default [] (record !! i)).

Section csv.
Context {T : Type}.

(** The records in turn; nothing where it panics. *)
Fixpoint read_records (schema : list bytes) (key_indexes column_indexes : list nat)
    (emit : T -> list bytes -> Row -> option (EnrichResult T)) (acc : T) (records : list (option (list bytes))) :
    option (EnrichResult T) :=
  match records with
  | [] => Some (inl acc)
  | None :: _ => Some (inr CsvError)
  | Some record :: records =>
      let keys := cell record <$> key_indexes in
      if existsb (fun key => bool_decide (key = [])) keys then Some (inr DataError)
      else
        row ← schema_row schema ((fun i => cell_value (cell record i)) <$> column_indexes);
        emitted ← emit acc keys row;
        match emitted with
        | inr e => Some (inr e)
        | inl acc => read_records schema key_indexes column_indexes emit acc records
        end
  end.

(** [csv::read] *)
Definition read (input : CsvInput) (key_columns schema : list bytes)
    (emit : T -> list bytes -> Row -> option (EnrichResult T)) (acc : T) : option (EnrichResult T) :=
  match input.(csv_headers) with
  | None => Some (inr CsvError)
  | Some headers =>
      let headers := trim <$> headers in
      if existsb (fun h => bool_decide (h = [])) headers || negb (bool_decide (NoDup headers)) then Some (inr DataError)
      else
        match mapM (fun column => position column headers) key_columns,
              mapM (fun column => position column headers) schema with
        | Some key_indexes, Some column_indexes =>
            read_records schema key_indexes column_indexes emit acc input.(csv_records)
        | _, _ => Some (inr DataError)
        end
  end.
End csv.

(** [ipnet::IpNet]'s text form: an address and a length its family has. *)
Class IpnetText := {
  parse_prefix : bytes -> option IpNet;
  parse_prefix_law : forall raw net, parse_prefix raw = Some net ->
    match net with NetV4 net => net_ok 32 net | NetV6 net => net_ok 128 net end;
}.

Section open.
Context `{PT : PrefixTrie} `{IT : IpnetText}.

Definition emit_exact (key_types : list KeyType) (table : ExactTable) (keys : list bytes) (row : Row) :
    option (EnrichResult ExactTable) :=
  Some match mapM (fun '(key, key_type) => parse_key key_type key) (zip keys key_types) with
    | Some key => inl (exact_insert table key row)
    | None => inr DataError
    end.

Definition emit_prefix (table : PrefixTable) (keys : list bytes) (row : Row) : option (EnrichResult PrefixTable) :=
  key ← keys !! 0%nat;
  Some match parse_prefix key with
    | Some net => inl (prefix_insert table net row)
    | None => inr DataError
    end.

(** [csv::open] *)
Definition csv_open (input : CsvInput) (key_columns : list bytes) (lookup : CsvLookup) (schema : list bytes) :
    option (EnrichResult Source) :=
  match lookup with
  | CsvExact key_types =>
      table ← read input key_columns schema (emit_exact key_types) ∅;
      Some match table with inl table => inl (exact_source table) | inr e => inr e end
  | CsvPrefix =>
      table ← read input key_columns schema emit_prefix prefix_default;
      Some match table with inl table => inl (prefix_source table) | inr e => inr e end
  end.
End open.

(** ** MMDB *)

(** [serde_json::Value]; what is neither null nor a string has a text form. *)
Inductive JsonValue := JsonNull | JsonString (s : bytes) | JsonOther (text : bytes).

(** What [maxminddb::Reader] reads of a file: whether it has data of an
    address, the values of that data by path, and its networks with data. *)
Record MmdbReader := mkMmdbReader {
  mm_has_data : IpAddr -> bool;
  mm_decode_path : IpAddr -> list bytes -> option JsonValue;
  mm_networks : EnrichResult Z;
}.

Definition value_to_string (value : JsonValue) : option bytes :=
  match value with
  | JsonNull => None
  | JsonString s => if bool_decide (s = []) then None else Some s
  | JsonOther text => Some text
  end.

(** There is a value for every path, so the row has the schema's width. *)
Definition mmdb_lookup (reader : MmdbReader) (schema : list bytes) (key : list Key) : option Row :=
  match key with
  | [KeyIp ip] =>
      if reader.(mm_has_data) ip then
        let values := (fun column => reader.(mm_decode_path) ip (str_split x2e column) ≫= value_to_string) <$> schema in
        if forallb (fun v => bool_decide (v = None)) values then None else schema_row schema values
      else None
  | _ => None
  end.

(** [MmdbSource::open] *)
Definition mmdb_open (opened : EnrichResult MmdbReader) (schema : list bytes) : EnrichResult Source :=
  match opened with
  | inr e => inr e
  | inl reader =>
      match reader.(mm_networks) with
      | inr e => inr e
      | inl networks => inl (mkSource (mmdb_lookup reader schema) networks)
      end
  end.

(** ** Commands *)

(** A command run once: whether it started, what it printed, and how it ended
    within its limit. *)
Record CommandRun := mkCommandRun {
  run_started : EnrichResult unit;
  run_printed : CsvInput;
  run_status : EnrichResult bool;
}.

(** [command::read]: what was parsed counts only if the command succeeds. *)
Definition command_read {T} (run : CommandRun) (parse : CsvInput -> option (EnrichResult T)) : option (EnrichResult T) :=
  match run.(run_started) with
  | inr e => Some (inr e)
  | inl _ =>
      parsed ← parse run.(run_printed);
      Some match run.(run_status) with
      | inr e => inr e
      | inl success => if success : bool then parsed else inr CommandError
      end
  end.
