(* ===== verification/EnrichConfig.v ===== *)
(** [rustflow_collect/src/enrich/config.rs]: what an [--enrich] argument asks
    for.

    Durations are the duration_str crate's to read and absolute paths depend
    on the working directory: both are arguments. *)

From Stdlib Require Import ZArith Lia Strings.Byte.
From stdpp Require Import base tactics numbers list gmap.
From S2P Require Import Prelude Std Text Crates Calendar CommonFlow Layout Storage Destination EnrichTables.
#[local] Open Scope Z_scope.

(** The question mark operator. *)
Definition and_then {A B} (r : EnrichResult A) (k : A -> EnrichResult B) : EnrichResult B :=
  match r with inl a => k a | inr e => inr e end.

Definition ok_or {A} (o : option A) (e : EnrichError) : EnrichResult A := match o with Some a => inl a | None => inr e end.

Notation "'let!' x ':=' r 'in' k" := (and_then r (fun x => k))
  (at level 10, x pattern, r at level 200, k at level 200, format "'[v' 'let!'  x  ':='  r  'in' '/' k ']'").

(** ** Plain choices *)

Module ReloadPolicy.
Inductive ReloadPolicy := Never | Interval (duration : Z) | Watch (debounce : Z).
End ReloadPolicy.
Export ReloadPolicy(ReloadPolicy).

Module Kind.
Inductive Kind := Prefix | Exact.
End Kind.
Export Kind(Kind).

Module Format.
Inductive Format := Csv | Mmdb.
End Format.
Export Format(Format).

(** ** Lookup keys *)

Definition MAX_KEYS : Z := 4.

Section config.
Context `{CR : Crates}.

(** A flow field tables can be looked up by; keys are told apart by name. *)
Record LookupKey := mkLookupKey {
  lk_name : bytes;
  lk_key_type : KeyType;
  lk_extract : CommonFlow -> option Key;
}.

(** [lookup_fields!]: addresses and numbers, present or not. *)
Definition ip_key (name : bytes) (field : CommonFlow -> option IpAddr) : LookupKey :=
  mkLookupKey name KeyType.Ip (fun flow => KeyIp <$> field flow).

Definition number_key (name : bytes) (field : CommonFlow -> option Z) : LookupKey :=
  mkLookupKey name KeyType.Number (fun flow => KeyNumber <$> field flow).

Definition required_key (name : bytes) (field : CommonFlow -> Z) : LookupKey :=
  mkLookupKey name KeyType.Number (fun flow => Some (KeyNumber (field flow))).

Definition LOOKUP_KEYS : list LookupKey := [
  required_key (str "sequence_num") cf_sequence_num;
  number_key (str "sampling_rate") cf_sampling_rate;
  ip_key (str "sampler_address") cf_sampler_address;
  required_key (str "bytes") cf_bytes;
  required_key (str "packets") cf_packets;
  ip_key (str "src_addr") cf_src_addr;
  ip_key (str "dst_addr") cf_dst_addr;
  number_key (str "etype") cf_etype;
  number_key (str "proto") cf_proto;
  number_key (str "src_port") cf_src_port;
  number_key (str "dst_port") cf_dst_port;
  number_key (str "in_if") cf_in_if;
  number_key (str "out_if") cf_out_if;
  number_key (str "ip_tos") cf_ip_tos;
  number_key (str "ip_ttl") cf_ip_ttl;
  number_key (str "tcp_flags") cf_tcp_flags;
  number_key (str "icmp_type") cf_icmp_type;
  number_key (str "icmp_code") cf_icmp_code;
  number_key (str "ipv6_flow_label") cf_ipv6_flow_label;
  number_key (str "fragment_id") cf_fragment_id;
  number_key (str "fragment_offset") cf_fragment_offset;
  number_key (str "src_as") cf_src_as;
  number_key (str "dst_as") cf_dst_as;
  ip_key (str "next_hop") cf_next_hop;
  number_key (str "src_net") cf_src_net;
  number_key (str "dst_net") cf_dst_net;
  ip_key (str "bgp_next_hop") cf_bgp_next_hop;
  number_key (str "src_vlan") cf_src_vlan;
  number_key (str "dst_vlan") cf_dst_vlan;
  number_key (str "observation_domain_id") cf_observation_domain_id;
  number_key (str "template_id") cf_template_id;
  number_key (str "forwarding_status") cf_forwarding_status
].

(** [LookupKey::from_str] *)
Definition lookup_key (value : bytes) : option LookupKey :=
  snd <$> list_find (fun key => key.(lk_name) = value) LOOKUP_KEYS.

Record FieldMapping := mkMapping {
  keys : list LookupKey;
  source_column : bytes;
  output_field : bytes;
}.

(** ** Sources *)

Inductive SourceFormat := FormatCsv (key_columns : list bytes) (lookup : CsvLookup) | FormatMmdb.

(** A timeout is in nanoseconds. *)
Inductive Origin := OriginFile (path : bytes) | OriginCommand (program : bytes) (timeout : Z).

Definition origin_path (self : Origin) : bytes :=
  match self with OriginFile path => path | OriginCommand path _ => path end.

Record SourceConfig := mkSourceConfig {
  origin : Origin;
  format : SourceFormat;
  reload : ReloadPolicy;
  columns : list bytes;
}.

Definition MILLIS : Z := 1_000_000.
Definition DEFAULT_DEBOUNCE : Z := 250 * MILLIS.
Definition MIN_INTERVAL : Z := 10 * 1000 * MILLIS.
Definition DEFAULT_TIMEOUT : Z := 30 * 1000 * MILLIS.

(* [duration_str::parse], in nanoseconds *)
Context (parse_duration : bytes -> option Z).
(* [std::path::absolute] *)
Context (absolute : bytes -> EnrichResult bytes).

Definition blank (s : bytes) : bool := bool_decide (trim s = []).

(** [SourceConfig::new] *)
Definition SourceConfig_new (origin : Origin) (format : SourceFormat) (columns : list bytes) (reload : ReloadPolicy) :
    EnrichResult SourceConfig :=
  if bool_decide (origin_path origin = []) then inr ConfigError
  else if match origin with
    | OriginCommand _ timeout =>
        match format with FormatMmdb => true | FormatCsv _ _ => false end ||
        match reload with ReloadPolicy.Watch _ => true | _ => false end || (timeout =? 0)
    | OriginFile _ => false
    end then inr ConfigError
  else if bool_decide (columns = []) then inr ConfigError
  else if existsb blank columns || negb (bool_decide (NoDup columns)) then inr ConfigError
  else if match format with
    | FormatCsv key_columns _ => bool_decide (key_columns = []) || existsb blank key_columns
    | FormatMmdb => false
    end then inr ConfigError
  else
    let! origin := match origin with
      | OriginFile path => let! path := absolute path in inl (OriginFile path)
      | OriginCommand program timeout => let! program := absolute program in inl (OriginCommand program timeout)
      end in
    inl (mkSourceConfig origin format reload columns).

(** [ReloadPolicy::from_str] *)
Definition parse_reload (value : bytes) : EnrichResult ReloadPolicy :=
  if bool_decide (value = str "never") then inl ReloadPolicy.Never
  else if bool_decide (value = str "watch") then inl (ReloadPolicy.Watch DEFAULT_DEBOUNCE)
  else
    let! interval := ok_or (parse_duration value) ConfigError in
    if interval <? MIN_INTERVAL then inr ConfigError else inl (ReloadPolicy.Interval interval).

(** ** The argument *)

Record EnrichmentConfig := mkConfig { source : SourceConfig; mappings : list FieldMapping }.

Definition PARAMETERS : list bytes :=
  [str "type"; str "format"; str "source"; str "command"; str "timeout"; str "key_column"; str "fields"; str "reload"].

Definition parse_kind (value : bytes) : EnrichResult Kind :=
  if bool_decide (value = str "prefix_lookup") then inl Kind.Prefix
  else if bool_decide (value = str "exact") then inl Kind.Exact
  else inr ConfigError.

Definition parse_format (value : bytes) : EnrichResult Format :=
  if eq_ignore_ascii_case value (str "csv") then inl Format.Csv
  else if eq_ignore_ascii_case value (str "mmdb") then inl Format.Mmdb
  else inr ConfigError.

(** The pieces between separators, trimmed, without the empty ones. *)
Definition pieces (sep : byte) (value : bytes) : list bytes :=
  filter (fun piece => piece <> []) (trim <$> str_split sep value).

Definition parse_spec (ks : list LookupKey) (spec : bytes) : EnrichResult FieldMapping :=
  match split_once x3a spec with
  | Some (s, o) =>
      if bool_decide (trim s = []) || bool_decide (trim o = []) then inr ConfigError
      else inl (mkMapping ks (trim s) (trim o))
  | None => inr ConfigError
  end.

Fixpoint collect {A B} (f : A -> EnrichResult B) (l : list A) : EnrichResult (list B) :=
  match l with
  | [] => inl []
  | a :: l => let! b := f a in let! bs := collect f l in inl (b :: bs)
  end.

Definition parse_group (group : bytes) : EnrichResult (list FieldMapping) :=
  let! (key, specs) := ok_or (split_once x40 group) ConfigError in
  let! ks := collect (fun key => ok_or (lookup_key (trim key)) ConfigError) (str_split x2b key) in
  if MAX_KEYS <? zlen ks then inr ConfigError
  else
    let! ms := collect (parse_spec ks) (pieces x7c specs) in
    if bool_decide (length ms = 0%nat) then inr ConfigError else inl ms.

Definition parse_field_mappings (value : bytes) : EnrichResult (list FieldMapping) :=
  let! groups := collect parse_group (pieces x3b value) in
  let ms := concat groups in
  if bool_decide (length ms = 0%nat) then inr ConfigError else inl ms.

(** The parameters, each given once. *)
Fixpoint parse_params (params : gmap bytes bytes) (parts : list bytes) : EnrichResult (gmap bytes bytes) :=
  match parts with
  | [] => inl params
  | part :: parts =>
      let! (key, value) := ok_or (split_once x3d part) ConfigError in
      let key := trim key in
      let value := trim value in
      if bool_decide (value = []) then inr ConfigError
      else if negb (bool_decide (key ∈ PARAMETERS)) then inr ConfigError
      else if bool_decide (is_Some (params !! key)) then inr ConfigError
      else parse_params (<[key := value]> params) parts
  end.

(** [Path::extension] of a path as given. *)
Definition raw_extension (path : bytes) : option bytes :=
  path_extension (filter (fun c => c <> [] /\ c <> str ".") (str_split x2f path)).

Definition key_types (ks : list LookupKey) : list KeyType := lk_key_type <$> ks.

Definition add_column (columns : list bytes) (m : FieldMapping) : list bytes :=
  if bool_decide (m.(source_column) ∈ columns) then columns else columns ++ [m.(source_column)].

(** [parse_enrich_arg]: nothing where it panics. *)
Definition parse_enrich_arg (arg : bytes) : option (EnrichResult EnrichmentConfig) :=
  match parse_params ∅ (str_split x2c arg) with
  | inr e => Some (inr e)
  | inl params =>
      let required key := ok_or (params !! key) ConfigError in
      let parsed :=
        let! kind := required (str "type") in
        let! kind := parse_kind kind in
        let! origin := match params !! str "source", params !! str "command" with
          | Some path, None => if bool_decide (is_Some (params !! str "timeout")) then inr ConfigError else inl (OriginFile path)
          | None, Some program =>
              let! timeout := match params !! str "timeout" with
                | Some value => ok_or (parse_duration value) ConfigError
                | None => inl DEFAULT_TIMEOUT
                end in
              inl (OriginCommand program timeout)
          | Some _, Some _ | None, None => inr ConfigError
          end in
        let! format := match params !! str "format", origin with
          | Some format, _ => parse_format format
          | None, OriginFile path => let! extension := ok_or (raw_extension path) ConfigError in parse_format extension
          | None, OriginCommand _ _ => inl Format.Csv
          end in
        let! fields := required (str "fields") in
        let! ms := parse_field_mappings fields in
        inl (kind, origin, format, ms) in
      match parsed with
      | inr e => Some (inr e)
      | inl (kind, origin, format, ms) =>
          first ← head ms;
          let types := key_types first.(keys) in
          Some (
            if existsb (fun m => negb (bool_decide (key_types m.(keys) = types))) ms then inr ConfigError
            else if match kind with Kind.Prefix => negb (bool_decide (types = [KeyType.Ip])) | Kind.Exact => false end
            then inr ConfigError
            else
              let! format := match format, kind with
                | Format.Csv, kind =>
                    let! key_column := required (str "key_column") in
                    let key_columns := trim <$> str_split x2b key_column in
                    if negb (length key_columns =? length types)%nat then inr ConfigError
                    else inl (FormatCsv key_columns match kind with Kind.Prefix => CsvPrefix | Kind.Exact => CsvExact types end)
                | Format.Mmdb, Kind.Prefix =>
                    if bool_decide (is_Some (params !! str "key_column")) then inr ConfigError else inl FormatMmdb
                | Format.Mmdb, Kind.Exact => inr ConfigError
                end in
              let! reload := match params !! str "reload" with Some v => parse_reload v | None => inl ReloadPolicy.Never end in
              let columns := foldl add_column [] ms in
              let! source := SourceConfig_new origin format columns reload in
              inl (mkConfig source ms))
      end
  end.
End config.

(** ** What it promises

    What an [--enrich] argument that is taken says: a configuration the engine
    and the tables can rely on. *)

Lemma and_then_inl {A B} (r : EnrichResult A) (k : A -> EnrichResult B) b :
  and_then r k = inl b <-> exists a, r = inl a /\ k a = inl b.
Proof. destruct r as [a|e]; cbn; split; [by exists a|by intros (? & [= <-] & ?)|done|by intros (? & ? & _)]. Qed.

Lemma ok_or_inl {A} (o : option A) e a : ok_or o e = inl a <-> o = Some a.
Proof. destruct o; cbn; split; congruence. Qed.

Lemma collect_inl {A B} (f : A -> EnrichResult B) l : forall bs, collect f l = inl bs -> Forall2 (fun a b => f a = inl b) l bs.
Proof.
  induction l as [|a l IH]; intros bs; cbn [collect]; [intros [= <-]; constructor|].
  intros (b & Hb & H)%and_then_inl. apply and_then_inl in H as (bs' & Hbs & [= <-]). constructor; [done|by apply IH].
Qed.

Lemma collect_elem {A B} (f : A -> EnrichResult B) l bs b :
  collect f l = inl bs -> b ∈ bs -> exists a, a ∈ l /\ f a = inl b.
Proof.
  intros H%collect_inl Hb. apply list_elem_of_lookup_1 in Hb as [i Hi]. destruct (Forall2_lookup_r _ _ _ _ _ H Hi) as (a & Ha & E).
  exists a. split; [by eapply list_elem_of_lookup_2|done].
Qed.

(** The alternatives of a check that failed. *)
Ltac checks :=
  repeat match goal with
  | H : and_then _ _ = inl _ |- _ => apply and_then_inl in H as (? & ? & H)
  | H : ok_or _ _ = inl _ |- _ => apply ok_or_inl in H
  | H : inl _ = inl _ |- _ => injection H as H; subst
  | H : inr _ = inl _ |- _ => discriminate H
  | H : (if ?c then _ else _) = inl _ |- _ => let E := fresh "Hcheck" in destruct c eqn:E
  end.

Section config.
Context `{CR : Crates} (parse_duration : bytes -> option Z) (absolute : bytes -> EnrichResult bytes).

Lemma lookup_key_in value key : lookup_key value = Some key -> key ∈ LOOKUP_KEYS /\ key.(lk_name) = value.
Proof.
  unfold lookup_key. intros ([i k] & H & ->)%fmap_Some. apply list_find_Some in H as (H1 & H2 & _). split; [|done].
  by eapply list_elem_of_lookup_2.
Qed.

Definition mapping_ok (m : FieldMapping) : Prop :=
  (0 < length m.(keys) <= Z.to_nat MAX_KEYS)%nat /\ m.(keys) ⊆ LOOKUP_KEYS /\ m.(source_column) <> [] /\ m.(output_field) <> [].

Lemma str_split_nonempty sep s : str_split sep s <> [].
Proof. destruct s as [|c s]; cbn; [done|]. destruct (bool_decide _); [done|]. by destruct (str_split sep s). Qed.

Lemma parse_group_ok group ms : parse_group group = inl ms -> ms <> [] /\ Forall mapping_ok ms.
Proof.
  unfold parse_group. intros H. apply and_then_inl in H as ([key specs] & _ & H). checks.
  rename x into ks, H0 into Hks, H1 into Hms. apply bool_decide_eq_false in Hcheck0. split; [by destruct ms|].
  apply Forall_forall. intros m Hm. destruct (collect_elem _ _ _ _ Hms Hm) as (spec & _ & E). unfold parse_spec in E.
  destruct (split_once _ spec) as [[s o]|]; [|done]. checks. apply orb_false_iff in Hcheck1 as [H1 H2].
  apply bool_decide_eq_false in H1, H2. unfold mapping_ok. cbn [keys source_column output_field]. split; [|split_and!; [|done|done]].
  - pose proof (Forall2_length _ _ _ (collect_inl _ _ _ Hks)) as Hl. pose proof (str_split_nonempty x2b key).
    apply Z.ltb_ge in Hcheck. unfold zlen, MAX_KEYS in *. destruct (str_split x2b key); [done|]. cbn in Hl. lia.
  - intros k Hk. destruct (collect_elem _ _ _ _ Hks Hk) as (raw & _ & Hr). apply ok_or_inl in Hr. by apply lookup_key_in in Hr as [Hr _].
Qed.

Lemma parse_mappings_ok value ms : parse_field_mappings value = inl ms -> ms <> [] /\ Forall mapping_ok ms.
Proof.
  unfold parse_field_mappings. intros H. checks. rename x into gs, H0 into Hgs. apply bool_decide_eq_false in Hcheck.
  split; [by intros E; rewrite E in Hcheck|]. apply Forall_forall. intros m Hm.
  apply list_elem_of_In, in_concat in Hm as (g & Hg%list_elem_of_In & Hm%list_elem_of_In). destruct (collect_elem _ _ _ _ Hgs Hg) as (raw & _ & E).
  apply parse_group_ok in E as [_ E]. rewrite Forall_forall in E. by apply E.
Qed.

(** The columns are those of the mappings, each once. *)
Lemma columns_spec ms : NoDup (foldl add_column [] ms) /\ forall c, c ∈ foldl add_column [] ms <-> c ∈ source_column <$> ms.
Proof.
  induction ms as [|m ms [IH1 IH2]] using rev_ind; [split; [constructor|]; intros c; split; intros H; by apply elem_of_nil in H|].
  rewrite foldl_snoc, fmap_app. unfold add_column at 1 3. destruct (bool_decide_reflect (m.(source_column) ∈ foldl add_column [] ms)) as [Hm|Hm].
  - split; [done|]. intros c. rewrite IH2, elem_of_app. split; [by left|]. intros [H|H]; [done|].
    apply list_elem_of_singleton in H as ->. by apply IH2.
  - split.
    + apply NoDup_app. split_and!; [done| |by apply NoDup_singleton]. intros c Hc H. apply list_elem_of_singleton in H as ->. done.
    + intros c. by rewrite !elem_of_app, IH2.
Qed.

Definition source_ok (types : list KeyType) (c : SourceConfig) : Prop :=
  c.(columns) <> [] /\ NoDup c.(columns) /\ Forall (fun column => trim column <> []) c.(columns) /\
  match c.(format) with
  | FormatCsv key_columns lookup => key_columns <> [] /\ length key_columns = length types /\ Forall (fun column => trim column <> []) key_columns /\
      match lookup with CsvPrefix => types = [KeyType.Ip] | CsvExact ts => ts = types end
  | FormatMmdb => types = [KeyType.Ip]
  end /\
  match c.(origin) with
  | OriginCommand _ timeout => timeout <> 0 /\ c.(format) <> FormatMmdb /\ forall debounce, c.(reload) <> ReloadPolicy.Watch debounce
  | OriginFile _ => True
  end /\
  match c.(reload) with ReloadPolicy.Interval duration => MIN_INTERVAL <= duration | _ => True end.

Definition config_ok (c : EnrichmentConfig) : Prop :=
  c.(mappings) <> [] /\ Forall mapping_ok c.(mappings) /\
  (exists types, Forall (fun m => key_types m.(keys) = types) c.(mappings) /\ source_ok types c.(source)) /\
  forall column, column ∈ c.(source).(columns) <-> column ∈ source_column <$> c.(mappings).

Lemma existsb_blank cs : existsb blank cs = false -> Forall (fun c => trim c <> []) cs.
Proof.
  intros H. apply Forall_forall. intros c Hc E. apply list_elem_of_In in Hc.
  assert (Hb : existsb blank cs = true) by (apply existsb_exists; exists c; split; [done|by apply bool_decide_eq_true]). congruence.
Qed.

Lemma SourceConfig_new_ok types origin format columns reload c :
  SourceConfig_new absolute origin format columns reload = inl c -> NoDup columns ->
  match format with
  | FormatCsv key_columns lookup => length key_columns = length types /\
      match lookup with CsvPrefix => types = [KeyType.Ip] | CsvExact ts => ts = types end
  | FormatMmdb => types = [KeyType.Ip]
  end ->
  match reload with ReloadPolicy.Interval duration => MIN_INTERVAL <= duration | _ => True end ->
  source_ok types c /\ c.(EnrichConfig.columns) = columns.
Proof.
  unfold SourceConfig_new. intros H Hn Hf Hr. checks. clear Hcheck. apply bool_decide_eq_false in Hcheck1.
  apply orb_false_iff in Hcheck2 as [Hb _]. split; [|done]. unfold source_ok. cbn [EnrichConfig.columns EnrichConfig.format EnrichConfig.origin EnrichConfig.reload]. split_and!; [done|done|by apply existsb_blank| | |done].
  - destruct format as [kc lookup|]; [|done]. destruct Hf as [Hf1 Hf2]. apply orb_false_iff in Hcheck3 as [Hne Hk].
    apply bool_decide_eq_false in Hne. split_and!; [done|done|by apply existsb_blank|done].
  - destruct origin as [p|p t]; checks; [done|]. apply orb_false_iff in Hcheck0 as [H0 H1]. apply orb_false_iff in H0 as [H0 H2].
    apply Z.eqb_neq in H1. split_and!; [done| |]; [by intros ->|by intros d ->].
Qed.

Lemma parse_reload_ok value reload : parse_reload parse_duration value = inl reload ->
  match reload with ReloadPolicy.Interval duration => MIN_INTERVAL <= duration | _ => True end.
Proof. unfold parse_reload. intros H. checks; try done. by apply Z.ltb_ge in Hcheck1. Qed.

(** Reading an argument never panics.  What it takes has mappings of one to
    four known fields each, all of the same types; the columns of the source are
    those of the mappings; a CSV source has a column for every key, and a
    prefix table a single address; and a command is neither watched nor read
    as MMDB. *)
Lemma parse_enrich_spec arg :
  exists r, parse_enrich_arg parse_duration absolute arg = Some r /\ forall c, r = inl c -> config_ok c.
Proof.
  unfold parse_enrich_arg. destruct (parse_params _ _) as [params|e]; [|eexists; split; [done|by intros c [=]]].
  match goal with |- context [match ?p with inl _ => _ | inr _ => _ end] => set (parsed := p) end.
  destruct parsed as [[[[kind origin] format] ms]|e] eqn:Ep; [|eexists; split; [done|by intros c [=]]].
  assert (Hms : ms <> [] /\ Forall mapping_ok ms).
  { subst parsed. checks. by eapply parse_mappings_ok. }
  clear parsed Ep. destruct Hms as [Hne Hok]. destruct ms as [|m ms]; [done|]. cbn [head mbind option_bind].
  assert (Hdone : forall format reload x,
    SourceConfig_new absolute origin format (foldl add_column [] (m :: ms)) reload = inl x ->
    existsb (fun m0 => negb (bool_decide (key_types m0.(keys) = key_types m.(keys)))) (m :: ms) = false ->
    match params !! str "reload" with Some v => parse_reload parse_duration v | None => inl ReloadPolicy.Never end = inl reload ->
    match format with
    | FormatCsv key_columns lookup => length key_columns = length (key_types m.(keys)) /\
        match lookup with CsvPrefix => key_types m.(keys) = [KeyType.Ip] | CsvExact ts => ts = key_types m.(keys) end
    | FormatMmdb => key_types m.(keys) = [KeyType.Ip]
    end -> config_ok (mkConfig x (m :: ms))).
  { intros f reload x Hx Ht Hr Hf. destruct (columns_spec (m :: ms)) as [Hn Hcs].
    destruct (SourceConfig_new_ok _ _ _ _ _ _ Hx Hn Hf) as [Hs Ec].
    { destruct (params !! str "reload"); [by eapply parse_reload_ok|by injection Hr as <-]. }
    split_and!; cbn [mappings source]; [done|done| |intros column; by rewrite Ec, Hcs]. exists (key_types m.(keys)). split; [|done].
    apply Forall_forall. intros m' Hm'. apply list_elem_of_In in Hm'. apply dec_stable. intros Hd.
    assert (Hb : existsb (fun m0 => negb (bool_decide (key_types m0.(keys) = key_types m.(keys)))) (m :: ms) = true)
      by (apply existsb_exists; exists m'; split; [done|by rewrite bool_decide_false]). congruence. }
  eexists. split; [done|]. intros c H. checks.
  - apply negb_false_iff, Nat.eqb_eq in Hcheck2. eapply Hdone; [done|done|done|]. split; [done|].
    destruct kind; [by apply negb_false_iff, bool_decide_eq_true in Hcheck0|done].
  - eapply Hdone; [done|done|done|]. by apply negb_false_iff, bool_decide_eq_true in Hcheck0.
Qed.
End config.
