(* ===== verification/EnrichEngine.v ===== *)
(** [rustflow_collect/src/enrich/engine.rs] and [table/mod.rs]: the values
    tables add to a flow.

    A table that opens or does not is an argument, as what the file holds is;
    each table keeps the source of its last load that succeeded. *)

From Stdlib Require Import ZArith Lia Strings.Byte.
From stdpp Require Import base tactics numbers list gmap.
From S2P Require Import Prelude Std Text Crates CommonFlow EnrichTables EnrichConfig.
#[local] Open Scope Z_scope.

(** ** Tables *)

(** [SourceMetrics] *)
Record SourceMetrics := mkSourceMetrics {
  loaded_rows : Z;
  loads_total : Z;
  reload_failures_total : Z;
  last_load_timestamp_seconds : Z;
}.

(** [Shared], with its metrics *)
Record Table := mkTable { t_source : Source; t_metrics : SourceMetrics }.

(** [Shared::record_load], at a Unix time. *)
Definition record_load (m : SourceMetrics) (count now : Z) : SourceMetrics :=
  mkSourceMetrics count (m.(loads_total) + 1) m.(reload_failures_total) now.

(** [Table::new] of what opening gave, from the reload driver to the source: the
    first failure, if any.  That the worker's thread starts is taken for
    granted.  A source that was loaded before under the same name has its
    metrics. *)
Definition Table_new (opened : EnrichResult Source) (m : SourceMetrics) (now : Z) : EnrichResult Table :=
  match opened with
  | inr e => inr e
  | inl source => inl (mkTable source (record_load m source.(source_len) now))
  end.

(** [Shared::reload] *)
Definition reload (self : Table) (opened : EnrichResult Source) (now : Z) : Table * EnrichResult Z :=
  match opened with
  | inl source =>
      let count := source.(source_len) in
      (mkTable source (record_load self.(t_metrics) count now), inl count)
  | inr e =>
      let m := self.(t_metrics) in
      (mkTable self.(t_source)
        (mkSourceMetrics m.(loaded_rows) m.(loads_total) (m.(reload_failures_total) + 1) m.(last_load_timestamp_seconds)), inr e)
  end.

(** What is at a source's path. *)
Record SourceInput := mkSourceInput {
  in_csv : EnrichResult CsvInput;
  in_mmdb : EnrichResult MmdbReader;
  in_run : CommandRun;
}.

(** [source::load]: a command that prints no rows would replace a good table
    with an empty one. *)
Definition load `{PT : PrefixTrie} `{IT : IpnetText} (config : SourceConfig) (input : SourceInput) : option (EnrichResult Source) :=
  match config.(format), config.(origin) with
  | FormatCsv key_columns lookup, OriginFile _ =>
      match input.(in_csv) with
      | inr e => Some (inr e)
      | inl csv => csv_open csv key_columns lookup config.(columns)
      end
  | FormatCsv key_columns lookup, OriginCommand _ _ =>
      command_read input.(in_run) (fun csv =>
        opened ← csv_open csv key_columns lookup config.(columns);
        Some match opened with
        | inr e => inr e
        | inl source => if source.(source_len) =? 0 then inr DataError else inl source
        end)
  | FormatMmdb, OriginFile _ => Some (mmdb_open input.(in_mmdb) config.(columns))
  | FormatMmdb, OriginCommand _ _ => Some (inr ConfigError)
  end.

(** [source::open]: every error is one of loading. *)
Definition open_source `{PT : PrefixTrie} `{IT : IpnetText} (config : SourceConfig) (input : SourceInput) : option (EnrichResult Source) :=
  loaded ← load config input;
  Some match loaded with inl source => inl source | inr _ => inr LoadError end.

Section engine.
Context `{CR : Crates}.

(** ** The engine *)

(** The fields a group of mappings with the same keys fills: source column to
    output field. *)
Record Group := mkGroup { g_keys : list LookupKey; g_fields : list (nat * nat) }.

Record Lookup := mkLookup { table : Table; groups : list Group }.

Record EnrichmentEngine := mkEngine { lookups : list Lookup; output_fields : list bytes }.

Definition engine_new : EnrichmentEngine := mkEngine [] [].

(** [LookupKey] is compared by name. *)
Definition same_keys (a b : list LookupKey) : bool := bool_decide (lk_name <$> a = lk_name <$> b).

(** The field joins the group of its keys, or starts one. *)
Fixpoint push_field (groups : list Group) (ks : list LookupKey) (field : nat * nat) : list Group :=
  match groups with
  | [] => [mkGroup ks [field]]
  | g :: groups =>
      if same_keys g.(g_keys) ks then mkGroup g.(g_keys) (g.(g_fields) ++ [field]) :: groups
      else g :: push_field groups ks field
  end.

(** One mapping; nothing where [expect] panics. *)
Definition add_mapping (columns : list bytes) (acc : list bytes * list Group) (mapping : FieldMapping) :
    option (list bytes * list Group) :=
  let '(output_fields, groups) := acc in
  let '(output_fields, output) :=
    match position mapping.(output_field) output_fields with
    | Some index => (output_fields, index)
    | None => (output_fields ++ [mapping.(output_field)], length output_fields)
    end in
  column ← position mapping.(source_column) columns;
  Some (output_fields, push_field groups mapping.(keys) (column, output)).

Fixpoint add_mappings (columns : list bytes) (acc : list bytes * list Group) (mappings : list FieldMapping) :
    option (list bytes * list Group) :=
  match mappings with
  | [] => Some acc
  | m :: mappings => acc ← add_mapping columns acc m; add_mappings columns acc mappings
  end.

(** [EnrichmentEngine::add]; the output fields stay when the table does not
    open. *)
Definition add (self : EnrichmentEngine) (config : EnrichmentConfig) (opened : EnrichResult Source)
    (m : SourceMetrics) (now : Z) : option (EnrichmentEngine * EnrichResult Z) :=
  '(output_fields, groups) ← add_mappings config.(source).(columns) (self.(output_fields), []) config.(mappings);
  Some match Table_new opened m now with
  | inr e => (mkEngine self.(lookups) output_fields, inr e)
  | inl table => (mkEngine (self.(lookups) ++ [mkLookup table groups]) output_fields, inl table.(t_source).(source_len))
  end.

(** [load_enrichment] of the sources that opened, each at its time. *)
Fixpoint load_enrichment (engine : EnrichmentEngine) (configs : list (EnrichmentConfig * EnrichResult Source * SourceMetrics * Z)) :
    option (EnrichResult EnrichmentEngine) :=
  match configs with
  | [] => Some (inl engine)
  | (config, opened, m, now) :: configs =>
      '(engine, added) ← add engine config opened m now;
      match added with
      | inr e => Some (inr e)
      | inl _ => load_enrichment engine configs
      end
  end.

(** ** Lookups *)

(** The keys of a flow, collected into room for [MAX_KEYS]: none when a field
    is missing; nothing where it panics. *)
Fixpoint extract_all (ks : list LookupKey) (flow : CommonFlow) (got : list Key) : option (option (list Key)) :=
  match ks with
  | [] => Some (Some got)
  | k :: ks =>
      match k.(lk_extract) flow with
      | None => Some None
      | Some key => if zlen got <? MAX_KEYS then extract_all ks flow (got ++ [key]) else None
      end
  end.

(** [out[output] = ...]: nothing where the index is out of range. *)
Definition set_output (out : list (option bytes)) (output : nat) (value : bytes) : option (list (option bytes)) :=
  if (output <? length out)%nat then Some (<[output := Some value]> out) else None.

Fixpoint enrich_fields (row : Row) (out : list (option bytes)) (fields : list (nat * nat)) : option (list (option bytes)) :=
  match fields with
  | [] => Some out
  | (column, output) :: fields =>
      value ← row.(values) !! column;
      out ← match value with Some value => set_output out output value | None => Some out end;
      enrich_fields row out fields
  end.

Fixpoint enrich_groups (source : Source) (flow : CommonFlow) (out : list (option bytes)) (groups : list Group) :
    option (list (option bytes)) :=
  match groups with
  | [] => Some out
  | group :: groups =>
      ks ← extract_all group.(g_keys) flow [];
      out ← match ks ≫= source.(source_lookup) with
        | Some row => enrich_fields row out group.(g_fields)
        | None => Some out
        end;
      enrich_groups source flow out groups
  end.

Fixpoint enrich_lookups (flow : CommonFlow) (out : list (option bytes)) (lookups : list Lookup) : option (list (option bytes)) :=
  match lookups with
  | [] => Some out
  | lookup :: lookups =>
      out ← enrich_groups lookup.(table).(t_source) flow out lookup.(groups);
      enrich_lookups flow out lookups
  end.

(** [Snapshot::enrich] over the tables as they are. *)
Definition enrich (self : EnrichmentEngine) (flow : CommonFlow) (out : list (option bytes)) : option (list (option bytes)) :=
  enrich_lookups flow ((fun _ => None) <$> out) self.(lookups).
End engine.
