(* ===== verification/EnrichFacts.v ===== *)
(** What enrichment promises: a table holds the last row of each key of its
    input, a prefix table answers with the longest prefix of an address, and
    every output field of a flow has the last value its tables have for it. *)

From Stdlib Require Import ZArith Lia Strings.Byte.
From stdpp Require Import base tactics numbers list gmap.
From S2P Require Import Prelude Std Text Crates Calendar CommonFlow Layout Storage Destination EnrichTables EnrichConfig EnrichEngine.
#[local] Open Scope Z_scope.

(** ** Positions *)

Lemma position_Some b l i : position b l = Some i -> l !! i = Some b /\ forall j, (j < i)%nat -> l !! j <> Some b.
Proof.
  unfold position. intros H. apply fmap_Some in H as ([j y] & H & ->). apply list_find_Some in H as (H1 & -> & H3).
  split; [done|]. intros j' Hj E. exact (H3 j' _ E Hj eq_refl).
Qed.

Lemma position_elem b l : b ∈ l -> is_Some (position b l).
Proof.
  intros H. unfold position. destruct (list_find (eq b) l) eqn:E; [by eexists|].
  exfalso. apply list_find_None in E. rewrite Forall_forall in E. by apply (E b).
Qed.

Lemma position_None b l : position b l = None -> b ∉ l.
Proof. intros E H. destruct (position_elem b l H) as [i Hi]. congruence. Qed.

(** ** CSV inputs *)

(** The cell of a named column. *)
Definition field (headers : list bytes) (record : list bytes) (column : bytes) : bytes :=
  match position column headers with Some i => cell record i | None => [] end.

Definition row_of (headers columns record : list bytes) : Row :=
  mkRow columns ((fun c => cell_value (field headers record c)) <$> columns).

(** Headers all there, once, with the columns asked for. *)
Definition headers_ok (headers key_columns columns : list bytes) : Prop :=
  Forall (fun h => h <> []) headers /\ NoDup headers /\ Forall (fun c => c ∈ headers) (key_columns ++ columns).

Lemma columns_found headers cs : Forall (fun c => c ∈ headers) cs ->
  exists idx, mapM (fun column => position column headers) cs = Some idx /\ length idx = length cs /\
    forall record, cell record <$> idx = field headers record <$> cs.
Proof.
  induction 1 as [|c cs Hc _ (idx & E & Hl & IH)]; [by exists []|].
  destruct (position_elem c headers Hc) as [i Ei]. exists (i :: idx). cbn [mapM]. rewrite Ei. cbn [mbind option_bind].
  rewrite E. cbn [mbind option_bind]. split_and!; [done|cbn; lia|]. intros record. rewrite !fmap_cons, IH. f_equal. unfold field. by rewrite Ei.
Qed.

Lemma columns_missing headers cs : ~ Forall (fun c => c ∈ headers) cs ->
  mapM (fun column => position column headers) cs = None.
Proof.
  intros H. apply mapM_None_2. induction cs as [|c cs IH]; [by destruct H|].
  destruct (decide (c ∈ headers)) as [Hc|Hc].
  - apply Exists_cons_tl, IH. intros Hcs. apply H. by constructor.
  - apply Exists_cons_hd. destruct (position c headers) as [i|] eqn:E; [|done]. destruct Hc.
    apply position_Some in E as [E _]. by eapply list_elem_of_lookup_2.
Qed.

Section reading.
Context {T K : Type} (parse_keys : list bytes -> option K) (ins : T -> K -> Row -> T).
Context (emit : T -> list bytes -> Row -> option (EnrichResult T)).
Context (headers key_columns columns : list bytes).

Definition keys_of (record : list bytes) : list bytes := field headers record <$> key_columns.

Definition record_ok (record : list bytes) : Prop :=
  Forall (fun k => k <> []) (keys_of record) /\ is_Some (parse_keys (keys_of record)).

Definition input_ok (records : list (option (list bytes))) (recs : list (list bytes)) : Prop :=
  records = Some <$> recs /\ Forall record_ok recs.

Definition insert_record (acc : T) (record : list bytes) : T :=
  match parse_keys (keys_of record) with Some k => ins acc k (row_of headers columns record) | None => acc end.

Hypothesis Hemit : forall acc keys row, length keys = length key_columns ->
  emit acc keys row = Some match parse_keys keys with Some k => inl (ins acc k row) | None => inr DataError end.

Lemma read_records_spec kidx cidx records : forall acc,
  (forall record, cell record <$> kidx = field headers record <$> key_columns) ->
  (forall record, cell record <$> cidx = field headers record <$> columns) ->
  length cidx = length columns ->
  exists r, read_records columns kidx cidx emit acc records = Some r /\
    match r with
    | inl acc' => exists recs, input_ok records recs /\ acc' = foldl insert_record acc recs
    | inr _ => forall recs, ~ input_ok records recs
    end.
Proof.
  intros acc Hk Hc Hl. revert acc. induction records as [|[record|] records IH]; intros acc; cbn [read_records].
  - eexists. split; [done|]. exists []. split; [by split; [|constructor]|done].
  - rewrite Hk. fold (keys_of record). destruct (existsb _ (keys_of record)) eqn:Ee.
    { eexists. split; [done|]. intros [|rec recs] [E Hr]; [done|]. injection E as <- _. apply Forall_cons in Hr as [[Hr _] _].
      apply existsb_exists in Ee as (k & Hin & Hkn). apply bool_decide_eq_true in Hkn as ->.
      rewrite Forall_forall in Hr. apply (Hr []); [|done]. by apply list_elem_of_In. }
    assert (Hne : Forall (fun k => k <> []) (keys_of record)).
    { apply Forall_forall. intros k Hin ->. apply list_elem_of_In in Hin.
      assert (H : existsb (fun key => bool_decide (key = [])) (keys_of record) = true) by (apply existsb_exists; by exists []).
      congruence. }
    assert (Erow : schema_row columns ((fun i => cell_value (cell record i)) <$> cidx) = Some (row_of headers columns record)).
    { unfold schema_row. rewrite length_fmap, bool_decide_true by done. f_equal. unfold row_of. f_equal.
      pose proof (f_equal (fmap cell_value) (Hc record)) as E. rewrite <- !list_fmap_compose in E. exact E. }
    rewrite Erow. cbn [mbind option_bind]. rewrite Hemit by (unfold keys_of; by rewrite length_fmap).
    cbn [mbind option_bind]. destruct (parse_keys (keys_of record)) as [k|] eqn:Ek.
    + destruct (IH (ins acc k (row_of headers columns record))) as (r & E & Hr). exists r. split; [done|].
      destruct r as [acc'|e].
      * destruct Hr as (recs & [E1 H1] & ->). exists (record :: recs). split.
        -- split; [by rewrite fmap_cons, <- E1|]. constructor; [|done]. split; [done|by rewrite Ek].
        -- cbn [foldl]. unfold insert_record at 3. by rewrite Ek.
      * intros [|rec recs] [E1 H1]; [done|]. injection E1 as <- E1. apply Forall_cons in H1 as [_ H1].
        by apply (Hr recs).
    + eexists. split; [done|]. intros [|rec recs] [E1 H1]; [done|]. injection E1 as <- E1.
      apply Forall_cons in H1 as [[_ [k Hk']] _]. congruence.
  - eexists. split; [done|]. intros [|rec recs] [E _]; done.
Qed.

(** All of the input is read, or none of it is. *)
Lemma read_spec raw records acc : headers = trim <$> raw ->
  exists r, read (mkCsvInput (Some raw) records) key_columns columns emit acc = Some r /\
    match r with
    | inl acc' => headers_ok headers key_columns columns /\ exists recs, input_ok records recs /\ acc' = foldl insert_record acc recs
    | inr _ => ~ (headers_ok headers key_columns columns /\ exists recs, input_ok records recs)
    end.
Proof.
  intros Eh. unfold read. cbn [csv_headers csv_records]. rewrite <- Eh. destruct (existsb _ headers) eqn:Ee; cbn [orb].
  { eexists. split; [done|]. intros [(H & _) _]. apply existsb_exists in Ee as (h & Hin & Hh). apply bool_decide_eq_true in Hh as ->.
    rewrite Forall_forall in H. apply (H []); [|done]. by apply list_elem_of_In. }
  destruct (bool_decide_reflect (NoDup headers)) as [Hn|Hn]; cbn [negb].
  2: { eexists. split; [done|]. by intros [(_ & H & _) _]. }
  destruct (decide (Forall (fun c => c ∈ headers) key_columns)) as [Hk|Hk].
  2: { rewrite (columns_missing _ _ Hk). eexists. split; [done|]. intros [(_ & _ & H) _]. by apply Forall_app in H as [H _]. }
  destruct (columns_found _ _ Hk) as (kidx & -> & _ & Hkf).
  destruct (decide (Forall (fun c => c ∈ headers) columns)) as [Hc|Hc].
  2: { rewrite (columns_missing _ _ Hc). eexists. split; [done|]. intros [(_ & _ & H) _]. by apply Forall_app in H as [_ H]. }
  destruct (columns_found _ _ Hc) as (cidx & -> & Hl & Hcf).
  destruct (read_records_spec kidx cidx records acc Hkf Hcf Hl) as (r & E & Hr). exists r. split; [done|].
  destruct r as [acc'|e].
  - split; [|done]. split_and!; [|done|by apply Forall_app].
    apply Forall_forall. intros h Hin ->. apply list_elem_of_In in Hin.
    assert (H : existsb (fun h => bool_decide (h = [])) headers = true) by (apply existsb_exists; by exists []). congruence.
  - intros [_ [recs H]]. by apply (Hr recs).
Qed.
End reading.

(** ** Tables of CSV inputs *)

Lemma last_filter {A} (P : A -> Prop) `{!forall x, Decision (P x)} (l : list A) x :
  last (filter P l) = Some x <-> exists before after, l = before ++ x :: after /\ P x /\ forall y, y ∈ after -> ~ P y.
Proof.
  induction l as [|y l IH] using rev_ind; [split; [done|by intros ([] & ? & ? & _)]|].
  rewrite filter_app, filter_cons, filter_nil. destruct (decide (P y)) as [Hy|Hy].
  - rewrite last_snoc. split.
    + intros [= <-]. exists l, []. split_and!; [done|done|]. intros z Hz. by apply elem_of_nil in Hz.
    + intros (before & after & E & Hx & Ha). destruct after as [|z after _] using rev_ind.
      * by apply app_inj_2 in E as [_ [= ->]].
      * rewrite app_comm_cons, app_assoc in E. apply app_inj_2 in E as [_ [= ->]]; [|done].
        exfalso. apply (Ha z); [|done]. apply elem_of_app. right. by left.
  - rewrite app_nil_r, IH. split.
    + intros (before & after & -> & Hx & Ha). exists before, (after ++ [y]). split_and!; [by rewrite <- app_assoc|done|].
      intros z [Hz| ->%list_elem_of_singleton]%elem_of_app; [by apply Ha|done].
    + intros (before & after & E & Hx & Ha). destruct after as [|z after _] using rev_ind.
      * apply app_inj_2 in E as [_ [= ->]]; [|done]. done.
      * rewrite app_comm_cons, app_assoc in E. apply app_inj_2 in E as [-> [= ->]]; [|done].
        exists before, after. split_and!; [done|done|]. intros w Hw. apply Ha. apply elem_of_app. by left.
Qed.

(** A map filled in turn has the last value of each key. *)
Lemma filled_lookup {A K V} `{Countable K} (key_of : A -> option K) (f : A -> V) (l : list A) k :
  foldl (fun (m : gmap K V) a => match key_of a with Some k => <[k := f a]> m | None => m end) ∅ l !! k
    = f <$> last (filter (fun a => key_of a = Some k) l).
Proof.
  induction l as [|a l IH] using rev_ind; [cbn; by rewrite lookup_empty|].
  rewrite foldl_snoc, filter_app, filter_cons, filter_nil. destruct (key_of a) as [k'|] eqn:Ea.
  - destruct (decide (k' = k)) as [->|Hk].
    + rewrite decide_True by done. by rewrite lookup_insert_eq, last_snoc.
    + rewrite decide_False by congruence. by rewrite lookup_insert_ne, app_nil_r.
  - by rewrite decide_False, app_nil_r by congruence.
Qed.

Lemma trunc_ok w net : net_ok w net -> net_ok w (trunc w net) /\ trunc w (trunc w net) = trunc w net.
Proof.
  intros [Ha Hl]. unfold trunc, net_ok. cbn [net_addr net_len]. split.
  - split; [|done]. unfold fits_u in *. rewrite Z.shiftr_div_pow2, Z.shiftl_mul_pow2 by lia.
    pose proof (Z.pow_pos_nonneg 2 (w - net_len net)) as Hp.
    pose proof (Z.mul_div_le (net_addr net) (2 ^ (w - net_len net))).
    pose proof (Z.div_pos (net_addr net) (2 ^ (w - net_len net))). nia.
  - f_equal. rewrite Z.shiftr_shiftl_l, Z.sub_diag, Z.shiftl_0_r by lia. done.
Qed.

Lemma covers_trunc w net addr : net_ok w net -> covers w (trunc w net) addr <-> covers w net addr.
Proof.
  intros [_ Hl]. unfold covers, trunc. cbn [net_addr net_len]. by rewrite Z.shiftr_shiftl_l, Z.sub_diag, Z.shiftl_0_r by lia.
Qed.

(** Prefixes of an address are told apart by their lengths. *)
Lemma covers_inj w n1 n2 addr : covers w n1 addr -> covers w n2 addr -> n1.(net_len) = n2.(net_len) -> trunc w n1 = trunc w n2.
Proof. unfold covers, trunc. intros H1 H2 Hl. rewrite Hl in *. f_equal. congruence. Qed.

Definition net_covers (net : IpNet) (ip : IpAddr) : Prop :=
  match net, ip with
  | NetV4 net, V4 a => covers 32 net a
  | NetV6 net, V6 a => covers 128 net a
  | _, _ => False
  end.

Definition prefix_len (net : IpNet) : Z := match net with NetV4 net | NetV6 net => net.(net_len) end.

Definition ip_fits (ip : IpAddr) : Prop := match ip with V4 a => fits_u 32 a | V6 a => fits_u 128 a end.

(** A CSV input loads when its columns are there, and every record has all its
    keys and they read. *)
Definition loads {K} (key_of : list bytes -> option K) (headers key_columns columns : list bytes)
    (records : list (option (list bytes))) (recs : list (list bytes)) : Prop :=
  headers_ok headers key_columns columns /\ records = Some <$> recs /\
  Forall (fun rec => Forall (fun c => field headers rec c <> []) key_columns /\ is_Some (key_of rec)) recs.

Lemma loads_input {K} (parse_keys : list bytes -> option K) headers key_columns columns records recs :
  loads (fun rec => parse_keys (keys_of headers key_columns rec)) headers key_columns columns records recs <->
  headers_ok headers key_columns columns /\ input_ok parse_keys headers key_columns records recs.
Proof.
  unfold loads, input_ok. assert (H : forall rec, record_ok parse_keys headers key_columns rec <->
    Forall (fun c => field headers rec c <> []) key_columns /\ is_Some (parse_keys (keys_of headers key_columns rec)))
    by (intros rec; unfold record_ok, keys_of; by rewrite Forall_fmap).
  split; (intros (H1 & H2 & H3); split_and!; [done|done|]; eapply Forall_impl; [exact H3|]; intros rec; apply H).
Qed.

Section tables.
Context `{PT : PrefixTrie} `{IT : IpnetText}.

(** The key of a record of an exact table. *)
Definition exact_key (headers key_columns : list bytes) (types : list KeyType) (rec : list bytes) : option (list Key) :=
  mapM (fun '(key, key_type) => parse_key key_type key) (zip (field headers rec <$> key_columns) types).

Lemma exact_fold (key_of : list bytes -> option (list Key)) (row : list bytes -> Row) recs key :
  foldl (fun t rec => match key_of rec with Some k => exact_insert t k (row rec) | None => t end) ∅ recs !! key
    = row <$> last (filter (fun rec => key_of rec = Some key) recs).
Proof. exact (filled_lookup key_of row recs key). Qed.

(** A table of a CSV input holds all of its records or fails to load, and
    answers a key with the row of the last record that has it. *)
Theorem csv_exact_spec raw records key_columns types columns :
  let headers := trim <$> raw in
  let key_of := exact_key headers key_columns types in
  exists r, csv_open (mkCsvInput (Some raw) records) key_columns (CsvExact types) columns = Some r /\
    match r with
    | inl table => exists recs, loads key_of headers key_columns columns records recs /\
        forall key, table.(source_lookup) key = row_of headers columns <$> last (filter (fun rec => key_of rec = Some key) recs)
    | inr _ => forall recs, ~ loads key_of headers key_columns columns records recs
    end.
Proof.
  intros headers key_of. set (parse_keys := fun ks => mapM (fun '(key, key_type) => parse_key key_type key) (zip ks types)).
  destruct (read_spec parse_keys exact_insert (emit_exact types) headers key_columns columns ltac:(done) raw records ∅ eq_refl)
    as (r & E & Hr).
  unfold csv_open. rewrite E. cbn [mbind option_bind]. eexists. split; [done|].
  destruct r as [table|e].
  - destruct Hr as (Hh & recs & Hi & ->). exists recs. split; [by apply (loads_input parse_keys)|].
    intros key. cbn [exact_source source_lookup]. apply (exact_fold key_of).
  - intros recs Hl. apply Hr. apply (loads_input parse_keys) in Hl as [Hh Hi]. eauto.
Qed.

(** The net of a record of a prefix table. *)
Definition record_net (headers : list bytes) (key_column : bytes) (rec : list bytes) : option IpNet :=
  parse_prefix (field headers rec key_column).

Definition own4 (net : option IpNet) : option Net := match net with Some (NetV4 net) => Some (trunc 32 net) | _ => None end.
Definition own6 (net : option IpNet) : option Net := match net with Some (NetV6 net) => Some (trunc 128 net) | _ => None end.

Definition prefix_fold (key_of : list bytes -> option IpNet) (row : list bytes -> Row) (recs : list (list bytes)) : PrefixTable :=
  foldl (fun t rec => match key_of rec with Some net => prefix_insert t net (row rec) | None => t end) prefix_default recs.

Lemma prefix_entries (key_of : list bytes -> option IpNet) (row : list bytes -> Row) recs net :
  (forall rec net, key_of rec = Some net -> match net with NetV4 net => net_ok 32 net | NetV6 net => net_ok 128 net end) ->
  pm_entries 32 (prefix_fold key_of row recs).(ipv4) !! net = row <$> last (filter (fun rec => own4 (key_of rec) = Some net) recs) /\
  pm_entries 128 (prefix_fold key_of row recs).(ipv6) !! net = row <$> last (filter (fun rec => own6 (key_of rec) = Some net) recs).
Proof.
  intros Hok. rewrite <- (filled_lookup (fun rec => own4 (key_of rec)) row), <- (filled_lookup (fun rec => own6 (key_of rec)) row).
  enough (H : pm_entries 32 (prefix_fold key_of row recs).(ipv4) =
      foldl (fun m rec => match own4 (key_of rec) with Some k => <[k := row rec]> m | None => m end) ∅ recs /\
    pm_entries 128 (prefix_fold key_of row recs).(ipv6) =
      foldl (fun m rec => match own6 (key_of rec) with Some k => <[k := row rec]> m | None => m end) ∅ recs)
    by (destruct H as [-> ->]; done).
  unfold prefix_fold. induction recs as [|rec recs [IH4 IH6]] using rev_ind; [by split; apply pm_default_law|].
  rewrite !foldl_snoc, <- IH4, <- IH6. destruct (key_of rec) as [[n|n]|] eqn:Ek; [| |done]; specialize (Hok _ _ Ek);
    destruct (trunc_ok _ _ Hok) as [Ht1 Ht2]; cbn [own4 own6 prefix_insert ipv4 ipv6]; by rewrite pm_insert_law.
Qed.

(** Entries of a family: the last row of each net. *)
Definition holds (w : Z) (m : PrefixMap w) (own : list bytes -> option Net) (row : list bytes -> Row) (recs : list (list bytes)) : Prop :=
  forall net, pm_entries w m !! net = row <$> last (filter (fun rec => own rec = Some net) recs).

Lemma longest_prefix w m own row recs addr :
  (w = 32 \/ w = 128) -> fits_u w addr -> holds w m own row recs ->
  (forall rec net, own rec = Some net -> net_ok w net /\ trunc w net = net) ->
  match snd <$> get_lpm w m addr with
  | Some row' => exists before rec after net, recs = before ++ rec :: after /\ own rec = Some net /\ row' = row rec /\
      covers w net addr /\
      (forall rec' net', rec' ∈ recs -> own rec' = Some net' -> covers w net' addr -> net'.(net_len) <= net.(net_len)) /\
      (forall rec' net', rec' ∈ after -> own rec' = Some net' -> covers w net' addr -> net'.(net_len) < net.(net_len))
  | None => forall rec net, rec ∈ recs -> own rec = Some net -> ~ covers w net addr
  end.
Proof.
  intros Hw Ha Hm Hown.
  assert (Hentry : forall rec net, rec ∈ recs -> own rec = Some net -> exists row', pm_entries w m !! net = Some row').
  { intros rec net Hin Ho. rewrite Hm. destruct (last _) eqn:E; [by eexists|]. apply last_None in E.
    assert (H : rec ∈ filter (fun rec => own rec = Some net) recs) by by apply list_elem_of_filter.
    rewrite E in H. by apply elem_of_nil in H. }
  assert (Hok : forall net row', pm_entries w m !! net = Some row' -> net_ok w net).
  { intros net row' E. rewrite Hm in E. apply fmap_Some in E as (rec & E & _).
    apply last_filter in E as (? & ? & _ & Ho & _). by apply (Hown rec). }
  pose proof (get_lpm_law w m addr Hw Ha Hok) as H. destruct (get_lpm w m addr) as [[net row']|] eqn:E; cbn.
  - destruct H as (Hc & Hmax). apply get_lpm_entry in E. rewrite Hm in E. apply fmap_Some in E as (rec & E & ->).
    apply last_filter in E as (before & after & -> & Ho & Hafter). exists before, rec, after, net.
    assert (Hle : forall rec' net', rec' ∈ before ++ rec :: after -> own rec' = Some net' -> covers w net' addr -> net'.(net_len) <= net.(net_len)).
    { intros rec' net' Hin Ho' Hc'. destruct (Hentry rec' net' Hin Ho') as [row' E']. by eapply Hmax. }
    split_and!; [done|done|done|done|done|]. intros rec' net' Hin Ho' Hc'.
    assert (Hl : net'.(net_len) <= net.(net_len)) by (apply (Hle rec'); [|done|done]; apply elem_of_app; right; by right).
    enough (net'.(net_len) <> net.(net_len)) by lia. intros El. apply (Hafter rec' Hin). rewrite Ho'. f_equal.
    pose proof (covers_inj w _ _ _ Hc' Hc El) as Et. destruct (Hown _ _ Ho') as [_ E1]. destruct (Hown _ _ Ho) as [_ E2]. congruence.
  - intros rec net Hin Ho Hc. destruct (Hentry rec net Hin Ho) as [row' E']. by apply (H net row').
Qed.

(** The same of the nets as given, where the family is all that covers the
    address. *)
Lemma family_prefix w m (net_of : list bytes -> option IpNet) (family : Net -> IpNet) row recs addr ip :
  (w = 32 \/ w = 128) -> fits_u w addr ->
  (forall net, net_covers net ip <-> exists n, net = family n /\ covers w n addr) ->
  (forall n, prefix_len (family n) = n.(net_len)) ->
  (forall rec n, net_of rec = Some (family n) -> net_ok w n) ->
  forall own, holds w m own row recs ->
  (forall rec n, own rec = Some n <-> exists n', net_of rec = Some (family n') /\ n = trunc w n') ->
  match snd <$> get_lpm w m addr with
  | Some row' => exists before rec after net, recs = before ++ rec :: after /\ net_of rec = Some net /\
      row' = row rec /\ net_covers net ip /\
      (forall rec' net', rec' ∈ recs -> net_of rec' = Some net' -> net_covers net' ip -> prefix_len net' <= prefix_len net) /\
      (forall rec' net', rec' ∈ after -> net_of rec' = Some net' -> net_covers net' ip -> prefix_len net' < prefix_len net)
  | None => forall rec net, rec ∈ recs -> net_of rec = Some net -> ~ net_covers net ip
  end.
Proof.
  intros Hw Ha Hcov Hlen Hok own Hm Hown. pose proof (longest_prefix w m own row recs addr Hw Ha Hm) as H.
  lapply H; clear H; [intros H|].
  2: { intros rec n (n' & Hn & ->)%Hown. apply trunc_ok. by eapply Hok. }
  assert (Hc : forall rec n, net_of rec = Some (family n) -> covers w n addr -> own rec = Some (trunc w n) /\ covers w (trunc w n) addr).
  { intros rec n Hn Hc. split; [apply Hown; eauto|]. apply covers_trunc; [by eapply Hok|done]. }
  destruct (snd <$> get_lpm w m addr) as [row'|].
  - destruct H as (before & rec & after & n & -> & Ho & -> & Hcn & H1 & H2). apply Hown in Ho as (n' & Hn & ->).
    exists before, rec, after, (family n'). split_and!; [done|done|done| | |].
    + apply Hcov. exists n'. split; [done|]. apply (covers_trunc w); [by eapply Hok|done].
    + intros rec' net' Hin Hn' (m' & -> & Hm')%Hcov. rewrite !Hlen. destruct (Hc _ _ Hn' Hm') as [Ho' Hc']. exact (H1 rec' _ Hin Ho' Hc').
    + intros rec' net' Hin Hn' (m' & -> & Hm')%Hcov. rewrite !Hlen. destruct (Hc _ _ Hn' Hm') as [Ho' Hc']. exact (H2 rec' _ Hin Ho' Hc').
  - intros rec net Hin Hn (n & -> & Hcn)%Hcov. destruct (Hc _ _ Hn Hcn) as [Ho' Hc']. by apply (H rec _ Hin Ho').
Qed.

(** A prefix table of a CSV input answers an address with the row of the last
    record of the longest prefix that covers it, and no other key. *)
Theorem csv_prefix_spec raw records key_column key_columns columns :
  let headers := trim <$> raw in
  let net_of := record_net headers key_column in
  exists r, csv_open (mkCsvInput (Some raw) records) (key_column :: key_columns) CsvPrefix columns = Some r /\
    match r with
    | inl table => exists recs, loads net_of headers (key_column :: key_columns) columns records recs /\
        (forall key, (forall ip, key <> [KeyIp ip]) -> table.(source_lookup) key = None) /\
        forall ip, ip_fits ip ->
        match table.(source_lookup) [KeyIp ip] with
        | Some row => exists before rec after net, recs = before ++ rec :: after /\ net_of rec = Some net /\
            row = row_of headers columns rec /\ net_covers net ip /\
            (forall rec' net', rec' ∈ recs -> net_of rec' = Some net' -> net_covers net' ip -> prefix_len net' <= prefix_len net) /\
            (forall rec' net', rec' ∈ after -> net_of rec' = Some net' -> net_covers net' ip -> prefix_len net' < prefix_len net)
        | None => forall rec net, rec ∈ recs -> net_of rec = Some net -> ~ net_covers net ip
        end
    | inr _ => forall recs, ~ loads net_of headers (key_column :: key_columns) columns records recs
    end.
Proof.
  intros headers net_of. set (parse_keys := fun ks : list bytes => key ← ks !! 0%nat; parse_prefix key).
  destruct (read_spec parse_keys prefix_insert emit_prefix headers (key_column :: key_columns) columns) with (raw := raw) (records := records) (acc := prefix_default)
    as (r & E & Hr); [by intros acc [|k ks] row|done|].
  unfold csv_open. rewrite E. cbn [mbind option_bind]. eexists. split; [done|].
  destruct r as [table|e].
  2: { intros recs Hl. apply Hr. apply (loads_input parse_keys) in Hl as [Hh Hi]. eauto. }
  destruct Hr as (Hh & recs & Hi & ->). exists recs. split; [by apply (loads_input parse_keys)|].
  change (foldl _ _ recs) with (prefix_fold net_of (row_of headers columns) recs).
  assert (Hnet : forall rec net, net_of rec = Some net -> match net with NetV4 net => net_ok 32 net | NetV6 net => net_ok 128 net end)
    by (intros rec net Hn; by eapply parse_prefix_law).
  pose proof (fun net => prefix_entries net_of (row_of headers columns) recs net Hnet) as He. cbn [prefix_source source_lookup].
  set (t := prefix_fold net_of (row_of headers columns) recs) in *. split.
  { intros [|[[a|a]|n] [|k key]] Hkey; try done; [by destruct (Hkey (V4 a))|by destruct (Hkey (V6 a))]. }
  intros [a|a] Hfit; cbn [prefix_lookup ip_fits] in *.
  - apply (family_prefix 32 t.(ipv4) net_of NetV4) with (addr := a) (own := fun rec => own4 (net_of rec));
      [by left|done| |done|by intros rec n Hn%Hnet|by intros net; apply He|].
    + intros [n|n]; cbn; split; [by exists n|by intros (? & [= <-] & ?)|done|by intros (? & ? & _)].
    + intros rec n. destruct (net_of rec) as [[n'|n']|]; cbn; split; 
        [intros [= <-]; by exists n'|intros (? & [= <-] & ->); done|done|by intros (? & ? & _)|done|by intros (? & ? & _)].
  - apply (family_prefix 128 t.(ipv6) net_of NetV6) with (addr := a) (own := fun rec => own6 (net_of rec));
      [by right|done| |done|by intros rec n Hn%Hnet|by intros net; apply He|].
    + intros [n|n]; cbn; split; [done|by intros (? & ? & _)|by exists n|by intros (? & [= <-] & ?)].
    + intros rec n. destruct (net_of rec) as [[n'|n']|]; cbn; split;
        [done|by intros (? & ? & _)|intros [= <-]; by exists n'|intros (? & [= <-] & ->); done|done|by intros (? & ? & _)].
Qed.

(** Rows of a table have the columns asked for. *)
Definition source_wf (columns : list bytes) (s : Source) : Prop :=
  forall key row, s.(source_lookup) key = Some row -> row.(row_schema) = columns /\ length row.(values) = length columns.

Lemma row_of_wf headers columns rec : (row_of headers columns rec).(row_schema) = columns /\
  length (row_of headers columns rec).(values) = length columns.
Proof. split; [done|]. cbn. by rewrite length_fmap. Qed.

(** A prefix table of records. *)
Lemma prefix_fold_wf headers key_column columns recs :
  source_wf columns (prefix_source (prefix_fold (record_net headers key_column) (row_of headers columns) recs)).
Proof.
  pose proof (fun net => prefix_entries (record_net headers key_column) (row_of headers columns) recs net
    ltac:(intros rec n Hn; by eapply parse_prefix_law)) as He.
  set (t := prefix_fold _ _ _) in *. intros key row. cbn [prefix_source source_lookup]. intros El.
  assert (Hin : exists rec, row = row_of headers columns rec); [|destruct Hin as [rec ->]; apply row_of_wf].
  destruct key as [|[[a|a]|n] [|]]; try done; cbn in El; apply fmap_Some in El as ([net row'] & El & ->);
    apply get_lpm_entry in El; destruct (He net) as [H4 H6]; [rewrite H4 in El|rewrite H6 in El];
    apply fmap_Some in El as (rec & _ & ->); by exists rec.
Qed.

(** Opening a CSV input does not panic, and the rows of its table are those of
    records. *)
Lemma csv_open_wf input key_columns lookup columns : key_columns <> [] ->
  exists r, csv_open input key_columns lookup columns = Some r /\ forall s, r = inl s -> source_wf columns s.
Proof.
  intros Hk. destruct input as [[raw|] records]; [|destruct lookup; eexists; (split; [done|by intros s [=]])].
  destruct key_columns as [|key_column key_columns]; [done|]. unfold csv_open. destruct lookup as [|types].
  - set (parse_keys := fun ks : list bytes => key ← ks !! 0%nat; parse_prefix key).
    destruct (read_spec parse_keys prefix_insert emit_prefix (trim <$> raw) (key_column :: key_columns) columns)
      with (raw := raw) (records := records) (acc := prefix_default) as (r & E & Hr); [by intros acc [|k ks] row|done|].
    rewrite E. cbn [mbind option_bind]. eexists. split; [done|]. destruct r as [table|e]; [|by intros s [=]].
    destruct Hr as (_ & recs & _ & ->). intros s [= <-]. apply (prefix_fold_wf (trim <$> raw) key_column columns recs).
  - set (parse_keys := fun ks => mapM (fun '(key, key_type) => parse_key key_type key) (zip ks types)).
    destruct (read_spec parse_keys exact_insert (emit_exact types) (trim <$> raw) (key_column :: key_columns) columns ltac:(done) raw records ∅ eq_refl)
      as (r & E & Hr). rewrite E. cbn [mbind option_bind]. eexists. split; [done|]. destruct r as [table|e]; [|by intros s [=]].
    destruct Hr as (_ & recs & _ & ->). intros s [= <-] key row. cbn [exact_source source_lookup].
    change (foldl _ _ recs) with (foldl (fun t rec => match exact_key (trim <$> raw) (key_column :: key_columns) types rec with
      | Some k => exact_insert t k (row_of (trim <$> raw) columns rec) | None => t end) ∅ recs).
    rewrite exact_fold. intros (rec & _ & ->)%fmap_Some. apply row_of_wf.
Qed.

Lemma mmdb_open_wf opened columns s : mmdb_open opened columns = inl s -> source_wf columns s.
Proof.
  unfold mmdb_open. destruct opened as [reader|e]; [|done]. destruct (mm_networks reader) as [n|e]; [|done]. intros [= <-] key row.
  cbn [source_lookup]. unfold mmdb_lookup. destruct key as [|[ip|n'] [|]]; try done. destruct (mm_has_data reader ip); [|done].
  destruct (forallb _ _); [done|]. unfold schema_row. case_bool_decide; [|done]. by intros [= <-].
Qed.
End tables.
