(* ===== verification/EnrichEngineFacts.v ===== *)
(** Enriching a flow: every output field has the last value the tables have
    for it, and nothing panics. *)

From Stdlib Require Import ZArith Lia Strings.Byte.
From stdpp Require Import base tactics numbers list gmap.
From S2P Require Import Prelude Std Text Crates Calendar CommonFlow Layout Storage Destination EnrichTables EnrichConfig EnrichEngine EnrichFacts.
#[local] Open Scope Z_scope.

Section facts.
Context `{CR : Crates}.

(** ** What a flow is enriched with *)

Definition key_names (m : FieldMapping) : list bytes := lk_name <$> m.(keys).

(** The key lists of mappings, each where it is first given. *)
Definition firsts (ms : list FieldMapping) : list (list bytes) :=
  foldl (fun acc m => if bool_decide (key_names m ∈ acc) then acc else acc ++ [key_names m]) [] ms.

(** Mappings with the same keys come together. *)
Definition by_group (ms : list FieldMapping) : list FieldMapping :=
  concat ((fun ks => filter (fun m => key_names m = ks) ms) <$> firsts ms).

(** What a table has for a flow under a mapping. *)
Definition value_of (s : Source) (flow : CommonFlow) (m : FieldMapping) : option bytes :=
  key ← mapM (fun k => k.(lk_extract) flow) m.(keys);
  row ← s.(source_lookup) key;
  i ← position m.(source_column) row.(row_schema);
  mjoin (row.(values) !! i).

Definition contributions (flow : CommonFlow) (loaded : list (EnrichmentConfig * Source)) : list (bytes * bytes) :=
  concat ((fun '(c, s) => omap (fun m => (fun v => (m.(output_field), v)) <$> value_of s flow m) (by_group c.(mappings))) <$> loaded).

Definition said_of {A} `{EqDecision A} (a : A) (cs : list (A * bytes)) : option bytes :=
  last (omap (fun '(b, v) => if decide (b = a) then Some v else None) cs).

(** The last value for an output field. *)
Definition enriched (flow : CommonFlow) (loaded : list (EnrichmentConfig * Source)) (name : bytes) : option bytes :=
  said_of name (contributions flow loaded).

(** ** Keys *)

Lemma lookup_keys_nodup : NoDup (lk_name <$> LOOKUP_KEYS).
Proof. apply (bool_decide_unpack _). vm_compute. exact I. Qed.

Lemma lookup_keys_inj k k' : k ∈ LOOKUP_KEYS -> k' ∈ LOOKUP_KEYS -> k.(lk_name) = k'.(lk_name) -> k = k'.
Proof.
  intros [i Hi]%list_elem_of_lookup_1 [j Hj]%list_elem_of_lookup_1 E.
  assert (i = j) as ->; [|congruence].
  eapply (NoDup_lookup _ i j k.(lk_name) lookup_keys_nodup); rewrite list_lookup_fmap; [by rewrite Hi|rewrite Hj; cbn; congruence].
Qed.

Lemma key_lists_inj ks : forall ks', ks ⊆ LOOKUP_KEYS -> ks' ⊆ LOOKUP_KEYS -> lk_name <$> ks = lk_name <$> ks' -> ks = ks'.
Proof.
  induction ks as [|k ks IH]; intros [|k' ks'] H H' E; try done. cbn in E. injection E as E1 E2. f_equal.
  - apply lookup_keys_inj; [by apply H; left|by apply H'; left|done].
  - apply IH; [intros x Hx; apply H; by right|intros x Hx; apply H'; by right|done].
Qed.

Lemma extract_all_spec ks flow : forall got, (length got + length ks <= Z.to_nat MAX_KEYS)%nat ->
  extract_all ks flow got = Some ((fun more => got ++ more) <$> mapM (fun k => k.(lk_extract) flow) ks).
Proof.
  induction ks as [|k ks IH]; intros got Hl; cbn [extract_all mapM]; [by cbn; rewrite app_nil_r|].
  destruct (lk_extract k flow) as [key|]; cbn [mbind option_bind]; [|done]. cbn [length] in Hl.
  unfold zlen, MAX_KEYS in *. destruct (Z.ltb_spec (Z.of_nat (length got)) 4); [|lia].
  rewrite IH by (rewrite length_app; cbn; lia). destruct (mapM _ ks); cbn; [|done]. by rewrite <- app_assoc.
Qed.

(** ** Values in place *)

Definition place (out : list (option bytes)) (cs : list (nat * bytes)) : list (option bytes) :=
  foldl (fun out '(i, v) => <[i := Some v]> out) out cs.

Lemma length_place cs : forall out, length (place out cs) = length out.
Proof.
  induction cs as [|[i v] cs IH]; intros out; [done|]. unfold place in *. cbn [foldl]. by rewrite IH, length_insert.
Qed.

Lemma place_app out cs cs' : place out (cs ++ cs') = place (place out cs) cs'.
Proof. apply foldl_app. Qed.

Lemma place_lookup out cs i : (i < length out)%nat ->
  place out cs !! i = match said_of i cs with Some v => Some (Some v) | None => out !! i end.
Proof.
  intros Hi. induction cs as [|[j v] cs IH] using rev_ind; [done|].
  rewrite place_app. cbn [place foldl]. unfold said_of in *. rewrite omap_app. cbn. destruct (decide (j = i)) as [->|Hj].
  - rewrite last_snoc. apply list_lookup_insert_eq. by rewrite length_place.
  - rewrite app_nil_r, list_lookup_insert_ne by done. apply IH.
Qed.

Definition row_values (row : Row) (fields : list (nat * nat)) : list (nat * bytes) :=
  omap (fun '(column, output) => (fun v => (output, v)) <$> mjoin (row.(values) !! column)) fields.

Lemma enrich_fields_spec row fields : forall out,
  Forall (fun '(column, output) => (column < length row.(values))%nat /\ (output < length out)%nat) fields ->
  enrich_fields row out fields = Some (place out (row_values row fields)).
Proof.
  induction fields as [|[column output] fields IH]; intros out Hf; [done|]. apply Forall_cons in Hf as [[Hc Ho] Hf].
  cbn [enrich_fields]. destruct (lookup_lt_is_Some_2 _ _ Hc) as [v Ev]. rewrite Ev. cbn [mbind option_bind]. unfold row_values. cbn [omap list_omap].
  rewrite Ev. cbn [mjoin option_join]. destruct v as [v|]; cbn [fmap option_fmap option_map mbind option_bind].
  - unfold set_output. destruct (Nat.ltb_spec output (length out)); [|lia]. cbn [mbind option_bind].
    rewrite IH by (eapply Forall_impl; [exact Hf|]; intros [c o] ?; by rewrite length_insert). done.
  - by apply IH.
Qed.

Definition group_values (s : Source) (flow : CommonFlow) (g : Group) : list (nat * bytes) :=
  match mapM (fun k => k.(lk_extract) flow) g.(g_keys) ≫= s.(source_lookup) with
  | Some row => row_values row g.(g_fields)
  | None => []
  end.

Definition group_wf (columns : list bytes) (outputs : nat) (g : Group) : Prop :=
  (length g.(g_keys) <= Z.to_nat MAX_KEYS)%nat /\
  Forall (fun '(column, output) => (column < length columns)%nat /\ (output < outputs)%nat) g.(g_fields).

Lemma enrich_groups_spec columns s flow gs : forall out, source_wf columns s -> Forall (group_wf columns (length out)) gs ->
  enrich_groups s flow out gs = Some (place out (concat (group_values s flow <$> gs))).
Proof.
  induction gs as [|g gs IH]; intros out Hs Hg; [done|]. apply Forall_cons in Hg as [[Hk Hf] Hg].
  cbn [enrich_groups fmap list_fmap concat]. rewrite extract_all_spec by done. rewrite place_app. cbn [mbind option_bind].
  assert (Em : forall o : option (list Key), (fun more => [] ++ more) <$> o = o) by by intros [].
  rewrite Em. unfold group_values at 1. destruct (mapM _ g.(g_keys) ≫= s.(source_lookup)) as [row|] eqn:El; cbn [mbind option_bind].
  - assert (Hl : length row.(values) = length columns)
      by (apply bind_Some in El as (key & _ & El); by apply Hs in El as [_ El]).
    rewrite enrich_fields_spec by (by rewrite Hl). cbn [mbind option_bind]. apply IH; [done|]. by rewrite length_place.
  - by apply IH.
Qed.

Definition lookup_values (flow : CommonFlow) (l : Lookup) : list (nat * bytes) :=
  concat (group_values l.(table).(t_source) flow <$> l.(groups)).

Lemma enrich_lookups_spec flow ls : forall out,
  Forall (fun l => exists columns, source_wf columns l.(table).(t_source) /\ Forall (group_wf columns (length out)) l.(groups)) ls ->
  enrich_lookups flow out ls = Some (place out (concat (lookup_values flow <$> ls))).
Proof.
  induction ls as [|l ls IH]; intros out Hl; [done|]. apply Forall_cons in Hl as [(columns & Hs & Hg) Hl].
  cbn [enrich_lookups fmap list_fmap concat]. rewrite (enrich_groups_spec columns) by done. rewrite place_app. cbn [mbind option_bind].
  apply IH. by rewrite length_place.
Qed.

(** ** Groups *)

(** A group and the mappings it stands for. *)
Definition group_for (columns outs : list bytes) (ms : list FieldMapping) (ks : list bytes) (g : Group) : Prop :=
  lk_name <$> g.(g_keys) = ks /\ g.(g_keys) ⊆ LOOKUP_KEYS /\ (length g.(g_keys) <= Z.to_nat MAX_KEYS)%nat /\
  Forall2 (fun m '(column, output) => columns !! column = Some m.(source_column) /\ outs !! output = Some m.(output_field))
    (filter (fun m => key_names m = ks) ms) g.(g_fields).

Definition groups_for (columns outs : list bytes) (ms : list FieldMapping) (gs : list Group) : Prop :=
  Forall2 (group_for columns outs ms) (firsts ms) gs.

Lemma firsts_snoc ms m : firsts (ms ++ [m]) = if bool_decide (key_names m ∈ firsts ms) then firsts ms else firsts ms ++ [key_names m].
Proof. unfold firsts. by rewrite foldl_snoc. Qed.

Lemma firsts_spec ms : NoDup (firsts ms) /\ forall m, m ∈ ms -> key_names m ∈ firsts ms.
Proof.
  induction ms as [|m ms [IH1 IH2]] using rev_ind; [split; [constructor|]; intros m H; by apply elem_of_nil in H|].
  rewrite firsts_snoc. destruct (bool_decide_reflect (key_names m ∈ firsts ms)) as [Hm|Hm].
  - split; [done|]. intros m' [H| ->%list_elem_of_singleton]%elem_of_app; [by apply IH2|done].
  - split.
    + apply NoDup_app. split_and!; [done| |by apply NoDup_singleton]. intros c Hc H. apply list_elem_of_singleton in H as ->. done.
    + intros m' [H| ->%list_elem_of_singleton]%elem_of_app; apply elem_of_app; [left; by apply IH2|right; by left].
Qed.

Lemma unseen_keys ms ks : ks ∉ firsts ms -> filter (fun m => key_names m = ks) ms = [].
Proof.
  intros H. destruct (filter _ ms) as [|m l] eqn:E; [done|]. exfalso.
  assert (Hm : m ∈ filter (fun m => key_names m = ks) ms) by (rewrite E; by left).
  apply list_elem_of_filter in Hm as [<- Hm]. apply H. by apply firsts_spec.
Qed.

Lemma group_for_grown columns outs outs' ms m ks g :
  outs `prefix_of` outs' -> key_names m <> ks -> group_for columns outs ms ks g -> group_for columns outs' (ms ++ [m]) ks g.
Proof.
  intros Ho Hk (H1 & H2 & H3 & H4). split_and!; [done|done|done|]. rewrite filter_app, filter_cons, filter_nil.
  rewrite decide_False, app_nil_r by done. eapply Forall2_impl; [exact H4|]. intros m' [c o] [Hc Hl]. split; [done|].
  by eapply prefix_lookup_Some.
Qed.

Lemma group_for_pushed columns outs outs' ms m g field :
  outs `prefix_of` outs' -> columns !! field.1 = Some m.(source_column) -> outs' !! field.2 = Some m.(output_field) ->
  group_for columns outs ms (key_names m) g ->
  group_for columns outs' (ms ++ [m]) (key_names m) (mkGroup g.(g_keys) (g.(g_fields) ++ [field])).
Proof.
  intros Ho Hc Hf (H1 & H2 & H3 & H4). split_and!; [done|done|done|]. rewrite filter_app, filter_cons, filter_nil.
  rewrite decide_True by done. cbn [g_fields]. apply Forall2_app; [|by constructor; [destruct field|]].
  eapply Forall2_impl; [exact H4|]. intros m' [c o] [Hc' Hl]. split; [done|]. by eapply prefix_lookup_Some.
Qed.

Lemma push_field_spec columns outs outs' ms m field : mapping_ok m ->
  outs `prefix_of` outs' -> columns !! field.1 = Some m.(source_column) -> outs' !! field.2 = Some m.(output_field) ->
  forall l gs, NoDup l -> (key_names m ∉ l -> filter (fun m' => key_names m' = key_names m) ms = []) ->
  Forall2 (group_for columns outs ms) l gs ->
  Forall2 (group_for columns outs' (ms ++ [m])) (if bool_decide (key_names m ∈ l) then l else l ++ [key_names m])
    (push_field gs m.(keys) field).
Proof.
  intros ((_ & Hlen) & Hin & _) Ho Hc Hf l gs Hn Hnew H. induction H as [|ks g l gs Hg H IH].
  - rewrite bool_decide_false by apply not_elem_of_nil. cbn [push_field app]. constructor; [|constructor].
    apply (group_for_pushed columns outs outs' ms m (mkGroup m.(keys) []) field Ho Hc Hf). split_and!; [done|done|done|].
    rewrite Hnew by apply not_elem_of_nil. constructor.
  - apply NoDup_cons in Hn as [Hks Hn]. cbn [push_field]. unfold same_keys. pose proof Hg as (Hgk & _). rewrite Hgk. fold (key_names m).
    destruct (bool_decide_reflect (ks = key_names m)) as [->|Hk].
    + rewrite bool_decide_true by by left. constructor; [by eapply group_for_pushed|].
      apply Forall2_same_length_lookup. pose proof (Forall2_length _ _ _ H) as Hl. split; [done|]. intros i ks g' Hi Hi'.
      assert (Hks' : key_names m <> ks) by (intros <-; apply Hks; by eapply list_elem_of_lookup_2).
      eapply group_for_grown; [done|done|]. rewrite Forall2_lookup in H. specialize (H i). rewrite Hi, Hi' in H. by inversion H.
    + assert (Eb : bool_decide (key_names m ∈ ks :: l) = bool_decide (key_names m ∈ l)).
      { apply bool_decide_ext. split; [intros [E|E]%elem_of_cons; [by destruct Hk|done]|by right]. }
      rewrite Eb. assert (Hnew' : key_names m ∉ l -> filter (fun m' => key_names m' = key_names m) ms = []).
      { intros Hnl. apply Hnew. intros [E|E]%elem_of_cons; [by destruct Hk|done]. }
      specialize (IH Hn Hnew'). destruct (bool_decide (key_names m ∈ l)); (constructor; [eapply group_for_grown; [done|congruence|done]|done]).
Qed.

Definition add_output (outs : list bytes) (m : FieldMapping) : list bytes :=
  if bool_decide (m.(output_field) ∈ outs) then outs else outs ++ [m.(output_field)].

Lemma add_mapping_spec columns outs ms gs m : mapping_ok m -> m.(source_column) ∈ columns -> groups_for columns outs ms gs ->
  exists gs', add_mapping columns (outs, gs) m = Some (add_output outs m, gs') /\ groups_for columns (add_output outs m) (ms ++ [m]) gs'.
Proof.
  intros Hm Hc Hg. destruct (position_elem _ _ Hc) as [column Ec]. unfold add_mapping.
  assert (Ho : exists output, add_output outs m !! output = Some m.(output_field) /\
    match position m.(output_field) outs with Some index => (outs, index) | None => (outs ++ [m.(output_field)], length outs) end
      = (add_output outs m, output) /\ outs `prefix_of` add_output outs m).
  { unfold add_output. destruct (position (output_field m) outs) as [output|] eqn:Eo.
    - apply position_Some in Eo as [Eo _]. rewrite bool_decide_true by by eapply list_elem_of_lookup_2. by exists output.
    - apply position_None in Eo. rewrite bool_decide_false by done. exists (length outs).
      split_and!; [by rewrite lookup_app_r, Nat.sub_diag by lia|done|by eexists]. }
  destruct Ho as (output & Ho & -> & Hp). rewrite Ec. cbn [mbind option_bind]. eexists. split; [done|].
  unfold groups_for. rewrite firsts_snoc. apply (push_field_spec columns outs); [done|done|by apply position_Some in Ec as [Ec _]|done| | |done].
  - apply firsts_spec.
  - apply unseen_keys.
Qed.

Lemma add_mappings_spec columns more : forall outs ms gs, Forall mapping_ok more -> Forall (fun m => m.(source_column) ∈ columns) more ->
  groups_for columns outs ms gs ->
  exists gs', add_mappings columns (outs, gs) more = Some (foldl add_output outs more, gs') /\
    groups_for columns (foldl add_output outs more) (ms ++ more) gs'.
Proof.
  induction more as [|m more IH]; intros outs ms gs Hok Hc Hg; cbn [add_mappings foldl].
  - exists gs. by rewrite app_nil_r.
  - apply Forall_cons in Hok as [Hm Hok]. apply Forall_cons in Hc as [Hcm Hc].
    destruct (add_mapping_spec columns outs ms gs m Hm Hcm Hg) as (gs1 & -> & Hg1). cbn [mbind option_bind].
    destruct (IH _ _ _ Hok Hc Hg1) as (gs2 & -> & Hg2). exists gs2. by rewrite <- app_assoc in Hg2.
Qed.

Lemma add_outputs_spec ms : forall outs, NoDup outs ->
  NoDup (foldl add_output outs ms) /\ outs `prefix_of` foldl add_output outs ms /\
  forall f, f ∈ foldl add_output outs ms <-> f ∈ outs \/ f ∈ output_field <$> ms.
Proof.
  induction ms as [|m ms IH]; intros outs Hn; cbn [foldl].
  - split_and!; [done|done|]. intros f. split; [by left|]. intros [H|H]; [done|by apply elem_of_nil in H].
  - assert (Hn1 : NoDup (add_output outs m) /\ outs `prefix_of` add_output outs m /\
      forall f, f ∈ add_output outs m <-> f ∈ outs \/ f = m.(output_field)).
    { unfold add_output. destruct (bool_decide_reflect (m.(output_field) ∈ outs)) as [Hm|Hm].
      - split_and!; [done|done|]. intros f. split; [by left|]. by intros [H| ->].
      - split_and!; [|by eexists|].
        + apply NoDup_app. split_and!; [done| |by apply NoDup_singleton]. intros c Hc H. apply list_elem_of_singleton in H as ->. done.
        + intros f. by rewrite elem_of_app, list_elem_of_singleton. }
    destruct Hn1 as (Hn1 & Hp1 & He1). destruct (IH _ Hn1) as (H1 & H2 & H3).
    split_and!; [done|by etransitivity|]. intros f. rewrite H3, He1, fmap_cons, elem_of_cons. tauto.
Qed.

(** ** The engine *)

Definition lookup_for (outs : list bytes) (load : EnrichmentConfig * Source) (l : Lookup) : Prop :=
  l.(table).(t_source) = load.2 /\ groups_for load.1.(source).(columns) outs load.1.(mappings) l.(groups).

Definition engine_for (loaded : list (EnrichmentConfig * Source)) (engine : EnrichmentEngine) : Prop :=
  NoDup engine.(output_fields) /\
  (forall f, f ∈ engine.(output_fields) <-> exists load, load ∈ loaded /\ f ∈ output_field <$> load.1.(mappings)) /\
  Forall2 (lookup_for engine.(output_fields)) loaded engine.(lookups).

Lemma lookup_for_grown outs outs' load l : outs `prefix_of` outs' -> lookup_for outs load l -> lookup_for outs' load l.
Proof.
  intros Ho [H1 H2]. split; [done|]. eapply Forall2_impl; [exact H2|]. intros ks g (K1 & K2 & K3 & K4). split_and!; [done|done|done|].
  eapply Forall2_impl; [exact K4|]. intros m' [c o] [Hc Hl]. split; [done|]. by eapply prefix_lookup_Some.
Qed.

Lemma add_spec engine loaded config opened m now : config_ok config -> engine_for loaded engine ->
  exists engine' r, add engine config opened m now = Some (engine', r) /\
    match opened, r with
    | inl s, inl _ => engine_for (loaded ++ [(config, s)]) engine'
    | inr _, inr _ => True
    | _, _ => False
    end.
Proof.
  intros (_ & Hm & _ & Hcols) (Hn & Hf & Hl). unfold add.
  assert (Hc : Forall (fun m => m.(source_column) ∈ config.(source).(columns)) config.(mappings)).
  { apply Forall_forall. intros m' Hm'. apply Hcols. apply list_elem_of_fmap. by exists m'. }
  destruct (add_mappings_spec config.(source).(columns) config.(mappings) engine.(output_fields) [] [] Hm Hc ltac:(constructor))
    as (gs & -> & Hg). cbn [mbind option_bind].
  destruct (add_outputs_spec config.(mappings) engine.(output_fields) Hn) as (H1 & H2 & H3).
  destruct opened as [s|e]; cbn [Table_new]; (eexists _, _; split; [done|]); [|done].
  split_and!; cbn [output_fields lookups]; [done| |].
  - intros f. rewrite H3, Hf. split.
    + intros [(load & Hload & Hin)|Hin]; [exists load; split; [apply elem_of_app; by left|done]|].
      exists (config, s). split; [apply elem_of_app; right; by left|done].
    + intros (load & [Hload| ->%list_elem_of_singleton]%elem_of_app & Hin); [left; by exists load|by right].
  - apply Forall2_app; [|by constructor]. eapply Forall2_impl; [exact Hl|]. intros load l. by apply lookup_for_grown.
Qed.

Definition loads_as (c : EnrichmentConfig * EnrichResult Source * SourceMetrics * Z) (load : EnrichmentConfig * Source) : Prop :=
  c.1.1.1 = load.1 /\ c.1.1.2 = inl load.2.

Lemma load_spec configs : forall engine loaded, Forall (fun c => config_ok c.1.1.1) configs -> engine_for loaded engine ->
  exists r, load_enrichment engine configs = Some r /\
    forall engine', r = inl engine' -> exists more, Forall2 loads_as configs more /\ engine_for (loaded ++ more) engine'.
Proof.
  induction configs as [|[[[config opened] m] now] configs IH]; intros engine loaded Hok He; cbn [load_enrichment].
  - eexists. split; [done|]. intros engine' [= <-]. exists []. rewrite app_nil_r. by split; [constructor|].
  - apply Forall_cons in Hok as [Hc Hok]. destruct (add_spec engine loaded config opened m now Hc He) as (engine1 & r1 & -> & H1).
    cbn [mbind option_bind]. destruct opened as [s|e], r1 as [n|e1]; try done.
    + destruct (IH engine1 _ Hok H1) as (r & -> & Hr). exists r. split; [done|]. intros engine' ->.
      destruct (Hr engine' eq_refl) as (more & Hm & H2). exists ((config, s) :: more). rewrite <- app_assoc in H2.
      split; [by constructor|done].
    + eexists. split; [done|]. by intros engine' [=].
Qed.

(** ** Values by name *)

Definition same_value (outs : list bytes) (a : nat * bytes) (b : bytes * bytes) : Prop := outs !! a.1 = Some b.1 /\ a.2 = b.2.

Lemma said_same outs cs cs' i name : NoDup outs -> outs !! i = Some name -> Forall2 (same_value outs) cs cs' ->
  said_of i cs = said_of name cs'.
Proof.
  intros Hn Hi H. unfold said_of. f_equal. induction H as [|[j v] [n v'] cs cs' [E Ev] H IH]; [done|]. cbn in *. subst v'. rewrite IH.
  destruct (decide (j = i)) as [->|Hj], (decide (n = name)) as [->|Hname]; try done; [congruence|].
  exfalso. apply Hj. by eapply NoDup_lookup.
Qed.

Lemma row_values_same columns outs row ms fields : NoDup columns -> row.(row_schema) = columns ->
  Forall2 (fun m '(column, output) => columns !! column = Some m.(source_column) /\ outs !! output = Some m.(output_field)) ms fields ->
  Forall2 (same_value outs) (row_values row fields)
    (omap (fun m => (fun v => (m.(output_field), v)) <$> (i ← position m.(source_column) row.(row_schema); mjoin (row.(values) !! i))) ms).
Proof.
  intros Hn -> H. unfold row_values. induction H as [|m [column output] ms fields [Hc Ho] H IH]; [constructor|]. cbn [omap list_omap].
  assert (Ep : position m.(source_column) columns = Some column).
  { destruct (position_elem m.(source_column) columns) as [i Ei]; [by eapply list_elem_of_lookup_2|]. rewrite Ei. f_equal.
    apply position_Some in Ei as [Ei _]. by eapply NoDup_lookup. }
  rewrite Ep. cbn [mbind option_bind]. destruct (mjoin (row.(values) !! column)) as [v|]; cbn; [|done]. by constructor.
Qed.

Lemma group_values_same columns outs s flow ms ks g : source_wf columns s -> NoDup columns -> Forall mapping_ok ms ->
  group_for columns outs ms ks g ->
  Forall2 (same_value outs) (group_values s flow g)
    (omap (fun m => (fun v => (m.(output_field), v)) <$> value_of s flow m) (filter (fun m => key_names m = ks) ms)).
Proof.
  intros Hs Hn Hok (H1 & H2 & _ & H4).
  assert (Hkeys : Forall (fun m => m.(keys) = g.(g_keys)) (filter (fun m => key_names m = ks) ms)).
  { apply Forall_forall. intros m [Hk Hm]%list_elem_of_filter. rewrite Forall_forall in Hok. apply key_lists_inj; [by apply Hok|done|].
    unfold key_names in Hk. congruence. }
  set (l := filter _ ms) in *. unfold group_values.
  assert (Ev : forall o, mapM (fun k => k.(lk_extract) flow) g.(g_keys) ≫= s.(source_lookup) = o ->
    Forall (fun m => value_of s flow m = row ← o; i ← position m.(source_column) row.(row_schema); mjoin (row.(values) !! i)) l).
  { intros o E. eapply Forall_impl; [exact Hkeys|]. intros m Hm. cbn beta in Hm. unfold value_of. rewrite Hm, <- E. by destruct (mapM _ _). }
  destruct (mapM _ g.(g_keys) ≫= s.(source_lookup)) as [row|] eqn:El.
  - specialize (Ev _ eq_refl). assert (Er : row.(row_schema) = columns) by (apply bind_Some in El as (key & _ & El); by apply Hs in El as [El _]).
    pose proof (row_values_same columns outs row l g.(g_fields) Hn Er H4) as H.
    assert (Eo : omap (fun m => (fun v => (m.(output_field), v)) <$> value_of s flow m) l =
      omap (fun m => (fun v => (m.(output_field), v)) <$> (i ← position m.(source_column) row.(row_schema); mjoin (row.(values) !! i))) l).
    { clear -Ev. induction Ev as [|m l Hm _ IH]; [done|]. cbn [omap list_omap]. rewrite Hm, IH. done. }
    by rewrite Eo.
  - specialize (Ev _ eq_refl). assert (Eo : omap (fun m => (fun v => (m.(output_field), v)) <$> value_of s flow m) l = []).
    { clear -Ev. induction Ev as [|m l Hm _ IH]; [done|]. cbn [omap list_omap]. by rewrite Hm, IH. }
    rewrite Eo. constructor.
Qed.

Lemma Forall2_concat {A B} (R : A -> B -> Prop) ls ks : Forall2 (Forall2 R) ls ks -> Forall2 R (concat ls) (concat ks).
Proof. induction 1; [constructor|]. by apply Forall2_app. Qed.

Lemma omap_concat {A B} (f : A -> option B) (ls : list (list A)) :
  omap f (concat ls : list A) = concat ((fun l => omap f l : list B) <$> ls : list (list B)).
Proof. induction ls as [|l ls IH]; [done|]. cbn [concat fmap list_fmap]. by rewrite omap_app, IH. Qed.

Lemma lookup_values_same outs flow load l : source_wf load.1.(source).(columns) load.2 -> config_ok load.1 -> lookup_for outs load l ->
  Forall2 (same_value outs) (lookup_values flow l)
    (omap (fun m => (fun v => (m.(output_field), v)) <$> value_of load.2 flow m) (by_group load.1.(mappings))).
Proof.
  intros Hs (_ & Hok & (types & _ & _ & Hn & _) & _) [Et Hg]. unfold lookup_values, by_group. rewrite Et, omap_concat. apply Forall2_concat.
  rewrite <- list_fmap_compose. apply Forall2_fmap. apply Forall2_flip. eapply Forall2_impl; [exact Hg|]. intros ks g Hgk. cbn.
  by eapply group_values_same.
Qed.
(** Every group of a loaded table is in range. *)
Lemma lookup_groups_wf outs load l : lookup_for outs load l -> Forall (group_wf load.1.(source).(columns) (length outs)) l.(groups).
Proof.
  intros [_ Hg]. apply Forall_forall. intros g Hin. apply list_elem_of_lookup_1 in Hin as [i Hi].
  destruct (Forall2_lookup_r _ _ _ _ _ Hg Hi) as (ks & _ & _ & _ & Hlen & H4). split; [done|].
  apply Forall_forall. intros [column output] Hin. apply list_elem_of_lookup_1 in Hin as [j Hj].
  destruct (Forall2_lookup_r _ _ _ _ _ H4 Hj) as (m & _ & Hc & Ho'). split; by eapply lookup_lt_Some.
Qed.

Lemma loaded_values_same flow outs loaded ls :
  Forall (fun load => config_ok load.1 /\ source_wf load.1.(source).(columns) load.2) loaded -> Forall2 (lookup_for outs) loaded ls ->
  Forall2 (same_value outs) (concat (lookup_values flow <$> ls)) (contributions flow loaded).
Proof.
  intros Hok H. apply Forall2_concat, Forall2_fmap, Forall2_flip. induction H as [|[c s] l loaded ls Hl _ IH]; [constructor|].
  apply Forall_cons in Hok as [[Hc Hs] Hok]. constructor; [by apply (lookup_values_same _ flow (c, s))|by apply IH].
Qed.

Lemma engine_enrich flow out loaded engine : engine_for loaded engine ->
  Forall (fun load => config_ok load.1 /\ source_wf load.1.(source).(columns) load.2) loaded ->
  length out = length engine.(output_fields) ->
  enrich engine flow out = Some (enriched flow loaded <$> engine.(output_fields)).
Proof.
  intros (Hn & _ & Hl) Hok Ho. unfold enrich. rewrite enrich_lookups_spec.
  - f_equal. apply list_eq. intros i. rewrite list_lookup_fmap. destruct (engine.(output_fields) !! i) as [name|] eqn:Ei; cbn.
    + pose proof (lookup_lt_Some _ _ _ Ei) as Hi. rewrite place_lookup by (rewrite length_fmap; lia).
      rewrite (said_same engine.(output_fields) _ (contributions flow loaded) i name Hn Ei) by by apply loaded_values_same.
      unfold enriched. destruct (said_of name _); [done|]. rewrite list_lookup_fmap.
      by destruct (lookup_lt_is_Some_2 out i ltac:(lia)) as [x ->].
    + apply lookup_ge_None in Ei. apply lookup_ge_None. rewrite length_place, length_fmap. lia.
  - rewrite length_fmap, Ho. clear -Hl Hok. set (outs := output_fields engine) in *. clearbody outs.
    induction Hl as [|load l loaded ls Hl _ IH]; constructor; apply Forall_cons in Hok as [[Hc Hs] Hok].
    + exists load.1.(source).(columns). split; [by destruct Hl as [-> _]|by apply lookup_groups_wf].
    + by apply IH.
Qed.
End facts.

(** A source an argument asks for opens or fails, with rows as the argument
    says. *)
Lemma open_source_wf `{CR : Crates} `{PT : PrefixTrie} `{IT : IpnetText} types config input : source_ok types config ->
  exists r, open_source config input = Some r /\ forall s, r = inl s -> source_wf config.(columns) s.
Proof.
  intros (_ & _ & _ & Hf & Ho & _). unfold open_source, load. destruct config.(format) as [kc lookup|].
  - destruct Hf as (Hne & _). pose proof (fun input => csv_open_wf input kc lookup config.(columns) Hne) as Hcsv.
    destruct config.(origin) as [path|program timeout].
    + destruct (in_csv input) as [csv|e]; cbn [mbind option_bind]; [|eexists; split; [done|by intros s [=]]].
      destruct (Hcsv csv) as (r & -> & Hr). cbn [mbind option_bind]. eexists. split; [done|]. destruct r; [exact Hr|by intros s [=]].
    + unfold command_read. destruct (run_started _); cbn [mbind option_bind]; [|eexists; split; [done|by intros s [=]]].
      destruct (Hcsv (run_printed (in_run input))) as (r & -> & Hr). cbn [mbind option_bind]. eexists. split; [done|]. intros s.
      destruct (run_status _) as [[]|e], r as [t|e']; try done. destruct (source_len t =? 0); [done|exact (Hr s)].
  - destruct config.(origin); cbn [mbind option_bind]; (eexists; split; [done|]); [|by intros s [=]].
    intros s. destruct (mmdb_open _ _) as [s'|] eqn:E; [|done]. intros [= <-]. by eapply mmdb_open_wf.
Qed.

Section claims.
Context `{CR : Crates} `{PT : PrefixTrie} `{IT : IpnetText}.
Context (parse_duration : bytes -> option Z) (absolute : bytes -> EnrichResult bytes).

(** A configuration an argument gave, with what its source opened to. *)
Definition configured (c : EnrichmentConfig * EnrichResult Source * SourceMetrics * Z) : Prop :=
  (exists arg, parse_enrich_arg parse_duration absolute arg = Some (inl c.1.1.1)) /\
  exists input, open_source c.1.1.1.(source) input = Some c.1.1.2.

(** What loads is as the arguments say. *)
Lemma configured_loads configs : Forall configured configs ->
  exists r, load_enrichment engine_new configs = Some r /\
    forall engine, r = inl engine -> exists loaded, Forall2 loads_as configs loaded /\ engine_for loaded engine /\
      Forall (fun load => config_ok load.1 /\ source_wf load.1.(source).(columns) load.2) loaded.
Proof.
  intros Hc. assert (Hok : Forall (fun c => config_ok c.1.1.1) configs).
  { eapply Forall_impl; [exact Hc|]. intros c [[arg Ha] _]. destruct (parse_enrich_spec parse_duration absolute arg) as (r & E & Hr).
    apply Hr. congruence. }
  destruct (load_spec configs engine_new []) as (r & E & Hr); [done|split_and!; [constructor| |constructor]|].
  { intros f. split; [intros H; by apply elem_of_nil in H|]. intros (load & H & _). by apply elem_of_nil in H. }
  exists r. split; [done|]. intros engine ->. destruct (Hr engine eq_refl) as (loaded & Hl & He). exists loaded. split_and!; [done|done|].
  apply Forall_lookup. intros i load Hi. destruct (Forall2_lookup_r _ _ _ _ _ Hl Hi) as (c & Ec & <- & E2).
  rewrite Forall_lookup in Hok, Hc. specialize (Hok i c Ec). destruct (Hc i c Ec) as [_ [input Hi']]. split; [done|].
  destruct Hok as (_ & _ & (types & _ & Hs) & _). destruct (open_source_wf types _ input Hs) as (r & E' & Hr'). apply Hr'. congruence.
Qed.

(** C24: Reading the arguments, opening what they name and loading the engine never
    panics.  Loaded, the engine's output fields are those of the mappings, each
    once, and enriching a flow never panics: every field has the last value
    the tables have for it, in the order of the arguments, the mappings of a
    table with the same keys together. *)
Theorem enrich_spec :
  (forall arg, exists r, parse_enrich_arg parse_duration absolute arg = Some r /\
    forall config input, r = inl config -> is_Some (open_source config.(source) input)) /\
  forall configs, Forall configured configs ->
  exists r, load_enrichment engine_new configs = Some r /\
    forall engine, r = inl engine -> exists loaded, Forall2 loads_as configs loaded /\
      NoDup engine.(output_fields) /\
      (forall f, f ∈ engine.(output_fields) <-> exists load, load ∈ loaded /\ f ∈ output_field <$> load.1.(mappings)) /\
      forall flow out, length out = length engine.(output_fields) ->
        enrich engine flow out = Some (enriched flow loaded <$> engine.(output_fields)).
Proof.
  split.
  - intros arg. destruct (parse_enrich_spec parse_duration absolute arg) as (r & E & Hr). exists r. split; [done|].
    intros config input ->. destruct (Hr config eq_refl) as (_ & _ & (types & _ & Hs) & _).
    destruct (open_source_wf types config.(source) input Hs) as (r & -> & _). by eexists.
  - intros configs Hc. destruct (configured_loads configs Hc) as (r & E & Hr). exists r. split; [done|]. intros engine Er.
    destruct (Hr engine Er) as (loaded & Hl & He & Hok). exists loaded. split; [done|]. split; [apply He|]. split; [apply He|].
    intros flow out Ho. by apply engine_enrich.
Qed.
End claims.

(** ** Samples

    Instances of the prefix tree and of the text form of prefixes, and the
    engine on sample arguments. *)

From coqutil Require Import Datatypes.RecordSetters.
#[local] Open Scope Z_scope.

(** ** The prefix tree as the entries themselves *)

Definition longer (w addr : Z) (e : Net * Row) (acc : option (Net * Row)) : option (Net * Row) :=
  if bool_decide (covers w e.1 addr) then
    match acc with Some best => if e.1.(net_len) <=? best.1.(net_len) then acc else Some e | None => Some e end
  else acc.

Definition longest (w addr : Z) (entries : list (Net * Row)) : option (Net * Row) := foldr (longer w addr) None entries.

Lemma longest_spec w addr entries :
  match longest w addr entries with
  | Some e => e ∈ entries /\ covers w e.1 addr /\ forall e', e' ∈ entries -> covers w e'.1 addr -> e'.1.(net_len) <= e.1.(net_len)
  | None => forall e', e' ∈ entries -> ~ covers w e'.1 addr
  end.
Proof.
  induction entries as [|e entries IH]; [by intros e' H; apply elem_of_nil in H|]. cbn [longest foldr]. fold (longest w addr entries).
  unfold longer. destruct (bool_decide_reflect (covers w e.1 addr)) as [Hc|Hc].
  - destruct (longest w addr entries) as [best|].
    + destruct IH as (Hin & Hb & Hmax). destruct (Z.leb_spec e.1.(net_len) best.1.(net_len)).
      * split_and!; [by right|done|]. intros e' [->|H']%elem_of_cons Hc'; [lia|by apply Hmax].
      * split_and!; [by left|done|]. intros e' [->|H']%elem_of_cons Hc'; [lia|]. specialize (Hmax e' H' Hc'). lia.
    + split_and!; [by left|done|]. intros e' [->|H']%elem_of_cons Hc'; [lia|by destruct (IH e' H')].
  - destruct (longest w addr entries) as [best|].
    + destruct IH as (Hin & Hb & Hmax). split_and!; [by right|done|]. intros e' [->|H']%elem_of_cons Hc'; [done|by apply Hmax].
    + intros e' [->|H']%elem_of_cons; [done|by apply IH].
Qed.

Lemma longest_entry w addr (m : gmap Net Row) net row : longest w addr (map_to_list m) = Some (net, row) -> m !! net = Some row.
Proof.
  intros E. pose proof (longest_spec w addr (map_to_list m)) as H. rewrite E in H. destruct H as (H & _). by apply elem_of_map_to_list in H.
Qed.

Lemma longest_match w addr (m : gmap Net Row) :
  match longest w addr (map_to_list m) with
  | Some (net, row) => covers w net addr /\
      forall net' row', m !! net' = Some row' -> covers w net' addr -> net'.(net_len) <= net.(net_len)
  | None => forall net' row', m !! net' = Some row' -> ~ covers w net' addr
  end.
Proof.
  pose proof (longest_spec w addr (map_to_list m)) as H. destruct (longest _ _ _) as [[net row]|].
  - destruct H as (_ & Hc & Hmax). split; [done|]. intros net' row' H' Hc'. by apply (Hmax (net', row')); [apply elem_of_map_to_list|].
  - intros net' row' H'. by apply (H (net', row')), elem_of_map_to_list.
Qed.

#[export] Program Instance trie_std : PrefixTrie := {
  PrefixMap _ := gmap Net Row;
  pm_default _ := ∅;
  pm_insert _ m net row := <[net := row]> m;
  get_lpm w m addr := longest w addr (map_to_list m);
  pm_len _ m := Z.of_nat (size m);
  pm_entries _ m := m;
}.
Next Obligation. done. Qed.
Next Obligation. done. Qed.
Next Obligation. intros w m addr net row. apply longest_entry. Qed.
Next Obligation. intros w m addr _ _ _. apply longest_match. Qed.
Next Obligation. done. Qed.

(** An address, a slash and a length. *)
Definition read_prefix (raw : bytes) : option IpNet :=
  '(addr, len) ← split_once x2f raw;
  ip ← parse_ip addr;
  len ← parse_unsigned 8 len;
  match ip with
  | V4 a => if bool_decide (net_ok 32 (mkNet a len)) then Some (NetV4 (mkNet a len)) else None
  | V6 a => if bool_decide (net_ok 128 (mkNet a len)) then Some (NetV6 (mkNet a len)) else None
  end.

#[export] Program Instance ipnet_std : IpnetText := { parse_prefix := read_prefix }.
Next Obligation.
  intros raw net. unfold read_prefix. intros ([addr len] & _ & H)%bind_Some. apply bind_Some in H as (ip & _ & H).
  apply bind_Some in H as (l & _ & H). destruct ip as [a|a]; case_bool_decide; by simplify_eq.
Qed.

#[local] Instance sample_crates : Crates := crates_std.

(** ** Sample tables *)

Definition sample_csv : CsvInput := mkCsvInput (Some [str "name"; str " exporter "; str "ifindex"])
  [Some [str "uplink"; str "10.0.0.1"; str "1"]; Some [str ""; str "10.0.0.1"; str "2"];
   Some [str " lan"; str "10.0.0.1"; str "3"]; Some [str "core"; str "10.0.0.1"; str "1"]].

Definition sample_nets : CsvInput := mkCsvInput (Some [str "net"; str "site"])
  [Some [str "10.0.0.0/8"; str "all"]; Some [str "10.1.0.0/16"; str "old"]; Some [str "10.1.7.7/16"; str "branch"]].

Definition sample_arg1 : bytes :=
  str "type=exact,source=if.csv,key_column=exporter+ifindex,fields=sampler_address+in_if@name:in_name;sampler_address+out_if@name:out_name".
Definition sample_arg2 : bytes :=
  str "type=prefix_lookup, source=nets.csv, key_column=net, fields=dst_addr@site:site ; src_addr@site:site|site:from".

Definition no_duration (value : bytes) : option Z := None.
Definition as_given (path : bytes) : EnrichResult bytes := inl path.

Definition sample_config (arg : bytes) : EnrichmentConfig :=
  match parse_enrich_arg no_duration as_given arg with
  | Some (inl config) => config
  | _ => mkConfig (mkSourceConfig (OriginFile []) FormatMmdb ReloadPolicy.Never []) []
  end.

Definition sample_input (csv : CsvInput) : SourceInput :=
  mkSourceInput (inl csv) (inr MmdbError) (mkCommandRun (inr IoError) csv (inl false)).

Definition sample_opened (arg : bytes) (csv : CsvInput) : EnrichResult Source :=
  match open_source (sample_config arg).(source) (sample_input csv) with Some opened => opened | None => inr IoError end.

Definition sample_configs : list (EnrichmentConfig * EnrichResult Source * SourceMetrics * Z) :=
  (fun '(arg, csv) => (sample_config arg, sample_opened arg csv, mkSourceMetrics 0 0 0 0, 0))
    <$> [(sample_arg1, sample_csv); (sample_arg2, sample_nets)].

Definition sample_flow : CommonFlow :=
  default_flow<|cf_sampler_address := Some (V4 167772161)|> <|cf_in_if := Some 1|> <|cf_out_if := Some 2|>
    <|cf_dst_addr := Some (V4 167838211)|> <|cf_src_addr := Some (V4 168361985)|>.

Example tables_answer :
  match sample_opened sample_arg1 sample_csv with
  | inl s => values <$> s.(source_lookup) [KeyIp (V4 167772161); KeyNumber 3]
  | inr _ => None
  end = Some [Some (str "lan")].
Proof. vm_compute. reflexivity. Qed.

Lemma sample_config_read arg :
  match parse_enrich_arg no_duration as_given arg with Some (inl _) => true | _ => false end = true ->
  parse_enrich_arg no_duration as_given arg = Some (inl (sample_config arg)).
Proof. unfold sample_config. by destruct (parse_enrich_arg _ _ arg) as [[config|e]|]. Qed.

Lemma sample_source_opened arg csv :
  match open_source (sample_config arg).(source) (sample_input csv) with Some _ => true | None => false end = true ->
  open_source (sample_config arg).(source) (sample_input csv) = Some (sample_opened arg csv).
Proof. unfold sample_opened. by destruct (open_source _ _). Qed.

Lemma sample_configured : Forall (configured no_duration as_given) sample_configs.
Proof.
  repeat constructor; unfold configured; cbn [fst snd].
  - exists sample_arg1. apply sample_config_read. vm_compute. reflexivity.
  - exists (sample_input sample_csv). apply sample_source_opened. vm_compute. reflexivity.
  - exists sample_arg2. apply sample_config_read. vm_compute. reflexivity.
  - exists (sample_input sample_nets). apply sample_source_opened. vm_compute. reflexivity.
Qed.

Lemma enrich_spec_witness : exists engine, load_enrichment engine_new sample_configs = Some (inl engine) /\
  engine.(output_fields) = [str "in_name"; str "out_name"; str "site"; str "from"] /\
  enrich engine sample_flow (replicate 4 None) = Some [Some (str "core"); None; Some (str "all"); Some (str "all")] /\
  exists loaded, enrich engine sample_flow (replicate 4 None) = Some (enriched sample_flow loaded <$> engine.(output_fields)).
Proof.
  destruct (enrich_spec no_duration as_given) as [_ H]. destruct (H sample_configs sample_configured) as (r & E & Hr).
  assert (Ho : match load_enrichment engine_new sample_configs with
    | Some (inl engine) => Some (engine.(output_fields), enrich engine sample_flow (replicate 4 None))
    | _ => None
    end = Some ([str "in_name"; str "out_name"; str "site"; str "from"],
      Some [Some (str "core"); None; Some (str "all"); Some (str "all")])) by (vm_compute; reflexivity).
  rewrite E in Ho. destruct r as [engine|e]; [|discriminate Ho]. injection Ho as Ho1 Ho2. exists engine.
  destruct (Hr engine eq_refl) as (loaded & _ & _ & _ & Hs). refine (conj E (conj Ho1 (conj Ho2 _))). exists loaded. apply Hs.
  rewrite Ho1. reflexivity.
Defined.

Lemma csv_prefix_spec_witness : exists table, csv_open sample_nets [str "net"] CsvPrefix [str "site"] = Some (inl table) /\
  (values <$> table.(source_lookup) [KeyIp (V4 167838211)]) = Some [Some (str "branch")] /\
  exists rec net, record_net [str "net"; str "site"] (str "net") rec = Some net /\ net_covers net (V4 167838211) /\ prefix_len net = 16.
Proof.
  destruct (csv_prefix_spec [str "net"; str "site"] sample_nets.(csv_records) (str "net") [] [str "site"]) as (r & E & Hr).
  assert (Ho : match csv_open sample_nets [str "net"] CsvPrefix [str "site"] with
    | Some (inl table) => values <$> table.(source_lookup) [KeyIp (V4 167838211)]
    | _ => None
    end = Some [Some (str "branch")]) by (vm_compute; reflexivity).
  assert (Eh : trim <$> [str "net"; str "site"] = [str "net"; str "site"]) by (vm_compute; reflexivity). rewrite Eh in Hr.
  change (csv_open sample_nets [str "net"] CsvPrefix [str "site"] = Some r) in E. rewrite E in Ho.
  destruct r as [table|e]; [|discriminate Ho]. exists table. refine (conj E (conj Ho _)).
  destruct Hr as (recs & Hl & _ & H). specialize (H (V4 167838211) ltac:(cbn; unfold fits_u; lia)).
  destruct (table.(source_lookup) [KeyIp (V4 167838211)]) as [row|]; [|discriminate Ho].
  destruct H as (before & rec & after & net & Er & Hn & Erow & Hc & _). exists rec, net. refine (conj Hn (conj Hc _)).
  destruct Hl as (_ & Erec & _). assert (Hrec : recs = [[str "10.0.0.0/8"; str "all"]; [str "10.1.0.0/16"; str "old"]; [str "10.1.7.7/16"; str "branch"]]).
  { destruct recs as [|r1 [|r2 [|r3 [|r4 recs]]]]; try discriminate Erec. injection Erec as <- <- <-. reflexivity. }
  rewrite Hrec in Er. rewrite Erow in Ho. cbn in Ho.
  destruct before as [|b1 [|b2 [|b3 before]]]; injection Er; [| | |intros; destruct before; discriminate].
  - intros _ <-. vm_compute in Ho. discriminate Ho.
  - intros _ <- _. vm_compute in Ho. discriminate Ho.
  - intros _ <- _ _. vm_compute in Hn. injection Hn as <-. reflexivity.
Defined.
