(* ===== verification/Pipeline.v ===== *)
(** [rustflow_collect/src/sink/pipeline]: what takes flows from the ingest
    threads to the encoder thread and the sink.

    Instants are in nanoseconds and arguments, as is the time of day; what
    panics has no result.  The channel and the threads over it are in
    [PipelineRun]. *)

From Stdlib Require Import ZArith Lia Strings.Byte.
From stdpp Require Import base tactics numbers list gmap.
From S2P Require Import Prelude Std Text Crates Calendar CommonFlow Layout Storage Destination SinkConfig Encoder Sink EnrichTables EnrichConfig EnrichEngine.
#[local] Open Scope Z_scope.

Definition FLUSH_INTERVAL : Z := 250_000_000.
Definition CHUNK_RECORDS : Z := 256.
Definition CHUNK_FLUSH_TIMEOUT : Z := 100_000_000.
Definition PIPELINE_DEPTH : Z := 1024.

(** ** timer.rs *)

Record FlushTimer := mkTimer { next : Z; t_interval : Z }.

Definition FlushTimer_new (interval now : Z) : FlushTimer := mkTimer (now + interval) interval.

Definition remaining (self : FlushTimer) (now : Z) : Z := duration_since self.(next) now.

Definition due (self : FlushTimer) (now : Z) : FlushTimer * bool :=
  if now <? self.(next) then (self, false)
  else
    let anchored := self.(next) + self.(t_interval) in
    (mkTimer (if now <? anchored then anchored else now + self.(t_interval)) self.(t_interval), true).

(** ** errors.rs *)

Module Operation.
Inductive Operation := OutputWrite | OutputFlush | OutputRotation.
End Operation.
Export Operation(Operation).

#[export] Instance Operation_eq_dec : EqDecision Operation.
Proof. solve_decision. Defined.

(** What is logged. *)
Inductive LogLine := Recovered (what : Operation) | Failed (what : Operation) (e : ErrorKind).

Record SinkErrors := mkErrors { write_failing : bool; rotate_failing : bool; flush_failing : bool }.

Definition SinkErrors_new : SinkErrors := mkErrors false false false.

(** The new state, the log and how often the failure was counted. *)
Definition observe (what : Operation) (failing : bool) (result : IoResult unit) : bool * list LogLine * Z :=
  match result with
  | inl _ => if failing then (false, [Recovered what], 0) else (failing, [], 0)
  | inr e => (true, if failing then [] else [Failed what e], 1)
  end.

Definition inc_write_errors (m : OutputMetrics) (n : Z) : OutputMetrics :=
  mkMetrics m.(m_flows) m.(m_bytes) m.(m_files) (m.(m_write_errors) + n) m.(m_rotate_errors)
    m.(m_hook_running) m.(m_hook_completed) m.(m_hook_errors) m.(m_expired_files) m.(m_expire_errors).

Definition inc_rotate_errors (m : OutputMetrics) (n : Z) : OutputMetrics :=
  mkMetrics m.(m_flows) m.(m_bytes) m.(m_files) m.(m_write_errors) (m.(m_rotate_errors) + n)
    m.(m_hook_running) m.(m_hook_completed) m.(m_hook_errors) m.(m_expired_files) m.(m_expire_errors).

Definition inc_flows (m : OutputMetrics) (n : Z) : OutputMetrics :=
  mkMetrics (m.(m_flows) + n) m.(m_bytes) m.(m_files) m.(m_write_errors) m.(m_rotate_errors)
    m.(m_hook_running) m.(m_hook_completed) m.(m_hook_errors) m.(m_expired_files) m.(m_expire_errors).

Definition errors_write (self : SinkErrors) (m : OutputMetrics) (result : IoResult unit) : SinkErrors * OutputMetrics * list LogLine :=
  let '(failing, log, n) := observe Operation.OutputWrite self.(write_failing) result in
  (mkErrors failing self.(rotate_failing) self.(flush_failing), inc_write_errors m n, log).

Definition errors_flush (self : SinkErrors) (m : OutputMetrics) (result : IoResult unit) : SinkErrors * OutputMetrics * list LogLine :=
  let '(failing, log, n) := observe Operation.OutputFlush self.(flush_failing) result in
  (mkErrors self.(write_failing) self.(rotate_failing) failing, inc_write_errors m n, log).

(** That no rotation was due is neither success nor failure. *)
Definition errors_rotate (self : SinkErrors) (m : OutputMetrics) (result : IoResult bool) : SinkErrors * OutputMetrics * list LogLine :=
  match result with
  | inl false => (self, m, [])
  | _ =>
      let result := match result with inl _ => inl tt | inr e => inr e end in
      let '(failing, log, n) := observe Operation.OutputRotation self.(rotate_failing) result in
      (mkErrors self.(write_failing) failing self.(flush_failing), inc_rotate_errors m n, log)
  end.

(** ** Producers *)

Section pipeline.
Context `{CL : Calendar} `{ST : Storage} `{EN : !Encoders}.

Inductive Chunk := ChunkFlows (flows : list CommonFlow) | ChunkRaw (lines : bytes) (flows : Z).

Record Producer := mkProducer {
  p_flows : list CommonFlow;
  p_raw : bytes;
  p_raw_records : Z;
  p_raw_flows : Z;
  discard : bool;
  chunk_started : Z;
}.

(** [Pipeline::producer] *)
Definition producer (discard : bool) (now : Z) : Producer := mkProducer [] [] 0 0 discard now.

Definition start_chunk (self : Producer) (now : Z) : Producer :=
  if bool_decide (self.(p_flows) = []) && (self.(p_raw_records) =? 0)
  then mkProducer self.(p_flows) self.(p_raw) self.(p_raw_records) self.(p_raw_flows) self.(discard) now
  else self.

(** [Producer::flush]: the chunks it sends, in order. *)
Definition producer_flush (self : Producer) : Producer * list Chunk :=
  let '(self, sent) :=
    if bool_decide (self.(p_flows) = []) then (self, [])
    else (mkProducer [] self.(p_raw) self.(p_raw_records) self.(p_raw_flows) self.(discard) self.(chunk_started),
          [ChunkFlows self.(p_flows)]) in
  if 0 <? self.(p_raw_records)
  then (mkProducer self.(p_flows) [] 0 0 self.(discard) self.(chunk_started), sent ++ [ChunkRaw self.(p_raw) self.(p_raw_flows)])
  else (self, sent).

Definition send_if_ready (self : Producer) (records now : Z) : Producer * list Chunk :=
  if (CHUNK_RECORDS <=? records) || (CHUNK_FLUSH_TIMEOUT <=? duration_since now self.(chunk_started))
  then producer_flush self else (self, []).

(** [Producer::push]; the instants are those of its start and its end. *)
Definition push (self : Producer) (decode : list CommonFlow -> list CommonFlow) (started ended : Z) : Producer * list Chunk :=
  let self := start_chunk self started in
  let flows := decode self.(p_flows) in
  let self := mkProducer flows self.(p_raw) self.(p_raw_records) self.(p_raw_flows) self.(discard) self.(chunk_started) in
  send_if_ready self (zlen flows) ended.

(** [Producer::push_raw] of a record's JSON text. *)
Definition push_raw (self : Producer) (json : bytes) (flows : Z) (started ended : Z) : Producer * list Chunk :=
  let self := start_chunk self started in
  let raw := if self.(discard) then self.(p_raw) else self.(p_raw) ++ json ++ [x0a] in
  let self := mkProducer self.(p_flows) raw (self.(p_raw_records) + 1) (self.(p_raw_flows) + flows) self.(discard) self.(chunk_started) in
  send_if_ready self self.(p_raw_records) ended.

(** ** The encoder thread *)

(** The parts of the encoder loop, with the counters, the log and the jobs
    for the completion hook. *)
Record EncoderState := mkEncoderState {
  e_sys : Sys;
  e_sink : RotatingSink;
  e_errors : SinkErrors;
  e_timer : FlushTimer;
  e_enriched : Enriched;
  e_log : list LogLine;
  e_jobs : list Job;
}.

Definition encoder_start (sys : Sys) (sink : RotatingSink) (enrichment : EnrichmentEngine) (now : Z) : EncoderState :=
  mkEncoderState sys sink SinkErrors_new (FlushTimer_new FLUSH_INTERVAL now) (replicate (length enrichment.(output_fields)) None) [] [].

(** What an operation on the sink left, with what became of its result. *)
Definition noted (st : EncoderState) (sys : Sys) (sink : RotatingSink) (jobs : list Job)
    (errors : SinkErrors * OutputMetrics * list LogLine) : EncoderState :=
  let '(errors, metrics, log) := errors in
  mkEncoderState (mkSys sys.(fs) metrics) sink errors st.(e_timer) st.(e_enriched) (st.(e_log) ++ log) (st.(e_jobs) ++ jobs).

(** [errors.rotate(sink.rotate_if_due(Utc::now()))] *)
Definition encoder_rotate (st : EncoderState) (now : DateTime) : EncoderState :=
  let '(sys, sink, jobs, r) := rotate_if_due st.(e_sink) st.(e_sys) now in
  noted st sys sink jobs (errors_rotate st.(e_errors) sys.(Encoder.metrics) r).

(** [errors.flush(sink.flush())] *)
Definition encoder_flush (st : EncoderState) : EncoderState :=
  let '(sys, sink, r) := sink_flush st.(e_sink) st.(e_sys) in
  noted st sys sink [] (errors_flush st.(e_errors) sys.(Encoder.metrics) r).

(** A flow enriched and written; a window is opened at [now] if there is
    none. *)
Definition encoder_write (pid : Z) (enrichment : EnrichmentEngine) (st : EncoderState) (flow : CommonFlow) (now : DateTime) :
    option EncoderState :=
  enriched ← enrich enrichment flow st.(e_enriched);
  '(sys, sink, r) ← write pid st.(e_sink) st.(e_sys) now flow enriched;
  let st := mkEncoderState sys sink st.(e_errors) st.(e_timer) enriched st.(e_log) st.(e_jobs) in
  Some (noted st sys sink [] (errors_write st.(e_errors) sys.(Encoder.metrics) r)).

(** Flows in turn, each at its time. *)
Fixpoint encoder_writes (pid : Z) (enrichment : EnrichmentEngine) (st : EncoderState) (flows : list CommonFlow) (now : nat -> DateTime) :
    option EncoderState :=
  match flows with
  | [] => Some st
  | flow :: flows =>
      st ← encoder_write pid enrichment st flow (now 0%nat);
      encoder_writes pid enrichment st flows (fun k => now (S k))
  end.

Definition encoder_write_raw (pid : Z) (st : EncoderState) (lines : bytes) (now : DateTime) : option EncoderState :=
  '(sys, sink, r) ← sink_write_raw pid st.(e_sink) st.(e_sys) now lines;
  Some (noted st sys sink [] (errors_write st.(e_errors) sys.(Encoder.metrics) r)).

Definition count_flows (st : EncoderState) (n : Z) : EncoderState :=
  mkEncoderState (mkSys st.(e_sys).(fs) (inc_flows st.(e_sys).(Encoder.metrics) n)) st.(e_sink) st.(e_errors) st.(e_timer)
    st.(e_enriched) st.(e_log) st.(e_jobs).

(** A chunk received, at the times of the check for rotation and of each
    write. *)
Definition encoder_chunk (pid : Z) (enrichment : EnrichmentEngine) (st : EncoderState) (chunk : Chunk) (now : nat -> DateTime) :
    option EncoderState :=
  let st := encoder_rotate st (now 0%nat) in
  match chunk with
  | ChunkFlows flows =>
      st ← encoder_writes pid enrichment st flows (fun k => now (S k));
      Some (count_flows st (zlen flows))
  | ChunkRaw lines flows =>
      st ← encoder_write_raw pid st lines (now 1%nat);
      Some (count_flows st flows)
  end.

(** The end of a round: at the deadline, rotation is checked and what is
    buffered is pushed out. *)
Definition encoder_tick (st : EncoderState) (instant : Z) (now : DateTime) : EncoderState :=
  let '(timer, fired) := due st.(e_timer) instant in
  let st := mkEncoderState st.(e_sys) st.(e_sink) st.(e_errors) timer st.(e_enriched) st.(e_log) st.(e_jobs) in
  if fired then encoder_flush (encoder_rotate st now) else st.

(** The channel is closed: the output is finished. *)
Definition encoder_finish (st : EncoderState) : EncoderState * IoResult unit :=
  let '(sys, jobs, r) := sink_finish st.(e_sink) st.(e_sys) in
  (mkEncoderState sys st.(e_sink) st.(e_errors) st.(e_timer) st.(e_enriched) st.(e_log) (st.(e_jobs) ++ jobs), r).
End pipeline.
