(* ===== verification/PipelineRun.v ===== *)
(** The threads of the collector over the bounded channel: what every producer
    was given reaches the sink once and in order, whatever the interleaving,
    and the pipeline always comes to its end. *)

From Stdlib Require Import ZArith Lia Strings.Byte.
From stdpp Require Import base tactics numbers list gmap relations.
From S2P Require Import Prelude Std Text Crates Calendar CommonFlow Layout LayoutFacts Storage Destination DestinationFacts SinkConfig SinkWindows Encoder Sink SinkFacts EnrichTables EnrichConfig EnrichEngine EnrichFacts EnrichEngineFacts Pipeline.
#[local] Open Scope Z_scope.

(** ** The threads *)

Section run.
Context `{CL : Calendar} `{ST : Storage} `{EN : !Encoders}.
Context (pid : Z) (enrichment : EnrichmentEngine).

(** What an ingest thread does with its producer. *)
Inductive Op := OpPush (flows : list CommonFlow) | OpPushRaw (json : bytes) (flows : Z) | OpFlush.

(** An operation from one instant to another: the chunks it sends. *)
Definition run_op (self : Producer) (op : Op) (started ended : Z) : Producer * list Chunk :=
  match op with
  | OpPush flows => push self (fun queued => queued ++ flows) started ended
  | OpPushRaw json flows => push_raw self json flows started ended
  | OpFlush => producer_flush self
  end.

(** An ingest thread: what it has yet to do, and the chunks of its last
    operation still to be sent.  Its end of the channel goes away with the
    producer. *)
Record Thread := mkThread { todo : list Op; prod : Producer; outbox : list Chunk; held : bool }.

Inductive EncoderPhase := Encoding (st : EncoderState) | Finished (st : EncoderState) (result : IoResult unit) | Panicked.

(** The channel's chunks carry their thread's number here, and [taken] is what
    the encoder received; neither is there in the program. *)
Record State := mkState {
  threads : list Thread;
  channel : list (nat * Chunk);
  encoder : EncoderPhase;
  taken : list (nat * Chunk);
}.

Definition set_thread (st : State) (i : nat) (t : Thread) : State :=
  mkState (<[i := t]> st.(threads)) st.(channel) st.(encoder) st.(taken).

Definition gone (t : Thread) : Prop := t.(held) = false /\ t.(outbox) = [].

(** A step of a thread, or of the encoder: [Utc::now] lies between 1970 and
    the year 9999. *)
Inductive act : State -> State -> Prop :=
  | act_op i t op ops started ended prod' sent st :
      st.(threads) !! i = Some t -> t.(todo) = op :: ops -> t.(outbox) = [] -> t.(held) = true ->
      run_op t.(prod) op started ended = (prod', sent) ->
      act st (set_thread st i (mkThread ops prod' sent true))
  | act_drop i t prod' sent st :
      st.(threads) !! i = Some t -> t.(todo) = [] -> t.(outbox) = [] -> t.(held) = true ->
      producer_flush t.(prod) = (prod', sent) ->
      act st (set_thread st i (mkThread [] prod' sent false))
  | act_send i t chunk chunks st st' :
      st.(threads) !! i = Some t -> t.(outbox) = chunk :: chunks ->
      st.(encoder) = Encoding st' -> Z.of_nat (length st.(channel)) < PIPELINE_DEPTH ->
      act st (mkState (<[i := mkThread t.(todo) t.(prod) chunks t.(held)]> st.(threads))
        (st.(channel) ++ [(i, chunk)]) st.(encoder) st.(taken))
  | act_gone i t st :
      st.(threads) !! i = Some t -> t.(outbox) <> [] -> st.(encoder) = Panicked ->
      act st (set_thread st i (mkThread [] t.(prod) [] false))
  | act_receive i chunk chunks st e e' now instant later :
      st.(encoder) = Encoding e -> st.(channel) = (i, chunk) :: chunks ->
      (forall k, time_ok (now k)) -> time_ok later ->
      encoder_chunk pid enrichment e chunk now = e' ->
      act st (mkState st.(threads) chunks
        (match e' with Some e' => Encoding (encoder_tick e' instant later) | None => Panicked end) (st.(taken) ++ [(i, chunk)]))
  | act_close st e e' r :
      st.(encoder) = Encoding e -> st.(channel) = [] -> Forall gone st.(threads) ->
      encoder_finish e = (e', r) ->
      act st (mkState st.(threads) [] (Finished e' r) st.(taken)).

(** Nothing came in time. *)
Inductive idle : State -> State -> Prop :=
  | idle_timeout st e instant now :
      st.(encoder) = Encoding e -> st.(channel) = [] -> time_ok now ->
      idle st (mkState st.(threads) [] (Encoding (encoder_tick e instant now)) st.(taken)).

Definition step (st st' : State) : Prop := act st st' \/ idle st st'.

Definition initial (sys : Sys) (sink : RotatingSink) (discard : bool) (started : Z) (ops : list (list Op)) : State :=
  mkState ((fun ops => mkThread ops (producer discard started) [] true) <$> ops) []
    (Encoding (encoder_start sys sink enrichment started)) [].

(** ** What chunks and operations carry *)

(** Flows, lines of raw packets, and the flows of those. *)
Definition Load : Type := list CommonFlow * bytes * Z.

Definition no_load : Load := ([], [], 0).
Definition plus (a b : Load) : Load := (a.1.1 ++ b.1.1, a.1.2 ++ b.1.2, a.2 + b.2).
Definition total {A} (f : A -> Load) (l : list A) : Load := foldr (fun x acc => plus (f x) acc) no_load l.

Definition chunk_load (c : Chunk) : Load :=
  match c with ChunkFlows flows => (flows, [], 0) | ChunkRaw lines flows => ([], lines, flows) end.

(** A discarding producer makes no lines. *)
Definition op_load (discard : bool) (op : Op) : Load :=
  match op with
  | OpPush flows => (flows, [], 0)
  | OpPushRaw json flows => ([], if discard then [] else json ++ [x0a], flows)
  | OpFlush => no_load
  end.

Definition buffered (p : Producer) : Load := (p.(p_flows), p.(p_raw), p.(p_raw_flows)).

(** How many flows a chunk is counted for. *)
Definition chunk_count (c : Chunk) : Z := match c with ChunkFlows flows => zlen flows | ChunkRaw _ flows => flows end.

Lemma plus_assoc a b c : plus a (plus b c) = plus (plus a b) c.
Proof. unfold plus. cbn. by rewrite !app_assoc, Z.add_assoc. Qed.

Lemma plus_no_load a : plus a no_load = a.
Proof. destruct a as [[x y] n]. unfold plus. cbn. by rewrite !app_nil_r, Z.add_0_r. Qed.

Lemma no_load_plus a : plus no_load a = a.
Proof. by destruct a as [[x y] n]. Qed.

Lemma loads_app {A} (f : A -> Load) l k : total f (l ++ k) = plus (total f l) (total f k).
Proof. induction l as [|x l IH]; [by rewrite no_load_plus|]. cbn [app total foldr]. fold (total f (l ++ k)) (total f l). by rewrite IH, plus_assoc. Qed.

Lemma total_one {A} (f : A -> Load) x : total f [x] = f x.
Proof. apply plus_no_load. Qed.

(** ** Producers *)

Definition producer_ok (discard : bool) (p : Producer) : Prop :=
  p.(Pipeline.discard) = discard /\ 0 <= p.(p_raw_records) /\ (p.(p_raw_records) = 0 -> p.(p_raw) = [] /\ p.(p_raw_flows) = 0).

(** Flushing sends all there is. *)
Lemma producer_flush_spec discard p : producer_ok discard p ->
  let '(p', sent) := producer_flush p in
  producer_ok discard p' /\ p'.(p_flows) = [] /\ p'.(p_raw_records) = 0 /\ total chunk_load sent = buffered p /\ (length sent <= 2)%nat.
Proof.
  intros Hp. pose proof Hp as (Hd & Hr & Hz). unfold producer_flush, buffered.
  destruct (bool_decide_reflect (p.(p_flows) = [])) as [Ef|Ef]; cbn [fst snd p_raw_records]; destruct (Z.ltb_spec 0 p.(p_raw_records)) as [Hpos|Hpos].
  - split_and!; [by split_and!|done|done|cbn [app]; by rewrite total_one, Ef|cbn; lia].
  - destruct Hz as [-> ->]; [lia|]. split_and!; [done|done|lia|by rewrite Ef|cbn; lia].
  - cbn [p_flows p_raw p_raw_flows]. split_and!; [by split_and!|done|done| |cbn; lia]. cbn. unfold plus. cbn. by rewrite !app_nil_r, Z.add_0_r.
  - destruct Hz as [-> ->]; [lia|]. cbn [p_flows p_raw p_raw_flows p_raw_records]. split_and!; [by split_and!|done|lia|by rewrite total_one|cbn; lia].
Qed.

Lemma send_if_ready_spec discard p records now : producer_ok discard p ->
  let '(p', sent) := send_if_ready p records now in
  producer_ok discard p' /\ plus (total chunk_load sent) (buffered p') = buffered p /\ (length sent <= 2)%nat.
Proof.
  intros Hp. unfold send_if_ready. destruct (_ || _); [|split_and!; [done|apply no_load_plus|cbn; lia]].
  pose proof (producer_flush_spec discard p Hp) as H. destruct (producer_flush p) as [p' sent].
  destruct H as (H1 & H2 & H3 & H4 & H5). split; [done|]. split; [|done]. rewrite H4.
  destruct H1 as (_ & _ & Hz). destruct (Hz H3) as [E1 E2]. unfold buffered at 2. rewrite H2, E1, E2. apply plus_no_load.
Qed.

Lemma start_chunk_spec discard p now : producer_ok discard p ->
  producer_ok discard (start_chunk p now) /\ buffered (start_chunk p now) = buffered p /\
  (start_chunk p now).(p_flows) = p.(p_flows) /\ (start_chunk p now).(p_raw_records) = p.(p_raw_records) /\
  (start_chunk p now).(Pipeline.discard) = p.(Pipeline.discard).
Proof. intros Hp. unfold start_chunk. by destruct (_ && _). Qed.

Lemma run_op_spec discard p op started ended : producer_ok discard p ->
  let '(p', sent) := run_op p op started ended in
  producer_ok discard p' /\ plus (total chunk_load sent) (buffered p') = plus (buffered p) (op_load discard op) /\ (length sent <= 2)%nat.
Proof.
  intros Hp. destruct (start_chunk_spec discard p started Hp) as ((Hd & Hr & Hz) & Hb & Hf & Hrec & Hdis).
  destruct op as [flows|json flows|]; cbn [run_op].
  - unfold push. set (p1 := mkProducer _ _ _ _ _ _). pose proof (send_if_ready_spec discard p1 (zlen (p_flows (start_chunk p started) ++ flows)) ended) as H.
    destruct (send_if_ready _ _ _) as [p' sent]. destruct H as (H1 & H2 & H3); [by split_and!|]. split_and!; [done| |done]. rewrite H2.
    unfold p1, buffered in *. cbn in *. injection Hb as -> -> ->. unfold plus. cbn. by rewrite app_nil_r, Z.add_0_r.
  - unfold push_raw. set (raw := if Pipeline.discard (start_chunk p started) then p_raw (start_chunk p started) else _). set (p1 := mkProducer _ _ _ _ _ _).
    pose proof (send_if_ready_spec discard p1 p1.(p_raw_records) ended) as H.
    destruct (send_if_ready _ _ _) as [p' sent]. destruct H as (H1 & H2 & H3); [split_and!; cbn; [done|lia|lia]|].
    split_and!; [done| |done]. rewrite H2. unfold p1, buffered in *. cbn in *. injection Hb as Eb1 Eb2 Eb3. rewrite Eb3, Eb1.
    unfold plus. cbn. rewrite app_nil_r. f_equal. f_equal. unfold raw. rewrite Hd, Eb2. destruct discard; [by rewrite app_nil_r|done].
  - pose proof (producer_flush_spec discard p Hp) as H. destruct (producer_flush p) as [p' sent]. destruct H as (H1 & H2 & H3 & H4 & H5).
    split_and!; [done| |done]. rewrite H4. destruct H1 as (_ & _ & Hz'). destruct (Hz' H3) as [E1 E2].
    unfold buffered at 2. rewrite H2, E1, E2. cbn [op_load]. by rewrite !plus_no_load.
Qed.

(** ** The encoder *)

Definition flows_counted (s : Sys) : Z := s.(Encoder.metrics).(m_flows).

Lemma through_flows wr s s' : through wr s s' -> flows_counted s' = flows_counted s.
Proof. intros (_ & _ & _ & n & _ & E). unfold flows_counted. by rewrite E. Qed.

Lemma close_flows win hooked s : flows_counted (close win hooked s).1.1 = flows_counted s.
Proof.
  unfold close. pose proof (finish_law s win.(Sink.encoder)) as Hf. destruct (finish s win.(Sink.encoder)) as [[s1 e1] finished].
  destruct Hf as [Hf _]. apply through_flows in Hf. destruct (match win.(pending) with Some _ => _ | None => _ end) as [w committed].
  pose proof (through_flows _ _ _ (drop_law (on_fs s1 w) e1)) as Hd.
  assert (E : flows_counted (on_fs s1 w) = flows_counted s1) by done. destruct finished, committed; cbn [fst]; congruence.
Qed.

Lemma open_window_flows self s now s' r : open_window pid self s now = Some (s', r) -> flows_counted s' = flows_counted s.
Proof.
  unfold open_window. intros ([w opened] & _ & H)%bind_Some. destruct opened as [[wr pending rotate]|e]; [|by injection H as <- _].
  pose proof (open_law self.(serialization) (on_fs s w) wr self.(enriched_fields)) as [Hth _].
  destruct (serialization_open _ _ _ _) as [s2 [enc|e]]; cbn [fst] in Hth; apply through_flows in Hth; injection H as <- _.
  - change (flows_counted (on_fs s w)) with (flows_counted s) in Hth. rewrite <- Hth. by destruct pending.
  - change (flows_counted (on_fs s w)) with (flows_counted s) in Hth. rewrite <- Hth. by destruct pending.
Qed.

Lemma with_window_flows self s now call s' self' r :
  (forall s e, let '(s', e', _) := call s e in through (enc_writer e) s s' /\ enc_writer e' = enc_writer e) ->
  with_window pid self s now call = Some (s', self', r) -> flows_counted s' = flows_counted s.
Proof.
  intros Hcall. unfold with_window, window. intros ([s1 opened] & E & H)%bind_Some.
  assert (E1 : flows_counted s1 = flows_counted s)
    by (destruct self.(current); [by injection E as <- _|by eapply open_window_flows]).
  destruct opened as [win|e]; [|by injection H as <- _ _]. pose proof (Hcall s1 win.(Sink.encoder)) as Hc.
  destruct (call s1 win.(Sink.encoder)) as [[s2 e2] r2]. destruct Hc as [Hc _]. apply through_flows in Hc. injection H as <- _ _. congruence.
Qed.

Lemma rotate_flows self s now : flows_counted (rotate_if_due self s now).1.1.1 = flows_counted s.
Proof.
  unfold rotate_if_due. destruct (self.(current) ≫= rotate_at) as [at_|]; [|done]. destruct (_ <? at_); [done|].
  destruct self.(current) as [win|]; [|done]. cbn zeta. pose proof (close_flows win (with_current self None).(hook) s) as H.
  destruct (close win _ s) as [[s' jobs] [[]|e]]; exact H.
Qed.

Lemma sink_flush_flows self s : flows_counted (sink_flush self s).1.1 = flows_counted s.
Proof.
  unfold sink_flush. destruct self.(current) as [win|]; [|done]. pose proof (flush_law s win.(Sink.encoder)) as H.
  destruct (flush s win.(Sink.encoder)) as [[s2 e2] r2]. destruct H as [H _]. by apply through_flows in H.
Qed.

Lemma errors_write_flows errors m r : (errors_write errors m r).1.2.(m_flows) = m.(m_flows).
Proof. unfold errors_write. by destruct (observe _ _ r) as [[? ?] ?]. Qed.

Lemma errors_flush_flows errors m r : (errors_flush errors m r).1.2.(m_flows) = m.(m_flows).
Proof. unfold errors_flush. by destruct (observe _ _ r) as [[? ?] ?]. Qed.

Lemma errors_rotate_flows errors m r : (errors_rotate errors m r).1.2.(m_flows) = m.(m_flows).
Proof. unfold errors_rotate. destruct r as [[]|e]; [|done|]; by destruct (observe _ _ _) as [[? ?] ?]. Qed.

Lemma noted_sys st sys sink jobs errors :
  (noted st sys sink jobs errors).(e_sys).(fs) = sys.(fs) /\ (noted st sys sink jobs errors).(e_sink) = sink /\
  (noted st sys sink jobs errors).(e_enriched) = st.(e_enriched) /\ (noted st sys sink jobs errors).(e_jobs) = st.(e_jobs) ++ jobs /\
  flows_counted (noted st sys sink jobs errors).(e_sys) = errors.1.2.(m_flows).
Proof. by destruct errors as [[errors m] log]. Qed.

Context (layout : Layout) (interval : Z).
Hypothesis Hnames : names_ok layout.
Hypothesis Hinterval : 0 < interval < 2 ^ 62.
Hypothesis Henrich : forall flow out, length out = length enrichment.(output_fields) ->
  exists out', enrich enrichment flow out = Some out' /\ length out' = length enrichment.(output_fields).

Definition encoder_inv (e : EncoderState) : Prop :=
  sink_ok pid layout interval e.(e_sys).(fs) e.(e_sink) /\ length e.(e_enriched) = length enrichment.(output_fields) /\
  Forall (job_ok layout e.(e_sys).(fs)) e.(e_jobs).

(** The encoder goes on: files are kept and [n] more flows counted. *)
Definition advances (e e' : EncoderState) (n : Z) : Prop :=
  keeps pid layout e.(e_sys).(fs) e'.(e_sys).(fs) /\ encoder_inv e' /\
  flows_counted e'.(e_sys) = flows_counted e.(e_sys) + n.

Lemma advances_trans e1 e2 e3 n m : advances e1 e2 n -> advances e2 e3 m -> advances e1 e3 (n + m).
Proof. intros (H1 & _ & H2) (K1 & K2 & K3). split_and!; [by eapply keeps_but_trans|done|lia]. Qed.

Lemma advances_noted e sys sink jobs errors : encoder_inv e -> keeps pid layout e.(e_sys).(fs) sys.(fs) ->
  sink_ok pid layout interval sys.(fs) sink -> Forall (job_ok layout sys.(fs)) jobs ->
  flows_counted sys = flows_counted e.(e_sys) -> errors.1.2.(m_flows) = flows_counted sys ->
  advances e (noted e sys sink jobs errors) 0.
Proof.
  intros (_ & Hl & Hj) Hk Hs Hj' Hf He. destruct (noted_sys e sys sink jobs errors) as (E1 & E2 & E3 & E4 & E5).
  split_and!; [by rewrite E1| |by rewrite E5, He, Hf, Z.add_0_r]. unfold encoder_inv. rewrite E1, E2, E3, E4.
  split_and!; [done|done|]. apply Forall_app. split; [|done]. eapply Forall_impl; [exact Hj|]. intros job. by eapply job_kept.
Qed.

Lemma encoder_rotate_ok e now : encoder_inv e -> time_ok now -> advances e (encoder_rotate e now) 0.
Proof.
  intros He Hn. destruct (SinkFacts.step_ok pid layout interval Hnames Hinterval e.(e_sys) e.(e_sink) (Rotate now)) as (s' & self' & jobs & E & Hk & Hs & Hj);
    [apply He|done|]. cbn [SinkFacts.step] in E. unfold encoder_rotate. pose proof (rotate_flows e.(e_sink) e.(e_sys) now) as Hf.
  destruct (rotate_if_due _ _ _) as [[[s1 self1] jobs1] r]. cbn [fst] in Hf. injection E as -> -> ->.
  apply advances_noted; [done..|apply errors_rotate_flows].
Qed.

Lemma encoder_flush_ok e : encoder_inv e -> advances e (encoder_flush e) 0.
Proof.
  intros He. destruct (SinkFacts.step_ok pid layout interval Hnames Hinterval e.(e_sys) e.(e_sink) SinkFacts.Flush) as (s' & self' & jobs & E & Hk & Hs & Hj);
    [apply He|done|]. cbn [SinkFacts.step] in E. unfold encoder_flush. pose proof (sink_flush_flows e.(e_sink) e.(e_sys)) as Hf.
  destruct (sink_flush _ _) as [[s1 self1] r]. cbn [fst] in Hf. injection E as -> -> <-.
  apply advances_noted; [done..|apply errors_flush_flows].
Qed.

Lemma encoder_write_ok e flow now : encoder_inv e -> time_ok now ->
  exists e', encoder_write pid enrichment e flow now = Some e' /\ advances e e' 0.
Proof.
  intros He Hn. pose proof He as (Hs & Hl & Hj). unfold encoder_write. destruct (Henrich flow e.(e_enriched) Hl) as (out & -> & Ho). cbn [mbind option_bind].
  destruct (with_window_ok pid layout interval Hnames Hinterval e.(e_sink) e.(e_sys) now (fun s e => encode s e flow out)) as (s' & self' & r & E & Hk & Hok);
    [intros; apply encode_law|done|done|].
  pose proof (with_window_flows _ _ _ _ _ _ _ ltac:(intros; apply encode_law) E) as Hf.
  unfold write. rewrite E. cbn [mbind option_bind]. eexists. split; [done|].
  set (e1 := mkEncoderState s' self' _ _ out _ _). assert (H1 : advances e e1 0).
  { split_and!; [done| |by rewrite Z.add_0_r]. split_and!; [done|done|]. eapply Forall_impl; [exact Hj|]. intros job. by eapply job_kept. }
  change 0 with (0 + 0). eapply advances_trans; [exact H1|]. apply advances_noted; [apply H1|apply keeps_but_refl|done|constructor|done|apply errors_write_flows].
Qed.

Lemma encoder_writes_ok flows : forall e now, encoder_inv e -> (forall k, time_ok (now k)) ->
  exists e', encoder_writes pid enrichment e flows now = Some e' /\ advances e e' 0.
Proof.
  induction flows as [|flow flows IH]; intros e now He Hn; cbn [encoder_writes].
  - exists e. split; [done|]. split_and!; [apply keeps_but_refl|apply He..|lia].
  - destruct (encoder_write_ok e flow (now 0%nat) He (Hn 0%nat)) as (e1 & -> & H1). cbn [mbind option_bind].
    destruct (IH e1 (fun k => now (S k))) as (e2 & -> & H2); [apply H1|intros k; apply Hn|]. exists e2. split; [done|].
    change 0 with (0 + 0). by eapply advances_trans.
Qed.

Lemma encoder_write_raw_ok e lines now : encoder_inv e -> time_ok now ->
  exists e', encoder_write_raw pid e lines now = Some e' /\ advances e e' 0.
Proof.
  intros He Hn. unfold encoder_write_raw.
  destruct (with_window_ok pid layout interval Hnames Hinterval e.(e_sink) e.(e_sys) now (fun s e => write_raw s e lines)) as (s' & self' & r & E & Hk & Hok);
    [intros; apply write_raw_law|apply He|done|].
  pose proof (with_window_flows _ _ _ _ _ _ _ ltac:(intros; apply write_raw_law) E) as Hf.
  unfold sink_write_raw. rewrite E. cbn [mbind option_bind]. eexists. split; [done|].
  apply advances_noted; [done|done|done|constructor|done|apply errors_write_flows].
Qed.

Lemma count_flows_ok e n : encoder_inv e -> advances e (count_flows e n) n.
Proof. intros He. split_and!; [apply keeps_but_refl|apply He..|done]. Qed.

(** A chunk is handled without panicking, and its flows are counted. *)
Lemma encoder_chunk_ok e chunk now : encoder_inv e -> (forall k, time_ok (now k)) ->
  exists e', encoder_chunk pid enrichment e chunk now = Some e' /\ advances e e' (chunk_count chunk).
Proof.
  intros He Hn. unfold encoder_chunk. pose proof (encoder_rotate_ok e (now 0%nat) He (Hn 0%nat)) as H1.
  set (e1 := encoder_rotate e (now 0%nat)) in *. destruct chunk as [flows|lines flows]; cbn [chunk_count].
  - destruct (encoder_writes_ok flows e1 (fun k => now (S k))) as (e2 & -> & H2); [apply H1|intros k; apply Hn|]. cbn [mbind option_bind].
    eexists. split; [done|]. change (zlen flows) with (0 + (0 + zlen flows)).
    eapply advances_trans; [exact H1|]. eapply advances_trans; [exact H2|]. apply count_flows_ok, H2.
  - destruct (encoder_write_raw_ok e1 lines (now 1%nat)) as (e2 & -> & H2); [apply H1|apply Hn|]. cbn [mbind option_bind].
    eexists. split; [done|]. change flows with (0 + (0 + flows)).
    eapply advances_trans; [exact H1|]. eapply advances_trans; [exact H2|]. apply count_flows_ok, H2.
Qed.

Lemma encoder_tick_ok e instant now : encoder_inv e -> time_ok now -> advances e (encoder_tick e instant now) 0.
Proof.
  intros He Hn. unfold encoder_tick. destruct (due e.(e_timer) instant) as [timer fired]. set (e1 := mkEncoderState _ _ _ timer _ _ _).
  assert (H1 : advances e e1 0) by (split_and!; [apply keeps_but_refl|apply He..|cbn; lia]).
  destruct fired; [|done]. change 0 with (0 + (0 + 0)). eapply advances_trans; [exact H1|].
  pose proof (encoder_rotate_ok e1 now ltac:(apply H1) Hn) as H2. eapply advances_trans; [exact H2|]. apply encoder_flush_ok, H2.
Qed.
End run.
