(* ===== verification/PipelineFacts.v ===== *)
(** Every interleaving of the ingest threads and the encoder delivers what the
    producers were given, once and in order, and comes to its end. *)

From Stdlib Require Import ZArith Lia Strings.Byte.
From stdpp Require Import base tactics numbers list gmap relations.
From S2P Require Import Prelude Std Text Crates Calendar CommonFlow Layout LayoutFacts Storage Destination DestinationFacts SinkConfig SinkWindows Encoder Sink SinkFacts EnrichTables EnrichConfig EnrichEngine EnrichFacts EnrichEngineFacts Pipeline PipelineRun.
#[local] Open Scope Z_scope.

Section facts.
Context `{CL : Calendar} `{ST : Storage} `{EN : !Encoders}.
Context (pid : Z) (enrichment : EnrichmentEngine) (layout : Layout) (interval : Z).
Context (discard : bool) (ops : list (list Op)) (sys0 : Sys).

(** The chunks of a thread. *)
Definition sent_by (i : nat) (l : list (nat * Chunk)) : list Chunk := (filter (fun c => c.1 = i) l).*2.

Lemma sent_by_app i l k : sent_by i (l ++ k) = sent_by i l ++ sent_by i k.
Proof. unfold sent_by. by rewrite filter_app, fmap_app. Qed.

Lemma sent_by_own i c : sent_by i [(i, c)] = [c].
Proof. unfold sent_by. rewrite filter_cons, filter_nil. by rewrite decide_True. Qed.

Lemma sent_by_other i j c : i <> j -> sent_by j [(i, c)] = [].
Proof. intros H. unfold sent_by. rewrite filter_cons, filter_nil. by rewrite decide_False. Qed.

(** Between the operations done and the encoder: taken, in the channel, and to
    be sent. *)
Definition on_the_way (st : State) (i : nat) (t : Thread) : list Chunk :=
  sent_by i (st.(taken) ++ st.(channel)) ++ t.(outbox).

Definition thread_ok (st : State) (i : nat) (given : list Op) (t : Thread) : Prop :=
  producer_ok discard t.(prod) /\
  (t.(held) = false -> t.(todo) = [] /\ t.(prod).(p_flows) = [] /\ t.(prod).(p_raw_records) = 0) /\
  exists done, given = done ++ t.(todo) /\
    plus (total chunk_load (on_the_way st i t)) (buffered t.(prod)) = total (op_load discard) done.

Definition counted (st : State) : Z := zsum chunk_count st.(taken).*2.

Definition encoder_ok (st : State) : Prop :=
  match st.(encoder) with
  | Encoding e => encoder_inv pid enrichment layout interval e /\ keeps pid layout sys0.(fs) e.(e_sys).(fs) /\
      flows_counted e.(e_sys) = flows_counted sys0 + counted st
  | Finished e _ => keeps pid layout sys0.(fs) e.(e_sys).(fs) /\ Forall (job_ok layout e.(e_sys).(fs)) e.(e_jobs) /\
      flows_counted e.(e_sys) = flows_counted sys0 + counted st /\ st.(channel) = [] /\ Forall gone st.(threads)
  | Panicked => False
  end.

Definition state_ok (st : State) : Prop :=
  Forall (fun c => c.1 < length ops)%nat (st.(taken) ++ st.(channel)) /\
  length st.(threads) = length ops /\
  (forall i given t, ops !! i = Some given -> st.(threads) !! i = Some t -> thread_ok st i given t) /\
  encoder_ok st.

(** ** Threads *)

(** A thread's operation, or its end, sends what was buffered. *)
Lemma thread_sends st i given t t' more : thread_ok st i given t -> t.(outbox) = [] -> t.(todo) = more ++ t'.(todo) ->
  producer_ok discard t'.(prod) ->
  plus (total chunk_load t'.(outbox)) (buffered t'.(prod)) = plus (buffered t.(prod)) (total (op_load discard) more) ->
  (t'.(held) = false -> t'.(todo) = [] /\ t'.(prod).(p_flows) = [] /\ t'.(prod).(p_raw_records) = 0) ->
  thread_ok (set_thread st i t') i given t'.
Proof.
  intros (_ & _ & done & E & Ht) Ho Et Hp Hb Hg. split_and!; [done|done|]. exists (done ++ more). rewrite <- app_assoc, <- Et. split; [done|].
  unfold on_the_way in *. rewrite Ho, app_nil_r in Ht. cbn [taken channel set_thread].
  rewrite !loads_app, <- plus_assoc, Hb, plus_assoc, Ht. done.
Qed.

Lemma thread_elsewhere st i j given t t' : i <> j -> thread_ok st j given t -> thread_ok (set_thread st i t') j given t.
Proof. done. Qed.

Lemma set_thread_ok st i t' t given : state_ok st -> st.(threads) !! i = Some t -> ops !! i = Some given ->
  ~ gone t -> thread_ok (set_thread st i t') i given t' -> state_ok (set_thread st i t').
Proof.
  intros (Htag & Hlen & Hth & He) Hi Hg Hgone Ht'. split_and!; [done|cbn; by rewrite length_insert| |].
  - intros j given' u Hj Hu. cbn [threads set_thread] in Hu. destruct (decide (i = j)) as [<-|Hij].
    + rewrite list_lookup_insert_eq in Hu by (by eapply lookup_lt_Some). by simplify_eq.
    + rewrite list_lookup_insert_ne in Hu by done. by apply (Hth j).
  - unfold encoder_ok in *. cbn [encoder set_thread channel threads]. destruct st.(encoder) as [e|e r|]; [done| |done].
    destruct He as (_ & _ & _ & _ & Hall). exfalso. rewrite Forall_lookup in Hall. by apply Hgone, (Hall i).
Qed.

Lemma ops_of st i t : state_ok st -> st.(threads) !! i = Some t -> exists given, ops !! i = Some given /\ thread_ok st i given t.
Proof.
  intros (_ & Hlen & Hth & _) Hi. destruct (lookup_lt_is_Some_2 ops i) as [given Hg]; [rewrite <- Hlen; by eapply lookup_lt_Some|].
  exists given. split; [done|]. by apply Hth.
Qed.

Hypothesis Hnames : names_ok layout.
Hypothesis Hinterval : 0 < interval < 2 ^ 62.
Hypothesis Henrich : forall flow out, length out = length enrichment.(output_fields) ->
  exists out', enrich enrichment flow out = Some out' /\ length out' = length enrichment.(output_fields).

Lemma finish_ok e e' r : encoder_inv pid enrichment layout interval e -> encoder_finish e = (e', r) ->
  keeps pid layout e.(e_sys).(fs) e'.(e_sys).(fs) /\ Forall (job_ok layout e'.(e_sys).(fs)) e'.(e_jobs) /\
  flows_counted e'.(e_sys) = flows_counted e.(e_sys).
Proof.
  intros ((_ & Hw) & _ & Hj). unfold encoder_finish, sink_finish. destruct e.(e_sink).(current) as [win|].
  - pose proof (close_flows win e.(e_sink).(hook) e.(e_sys)) as Hf. destruct (close win _ _) as [[s' jobs] r'] eqn:Ec. intros [= <- _].
    destruct (close_ok pid layout Hnames win _ _ _ _ _ (Hw win eq_refl) Ec) as [Hk Hjobs]. cbn in *. split_and!; [done| |done].
    apply Forall_app. split; [|done]. eapply Forall_impl; [exact Hj|]. intros job. by eapply job_kept.
  - intros [= <- _]. cbn. rewrite app_nil_r. by split_and!; [apply keeps_but_refl|..].
Qed.

Lemma act_ok st st' : state_ok st -> act pid enrichment st st' -> state_ok st'.
Proof.
  intros Hst Hact. destruct Hact as [i t op rest started ended prod' sent st Hi Htodo Hout Hheld Hrun
    |i t prod' sent st Hi Htodo Hout Hheld Hflush|i t chunk chunks st e Hi Hout He Hroom|i t st Hi Hout He
    |i chunk chunks st e e' now instant later He Hch Hnow Hlater Hchunk|st e e' r He Hch Hgone Hfin].
  - destruct (ops_of st i t Hst Hi) as (given & Hg & Ht). pose proof (run_op_spec discard t.(prod) op started ended ltac:(apply Ht)) as H.
    rewrite Hrun in H. destruct H as (H1 & H2 & _). eapply set_thread_ok; [done|done|done|intros [? _]; congruence|].
    eapply (thread_sends st i given t (mkThread rest prod' sent true) [op]); [done|done|done|done| |done].
    cbn [outbox prod]. by rewrite H2, total_one.
  - destruct (ops_of st i t Hst Hi) as (given & Hg & Ht). pose proof (producer_flush_spec discard t.(prod) ltac:(apply Ht)) as H.
    rewrite Hflush in H. destruct H as (H1 & H2 & H3 & H4 & _). eapply set_thread_ok; [done|done|done|intros [? _]; congruence|].
    eapply (thread_sends st i given t (mkThread [] prod' sent false) []); [done|done|by rewrite Htodo|done| |done].
    cbn [outbox prod]. change (total (op_load discard) []) with no_load. rewrite H4, plus_no_load. destruct H1 as (_ & _ & Hz). destruct (Hz H3) as [E1 E2].
    unfold buffered at 2. rewrite H2, E1, E2. apply plus_no_load.
  - destruct Hst as (Htag & Hlen & Hth & Henc). split_and!; cbn [taken channel threads].
    + rewrite app_assoc, Forall_app. split; [done|]. constructor; [|done]. cbn. rewrite <- Hlen. by eapply lookup_lt_Some.
    + by rewrite length_insert.
    + intros j given u Hj Hu. unfold thread_ok, on_the_way. cbn [taken channel]. rewrite app_assoc, sent_by_app.
      destruct (decide (i = j)) as [<-|Hij].
      * rewrite list_lookup_insert_eq in Hu by (by eapply lookup_lt_Some). injection Hu as <-. cbn [todo prod outbox held].
        rewrite sent_by_own, <- app_assoc. destruct (Hth i given t Hj Hi) as (H1 & H2 & H3). unfold on_the_way in H3. by rewrite Hout in H3.
      * rewrite list_lookup_insert_ne in Hu by done. rewrite sent_by_other, app_nil_r by done. by apply (Hth j).
    + unfold encoder_ok in *. cbn [encoder]. rewrite He in *. exact Henc.
  - exfalso. destruct Hst as (_ & _ & _ & H). unfold encoder_ok in H. by rewrite He in H.
  - destruct Hst as (Htag & Hlen & Hth & Henc). unfold encoder_ok in Henc. rewrite He in Henc. destruct Henc as (Hinv & Hk & Hf).
    destruct (encoder_chunk_ok pid enrichment layout interval Hnames Hinterval Henrich e chunk now Hinv Hnow) as (e1 & E1 & H1).
    assert (e' = Some e1) as -> by congruence.
    assert (Hsame : st.(taken) ++ st.(channel) = (st.(taken) ++ [(i, chunk)]) ++ chunks) by by rewrite Hch, <- app_assoc.
    split_and!; cbn [taken channel threads]; [by rewrite <- Hsame|done| |].
    + intros j given u Hj Hu. unfold thread_ok, on_the_way. cbn [taken channel]. rewrite <- Hsame. by apply (Hth j).
    + unfold encoder_ok, counted. cbn [encoder taken].
      pose proof (encoder_tick_ok pid enrichment layout interval Hnames Hinterval e1 instant later ltac:(apply H1) Hlater) as H2.
      destruct (advances_trans _ _ _ _ _ _ _ _ _ H1 H2) as (K1 & K2 & K3). split_and!; [done|by eapply keeps_but_trans|].
      rewrite K3, Hf, fmap_app, zsum_app. cbn [fmap list_fmap zsum foldr snd]. unfold counted. lia.
  - destruct Hst as (Htag & Hlen & Hth & Henc). unfold encoder_ok in Henc. rewrite He in Henc. destruct Henc as (Hinv & Hk & Hf).
    destruct (finish_ok e e' r Hinv Hfin) as (H1 & H2 & H3). rewrite Hch in Htag.
    split_and!; cbn [taken channel threads]; [done|done| |].
    + intros j given u Hj Hu. unfold thread_ok, on_the_way. cbn [taken channel]. rewrite <- Hch. by apply (Hth j).
    + unfold encoder_ok, counted. cbn [encoder taken channel threads]. split_and!; [by eapply keeps_but_trans|done| |done|done].
      rewrite H3. exact Hf.
Qed.

Lemma idle_ok st st' : state_ok st -> idle st st' -> state_ok st'.
Proof.
  intros (Htag & Hlen & Hth & Henc) Hidle. destruct Hidle as [st e instant now He Hch Hnow].
  unfold encoder_ok in Henc. rewrite He in Henc. destruct Henc as (Hinv & Hk & Hf). rewrite Hch in Htag.
  split_and!; cbn [taken channel threads]; [done|done| |].
  - intros j given u Hj Hu. unfold thread_ok, on_the_way. cbn [taken channel]. rewrite <- Hch. by apply (Hth j).
  - unfold encoder_ok. cbn [encoder].
    destruct (encoder_tick_ok pid enrichment layout interval Hnames Hinterval e instant now Hinv Hnow) as (K1 & K2 & K3).
    split_and!; [done|by eapply keeps_but_trans|]. rewrite K3, Hf. unfold counted. cbn [taken]. lia.
Qed.

Lemma steps_ok st st' : state_ok st -> rtc (PipelineRun.step pid enrichment) st st' -> state_ok st'.
Proof. intros H. induction 1 as [|st st1 st' [Ha|Hi] _ IH]; [done|apply IH; by eapply act_ok|apply IH; by eapply idle_ok]. Qed.

Lemma initial_ok sink started : sink_ok pid layout interval sys0.(fs) sink ->
  state_ok (initial enrichment sys0 sink discard started ops).
Proof.
  intros Hs. split_and!; [constructor|cbn; by rewrite length_fmap| |].
  - intros i given t Hg Ht. cbn [threads initial] in Ht. rewrite list_lookup_fmap, Hg in Ht. injection Ht as <-.
    split_and!; [by split_and!|done|]. by exists [].
  - unfold encoder_ok. cbn [encoder initial]. split_and!; [|apply keeps_but_refl|by rewrite Z.add_0_r].
    split_and!; [done|cbn; by rewrite length_replicate|constructor].
Qed.

(** ** The end *)

Definition thread_weight (t : Thread) : Z := 5 * zlen t.(todo) + (if t.(held) then 5 else 0) + 2 * zlen t.(outbox).

(** What is left to do. *)
Definition measure (st : State) : Z :=
  zsum thread_weight st.(threads) + zlen st.(channel) + match st.(encoder) with Encoding _ => 1 | _ => 0 end.

Lemma thread_weight_nonneg t : 0 <= thread_weight t.
Proof. unfold thread_weight. pose proof (zlen_nonneg t.(todo)). pose proof (zlen_nonneg t.(outbox)). destruct t.(held); lia. Qed.

Lemma measure_nonneg st : 0 <= measure st.
Proof.
  unfold measure. pose proof (zsum_nonneg thread_weight st.(threads) thread_weight_nonneg). pose proof (zlen_nonneg st.(channel)).
  destruct st.(encoder); lia.
Qed.

Lemma zsum_insert {A} (f : A -> Z) l i x y : l !! i = Some x -> zsum f (<[i := y]> l) = zsum f l - f x + f y.
Proof.
  intros Hi. rewrite (insert_take_drop l i y) by (by eapply lookup_lt_Some). rewrite <- (take_drop_middle l i x Hi) at 3.
  rewrite !zsum_app, !zsum_cons. lia.
Qed.

Lemma act_decreases st st' : state_ok st -> act pid enrichment st st' -> measure st' < measure st.
Proof.
  intros Hst Hact. destruct Hact as [i t op rest started ended prod' sent st Hi Htodo Hout Hheld Hrun
    |i t prod' sent st Hi Htodo Hout Hheld Hflush|i t chunk chunks st e Hi Hout He Hroom|i t st Hi Hout He
    |i chunk chunks st e e' now instant later He Hch Hnow Hlater Hchunk|st e e' r He Hch Hgone Hfin];
    unfold measure; cbn [threads channel encoder set_thread]; try rewrite (zsum_insert _ _ _ _ _ Hi);
    set (z := zsum thread_weight st.(threads)); unfold thread_weight; cbn [todo outbox held].
  - destruct (ops_of st i t Hst Hi) as (given & Hg & Ht). pose proof (run_op_spec discard t.(prod) op started ended ltac:(apply Ht)) as H.
    rewrite Hrun in H. destruct H as (_ & _ & H). rewrite Htodo, Hout, Hheld. unfold zlen. cbn [length]. lia.
  - destruct (ops_of st i t Hst Hi) as (given & Hg & Ht). pose proof (producer_flush_spec discard t.(prod) ltac:(apply Ht)) as H.
    rewrite Hflush in H. destruct H as (_ & _ & _ & _ & H). rewrite Htodo, Hout, Hheld. unfold zlen. cbn [length]. lia.
  - rewrite Hout. unfold zlen. rewrite length_app. cbn [length]. lia.
  - destruct t.(outbox) as [|c l]; [done|]. unfold zlen. cbn [length]. destruct t.(held); lia.
  - rewrite He, Hch. unfold zlen. cbn [length]. destruct e'; lia.
  - rewrite He, Hch. lia.
Qed.

#[local] Instance gone_dec t : Decision (gone t).
Proof.
  unfold gone. destruct t.(held); [right; by intros [? _]|]. destruct t.(outbox); [by left|right; by intros [_ ?]].
Defined.

(** While the encoder is there, a thread or the encoder can go on. *)
Lemma act_possible st e now : time_ok now -> st.(encoder) = Encoding e -> exists st', act pid enrichment st st'.
Proof.
  intros Hnow He. destruct st.(channel) as [|[i chunk] chunks] eqn:Hch; [|eexists; by eapply (act_receive pid enrichment i chunk chunks st e _ (fun _ => now) 0 now)].
  destruct (decide (Forall gone st.(threads))) as [Hg|Hg].
  { destruct (encoder_finish e) as [e' r] eqn:Ef. eexists. by eapply act_close. }
  apply not_Forall_Exists in Hg; [|intros t; apply _]. apply Exists_exists in Hg as (t & Hin & Hg). apply list_elem_of_lookup_1 in Hin as [i Hi].
  destruct t.(outbox) as [|chunk chunks] eqn:Ho.
  - destruct t.(held) eqn:Hh; [|by destruct Hg]. destruct t.(todo) as [|op rest] eqn:Ht.
    + destruct (producer_flush t.(prod)) as [prod' sent] eqn:Ef. eexists. by eapply act_drop.
    + destruct (run_op t.(prod) op 0 0) as [prod' sent] eqn:Er. eexists. by eapply (act_op pid enrichment i t op rest 0 0).
  - eexists. eapply act_send; [done|done|done|]. rewrite Hch. done.
Qed.

Lemma pipeline_ends now : time_ok now -> forall n st, state_ok st -> measure st <= Z.of_nat n ->
  exists st' e r, rtc (act pid enrichment) st st' /\ st'.(encoder) = Finished e r.
Proof.
  intros Hnow n. induction n as [|n IH]; intros st Hst Hm; destruct st.(encoder) as [e|e r|] eqn:He.
  - pose proof (act_possible st e now Hnow He) as [st' Ha]. pose proof (act_decreases st st' Hst Ha). pose proof (measure_nonneg st'). lia.
  - by exists st, e, r.
  - destruct Hst as (_ & _ & _ & H). unfold encoder_ok in H. by rewrite He in H.
  - pose proof (act_possible st e now Hnow He) as [st1 Ha]. pose proof (act_decreases st st1 Hst Ha).
    destruct (IH st1) as (st' & e' & r & Hr & E); [by eapply act_ok|lia|]. exists st', e', r. split; [by eapply rtc_l|done].
  - by exists st, e, r.
  - destruct Hst as (_ & _ & _ & H). unfold encoder_ok in H. by rewrite He in H.
Qed.
End facts.

(** ** The pipeline of a collector *)

Section claims.
Context `{CL : Calendar} `{ST : Storage} `{EN : !Encoders} `{PT : PrefixTrie} `{IT : IpnetText}.
Context (parse_duration : bytes -> option Z) (absolute : bytes -> EnrichResult bytes).

(** An engine loaded from arguments enriches every flow. *)
Lemma loaded_enriches configs enrichment : Forall (configured parse_duration absolute) configs ->
  load_enrichment engine_new configs = Some (inl enrichment) ->
  forall flow out, length out = length enrichment.(output_fields) ->
  exists out', enrich enrichment flow out = Some out' /\ length out' = length enrichment.(output_fields).
Proof.
  intros Hc E flow out Ho. destruct (configured_loads parse_duration absolute configs Hc) as (r & E' & Hr).
  destruct (Hr enrichment ltac:(congruence)) as (loaded & _ & He & Hok). rewrite (engine_enrich flow out loaded) by done.
  eexists. split; [done|]. by rewrite length_fmap.
Qed.

(** A sink opened for a checked tree. *)
Lemma opened_sink_ok pid layout interval ser fields s now s' sink hooked : names_ok layout -> 0 < interval < 2 ^ 62 -> time_ok now ->
  open_at pid ser (Partitioned layout interval) fields s now = Some (s', inl sink) ->
  keeps pid layout s.(fs) s'.(fs) /\ sink_ok pid layout interval s'.(fs) (if hooked : bool then with_hook sink else sink).
Proof.
  intros Hn Hi Ht. unfold open_at.
  destruct (open_window_ok pid layout interval Hn Hi (mkSink ser (Partitioned layout interval) fields None false) s now)
    as (s1 & r & -> & Hk & Hr); [done|done|].
  cbn [mbind option_bind]. intros H. injection H as <- H. destruct r as [win|e]; [|done]. injection H as <-.
  split; [done|]. destruct hooked; (split; [done|by intros win' [= <-]]).
Qed.

(** The initial state of a pipeline over an opened sink is in order. *)
Lemma pipeline_starts pid layout interval ser fields s now s' sink hooked enrichment discard ops started :
  names_ok layout -> 0 < interval < 2 ^ 62 -> time_ok now ->
  open_at pid ser (Partitioned layout interval) fields s now = Some (s', inl sink) ->
  state_ok pid enrichment layout interval discard ops s'
    (initial enrichment s' (if hooked : bool then with_hook sink else sink) discard started ops).
Proof. intros Hn Hi Ht E. apply initial_ok. by eapply opened_sink_ok. Qed.

(** What a pipeline over an opened sink comes to. *)
Lemma pipeline_taken pid layout interval ser fields s now s' sink hooked configs enrichment discard ops started st :
  names_ok layout -> 0 < interval < 2 ^ 62 -> time_ok now ->
  open_at pid ser (Partitioned layout interval) fields s now = Some (s', inl sink) ->
  Forall (configured parse_duration absolute) configs -> load_enrichment engine_new configs = Some (inl enrichment) ->
  rtc (PipelineRun.step pid enrichment) (initial enrichment s' (if hooked : bool then with_hook sink else sink) discard started ops) st ->
  st.(encoder) <> Panicked /\
  (forall i given t, ops !! i = Some given -> st.(threads) !! i = Some t -> exists done, given = done ++ t.(todo) /\
    plus (total chunk_load (on_the_way st i t)) (buffered t.(prod)) = total (op_load discard) done) /\
  forall e r, st.(encoder) = Finished e r ->
    (forall i given, ops !! i = Some given -> total chunk_load (sent_by i st.(taken)) = total (op_load discard) given) /\
    flows_counted e.(e_sys) = flows_counted s' + counted st /\
    keeps pid layout s.(fs) e.(e_sys).(fs) /\ Forall (job_ok layout e.(e_sys).(fs)) e.(e_jobs).
Proof.
  intros Hn Hi Ht Eo Hc El Hr. destruct (opened_sink_ok _ _ _ _ _ _ _ _ _ hooked Hn Hi Ht Eo) as [Hk0 Hs].
  pose proof (steps_ok pid enrichment layout interval discard ops s' Hn Hi (loaded_enriches configs enrichment Hc El) _ st
    (initial_ok pid enrichment layout interval discard ops s' _ started Hs) Hr) as (Htag & Hlen & Hth & He).
  unfold encoder_ok in He. split; [by intros E; rewrite E in He|]. split.
  { intros i given t Hg Hit. apply (Hth i given t Hg Hit). }
  intros e r E. rewrite E in He. destruct He as (Hk & Hj & Hf & Hch & Hgone). split_and!; [|done|by eapply keeps_but_trans|done].
  intros i given Hg. destruct (lookup_lt_is_Some_2 st.(threads) i) as [t Hit]; [rewrite Hlen; by eapply lookup_lt_Some|].
  destruct (Hth i given t Hg Hit) as ((_ & _ & Hz) & Hheld & done & Ed & Hl). rewrite Forall_lookup in Hgone.
  destruct (Hgone i t Hit) as [Hh Ho]. destruct (Hheld Hh) as (Et & Ef & Er). destruct (Hz Er) as [E1 E2].
  rewrite Et, app_nil_r in Ed. subst done. rewrite <- Hl. unfold on_the_way, buffered.
  rewrite Hch, Ho, !app_nil_r, Ef, E1, E2. symmetry. apply plus_no_load.
Qed.

(** C17: However the threads and the encoder interleave, the encoder never panics,
    and at every moment what a thread has given its producer is, in order,
    what the encoder has taken, what is in the channel, and what the producer
    still holds.  When the output is finished, the encoder has taken all that
    every thread was to give, once and in order; the flow counter has grown by
    just that; files that were there are kept; and every file handed to the
    completion hook has a name of its window. *)
Theorem pipeline_delivers pid layout interval ser fields s now s' sink hooked configs enrichment discard ops started st :
  names_ok layout -> 0 < interval < 2 ^ 62 -> time_ok now ->
  open_at pid ser (Partitioned layout interval) fields s now = Some (s', inl sink) ->
  Forall (configured parse_duration absolute) configs -> load_enrichment engine_new configs = Some (inl enrichment) ->
  rtc (PipelineRun.step pid enrichment) (initial enrichment s' (if hooked : bool then with_hook sink else sink) discard started ops) st ->
  st.(encoder) <> Panicked /\
  (forall i given t, ops !! i = Some given -> st.(threads) !! i = Some t -> exists done, given = done ++ t.(todo) /\
    plus (total chunk_load (on_the_way st i t)) (buffered t.(prod)) = total (op_load discard) done) /\
  forall e r, st.(encoder) = Finished e r ->
    (forall i given, ops !! i = Some given -> total chunk_load (sent_by i st.(taken)) = total (op_load discard) given) /\
    flows_counted e.(e_sys) = flows_counted s' + counted st /\
    keeps pid layout s.(fs) e.(e_sys).(fs) /\ Forall (job_ok layout e.(e_sys).(fs)) e.(e_jobs).
Proof. exact (pipeline_taken pid layout interval ser fields s now s' sink hooked configs enrichment discard ops started st). Qed.

(** C18: The pipeline cannot get stuck: from wherever it has come to, steps of the
    threads and the encoder lead to a finished output.  Every such step leaves
    less to do, so that only waiting for nothing could go on for ever. *)
Theorem pipeline_finishes pid layout interval ser fields s now s' sink hooked configs enrichment discard ops started st :
  names_ok layout -> 0 < interval < 2 ^ 62 -> time_ok now ->
  open_at pid ser (Partitioned layout interval) fields s now = Some (s', inl sink) ->
  Forall (configured parse_duration absolute) configs -> load_enrichment engine_new configs = Some (inl enrichment) ->
  rtc (PipelineRun.step pid enrichment) (initial enrichment s' (if hooked : bool then with_hook sink else sink) discard started ops) st ->
  (exists st' e r, rtc (act pid enrichment) st st' /\ st'.(encoder) = Finished e r) /\
  (forall e, st.(encoder) = Encoding e -> exists st', act pid enrichment st st') /\
  0 <= measure st /\ forall st', act pid enrichment st st' -> measure st' < measure st.
Proof.
  intros Hn Hi Ht Eo Hc El Hr. pose proof (loaded_enriches configs enrichment Hc El) as Hen.
  pose proof (pipeline_starts pid layout interval ser fields s now s' sink hooked enrichment discard ops started Hn Hi Ht Eo) as H0.
  pose proof (steps_ok pid enrichment layout interval discard ops s' Hn Hi Hen _ st H0 Hr) as Hst. split_and!.
  - apply (pipeline_ends pid enrichment layout interval discard ops s' Hn Hi Hen now Ht (Z.to_nat (measure st)) st Hst).
    pose proof (measure_nonneg st). lia.
  - intros e He. by eapply act_possible.
  - apply measure_nonneg.
  - intros st' Ha. by eapply act_decreases.
Qed.
End claims.

(** ** The flush timer *)

(** The polls of a timer in turn: how often it fired. *)
Fixpoint polls (timer : FlushTimer) (instants : list Z) : FlushTimer * Z :=
  match instants with
  | [] => (timer, 0)
  | now :: instants =>
      let '(timer, fired) := due timer now in
      let '(timer, n) := polls timer instants in (timer, (if fired : bool then 1 else 0) + n)
  end.

Lemma polls_spec start final instants : forall timer fires, 0 < timer.(t_interval) ->
  start + timer.(t_interval) * (fires + 1) <= timer.(next) -> timer.(next) <= final + timer.(t_interval) ->
  Forall (fun now => now <= final) instants ->
  let '(timer', n) := polls timer instants in
  timer'.(t_interval) = timer.(t_interval) /\ start + timer.(t_interval) * (fires + n + 1) <= timer'.(next) /\
  timer'.(next) <= final + timer.(t_interval).
Proof.
  induction instants as [|now instants IH]; intros timer fires Hi Hlow Hhigh Hs; cbn [polls].
  { split_and!; [done|by rewrite Z.add_0_r|done]. }
  apply Forall_cons in Hs as [Hnow Hs]. unfold due. destruct (Z.ltb_spec now timer.(next)) as [Hn|Hn].
  - specialize (IH timer fires Hi Hlow Hhigh Hs). by destruct (polls timer instants) as [timer' n].
  - cbn zeta. set (timer1 := mkTimer (if now <? timer.(next) + timer.(t_interval) then _ else _) _).
    specialize (IH timer1 (fires + 1)). destruct (polls timer1 instants) as [timer' n].
    destruct IH as (H1 & H2 & H3); [done| | |done|].
    + cbn. destruct (Z.ltb_spec now (timer.(next) + timer.(t_interval))); lia.
    + cbn. destruct (Z.ltb_spec now (timer.(next) + timer.(t_interval))); lia.
    + cbn in H1, H2, H3. split_and!; [done|lia|done].
Qed.

(** Instants in order, none an interval or more after the one before. *)
Fixpoint steady (interval last : Z) (instants : list Z) : Prop :=
  match instants with
  | [] => True
  | now :: instants => last <= now < last + interval /\ steady interval now instants
  end.

Lemma steady_polls start instants : forall timer fires now, 0 < timer.(t_interval) ->
  timer.(next) = start + timer.(t_interval) * (fires + 1) ->
  timer.(next) - timer.(t_interval) <= now < timer.(next) -> steady timer.(t_interval) now instants ->
  fires + (polls timer instants).2 = (default now (last instants) - start) / timer.(t_interval).
Proof.
  induction instants as [|now' instants IH]; intros timer fires now Hi Hn Hnow Hs.
  { cbn. apply Z.div_unique with (now - start - timer.(t_interval) * fires); lia. }
  destruct Hs as [Hnow' Hs]. cbn [polls]. unfold due.
  assert (El : default now (last (now' :: instants)) = default now' (last instants)) by (rewrite last_cons; by destruct (last instants)).
  rewrite El. destruct (Z.ltb_spec now' timer.(next)) as [Hb|Hb].
  - rewrite <- (IH timer fires now'); [by destruct (polls timer instants)|done|done|lia|done].
  - cbn zeta. rewrite (proj2 (Z.ltb_lt now' _)) by lia.
    set (timer1 := mkTimer _ _). specialize (IH timer1 (fires + 1) now').
    destruct (polls timer1 instants) as [timer' n]. cbn [snd t_interval next timer1] in *. rewrite <- IH; [lia|done|lia|lia|done].
Qed.

(** However often the flush timer is polled, it fires at most once per
    interval gone by, and just that often, without drift, when no interval
    passes between two polls; it does fire when its deadline is reached; and
    the next deadline is never more than an interval away, so that nothing
    stays buffered for longer while the encoder gets to poll. *)
Theorem flush_timer_cadence interval start final instants :
  0 < interval -> start <= final -> Forall (fun now => now <= final) instants ->
  let '(timer, n) := polls (FlushTimer_new interval start) instants in
  n * interval <= final - start /\ timer.(next) <= final + interval /\
  (forall now, (due timer now).2 = true <-> timer.(next) <= now) /\
  (steady interval start instants -> n = (default start (last instants) - start) / interval).
Proof.
  intros Hi Hf Hs. pose proof (polls_spec start final instants (FlushTimer_new interval start) 0 Hi) as H.
  pose proof (steady_polls start instants (FlushTimer_new interval start) 0 start Hi) as Hst.
  cbn [FlushTimer_new next t_interval] in H, Hst. specialize (H ltac:(lia) ltac:(lia) Hs). specialize (Hst ltac:(lia) ltac:(lia)).
  destruct (polls _ instants) as [timer n]. destruct H as (H1 & H2 & H3). split_and!; [nia|done| |done].
  intros now. unfold due. destruct (Z.ltb_spec now timer.(next)); cbn; split; [done|lia|lia|done].
Qed.

(** ** Errors of the sink *)

(** The result of an operation. *)
Inductive Outcome := Wrote (r : IoResult unit) | Flushed (r : IoResult unit) | Rotated (r : IoResult bool).

Definition note (st : SinkErrors * OutputMetrics * list LogLine) (o : Outcome) : SinkErrors * OutputMetrics * list LogLine :=
  let '(errors, m, log) := st in
  let '(errors, m, more) :=
    match o with
    | Wrote r => errors_write errors m r
    | Flushed r => errors_flush errors m r
    | Rotated r => errors_rotate errors m r
    end in
  (errors, m, log ++ more).

(** What came of an operation: no result when no rotation was due. *)
Definition result_of (what : Operation) (o : Outcome) : option (IoResult unit) :=
  match what, o with
  | Operation.OutputWrite, Wrote r | Operation.OutputFlush, Flushed r => Some r
  | Operation.OutputRotation, Rotated (inl true) => Some (inl tt)
  | Operation.OutputRotation, Rotated (inr e) => Some (inr e)
  | _, _ => None
  end.

Definition failed (r : IoResult unit) : bool := match r with inl _ => false | inr _ => true end.

(** The results whose outcome is not that of the one before. *)
Definition changes (what : Operation) (rs : list (IoResult unit)) : list LogLine :=
  omap (fun '(before, r) => match before, r with
    | false, inr e => Some (Failed what e)
    | true, inl _ => Some (Recovered what)
    | _, _ => None
    end) (zip (false :: (failed <$> rs)) rs).

Definition failures (rs : list (IoResult unit)) : Z := zlen (filter (fun r => failed r = true) rs).

Definition line_of (l : LogLine) : Operation := match l with Recovered what | Failed what _ => what end.

Definition failing_now (errors : SinkErrors) (what : Operation) : bool :=
  match what with
  | Operation.OutputWrite => errors.(write_failing)
  | Operation.OutputFlush => errors.(flush_failing)
  | Operation.OutputRotation => errors.(rotate_failing)
  end.

Definition last_failed (rs : list (IoResult unit)) : bool := default false (failed <$> last rs).

(** The outcome before each of [rs], [b] before the first. *)
Lemma zip_before_snoc b (rs : list (IoResult unit)) r :
  zip (b :: (failed <$> (rs ++ [r]))) (rs ++ [r]) = zip (b :: (failed <$> rs)) rs ++ [(default b (failed <$> last rs), r)].
Proof.
  revert b. induction rs as [|x rs IH]; intros b; [done|].
  cbn [fmap list_fmap app zip zip_with]. f_equal.
  etransitivity; [exact (IH (failed x))|]. rewrite (last_cons x rs). by destruct (last rs), rs.
Qed.

Lemma changes_snoc what rs r :
  changes what (rs ++ [r]) = changes what rs ++ (observe what (last_failed rs) r).1.2 /\
  failures (rs ++ [r]) = failures rs + (observe what (last_failed rs) r).2 /\
  last_failed (rs ++ [r]) = (observe what (last_failed rs) r).1.1.
Proof.
  unfold changes, failures, last_failed. rewrite filter_app, zlen_app, last_snoc, zip_before_snoc, omap_app.
  destruct r; cbn; destruct (default false _); done.
Qed.

Definition log_of (what : Operation) (log : list LogLine) : list LogLine := filter (fun l => line_of l = what) log.

(** What the errors come to after the outcomes [os]. *)
Definition errors_noted (os : list Outcome) (st : SinkErrors * OutputMetrics * list LogLine) (w r : Z) : Prop :=
  let '(errors, m, log) := st in
  let results what := omap (result_of what) os in
  (forall what, log_of what log = changes what (results what) /\ failing_now errors what = last_failed (results what)) /\
  m.(m_write_errors) = w + failures (results Operation.OutputWrite) + failures (results Operation.OutputFlush) /\
  m.(m_rotate_errors) = r + failures (results Operation.OutputRotation).

Lemma observe_lines what b r : Forall (fun l => line_of l = what) (observe what b r).1.2.
Proof. destruct r, b; by repeat constructor. Qed.

Lemma log_of_own what what' b r :
  log_of what (observe what' b r).1.2 = if decide (what' = what) then (observe what' b r).1.2 else [].
Proof.
  unfold log_of. destruct (decide (what' = what)) as [->|N].
  - pose proof (observe_lines what b r) as F. induction F as [|l ls E F IH]; [done|]. rewrite filter_cons_True by done. by f_equal.
  - pose proof (observe_lines what' b r) as F. induction F as [|l ls E F IH]; [done|].
    rewrite filter_cons_False by congruence. done.
Qed.

Lemma log_of_app what l1 l2 : log_of what (l1 ++ l2) = log_of what l1 ++ log_of what l2.
Proof. apply filter_app. Qed.

(** One more result of [op], when [errors'] takes from it what [observe] makes of it. *)
Lemma noted_lines os o op x errors errors' log :
  (forall what, log_of what log = changes what (omap (result_of what) os) /\
    failing_now errors what = last_failed (omap (result_of what) os)) ->
  (forall what, result_of what o = (if decide (op = what) then Some x else None)) ->
  (forall what, failing_now errors' what =
    (if decide (op = what) then (observe op (failing_now errors op) x).1.1 else failing_now errors what)) ->
  forall what, log_of what (log ++ (observe op (failing_now errors op) x).1.2) = changes what (omap (result_of what) (os ++ [o])) /\
    failing_now errors' what = last_failed (omap (result_of what) (os ++ [o])).
Proof.
  intros L R F what. destruct (L what) as [Ll Lf], (L op) as [_ Lo].
  rewrite log_of_app, log_of_own, omap_app, F. cbn [omap list_omap]. rewrite R, Ll.
  destruct (decide (op = what)) as [<-|N]; [|by rewrite !app_nil_r].
  rewrite Lo. by destruct (changes_snoc op (omap (result_of op) os) x) as (-> & _ & ->).
Qed.

Lemma noted_failures os o op x :
  (forall what, result_of what o = (if decide (op = what) then Some x else None)) ->
  forall b what, failures (omap (result_of what) (os ++ [o])) =
    failures (omap (result_of what) os) + (if decide (op = what) then (observe op b x).2 else 0).
Proof.
  intros R b what. rewrite omap_app. cbn [omap list_omap]. rewrite R. destruct (decide _) as [<-|N].
  - destruct (changes_snoc op (omap (result_of op) os) x) as (_ & -> & _). by destruct x, (last_failed _), b.
  - rewrite app_nil_r. lia.
Qed.

Lemma noted_snoc os st w r o : errors_noted os st w r -> errors_noted (os ++ [o]) (note st o) w r.
Proof.
  destruct st as [[errors m] log]. intros (L & W & R).
  assert (H : (forall what, result_of what o = None) /\ note (errors, m, log) o = (errors, m, log ++ []) \/
    exists op x, forall what, result_of what o = (if decide (op = what) then Some x else None)).
  { destruct o as [x|x|[[|]|x]]; [right; exists Operation.OutputWrite, x|right; exists Operation.OutputFlush, x|
      right; exists Operation.OutputRotation, (inl tt)|left; split; [|done]|right; exists Operation.OutputRotation, (inr x)];
      by intros []. }
  destruct H as [[N ->]|(op & x & E)].
  - assert (Z : forall what, omap (result_of what) (os ++ [o]) = omap (result_of what) os).
    { intros what. rewrite omap_app. cbn [omap list_omap]. by rewrite N, app_nil_r. }
    unfold errors_noted. rewrite app_nil_r, !Z. split; [|done]. intros what. by rewrite Z.
  - assert (V : exists errors' m', note (errors, m, log) o = (errors', m', log ++ (observe op (failing_now errors op) x).1.2) /\
      (forall what, failing_now errors' what =
        (if decide (op = what) then (observe op (failing_now errors op) x).1.1 else failing_now errors what)) /\
      m'.(m_write_errors) = m.(m_write_errors) + (if decide (op = Operation.OutputRotation) then 0 else (observe op (failing_now errors op) x).2) /\
      m'.(m_rotate_errors) = m.(m_rotate_errors) + (if decide (op = Operation.OutputRotation) then (observe op (failing_now errors op) x).2 else 0)).
    { pose proof (E op) as Eo. rewrite decide_True in Eo by done.
      destruct o as [y|y|[[|]|y]], op; try discriminate Eo; injection Eo as <-; unfold note, errors_write, errors_flush, errors_rotate; cbn [failing_now];
        destruct (observe _ _ _) as [[b ls] n]; eexists _, _; (split; [reflexivity|]); (split; [by intros []|]);
        rewrite ?decide_True, ?decide_False by done; cbn; lia. }
    destruct V as (errors' & m' & -> & F & W' & R'). cbn [errors_noted].
    split; [by apply (noted_lines os o op x errors errors' log)|].
    rewrite W', R', W, R, !(noted_failures os o op x E (failing_now errors op)). clear. destruct op; repeat case_decide; done || lia.
Qed.

Lemma noted_fold os m :
  errors_noted os (foldl note (SinkErrors_new, m, []) os) m.(m_write_errors) m.(m_rotate_errors).
Proof.
  induction os as [|o os IH] using rev_ind; [|rewrite foldl_snoc; by apply noted_snoc].
  cbn. split; [by intros []|]. change (failures []) with 0. lia.
Qed.

(** Whatever the operations of the sink return, in whatever order, what is
    logged about one kind of operation is exactly the changes of its outcome,
    starting from success, so a disk that stays broken gives one line and its
    recovery another; a failure of one kind is not ended by a success of
    another; and every failure is counted, those of writing and flushing
    together and those of rotation apart. *)
Theorem errors_logged_once os m :
  let '(errors, m', log) := foldl note (SinkErrors_new, m, []) os in
  let results what := omap (result_of what) os in
  (forall what, log_of what log = changes what (results what) /\ failing_now errors what = last_failed (results what)) /\
  m'.(m_write_errors) = m.(m_write_errors) + failures (results Operation.OutputWrite) + failures (results Operation.OutputFlush) /\
  m'.(m_rotate_errors) = m.(m_rotate_errors) + failures (results Operation.OutputRotation).
Proof.
  pose proof (noted_fold os m) as H. destruct (foldl _ _ _) as [[errors m'] log]. exact H.
Qed.

(** ** Samples

    A pipeline of two ingest threads over the sample tree. *)

From S2P Require Import Ndjson SinkSamples EnrichEngineFacts.
#[local] Open Scope Z_scope.

#[local] Existing Instance SinkSamples.sample_crates.
#[local] Existing Instance sample_calendar.
#[local] Existing Instance sample_storage.
#[local] Existing Instance sample_encoders.

(** One thread has two flows and then nothing; the other a packet with three. *)
Definition sample_ops : list (list Op) :=
  [[OpPush [sample_flow]; OpFlush; OpPush [default_flow]]; [OpPush [default_flow; sample_flow; sample_flow]]].

Lemma opened_of {A B E : Type} (o : option (A * (B + E))) :
  match o with Some (_, inl _) => true | _ => false end = true -> exists a b, o = Some (a, inl b).
Proof. destruct o as [[a [b|e]]|]; [|done..]. by exists a, b. Qed.

Lemma loaded_of {B E : Type} (o : option (B + E)) :
  match o with Some (inl _) => true | _ => false end = true -> exists b, o = Some (inl b).
Proof. destruct o as [[b|e]|]; [|done..]. by exists b. Qed.

Lemma sample_names_ok : names_ok sample_layout.
Proof. split; [exact sample_layout_ok|]. apply (bool_decide_unpack _). vm_compute. exact I. Qed.

Lemma noon_ok : time_ok noon.
Proof. split; [vm_compute; discriminate|exact noon_four_digits]. Qed.

Lemma sample_sink : exists s' sink,
  open_at 7 Serialization.Ndjson (Partitioned sample_layout 3600) [] sample_sys noon = Some (s', inl sink).
Proof. apply opened_of. vm_compute. reflexivity. Qed.

Lemma sample_engine : exists enrichment, load_enrichment engine_new sample_configs = Some (inl enrichment).
Proof. apply loaded_of. vm_compute. reflexivity. Qed.

Lemma hour_positive : 0 < 3600 < 2 ^ 62.
Proof. lia. Qed.

Lemma pipeline_delivers_witness : exists enrichment s' sink st e r,
  rtc (PipelineRun.step 7 enrichment) (initial enrichment s' (with_hook sink) false 0 sample_ops) st /\
  st.(encoder) = Finished e r /\
  total chunk_load (sent_by 0 st.(taken)) = ([sample_flow; default_flow], [], 0) /\
  total chunk_load (sent_by 1 st.(taken)) = ([default_flow; sample_flow; sample_flow], [], 0).
Proof.
  destruct sample_sink as (s' & sink & Eo). destruct sample_engine as (enrichment & El).
  pose proof (pipeline_starts 7 sample_layout 3600 Serialization.Ndjson [] sample_sys noon s' sink true enrichment false sample_ops 0
    sample_names_ok hour_positive noon_ok Eo) as H0.
  set (st0 := initial enrichment s' (with_hook sink) false 0 sample_ops) in *.
  destruct (pipeline_ends 7 enrichment sample_layout 3600 false sample_ops s' sample_names_ok hour_positive
    (loaded_enriches no_duration as_given sample_configs enrichment sample_configured El) noon noon_ok (Z.to_nat (measure st0)) st0 H0)
    as (st & e & r & Hr & E).
  { rewrite Z2Nat.id; [reflexivity|apply measure_nonneg]. }
  assert (Hr' : rtc (PipelineRun.step 7 enrichment) st0 st) by (eapply rtc_subrel; [|exact Hr]; intros x y H; left; exact H).
  destruct (pipeline_delivers no_duration as_given 7 sample_layout 3600 Serialization.Ndjson [] sample_sys noon s' sink true sample_configs
    enrichment false sample_ops 0 st sample_names_ok hour_positive noon_ok Eo sample_configured El Hr') as (_ & _ & H).
  destruct (H e r E) as (Hd & _). exists enrichment, s', sink, st, e, r.
  exact (conj Hr' (conj E (conj (Hd 0%nat _ eq_refl) (Hd 1%nat _ eq_refl)))).
Defined.

Lemma pipeline_finishes_witness : exists enrichment s' sink st e r,
  rtc (act 7 enrichment) (initial enrichment s' sink false 0 sample_ops) st /\ st.(encoder) = Finished e r /\
  measure (initial enrichment s' sink false 0 sample_ops) = 31.
Proof.
  destruct sample_sink as (s' & sink & Eo). destruct sample_engine as (enrichment & El).
  destruct (pipeline_finishes no_duration as_given 7 sample_layout 3600 Serialization.Ndjson [] sample_sys noon s' sink false sample_configs
    enrichment false sample_ops 0 _ sample_names_ok hour_positive noon_ok Eo sample_configured El (rtc_refl _ _)) as ((st & e & r & Hr & E) & _).
  exists enrichment, s', sink, st, e, r. exact (conj Hr (conj E eq_refl)).
Defined.

Lemma flush_timer_cadence_witness :
  let instants := [100_000_000; 260_000_000; 270_000_000; 500_000_000; 740_000_000] in
  let '(timer, n) := polls (FlushTimer_new FLUSH_INTERVAL 0) instants in
  n = 2 /\ n = (740_000_000 - 0) / FLUSH_INTERVAL /\ n * FLUSH_INTERVAL <= 740_000_000.
Proof.
  intros instants. pose proof (flush_timer_cadence FLUSH_INTERVAL 0 740_000_000 instants
    ltac:(unfold FLUSH_INTERVAL; lia) ltac:(lia) ltac:(repeat constructor; lia)) as H.
  destruct (polls _ _) as [timer n] eqn:E. vm_compute in E. injection E as _ <-. destruct H as (H & _ & _ & S).
  split; [reflexivity|]. split; [|lia]. apply S. unfold FLUSH_INTERVAL. cbn. lia.
Defined.
