(* ===== verification/Hook.v ===== *)
(** [rustflow_collect/src/sink/hook.rs]: the commands run for completed and
    for expired files.

    The system is a [Commands]: what comes of starting the [n]-th command
    tried, and of asking the [n]-th time how it is doing.  The worker thread is
    run over the list of what it receives, its channel closing at the end. *)

From Stdlib Require Import ZArith Lia Strings.Byte.
From stdpp Require Import base tactics numbers list.
From S2P Require Import Prelude Std Text Crates Calendar Layout Storage Encoder SinkConfig Sink.
#[local] Open Scope Z_scope.

Definition MAX_RUNNING : Z := 8.
Definition POLL : Z := 250_000_000.

Module Hook.
Inductive Hook := Exec | ExpireExec.

Definition display (self : Hook) : bytes :=
  match self with Exec => str "-x" | ExpireExec => str "--expire-exec" end.
End Hook.
Export Hook(Hook).

(** [str::split_whitespace] *)
Definition piece (rev_word : bytes) : list bytes := match rev_word with [] => [] | _ => [rev rev_word] end.

Fixpoint words_from (fuel : nat) (rev_word s : bytes) : list bytes :=
  match fuel, s with
  | S fuel, b :: s' =>
      match strip_one WHITE_SPACE s with
      | Some s => piece rev_word ++ words_from fuel [] s
      | None => words_from fuel (b :: rev_word) s'
      end
  | _, _ => piece rev_word
  end.

Definition split_whitespace (s : bytes) : list bytes := words_from (length s) [] s.

(** [i64::to_string] *)
Definition show_signed (n : Z) : bytes := if n <? 0 then str "-" ++ show (- n) else show n.

(** [Path::display]: the components with slashes between; an empty one at the
    start is the root directory. *)
Fixpoint join_path (p : Path) : bytes :=
  match p with
  | [] => []
  | [c] => c
  | c :: p => c ++ str "/" ++ join_path p
  end.

Definition path_display (p : Path) : bytes := from_utf8_lossy (if bool_decide (p = [[]]) then str "/" else join_path p).

(** ** Placeholders *)

Definition is_placeholder (c : byte) : bool :=
  match c with x66 | x70 | x74 | x75 | x25 => true | _ => false end.

(** What is wrong with a word, if anything. *)
Fixpoint check_placeholders (hook : Hook) (word chars : bytes) : option bytes :=
  let unknown := Hook.display hook ++ str ": unknown placeholder in '" ++ word ++ str "', use %f, %p, %t, %u or %%" in
  match chars with
  | [] => None
  | x25 :: c :: chars => if is_placeholder c then check_placeholders hook word chars else Some unknown
  | [x25] => Some unknown
  | _ :: chars => check_placeholders hook word chars
  end.

Section hook.
Context `{CL : Calendar}.

Definition replacement_of (c : byte) (job : Job) (root : Path) : bytes :=
  match c with
  | x66 => path_display job.(job_path)
  | x70 => path_display (default job.(job_path) (relative root job.(job_path)))
  | x74 => format STAMP_FORMAT job.(job_window)
  | x75 => show_signed (timestamp job.(job_window))
  | _ => str "%"
  end.

(** A whole character is taken after a percent sign; [skipping] is inside
    one. *)
Fixpoint expand_from (skipping : bool) (word : bytes) (job : Job) (root : Path) : bytes :=
  match word with
  | [] => []
  | b :: word' =>
      if skipping && is_cont b then expand_from true word' job root
      else match b, word' with
      | x25, c :: word => replacement_of c job root ++ expand_from true word job root
      | x25, [] => str "%"
      | _, _ => b :: expand_from false word' job root
      end
  end.

Definition expand (word : bytes) (job : Job) (root : Path) : bytes := expand_from false word job root.

(** ** The launcher *)

(** What asking about a command gives. *)
Inductive Waited := StillRunning | Exited (success : bool) | Lost (e : ErrorKind).

Class Commands := {
  (* [None] when the command cannot be started *)
  spawned : nat -> list bytes -> option ErrorKind;
  waited : nat -> nat -> Waited;
}.

Context `{CM : Commands}.

(** A command started: its number, how often it was asked about, its file. *)
Record Child := mkChild { child : nat; asked : nat; child_path : Path }.

(** [l_tried] has the arguments of every command tried, and [l_most] how many
    were running at most; neither is there in the program. *)
Record Launcher := mkLauncher {
  l_hook : Hook;
  l_words : list bytes;
  l_root : Path;
  l_metrics : OutputMetrics;
  l_pending : list Job;
  l_running : list Child;
  l_tried : list (list bytes);
  l_most : Z;
}.

Definition Launcher_new (hook : Hook) (words : list bytes) (root : Path) (metrics : OutputMetrics) : Launcher :=
  mkLauncher hook words root metrics [] [] [] 0.

Definition arguments (self : Launcher) (job : Job) : list bytes :=
  let args := (fun w => expand w job self.(l_root)) <$> self.(l_words) in
  if negb (existsb (fun w => bool_decide (x25 ∈ w)) self.(l_words))
  then args ++ [path_display job.(job_path)] else args.

Definition hook_counts (m : OutputMetrics) (running completed errors : Z) : OutputMetrics :=
  mkMetrics m.(m_flows) m.(m_bytes) m.(m_files) m.(m_write_errors) m.(m_rotate_errors)
    (m.(m_hook_running) + running) (m.(m_hook_completed) + completed) (m.(m_hook_errors) + errors)
    m.(m_expired_files) m.(m_expire_errors).

(** A command tried for a job; the first argument is the command. *)
Definition start_job (self : Launcher) (job : Job) (pending : list Job) : option Launcher :=
  let args := arguments self job in
  match args with
  | [] => None
  | _ =>
      let n := length self.(l_tried) in
      let launched metrics running :=
        mkLauncher self.(l_hook) self.(l_words) self.(l_root) metrics pending running (self.(l_tried) ++ [args])
          (Z.max self.(l_most) (zlen running)) in
      Some (match spawned n args with
        | None => launched (hook_counts self.(l_metrics) 1 0 0) (self.(l_running) ++ [mkChild n 0 job.(job_path)])
        | Some _ => launched (hook_counts self.(l_metrics) 0 0 1) self.(l_running)
        end)
  end.

Fixpoint start_from (pending : list Job) (self : Launcher) : option Launcher :=
  if zlen self.(l_running) <? MAX_RUNNING then
    match pending with
    | [] => Some self
    | job :: pending => self ← start_job self job pending; start_from pending self
    end
  else Some self.

Definition start_pending (self : Launcher) : option Launcher := start_from self.(l_pending) self.

Fixpoint reap_from (running : list Child) (metrics : OutputMetrics) : list Child * OutputMetrics :=
  match running with
  | [] => ([], metrics)
  | c :: running =>
      match waited c.(child) c.(asked) with
      | StillRunning =>
          let '(running, metrics) := reap_from running metrics in
          (mkChild c.(child) (S c.(asked)) c.(child_path) :: running, metrics)
      | Exited true => reap_from running (hook_counts metrics (-1) 1 0)
      | Exited false | Lost _ => reap_from running (hook_counts metrics (-1) 0 1)
      end
  end.

Definition reap (self : Launcher) : Launcher :=
  let '(running, metrics) := reap_from self.(l_running) self.(l_metrics) in
  mkLauncher self.(l_hook) self.(l_words) self.(l_root) metrics self.(l_pending) running self.(l_tried) self.(l_most).

Definition queue (self : Launcher) (job : Job) : Launcher :=
  mkLauncher self.(l_hook) self.(l_words) self.(l_root) self.(l_metrics) (self.(l_pending) ++ [job]) self.(l_running) self.(l_tried)
    self.(l_most).

(** While the channel is open; nothing is received when the wait times out. *)
Fixpoint receive (self : Launcher) (received : list (option Job)) : option Launcher :=
  match received with
  | [] => Some self
  | event :: received =>
      let self := match event with Some job => queue self job | None => self end in
      self ← start_pending (reap self); receive self received
  end.

(** The shutdown, for at most so many rounds: the launcher then, and whether
    the loop has come to its end. *)
Fixpoint drain_hook (rounds : nat) (self : Launcher) : option (Launcher * bool) :=
  match self.(l_pending), self.(l_running) with
  | [], [] => Some (self, true)
  | _, _ =>
      match rounds with
      | O => Some (self, false)
      | S rounds => self ← start_pending self; drain_hook rounds (reap self)
      end
  end.

(** [Launcher::run], for at most so many rounds of the shutdown; no result is a
    panic. *)
Definition run_hook (rounds : nat) (self : Launcher) (received : list (option Job)) : option (Launcher * bool) :=
  self ← receive self received; drain_hook rounds self.

(** [FileHook::spawn], up to the thread. *)
Definition FileHook_spawn (hook : Hook) (command : bytes) (root : Path) (metrics : OutputMetrics) : Launcher + bytes :=
  match split_whitespace command with
  | [] => inr (Hook.display hook ++ str " command is empty")
  | words =>
      match omap (fun word => check_placeholders hook word word) words with
      | message :: _ => inr message
      | [] => inl (Launcher_new hook words root metrics)
      end
  end.
End hook.
