(* ===== verification/HookFacts.v ===== *)
(** What [Hook] comes to: a command's words mean what their placeholders say,
    and every file handed over has its command run, a bounded number at a
    time. *)

From Stdlib Require Import ZArith Lia Strings.Byte.
From stdpp Require Import base tactics numbers list.
From S2P Require Import Prelude Std Text Crates Calendar Layout Storage Encoder SinkConfig Sink Hook.
#[local] Open Scope Z_scope.

(** ** Placeholders *)

(** What a word is made of: characters other than the percent sign, and
    placeholders. *)
Inductive Token := Text (c : bytes) | Mark (c : byte).

Definition token_ok (t : Token) : Prop :=
  match t with Text c => utf8_char c /\ c <> [x25] | Mark c => is_placeholder c = true end.

Definition render (ts : list Token) : bytes := concat ((fun t => match t with Text c => c | Mark c => [x25; c] end) <$> ts).

(** A character is one ASCII octet or starts with neither an ASCII octet nor a
    continuation and goes on with continuations. *)
Lemma utf8_char_octets c : utf8_char c ->
  exists b t, c = b :: t /\ is_cont b = false /\ Forall (fun b => is_cont b = true) t /\ (t <> [] -> 0x80 <= u8_of b).
Proof.
  intros (b & t & -> & H). exists b, t. specialize (H []). rewrite app_nil_r in H. split; [done|].
  assert (Hc : is_cont b = true -> utf8_width b = 0%nat).
  { clear H. destruct b; (vm_compute; done) || (vm_compute; discriminate). }
  assert (Hw : (utf8_width b <= 1)%nat -> utf8_width b = 1%nat -> u8_of b < 0x80).
  { unfold utf8_width. destruct (Z.ltb_spec (u8_of b) 0x80); [done|]. repeat case_match; lia. }
  assert (Hs : forall b', second_ok b b' = true -> is_cont b' = true).
  { intros b'. unfold second_ok, is_cont, between. repeat case_match; lia. }
  assert (Ha : (utf8_width b <> 1)%nat -> 0x80 <= u8_of b).
  { unfold utf8_width. destruct (Z.ltb_spec (u8_of b) 0x80); [done|lia]. }
  unfold utf8_unit in H.
  destruct (utf8_width b) as [|[|[|[|[|w]]]]] eqn:Ew; repeat case_match; simplify_eq;
    (split; [destruct (is_cont b) eqn:E; [by specialize (Hc eq_refl)|done]|]); (split; [|intros; apply Ha; lia || done]);
    repeat constructor; eauto.
Qed.

Lemma is_cont_ascii b : u8_of b < 0x80 -> is_cont b = false.
Proof. unfold is_cont. lia. Qed.

Lemma placeholder_ascii c : is_placeholder c = true -> is_cont c = false.
Proof. by destruct c. Qed.

Lemma check_other hook word b chars : b <> x25 -> check_placeholders hook word (b :: chars) = check_placeholders hook word chars.
Proof. intros H. by destruct b. Qed.

(** A character other than the percent sign has no percent sign. *)
Lemma text_octets c : utf8_char c -> c <> [x25] -> exists b t, c = b :: t /\ is_cont b = false /\ b <> x25 /\ Forall (fun b => is_cont b = true) t.
Proof.
  intros Hc N. destruct (utf8_char_octets c Hc) as (b & t & -> & Hb & Ht & H8). exists b, t. split_and!; try done.
  intros ->. destruct t; [done|]. by specialize (H8 ltac:(done)).
Qed.

Lemma check_conts hook word t chars : Forall (fun b => is_cont b = true) t ->
  check_placeholders hook word (t ++ chars) = check_placeholders hook word chars.
Proof. induction 1 as [|b t Hb _ IH]; [done|]. cbn [app]. rewrite check_other; [done|]. by intros ->. Qed.

Lemma check_text hook word c chars : utf8_char c -> c <> [x25] ->
  check_placeholders hook word (c ++ chars) = check_placeholders hook word chars.
Proof.
  intros Hc N. destruct (text_octets c Hc N) as (b & t & -> & _ & Hb & Ht). cbn [app].
  by rewrite check_other, check_conts.
Qed.

Lemma render_cons t ts : render (t :: ts) = match t with Text c => c | Mark c => [x25; c] end ++ render ts.
Proof. done. Qed.

Lemma check_tokens hook word ts : Forall token_ok ts -> check_placeholders hook word (render ts) = None.
Proof.
  induction 1 as [|t ts Ht _ IH]; [done|]. rewrite render_cons. destruct t as [c|c]; cbn in Ht.
  - destruct Ht. by rewrite check_text.
  - cbn. by rewrite Ht.
Qed.

Lemma tokens_of n hook word : forall cs, (length cs <= n)%nat -> Forall utf8_char cs ->
  check_placeholders hook word (concat cs) = None -> exists ts, Forall token_ok ts /\ concat cs = render ts.
Proof.
  induction n as [|n IH]; intros cs Hn Hcs Hk; [destruct cs; [by exists []|cbn in Hn; lia]|].
  destruct cs as [|c cs]; [by exists []|]. apply Forall_cons in Hcs as [Hc Hcs]. cbn [concat length] in *.
  destruct (decide (c = [x25])) as [->|N].
  - destruct cs as [|c cs]; [done|]. apply Forall_cons in Hcs as [Hc' Hcs].
    destruct (utf8_char_octets c Hc') as (b & t & -> & _ & _ & H8). cbn [concat app] in Hk |- *. cbn in Hk.
    destruct (is_placeholder b) eqn:Eb; [|done].
    assert (t = []) as -> by (destruct t; [done|]; specialize (H8 ltac:(done)); by destruct b).
    destruct (IH cs) as (ts & Hts & E); [cbn in Hn; lia|done|done|]. exists (Mark b :: ts). split; [by constructor|].
    rewrite render_cons, <- E. done.
  - rewrite check_text in Hk by done. destruct (IH cs) as (ts & Hts & E); [lia|done|done|].
    exists (Text c :: ts). split; [by constructor|]. by rewrite render_cons, E.
Qed.

Section facts.
Context `{CL : Calendar}.

(** What a word means. *)
Definition meaning (ts : list Token) (job : Job) (root : Path) : bytes :=
  concat ((fun t => match t with Text c => c | Mark c => replacement_of c job root end) <$> ts).

Lemma expand_other sk b word job root : b <> x25 -> sk && is_cont b = false ->
  expand_from sk (b :: word) job root = b :: expand_from false word job root.
Proof. intros H E. cbn [expand_from]. rewrite E. by destruct b. Qed.

Lemma expand_conts t word job root : Forall (fun b => is_cont b = true) t ->
  expand_from false (t ++ word) job root = t ++ expand_from false word job root.
Proof.
  induction 1 as [|b t Hb _ IH]; [done|]. cbn [app]. rewrite expand_other; [by rewrite IH|by intros ->|done].
Qed.

Lemma expand_tokens ts job root : Forall token_ok ts -> forall sk, expand_from sk (render ts) job root = meaning ts job root.
Proof.
  induction 1 as [|t ts Ht _ IH]; intros sk; [done|]. rewrite render_cons. unfold meaning. rewrite fmap_cons. cbn [concat].
  fold (meaning ts job root). destruct t as [c|c]; cbn in Ht.
  - destruct Ht as [Hc N]. destruct (text_octets c Hc N) as (b & t & -> & Hb & Hb' & Ht). cbn [app].
    rewrite expand_other; [by rewrite expand_conts, IH|done|]. rewrite Hb. by destruct sk.
  - cbn [app expand_from]. rewrite andb_comm. cbn. by rewrite IH.
Qed.

(** A word of a hook command is accepted exactly when it is made of characters
    and the known placeholders, and expands to its characters with each
    placeholder replaced by what it stands for. *)
Theorem placeholders_mean hook word :
  utf8_valid word = true ->
  (check_placeholders hook word word = None <-> exists ts, Forall token_ok ts /\ word = render ts) /\
  forall ts job root, Forall token_ok ts -> expand (render ts) job root = meaning ts job root.
Proof.
  intros Hw. split; [split|].
  - destruct (utf8_valid_inv word Hw) as (cs & -> & Hcs). intros Hk. by eapply tokens_of.
  - intros (ts & Hts & E). rewrite E at 2. by apply check_tokens.
  - intros ts job root Hts. by apply expand_tokens.
Qed.

(** ** The launcher *)

Context `{CM : Commands}.
Context (hook : Hook) (words : list bytes) (root : Path) (m0 : OutputMetrics).
Context (words_some : words <> []).

(** The arguments a job's command gets. *)
Definition job_args (job : Job) : list bytes := arguments (Launcher_new hook words root m0) job.

Lemma arguments_some job : job_args job <> [].
Proof.
  unfold job_args, arguments. cbn [l_words l_root Launcher_new]. destruct words; [done|]. by destruct (negb _).
Qed.

(** The launcher after [jobs]: those tried and those waiting are all of them,
    in order; and the counters tell what became of those tried. *)
Record launched (jobs : list Job) (self : Launcher) : Prop := {
  l_words_kept : self.(l_words) = words;
  l_root_kept : self.(l_root) = root;
  l_accounted : self.(l_tried) ++ (job_args <$> self.(l_pending)) = job_args <$> jobs;
  l_bounded : zlen self.(l_running) <= self.(l_most) <= MAX_RUNNING;
  l_gauge : self.(l_metrics).(m_hook_running) = m0.(m_hook_running) + zlen self.(l_running);
  l_counted : self.(l_metrics).(m_hook_completed) + self.(l_metrics).(m_hook_errors) + zlen self.(l_running) =
    m0.(m_hook_completed) + m0.(m_hook_errors) + zlen self.(l_tried);
}.

Lemma launched_new : launched [] (Launcher_new hook words root m0).
Proof. split; unfold MAX_RUNNING, zlen; cbn; done || lia. Qed.

Lemma launched_queue jobs self job : launched jobs self -> launched (jobs ++ [job]) (queue self job).
Proof.
  intros [H1 H2 H3 H4 H5 H6]. split; cbn; try done. by rewrite !fmap_app, app_assoc, H3.
Qed.

Lemma arguments_eq self job : self.(l_words) = words -> self.(l_root) = root -> arguments self job = job_args job.
Proof. intros E1 E2. unfold job_args, arguments. cbn. by rewrite E1, E2. Qed.

Lemma start_job_spec jobs self job pending : self.(l_pending) = job :: pending -> zlen self.(l_running) < MAX_RUNNING ->
  launched jobs self -> exists self', start_job self job pending = Some self' /\ launched jobs self' /\
    self'.(l_pending) = pending /\ length self'.(l_tried) = S (length self.(l_tried)) /\
    (self'.(l_running) = self.(l_running) \/
     self'.(l_running) = self.(l_running) ++ [mkChild (length self.(l_tried)) 0 job.(job_path)]).
Proof.
  intros Ep Hr [H1 H2 H3 H4 H5 H6]. unfold start_job. rewrite arguments_eq by done. pose proof (arguments_some job) as Ha.
  rewrite Ep in H3. cbn in H3.
  destruct (job_args job) as [|a args] eqn:Ea; [done|].
  assert (Hacc : (self.(l_tried) ++ [a :: args]) ++ (job_args <$> pending) = job_args <$> jobs).
  { rewrite <- app_assoc. exact H3. }
  destruct (spawned _ _); eexists; (split; [done|]); (split; [split; cbn; unfold zlen in *; rewrite ?length_app; cbn; done || lia|]);
    cbn; (split; [done|]); (split; [rewrite length_app; cbn; lia|]); [by left|by right].
Qed.

(** Starting stops when nothing waits or the bound is reached. *)
Lemma start_from_spec jobs pending : forall self, self.(l_pending) = pending -> launched jobs self ->
  exists self', start_from pending self = Some self' /\ launched jobs self' /\
    (self'.(l_pending) = [] \/ zlen self'.(l_running) = MAX_RUNNING) /\
    (length self'.(l_tried) + length self'.(l_pending) = length self.(l_tried) + length self.(l_pending))%nat.
Proof.
  induction pending as [|job pending IH]; intros self Ep Hl; pose proof (l_bounded _ _ Hl) as Hb;
    cbn [start_from]; destruct (Z.ltb_spec (zlen self.(l_running)) MAX_RUNNING) as [Hr|Hr].
  - exists self. split_and!; [done|done|by left|done].
  - exists self. split_and!; [done|done|by left|done].
  - destruct (start_job_spec jobs self job pending Ep Hr Hl) as (self' & -> & Hl' & Ep' & El & _). cbn [mbind option_bind].
    destruct (IH self' Ep' Hl') as (self'' & -> & Hl'' & Hd & El'). exists self''. split_and!; [done|done|done|].
    rewrite El', El, Ep, Ep'. cbn. lia.
  - exists self. split_and!; [done|done|right; lia|done].
Qed.

Lemma reap_from_spec running : forall m,
  let '(running', m') := reap_from running m in
  zlen running' <= zlen running /\ m'.(m_hook_running) - zlen running' = m.(m_hook_running) - zlen running /\
  m'.(m_hook_completed) + m'.(m_hook_errors) + zlen running' = m.(m_hook_completed) + m.(m_hook_errors) + zlen running.
Proof.
  induction running as [|c running IH]; intros m; [by cbn; lia|]. cbn [reap_from].
  destruct (waited _ _) as [|[]|e];
    [specialize (IH m)|specialize (IH (hook_counts m (-1) 1 0))|specialize (IH (hook_counts m (-1) 0 1))|specialize (IH (hook_counts m (-1) 0 1))];
    destruct (reap_from running _) as [running' m']; cbn [hook_counts m_hook_running m_hook_completed m_hook_errors] in IH;
    rewrite ?zlen_cons in *; lia.
Qed.

Lemma launched_reap jobs self : launched jobs self -> launched jobs (reap self).
Proof.
  intros [H1 H2 H3 H4 H5 H6]. unfold reap. pose proof (reap_from_spec self.(l_running) self.(l_metrics)) as H.
  destruct (reap_from _ _) as [running m]. split; cbn; done || lia.
Qed.

Definition received_jobs (received : list (option Job)) : list Job := omap id received.

Lemma receive_spec received : forall jobs self, launched jobs self ->
  exists self', receive self received = Some self' /\ launched (jobs ++ received_jobs received) self' /\
    (received <> [] -> self'.(l_pending) = [] \/ zlen self'.(l_running) = MAX_RUNNING).
Proof.
  induction received as [|event received IH]; intros jobs self Hl.
  { exists self. cbn. by rewrite app_nil_r. }
  cbn [receive]. set (self1 := match event with Some job => queue self job | None => self end).
  assert (H1 : launched (jobs ++ match event with Some job => [job] | None => [] end) self1).
  { destruct event; [by apply launched_queue|]. by rewrite app_nil_r. }
  destruct (start_from_spec _ _ (reap self1) eq_refl (launched_reap _ _ H1)) as (self2 & E2 & H2 & Hd & _).
  unfold start_pending. rewrite E2. cbn [mbind option_bind].
  destruct (IH _ self2 H2) as (self3 & E3 & H3 & Hd3). exists self3. split; [done|]. split.
  - rewrite <- app_assoc in H3. by destruct event.
  - intros _. destruct received as [|event' received]; [|by apply Hd3]. cbn in E3. by injection E3 as <-.
Qed.

(** *** The shutdown *)

Lemma drain_done jobs self : launched jobs self -> self.(l_pending) = [] -> self.(l_running) = [] ->
  self.(l_tried) = job_args <$> jobs /\ self.(l_metrics).(m_hook_running) = m0.(m_hook_running) /\
  self.(l_metrics).(m_hook_completed) + self.(l_metrics).(m_hook_errors) = m0.(m_hook_completed) + m0.(m_hook_errors) + zlen jobs.
Proof.
  intros [H1 H2 H3 H4 H5 H6] Ep Er. rewrite Ep, app_nil_r in H3. rewrite Er in *. change (zlen (@nil Child)) with 0 in *.
  split; [done|]. split; [lia|]. rewrite H3 in H6. unfold zlen in *. rewrite length_fmap in H6. lia.
Qed.

Lemma drain_hook_spec jobs rounds : forall self, launched jobs self ->
  exists self' ended, drain_hook rounds self = Some (self', ended) /\ launched jobs self' /\
    (ended = true -> self'.(l_pending) = [] /\ self'.(l_running) = []).
Proof.
  induction rounds as [|rounds IH]; intros self Hl; cbn [drain_hook];
    destruct self.(l_pending) as [|job pending] eqn:Ep; [destruct self.(l_running) as [|c cs] eqn:Er| |destruct self.(l_running) as [|c cs] eqn:Er|];
    try (by exists self, false); try (by exists self, true).
  all: destruct (start_from_spec jobs _ self eq_refl Hl) as (self' & E & Hl' & _); unfold start_pending; rewrite E; cbn [mbind option_bind];
    apply IH; by apply launched_reap.
Qed.

Lemma run_hook_spec rounds received :
  exists self' ended, run_hook rounds (Launcher_new hook words root m0) received = Some (self', ended) /\
    launched (received_jobs received) self' /\ (ended = true -> self'.(l_pending) = [] /\ self'.(l_running) = []).
Proof.
  destruct (receive_spec received [] _ launched_new) as (self1 & E1 & H1 & _).
  unfold run_hook. rewrite E1. cbn [mbind option_bind]. by apply drain_hook_spec.
Qed.

(** *** The shutdown ends *)

(** The [n]-th command tried is found to have ended when asked the
    [lifetime n]-th time. *)
Context (lifetime : nat -> nat).
Context (ends : forall n, waited n (lifetime n) <> StillRunning).

Definition alive (c : Child) : Prop := (c.(asked) <= lifetime c.(child))%nat.

Definition left_of (c : Child) : nat := S (lifetime c.(child) - c.(asked)).

(** The same for [k] commands yet to be tried, the first the [n]-th. *)
Fixpoint waiting (n k : nat) : nat := match k with O => O | S k => (S (S (lifetime n)) + waiting (S n) k)%nat end.

(** The rounds the commands running and those waiting still take, at most. *)
Definition to_go (self : Launcher) : nat :=
  (list_sum (left_of <$> self.(l_running)) + waiting (length self.(l_tried)) (length self.(l_pending)))%nat.

Lemma reap_alive running : forall m, Forall alive running ->
  Forall alive (reap_from running m).1 /\
  (list_sum (left_of <$> (reap_from running m).1) + length running <= list_sum (left_of <$> running))%nat.
Proof.
  induction running as [|c running IH]; intros m Ha; [done|]. apply Forall_cons in Ha as [Hc Ha]. cbn [reap_from].
  assert (L : (1 <= left_of c)%nat) by (unfold left_of; lia).
  destruct (waited c.(child) c.(asked)) as [|[]|e] eqn:Ew.
  - specialize (IH m Ha). destruct (reap_from running m) as [running' m']. destruct IH as [IH1 IH2].
    assert (c.(asked) <> lifetime c.(child)) by (intros E; rewrite E in Ew; by apply (ends c.(child))).
    cbn [fst] in *. unfold alive in Hc. split; [constructor; [unfold alive; cbn; lia|done]|].
    rewrite !fmap_cons. cbn [list_sum foldr length] in *. unfold left_of at 1 3. cbn. unfold list_sum in IH2. lia.
  - specialize (IH (hook_counts m (-1) 1 0) Ha). destruct (reap_from _ _) as [running' m'].
    cbn [fst list_sum fmap list_fmap foldr length] in *. unfold list_sum in *. destruct IH. split; [done|]. lia.
  - specialize (IH (hook_counts m (-1) 0 1) Ha). destruct (reap_from _ _) as [running' m'].
    cbn [fst list_sum fmap list_fmap foldr length] in *. unfold list_sum in *. destruct IH. split; [done|]. lia.
  - specialize (IH (hook_counts m (-1) 0 1) Ha). destruct (reap_from _ _) as [running' m'].
    cbn [fst list_sum fmap list_fmap foldr length] in *. unfold list_sum in *. destruct IH. split; [done|]. lia.
Qed.

Lemma start_from_alive jobs pending : forall self self', self.(l_pending) = pending -> launched jobs self ->
  start_from pending self = Some self' -> Forall alive self.(l_running) ->
  Forall alive self'.(l_running) /\ (length self'.(l_pending) <= length self.(l_pending))%nat /\
  (to_go self' + length self.(l_pending) <= to_go self + length self'.(l_pending))%nat.
Proof.
  induction pending as [|job pending IH]; intros self self' Ep Hl E Ha; cbn [start_from] in E;
    destruct (Z.ltb_spec (zlen self.(l_running)) MAX_RUNNING) as [Hr|Hr]; try (by injection E as <-).
  destruct (start_job_spec jobs self job pending Ep Hr Hl) as (self1 & E1 & Hl1 & Ep1 & El1 & Hrun).
  rewrite E1 in E. cbn [mbind option_bind] in E. destruct (IH self1 self' Ep1 Hl1 E) as (H1 & Hp & H2).
  { destruct Hrun as [->| ->]; [done|]. apply Forall_app. split; [done|]. constructor; [|constructor]. unfold alive. cbn. lia. }
  split; [done|]. rewrite Ep1 in Hp. split; [rewrite Ep; cbn; lia|]. unfold to_go in *. rewrite Ep1, El1, Ep in *. cbn [length waiting] in *.
  destruct Hrun as [Hrun|Hrun]; rewrite Hrun in H2; [lia|].
  rewrite fmap_app, list_sum_app in H2. change (list_sum (left_of <$> [mkChild (length self.(l_tried)) 0 job.(job_path)]))
    with (S (lifetime (length self.(l_tried)) - 0) + 0)%nat in H2. lia.
Qed.

(** What a round of the shutdown makes of the launcher. *)
Lemma round_spec jobs self : launched jobs self -> Forall alive self.(l_running) ->
  (self.(l_pending) <> [] \/ self.(l_running) <> []) ->
  exists self', start_pending self = Some self' /\ launched jobs (reap self') /\ Forall alive (reap self').(l_running) /\
    (to_go (reap self') < to_go self)%nat.
Proof.
  intros Hl Ha Hn. destruct (start_from_spec jobs _ self eq_refl Hl) as (self' & E & Hl' & Hd & El).
  destruct (start_from_alive jobs _ self self' eq_refl Hl E Ha) as (Ha' & Hp & Hg).
  exists self'. split; [done|]. split; [by apply launched_reap|].
  pose proof (reap_alive self'.(l_running) self'.(l_metrics) Ha') as [Hra Hrg].
  unfold reap. destruct (reap_from _ _) as [running m]. cbn [l_running fst] in *. split; [done|].
  unfold to_go in *. cbn [l_running l_tried l_pending].
  destruct self'.(l_running) as [|c cs] eqn:Er; cbn [length] in Hrg; [|lia].
  destruct Hd as [Hd|Hd]; [|done]. rewrite Hd in *. cbn [length waiting fmap list_fmap list_sum foldr] in *.
  destruct Hn as [Hn|Hn]; [destruct self.(l_pending); [done|cbn [length] in *; lia]|].
  destruct self.(l_running); [done|]. cbn [fmap list_fmap list_sum foldr] in *. unfold left_of at 1 in Hg. unfold left_of at 2. lia.
Qed.

(** However long the shutdown goes on. *)
Lemma drain_ends jobs n : forall self, (to_go self <= n)%nat -> launched jobs self -> Forall alive self.(l_running) ->
  exists self', drain_hook n self = Some (self', true).
Proof.
  induction n as [|n IH]; intros self Hn Hl Ha.
  all: destruct self.(l_pending) as [|job pending] eqn:Ep; [destruct self.(l_running) as [|c cs] eqn:Er|].
  1, 4: exists self; cbn [drain_hook]; by rewrite Ep, Er.
  all: destruct (round_spec jobs self Hl ltac:(by rewrite ?Er) ltac:((left; by rewrite Ep) || (right; by rewrite Er)))
    as (self' & E & Hl' & Ha' & Hg); try lia.
  all: destruct (IH (reap self') ltac:(lia) Hl' Ha') as (self'' & E'); exists self'';
    cbn [drain_hook]; rewrite Ep, ?Er, E; exact E'.
Qed.

Lemma receive_alive received : forall jobs self self', launched jobs self -> Forall alive self.(l_running) ->
  receive self received = Some self' -> Forall alive self'.(l_running).
Proof.
  induction received as [|event received IH]; intros jobs self self' Hl Ha E; [by injection E as <-|].
  cbn [receive] in E. set (self1 := match event with Some job => queue self job | None => self end) in E.
  assert (H1 : exists jobs1, launched jobs1 self1).
  { destruct event as [job|]; [|by exists jobs]. exists (jobs ++ [job]). by apply launched_queue. }
  destruct H1 as [jobs1 H1]. assert (A1 : Forall alive self1.(l_running)) by by destruct event.
  destruct (start_from_spec _ _ (reap self1) eq_refl (launched_reap _ _ H1)) as (self2 & E2 & H2 & _).
  unfold start_pending in E. rewrite E2 in E. cbn [mbind option_bind] in E. refine (IH jobs1 self2 self' H2 _ E).
  apply (start_from_alive jobs1 _ (reap self1) self2 eq_refl (launched_reap _ _ H1) E2).
  pose proof (reap_alive self1.(l_running) self1.(l_metrics) A1) as [Hr _]. unfold reap. by destruct (reap_from _ _).
Qed.

Lemma run_hook_ends received :
  exists rounds self', run_hook rounds (Launcher_new hook words root m0) received = Some (self', true).
Proof.
  destruct (receive_spec received [] _ launched_new) as (self1 & E1 & H1 & _).
  pose proof (receive_alive received [] _ self1 launched_new ltac:(constructor) E1) as A1.
  destruct (drain_ends _ (to_go self1) self1 (le_n _) H1 A1) as (self2 & E2).
  exists (to_go self1), self2. unfold run_hook. by rewrite E1.
Qed.
End facts.

Section claim.
Context `{CL : Calendar} `{CM : Commands}.

(** The commands tried and those for the files that wait are those of the jobs,
    in order; no more than [MAX_RUNNING] ever ran at a time; and the gauge tells
    how many do. *)
Definition in_hand (self : Launcher) (m : OutputMetrics) (jobs : list Job) (at_ : Launcher) : Prop :=
  at_.(l_tried) ++ (arguments self <$> at_.(l_pending)) = arguments self <$> jobs /\
  zlen at_.(l_running) <= at_.(l_most) <= MAX_RUNNING /\
  at_.(l_metrics).(m_hook_running) = m.(m_hook_running) + zlen at_.(l_running).

Definition waits_for_room (at_ : Launcher) : Prop := at_.(l_pending) = [] \/ zlen at_.(l_running) = MAX_RUNNING.

(** C20: Whatever files a hook is told of, and however its commands fare, it never
    panics and never has more than MAX_RUNNING commands running, nor at any
    point of its shutdown, however long that goes on; what it tries are the
    commands of the files, in order.  While it is told of files a file waits
    only when that many are running, and in a round of the shutdown only when
    that many are once it has started what it could.  The shutdown ends with no
    file waiting and no command running; it does end when every command ends,
    and every file has then had its command tried once and counted as completed
    or failed, with none left in the gauge. *)
Theorem hook_runs_every_job hook command root m self received :
  FileHook_spawn hook command root m = inl self ->
  (forall before, exists now, receive self before = Some now /\ in_hand self m (received_jobs before) now /\
      (before <> [] -> waits_for_room now)) /\
  (forall rounds, exists now ended, run_hook rounds self received = Some (now, ended) /\
      in_hand self m (received_jobs received) now /\
      (exists started, start_pending now = Some started /\ waits_for_room started) /\
      (ended = true ->
        now.(l_tried) = arguments self <$> received_jobs received /\
        now.(l_metrics).(m_hook_running) = m.(m_hook_running) /\
        now.(l_metrics).(m_hook_completed) + now.(l_metrics).(m_hook_errors) =
          m.(m_hook_completed) + m.(m_hook_errors) + zlen (received_jobs received))) /\
  forall lifetime, (forall n, waited n (lifetime n) <> StillRunning) ->
    exists rounds final, run_hook rounds self received = Some (final, true).
Proof.
  intros Es. unfold FileHook_spawn in Es. destruct (split_whitespace command) as [|w ws] eqn:Ew; [done|].
  destruct (omap _ _); [|done]. injection Es as <-. split_and!.
  - intros before.
    destruct (receive_spec hook (w :: ws) root m ltac:(done) before [] _ (launched_new _ _ _ _)) as (now & E & H & Hd).
    exists now. split; [done|]. split; [|done]. by destruct H.
  - intros rounds. destruct (run_hook_spec hook (w :: ws) root m ltac:(done) rounds received) as (now & ended & E & H & Hd).
    exists now, ended. split; [done|]. split; [by destruct H|]. split.
    + destruct (start_from_spec hook (w :: ws) root m ltac:(done) _ _ now eq_refl H) as (started & E' & _ & Hw & _). by exists started.
    + intros Ee. destruct (Hd Ee) as [Hp Hr]. by apply (drain_done hook (w :: ws) root m _ _ H Hp Hr).
  - intros lifetime Hl. by apply (run_hook_ends hook (w :: ws) root m ltac:(done) lifetime Hl received).
Qed.
End claim.

(** ** Samples

    A run of a hook whose second command cannot be started, and the words of a
    command. *)

Section samples.
#[local] Instance sample_crates : Crates := crates_std.
#[local] Instance sample_calendar : Calendar := calendar_std.

(** Commands that are done the third time they are asked about; every other
    one fails. *)
#[local] Instance sample_commands : Commands := {
  spawned n args := if bool_decide (n = 1%nat) then Some NotFound else None;
  waited n k := if bool_decide (k < 2)%nat then StillRunning else Exited (Nat.even n);
}.

(** 2026-08-27 12:00:01. *)
Definition sample_window : DateTime := exist (fun p => timestamp_ok p = true) (1_787_832_001, 0) eq_refl.

Definition sample_job (n : Z) : Job := mkJob [str "out"; str "flows-" ++ show n] sample_window.

Definition sample_command : bytes := str "upload --dry  s3://bucket/%p %t-%u-100%%".

Definition sample_metrics : OutputMetrics := mkMetrics 0 0 0 0 0 0 0 0 0 0.

Definition sample_received : list (option Job) := [Some (sample_job 1); None; Some (sample_job 2); Some (sample_job 3)].

Example sample_arguments :
  arguments (Launcher_new Hook.Exec (split_whitespace sample_command) [str "out"] sample_metrics) (sample_job 1) =
  [str "upload"; str "--dry"; str "s3://bucket/flows-1"; str "20260827T120001Z-1787832001-100%"].
Proof. vm_compute. reflexivity. Qed.

Definition sample_launcher : Launcher := Launcher_new Hook.Exec (split_whitespace sample_command) [str "out"] sample_metrics.

Lemma sample_spawned : FileHook_spawn Hook.Exec sample_command [str "out"] sample_metrics = inl sample_launcher.
Proof.
  assert (E : omap (fun word => check_placeholders Hook.Exec word word) (split_whitespace sample_command) = []) by (vm_compute; reflexivity).
  unfold FileHook_spawn, sample_launcher. destruct (split_whitespace sample_command) eqn:W; [vm_compute in W; discriminate W|].
  rewrite E. exact eq_refl.
Qed.

Lemma hook_runs_every_job_witness : exists self rounds final,
  FileHook_spawn Hook.Exec sample_command [str "out"] sample_metrics = inl self /\
  run_hook rounds self sample_received = Some (final, true) /\ length final.(l_tried) = 3%nat.
Proof.
  pose proof (hook_runs_every_job Hook.Exec sample_command [str "out"] sample_metrics sample_launcher sample_received
    sample_spawned) as (_ & H & Hends).
  destruct (Hends (fun _ => 2%nat)) as (rounds & final & Er); [intros n; cbn; discriminate|].
  destruct (H rounds) as (now & ended & E & _ & _ & Hd). rewrite Er in E. injection E as <- <-. destruct (Hd eq_refl) as (Et & _).
  exists sample_launcher, rounds, final. split; [exact sample_spawned|]. split; [exact Er|]. rewrite Et, length_fmap. reflexivity.
Defined.

Lemma placeholders_mean_witness :
  expand (str "%p=%%x") (sample_job 1) [str "out"] = str "flows-1=%x" /\
  check_placeholders Hook.Exec (str "50%") (str "50%") <> None.
Proof.
  destruct (placeholders_mean Hook.Exec (str "50%") eq_refl) as [[H _] M]. split.
  - refine (eq_trans (M [Mark x70; Text (str "="); Mark x25; Text (str "x")] (sample_job 1) [str "out"] _) _); [|reflexivity].
    repeat constructor; try (by exists x3d, []); try (by exists x78, []); done.
  - vm_compute. discriminate.
Defined.
End samples.
