(* ===== verification/Expiry.v ===== *)
(** [rustflow_collect/src/sink/expire.rs]: removing the files of a tree older
    than a given age.

    The tree is read through the [Storage]; a sweep of it is one step as far as
    other writers of the tree go.  The completion hook is the files it is told
    of. *)

From Stdlib Require Import ZArith Lia Strings.Byte.
From stdpp Require Import base tactics numbers list.
From S2P Require Import Prelude Std Crates Calendar Layout Storage Destination Encoder SinkConfig Sink.
#[local] Open Scope Z_scope.

Section expiry.
Context `{CL : Calendar} `{ST : Storage}.

(** ** Reading the tree *)

(** What is read of a directory, so many levels deep. *)
Fixpoint read_tree (levels : nat) (w : World) (dir : Path) : Node :=
  match levels with
  | O => DirNode []
  | S levels =>
      DirNode ((fun '(name, kind) =>
        (name, match kind with
               | KindFile => FileNode
               | KindDir => read_tree levels w (dir ++ [name])
               | KindOther => OtherNode
               end)) <$> read_dir w dir)
  end.

(** Partition directories nest no deeper than this. *)
Definition levels_of (self : Layout) : nat := S (Z.to_nat (Partitioning.max_depth self.(partitioning))).

Definition tree_of (self : Layout) (w : World) : Node := read_tree (levels_of self) w self.(root).

(** ** A sweep *)

Record Expiry := mkExpiry { x_layout : Layout; x_max_age : Z; x_hook : bool }.

Record Outcome := mkOutcome { removed : Z; failures : Z; first_failure : option (Path * ErrorKind) }.

Definition Outcome_default : Outcome := mkOutcome 0 0 None.

(** The [remove_file] of expire.rs. *)
Definition remove_missing (w : World) (path : Path) : World * IoResult unit :=
  match remove_file w path with
  | (w, inr NotFound) => (w, inl tt)
  | r => r
  end.

Definition count_removed (self : Outcome) : Outcome := mkOutcome (self.(removed) + 1) self.(failures) self.(first_failure).

Definition count_failure (self : Outcome) (path : Path) (e : ErrorKind) : Outcome :=
  mkOutcome self.(removed) (self.(failures) + 1) (match self.(first_failure) with None => Some (path, e) | f => f end).

Fixpoint remove_entries (hook : bool) (entries : list Entry) (w : World) (outcome : Outcome) : World * Outcome * list Job :=
  match entries with
  | [] => (w, outcome, [])
  | entry :: entries =>
      match remove_missing w entry.(e_path) with
      | (w, inl _) =>
          let '(w, outcome, jobs) := remove_entries hook entries w (count_removed outcome) in
          (w, outcome, (if hook && negb entry.(temporary) then [mkJob entry.(e_path) entry.(Layout.window)] else []) ++ jobs)
      | (w, inr e) => remove_entries hook entries w (count_failure outcome entry.(e_path) e)
      end
  end.

Fixpoint remove_dirs (dirs : list Path) (w : World) : World :=
  match dirs with
  | [] => w
  | dir :: dirs => remove_dirs dirs (remove_dir w dir).1
  end.

(** [now - max_age] in whole seconds, at 64 bits. *)
Definition cutoff_of (self : Expiry) (now : DateTime) : Z :=
  to_signed 64 (timestamp now - to_signed 64 (as_secs self.(x_max_age))).

(** [Expiry::run] *)
Definition run_expiry (self : Expiry) (w : World) (now : DateTime) : World * Outcome * list Job :=
  let range := until (cutoff_of self now) in
  let '(w, outcome, jobs) :=
    remove_entries self.(x_hook) (files self.(x_layout) (tree_of self.(x_layout) w) range) w Outcome_default in
  (remove_dirs (dirs self.(x_layout) (tree_of self.(x_layout) w) range) w, outcome, jobs).

(** ** The thread *)

Definition count_outcome (m : OutputMetrics) (outcome : Outcome) : OutputMetrics :=
  mkMetrics m.(m_flows) m.(m_bytes) m.(m_files) m.(m_write_errors) m.(m_rotate_errors)
    m.(m_hook_running) m.(m_hook_completed) m.(m_hook_errors)
    (m.(m_expired_files) + outcome.(removed)) (m.(m_expire_errors) + outcome.(failures)).

Definition sweep (self : Expiry) (s : Sys) (now : DateTime) : Sys * list Job :=
  let '(w, outcome, jobs) := run_expiry self s.(fs) now in
  (mkSys w (count_outcome s.(Encoder.metrics) outcome), jobs).

(** The [run] of expire.rs: a sweep right away, and one for each interval that
    passes before the stop. *)
Fixpoint run_sweeps (self : Expiry) (s : Sys) (nows : list DateTime) : Sys * list Job :=
  match nows with
  | [] => (s, [])
  | now :: nows =>
      let '(s, jobs) := sweep self s now in
      let '(s, more) := run_sweeps self s nows in (s, jobs ++ more)
  end.

(** The expiry [build] makes of the flags, if any. *)
Definition expiry_of (config : SinkConfig) (destination : Destination) : option Expiry :=
  match config.(expire), destination with
  | Some max_age, Partitioned layout _ => Some (mkExpiry layout max_age (bool_decide (is_Some config.(expire_exec))))
  | _, _ => None
  end.
End expiry.
