(* ===== verification/ExpiryFacts.v ===== *)
(** What a sweep of [Expiry] removes and what it leaves. *)

From Stdlib Require Import ZArith Lia Strings.Byte.
From stdpp Require Import base tactics numbers list.
From S2P Require Import Prelude Std Crates Calendar Layout LayoutFacts Storage Destination Encoder SinkConfig Sink Expiry.
#[local] Open Scope Z_scope.

Section tree.
Context `{CL : Calendar} `{ST : Storage}.

Definition node_of (levels : nat) (w : World) (dir : Path) (e : bytes * Kind) : bytes * Node :=
  let '(name, kind) := e in
  (name, match kind with KindFile => FileNode | KindDir => read_tree levels w (dir ++ [name]) | KindOther => OtherNode end).

Lemma read_tree_S levels w dir : read_tree (S levels) w dir = DirNode (node_of levels w dir <$> read_dir w dir).
Proof. done. Qed.

Lemma read_tree_dir levels w dir : exists es, read_tree levels w dir = DirNode es.
Proof. destruct levels; by eexists. Qed.

(** No partition lies deeper than [max_depth]. *)
Lemma period_depth self dir name p path : dir = self.(root) ++ path ->
  period self dir name = Some p -> zlen path < Partitioning.max_depth self.(partitioning).
Proof.
  intros -> H. unfold period in H. rewrite relative_app in H. cbn [mbind option_bind] in H.
  destruct (Z.ltb_spec (Partitioning.max_depth self.(partitioning)) (zlen ((from_utf8_lossy <$> path) ++ [name]))) as [|Hl]; [done|].
  unfold zlen in *. rewrite length_app, length_fmap in Hl. cbn in Hl. lia.
Qed.

(** The levels read are enough: more would not be walked. *)
Lemma read_enough self range w n : forall m path,
  Partitioning.max_depth self.(partitioning) < Z.of_nat n + zlen path ->
  Partitioning.max_depth self.(partitioning) < Z.of_nat m + zlen path ->
  zlen path <= Partitioning.max_depth self.(partitioning) ->
  walk self (self.(root) ++ path) (read_tree n w (self.(root) ++ path)) range =
  walk self (self.(root) ++ path) (read_tree m w (self.(root) ++ path)) range.
Proof.
  induction n as [|n IH]; intros m path Hn Hm Hp; [lia|]. destruct m as [|m]; [lia|].
  rewrite !read_tree_S, !walk_dir. f_equal. rewrite <- !list_fmap_compose. apply list_fmap_ext. intros i [name kind] _.
  cbn [compose node_of visit_entry]. destruct kind; [done| |done].
  destruct (read_tree_dir n w ((self.(root) ++ path) ++ [name])) as [es1 E1].
  destruct (read_tree_dir m w ((self.(root) ++ path) ++ [name])) as [es2 E2]. unfold visit_entry. rewrite E1, E2.
  destruct (period self (self.(root) ++ path) (from_utf8_lossy name)) as [p|] eqn:Ep; [|done].
  pose proof (period_depth _ _ _ _ path eq_refl Ep) as Hd. destruct (overlaps p range); [|done]. f_equal.
  rewrite <- E1, <- E2, <- app_assoc. unfold zlen in *. apply IH; unfold zlen; rewrite ?length_app; cbn [length]; lia.
Qed.

(** *** What is read is there *)

Lemma read_tree_ok levels w : forall dir, tree_ok (read_tree levels w dir).
Proof.
  induction levels as [|levels IH]; intros dir; [by repeat constructor|]. rewrite read_tree_S. constructor.
  - rewrite <- list_fmap_compose. rewrite (list_fmap_ext _ fst); [apply read_dir_names|]. by intros i [name kind] _.
  - apply Forall_fmap, Forall_forall. intros [name kind] _. destruct kind; [constructor|apply IH|constructor].
Qed.

Definition shown (node : Node) (o : Obj) : Prop :=
  match node, o with FileNode, File _ | DirNode _, Dir | OtherNode, Special => True | _, _ => False end.

Lemma inside_look levels w : forall dir path node, inside (read_tree levels w dir) path node -> path <> [] ->
  exists o, look w (dir ++ path) = Some o /\ shown node o.
Proof.
  induction levels as [|levels IH]; intros dir path node H N.
  { inversion H as [|? ? ? ? ? Hin]; subst; [done|]. by apply elem_of_nil in Hin. }
  rewrite read_tree_S in H. inversion H as [|? name child path' ? Hin Hi]; subst; [done|].
  apply list_elem_of_fmap in Hin as ([name' kind] & Ec & Hin). injection Ec as <- ->.
  destruct (read_dir_law w dir name kind Hin) as (o & Ho & Ek).
  destruct path' as [|c path'].
  - inversion Hi; subst. exists o. split; [done|]. destruct o; cbn; [done| |done]. by destruct (read_tree_dir levels w (dir ++ [name])) as [es ->].
  - destruct kind; [inversion Hi| |inversion Hi]. destruct (IH _ _ _ Hi ltac:(done)) as (o' & Ho' & Hs).
    exists o'. by rewrite <- app_assoc in Ho'.
Qed.

(** A file below directories that may be read is read. *)
Lemma look_inside w path : forall levels dir i, (length path <= levels)%nat -> path <> [] ->
  (forall k, (k < length path)%nat -> readable w (dir ++ take k path) /\ (k <> O -> look w (dir ++ take k path) = Some Dir)) ->
  look w (dir ++ path) = Some (File i) -> inside (read_tree levels w dir) path FileNode.
Proof.
  induction path as [|name path IH]; intros levels dir i Hl N Hk Hf; [done|]. destruct levels as [|levels]; [cbn in Hl; lia|].
  rewrite read_tree_S. destruct (Hk O ltac:(cbn; lia)) as [Hr _]. rewrite app_nil_r in Hr.
  destruct path as [|c path].
  - apply (inside_down _ name FileNode); [|constructor].
    apply (list_elem_of_fmap_2' (node_of levels w dir) _ (name, KindFile)); [|done]. by apply (read_dir_all w dir name (File i)).
  - apply (inside_down _ name (read_tree levels w (dir ++ [name]))).
    + apply (list_elem_of_fmap_2' (node_of levels w dir) _ (name, KindDir)); [|done].
      apply (read_dir_all w dir name Dir Hr). by destruct (Hk 1%nat ltac:(cbn; lia)) as [_ H]; apply H.
    + apply (IH levels (dir ++ [name]) i); [cbn in *; lia|done| |by rewrite <- app_assoc].
      intros k Hlt. rewrite <- app_assoc. destruct (Hk (S k) ltac:(cbn in *; lia)) as [H1 H2]. split; [done|]. intros _. by apply H2.
Qed.

(** *** No file is listed twice *)

Definition visit_path (v : Visit) : Path := match v with VisitFile e => e.(e_path) | LeaveDir p => p end.

Lemma visit_under self range dir name child v :
  v ∈ visit_entry self range dir (name, child) -> exists path, visit_path v = dir ++ name :: path.
Proof.
  intros [Hv|(es & -> & _ & Hv)]%visit_entry_spec.
  - exists []. destruct v; cbn in *; [by destruct Hv as (_ & -> & _)|by destruct Hv as (_ & _ & ->)].
  - apply walk_visits in Hv as (path & es' & n & c & _ & _ & Hv). exists (path ++ [n]).
    destruct v; cbn in *; [destruct Hv as (_ & -> & _)|destruct Hv as (_ & _ & ->)]; by rewrite <- !app_assoc.
Qed.

Lemma walk_under self range dir es v : v ∈ walk self dir (DirNode es) range ->
  exists name path, visit_path v = dir ++ name :: path /\ name ∈ es.*1.
Proof.
  rewrite walk_dir. intros (l & Hv & Hl)%list_elem_of_join. apply list_elem_of_fmap in Hl as ([name child] & -> & Hin).
  apply visit_under in Hv as [path Hp]. exists name, path. split; [done|]. by apply (list_elem_of_fmap_2 fst _ (name, child)).
Qed.

Lemma walk_NoDup self range node : tree_ok node -> forall dir, NoDup (visit_path <$> walk self dir node range).
Proof.
  induction node as [| |es IH] using Node_tree_ind; intros Hok dir; [constructor..|].
  inversion_clear Hok as [| |? Hnd Hes]. rewrite walk_dir.
  induction es as [|[name child] es IHes]; [constructor|].
  apply Forall_cons in IH as [IH1 IH2]. apply Forall_cons in Hes as [Hok1 Hes]. cbn in IH1, Hok1.
  rewrite fmap_cons in Hnd. apply NoDup_cons in Hnd as [Hnew Hnd].
  rewrite fmap_cons. cbn [mjoin list_join]. rewrite fmap_app. apply NoDup_app. split_and!.
  - cbn [visit_entry]. destruct child as [|es1|]; [by destruct (name_of _ _) as [[]|]; repeat constructor; apply not_elem_of_nil| |constructor].
    destruct (period _ _ _) as [p|]; [|constructor]. destruct (overlaps p range); [|constructor].
    rewrite fmap_app. apply NoDup_app. split_and!; [by apply IH1| |by apply NoDup_singleton].
    intros q (v & -> & Hv)%list_elem_of_fmap Hr%list_elem_of_singleton. apply walk_under in Hv as (n & path & E & _).
    cbn in Hr. rewrite Hr in E. apply (f_equal length) in E. rewrite !length_app in E. cbn in E. lia.
  - intros p (v & -> & Hv)%list_elem_of_fmap (v' & E & Hv')%list_elem_of_fmap.
    apply visit_under in Hv as [path Hp]. rewrite <- walk_dir in Hv'. apply walk_under in Hv' as (n & path' & Hp' & Hn).
    rewrite E, Hp' in Hp. apply app_inv_head in Hp. injection Hp as -> _. done.
  - by apply IHes.
Qed.

Lemma files_NoDup self range node : tree_ok node -> NoDup (e_path <$> files self node range).
Proof.
  intros Hok. pose proof (walk_NoDup self range node Hok self.(root)) as H. unfold files.
  induction (walk self self.(root) node range) as [|v vs IH]; [constructor|].
  rewrite fmap_cons in H. apply NoDup_cons in H as [Hv H]. specialize (IH H). cbn [omap list_omap].
  destruct v as [e|p]; [|done]. destruct (contains _ _); [|done]. rewrite fmap_cons. apply NoDup_cons. split; [|done].
  intros (e' & E & (v & Hin & Hv')%list_elem_of_omap)%list_elem_of_fmap. apply Hv. apply list_elem_of_fmap.
  destruct v as [e''|]; [|done]. destruct (contains _ _); [|done]. injection Hv' as ->. by exists (VisitFile e').
Qed.

(** ** Removing *)

Definition job_of (e : Entry) : Job := mkJob e.(e_path) e.(Layout.window).

(** The entries whose paths name nothing any more. *)
Definition gone (w : World) (entries : list Entry) : list Entry := filter (fun e => look w e.(e_path) = None) entries.

Lemma remove_missing_spec w p i : look w p = Some (File i) ->
  (forall j, content (remove_missing w p).1 j = content w j) /\
  match remove_missing w p with
  | (w', inl _) => look w' p = None /\ same_but (eq p) (look w) (look w')
  | (w', inr _) => same (look w) (look w')
  end.
Proof.
  intros Hp. pose proof (remove_file_law w p) as H. pose proof (remove_file_content w p) as C. unfold remove_missing.
  destruct (remove_file w p) as [w' [[]|[]]]; cbn in *; (split; [done|]); [by destruct H as (_ & _ & H)|by destruct H as [H _]; congruence|done..].
Qed.

Lemma remove_entries_spec hook entries : forall w outcome, NoDup (e_path <$> entries) ->
  Forall (fun e => exists i, look w e.(e_path) = Some (File i)) entries ->
  let '(w', outcome', jobs) := remove_entries hook entries w outcome in
  (forall j, content w' j = content w j) /\
  (forall q, look w' q = look w q \/ look w' q = None /\ q ∈ e_path <$> entries) /\
  outcome'.(removed) = outcome.(removed) + zlen (gone w' entries) /\
  outcome'.(failures) = outcome.(failures) + (zlen entries - zlen (gone w' entries)) /\
  jobs = (if hook then job_of <$> filter (fun e => e.(temporary) = false) (gone w' entries) else []) /\
  (outcome'.(first_failure) = None -> outcome.(first_failure) = None /\ gone w' entries = entries).
Proof.
  induction entries as [|e entries IH]; intros w outcome Hnd Hf.
  { unfold zlen. cbn. split_and!; [done|by left|lia|lia|by destruct hook|done]. }
  rewrite fmap_cons in Hnd. apply NoDup_cons in Hnd as [Hnew Hnd]. apply Forall_cons in Hf as [[i Hi] Hf].
  destruct (remove_missing_spec w e.(e_path) i Hi) as [HC HL]. cbn [remove_entries].
  assert (Hrest : forall w1, same_but (eq e.(e_path)) (look w) (look w1) ->
    Forall (fun e => exists i, look w1 e.(e_path) = Some (File i)) entries).
  { intros w1 Hs. rewrite Forall_forall in *. intros e' He'. destruct (Hf e' He') as [i' Hi']. exists i'. rewrite <- Hs; [done|].
    intros E. apply Hnew. rewrite E. by apply list_elem_of_fmap_2. }
  destruct (remove_missing w e.(e_path)) as [w1 [[]|x]]; cbn [fst] in HC.
  - destruct HL as [Hgone Hs]. specialize (IH w1 (count_removed outcome) Hnd (Hrest w1 Hs)).
    destruct (remove_entries hook entries w1 _) as [[w2 outcome2] jobs]. destruct IH as (H1 & H2 & H3 & H4 & H5 & H6).
    assert (Hg : gone w2 (e :: entries) = e :: gone w2 entries).
    { unfold gone. rewrite filter_cons_True; [done|]. destruct (H2 e.(e_path)) as [->|[-> _]]; done. }
    rewrite Hg. cbn [removed failures first_failure count_removed] in *. rewrite !zlen_cons. split_and!.
    + intros j. by rewrite H1.
    + intros q. destruct (decide (q = e.(e_path))) as [->|Nq].
      * right. split; [by destruct (H2 e.(e_path)) as [->|[-> _]]|by left].
      * destruct (H2 q) as [->|[-> Hq]]; [left; symmetry; by apply Hs|right; split; [done|by right]].
    + lia.
    + lia.
    + subst jobs. destruct hook; [|done]. cbn [andb]. destruct e.(temporary) eqn:Et; cbn [negb app].
      * by rewrite filter_cons_False by congruence.
      * by rewrite filter_cons_True, fmap_cons by done.
    + intros Hn. destruct (H6 Hn) as [H7 H8]. split; [done|]. by f_equal.
  - specialize (IH w1 (count_failure outcome e.(e_path) x) Hnd (Hrest w1 (fun q _ => HL q))).
    destruct (remove_entries hook entries w1 _) as [[w2 outcome2] jobs]. destruct IH as (H1 & H2 & H3 & H4 & H5 & H6).
    assert (Hg : gone w2 (e :: entries) = gone w2 entries).
    { unfold gone. rewrite filter_cons_False; [done|]. destruct (H2 e.(e_path)) as [->|[_ Hin]]; [by rewrite <- HL, Hi|done]. }
    rewrite Hg. cbn [removed failures first_failure count_failure] in *. rewrite !zlen_cons. split_and!.
    + intros j. by rewrite H1.
    + intros q. destruct (H2 q) as [->|[-> Hq]]; [left; symmetry; apply HL|right; split; [done|by right]].
    + lia.
    + lia.
    + done.
    + intros Hn. destruct (H6 Hn) as [H7 _]. by destruct outcome.(first_failure).
Qed.

Lemma gone_same w w' entries :
  (forall e, e ∈ entries -> look w' e.(e_path) = look w e.(e_path)) -> gone w' entries = gone w entries.
Proof.
  induction entries as [|e entries IH]; intros H; [done|]. unfold gone. rewrite !filter_cons.
  rewrite (H e) by by left. fold (gone w' entries) (gone w entries). rewrite IH; [done|]. intros e' He. apply H. by right.
Qed.

(** What removing directories takes away: empty ones. *)
Lemma remove_dirs_spec ps : forall w,
  let w' := remove_dirs ps w in
  forall q, look w' q = look w q \/
    look w' q = None /\ q ∈ ps /\ look w q = Some Dir /\ forall name, look w' (q ++ [name]) = None.
Proof.
  induction ps as [|p ps IH]; intros w w' q; [by left|]. pose proof (remove_dir_law w p) as H. unfold w'. cbn [remove_dirs].
  assert (Hsame : same (look w) (look (remove_dir w p).1) -> look (remove_dirs ps (remove_dir w p).1) q = look w q \/
    look (remove_dirs ps (remove_dir w p).1) q = None /\ q ∈ p :: ps /\ look w q = Some Dir /\
    forall name, look (remove_dirs ps (remove_dir w p).1) (q ++ [name]) = None).
  { intros Hs. destruct (IH (remove_dir w p).1 q) as [->|(-> & Hq & Hd & Hn)]; [left; symmetry; apply Hs|right].
    split_and!; [done|by right|by rewrite (Hs q)|done]. }
  destruct (remove_dir w p) as [w1 [[]|x]]; cbn [fst] in *; [|by apply Hsame].
  destruct H as (Hd & Hempty & Hnone & Hs).
  assert (Hstays : forall q', look w1 q' = None -> look (remove_dirs ps w1) q' = None).
  { intros q' E. destruct (IH w1 q') as [->|[-> _]]; done. }
  destruct (decide (q = p)) as [->|Nq].
  - right. split_and!; [by apply Hstays|by left|done|]. intros name. apply Hstays. rewrite <- Hs; [done|].
    intros E. apply (f_equal length) in E. rewrite length_app in E. cbn in E. lia.
  - destruct (IH w1 q) as [->|(-> & Hq & Hd' & Hn)]; [left; symmetry; by apply Hs|right].
    split_and!; [done|by right|rewrite (Hs q); [done|done]|done].
Qed.
End tree.

Section claims.
Context `{CL : Calendar} `{ST : Storage}.
Context (self : Expiry) (w : World) (now : DateTime).

Definition old_files (cutoff : Z) : list Entry :=
  files self.(x_layout) (tree_of self.(x_layout) w) (until cutoff).

(** A file of the layout from a window before the cutoff. *)
Definition expired (cutoff : Z) (q : Path) : Prop :=
  exists dirs name win temporary, q = self.(x_layout).(root) ++ dirs ++ [name] /\
    name_of self.(x_layout) (from_utf8_lossy name) = Some (win, temporary) /\ timestamp win < cutoff.

(** A partition of the layout with time before the cutoff in it; never the
    root. *)
Definition old_partition (cutoff : Z) (q : Path) : Prop :=
  exists dirs name, q = self.(x_layout).(root) ++ dirs ++ [name] /\
    wanted self.(x_layout) (until cutoff) (self.(x_layout).(root) ++ dirs) name.

Lemma tree_of_dir layout w1 : exists es, tree_of layout w1 = DirNode es.
Proof. apply read_tree_dir. Qed.

Lemma old_files_there cutoff e : e ∈ old_files cutoff ->
  (exists i, look w e.(e_path) = Some (File i)) /\ expired cutoff e.(e_path).
Proof.
  unfold old_files. destruct (tree_of_dir self.(x_layout) w) as [es E]. rewrite E.
  intros (dirs & es' & name & Hd & Hin & Hp & Hn & Hc)%elem_of_files.
  pose proof (inside_snoc _ _ _ _ _ (descends_inside _ _ _ _ _ _ Hd) Hin) as Hi. rewrite <- E in Hi.
  apply inside_look in Hi as (o & Ho & Hs); [|by destruct dirs]. rewrite Hp. split.
  - destruct o; [by eexists|done..].
  - exists dirs, name, e.(Layout.window), e.(temporary). split_and!; [done|done|]. unfold contains, until in Hc. cbn in Hc. lia.
Qed.

Lemma old_dirs cutoff w1 p : p ∈ dirs self.(x_layout) (tree_of self.(x_layout) w1) (until cutoff) -> old_partition cutoff p.
Proof.
  destruct (tree_of_dir self.(x_layout) w1) as [es ->]. intros (path & es' & name & es1 & _ & _ & Hw & ->)%elem_of_dirs.
  by exists path, name.
Qed.

Lemma cutoff_exact : - 2 ^ 62 <= timestamp now <= 2 ^ 62 -> 0 <= as_secs self.(x_max_age) < 2 ^ 62 ->
  cutoff_of self now = timestamp now - as_secs self.(x_max_age).
Proof.
  intros Hn Ha. unfold cutoff_of. rewrite (to_signed_small 64 (as_secs _)) by (unfold fits_i; lia).
  apply to_signed_small; unfold fits_i; lia.
Qed.

(** A sweep, by what it leaves. *)
Lemma sweep_spec cutoff : cutoff_of self now = cutoff ->
  let '(w', outcome, jobs) := run_expiry self w now in
  (forall j, content w' j = content w j) /\
  (forall q, look w' q = look w q \/ look w' q = None /\
    ((exists i, look w q = Some (File i)) /\ expired cutoff q \/
     look w q = Some Dir /\ old_partition cutoff q /\ forall name, look w' (q ++ [name]) = None)) /\
  outcome.(removed) = zlen (gone w' (old_files cutoff)) /\
  outcome.(failures) = zlen (old_files cutoff) - zlen (gone w' (old_files cutoff)) /\
  jobs = (if self.(x_hook) then job_of <$> filter (fun e => e.(temporary) = false) (gone w' (old_files cutoff)) else []).
Proof.
  intros Ec. unfold run_expiry. rewrite Ec. fold (old_files cutoff).
  pose proof (remove_entries_spec self.(x_hook) (old_files cutoff) w Outcome_default) as H.
  destruct (remove_entries _ _ w _) as [[w1 outcome] jobs].
  destruct H as (HC & HL & Hr & Hf & Hj & _).
  { apply files_NoDup, read_tree_ok. }
  { apply Forall_forall. intros e He. by apply (old_files_there cutoff). }
  pose proof (remove_dirs_spec (dirs self.(x_layout) (tree_of self.(x_layout) w1) (until cutoff)) w1) as HD. cbv zeta in HD.
  set (w2 := remove_dirs _ w1) in *.
  assert (Hd : forall j, content w2 j = content w1 j).
  { unfold w2. clear. generalize (dirs (x_layout self) (tree_of (x_layout self) w1) (until cutoff)). intros ps. revert w1.
    induction ps as [|p ps IH]; intros w1 j; [done|]. cbn [remove_dirs]. rewrite IH. apply remove_dir_content. }
  assert (Hg : gone w2 (old_files cutoff) = gone w1 (old_files cutoff)).
  { apply gone_same. intros e He. destruct (old_files_there cutoff e He) as [[i Hi] _].
    destruct (HD e.(e_path)) as [->|(-> & _ & Hdir & _)]; [done|]. destruct (HL e.(e_path)) as [E|[E _]]; congruence. }
  rewrite Hg. cbn [removed failures Outcome_default] in Hr, Hf.
  split_and!; [intros j; by rewrite Hd|intros q|lia|lia|done].
  destruct (HD q) as [->|(-> & Hq & Hdir & He)].
  - destruct (HL q) as [->|[-> Hq]]; [by left|right]. split; [done|]. left.
    apply list_elem_of_fmap in Hq as (e & -> & He). by apply old_files_there.
  - right. split; [done|]. right. split_and!; [|by eapply old_dirs|done].
    destruct (HL q) as [E|[E _]]; congruence.
Qed.

(** A file of a window before the cutoff, at whatever level, is among those
    listed when the directories on its way may be read. *)
Lemma old_file_listed cutoff l stamp suffix pid i dirs :
  layout_ok self.(x_layout) -> four_digits (civil stamp) -> numbered suffix -> fits_i 64 cutoff -> timestamp stamp < cutoff ->
  path_for (at_level self.(x_layout) l) stamp = self.(x_layout).(root) ++ dirs ++ [own_name self.(x_layout) stamp []] ->
  (forall k, (k <= length dirs)%nat -> readable w (self.(x_layout).(root) ++ take k dirs) /\
    (k <> O -> look w (self.(x_layout).(root) ++ take k dirs) = Some Dir)) ->
  let path := self.(x_layout).(root) ++ dirs ++ [file_name self.(x_layout) stamp suffix pid] in
  look w path = Some (File i) -> path ∈ e_path <$> old_files cutoff.
Proof.
  intros Hl Hy Hs Hc Ht Ep Hd path Hf. rewrite path_for_names in Ep by done. cbn [at_level root partitioning level] in Ep.
  set (k := depth_of self.(x_layout).(partitioning) l) in Ep. apply app_inv_head in Ep.
  apply app_inj_2 in Ep as [Ek _]; [|done].
  assert (Hlen : (length dirs <= Z.to_nat (Partitioning.max_depth self.(x_layout).(partitioning)))%nat).
  { rewrite <- Ek, length_take. unfold names_at. destruct self.(x_layout).(partitioning); cbn; lia. }
  destruct (tree_of_dir self.(x_layout) w) as [es E].
  destruct (own_file_listed self.(x_layout) (until cutoff) es stamp suffix pid k) as (win & Hin & _); try done.
  - unfold contains, until. cbn. lia.
  - rewrite Ek, <- E. apply (look_inside w _ _ _ i).
    + rewrite length_app. unfold levels_of. cbn [length]. lia.
    + by destruct dirs.
    + intros j Hj. rewrite length_app in Hj. cbn in Hj. rewrite take_app_le by lia. apply Hd. lia.
    + exact Hf.
  - apply list_elem_of_fmap. eexists. split; [|unfold old_files; rewrite E; exact Hin]. cbn. by rewrite Ek.
Qed.
End claims.

Section claim.
Context `{CL : Calendar} `{ST : Storage}.

(** C19: A sweep removes only files that carry the name of a window before the
    cutoff, and partition directories with time before it that it leaves
    empty; whatever is in another file, and the root, stays.  It does find
    every file a sink of the tree wrote for such a window, numbered, temporary
    or of another level, whose directories may be read: of the files found,
    those gone are counted as removed and the others as failures, and the hook
    is told of those gone that were complete. *)
Theorem expiry_removes_expired self w now :
  - 2 ^ 62 <= timestamp now <= 2 ^ 62 -> 0 <= as_secs self.(x_max_age) < 2 ^ 62 -> layout_ok self.(x_layout) ->
  let layout := self.(x_layout) in
  let cutoff := timestamp now - as_secs self.(x_max_age) in
  let '(w', outcome, jobs) := run_expiry self w now in
  (forall j, content w' j = content w j) /\
  (forall q, look w' q = look w q \/ look w' q = None /\
    ((exists i, look w q = Some (File i)) /\ expired self cutoff q \/
     look w q = Some Dir /\ old_partition self cutoff q /\ forall name, look w' (q ++ [name]) = None)) /\
  look w' layout.(root) = look w layout.(root) /\
  let found := old_files self w cutoff in
  NoDup (e_path <$> found) /\
  (forall p, p ∈ e_path <$> found -> (exists i, look w p = Some (File i)) /\ expired self cutoff p) /\
    (forall l stamp suffix pid i dirs, four_digits (civil stamp) -> numbered suffix -> timestamp stamp < cutoff ->
      path_for (at_level layout l) stamp = layout.(root) ++ dirs ++ [own_name layout stamp []] ->
      (forall k, (k <= length dirs)%nat -> readable w (layout.(root) ++ take k dirs) /\
        (k <> O -> look w (layout.(root) ++ take k dirs) = Some Dir)) ->
      let path := layout.(root) ++ dirs ++ [file_name layout stamp suffix pid] in
      look w path = Some (File i) -> path ∈ e_path <$> found) /\
    outcome.(removed) = zlen (gone w' found) /\ outcome.(failures) = zlen found - zlen (gone w' found) /\
    jobs = (if self.(x_hook) then job_of <$> filter (fun e => e.(temporary) = false) (gone w' found) else []).
Proof.
  intros Hn Ha Hl layout cutoff. pose proof (sweep_spec self w now cutoff (cutoff_exact self now Hn Ha)) as H.
  destruct (run_expiry self w now) as [[w' outcome] jobs]. destruct H as (HC & HL & Hr & Hf & Hj).
  cbv zeta. split_and!; [done|done| | | |intros|done..].
  - destruct (HL layout.(root)) as [?|[_ [[_ (dirs & name & win & t & E & _)]|(_ & (dirs & name & E & _) & _)]]]; [done| |];
      apply (f_equal length) in E; rewrite !length_app in E; cbn in E; unfold layout in E; lia.
  - apply files_NoDup, read_tree_ok.
  - intros p (e & -> & He)%list_elem_of_fmap. by apply old_files_there.
  - eapply old_file_listed; try done. unfold fits_i, cutoff. lia.
Qed.
End claim.
