(* ===== verification/SinkBuild.v ===== *)
(** [build] of [rustflow_collect/src/sink/mod.rs]: the sink, its hooks and its
    expiry that the flags ask for. *)

From Stdlib Require Import ZArith Lia Strings.Byte.
From stdpp Require Import base tactics numbers list.
From S2P Require Import Prelude Std Crates Calendar Layout Storage Destination SinkConfig SinkWindows Encoder Sink Hook Expiry.
#[local] Open Scope Z_scope.

Section build.
Context `{CL : Calendar} `{ST : Storage} `{EN : !Encoders}.

(** What the sink owns: the thread of its hook, and that of its expiry with
    the hook's and how often it looks. *)
Record Built := mkBuilt {
  b_sink : RotatingSink;
  b_exec : option Launcher;
  b_expirer : option (Expiry * option Launcher * Z);
}.

Inductive BuildError := BadHook (message : bytes) | NotOpened (e : ErrorKind).

(** A Parquet file needs its end, so on standard output it is a stream. *)
Definition destination_for (config : SinkConfig) : Destination :=
  match config.(SinkConfig.serialization) with Serialization.Discard => Null | _ => destination_of config end.

Definition serialization_for (config : SinkConfig) : Serialization :=
  match config.(SinkConfig.serialization), destination_for config with
  | Serialization.Parquet, Stdout => Serialization.ArrowIpc
  | serialization, _ => serialization
  end.

(** A hook that may not be asked for. *)
Definition spawn_hook (hook : Hook) (command : option bytes) (root : Path) (metrics : OutputMetrics) : option Launcher + bytes :=
  match command with
  | None => inl None
  | Some command =>
      match FileHook_spawn hook command root metrics with inl launcher => inl (Some launcher) | inr e => inr e end
  end.

(** No result where it panics. *)
Definition build (pid : Z) (config : SinkConfig) (enriched_fields : list bytes) (s : Sys) (now : DateTime) :
    option (Sys * (Built + BuildError)) :=
  let destination := destination_for config in
  match
    match expiry_of config destination with
    | Some expiry =>
        match spawn_hook Hook.ExpireExec config.(expire_exec) expiry.(x_layout).(root) s.(Encoder.metrics) with
        | inl launcher => inl (Some (expiry, launcher))
        | inr e => inr e
        end
    | None => inl None
    end
  with
  | inr message => Some (s, inr (BadHook message))
  | inl expiry =>
      '(s, opened) ← open_at pid (serialization_for config) destination enriched_fields s now;
      match opened with
      | inr e => Some (s, inr (NotOpened e))
      | inl sink =>
          match spawn_hook Hook.Exec config.(exec) (default [] config.(path)) s.(Encoder.metrics) with
          | inr message => Some (s, inr (BadHook message))
          | inl launcher =>
              let sink := match launcher with Some _ => with_hook sink | None => sink end in
              match expiry with
              | None => Some (s, inl (mkBuilt sink launcher None))
              | Some (expiry, hook) =>
                  every ← sweep_every expiry.(x_max_age) (default expiry.(x_max_age) config.(interval));
                  Some (s, inl (mkBuilt sink launcher (Some (expiry, hook, every))))
              end
          end
      end
  end.

Lemma sweep_every_spec max_age interval : 0 <= interval <= max_age ->
  exists every, sweep_every max_age interval = Some every /\ interval <= every <= max_age /\
    every <= Z.max MAX_SWEEP_GAP interval.
Proof.
  intros H. unfold sweep_every, clamp. destruct (Z.ltb_spec (Z.max MAX_SWEEP_GAP interval) interval); [lia|].
  eexists. split; [done|]. pose proof (Z.div_le_upper_bound max_age 100 max_age ltac:(lia) ltac:(lia)). lia.
Qed.

Lemma sink_config_spec args config : sink_config args = inl config ->
  (config.(path) = args.(a_output) /\ config.(interval) = args.(a_interval) /\ config.(exec) = args.(a_exec) /\
   config.(expire) = args.(a_expire) /\ config.(SinkConfig.serialization) = args.(a_serialization)) /\
  (forall max_age every, args.(a_expire) = Some max_age -> args.(a_interval) = Some every -> every <= max_age).
Proof.
  unfold sink_config. destruct (_ && _); [done|]. destruct (match a_interval args with Some i => check_interval i _ | None => _ end); [|done].
  destruct (a_expire args) as [e|] eqn:Ee, (a_interval args) as [i|] eqn:Ei; try destruct (Z.ltb_spec e i); intros [= <-]; cbn;
    (split; [done|]); intros; simplify_eq; lia.
Qed.

Lemma spawn_hook_asked hook command root metrics launcher :
  spawn_hook hook command root metrics = inl launcher -> is_Some launcher <-> is_Some command.
Proof.
  unfold spawn_hook. destruct command as [c|]; [|by intros [= <-]]. destruct (FileHook_spawn _ _ _ _); [|done].
  intros [= <-]. split; by eexists.
Qed.

Lemma expiry_of_spec config :
  match expiry_of config (destination_for config) with
  | Some x => config.(expire) = Some x.(x_max_age) /\ is_Some config.(path) /\ config.(SinkConfig.serialization) <> Serialization.Discard /\
      exists interval, config.(SinkConfig.interval) = Some interval /\
        destination_for config = Partitioned x.(x_layout) (to_signed 64 (as_secs interval))
  | None => ~ (is_Some config.(expire) /\ is_Some config.(interval) /\ is_Some config.(path) /\
      config.(SinkConfig.serialization) <> Serialization.Discard)
  end.
Proof.
  unfold expiry_of, destination_for, destination_of.
  destruct (expire config) as [max_age|]; [|by intros [[? ?] _]].
  destruct (SinkConfig.serialization config) eqn:Es; try (by intros (_ & _ & _ & ?));
    (destruct (path config) as [root|]; [|by intros (_ & _ & [? ?] & _)]);
    (destruct (interval config) as [i|]; [|by intros (_ & [? ?] & _)]);
    (split; [done|]; split; [done|]; split; [done|]; by exists i).
Qed.

(** For flags that were accepted, building the sink panics only if opening it
    does.  The sink built reports its files exactly when a command was given.
    Files are expired exactly when that was asked for and the output is a tree,
    the one the sink writes; and they are looked for no more often than once
    per interval, and at least once every hour or interval, and once in the age
    they are kept for. *)
Theorem build_spec args config pid enriched_fields s now :
  sink_config args = inl config -> (forall every, args.(a_interval) = Some every -> 0 <= every) ->
  (build pid config enriched_fields s now = None ->
    open_at pid (serialization_for config) (destination_for config) enriched_fields s now = None) /\
  forall s' built, build pid config enriched_fields s now = Some (s', inl built) ->
    (exists sink, open_at pid (serialization_for config) (destination_for config) enriched_fields s now = Some (s', inl sink) /\
      built.(b_sink) = (if bool_decide (is_Some args.(a_exec)) then with_hook sink else sink)) /\
    (is_Some built.(b_exec) <-> is_Some args.(a_exec)) /\
    (is_Some built.(b_expirer) <-> is_Some args.(a_expire) /\ is_Some args.(a_interval) /\ is_Some args.(a_output) /\
      args.(a_serialization) <> Serialization.Discard) /\
    forall expiry hook every, built.(b_expirer) = Some (expiry, hook, every) ->
      args.(a_expire) = Some expiry.(x_max_age) /\
      exists interval, args.(a_interval) = Some interval /\
        destination_for config = Partitioned expiry.(x_layout) (to_signed 64 (as_secs interval)) /\
        interval <= every <= expiry.(x_max_age) /\ every <= Z.max MAX_SWEEP_GAP interval.
Proof.
  intros Hc Hi. destruct (sink_config_spec args config Hc) as [(Ep & Ei & Ex & Ee & Es) Hage].
  pose proof (expiry_of_spec config) as Hx. unfold build.
  destruct (expiry_of config (destination_for config)) as [x|].
  - destruct Hx as (E1 & Hpath & Hser & interval & E2 & Ed).
    assert (Hle : 0 <= interval <= x.(x_max_age)).
    { split; [apply Hi; congruence|apply (Hage _ interval); congruence]. }
    destruct (spawn_hook Hook.ExpireExec _ _ _) as [launcher|]; [|split; [done|by intros]].
    destruct (open_at _ _ _ _ _ _) as [[s1 [sink|e]]|]; cbn [mbind option_bind]; [|split; [done|by intros]|by split].
    destruct (spawn_hook Hook.Exec _ _ _) as [exec_launcher|] eqn:Ek; [|split; [done|by intros]].
    pose proof (spawn_hook_asked _ _ _ _ _ Ek) as Hk. rewrite E2. change (default (x_max_age x) (Some interval)) with interval.
    destruct (sweep_every_spec _ _ Hle) as (every & -> & Hev). cbn [mbind option_bind]. split; [done|].
    intros s' built [= <- <-]. cbn [b_sink b_exec b_expirer]. rewrite <- Ex, <- Ei, <- Ep, <- Es, <- Ee. split_and!.
    + exists sink. split; [done|]. case_bool_decide as Hb; [|].
      * apply Hk in Hb as [? ->]. done.
      * destruct exec_launcher; [exfalso; apply Hb, Hk; by eexists|done].
    + done.
    + split; [intros _; rewrite E1, E2; by split_and!|by eexists].
    + intros expiry hook every' [= -> -> ->]. split; [done|]. exists interval. by split_and!; [| |lia..].
  - destruct (open_at _ _ _ _ _ _) as [[s1 [sink|e]]|]; cbn [mbind option_bind]; [|split; [done|by intros]|by split].
    destruct (spawn_hook Hook.Exec _ _ _) as [exec_launcher|] eqn:Ek; [|split; [done|by intros]].
    pose proof (spawn_hook_asked _ _ _ _ _ Ek) as Hk. split; [done|].
    intros s' built [= <- <-]. cbn [b_sink b_exec b_expirer]. rewrite <- Ex, <- Ei, <- Ep, <- Es, <- Ee. split_and!.
    + exists sink. split; [done|]. case_bool_decide as Hb; [|].
      * apply Hk in Hb as [? ->]. done.
      * destruct exec_launcher; [exfalso; apply Hb, Hk; by eexists|done].
    + done.
    + split; [by intros [? ?]|by intros H].
    + done.
Qed.
End build.

(** ** Samples

    A sweep of a small tree, and flags that ask for sweeps. *)

From stdpp Require Import gmap.
From S2P Require Import LayoutFacts Ndjson SinkSamples ExpiryFacts.
#[local] Open Scope Z_scope.

Section samples.
#[local] Instance sample_crates : Crates := crates_std.
#[local] Instance sample_calendar : Calendar := calendar_std.
#[local] Instance sample_storage : Storage := storage_std.

(** A file from 12:00, one from 13:00 and one that is not the tree's. *)
Definition sample_day : Path := [str "out"; str "date=2026-08-27"].

Definition swept_names : gmap Path Obj := list_to_map [
  ([str "out"], Dir); (sample_day, Dir); (sample_day ++ [str "hour=12"], Dir); (sample_day ++ [str "hour=13"], Dir);
  (sample_day ++ [str "hour=12"; str "flows-20260827T120000Z.parquet"], File 1);
  (sample_day ++ [str "hour=13"; str "flows-20260827T130000Z-2.parquet"], File 2);
  ([str "out"; str "notes-20260827T120000Z.parquet"], File 3)].

Definition swept_world : World := mkStore swept_names ∅.

(** 2026-08-27 14:00:00, and files kept for an hour. *)
Definition sample_now : DateTime := exist (fun p => timestamp_ok p = true) (1_787_839_200, 0) eq_refl.

Definition sample_expiry : Expiry := mkExpiry sample_layout (from_secs 3600) true.

Definition swept : World * Outcome * list Job := run_expiry sample_expiry swept_world sample_now.

Example sample_swept :
  let '(w, outcome, jobs) := swept in
  bool_decide (look w (sample_day ++ [str "hour=12"]) = None) && bool_decide (look w sample_day = Some Dir) &&
  (outcome.(removed) =? 1) && (outcome.(failures) =? 0) &&
  bool_decide (job_path <$> jobs = [sample_day ++ [str "hour=12"; str "flows-20260827T120000Z.parquet"]]) = true.
Proof. vm_compute. reflexivity. Qed.

Lemma expiry_removes_expired_witness :
  look swept.1.1 [str "out"] = Some Dir /\ swept.1.2.(removed) = 1 /\
  swept.1.2.(removed) = zlen (gone swept.1.1 (old_files sample_expiry swept_world 1_787_835_600)).
Proof.
  pose proof (expiry_removes_expired sample_expiry swept_world sample_now ltac:(cbn; lia) ltac:(vm_compute; split; discriminate || reflexivity)
    sample_layout_ok) as H. cbv zeta in H. fold swept in H.
  assert (Hr : swept.1.2.(removed) = 1) by (vm_compute; reflexivity).
  destruct swept as [[w outcome] jobs]. cbn [fst snd] in *. destruct H as (_ & _ & Hroot & _ & _ & _ & Hc & _).
  split; [exact Hroot|]. split; [exact Hr|exact Hc].
Defined.

#[local] Instance sample_json : SerdeJson := fun flow entries => inl (str "{}").
#[local] Instance sample_encoders : Encoders := text_encoders.

(** Half-hourly files, kept for a day and reported when they go. *)
Definition expiring_args : CollectArgs :=
  mkCollectArgs OutputFormat.Common Serialization.Ndjson (Some [str "out"]) (Some (from_secs 1800)) (Some 2) true
    (str "flows") None (Some (from_secs 86400)) (Some (str "archive --gone %p")).

Definition expiring_config : SinkConfig :=
  mkSinkConfig (Some [str "out"]) Serialization.Ndjson (Some (from_secs 1800)) 2 Partitioning.Hive
    (str "flows") None (Some (from_secs 86400)) (Some (str "archive --gone %p")).

Lemma expiring_accepted : sink_config expiring_args = inl expiring_config.
Proof. vm_compute. reflexivity. Qed.

Lemma build_spec_witness :
  exists config, sink_config expiring_args = inl config /\ Forall (fun s =>
    match build 7 config [] s sample_now with
    | Some (_, inl built) =>
        match built.(b_expirer) with Some (expiry, _, every) => from_secs 1800 <= every <= expiry.(x_max_age) | None => False end
    | _ => True
    end) [mkSys swept_world (mkMetrics 0 0 0 0 0 0 0 0 0 0)].
Proof.
  exists expiring_config. split; [exact expiring_accepted|]. constructor; [|constructor].
  destruct (build_spec expiring_args expiring_config 7 [] (mkSys swept_world (mkMetrics 0 0 0 0 0 0 0 0 0 0)) sample_now
    expiring_accepted) as [_ H]; [intros every [= <-]; unfold from_secs; lia|].
  destruct (build 7 expiring_config [] _ sample_now) as [[s' [built|e]]|]; [|exact I|exact I].
  specialize (H s' built eq_refl). destruct H as (_ & _ & Hx & Hs). destruct (b_expirer built) as [[[expiry hook] every]|].
  - destruct (Hs expiry hook every eq_refl) as (_ & interval & E & _ & He & _). injection E as <-. exact He.
  - destruct Hx as [_ Hx]. destruct Hx as [x Hx]; [|discriminate Hx].
    split; [by eexists|]. split; [by eexists|]. split; [by eexists|discriminate].
Defined.
End samples.
