(* ===== verification/Source.v ===== *)
(** [rustflow_collect/src/source.rs]: where datagrams come from.

    What a socket receives and what a capture file holds are sequences here,
    and so are the answers to whether shutdown was requested, which another
    thread decides. *)

From Stdlib Require Import ZArith Lia Strings.Byte.
From stdpp Require Import base tactics numbers list.
From S2P Require Import Prelude Std Crates Etherparse Packet.
#[local] Open Scope Z_scope.

(** [Shutdown::request], on the flag. *)
Definition request (requested : bool) : bool * bool := (true, requested).

Inductive Datagram :=
  | DatagramPacket (src : IpAddr) (payload : bytes) (time_received_ns : option Z)
  | Idle
  | End.

(** [Source]: a step of its own state. *)
Class Source (S : Type) := { next : S -> S * Datagram }.

(** ** Sockets *)

(** The kinds of error a receive may have. *)
Inductive RecvError := WouldBlock | TimedOut | Interrupted | OtherRecvError.

Definition is_retryable (e : RecvError) : bool :=
  match e with WouldBlock | TimedOut | Interrupted => true | OtherRecvError => false end.

Definition BUFFER_SIZE : Z := 65535.

Section source.
Context `{CR : Crates}.

(** What a receive gives, and [Utc::now] after it. *)
Inductive Received := ReceivedFrom (data : bytes) (addr : IpAddr) (now : DateTime) | RecvFailed (e : RecvError).

(** The receives to come, each with whether shutdown is requested before it;
    so many have been done. *)
Record Socket := mkSocket { receives : nat -> bool * Received; at_ : nat }.

Definition Socket_next (self : Socket) : Socket * Datagram :=
  let '(requested, received) := self.(receives) self.(at_) in
  if requested then (self, End)
  else
    (mkSocket self.(receives) (S self.(at_)),
     match received with
     | ReceivedFrom data addr now => DatagramPacket addr (take (Z.to_nat BUFFER_SIZE) data) (timestamp_nanos_opt now)
     | RecvFailed e => if is_retryable e then Idle else (* and an error in the log *) Idle
     end).

#[export] Instance Socket_Source : Source Socket := {| next := Socket_next |}.

(** ** Capture files *)

(** A packet of a capture with its time in nanoseconds, or where reading
    fails. *)
Inductive PcapItem := PcapPacket (timestamp_ns : Z) (data : bytes) | PcapError.

Context `{EP : Etherparse}.

Record Pcap := mkPcap {
  link_type : Z;
  unread : list PcapItem;
  stops : nat -> bool;
  polled : nat;
}.

(** The loop of [Pcap::next]; without more packets it ends. *)
Fixpoint next_from (link_type : Z) (unread : list PcapItem) (stops : nat -> bool) (polled : nat) : Pcap * Datagram :=
  if stops polled then (mkPcap link_type unread stops polled, End)
  else
    match unread with
    | [] => (mkPcap link_type [] stops (S polled), End)
    | PcapError :: unread => (mkPcap link_type unread stops (S polled), End)
    | PcapPacket timestamp_ns data :: unread =>
        match parse_udp_packet link_type data with
        | None => next_from link_type unread stops (S polled)
        | Some (src, payload) =>
            (mkPcap link_type unread stops (S polled),
             DatagramPacket src payload (if timestamp_ns <? 2 ^ 63 then Some timestamp_ns else None))
        end
    end.

Definition Pcap_next (self : Pcap) : Pcap * Datagram :=
  next_from self.(link_type) self.(unread) self.(stops) self.(polled).

#[export] Instance Pcap_Source : Source Pcap := {| next := Pcap_next |}.
End source.

(** ** Metrics

    [rustflow_collect/src/metrics.rs]: what the ingest threads count of each
    exporter.

    A family of counters is a map from labels to values, which stay what the
    counters of the prometheus_client crate count up to 64 bits.  A counter a
    thread holds on to is the label it was made for: what it counts is seen in
    the family. *)

From stdpp Require Import gmap.
From S2P Require Import Storage Text.
#[local] Open Scope Z_scope.

(** ** Addresses as text *)

(** [Ipv4Addr::to_string] *)
Definition show_v4 (a : Z) : bytes :=
  show (a / 2 ^ 24 mod 256) ++ str "." ++ show (a / 2 ^ 16 mod 256) ++ str "." ++ show (a / 2 ^ 8 mod 256) ++ str "." ++ show (a mod 256).

(** [{:x}] of a group of sixteen bits. *)
Definition hex_digit (d : Z) : byte := byte_of (if d <? 10 then 48 + d else 87 + d).

Definition show_hex (g : Z) : bytes :=
  (if 0x1000 <=? g then [hex_digit (g / 0x1000)] else []) ++
  (if 0x100 <=? g then [hex_digit (g / 0x100 mod 16)] else []) ++
  (if 0x10 <=? g then [hex_digit (g / 0x10 mod 16)] else []) ++ [hex_digit (g mod 16)].

Definition segments (a : Z) : list Z := (fun i => a / 2 ^ (16 * (7 - i)) mod 2 ^ 16) <$> [0; 1; 2; 3; 4; 5; 6; 7].

(** How many groups from the start are zero. *)
Fixpoint leading_zeroes (gs : list Z) : nat := match gs with 0 :: gs => S (leading_zeroes gs) | _ => O end.

(** Where the first of the longest runs of zero groups starts, and how long it
    is. *)
Fixpoint longest_run (i : nat) (gs : list Z) (best : nat * nat) : nat * nat :=
  match gs with
  | [] => best
  | _ :: gs' =>
      let n := leading_zeroes gs in
      longest_run (S i) gs' (if (best.2 <? n)%nat then (i, n) else best)
  end.

Fixpoint show_groups (gs : list Z) : bytes :=
  match gs with [] => [] | [g] => show_hex g | g :: gs => show_hex g ++ str ":" ++ show_groups gs end.

(** [Ipv6Addr::to_string] *)
Definition show_v6 (a : Z) : bytes :=
  if a / 2 ^ 32 =? 0xffff then str "::ffff:" ++ show_v4 (a mod 2 ^ 32)
  else
    let gs := segments a in
    let '(start, len) := longest_run 0 gs (0%nat, 0%nat) in
    if (1 <? len)%nat then show_groups (take start gs) ++ str "::" ++ show_groups (drop (start + len) gs)
    else show_groups gs.

Definition show_ip (ip : IpAddr) : bytes := match ip with V4 a => show_v4 a | V6 a => show_v6 a end.

Example show_ips :
  show_ip (V4 0xc0a80001) = str "192.168.0.1" /\ show_ip (V6 1) = str "::1" /\ show_ip (V6 0) = str "::" /\
  show_ip (V6 (0x20010db8 * 2 ^ 96 + 0x10002)) = str "2001:db8::1:2" /\
  show_ip (V6 (0x20010db8 * 2 ^ 96 + 2 ^ 80 + 0x0001000000000001)) = str "2001:db8:1:0:1::1" /\
  show_ip (V6 (0xffff01020304)) = str "::ffff:1.2.3.4".
Proof. vm_compute. repeat split. Qed.

(** ** Families *)

Record TypeSourceLabel := mkTypeSource { l_type : bytes; l_source_ip : bytes }.

#[export] Instance TypeSourceLabel_eq_dec : EqDecision TypeSourceLabel.
Proof. solve_decision. Defined.

#[export] Program Instance TypeSourceLabel_countable : Countable TypeSourceLabel :=
  inj_countable' (fun l => (l.(l_type), l.(l_source_ip))) (fun p => mkTypeSource p.1 p.2) _.
Next Obligation. by intros []. Qed.

(** [SourceLabel]: a source address alone. *)
Abbreviation SourceLabel := bytes.

Record InputMetrics := mkInput {
  packets_received : gmap TypeSourceLabel Z;
  bytes_received : gmap SourceLabel Z;
  flows_processed : gmap TypeSourceLabel Z;
  parse_errors : gmap TypeSourceLabel Z;
  unknown_version : gmap SourceLabel Z;
  exporter_last_seen : gmap TypeSourceLabel Z;
}.

Definition InputMetrics_new : InputMetrics := mkInput ∅ ∅ ∅ ∅ ∅ ∅.

(** [Family::get_or_create]: a counter is there from then on. *)
Definition get_or_create {K} `{Countable K} (family : gmap K Z) (label : K) : gmap K Z :=
  match family !! label with Some _ => family | None => <[label := 0]> family end.

Definition inc_by {K} `{Countable K} (family : gmap K Z) (label : K) (n : Z) : gmap K Z :=
  <[label := default 0 (family !! label) + n]> family.

(** ** A thread's metrics *)

(** The labels of the counters a thread holds for an exporter and a version. *)
Record ExporterCounters := mkCounters {
  k_packets_received : TypeSourceLabel;
  k_bytes_received : SourceLabel;
  k_flows_processed : TypeSourceLabel;
  k_parse_errors : TypeSourceLabel;
}.

Record ExporterMetrics := mkExporterMetrics {
  family : bytes;
  counters : gmap (IpAddr * bytes) ExporterCounters;
  last_seen : gmap IpAddr TypeSourceLabel;
}.

Definition ExporterMetrics_new (family : bytes) : ExporterMetrics := mkExporterMetrics family ∅ ∅.

(** The number of whole seconds of a time; the one at the call when there is
    none, which is 0 before 1970. *)
Definition seen_at (time_received_ns : option Z) (now : Z) : Z :=
  match time_received_ns with Some ns => ns / 1_000_000_000 | None => Z.max 0 now end.

Definition heard_from (self : ExporterMetrics) (m : InputMetrics) (src : IpAddr) (time_received_ns : option Z) (now : Z) :
    ExporterMetrics * InputMetrics :=
  let '(self, label, seen) :=
    match self.(last_seen) !! src with
    | Some label => (self, label, m.(exporter_last_seen))
    | None =>
        let label := mkTypeSource self.(family) (show_ip src) in
        (mkExporterMetrics self.(family) self.(counters) (<[src := label]> self.(last_seen)), label,
         get_or_create m.(exporter_last_seen) label)
    end in
  (self, mkInput m.(packets_received) m.(bytes_received) m.(flows_processed) m.(parse_errors) m.(unknown_version)
    (<[label := seen_at time_received_ns now]> seen)).

(** [ExporterMetrics::get_or_create] *)
Definition get_counters (self : ExporterMetrics) (m : InputMetrics) (src : IpAddr) (version : bytes) :
    ExporterMetrics * InputMetrics * ExporterCounters :=
  match self.(counters) !! (src, version) with
  | Some c => (self, m, c)
  | None =>
      let source_ip := show_ip src in
      let by_family := mkTypeSource self.(family) source_ip in
      let by_version := mkTypeSource version source_ip in
      let c := mkCounters by_family source_ip by_version by_version in
      (mkExporterMetrics self.(family) (<[(src, version) := c]> self.(counters)) self.(last_seen),
       mkInput (get_or_create m.(packets_received) by_family) (get_or_create m.(bytes_received) source_ip)
         (get_or_create m.(flows_processed) by_version) (get_or_create m.(parse_errors) by_version)
         m.(unknown_version) m.(exporter_last_seen), c)
  end.

Definition record_packet (self : ExporterMetrics) (m : InputMetrics) (src : IpAddr) (version : bytes) (len flow_count : Z) :
    ExporterMetrics * InputMetrics :=
  let '(self, m, c) := get_counters self m src version in
  (self, mkInput (inc_by m.(packets_received) c.(k_packets_received) 1) (inc_by m.(bytes_received) c.(k_bytes_received) len)
    (inc_by m.(flows_processed) c.(k_flows_processed) flow_count) m.(parse_errors) m.(unknown_version) m.(exporter_last_seen)).

Definition record_parse_error (self : ExporterMetrics) (m : InputMetrics) (src : IpAddr) (version : bytes) (len : Z) :
    ExporterMetrics * InputMetrics :=
  let '(self, m, c) := get_counters self m src version in
  (self, mkInput (inc_by m.(packets_received) c.(k_packets_received) 1) (inc_by m.(bytes_received) c.(k_bytes_received) len)
    m.(flows_processed) (inc_by m.(parse_errors) c.(k_parse_errors) 1) m.(unknown_version) m.(exporter_last_seen)).

Definition record_unknown_version (self : ExporterMetrics) (m : InputMetrics) (src : IpAddr) (len : Z) : InputMetrics :=
  let source_ip := show_ip src in
  mkInput (inc_by m.(packets_received) (mkTypeSource self.(family) source_ip) 1) (inc_by m.(bytes_received) source_ip len)
    m.(flows_processed) m.(parse_errors) (inc_by m.(unknown_version) source_ip 1) m.(exporter_last_seen).
