(* ===== verification/Collect.v ===== *)
(** [rustflow_collect/src/lib.rs]: an ingest thread, from its source to its
    end of the pipeline, and the threads of a collector over the channel.

    [Tick]s are what a round of the loop takes from outside: the instants
    around its work on the producer, the time of day in seconds, and whether
    the encoder is gone when it sends.  The JSON text of a packet is what serde
    makes of it. *)

From Stdlib Require Import ZArith Lia Strings.Byte.
From stdpp Require Import base tactics numbers list gmap.
From S2P Require Import Prelude Nom Std Crates Calendar IERegistry Etherparse CommonFlow Processor Storage SinkConfig Encoder Sink SinkFacts EnrichEngine Pipeline PipelineRun Source.
#[local] Open Scope Z_scope.

(** The encoder thread is gone. *)
Inductive EncoderGone := GoneEncoder.

Record Tick := mkTick { started : Z; ended : Z; unix_now : Z; gone : bool }.

Section collect.
Context `{CR : Crates} {S Pkt A : Type} `{PK : !Packet Pkt} `{PR : !Processor S Pkt} `{SO : !Source A}.
Context (to_json : Pkt -> bytes) (format : OutputFormat).

Record Collector := mkCollector {
  source : A;
  processor : nat * S;
  exporters : ExporterMetrics;
  metrics : InputMetrics;
  output : Producer;
}.

(** What sending leaves: nothing goes out once the encoder is gone. *)
Definition sending (tick : Tick) (chunks : list Chunk) : list Chunk * option EncoderGone :=
  if tick.(gone) && negb (bool_decide (chunks = [])) then ([], Some GoneEncoder) else (chunks, None).

(** A datagram's part in a round: what is counted, and what the producer is
    given if it parses. *)
Definition on_datagram (self : Collector) (tick : Tick) (src : IpAddr) (payload : bytes) (time_received_ns : option Z) :
    Collector * list Chunk :=
  let '(exporters, metrics) := heard_from self.(exporters) self.(metrics) src time_received_ns tick.(unix_now) in
  match parse self.(processor) src payload with
  | (processor, None) =>
      let '(exporters, metrics) :=
        match version_of payload with
        | Some version => record_parse_error exporters metrics src (FlowType.name version) (zlen payload)
        | None => (exporters, record_unknown_version exporters metrics src (zlen payload))
        end in
      (mkCollector self.(source) processor exporters metrics self.(output), [])
  | (processor, Some packet) =>
      let '(exporters, metrics) :=
        record_packet exporters metrics src (FlowType.name (version packet)) (zlen payload) (flow_count packet) in
      let '(output, chunks) :=
        match format with
        | OutputFormat.Raw => push_raw self.(output) (to_json packet) (flow_count packet) tick.(started) tick.(ended)
        | OutputFormat.Common =>
            push self.(output) (convert_into processor.2 src packet time_received_ns) tick.(started) tick.(ended)
        end in
      (mkCollector self.(source) processor exporters metrics output, chunks)
  end.

(** A round of the loop: [inr] ends it. *)
Definition turn (self : Collector) (tick : Tick) : Collector * list Chunk * (unit + option EncoderGone) :=
  let '(source, datagram) := next self.(source) in
  let self := mkCollector source self.(processor) self.(exporters) self.(metrics) self.(output) in
  match datagram with
  | End => (self, [], inr None)
  | Idle =>
      let '(output, chunks) := producer_flush self.(output) in
      let '(chunks, failed) := sending tick chunks in
      (mkCollector source self.(processor) self.(exporters) self.(metrics) output, chunks,
       match failed with Some e => inr (Some e) | None => inl tt end)
  | DatagramPacket src payload time_received_ns =>
      let '(self, chunks) := on_datagram self tick src payload time_received_ns in
      let '(chunks, failed) := sending tick chunks in
      (self, chunks, match failed with Some e => inr (Some e) | None => inl tt end)
  end.

(** [collect], for so many rounds: the chunks sent, and the error if any.  The
    producer is dropped at the end, which sends what it holds. *)
Fixpoint collect (rounds : nat) (self : Collector) (ticks : nat -> Tick) : option (Collector * list Chunk * option EncoderGone) :=
  match rounds with
  | O => None
  | Datatypes.S rounds =>
      match turn self (ticks 0%nat) with
      | (self, chunks, inr result) =>
          let '(output, last) := producer_flush self.(output) in
          Some (mkCollector self.(source) self.(processor) self.(exporters) self.(metrics) output,
            chunks ++ (sending (ticks 0%nat) last).1, result)
      | (self, chunks, inl _) =>
          '(self, more, result) ← collect rounds self (fun n => ticks (Datatypes.S n));
          Some (self, chunks ++ more, result)
      end
  end.

(** [ingest], with whether shutdown is requested by then. *)
Definition ingest (rounds : nat) (self : Collector) (ticks : nat -> Tick) (requested : bool) :
    option (Collector * list Chunk * bool) :=
  '(self, chunks, result) ← collect rounds self ticks;
  Some (self, chunks, match result with Some GoneEncoder => (request requested).1 | None => requested end).
End collect.

(** What an ingest thread starts with. *)
Definition start `{CR : Crates} {A S : Type} (name : bytes) (source : A) (processor : nat * S) (metrics : InputMetrics) (output : Producer) :
    Collector (S := S) (A := A) :=
  mkCollector source processor (ExporterMetrics_new name) metrics output.

(** What every ingest thread decodes with. *)
Record Decoding := mkDecoding { d_format : OutputFormat; d_ie_registry : IERegistry; d_template_timeout : Z }.

Section threads.
Context `{NM : Nom} `{CR : Crates} `{CK : Clock} `{EP : Etherparse} {A : Type} `{SO : !Source A}.

(** The processor of a NetFlow thread. *)
Definition netflow_processor (decoding : Decoding) (reads : nat) : nat * NetflowProcessor :=
  let '(reads, processor) := NetflowProcessor_new reads in
  (reads, with_template_timeout (with_ie_registry processor decoding.(d_ie_registry)) decoding.(d_template_timeout)).

(** [ingest], for either family. *)
Definition ingest_netflow (to_json : NetflowPacket -> bytes) (decoding : Decoding) (source : A) (metrics : InputMetrics)
    (output : Producer) (reads : nat) (rounds : nat) (ticks : nat -> Tick) (requested : bool) :=
  ingest to_json decoding.(d_format) rounds
    (start (str "netflow") source (netflow_processor decoding reads) metrics output) ticks requested.

Definition ingest_sflow (to_json : SflowPacket -> bytes) (decoding : Decoding) (source : A) (metrics : InputMetrics)
    (output : Producer) (reads : nat) (rounds : nat) (ticks : nat -> Tick) (requested : bool) :=
  ingest to_json decoding.(d_format) rounds
    (start (str "sflow") source (reads, SflowProcessor_new) metrics output) ticks requested.
End threads.

(** ** The threads of a collector

    [run] has a thread for every input, which goes its rounds and sends what
    they give over the channel, and a thread with the encoder at its other end.
    A thread that sends waits while the channel is full.  What threads count
    together each counts by itself here. *)

(** [args::FlowType] *)
Inductive Family := NetflowFamily | SflowFamily.

Section inputs.
Context `{NM : Nom} `{CR : Crates} `{CK : Clock} `{EP : Etherparse}.

(** [Box<dyn Source>], of [open]. *)
Inductive AnySource := SocketSource (self : Socket) | PcapSource (self : Pcap).

Definition AnySource_next (self : AnySource) : AnySource * Datagram :=
  match self with
  | SocketSource self => let '(self, d) := next self in (SocketSource self, d)
  | PcapSource self => let '(self, d) := next self in (PcapSource self, d)
  end.

#[export] Instance AnySource_Source : Source AnySource := {| next := AnySource_next |}.

(** An input that was opened, with what its thread starts from: the metrics and
    how often the clock was read. *)
Record Input := mkInput { in_family : Family; in_source : AnySource; in_metrics : InputMetrics; in_reads : nat }.

(** An ingest thread, by its family. *)
Inductive Ingest :=
  | IngestNetflow (self : Collector (S := NetflowProcessor) (A := AnySource))
  | IngestSflow (self : Collector (S := SflowProcessor) (A := AnySource)).

(** [ingest], to its loop. *)
Definition spawn (decoding : Decoding) (output : Producer) (input : Input) : Ingest :=
  match input.(in_family) with
  | NetflowFamily =>
      IngestNetflow (start (str "netflow") input.(in_source) (netflow_processor decoding input.(in_reads)) input.(in_metrics) output)
  | SflowFamily =>
      IngestSflow (start (str "sflow") input.(in_source) (input.(in_reads), SflowProcessor_new) input.(in_metrics) output)
  end.

Definition ingest_output (self : Ingest) : Producer :=
  match self with IngestNetflow self => self.(output) | IngestSflow self => self.(output) end.

Definition with_output (self : Ingest) (output : Producer) : Ingest :=
  match self with
  | IngestNetflow self => IngestNetflow (mkCollector self.(source) self.(processor) self.(exporters) self.(metrics) output)
  | IngestSflow self => IngestSflow (mkCollector self.(source) self.(processor) self.(exporters) self.(metrics) output)
  end.

Context (netflow_json : NetflowPacket -> bytes) (sflow_json : SflowPacket -> bytes) (format : OutputFormat).

Definition ingest_turn (self : Ingest) (tick : Tick) : Ingest * list Chunk * (unit + option EncoderGone) :=
  match self with
  | IngestNetflow self => let '(self, chunks, r) := turn netflow_json format self tick in (IngestNetflow self, chunks, r)
  | IngestSflow self => let '(self, chunks, r) := turn sflow_json format self tick in (IngestSflow self, chunks, r)
  end.
End inputs.

Section collecting.
Context `{NM : Nom} `{CK : Clock} `{EP : Etherparse} `{CL : Calendar} `{ST : Storage} `{EN : !Encoders}.
Context (netflow_json : NetflowPacket -> bytes) (sflow_json : SflowPacket -> bytes) (format : OutputFormat).
Context (pid : Z) (enrichment : EnrichmentEngine).

(** A thread with the chunks of its last round still to be sent.  Its end of
    the channel goes away with its producer. *)
Record Ingesting := mkIngesting { ingest_self : Ingest; unsent : list Chunk; running : bool }.

(** As in [PipelineRun], the chunks of the channel carry their thread's number,
    and [received] is what the encoder took; neither is there in the program. *)
Record Collecting := mkCollecting {
  ingests : list Ingesting;
  in_channel : list (nat * Chunk);
  encoding : EncoderPhase;
  received : list (nat * Chunk);
}.

Definition set_ingest (st : Collecting) (i : nat) (t : Ingesting) : Collecting :=
  mkCollecting (<[i := t]> st.(ingests)) st.(in_channel) st.(encoding) st.(received).

(** A round of a thread or its last, a send, or a step of the encoder.  A round
    only makes its chunks; that the encoder is gone comes out when one of them
    is sent, and ends the thread. *)
Inductive collecting : Collecting -> Collecting -> Prop :=
  | collecting_turn i t tick self chunks st :
      st.(ingests) !! i = Some t -> t.(unsent) = [] -> t.(running) = true -> tick.(gone) = false ->
      ingest_turn netflow_json sflow_json format t.(ingest_self) tick = (self, chunks, inl tt) ->
      collecting st (set_ingest st i (mkIngesting self chunks true))
  | collecting_end i t tick self chunks producer last st :
      st.(ingests) !! i = Some t -> t.(unsent) = [] -> t.(running) = true -> tick.(gone) = false ->
      ingest_turn netflow_json sflow_json format t.(ingest_self) tick = (self, chunks, inr None) ->
      producer_flush (ingest_output self) = (producer, last) ->
      collecting st (set_ingest st i (mkIngesting (with_output self producer) (chunks ++ last) false))
  | collecting_send i t chunk chunks st e :
      st.(ingests) !! i = Some t -> t.(unsent) = chunk :: chunks ->
      st.(encoding) = Encoding e -> Z.of_nat (length st.(in_channel)) < PIPELINE_DEPTH ->
      collecting st (mkCollecting (<[i := mkIngesting t.(ingest_self) chunks t.(running)]> st.(ingests))
        (st.(in_channel) ++ [(i, chunk)]) st.(encoding) st.(received))
  | collecting_gone i t st :
      st.(ingests) !! i = Some t -> t.(unsent) <> [] -> st.(encoding) = Panicked ->
      collecting st (set_ingest st i (mkIngesting t.(ingest_self) [] false))
  | collecting_receive i chunk chunks st e now instant later :
      st.(encoding) = Encoding e -> st.(in_channel) = (i, chunk) :: chunks ->
      (forall k, time_ok (now k)) -> time_ok later ->
      collecting st (mkCollecting st.(ingests) chunks
        (match encoder_chunk pid enrichment e chunk now with
         | Some e => Encoding (encoder_tick e instant later)
         | None => Panicked
         end) (st.(received) ++ [(i, chunk)]))
  | collecting_idle st e instant now :
      st.(encoding) = Encoding e -> st.(in_channel) = [] -> time_ok now ->
      collecting st (mkCollecting st.(ingests) [] (Encoding (encoder_tick e instant now)) st.(received))
  | collecting_close st e e' r :
      st.(encoding) = Encoding e -> st.(in_channel) = [] ->
      Forall (fun t => t.(running) = false /\ t.(unsent) = []) st.(ingests) -> encoder_finish e = (e', r) ->
      collecting st (mkCollecting st.(ingests) [] (Finished e' r) st.(received)).

(** What [run] starts from, once the sink is open. *)
Definition collector (sys : Sys) (sink : RotatingSink) (decoding : Decoding) (discard : bool) (now : Z) (inputs : list Input) : Collecting :=
  mkCollecting ((fun input => mkIngesting (spawn decoding (producer discard now) input) [] true) <$> inputs) []
    (Encoding (encoder_start sys sink enrichment now)) [].
End collecting.
