(* ===== verification/CollectFacts.v ===== *)
(** What an ingest thread does: it hands over the flows, or the text, of every
    datagram that parses, once and in order, and counts every datagram. *)

From Stdlib Require Import ZArith Lia Strings.Byte.
From stdpp Require Import base tactics numbers list gmap.
From S2P Require Import Prelude Nom Std Crates IERegistry Etherparse Packet CommonFlow Processor ProcessorFlows Storage SinkConfig Pipeline PipelineRun Source Collect.
From S2P Require SflowV5 ConvertSflow.
From coqutil Require Import Datatypes.RecordSetters.
Import TriangleBracketNotations.
#[local] Open Scope Z_scope.

(** ** What a processor promises its threads *)

Class ProcessorLaws `{CR : Crates} (S Pkt : Type) `{PK : !Packet Pkt} `{PR : !Processor S Pkt} : Prop := {
  convert_into_app : forall (self : S) src (p : Pkt) time flows,
    convert_into self src p time flows = flows ++ convert self src p time;
  convert_count : forall (self : S) src (p : Pkt) time, zlen (convert self src p time) = flow_count p;
}.

Section instances.
Context `{NM : Nom} `{CR : Crates} `{CK : Clock} `{EP : Etherparse}.

#[export] Instance NetflowProcessor_Laws : ProcessorLaws NetflowProcessor NetflowPacket.
Proof.
  split; intros self src p time.
  - intros flows. unfold convert. cbn [convert_into NetflowProcessor_Processor]. by rewrite !convert_into_flows.
  - unfold convert. cbn [convert_into NetflowProcessor_Processor]. rewrite convert_into_flows. cbn [app].
    unfold zlen. rewrite length_fmap. apply flows_of_length.
Qed.

(** The flows of an sFlow datagram: one for each flow sample. *)
Definition sample_flow (ctx : ConvertSflow.SFlowV5Context) (sample : SflowV5.Sample.Sample) : option CommonFlow :=
  match sample with
  | SflowV5.Sample.Flow s => Some (ConvertSflow.convert_flow_sample ctx s)
  | SflowV5.Sample.ExpandedFlow s => Some (ConvertSflow.convert_expanded_flow_sample ctx s)
  | _ => None
  end.

Lemma sflow_flows self src p time flows :
  sflow_convert_into self src (SV5 p) time flows =
  flows ++ ((fun flow => flow<|cf_time_received_ns := time|>) <$> omap (sample_flow (ConvertSflow.mkContext p)) p.(SflowV5.sf_samples)).
Proof. unfold sflow_convert_into. apply extend_loop. by intros ? []. Qed.

#[export] Instance SflowProcessor_Laws : ProcessorLaws SflowProcessor SflowPacket.
Proof.
  split; intros self src [p] time.
  - intros flows. unfold convert. cbn [convert_into SflowProcessor_Processor]. by rewrite !sflow_flows.
  - unfold convert. cbn [convert_into SflowProcessor_Processor flow_count SflowPacket_Packet]. rewrite sflow_flows. cbn [app].
    unfold zlen. rewrite length_fmap. f_equal. induction (SflowV5.sf_samples p) as [|s ss IH]; [done|].
    cbn [omap list_omap List.filter]. destruct s; cbn; rewrite ?IH; done.
Qed.
End instances.

(** ** What a thread is to hand over *)

Section reference.
Context `{CR : Crates} {S Pkt : Type} `{PK : !Packet Pkt} `{PR : !Processor S Pkt}.

(** The datagrams up to the end, in so many rounds. *)
Fixpoint datagrams {A} `{SO : !Source A} (rounds : nat) (source : A) : option (list Datagram) :=
  match rounds with
  | O => None
  | Datatypes.S rounds =>
      match next source with
      | (source, End) => Some []
      | (source, d) => ds ← datagrams rounds source; Some (d :: ds)
      end
  end.

(** The flows [process] gives for the datagrams in turn. *)
Fixpoint processed (self : nat * S) (ds : list Datagram) : list CommonFlow :=
  match ds with
  | [] => []
  | DatagramPacket src payload time :: ds => let '(self, flows) := process self src payload time in flows ++ processed self ds
  | _ :: ds => processed self ds
  end.

(** The packets that parse, in turn. *)
Fixpoint packets (self : nat * S) (ds : list Datagram) : list Pkt :=
  match ds with
  | [] => []
  | DatagramPacket src payload time :: ds =>
      match parse self src payload with
      | (self, Some p) => p :: packets self ds
      | (self, None) => packets self ds
      end
  | _ :: ds => packets self ds
  end.

(** The lines of packets. *)
Definition lines_of (to_json : Pkt -> bytes) (ps : list Pkt) : bytes := concat ((fun p => to_json p ++ [x0a]) <$> ps).

Definition flows_in (ps : list Pkt) : Z := foldr Z.add 0 (flow_count <$> ps).

(** What a thread has handed over in the end: flows, or lines and the number
    of flows they stand for. *)
Definition collected (to_json : Pkt -> bytes) (format : OutputFormat) (discard : bool) (self : nat * S) (ds : list Datagram) : Load :=
  match format with
  | OutputFormat.Common => (processed self ds, [], 0)
  | OutputFormat.Raw => ([], if discard then [] else lines_of to_json (packets self ds), flows_in (packets self ds))
  end.

(** The operations on its producer that hand it over. *)
Fixpoint collect_ops (to_json : Pkt -> bytes) (format : OutputFormat) (self : nat * S) (ds : list Datagram) : list Op :=
  match ds with
  | [] => []
  | DatagramPacket src payload time :: ds =>
      match parse self src payload with
      | (self, Some p) =>
          match format with
          | OutputFormat.Raw => OpPushRaw (to_json p) (flow_count p)
          | OutputFormat.Common => OpPush (convert self.2 src p time)
          end :: collect_ops to_json format self ds
      | (self, None) => collect_ops to_json format self ds
      end
  | Idle :: ds => OpFlush :: collect_ops to_json format self ds
  | End :: ds => collect_ops to_json format self ds
  end.

Lemma loads_cons {B} (f : B -> Load) x l : total f (x :: l) = plus (f x) (total f l).
Proof. done. Qed.

Lemma collect_ops_load to_json format discard ds : forall self,
  total (op_load discard) (collect_ops to_json format self ds) = collected to_json format discard self ds.
Proof.
  induction ds as [|d ds IH]; intros self.
  { unfold collected. by destruct format, discard. }
  destruct d as [src payload time| |]; cbn [collect_ops]; [|rewrite loads_cons; etransitivity; [apply no_load_plus|apply IH]|apply IH].
  unfold collected in *. cbn [processed packets]. unfold process. destruct (parse self src payload) as [self' [p|]]; [|apply IH].
  rewrite loads_cons, IH.
  destruct format; unfold plus; cbn; rewrite ?app_nil_r; [|done]. by destruct discard.
Qed.
End reference.

(** ** Counting *)

Section counting.

(** What a datagram counts for: the exporter, its length, the time it was
    last heard from, and what came of it. *)
Inductive Fate := Decoded (version : bytes) (flows : Z) | Malformed (version : bytes) | UnknownVersion.

Record Heard := mkHeard { h_src : IpAddr; h_len : Z; h_seen : Z; h_fate : Fate }.

Definition value {K} `{Countable K} (family : gmap K Z) (label : K) : Z := default 0 (family !! label).

Lemma value_get_or_create {K} `{Countable K} (family : gmap K Z) (label l : K) :
  value (get_or_create family label) l = value family l.
Proof.
  unfold value, get_or_create. destruct (family !! label) eqn:E; [done|].
  destruct (decide (l = label)) as [->|N]; [by rewrite lookup_insert_eq, E|by rewrite lookup_insert_ne].
Qed.

Lemma value_inc_by {K} `{Countable K} (family : gmap K Z) (label l : K) n :
  value (inc_by family label n) l = value family l + (if decide (l = label) then n else 0).
Proof.
  unfold value, inc_by. destruct (decide (l = label)) as [->|N]; [by rewrite lookup_insert_eq|].
  rewrite lookup_insert_ne by done. lia.
Qed.

(** The counters a thread holds are those of their exporter and version. *)
Definition metrics_ok (self : ExporterMetrics) : Prop :=
  (forall src version c, self.(counters) !! (src, version) = Some c ->
    c = mkCounters (mkTypeSource self.(family) (show_ip src)) (show_ip src)
      (mkTypeSource version (show_ip src)) (mkTypeSource version (show_ip src))) /\
  forall src l, self.(last_seen) !! src = Some l -> l = mkTypeSource self.(family) (show_ip src).

(** What datagrams add to the counter of a label, and where they leave its
    gauge. *)
Definition sum {A} (f : A -> Z) (l : list A) : Z := foldr Z.add 0 (f <$> l).

Definition of_source (fam : bytes) (l : TypeSourceLabel) (h : Heard) : Z :=
  if decide (l = mkTypeSource fam (show_ip h.(h_src))) then 1 else 0.

Definition len_of (l : SourceLabel) (h : Heard) : Z := if decide (l = show_ip h.(h_src)) then h.(h_len) else 0.

Definition flows_for (l : TypeSourceLabel) (h : Heard) : Z :=
  match h.(h_fate) with
  | Decoded version n => if decide (l = mkTypeSource version (show_ip h.(h_src))) then n else 0
  | _ => 0
  end.

Definition errors_for (l : TypeSourceLabel) (h : Heard) : Z :=
  match h.(h_fate) with
  | Malformed version => if decide (l = mkTypeSource version (show_ip h.(h_src))) then 1 else 0
  | _ => 0
  end.

Definition unknown_for (l : SourceLabel) (h : Heard) : Z :=
  match h.(h_fate) with UnknownVersion => if decide (l = show_ip h.(h_src)) then 1 else 0 | _ => 0 end.

Definition seen_of (fam : bytes) (l : TypeSourceLabel) (h : Heard) : option Z :=
  if decide (l = mkTypeSource fam (show_ip h.(h_src))) then Some h.(h_seen) else None.

(** The metrics after [hs], from those before. *)
Definition counted_as (fam : bytes) (m m' : InputMetrics) (hs : list Heard) : Prop :=
  (forall l, value m'.(packets_received) l = value m.(packets_received) l + sum (of_source fam l) hs) /\
  (forall l, value m'.(bytes_received) l = value m.(bytes_received) l + sum (len_of l) hs) /\
  (forall l, value m'.(flows_processed) l = value m.(flows_processed) l + sum (flows_for l) hs) /\
  (forall l, value m'.(parse_errors) l = value m.(parse_errors) l + sum (errors_for l) hs) /\
  (forall l, value m'.(unknown_version) l = value m.(unknown_version) l + sum (unknown_for l) hs) /\
  forall l, value m'.(exporter_last_seen) l = default (value m.(exporter_last_seen) l) (last (omap (seen_of fam l) hs)).

Lemma sum_app {A} (f : A -> Z) l k : sum f (l ++ k) = sum f l + sum f k.
Proof. unfold sum. induction l as [|x l IH]; [done|]. cbn. cbn in IH. lia. Qed.

Lemma counted_nil fam m : counted_as fam m m [].
Proof. by split_and!; intros l; rewrite ?Z.add_0_r. Qed.

Lemma counted_app fam m1 m2 m3 hs ks : counted_as fam m1 m2 hs -> counted_as fam m2 m3 ks -> counted_as fam m1 m3 (hs ++ ks).
Proof.
  intros (A1 & A2 & A3 & A4 & A5 & A6) (B1 & B2 & B3 & B4 & B5 & B6).
  split_and!; intros l; rewrite ?sum_app; [by rewrite B1, A1, Z.add_assoc|by rewrite B2, A2, Z.add_assoc|
    by rewrite B3, A3, Z.add_assoc|by rewrite B4, A4, Z.add_assoc|by rewrite B5, A5, Z.add_assoc|].
  rewrite B6, A6, omap_app, last_app. by destruct (last (omap (seen_of fam l) ks)).
Qed.

Lemma get_counters_spec self m src version : metrics_ok self ->
  let '(self', m', c) := get_counters self m src version in
  metrics_ok self' /\ self'.(family) = self.(family) /\ counted_as self.(family) m m' [] /\
  c = mkCounters (mkTypeSource self.(family) (show_ip src)) (show_ip src)
    (mkTypeSource version (show_ip src)) (mkTypeSource version (show_ip src)).
Proof.
  intros [Hc Hs]. unfold get_counters. destruct (self.(counters) !! (src, version)) as [c|] eqn:E.
  - split_and!; [done|done|apply counted_nil|by apply Hc].
  - split_and!; [split; [|done]|done| |done].
    + intros src' version' c. cbn. destruct (decide ((src', version') = (src, version))) as [[= -> ->]|N];
        [rewrite lookup_insert_eq; by intros [= <-]|rewrite lookup_insert_ne by done; apply Hc].
    + by split_and!; intros l; cbn; rewrite ?value_get_or_create, ?Z.add_0_r.
Qed.

Lemma heard_from_spec self m src time now : metrics_ok self ->
  let '(self', m') := heard_from self m src time now in
  metrics_ok self' /\ self'.(family) = self.(family) /\
  m'.(packets_received) = m.(packets_received) /\ m'.(bytes_received) = m.(bytes_received) /\
  m'.(flows_processed) = m.(flows_processed) /\ m'.(parse_errors) = m.(parse_errors) /\
  m'.(unknown_version) = m.(unknown_version) /\
  forall l, value m'.(exporter_last_seen) l =
    (if decide (l = mkTypeSource self.(family) (show_ip src)) then seen_at time now else value m.(exporter_last_seen) l).
Proof.
  intros [Hc Hs]. unfold heard_from. destruct (self.(last_seen) !! src) as [label|] eqn:E.
  - pose proof (Hs src label E) as ->. split_and!; try done. intros l. cbn. unfold value.
    destruct (decide _) as [->|N]; [by rewrite lookup_insert_eq|by rewrite lookup_insert_ne].
  - split_and!; try done.
    + split; [done|]. intros src' l. cbn. destruct (decide (src' = src)) as [->|N];
        [rewrite lookup_insert_eq; by intros [= <-]|rewrite lookup_insert_ne by done; apply Hs].
    + intros l. cbn. destruct (decide _) as [->|N]; [unfold value; by rewrite lookup_insert_eq|].
      unfold value at 1. rewrite lookup_insert_ne by done. apply value_get_or_create.
Qed.

(** What a round counts for a datagram. *)
Definition count_datagram (self : ExporterMetrics) (m : InputMetrics) (src : IpAddr) (time : option Z) (now len : Z) (fate : Fate) :
    ExporterMetrics * InputMetrics :=
  let '(self, m) := heard_from self m src time now in
  match fate with
  | Decoded version n => record_packet self m src version len n
  | Malformed version => record_parse_error self m src version len
  | UnknownVersion => (self, record_unknown_version self m src len)
  end.

Lemma sum_one {A} (f : A -> Z) x : sum f [x] = f x.
Proof. unfold sum. cbn. lia. Qed.

(** The value of each counter, from what is known of its family. *)
Ltac values :=
  intros; rewrite ?sum_one; cbn -[value inc_by]; rewrite ?value_inc_by; unfold of_source, len_of, flows_for, errors_for, unknown_for;
  cbn -[value inc_by]; unfold sum; cbn -[value inc_by]; congruence || (repeat match goal with H : _ = _ :> gmap _ _ |- _ => rewrite H end;
    repeat match goal with H : family _ = family _ |- _ => rewrite H end; lia).

Lemma count_datagram_spec self m src time now len fate : metrics_ok self ->
  let '(self', m') := count_datagram self m src time now len fate in
  metrics_ok self' /\ self'.(family) = self.(family) /\
  counted_as self.(family) m m' [mkHeard src len (seen_at time now) fate].
Proof.
  intros Hm. unfold count_datagram. pose proof (heard_from_spec self m src time now Hm) as H.
  destruct (heard_from self m src time now) as [self1 m1]. destruct H as (Hm1 & Ef & E1 & E2 & E3 & E4 & E5 & E6).
  assert (Hlast : forall m2, m2.(exporter_last_seen) = m1.(exporter_last_seen) \/ (forall l, value m2.(exporter_last_seen) l = value m1.(exporter_last_seen) l) ->
    forall l, value m2.(exporter_last_seen) l = default (value m.(exporter_last_seen) l)
      (last (omap (seen_of self.(family) l) [mkHeard src len (seen_at time now) fate]))).
  { intros m2 H l. assert (value m2.(exporter_last_seen) l = value m1.(exporter_last_seen) l) as -> by (by destruct H as [->|H]).
    rewrite E6. cbn [omap list_omap seen_of h_src h_seen]. unfold seen_of. cbn. by destruct (decide _). }
  destruct fate as [version n|version|].
  3: split; [done|]; split; [done|]; unfold counted_as; split_and!; [values|values|values|values|values|apply Hlast; by left].
  all: unfold record_packet, record_parse_error; pose proof (get_counters_spec self1 m1 src version Hm1) as H;
    destruct (get_counters self1 m1 src version) as [[self2 m2] c]; destruct H as (Hm2 & Ef2 & (C1 & C2 & C3 & C4 & C5 & C6) & ->);
    (split; [done|]); (split; [congruence|]); unfold counted_as; split_and!.
  6, 12: apply Hlast; right; intros l; cbn -[value inc_by]; rewrite C6; unfold sum; cbn; done.
  all: intros l; rewrite sum_one; cbn -[value inc_by]; rewrite ?value_inc_by, ?C1, ?C2, ?C3, ?C4, ?C5; values.
Qed.
End counting.

(** ** The loop *)

Section loop.
Context `{CR : Crates} {S Pkt A : Type} `{PK : !Packet Pkt} `{PR : !Processor S Pkt} `{SO : !Source A} `{PL : !ProcessorLaws S Pkt}.
Context (to_json : Pkt -> bytes) (format : OutputFormat) (discard : bool).

Definition fate_of (payload : bytes) (parsed : option Pkt) : Fate :=
  match parsed with
  | Some p => Decoded (FlowType.name (version p)) (flow_count p)
  | None => match version_of payload with Some v => Malformed (FlowType.name v) | None => UnknownVersion end
  end.

(** What the datagrams in turn count for, each in its round. *)
Fixpoint heard (self : nat * S) (ds : list Datagram) (ticks : nat -> Tick) : list Heard :=
  match ds with
  | [] => []
  | d :: ds =>
      let ticks' n := ticks (Datatypes.S n) in
      match d with
      | DatagramPacket src payload time =>
          let '(self, parsed) := parse self src payload in
          mkHeard src (zlen payload) (seen_at time (ticks 0%nat).(unix_now)) (fate_of payload parsed) :: heard self ds ticks'
      | _ => heard self ds ticks'
      end
  end.

Lemma push_op p decode flows started ended :
  (forall queued, decode queued = queued ++ flows) -> push p decode started ended = run_op p (OpPush flows) started ended.
Proof. intros H. unfold run_op, push. by rewrite !H. Qed.

Lemma push_packet (processor : S) p src packet time started ended :
  match format with
  | OutputFormat.Raw => push_raw p (to_json packet) (flow_count packet) started ended
  | OutputFormat.Common => push p (convert_into processor src packet time) started ended
  end =
  run_op p (match format with
    | OutputFormat.Raw => OpPushRaw (to_json packet) (flow_count packet)
    | OutputFormat.Common => OpPush (convert processor src packet time)
    end) started ended.
Proof. destruct format; [done|]. apply push_op. intros queued. apply convert_into_app. Qed.

Lemma on_datagram_spec (self : Collector (S := S) (A := A)) tick src payload time : metrics_ok self.(exporters) -> producer_ok discard self.(output) ->
  let '(self', chunks) := on_datagram to_json format self tick src payload time in
  let '(processor', parsed) := parse self.(processor) src payload in
  self'.(source) = self.(source) /\ self'.(processor) = processor' /\ metrics_ok self'.(exporters) /\
  self'.(exporters).(family) = self.(exporters).(family) /\
  counted_as self.(exporters).(family) self.(Collect.metrics) self'.(Collect.metrics)
    [mkHeard src (zlen payload) (seen_at time tick.(unix_now)) (fate_of payload parsed)] /\
  producer_ok discard self'.(output) /\
  plus (total chunk_load chunks) (buffered self'.(output)) =
    plus (buffered self.(output)) (total (op_load discard) (collect_ops to_json format self.(processor) [DatagramPacket src payload time])).
Proof.
  intros Hm Hp. unfold on_datagram. cbn [collect_ops].
  pose proof (count_datagram_spec self.(exporters) self.(Collect.metrics) src time tick.(unix_now) (zlen payload)) as Hc.
  unfold count_datagram in Hc. destruct (heard_from _ _ src time _) as [ex m].
  destruct (parse self.(processor) src payload) as [processor' [p|]].
  - specialize (Hc (Decoded (FlowType.name (version p)) (flow_count p)) Hm). cbv beta iota in Hc.
    destruct (record_packet ex m _ _ _ _) as [ex' m']. destruct Hc as (H1 & H2 & H3).
    rewrite push_packet. set (op := match format with OutputFormat.Raw => _ | OutputFormat.Common => _ end). pose proof (run_op_spec discard self.(output) op tick.(started) tick.(ended) Hp) as Ho.
    destruct (run_op _ op _ _) as [out chunks]. destruct Ho as (O1 & O2 & _). cbn [source processor exporters Collect.metrics output].
    rewrite O2. fold op. rewrite total_one. by split_and!.
  - destruct (version_of payload) as [v|] eqn:Ev.
    + specialize (Hc (Malformed (FlowType.name v)) Hm). cbv beta iota in Hc. destruct (record_parse_error ex m _ _ _) as [ex' m']. destruct Hc as (H1 & H2 & H3).
      cbn [source processor exporters Collect.metrics output fate_of]. rewrite Ev.
      split_and!; try done. etransitivity; [apply no_load_plus|]. symmetry. apply plus_no_load.
    + specialize (Hc UnknownVersion Hm). cbv beta iota in Hc. destruct Hc as (H1 & H2 & H3).
      cbn [source processor exporters Collect.metrics output fate_of]. rewrite Ev.
      split_and!; try done. etransitivity; [apply no_load_plus|]. symmetry. apply plus_no_load.
Qed.

Lemma sending_all tick chunks : tick.(gone) = false -> sending tick chunks = (chunks, None).
Proof. intros E. unfold sending. by rewrite E. Qed.

Lemma collect_ops_cons self d ds :
  collect_ops to_json format self (d :: ds) = collect_ops to_json format self [d] ++
    collect_ops to_json format (match d with DatagramPacket src payload _ => (parse self src payload).1 | _ => self end) ds.
Proof. destruct d as [src payload time| |]; cbn; [|done|done]. by destruct (parse self src payload) as [self' [p|]]. Qed.

Lemma plus_cancel_end a b c : plus a b = plus c b -> b = no_load -> a = c.
Proof. intros H ->. by rewrite !plus_no_load in H. Qed.

(** A thread whose source ends while the encoder is there sends everything. *)
Lemma collect_spec rounds : forall (self : Collector (S := S) (A := A)) ticks ds, (forall n, (ticks n).(gone) = false) ->
  metrics_ok self.(exporters) -> producer_ok discard self.(output) ->
  datagrams rounds self.(source) = Some ds ->
  exists self' chunks, collect to_json format rounds self ticks = Some (self', chunks, None) /\
    total chunk_load chunks = plus (buffered self.(output)) (total (op_load discard) (collect_ops to_json format self.(processor) ds)) /\
    counted_as self.(exporters).(family) self.(Collect.metrics) self'.(Collect.metrics) (heard self.(processor) ds ticks).
Proof.
  induction rounds as [|rounds IH]; intros self ticks ds Hg Hm Hp Hd; [done|]. cbn [datagrams collect] in *. unfold turn.
  destruct (next self.(source)) as [source' d].
  assert (Hend : d = End \/ exists ds', datagrams rounds source' = Some ds' /\ ds = d :: ds' /\ d <> End).
  { destruct d; [| |by left]; right; (destruct (datagrams rounds source') as [ds'|]; [|done]);
      cbn [mbind option_bind] in Hd; injection Hd as <-; by exists ds'. }
  destruct Hend as [->|(ds' & Hd' & -> & Hne)].
  - injection Hd as <-. cbn [output]. pose proof (producer_flush_spec discard self.(output) Hp) as Hf.
    destruct (producer_flush self.(output)) as [out last]. destruct Hf as (_ & _ & _ & Hl & _).
    rewrite sending_all by done. eexists _, _. split; [done|]. cbn [app fst]. split; [|apply counted_nil].
    rewrite Hl. symmetry. apply plus_no_load.
  - rewrite collect_ops_cons, loads_app, plus_assoc. destruct d as [src payload time| |]; [| |done].
    + set (self1 := mkCollector source' _ _ _ _).
      pose proof (on_datagram_spec self1 (ticks 0%nat) src payload time Hm Hp) as Ho.
      destruct (on_datagram _ _ self1 _ _ _ _) as [self2 chunks]. rewrite sending_all by done.
      cbn [processor self1] in Ho. cbn [heard]. destruct (parse self.(processor) src payload) as [processor' parsed] eqn:Ep.
      destruct Ho as (O1 & O2 & O3 & O4 & O5 & O6 & O7). cbn [source] in O1.
      destruct (IH self2 (fun n => ticks (Datatypes.S n)) ds') as (self3 & more & -> & Ht & Hc); try done; [by rewrite O1|].
      cbn [mbind option_bind]. eexists _, _. split; [done|]. split.
      * rewrite loads_app, Ht, plus_assoc, O7, O2. cbn [output self1]. done.
      * rewrite O2, O4 in Hc. cbn [exporters Collect.metrics self1] in *. by apply (counted_app _ _ _ _ [_] _ O5).
    + pose proof (run_op_spec discard self.(output) OpFlush 0 0 Hp) as Ho. cbn [run_op output] in *.
      destruct (producer_flush self.(output)) as [out chunks]. destruct Ho as (O1 & O2 & _). rewrite sending_all by done. cbn [processor exporters Collect.metrics].
      destruct (IH (mkCollector source' self.(processor) self.(exporters) self.(Collect.metrics) out)
        (fun n => ticks (Datatypes.S n)) ds') as (self3 & more & -> & Ht & Hc); try done.
      cbn [mbind option_bind]. eexists _, _. split; [done|]. split; [|exact Hc].
      rewrite loads_app, Ht, plus_assoc. cbn [output processor]. rewrite O2. cbn [collect_ops]. by rewrite total_one.
Qed.
End loop.

(** ** Sources end *)

Section sources.
Context `{CR : Crates} `{EP : Etherparse}.

(** The datagrams of a capture, as far as it can be read. *)
Fixpoint captured (link_type : Z) (items : list PcapItem) : list Datagram :=
  match items with
  | PcapPacket timestamp_ns data :: items =>
      match parse_udp_packet link_type data with
      | Some (src, payload) => [DatagramPacket src payload (if timestamp_ns <? 2 ^ 63 then Some timestamp_ns else None)]
      | None => []
      end ++ captured link_type items
  | _ => []
  end.

Lemma next_from_spec link_type stops items : forall polled,
  let '(rest, d) := next_from link_type items stops polled in
  rest.(Source.link_type) = link_type /\ rest.(Source.stops) = stops /\
  (d = End \/ (length rest.(unread) < length items)%nat /\
    captured link_type items = d :: captured link_type rest.(unread)) /\
  ((forall n, stops n = false) -> d = End -> captured link_type items = []).
Proof.
  induction items as [|item items IH]; intros polled; cbn [next_from].
  { destruct (stops polled); cbn; by split_and!; [..|left|]. }
  destruct (stops polled) eqn:Es.
  { cbn. split_and!; [done|done|by left|]. intros H. by rewrite H in Es. }
  destruct item as [t data|]; [|cbn; by split_and!; [..|left|]]. cbn [captured].
  destruct (parse_udp_packet link_type data) as [[src payload]|].
  - cbn. split_and!; [done|done|right; split; [lia|done]|done].
  - specialize (IH (S polled)). destruct (next_from link_type items stops (S polled)) as [rest d].
    destruct IH as (H1 & H2 & H3 & H4). split_and!; [done|done| |done].
    destruct H3 as [H3|[H3 H5]]; [by left|right]. cbn. split; [lia|done].
Qed.

Lemma pcap_ends link_type stops n : forall items polled, (length items < n)%nat ->
  exists ds, datagrams n (mkPcap link_type items stops polled) = Some ds /\ ds `prefix_of` captured link_type items /\
    ((forall k, stops k = false) -> ds = captured link_type items).
Proof.
  induction n as [|n IH]; intros items polled Hn; [lia|]. cbn [datagrams next Pcap_Source].
  unfold Pcap_next. cbn [Source.link_type unread Source.stops Source.polled].
  pose proof (next_from_spec link_type stops items polled) as H.
  destruct (next_from link_type items stops polled) as [rest d]. destruct H as (E1 & E2 & H & He).
  destruct rest as [lt items' stops' polled']. cbn in E1, E2. subst lt stops'.
  assert (Hd : d = End \/ exists ds, (ds0 ← datagrams n (mkPcap link_type items' stops polled'); Some (d :: ds0)) = Some ds /\
    ds `prefix_of` captured link_type items /\ ((forall k, stops k = false) -> ds = captured link_type items)).
  { destruct H as [->|[Hl Hc]]; [by left|right]. cbn [unread] in *. destruct (IH items' polled' ltac:(lia)) as (ds & -> & Hp & Hs).
    cbn [mbind option_bind]. exists (d :: ds). split; [done|]. rewrite Hc. split; [by apply prefix_cons|].
    intros Hk. by rewrite <- Hs. }
  destruct d; [destruct Hd as [?|Hd]; [done|exact Hd]..|]. exists []. split; [done|]. split; [apply prefix_nil|].
  intros Hk. symmetry. by apply He.
Qed.

Lemma datagrams_S {A} `{!Source A} n (source : A) :
  datagrams (S n) source =
  let '(source, d) := next source in match d with End => Some [] | _ => ds ← datagrams n source; Some (d :: ds) end.
Proof. cbn [datagrams]. by destruct (next source) as [? []]. Qed.

Lemma socket_ends rs n : forall k, (rs (k + n)%nat).1 = true ->
  exists ds, datagrams (S n) (mkSocket rs k) = Some ds /\ (length ds <= n)%nat.
Proof.
  induction n as [|n IH]; intros k H; rewrite datagrams_S; cbn [next Socket_Source]; unfold Socket_next; cbn [receives at_];
    destruct (rs k) as [requested received] eqn:E.
  - rewrite Nat.add_0_r, E in H. cbn in H. rewrite H. by exists [].
  - destruct requested; [exists []; split; [done|cbn; lia]|].
    destruct (IH (S k)) as (ds & Hd & Hl); [by rewrite Nat.add_succ_comm|].
    destruct received as [data addr now|e]; [|destruct (is_retryable e)]; rewrite Hd; cbn [mbind option_bind];
      (eexists; split; [done|cbn; lia]).
Qed.
End sources.

(** ** What is promised *)

Section claims.
Context `{CR : Crates} {S Pkt A : Type} `{PK : !Packet Pkt} `{PR : !Processor S Pkt} `{SO : !Source A} `{PL : !ProcessorLaws S Pkt}.

(** C13: When its source ends while the encoder is there, an ingest thread has sent
    the flows that [process] gives for the datagrams of its source, in order,
    or the lines of the packets that parse, with nothing left behind; it has
    counted every datagram, its octets and what came of it for its exporter,
    whatever else was counted; and it leaves the other threads running. *)
Theorem ingest_collects to_json format discard rounds name (source : A) (processor : nat * S) metrics now ticks requested ds :
  (forall n, (ticks n).(gone) = false) -> datagrams rounds source = Some ds ->
  exists final chunks,
    ingest to_json format rounds (start name source processor metrics (producer discard now)) ticks requested =
      Some (final, chunks, requested) /\
    total chunk_load chunks = collected to_json format discard processor ds /\
    counted_as name metrics final.(Collect.metrics) (heard processor ds ticks).
Proof.
  intros Hg Hd. destruct (collect_spec to_json format discard rounds
    (start name source processor metrics (producer discard now)) ticks ds) as (final & chunks & E & Ht & Hc); try done.
  exists final, chunks. unfold ingest. rewrite E. split; [done|]. split; [|done].
  rewrite Ht, collect_ops_load. apply no_load_plus.
Qed.
End claims.

(** A socket ends at the first receive after shutdown is requested; a capture
    file ends whatever is requested, having given the UDP payloads of its
    packets, in order and with their times, as far as it was read: to the first
    packet that cannot be read unless stopped before. *)
Theorem sources_end `{CR : Crates} `{EP : Etherparse} rs at_ n link_type items stops polled :
  ((rs (at_ + n)%nat).1 = true -> exists ds, datagrams (S n) (mkSocket rs at_) = Some ds /\ (length ds <= n)%nat) /\
  exists ds, datagrams (S (length items)) (mkPcap link_type items stops polled) = Some ds /\
    ds `prefix_of` captured link_type items /\ ((forall k, stops k = false) -> ds = captured link_type items).
Proof. split; [apply socket_ends|apply pcap_ends; lia]. Qed.

(** ** The whole pipeline

    From the datagrams of the sources to the end of the output: the threads of a
    collector are threads of [PipelineRun], which do on their producers what
    their sources make them do. *)

From stdpp Require Import relations.
From S2P Require Import Text Calendar Layout LayoutFacts Destination DestinationFacts SinkWindows Encoder Sink SinkFacts EnrichTables EnrichConfig EnrichEngine EnrichFacts EnrichEngineFacts Pipeline PipelineRun PipelineFacts Source Collect.
#[local] Open Scope Z_scope.

(** What the rounds of a loop do on its producer. *)
Section rounds.
Context `{CR : Crates} {S Pkt A : Type} `{PK : !Packet Pkt} `{PR : !Processor S Pkt} `{SO : !Source A} `{PL : !ProcessorLaws S Pkt}.
Context (to_json : Pkt -> bytes) (format : OutputFormat).

Definition ops_within (rounds : nat) (self : Collector (S := S) (A := A)) : option (list Op) :=
  ds ← datagrams rounds self.(source); Some (collect_ops to_json format self.(processor) ds).

(** A round is an operation on the producer or leaves it alone. *)
Definition round_is (tick : Tick) (before after : Producer) (ops : list Op) (chunks : list Chunk) : Prop :=
  (ops = [] /\ chunks = [] /\ after = before) \/
  exists op, ops = [op] /\ run_op before op tick.(started) tick.(ended) = (after, chunks).

Lemma on_datagram_round (self : Collector (S := S) (A := A)) tick src payload time :
  let '(self', chunks) := on_datagram to_json format self tick src payload time in
  self'.(source) = self.(source) /\ self'.(processor) = (parse self.(processor) src payload).1 /\
  round_is tick self.(output) self'.(output) (collect_ops to_json format self.(processor) [DatagramPacket src payload time]) chunks.
Proof.
  unfold on_datagram. cbn [collect_ops]. destruct (heard_from _ _ src time _) as [ex m].
  destruct (parse self.(processor) src payload) as [processor' [p|]].
  - destruct (record_packet ex m _ _ _ _) as [ex' m'].
    rewrite push_packet. destruct (run_op self.(output) _ _ _) as [out chunks] eqn:Eo. split; [done|]. split; [done|]. right. by eexists.
  - destruct (match version_of payload with Some _ => _ | None => _ end) as [ex' m']. split; [done|]. split; [done|]. by left.
Qed.

Lemma turn_round (self self' : Collector (S := S) (A := A)) tick chunks r : tick.(gone) = false ->
  turn to_json format self tick = (self', chunks, r) ->
  (r = inr None /\ chunks = [] /\ self'.(output) = self.(output) /\ forall rounds, ops_within (Datatypes.S rounds) self = Some []) \/
  (r = inl tt /\ exists ops, (forall rounds, ops_within (Datatypes.S rounds) self = (more ← ops_within rounds self'; Some (ops ++ more))) /\
    round_is tick self.(output) self'.(output) ops chunks).
Proof.
  intros Hg E. unfold turn in E. unfold ops_within. destruct (next self.(source)) as [source' d] eqn:En. destruct d as [src payload time| |].
  - set (self1 := mkCollector source' _ _ _ _) in E. pose proof (on_datagram_round self1 tick src payload time) as H.
    destruct (on_datagram _ _ _ _ _ _ _) as [self2 chunks2]. destruct H as (H1 & H2 & H3). rewrite sending_all in E by done.
    injection E as <- <- <-. right. split; [done|]. eexists. split; [|exact H3]. intros rounds. rewrite datagrams_S, En, H1. cbn [source self1].
    destruct (datagrams rounds source') as [ds|]; [|done]. cbn [mbind option_bind]. rewrite collect_ops_cons, H2. done.
  - destruct (producer_flush self.(output)) as [out chunks2] eqn:Ef. cbn [output] in E. rewrite Ef, sending_all in E by done. injection E as <- <- <-.
    right. split; [done|]. exists [OpFlush]. split; [|right; by exists OpFlush]. intros rounds. rewrite datagrams_S, En. cbn [source processor].
    by destruct (datagrams rounds source') as [ds|].
  - injection E as <- <- <-. left. split_and!; try done. intros rounds. by rewrite datagrams_S, En.
Qed.
End rounds.

Section collecting.
Context `{NM : Nom} `{CK : Clock} `{EP : Etherparse} `{CL : Calendar} `{ST : Storage} `{EN : !Encoders}.
Context (netflow_json : NetflowPacket -> bytes) (sflow_json : SflowPacket -> bytes) (format : OutputFormat).
Context (pid : Z) (enrichment : EnrichmentEngine).

Abbreviation step1 := (collecting netflow_json sflow_json format pid enrichment).
Abbreviation go := (ingest_turn netflow_json sflow_json format).

Definition ingest_ops (rounds : nat) (self : Ingest) : option (list Op) :=
  match self with
  | IngestNetflow self => ops_within netflow_json format rounds self
  | IngestSflow self => ops_within sflow_json format rounds self
  end.

Lemma ingest_turn_round self self' tick chunks r : tick.(gone) = false -> go self tick = (self', chunks, r) ->
  (r = inr None /\ chunks = [] /\ ingest_output self' = ingest_output self /\ forall rounds, ingest_ops (Datatypes.S rounds) self = Some []) \/
  (r = inl tt /\ exists ops, (forall rounds, ingest_ops (Datatypes.S rounds) self = (more ← ingest_ops rounds self'; Some (ops ++ more))) /\
    round_is tick (ingest_output self) (ingest_output self') ops chunks).
Proof.
  intros Hg E. destruct self as [self|self]; cbn [ingest_turn] in E; destruct (turn _ _ self tick) as [[self1 chunks1] r1] eqn:Et;
    injection E as <- <- <-; exact (turn_round _ _ self self1 tick chunks1 r1 Hg Et).
Qed.

Lemma ingest_output_with self p : ingest_output (with_output self p) = p.
Proof. by destruct self. Qed.

(** A collector as threads of [PipelineRun] with what they have yet to do. *)
Definition thread_of (t : Ingesting) (todo : list Op) : Thread := mkThread todo (ingest_output t.(ingest_self)) t.(unsent) t.(running).

Definition erase (st : Collecting) (futures : list (list Op)) : State :=
  PipelineRun.mkState (zip_with thread_of st.(ingests) futures) st.(in_channel) st.(encoding) st.(received).

Lemma erased_thread st futures i t ops : st.(ingests) !! i = Some t -> futures !! i = Some ops ->
  (erase st futures).(threads) !! i = Some (thread_of t ops).
Proof. intros H1 H2. cbn. by rewrite lookup_zip_with, H1, H2. Qed.

Lemma erase_set st futures i t t' ops ops' : st.(ingests) !! i = Some t -> futures !! i = Some ops ->
  set_thread (erase st futures) i (thread_of t' ops') = erase (set_ingest st i t') (<[i := ops']> futures).
Proof. intros H1 H2. unfold set_thread, erase. cbn. by rewrite insert_zip_with. Qed.

Lemma panicked_stays st st' : rtc step1 st st' -> st.(encoding) = Panicked -> st'.(encoding) = Panicked.
Proof. induction 1 as [|st st1 st' Hs _ IH]; [done|]. intros E. apply IH. by inversion Hs; subst; cbn; congruence. Qed.

(** No thread goes away, and all have ended once the output is finished. *)
Definition all_ended (st : Collecting) : Prop :=
  forall e r, st.(encoding) = Finished e r -> Forall (fun t => t.(running) = false) st.(ingests).

Lemma all_ended_step st st1 : all_ended st -> step1 st st1 -> all_ended st1 /\ length st1.(ingests) = length st.(ingests).
Proof.
  intros H Hs. unfold all_ended in *.
  inversion Hs as [i t tick self chunks ? Hi Hu Hh|i t tick self chunks p last ? Hi Hu Hh|i t chunk chunks ? e1 Hi Hu He
    |i t ? Hi Hu He|i chunk chunks ? e1 now instant later He|? e1 instant now He|? e1 e' r1 He Hch Hgone]; subst; cbn [encoding ingests set_ingest];
    (split; [|by rewrite ?length_insert]); intros e r E; try congruence.
  1, 2: specialize (H e r E); rewrite Forall_lookup in H; specialize (H i t Hi); congruence.
  - by destruct (encoder_chunk _ _ _ _ _).
  - eapply Forall_impl; [exact Hgone|]. by intros t [].
Qed.

Lemma ended_threads st st' e r : rtc step1 st st' -> all_ended st -> st'.(encoding) = Finished e r ->
  forall i, is_Some (st.(ingests) !! i) -> exists t', st'.(ingests) !! i = Some t' /\ t'.(running) = false.
Proof.
  induction 1 as [st|st st1 st' Hs _ IH]; intros H E i Hi.
  - destruct Hi as [t Hi]. exists t. split; [done|]. specialize (H e r E). rewrite Forall_lookup in H. by eapply H.
  - destruct (all_ended_step st st1 H Hs) as [H1 Hl]. apply (IH H1 E i). apply lookup_lt_is_Some_2. rewrite Hl. by apply lookup_lt_is_Some_1.
Qed.

(** What a thread does until the run ends, as far as it is known. *)
Definition foretold (st' : Collecting) (i : nat) (t : Ingesting) (ops : list Op) : Prop :=
  if t.(running) then forall t', st'.(ingests) !! i = Some t' -> t'.(running) = false -> st'.(encoding) <> Panicked ->
    exists rounds, ingest_ops rounds t.(ingest_self) = Some ops
  else ops = [].

Definition simulated (st st' : Collecting) (futures : list (list Op)) : Prop :=
  length futures = length st.(ingests) /\
  rtc (PipelineRun.step pid enrichment) (erase st futures) (erase st' (replicate (length st'.(ingests)) [])) /\
  forall i t ops, st.(ingests) !! i = Some t -> futures !! i = Some ops -> foretold st' i t ops.

(** A step of one thread, which is one of [PipelineRun] or none. *)
Lemma simulated_thread st st' futures i t t' ops ops' :
  simulated (set_ingest st i t') st' futures -> st.(ingests) !! i = Some t -> futures !! i = Some ops' ->
  (ops = ops' /\ thread_of t ops = thread_of t' ops' \/
   act pid enrichment (erase st (<[i := ops]> futures)) (set_thread (erase st (<[i := ops]> futures)) i (thread_of t' ops'))) ->
  foretold st' i t ops ->
  exists futures, simulated st st' futures.
Proof.
  intros (Hl & Hr & Hf) Hi Hi' Hstep Ht. cbn [ingests set_ingest] in *. rewrite length_insert in Hl. pose proof (lookup_lt_Some _ _ _ Hi').
  assert (E : set_thread (erase st (<[i := ops]> futures)) i (thread_of t' ops') = erase (set_ingest st i t') futures).
  { rewrite (erase_set st _ i t t' ops) by (done || by apply list_lookup_insert_eq). f_equal.
    by rewrite list_insert_insert_eq, list_insert_id. }
  exists (<[i := ops]> futures). split; [by rewrite length_insert|]. split.
  - destruct Hstep as [[-> Heq]|Hact].
    + rewrite list_insert_id by done. rewrite list_insert_id in E by done. rewrite <- E in Hr. refine (eq_rect _ (fun s => rtc _ s _) Hr _ _).
      unfold set_thread, erase. cbn [threads channel encoder taken]. f_equal. apply list_insert_id. rewrite lookup_zip_with, Hi, Hi'. cbn. by rewrite Heq.
    + rewrite <- E in Hr. eapply rtc_l; [by left|exact Hr].
  - intros j u given Hj Hg. destruct (decide (i = j)) as [<-|Hij].
    + rewrite list_lookup_insert_eq in Hg by done. by simplify_eq.
    + rewrite list_lookup_insert_ne in Hg by done. apply (Hf j u given); [by rewrite list_lookup_insert_ne|done].
Qed.

(** Any other step. *)
Lemma simulated_other st st1 st' futures : simulated st1 st' futures -> st1.(ingests) = st.(ingests) ->
  PipelineRun.step pid enrichment (erase st futures) (erase st1 futures) -> simulated st st' futures.
Proof.
  intros (Hl & Hr & Hf) E Hs. split; [by rewrite <- E|]. split; [by eapply rtc_l|]. intros i t ops Hi. rewrite <- E in Hi. by apply Hf.
Qed.
Lemma ingest_set st i t u : st.(ingests) !! i = Some u -> (set_ingest st i t).(ingests) !! i = Some t.
Proof. intros Hi. cbn. apply list_lookup_insert_eq. by eapply lookup_lt_Some. Qed.

Lemma next_todo st st1 st' futures i u : simulated st1 st' futures -> length st1.(ingests) = length st.(ingests) ->
  st.(ingests) !! i = Some u -> exists todo, futures !! i = Some todo.
Proof. intros (Hl & _) E Hi. apply lookup_lt_is_Some_2. rewrite Hl, E. by eapply lookup_lt_Some. Qed.

(** A send is one there too. *)
Lemma simulated_send st st' futures i t chunk chunks e :
  st.(ingests) !! i = Some t -> t.(unsent) = chunk :: chunks ->
  st.(encoding) = Encoding e -> Z.of_nat (length st.(in_channel)) < PIPELINE_DEPTH ->
  simulated (mkCollecting (<[i := mkIngesting t.(ingest_self) chunks t.(running)]> st.(ingests))
    (st.(in_channel) ++ [(i, chunk)]) st.(encoding) st.(received)) st' futures ->
  simulated st st' futures.
Proof.
  intros Hi Hu He Hroom IH. destruct (next_todo st _ _ _ _ _ IH (length_insert _ _ _) Hi) as [todo Htodo].
  destruct IH as (Hl & Hr & Hf). cbn [ingests] in *. rewrite length_insert in Hl. split; [done|]. split.
  - eapply rtc_l; [|exact Hr]. left. pose proof (erased_thread st futures i t todo Hi Htodo) as Hth.
    refine (eq_rect _ (act pid enrichment (erase st futures)) (act_send pid enrichment i _ chunk chunks _ e Hth Hu He Hroom) _ _).
    unfold erase. cbn. f_equal. rewrite <- (list_insert_id futures i todo Htodo) at 2. by rewrite <- insert_zip_with.
  - intros j u ops Hj Ho. destruct (decide (i = j)) as [<-|Hij].
    + simplify_eq. exact (Hf i _ todo ltac:(apply list_lookup_insert_eq; by eapply lookup_lt_Some) Htodo).
    + apply (Hf j u ops); [by rewrite list_lookup_insert_ne|done].
Qed.

Lemma collecting_simulated st st' : rtc step1 st st' -> exists futures, simulated st st' futures.
Proof.
  induction 1 as [st|st st1 st' Hs Hr' (futures & IH)].
  { exists (replicate (length st.(ingests)) []). split; [apply length_replicate|]. split; [done|].
    intros i t ops Hi Ho. apply lookup_replicate in Ho as [-> _]. unfold foretold. destruct (running t) eqn:Er; [|done].
    intros t' Hi' E _. congruence. }
  inversion Hs as [i t tick self chunks ? Hi Hu Hh Hg E|i t tick self chunks p last ? Hi Hu Hh Hg E Ef|i t chunk chunks ? e Hi Hu He Hroom
    |i t ? Hi Hu He|i chunk chunks ? e now instant later He Hch Hnow Hlater|? e instant now He Hch Hnow|? e e' r He Hch Hgone Hfin]; subst.
  - destruct (next_todo st _ _ _ _ _ IH (length_insert _ _ _) Hi) as [todo Htodo].
    pose proof (ingest_turn_round _ _ _ _ _ Hg E) as [(?&_)|(_ & ops & Hops & Hround)]; [done|].
    eapply (simulated_thread st st' futures i t _ (ops ++ todo) todo IH Hi Htodo).
    + destruct Hround as [(-> & -> & Eo)|(op & -> & Eop)].
      * left. split; [done|]. unfold thread_of. cbn. by rewrite Eo, Hu, Hh.
      * right. eapply (act_op pid enrichment i (thread_of t (op :: todo)) op todo); [|done|done|done|exact Eop].
        apply erased_thread; [done|]. apply list_lookup_insert_eq. by eapply lookup_lt_Some.
    + unfold foretold. rewrite Hh. intros t' Hi' Hh' Hp. destruct IH as (_ & _ & Hf). specialize (Hf i _ todo (ingest_set _ _ _ _ Hi) Htodo).
      unfold foretold in Hf. cbn [running ingest_self] in Hf. destruct (Hf t' Hi' Hh' Hp) as [rounds Hrounds].
      exists (S rounds). by rewrite Hops, Hrounds.
  - destruct (next_todo st _ _ _ _ _ IH (length_insert _ _ _) Hi) as [todo Htodo]. destruct (IH) as (_ & _ & Hf).
    specialize (Hf i _ todo (ingest_set _ _ _ _ Hi) Htodo). unfold foretold in Hf. cbn in Hf. subst todo.
    pose proof (ingest_turn_round _ _ _ _ _ Hg E) as [(_ & -> & Eo & Hops)|(?&_)]; [|done].
    eapply (simulated_thread st st' futures i t _ [] [] IH Hi Htodo).
    + right. replace (thread_of _ []) with (mkThread [] p last false) by (unfold thread_of; cbn; by rewrite ingest_output_with).
      eapply (act_drop pid enrichment i (thread_of t [])); [|done|done|done|cbn; by rewrite <- Eo].
      apply erased_thread; [done|]. apply list_lookup_insert_eq. by eapply lookup_lt_Some.
    + unfold foretold. rewrite Hh. intros t' _ _ _. exists 1%nat. apply Hops.
  - exists futures. by eapply simulated_send.
  - destruct (next_todo st _ _ _ _ _ IH (length_insert _ _ _) Hi) as [todo Htodo]. destruct (IH) as (_ & _ & Hf).
    specialize (Hf i _ todo (ingest_set _ _ _ _ Hi) Htodo). unfold foretold in Hf. cbn in Hf. subst todo.
    eapply (simulated_thread st st' futures i t _ [] [] IH Hi Htodo).
    + right. eapply (act_gone pid enrichment i (thread_of t [])); [|done|done].
      apply erased_thread; [done|]. apply list_lookup_insert_eq. by eapply lookup_lt_Some.
    + unfold foretold. destruct (running t); [|done]. intros t' _ _ Hp. destruct Hp. by eapply panicked_stays.
  - exists futures. eapply simulated_other; [exact IH|done|]. left.
    exact (act_receive pid enrichment i chunk chunks (erase st futures) e _ now instant later He Hch Hnow Hlater eq_refl).
  - exists futures. eapply simulated_other; [exact IH|done|]. right.
    exact (idle_timeout (erase st futures) e instant now He Hch Hnow).
  - exists futures. eapply simulated_other; [exact IH|done|]. left.
    eapply (act_close pid enrichment (erase st futures) e e' r He Hch); [|done].
    cbn [threads erase]. apply Forall_lookup. intros k u Hk. rewrite lookup_zip_with in Hk.
    destruct (ingests st !! k) as [t|] eqn:Ek; [|done]. cbn in Hk. destruct (futures !! k); [|done]. injection Hk as <-.
    rewrite Forall_lookup in Hgone. exact (Hgone k t Ek).
Qed.
(** *** And back *)

(** The threads of [PipelineRun] that do what those of a collector come to do. *)
Definition enacts (st : Collecting) (ast : State) : Prop :=
  exists futures, ast = erase st futures /\ length futures = length st.(ingests) /\
    forall i t ops, st.(ingests) !! i = Some t -> futures !! i = Some ops ->
      if t.(running) then exists rounds, ingest_ops rounds t.(ingest_self) = Some ops else ops = [].

(** Rounds that leave the producer alone can be gone through until one does the
    next operation, or the last. *)
Lemma catch_up started ended rounds : forall st i t ops,
  st.(ingests) !! i = Some t -> t.(unsent) = [] -> t.(running) = true -> ingest_ops rounds t.(ingest_self) = Some ops ->
  exists self self' chunks r, let tick := mkTick started ended 0 false in
    rtc step1 st (set_ingest st i (mkIngesting self [] true)) /\ go self tick = (self', chunks, r) /\
    ingest_output self = ingest_output t.(ingest_self) /\
    (r = inr None /\ chunks = [] /\ ingest_output self' = ingest_output self /\ ops = [] \/
     exists op rest rounds', r = inl tt /\ ops = op :: rest /\ run_op (ingest_output self) op started ended = (ingest_output self', chunks) /\
       ingest_ops rounds' self' = Some rest).
Proof.
  induction rounds as [|rounds IH]; intros st i t ops Hi Hu Hh Ho; [by destruct t.(ingest_self)|].
  set (tick := mkTick started ended 0 false). destruct (go t.(ingest_self) tick) as [[self1 chunks] r] eqn:E.
  assert (Hst : set_ingest st i (mkIngesting t.(ingest_self) [] true) = st).
  { destruct t as [self0 u h]. cbn in Hu, Hh. subst u h. destruct st. unfold set_ingest. cbn in *. by rewrite list_insert_id. }
  destruct (ingest_turn_round _ _ tick _ _ eq_refl E) as [(-> & -> & Eo & H1)|(-> & ops1 & Hops & Hround)].
  - exists t.(ingest_self), self1, [], (inr None). rewrite Hst. split_and!; [done|done|done|]. left. split_and!; try done.
    rewrite H1 in Ho. congruence.
  - rewrite Hops in Ho. destruct (ingest_ops rounds self1) as [more|] eqn:Em; [|done]. injection Ho as <-.
    destruct Hround as [(-> & -> & Eo)|(op & -> & Eop)].
    + destruct (IH (set_ingest st i (mkIngesting self1 [] true)) i _ more (ingest_set st i _ _ Hi) eq_refl eq_refl Em)
        as (self & self' & chunks & r & Hr & E' & Eo' & H). exists self, self', chunks, r. split; [|split; [done|split; [|done]]].
      * eapply rtc_l; [by eapply (collecting_turn _ _ _ _ _ i t tick)|].
        unfold set_ingest in Hr. cbn in Hr. by rewrite list_insert_insert_eq in Hr.
      * cbn in Eo'. congruence.
    + exists t.(ingest_self), self1, chunks, (inl tt). rewrite Hst. split_and!; [done|done|done|]. right. by exists op, more, rounds.
Qed.

Lemma enacts_thread st futures i t t' ops' : length futures = length st.(ingests) -> st.(ingests) !! i = Some t ->
  (forall j u ops, st.(ingests) !! j = Some u -> futures !! j = Some ops ->
    if u.(running) then exists rounds, ingest_ops rounds u.(ingest_self) = Some ops else ops = []) ->
  (if t'.(running) then exists rounds, ingest_ops rounds t'.(ingest_self) = Some ops' else ops' = []) ->
  enacts (set_ingest st i t') (set_thread (erase st futures) i (thread_of t' ops')).
Proof.
  intros Hl Hi Hf Ht. exists (<[i := ops']> futures). split; [|split].
  - destruct (lookup_lt_is_Some_2 futures i) as [ops Ho]; [rewrite Hl; by eapply lookup_lt_Some|]. by eapply erase_set.
  - cbn. by rewrite !length_insert.
  - cbn [ingests set_ingest]. intros j u ops Hj Ho. destruct (decide (i = j)) as [<-|Hij].
    + pose proof (lookup_lt_Some _ _ _ Hi). rewrite list_lookup_insert_eq in Hj by done. rewrite list_lookup_insert_eq in Ho by lia. by injection Hj as <-; injection Ho as <-.
    + rewrite list_lookup_insert_ne in Hj by done. rewrite list_lookup_insert_ne in Ho by done. by apply (Hf j).
Qed.

Lemma erased_inv st futures i t : (erase st futures).(threads) !! i = Some t ->
  exists u ops, st.(ingests) !! i = Some u /\ futures !! i = Some ops /\ t = thread_of u ops.
Proof.
  cbn. rewrite lookup_zip_with. destruct (ingests st !! i) as [u|]; [|done]. cbn. destruct (futures !! i) as [ops|]; [|done].
  intros [= <-]. by exists u, ops.
Qed.

Lemma set_ingest_twice st i t t' : set_ingest (set_ingest st i t) i t' = set_ingest st i t'.
Proof. unfold set_ingest. cbn. by rewrite list_insert_insert_eq. Qed.

(** The operation a thread has next, some of its rounds do. *)
Lemma enacts_op st futures i u op rest started ended after sent :
  length futures = length st.(ingests) ->
  (forall j u ops, st.(ingests) !! j = Some u -> futures !! j = Some ops ->
    if u.(running) then exists rounds, ingest_ops rounds u.(ingest_self) = Some ops else ops = []) ->
  st.(ingests) !! i = Some u -> futures !! i = Some (op :: rest) -> u.(unsent) = [] -> u.(running) = true ->
  run_op (ingest_output u.(ingest_self)) op started ended = (after, sent) ->
  exists st', rtc step1 st st' /\ enacts st' (set_thread (erase st futures) i (mkThread rest after sent true)).
Proof.
  intros Hl Hf Hi Ho Hout Hheld Hrun. pose proof (Hf i u _ Hi Ho) as Hu. rewrite Hheld in Hu. destruct Hu as [rounds Hr].
  destruct (catch_up started ended rounds st i u _ Hi Hout Hheld Hr) as (self & self' & chunks & r & Hsteps & E & Eo & [H|H]).
  { by destruct H as (_ & _ & _ & ?). }
  destruct H as (op' & rest' & rounds' & -> & [= <- <-] & Eop & Hr'). rewrite Eo, Hrun in Eop. injection Eop as -> ->.
  exists (set_ingest st i (mkIngesting self' chunks true)). split.
  - eapply rtc_r; [exact Hsteps|]. rewrite <- (set_ingest_twice st i (mkIngesting self [] true) (mkIngesting self' chunks true)).
    eapply (collecting_turn _ _ _ _ _ i _ (mkTick started ended 0 false)); [by eapply ingest_set|done|done|done|exact E].
  - apply (enacts_thread st futures i u (mkIngesting self' chunks true) rest); [done|done|done|by exists rounds'].
Qed.

(** With none left, some of its rounds are its last. *)
Lemma enacts_drop st futures i u after sent :
  length futures = length st.(ingests) ->
  (forall j u ops, st.(ingests) !! j = Some u -> futures !! j = Some ops ->
    if u.(running) then exists rounds, ingest_ops rounds u.(ingest_self) = Some ops else ops = []) ->
  st.(ingests) !! i = Some u -> futures !! i = Some [] -> u.(unsent) = [] -> u.(running) = true ->
  producer_flush (ingest_output u.(ingest_self)) = (after, sent) ->
  exists st', rtc step1 st st' /\ enacts st' (set_thread (erase st futures) i (mkThread [] after sent false)).
Proof.
  intros Hl Hf Hi Ho Hout Hheld Hflush. pose proof (Hf i u _ Hi Ho) as Hu. rewrite Hheld in Hu. destruct Hu as [rounds Hr].
  destruct (catch_up 0 0 rounds st i u _ Hi Hout Hheld Hr) as (self & self' & chunks & r & Hsteps & E & Eo & [H|H]).
  2: { by destruct H as (op' & rest' & rounds' & _ & ? & _). }
  destruct H as (-> & -> & Eo' & _). set (t' := mkIngesting (with_output self' after) sent false).
  exists (set_ingest st i t'). split.
  - eapply rtc_r; [exact Hsteps|]. rewrite <- (set_ingest_twice st i (mkIngesting self [] true) t').
    eapply (collecting_end _ _ _ _ _ i _ (mkTick 0 0 0 false) self' [] after sent);
      [by eapply ingest_set|done|done|done|exact E|by rewrite Eo', Eo].
  - replace (mkThread [] after sent false) with (thread_of t' []) by (unfold thread_of; cbn; by rewrite ingest_output_with).
    by apply (enacts_thread st futures i u).
Qed.

(** What an act of [PipelineRun] leads to, some steps of the collector do. *)
Lemma enacts_act st ast ast' : enacts st ast -> act pid enrichment ast ast' -> exists st', rtc step1 st st' /\ enacts st' ast'.
Proof.
  intros (futures & -> & Hl & Hf) Ha.
  inversion Ha as [i t op rest started ended prod' sent ? Hi Htodo Hout Hheld Hrun
    |i t prod' sent ? Hi Htodo Hout Hheld Hflush|i t chunk chunks ? e Hi Hout He Hroom|i t ? Hi Hout He
    |i chunk chunks ? e e' now instant later He Hch Hnow Hlater Hchunk|? e e' r He Hch Hgone Hfin]; subst.
  - apply erased_inv in Hi as (u & ops & Hi & Ho & ->). cbn in Htodo, Hout, Hheld, Hrun. subst ops. by eapply enacts_op.
  - apply erased_inv in Hi as (u & ops & Hi & Ho & ->). cbn in Htodo, Hout, Hheld, Hflush. subst ops. by eapply enacts_drop.
  - apply erased_inv in Hi as (u & ops & Hi & Ho & ->). cbn in Hout, He, Hroom. eexists. split; [apply rtc_once; by eapply collecting_send|].
    exists futures. split; [|split; [cbn; by rewrite length_insert|]].
    + unfold erase. cbn. f_equal. rewrite <- (list_insert_id futures i ops Ho) at 2. by rewrite <- insert_zip_with.
    + cbn [ingests]. intros j v given Hj Hg. destruct (decide (i = j)) as [<-|Hij].
      * rewrite list_lookup_insert_eq in Hj by (by eapply lookup_lt_Some). injection Hj as <-. exact (Hf i u given Hi Hg).
      * rewrite list_lookup_insert_ne in Hj by done. by apply (Hf j).
  - apply erased_inv in Hi as (u & ops & Hi & Ho & ->). cbn in Hout, He. eexists. split; [apply rtc_once; by eapply (collecting_gone _ _ _ _ _ i u)|].
    by apply (enacts_thread st futures i u (mkIngesting u.(ingest_self) [] false) []).
  - eexists. split; [apply rtc_once; by eapply (collecting_receive _ _ _ _ _ i chunk chunks st e now instant later)|]. by exists futures.
  - eexists. split; [apply rtc_once; eapply (collecting_close _ _ _ _ _ st e e' r); [done|done| |done]|by exists futures].
    apply Forall_lookup. intros k u Hk. destruct (lookup_lt_is_Some_2 futures k) as [ops Ho]; [rewrite Hl; by eapply lookup_lt_Some|].
    rewrite Forall_lookup in Hgone. exact (Hgone k _ (erased_thread st futures k u ops Hk Ho)).
Qed.

Lemma enacts_acts ast ast' : rtc (act pid enrichment) ast ast' -> forall st, enacts st ast -> exists st', rtc step1 st st' /\ enacts st' ast'.
Proof.
  induction 1 as [ast|ast ast1 ast' Ha _ IH]; intros st H; [by exists st|].
  destruct (enacts_act st ast ast1 H Ha) as (st1 & Hr1 & H1). destruct (IH st1 H1) as (st' & Hr' & H').
  exists st'. split; [by etrans|done].
Qed.

(** The threads of [PipelineRun] a collector starts as. *)
Lemma collector_erased sys sink decoding discard started inputs futures : length futures = length inputs ->
  erase (collector enrichment sys sink decoding discard started inputs) futures = initial enrichment sys sink discard started futures.
Proof.
  intros Hl. unfold erase, initial, collector. cbn [ingests in_channel encoding received]. f_equal.
  revert futures Hl. induction inputs as [|input inputs IH]; intros [|ops futures] Hl; [done..|]. cbn in Hl.
  rewrite !fmap_cons. cbn [zip_with]. rewrite IH by lia. f_equal. unfold thread_of, spawn. cbn. by destruct input.(in_family).
Qed.
End collecting.

Section claim.
Context `{NM : Nom} `{CK : Clock} `{EP : Etherparse} `{CL : Calendar} `{ST : Storage} `{EN : !Encoders} `{PT : PrefixTrie} `{IT : IpnetText}.
Context (parse_duration : bytes -> option Z) (absolute : bytes -> EnrichResult bytes).
Context (netflow_json : NetflowPacket -> bytes) (sflow_json : SflowPacket -> bytes).

(** What the thread of an input has to do for its datagrams. *)
Lemma spawned_ops decoding p input rounds :
  ingest_ops netflow_json sflow_json decoding.(d_format) rounds (spawn decoding p input) =
  ds ← datagrams rounds input.(in_source);
  Some (match input.(in_family) with
    | NetflowFamily => collect_ops netflow_json decoding.(d_format) (netflow_processor decoding input.(in_reads)) ds
    | SflowFamily => collect_ops sflow_json decoding.(d_format) (input.(in_reads), SflowProcessor_new) ds
    end).
Proof. unfold spawn. by destruct input.(in_family). Qed.

(** C12: Of a collector over an opened sink, whose threads go their rounds over
    their sources, parse and convert the datagrams of their inputs, and send
    what that gives over the bounded channel, in whatever turns they and the
    encoder take: the encoder never panics, and once the output is finished,
    the source of every input has ended, and the encoder has taken of its
    thread the flows that [process] gives for the datagrams of the source, or
    the lines of the packets that parse, all of them, once and in order. *)
Theorem datagrams_reach_encoder pid layout interval ser fields s now s' sink hooked configs enrichment decoding discard inputs started st :
  names_ok layout -> 0 < interval < 2 ^ 62 -> time_ok now ->
  open_at pid ser (Partitioned layout interval) fields s now = Some (s', inl sink) ->
  Forall (configured parse_duration absolute) configs -> load_enrichment engine_new configs = Some (inl enrichment) ->
  rtc (collecting netflow_json sflow_json decoding.(d_format) pid enrichment)
    (collector enrichment s' (if hooked : bool then with_hook sink else sink) decoding discard started inputs) st ->
  st.(encoding) <> Panicked /\
  forall e r, st.(encoding) = Finished e r -> forall i input, inputs !! i = Some input ->
    exists rounds ds, datagrams rounds input.(in_source) = Some ds /\
      total chunk_load (sent_by i st.(received)) =
        match input.(in_family) with
        | NetflowFamily => collected netflow_json decoding.(d_format) discard (netflow_processor decoding input.(in_reads)) ds
        | SflowFamily => collected sflow_json decoding.(d_format) discard (input.(in_reads), SflowProcessor_new) ds
        end.
Proof.
  intros Hn Hi Ht Eo Hc El Hr. destruct (collecting_simulated _ _ _ _ _ _ _ Hr) as (futures & Hl & Hsim & Hf).
  rewrite collector_erased in Hsim by (cbn in Hl; by rewrite length_fmap in Hl).
  destruct (pipeline_taken parse_duration absolute pid layout interval ser fields s now s' sink hooked configs enrichment discard
    futures started _ Hn Hi Ht Eo Hc El Hsim) as (Hp & _ & Hfin). split; [exact Hp|].
  intros e r E i input Hin. destruct (Hfin e r E) as (Hall & _ & _ & _).
  assert (Hlt : (i < length inputs)%nat) by by eapply lookup_lt_Some.
  destruct (lookup_lt_is_Some_2 futures i) as [ops Ho]; [cbn in Hl; rewrite length_fmap in Hl; lia|].
  specialize (Hall i ops Ho). cbn [taken erase] in Hall.
  assert (Hst : (collector enrichment s' (if hooked then with_hook sink else sink) decoding discard started inputs).(ingests) !! i =
    Some (mkIngesting (spawn decoding (producer discard started) input) [] true)) by (cbn; by rewrite list_lookup_fmap, Hin).
  specialize (Hf i _ ops Hst Ho). unfold foretold in Hf. cbn [running ingest_self] in Hf.
  destruct (ended_threads _ _ _ _ _ _ _ e r Hr ltac:(done) E i) as (t' & Hi' & Hh'); [by eexists|].
  destruct (Hf t' Hi' Hh' Hp) as [rounds Hops]. rewrite spawned_ops in Hops. destruct (datagrams rounds input.(in_source)) as [ds|] eqn:Ed; [|done].
  cbn [mbind option_bind] in Hops. injection Hops as <-. exists rounds, ds. split; [done|]. rewrite Hall.
  destruct input.(in_family); apply collect_ops_load.
Qed.

End claim.

(** ** Samples

    Ingest threads over a socket and a capture file, and the pipeline behind
    one. *)

From S2P Require Import ProcessorFlows Ndjson SinkSamples EnrichEngineFacts Pipeline PipelineRun PipelineFacts Source Collect.
#[local] Open Scope Z_scope.

#[local] Existing Instance SinkSamples.sample_crates.
#[local] Existing Instance ProcessorFlows.sample_nom.
#[local] Existing Instance ProcessorFlows.sample_etherparse.
#[local] Existing Instance ProcessorFlows.sample_clock.
#[local] Existing Instance sample_calendar.
#[local] Existing Instance sample_storage.
#[local] Existing Instance sample_encoders.

(** A datagram with a flow, a timeout, one cut short and one of no version
    known; then shutdown is requested. *)
Definition sample_received (n : nat) : bool * Received :=
  match n with
  | 0%nat => (false, ReceivedFrom ProcessorFlows.sample_datagram sample_src noon)
  | 1%nat => (false, RecvFailed TimedOut)
  | 2%nat => (false, ReceivedFrom [x00; x09; x00] sample_src noon)
  | 3%nat => (false, ReceivedFrom [xff; xff] other_src later)
  | _ => (true, RecvFailed TimedOut)
  end.

Definition sample_ds : list Datagram :=
  [DatagramPacket sample_src ProcessorFlows.sample_datagram (timestamp_nanos_opt noon); Idle;
   DatagramPacket sample_src [x00; x09; x00] (timestamp_nanos_opt noon);
   DatagramPacket other_src [xff; xff] (timestamp_nanos_opt later)].

Lemma sample_socket_ends : datagrams 5 (mkSocket sample_received 0) = Some sample_ds.
Proof. vm_compute. reflexivity. Qed.

Definition sample_json (p : NetflowPacket) : bytes := str "{}".

Definition sample_ticks (n : nat) : Tick := mkTick (Z.of_nat n) (Z.of_nat n) 0 false.

(** One flow is handed over; the first exporter has two packets of 107 octets,
    one of which does not parse. *)
Lemma ingest_collects_witness :
  exists final chunks,
    ingest sample_json OutputFormat.Common 5
      (start (str "netflow") (mkSocket sample_received 0) sample_start InputMetrics_new (producer false 0)) sample_ticks false =
      Some (final, chunks, false) /\
    zlen (total chunk_load chunks).1.1 = 1 /\
    value final.(Collect.metrics).(packets_received) (mkTypeSource (str "netflow") (str "0.0.0.1")) = 2 /\
    value final.(Collect.metrics).(parse_errors) (mkTypeSource (str "netflow_v9") (str "0.0.0.1")) = 1 /\
    value final.(Collect.metrics).(unknown_version) (str "0.0.0.2") = 1.
Proof.
  destruct (ingest_collects sample_json OutputFormat.Common false 5 (str "netflow") (mkSocket sample_received 0) sample_start
    InputMetrics_new 0 sample_ticks false sample_ds) as (final & chunks & E & Ht & C1 & C2 & C3 & C4 & C5 & C6).
  - reflexivity.
  - exact sample_socket_ends.
  - exists final, chunks. split; [exact E|]. rewrite Ht, C1, C4, C5.
    split; [vm_compute; reflexivity|]. split; [vm_compute; reflexivity|]. split; vm_compute; reflexivity.
Defined.

Definition sample_decoding : Decoding := mkDecoding OutputFormat.Common ProcessorFlows.sample_registry (from_secs 600).

Definition sample_input : Input := mkInput NetflowFamily (SocketSource (mkSocket sample_received 0)) InputMetrics_new 0.

Definition no_sflow_json (p : SflowPacket) : bytes := [].

Lemma sample_input_ends : datagrams 5 sample_input.(in_source) = Some sample_ds.
Proof. vm_compute. reflexivity. Qed.

Definition collect_sample_ops : list (list Op) := [collect_ops sample_json OutputFormat.Common sample_start sample_ds].

(** The collector of the sample goes on to its end. *)
Lemma sample_collector_ends enrichment s' sink :
  open_at 7 Serialization.Ndjson (Partitioned sample_layout 3600) [] sample_sys noon = Some (s', inl sink) ->
  load_enrichment engine_new sample_configs = Some (inl enrichment) ->
  exists st e r, rtc (collecting sample_json no_sflow_json OutputFormat.Common 7 enrichment)
    (collector enrichment s' (with_hook sink) sample_decoding false 0 [sample_input]) st /\ st.(encoding) = Finished e r.
Proof.
  intros Eo El. set (st0 := collector _ _ _ _ _ _ _).
  pose proof (pipeline_starts 7 sample_layout 3600 Serialization.Ndjson [] sample_sys noon s' sink true enrichment false collect_sample_ops 0
    sample_names_ok hour_positive noon_ok Eo) as H0.
  set (ast0 := initial enrichment s' (with_hook sink) false 0 collect_sample_ops) in *.
  assert (H : enacts sample_json no_sflow_json OutputFormat.Common st0 ast0).
  { exists collect_sample_ops. split; [symmetry; by apply collector_erased|]. split; [done|].
    intros i t ops Hi Ho. destruct i as [|i]; [|done]. injection Hi as <-. injection Ho as <-. exists 5%nat.
    cbn [ingest_self]. rewrite (spawned_ops sample_json no_sflow_json sample_decoding), sample_input_ends. done. }
  destruct (pipeline_ends 7 enrichment sample_layout 3600 false collect_sample_ops s' sample_names_ok hour_positive
    (loaded_enriches no_duration as_given sample_configs enrichment sample_configured El) noon noon_ok (Z.to_nat (measure ast0)) ast0 H0)
    as (ast & e & r & Hr & E).
  { rewrite Z2Nat.id; [reflexivity|apply measure_nonneg]. }
  destruct (enacts_acts _ _ _ _ _ _ _ Hr st0 H) as (st & Hrun & futures & -> & _). exists st, e, r. exact (conj Hrun E).
Qed.

Lemma datagrams_reach_encoder_witness : exists enrichment s' sink st e r rounds ds,
  rtc (collecting sample_json no_sflow_json OutputFormat.Common 7 enrichment)
    (collector enrichment s' (with_hook sink) sample_decoding false 0 [sample_input]) st /\
  st.(encoding) = Finished e r /\ datagrams rounds sample_input.(in_source) = Some ds /\
  total chunk_load (sent_by 0 st.(received)) = (processed sample_start ds, [], 0).
Proof.
  destruct sample_sink as (s' & sink & Eo). destruct sample_engine as (enrichment & El).
  destruct (sample_collector_ends enrichment s' sink Eo El) as (st & e & r & Hr & E).
  destruct (datagrams_reach_encoder no_duration as_given sample_json no_sflow_json 7 sample_layout 3600 Serialization.Ndjson [] sample_sys noon s' sink true
    sample_configs enrichment sample_decoding false [sample_input] 0 st sample_names_ok hour_positive noon_ok Eo sample_configured El Hr) as [_ H].
  destruct (H e r E 0%nat sample_input eq_refl) as (rounds & ds & Ed & Et).
  exists enrichment, s', sink, st, e, r, rounds, ds. exact (conj Hr (conj E (conj Ed Et))).
Defined.
