(* ===== verification/Generate.v ===== *)
(** [rustflow_generate/src/lib.rs]: the flow generator.

    Random numbers are a class with the bounds each draw keeps; how many were
    drawn so far is part of the state.  The generator's loop is a machine of
    two kinds of step, one turn that sends a data packet and one look at the
    clock while it waits for the next deadline. *)

From Stdlib Require Import ZArith Lia Strings.Byte.
From stdpp Require Import base tactics numbers list.
From coqutil Require Import Datatypes.RecordSetters.
From S2P Require Import Prelude Std Text Crates IERegistry InformationElement DataRecord IpfixTypes IpfixEncoder EnrichTables Sampler Exporter.
#[local] Open Scope Z_scope.
Import TriangleBracketNotations.
#[local] Abbreviation length := List.length.

Definition FLOW_TEMPLATE_ID : Z := 256.
Definition OPTIONS_TEMPLATE_ID : Z := 257.
Definition IPPROTO_TCP : Z := 6.

(** ** Flags *)

(** [str::split_once] at a character of one octet. *)
Fixpoint split_once (sep : byte) (s : bytes) : option (bytes * bytes) :=
  match s with
  | [] => None
  | c :: s =>
      if bool_decide (c = sep) then Some ([], s)
      else '(start, rest) ← split_once sep s; Some (c :: start, rest)
  end.

Definition parse_protocol (value : bytes) : Z + bytes :=
  match parse_unsigned 8 (trim value) with
  | Some protocol => inl protocol
  | None => inr (str "invalid protocol number '" ++ trim value ++ str "'")
  end.

Definition TCP_FLAGS : list (bytes * Z) :=
  [(str "", 0); (str "fin", 0x001); (str "syn", 0x002); (str "rst", 0x004); (str "psh", 0x008);
   (str "ack", 0x010); (str "urg", 0x020); (str "ece", 0x040); (str "cwr", 0x080); (str "ns", 0x100)].

Definition parse_tcp_flag (value : bytes) : Z + bytes :=
  let value := lower <$> trim value in
  match List.find (fun flag => bool_decide (flag.1 = value)) TCP_FLAGS with
  | Some flag => inl flag.2
  | None =>
      match parse_unsigned 16 value with
      | Some flag => inl flag
      | None => inr (str "invalid TCP flag '" ++ value ++ str "'")
      end
  end.

(** A range of unsigned integers of one width. *)
Record InclusiveRange := mkRange { r_start : Z; r_end : Z }.

(** What is wrong with a range; the message names it. *)
Inductive RangeError := NoSeparator | InvalidStart | InvalidEnd | Inverted (start end_ : Z).

(** [InclusiveRange::<T>::from_str], [T] of [w] bits. *)
Definition range_from_str (w : Z) (s : bytes) : InclusiveRange + RangeError :=
  match split_once x2d s with
  | None => inr NoSeparator
  | Some (start, end_) =>
      match parse_unsigned w (trim start) with
      | None => inr InvalidStart
      | Some start =>
          match parse_unsigned w (trim end_) with
          | None => inr InvalidEnd
          | Some end_ => if end_ <? start then inr (Inverted start end_) else inl (mkRange start end_)
          end
      end
  end.

Definition show_range (self : InclusiveRange) : bytes := show self.(r_start) ++ str "-" ++ show self.(r_end).

Module AddressFamily.
Inductive AddressFamily := V4 | V6.
End AddressFamily.
Export AddressFamily(AddressFamily).

#[export] Instance AddressFamily_eq_dec : EqDecision AddressFamily.
Proof. solve_decision. Defined.

(** [AddressFamily::of] *)
Definition AddressFamily_of (cidr : IpNet) : AddressFamily :=
  match cidr with NetV4 _ => AddressFamily.V4 | NetV6 _ => AddressFamily.V6 end.

Record GenerateArgs := mkGenerateArgs {
  a_host : bytes;
  a_port : Z;
  a_rate : Z;
  a_flows_per_packet : Z;
  a_count : Z;
  a_observation_domain_id : Z;
  a_template_interval : Z;
  a_src_cidr : IpNet;
  a_dst_cidr : IpNet;
  a_protocols : list Z;
  a_src_port_range : InclusiveRange;
  a_dst_port_range : InclusiveRange;
  a_tcp_flags : list Z;
  a_octet_range : InclusiveRange;
  a_packet_range : InclusiveRange;
}.

(** ** Randomness *)

(** The generator of [rand::rng], at each of its draws. *)
Class Rng := {
  (* [random], of an integer of so many bits *)
  random : Z -> nat -> Z;
  (* [random_range], of a range that is not empty *)
  random_between : Z -> Z -> nat -> Z;
  (* the index that [choose] takes among so many *)
  random_index : Z -> nat -> Z;

  random_law : forall w n, 0 <= w -> fits_u w (random w n);
  random_between_law : forall lo hi n, lo <= hi -> lo <= random_between lo hi n <= hi;
  random_index_law : forall len n, 0 < len -> 0 <= random_index len n < len;
}.

Section random.
Context `{RN : Rng}.

(** [Rng::random_range] of [lo..=hi], which panics where that is empty. *)
Definition random_range (lo hi : Z) (draws : nat) : option (nat * Z) :=
  if lo <=? hi then Some (S draws, random_between lo hi draws) else None.

Definition sample (self : InclusiveRange) (draws : nat) : option (nat * Z) :=
  random_range self.(r_start) self.(r_end) draws.

(** [IndexedRandom::choose] *)
Definition choose (l : list Z) (draws : nat) : nat * option Z :=
  match l with
  | [] => (draws, None)
  | _ => (S draws, l !! Z.to_nat (random_index (zlen l) draws))
  end.

(** The bits of an address of [w] bits below the prefix. *)
Definition hostmask (w : Z) (net : Net) : Z := 2 ^ (w - net.(net_len)) - 1.

Definition random_host (w : Z) (net : Net) (draws : nat) : Z :=
  let host_bits := Z.land (random w draws) (hostmask w net) in
  Z.lor (trunc w net).(net_addr) host_bits.

Definition random_ip_in_cidr (cidr : IpNet) (draws : nat) : nat * IpAddr :=
  match cidr with
  | NetV4 cidr => (S draws, V4 (random_host 32 cidr draws))
  | NetV6 cidr => (S draws, V6 (random_host 128 cidr draws))
  end.
End random.

(** ** Templates and records *)

Definition create_flow_template (family : AddressFamily) : TemplateRecord :=
  let '(source_address, destination_address, address_length) :=
    match family with
    | AddressFamily.V4 => (SourceIpv4Address, DestinationIpv4Address, 4)
    | AddressFamily.V6 => (SourceIpv6Address, DestinationIpv6Address, 16)
    end in
  TemplateRecord_new FLOW_TEMPLATE_ID
    [from_ie source_address address_length;
     from_ie destination_address address_length;
     from_ie ProtocolIdentifier 1;
     from_ie TcpControlBits 2;
     from_ie SourceTransportPort 2;
     from_ie DestinationTransportPort 2;
     from_ie OctetDeltaCount 8;
     from_ie PacketDeltaCount 8;
     from_ie FlowStartMilliseconds 8;
     from_ie FlowEndMilliseconds 8].

Definition create_options_template : OptionsTemplateRecord :=
  OptionsTemplateRecord_new OPTIONS_TEMPLATE_ID 1
    [from_ie ObservationDomainId 4; from_ie SamplingPacketInterval 4].

(** The addresses a host and port resolve to, if they can be asked for, and
    whether a socket can be bound to any port of a family. *)
Class Resolver := {
  to_socket_addrs : bytes -> Z -> option (list SocketAddr);
  bind : bool -> bool;
}.

(** [Duration::from_secs_f64(1.0 / rate as f64)], in nanoseconds. *)
Class Pacing := {
  secs_f64_recip : Z -> Z;
  (* within a nanosecond of what it stands for *)
  secs_f64_recip_law : forall rate, 0 < rate -> fits_u 32 rate ->
    10 ^ 9 - rate <= secs_f64_recip rate * rate <= 10 ^ 9 + rate;
}.

Section generator.
Context `{CR : Crates}.

Definition address_field (ip : IpAddr) (v4 v6 : InformationElement) : InformationElement * FieldValue :=
  match ip with
  | V4 addr => (v4, FieldValue.Ipv4Address addr)
  | V6 addr => (v6, FieldValue.Ipv6Address addr)
  end.

Record Flow := mkGenerated {
  f_src_ip : IpAddr;
  f_dst_ip : IpAddr;
  f_protocol : Z;
  f_tcp_flags : Z;
  f_src_port : Z;
  f_dst_port : Z;
  f_octets : Z;
  f_packets : Z;
  f_flow_start : DateTime;
  f_flow_end : DateTime;
}.

Definition flow_values (flow : Flow) : list FieldValue :=
  let '(_, source_value) := address_field flow.(f_src_ip) SourceIpv4Address SourceIpv6Address in
  let '(_, destination_value) := address_field flow.(f_dst_ip) DestinationIpv4Address DestinationIpv6Address in
  [source_value;
   destination_value;
   FieldValue.Unsigned8 flow.(f_protocol);
   FieldValue.Unsigned16 flow.(f_tcp_flags);
   FieldValue.Unsigned16 flow.(f_src_port);
   FieldValue.Unsigned16 flow.(f_dst_port);
   FieldValue.Unsigned64 flow.(f_octets);
   FieldValue.Unsigned64 flow.(f_packets);
   FieldValue.DateTimeMilliseconds flow.(f_flow_start);
   FieldValue.DateTimeMilliseconds flow.(f_flow_end)].

Definition create_flow_record (flow : Flow) : DataRecord.DataRecord FieldSpecifier FieldValue :=
  DataRecord_new (flow_values flow).

Definition create_options_record (observation_domain_id sampling_interval : Z)
    : DataRecord.DataRecord FieldSpecifier FieldValue :=
  DataRecord_new [FieldValue.Unsigned32 observation_domain_id; FieldValue.Unsigned32 sampling_interval].

Record IpfixGenerator := mkGenerator {
  g_target : SocketAddr;
  g_observation_domain_id : Z;
  g_sequence_number : Z;
  g_flows_per_packet : Z;
  g_family : AddressFamily;
  g_src_cidr : IpNet;
  g_dst_cidr : IpNet;
  g_protocols : list Z;
  g_tcp_flags : list Z;
  g_octet_range : InclusiveRange;
  g_packet_range : InclusiveRange;
  g_src_port_range : InclusiveRange;
  g_dst_port_range : InclusiveRange;
}.

Context `{CK : Clock} `{WL : !Wall} `{SK : Socket} `{RN : Rng}.

Inductive GenerateError :=
  | InvalidInput (message : bytes)
  | IoFailed
  | SendFailed (e : SendError).

Definition is_ipv6 (self : SocketAddr) : bool := negb (is_ipv4 self.(ip)).

Definition IpfixGenerator_new `{RS : Resolver} (args : GenerateArgs) : IpfixGenerator + GenerateError :=
  let family := AddressFamily_of args.(a_src_cidr) in
  if negb (bool_decide (AddressFamily_of args.(a_dst_cidr) = family)) then
    inr (InvalidInput (str "--src-cidr and --dst-cidr must use the same IP address family"))
  else if bool_decide (args.(a_protocols) = []) then
    inr (InvalidInput (str "--protocols must contain at least one protocol number"))
  else
    match to_socket_addrs args.(a_host) args.(a_port) with
    | None => inr IoFailed
    | Some [] =>
        inr (InvalidInput (str "cannot resolve collector address " ++ args.(a_host) ++ str ":" ++ show args.(a_port)))
    | Some (target :: _) =>
        if bind (is_ipv6 target) then
          inl (mkGenerator target args.(a_observation_domain_id) 0 args.(a_flows_per_packet) family
            args.(a_src_cidr) args.(a_dst_cidr) args.(a_protocols) args.(a_tcp_flags) args.(a_octet_range)
            args.(a_packet_range) args.(a_src_port_range) args.(a_dst_port_range))
        else inr IoFailed
    end.

#[local] Abbreviation World := Exporter.World.

Definition send_packet (world : World) (packet : IpfixPacket) : World * (Z + SendError) :=
  let buf := IpfixPacket_encode packet ([] : bytes) in
  let '(world, error) := send_to world buf in
  (world, match error with Some e => inr e | None => inl (zlen buf) end).

Definition send_templates (world : World) (self : IpfixGenerator) : World * (Z + SendError) :=
  let '(world, now) := utc_now world in
  send_packet world
    (mkPacket (mkHeader IPFIX_VERSION 0 now self.(g_sequence_number) self.(g_observation_domain_id))
      [mkSet IPFIX_TEMPLATE_SET_ID 0 [Template (create_flow_template self.(g_family))];
       mkSet IPFIX_OPTIONS_TEMPLATE_SET_ID 0 [OptionsTemplate create_options_template]]).

(** The sequence number after so many more records. *)
Definition advance (self : IpfixGenerator) (records : Z) : IpfixGenerator :=
  mkGenerator self.(g_target) self.(g_observation_domain_id) (wrap 32 (self.(g_sequence_number) + records))
    self.(g_flows_per_packet) self.(g_family) self.(g_src_cidr) self.(g_dst_cidr) self.(g_protocols)
    self.(g_tcp_flags) self.(g_octet_range) self.(g_packet_range) self.(g_src_port_range) self.(g_dst_port_range).

Definition send_options (world : World) (self : IpfixGenerator) : (World * IpfixGenerator) * (Z + SendError) :=
  let '(world, now) := utc_now world in
  let packet :=
    mkPacket (mkHeader IPFIX_VERSION 0 now self.(g_sequence_number) self.(g_observation_domain_id))
      [mkSet OPTIONS_TEMPLATE_ID 0 [OptionsData (create_options_record self.(g_observation_domain_id) 1)]] in
  let self := advance self 1 in
  let '(world, result) := send_packet world packet in
  ((world, self), result).

(** One record of a data packet: nothing where a draw is from nothing, or a
    time before those there are. *)
Definition create_flow (self : IpfixGenerator) (now : DateTime) (draws : nat) : option (nat * Flow) :=
  let '(draws, src_ip) := random_ip_in_cidr self.(g_src_cidr) draws in
  let '(draws, dst_ip) := random_ip_in_cidr self.(g_dst_cidr) draws in
  '(draws, index) ← random_range 0 (zlen self.(g_protocols) - 1) draws;
  protocol ← self.(g_protocols) !! Z.to_nat index;
  let '(draws, tcp_flags) :=
    if protocol =? IPPROTO_TCP then
      let '(draws, flags) := choose self.(g_tcp_flags) draws in (draws, default 0 flags)
    else (draws, 0) in
  '(draws, src_port) ← sample self.(g_src_port_range) draws;
  '(draws, dst_port) ← sample self.(g_dst_port_range) draws;
  '(draws, octets) ← sample self.(g_octet_range) draws;
  '(draws, packets) ← sample self.(g_packet_range) draws;
  '(draws, before_start) ← random_range 1000 (60000 - 1) draws;
  flow_start ← checked_sub_millis now before_start;
  '(draws, before_end) ← random_range 0 (1000 - 1) draws;
  flow_end ← checked_sub_millis now before_end;
  Some (draws, mkGenerated src_ip dst_ip protocol tcp_flags src_port dst_port octets packets flow_start flow_end).

Fixpoint create_flows (n : nat) (self : IpfixGenerator) (now : DateTime) (draws : nat) : option (nat * list Flow) :=
  match n with
  | O => Some (draws, [])
  | S n =>
      '(draws, flow) ← create_flow self now draws;
      '(draws, flows) ← create_flows n self now draws;
      Some (draws, flow :: flows)
  end.

Definition data_packet (self : IpfixGenerator) (now : DateTime) (flows : list Flow) : IpfixPacket :=
  mkPacket (mkHeader IPFIX_VERSION 0 now self.(g_sequence_number) self.(g_observation_domain_id))
    [mkSet FLOW_TEMPLATE_ID 0 ((fun flow => Data (create_flow_record flow)) <$> flows)].

Definition send_data_packet (world : World) (draws : nat) (self : IpfixGenerator)
    : option ((World * nat * IpfixGenerator) * (Z + SendError)) :=
  let '(world, now) := utc_now world in
  '(draws, flows) ← create_flows (Z.to_nat self.(g_flows_per_packet)) self now draws;
  let packet := data_packet self now flows in
  let self := advance self self.(g_flows_per_packet) in
  let '(world, result) := send_packet world packet in
  Some ((world, draws, self), result).

(** ** A run *)

(** Where the loop of [run] is: before a turn, waiting for the next deadline,
    or left. *)
Inductive Control := Sending | Waiting | Finished | Failed (e : GenerateError) | Panicked.

Record Run := mkRun {
  arguments : GenerateArgs;
  run_generator : IpfixGenerator;
  run_world : World;
  run_draws : nat;
  packet_interval : Z;
  last_template : Z;
  packets_sent : Z;
  total_flows : Z;
  last_report : Z;
  next_deadline : Z;
  reports : list (Z * Z);
  slept : list Z;
  control : Control;
}.

Definition micros (n : Z) : Z := n * 1000.

(** [send_templates] and [send_options]. *)
Definition announce (world : World) (self : IpfixGenerator) : (World * IpfixGenerator) * option SendError :=
  let '(world, result) := send_templates world self in
  match result with
  | inr e => ((world, self), Some e)
  | inl _ =>
      let '((world, self), result) := send_options world self in
      ((world, self), match result with inr e => Some e | inl _ => None end)
  end.

(** [run] up to its loop. *)
Definition run_start `{RS : Resolver} `{PC : Pacing} (args : GenerateArgs) (world : World) (draws : nat)
    : Run + GenerateError :=
  match IpfixGenerator_new args with
  | inr e => inr e
  | inl generator =>
      let '((world, generator), failed) := announce world generator in
      match failed with
      | Some e => inr (SendFailed e)
      | None =>
          let packet_interval := if 0 <? args.(a_rate) then secs_f64_recip args.(a_rate) else 0 in
          let '(world, last_template) := world_now world in
          let '(world, start_time) := world_now world in
          let '(world, last_report) := world_now world in
          let '(world, next_deadline) := world_now world in
          inl (mkRun args generator world draws packet_interval last_template 0 0 last_report next_deadline [] []
            Sending)
      end
  end.

(** The templates again, once they are due. *)
Definition refresh (self : Run) : Run :=
  let '(world, now) := world_now self.(run_world) in
  let self := self<|run_world := world|> in
  if from_secs self.(arguments).(a_template_interval) <=? duration_since now self.(last_template) then
    let '((world, generator), failed) := announce self.(run_world) self.(run_generator) in
    match failed with
    | Some e => self<|run_world := world|><|run_generator := generator|><|control := Failed (SendFailed e)|>
    | None =>
        let '(world, now) := world_now world in
        self<|run_world := world|><|run_generator := generator|><|last_template := now|>
    end
  else self.

(** A data packet. *)
Definition send_data (self : Run) : Run :=
  match send_data_packet self.(run_world) self.(run_draws) self.(run_generator) with
  | None => self<|control := Panicked|>
  | Some ((world, draws, generator), result) =>
      let self := self<|run_world := world|><|run_draws := draws|><|run_generator := generator|> in
      match result with
      | inr e => self<|control := Failed (SendFailed e)|>
      | inl _ =>
          self<|packets_sent := wrap 64 (self.(packets_sent) + 1)|>
              <|total_flows := wrap 64 (self.(total_flows) + self.(arguments).(a_flows_per_packet))|>
      end
  end.

(** A line once a second; its rates, which are not kept, read the clock. *)
Definition report (self : Run) : Run :=
  let '(world, now) := world_now self.(run_world) in
  if from_secs 1 <=? duration_since now self.(last_report) then
    let '(world, _) := world_now world in
    let '(world, now) := world_now world in
    self<|run_world := world|><|reports := self.(reports) ++ [(self.(packets_sent), self.(total_flows))]|>
        <|last_report := now|>
  else self<|run_world := world|>.

(** The end of a turn: whether it was the last, and until when to wait. *)
Definition proceed (self : Run) : Run :=
  if (0 <? self.(arguments).(a_count)) && (self.(arguments).(a_count) <=? self.(packets_sent)) then
    self<|control := Finished|>
  else if 0 <? self.(arguments).(a_rate) then
    self<|next_deadline := self.(next_deadline) + self.(packet_interval)|><|control := Waiting|>
  else self.

Definition sending (self : Run) : bool := match self.(control) with Sending => true | _ => false end.

(** What is left of a turn unless it was left by an error. *)
Definition unless_left (k : Run -> Run) (self : Run) : Run := if sending self then k self else self.

Definition turn (self : Run) : Run :=
  unless_left (fun self => proceed (report self)) (unless_left send_data (refresh self)).

(** A look at the clock while waiting: the wait sleeps to shortly before the
    deadline and spins from there. *)
Definition wait (self : Run) : Run :=
  let '(world, now) := world_now self.(run_world) in
  let self := self<|run_world := world|> in
  if self.(next_deadline) <=? now then self<|control := Sending|>
  else
    let remaining := self.(next_deadline) - now in
    if micros 200 <? remaining then self<|slept := self.(slept) ++ [remaining - micros 150]|>
    else self.

Definition step (self : Run) : Run :=
  match self.(control) with
  | Sending => turn self
  | Waiting => wait self
  | Finished | Failed _ | Panicked => self
  end.

Definition steps (n : nat) (self : Run) : Run := Nat.iter n step self.
End generator.
