(* ===== verification/GenerateFacts.v ===== *)
(** The flow generator: what it generates keeps to its flags, what it sends a
    collector reads, and its loop sends as many packets as asked for and none
    early. *)

From Stdlib Require Import ZArith Lia Strings.Byte.
From stdpp Require Import base tactics numbers list gmap.
From S2P Require TemplateCache.
From S2P Require Import Prelude Nom Parsing Std Text Crates IERegistry InformationElement DataRecord IpfixTypes ElementTypes Ipfix IpfixEncoder Etherparse CommonFlow EnrichTables Sampler Exporter ExporterFacts ExportWire Generate.
From S2P Require ConvertIpfix Packet.
#[local] Open Scope Z_scope.
#[local] Abbreviation length := List.length.

(** ** Flags *)

Definition within (r : InclusiveRange) (x : Z) : Prop := r.(r_start) <= x <= r.(r_end).

Definition range_ok (w : Z) (r : InclusiveRange) : Prop :=
  fits_u w r.(r_start) /\ fits_u w r.(r_end) /\ r.(r_start) <= r.(r_end).

Lemma digits_value_fits w s : forall acc v, fits_u w acc -> digits_value w acc s = Some v -> fits_u w v.
Proof.
  induction s as [|c s IH]; intros acc v Ha E; [by injection E as <-|]. cbn in E.
  destruct (to_digit 10 c) as [d|]; [|done]. cbn in E. case_bool_decide as Hd; [|done]. by eapply IH.
Qed.

Lemma parse_unsigned_fits w s v : 0 <= w -> parse_unsigned w s = Some v -> fits_u w v.
Proof.
  intros Hw. assert (H0 : fits_u w 0) by (unfold fits_u; pose proof (Z.pow_pos_nonneg 2 w); lia).
  unfold parse_unsigned. destruct s as [|b s]; [done|].
  destruct b, s; try done; apply digits_value_fits, H0.
Qed.

(** A range that was read is one: of numbers of its width, and not empty. *)
Lemma range_from_str_ok w s r : 0 <= w -> range_from_str w s = inl r -> range_ok w r.
Proof.
  intros Hw. unfold range_from_str. destruct (split_once _ s) as [[start end_]|]; [|done].
  destruct (parse_unsigned w (trim start)) as [a|] eqn:Ea; [|done].
  destruct (parse_unsigned w (trim end_)) as [b|] eqn:Eb; [|done].
  destruct (Z.ltb_spec b a); [done|]. intros [= <-].
  apply parse_unsigned_fits in Ea, Eb; [|done..]. by split_and!.
Qed.

Definition cidr_ok (cidr : IpNet) : Prop :=
  match cidr with NetV4 net => net_ok 32 net | NetV6 net => net_ok 128 net end.

(** What the parsers of the flags leave of them. *)
Definition args_ok (args : GenerateArgs) : Prop :=
  cidr_ok args.(a_src_cidr) /\ cidr_ok args.(a_dst_cidr) /\
  Forall (fits_u 8) args.(a_protocols) /\ Forall (fits_u 16) args.(a_tcp_flags) /\
  range_ok 16 args.(a_src_port_range) /\ range_ok 16 args.(a_dst_port_range) /\
  range_ok 16 args.(a_octet_range) /\ range_ok 16 args.(a_packet_range) /\
  fits_u 16 args.(a_flows_per_packet) /\ fits_u 32 args.(a_observation_domain_id) /\
  fits_u 32 args.(a_rate) /\ fits_u 64 args.(a_count).

(** ** What is generated *)

Definition in_cidr (cidr : IpNet) (ip : IpAddr) : Prop :=
  match cidr, ip with
  | NetV4 net, V4 addr => fits_u 32 addr /\ covers 32 net addr
  | NetV6 net, V6 addr => fits_u 128 addr /\ covers 128 net addr
  | _, _ => False
  end.

Section flows.
Context `{CR : Crates} `{RN : Rng}.

Lemma random_host_in w net draws :
  net_ok w net -> 0 <= w -> fits_u w (random_host w net draws) /\ covers w net (random_host w net draws).
Proof.
  intros [Ha Hl] Hw. unfold random_host, hostmask, trunc, covers. cbn [net_addr].
  set (k := w - net_len net). assert (Hk : 0 <= k) by lia.
  rewrite Z.sub_1_r, <- Z.ones_equiv, Z.land_ones, Z.shiftl_mul_pow2 by done.
  assert (Hm : fits_u k (random w draws mod 2 ^ k)) by (apply Z.mod_pos_bound; lia).
  rewrite lor_join, shiftr_join by done. split; [|done].
  rewrite Z.shiftr_div_pow2 by done. unfold fits_u in *.
  assert (Ew : 2 ^ w = 2 ^ net_len net * 2 ^ k) by (rewrite <- Z.pow_add_r by lia; f_equal; lia).
  assert (0 <= net_addr net / 2 ^ k < 2 ^ net_len net).
  { split; [apply Z.div_pos; lia|]. apply Z.div_lt_upper_bound; lia. }
  nia.
Qed.

Lemma random_ip_in_cidr_in cidr draws :
  cidr_ok cidr -> in_cidr cidr (random_ip_in_cidr cidr draws).2.
Proof. destruct cidr; intros H; by apply random_host_in. Qed.

(** A flow as the flags say, with times before [now]: it started a second to a
    minute ago and ended within the last second. *)
Definition generated (self : IpfixGenerator) (now : DateTime) (flow : Flow) : Prop :=
  in_cidr self.(g_src_cidr) flow.(f_src_ip) /\ in_cidr self.(g_dst_cidr) flow.(f_dst_ip) /\
  flow.(f_protocol) ∈ self.(g_protocols) /\
  (if flow.(f_protocol) =? IPPROTO_TCP then
     flow.(f_tcp_flags) ∈ self.(g_tcp_flags) \/ self.(g_tcp_flags) = [] /\ flow.(f_tcp_flags) = 0
   else flow.(f_tcp_flags) = 0) /\
  within self.(g_src_port_range) flow.(f_src_port) /\ within self.(g_dst_port_range) flow.(f_dst_port) /\
  within self.(g_octet_range) flow.(f_octets) /\ within self.(g_packet_range) flow.(f_packets) /\
  1000 <= timestamp_millis now - timestamp_millis flow.(f_flow_start) < 60000 /\
  0 <= timestamp_millis now - timestamp_millis flow.(f_flow_end) < 1000.

(** A reading of the wall clock: this century or the next, no leap second. *)
Definition now_ok (now : DateTime) : Prop :=
  60 <= timestamp now /\ fits_u 32 (timestamp now) /\ timestamp_subsec_nanos now < NANOS.

Definition generator_ok (self : IpfixGenerator) : Prop :=
  cidr_ok self.(g_src_cidr) /\ cidr_ok self.(g_dst_cidr) /\
  AddressFamily_of self.(g_src_cidr) = self.(g_family) /\ AddressFamily_of self.(g_dst_cidr) = self.(g_family) /\
  self.(g_protocols) <> [] /\ Forall (fits_u 8) self.(g_protocols) /\ Forall (fits_u 16) self.(g_tcp_flags) /\
  range_ok 16 self.(g_src_port_range) /\ range_ok 16 self.(g_dst_port_range) /\
  range_ok 16 self.(g_octet_range) /\ range_ok 16 self.(g_packet_range) /\
  fits_u 16 self.(g_flows_per_packet) /\ fits_u 32 self.(g_observation_domain_id) /\
  fits_u 32 self.(g_sequence_number).

Lemma sample_spec r draws :
  r.(r_start) <= r.(r_end) -> exists x, sample r draws = Some (S draws, x) /\ within r x.
Proof.
  intros H. unfold sample, random_range. rewrite (proj2 (Z.leb_le _ _)) by done.
  eexists. split; [done|]. by apply random_between_law.
Qed.

Lemma random_range_spec lo hi draws :
  lo <= hi -> exists x, random_range lo hi draws = Some (S draws, x) /\ lo <= x <= hi.
Proof. apply (sample_spec (mkRange lo hi)). Qed.

Lemma millis_before now ms :
  now_ok now -> 0 <= ms < 60000 ->
  exists d, checked_sub_millis now ms = Some d /\ timestamp_millis now - timestamp_millis d = ms /\ time_ok d.
Proof.
  intros (H60 & H32 & Hn) Hms. unfold fits_u in H32.
  destruct (checked_sub_millis_law now ms Hn ltac:(lia) ltac:(lia)) as (d & E & Ed & Hd).
  exists d. split; [done|]. pose proof (subsec_nanos_range d). pose proof (subsec_nanos_range now).
  rewrite !timestamp_millis_law. unfold time_ok, NANOS in *. split; dlia.
Qed.

Lemma choose_spec l draws :
  match (choose l draws).2 with Some x => x ∈ l | None => l = [] end.
Proof.
  destruct l as [|y l]; [done|]. unfold choose. cbn [snd]. set (i := Z.to_nat _).
  destruct ((y :: l) !! i) as [x|] eqn:E; [by eapply list_elem_of_lookup_2|].
  apply lookup_ge_None in E. pose proof (random_index_law (zlen (y :: l)) draws) as H.
  unfold zlen in *. cbn [length] in *. lia.
Qed.

(** A flow of a generator with such flags is drawn without a panic. *)
Lemma create_flow_spec self now draws :
  generator_ok self -> now_ok now ->
  exists draws' flow, create_flow self now draws = Some (draws', flow) /\ generated self now flow /\
    time_ok flow.(f_flow_start) /\ time_ok flow.(f_flow_end).
Proof.
  intros (Hs & Hd & _ & _ & Hp & _ & _ & (_ & _ & R1) & (_ & _ & R2) & (_ & _ & R3) & (_ & _ & R4) & _) Hnow.
  unfold create_flow.
  pose proof (random_ip_in_cidr_in _ draws Hs) as Hsrc.
  destruct (random_ip_in_cidr (g_src_cidr self) draws) as [d1 src]. cbn [snd] in Hsrc.
  pose proof (random_ip_in_cidr_in _ d1 Hd) as Hdst.
  destruct (random_ip_in_cidr (g_dst_cidr self) d1) as [d2 dst]. cbn [snd] in Hdst.
  assert (Hlen : 0 < zlen (g_protocols self)) by (destruct (g_protocols self); [done|unfold zlen; cbn; lia]).
  destruct (random_range_spec 0 (zlen (g_protocols self) - 1) d2) as (i & -> & Hi); [lia|]. cbn [mbind option_bind].
  destruct (lookup_lt_is_Some_2 (g_protocols self) (Z.to_nat i)) as [p Ep]; [unfold zlen in *; lia|].
  rewrite Ep. cbn [mbind option_bind].
  set (flags := if p =? IPPROTO_TCP then _ else _).
  assert (Hf : if p =? IPPROTO_TCP then flags.2 ∈ g_tcp_flags self \/ g_tcp_flags self = [] /\ flags.2 = 0 else flags.2 = 0).
  { unfold flags. destruct (p =? IPPROTO_TCP); [|done]. pose proof (choose_spec (g_tcp_flags self) (S d2)) as Hc.
    destruct (choose _ _) as [d [x|]]; cbn in *; [by left|by right]. }
  destruct flags as [d3 flags]. cbn [snd] in Hf.
  destruct (sample_spec _ d3 R1) as (x1 & -> & H1). cbn [mbind option_bind].
  destruct (sample_spec _ (S d3) R2) as (x2 & -> & H2). cbn [mbind option_bind].
  destruct (sample_spec _ (S (S d3)) R3) as (x3 & -> & H3). cbn [mbind option_bind].
  destruct (sample_spec _ (S (S (S d3))) R4) as (x4 & -> & H4). cbn [mbind option_bind].
  destruct (random_range_spec 1000 (60000 - 1) (S (S (S (S d3))))) as (b1 & -> & H5); [lia|]. cbn [mbind option_bind].
  destruct (millis_before now b1 Hnow ltac:(lia)) as (t1 & -> & E1 & T1). cbn [mbind option_bind].
  destruct (random_range_spec 0 (1000 - 1) (S (S (S (S (S d3)))))) as (b2 & -> & H6); [lia|]. cbn [mbind option_bind].
  destruct (millis_before now b2 Hnow ltac:(lia)) as (t2 & -> & E2 & T2). cbn [mbind option_bind].
  eexists _, _. split; [done|]. unfold generated. cbn [f_src_ip f_dst_ip f_protocol f_tcp_flags f_src_port f_dst_port
    f_octets f_packets f_flow_start f_flow_end].
  split; [|by split]. split_and!; try done; try lia. by eapply list_elem_of_lookup_2.
Qed.

Definition sound (self : IpfixGenerator) (now : DateTime) (flow : Flow) : Prop :=
  generated self now flow /\ time_ok flow.(f_flow_start) /\ time_ok flow.(f_flow_end).

Lemma create_flows_spec self now n : forall draws,
  generator_ok self -> now_ok now ->
  exists draws' flows, create_flows n self now draws = Some (draws', flows) /\ length flows = n /\
    Forall (sound self now) flows.
Proof.
  induction n as [|n IH]; intros draws Hg Hn; [by exists draws, []|]. cbn [create_flows].
  destruct (create_flow_spec self now draws Hg Hn) as (d & flow & -> & Hf). cbn [mbind option_bind].
  destruct (IH d Hg Hn) as (d' & flows & -> & Hl & Hfs). cbn [mbind option_bind].
  exists d', (flow :: flows). split; [done|]. split; [cbn; lia|]. by constructor.
Qed.
End flows.

(** ** A generated flow in a collector *)

(** The fields of the template, as a collector with the default registry
    resolves them. *)
Definition generated_v4_fields : list ResolvedField :=
  Eval vm_compute in announced (create_flow_template AddressFamily.V4).
Definition generated_v6_fields : list ResolvedField :=
  Eval vm_compute in announced (create_flow_template AddressFamily.V6).

Definition generated_fields (family : AddressFamily) : list ResolvedField :=
  match family with AddressFamily.V4 => generated_v4_fields | AddressFamily.V6 => generated_v6_fields end.

Lemma generated_fields_resolved family dom :
  resolve_fields default_registry default_types dom (create_flow_template family).(t_fields) = generated_fields family.
Proof. destruct family; vm_compute; reflexivity. Qed.

Section reading.
Context `{CR : Crates} `{EP : Etherparse}.

(** What the types of a flow say, with both addresses of one family. *)
Definition flow_wf (family : AddressFamily) (flow : Generate.Flow) : Prop :=
  match family, flow.(f_src_ip), flow.(f_dst_ip) with
  | AddressFamily.V4, V4 a, V4 b => fits_u 32 a /\ fits_u 32 b
  | AddressFamily.V6, V6 a, V6 b => fits_u 128 a /\ fits_u 128 b
  | _, _, _ => False
  end /\
  fits_u 8 flow.(f_protocol) /\ fits_u 16 flow.(f_tcp_flags) /\ fits_u 16 flow.(f_src_port) /\
  fits_u 16 flow.(f_dst_port) /\ fits_u 16 flow.(f_octets) /\ fits_u 16 flow.(f_packets) /\
  time_ok flow.(f_flow_start) /\ time_ok flow.(f_flow_end).

Lemma within_fits w r x : range_ok w r -> within r x -> fits_u w x.
Proof. unfold range_ok, within, fits_u. lia. Qed.

Lemma in_cidr_family cidr family src :
  in_cidr cidr src -> AddressFamily_of cidr = family ->
  match family, src with
  | AddressFamily.V4, V4 a => fits_u 32 a
  | AddressFamily.V6, V6 a => fits_u 128 a
  | _, _ => False
  end.
Proof. intros H <-. by destruct cidr, src; cbn in *; try done; destruct H. Qed.

Lemma sound_wf self now flow : generator_ok self -> sound self now flow -> flow_wf self.(g_family) flow.
Proof.
  intros (_ & _ & Es & Ed & _ & Hp & Ht & R1 & R2 & R3 & R4 & _)
    ((Hs & Hd & Hpr & Hf & W1 & W2 & W3 & W4 & _) & T1 & T2).
  pose proof (in_cidr_family _ _ _ Hs Es) as A1. pose proof (in_cidr_family _ _ _ Hd Ed) as A2.
  split.
  { destruct (g_family self), (f_src_ip flow), (f_dst_ip flow); try done; by split. }
  rewrite Forall_forall in Hp, Ht.
  split_and!; [by apply Hp| |(eapply within_fits; [|eassumption]; done).. |done|done].
  destruct (_ =? _); [|rewrite Hf; done]. destruct Hf as [H|[_ ->]]; [by apply Ht|done].
Qed.

(** Its times as they are written. *)
Definition flow_in_millis (flow : Generate.Flow) : Generate.Flow :=
  mkGenerated flow.(f_src_ip) flow.(f_dst_ip) flow.(f_protocol) flow.(f_tcp_flags) flow.(f_src_port)
    flow.(f_dst_port) flow.(f_octets) flow.(f_packets) (to_millis flow.(f_flow_start)) (to_millis flow.(f_flow_end)).

Lemma fits_u_mono v w x : 0 <= v <= w -> fits_u v x -> fits_u w x.
Proof. intros [H1 H2] [Hl Hu]. split; [done|]. pose proof (Z.pow_le_mono_r 2 v w). lia. Qed.

Lemma generated_natural family flow :
  flow_wf family flow -> Forall2 natural (generated_fields family) (flow_values (flow_in_millis flow)).
Proof.
  intros (Ha & H1 & H2 & H3 & H4 & H5%(fits_u_mono 16 64) & H6%(fits_u_mono 16 64) & H7 & H8); [|lia..].
  unfold flow_values. destruct flow as [src dst ? ? ? ? ? ? ? ?]; cbn in *.
  destruct family, src as [a|a], dst as [b|b]; try done; destruct Ha as [Ha Hb]; cbn;
    repeat first [apply Forall2_cons; split | apply Forall2_nil_2];
    first [ by apply natural_v4 | by apply natural_v6 | by apply natural_millis | by apply natural_u16
          | by apply natural_u64 | by apply natural_u8 ].
Qed.

Lemma generated_written family flow :
  flow_wf family flow -> written (generated_fields family) (create_flow_record flow) (flow_values (flow_in_millis flow)).
Proof.
  intros H. pose proof (generated_natural _ _ H) as Hn. split.
  - unfold create_flow_record. rewrite new_record_octets, (natural_values _ _ Hn).
    destruct H as (_ & _ & _ & _ & _ & _ & _ & H7 & H8). destruct flow as [[] [] ? ? ? ? ? ? ? ?];
    unfold flow_values, flow_in_millis; cbn -[value_octets] in *; by rewrite !millis_octets.
  - eapply Forall2_impl; [exact Hn|]. intros f v Hf. by apply natural_wf.
Qed.

(** What a flow of a collector says of the one generated. *)
Definition described (self : Generate.Flow) (flow : CommonFlow) : Prop :=
  cf_flow_type flow = FlowType.Ipfix /\
  cf_src_addr flow = Some self.(f_src_ip) /\ cf_dst_addr flow = Some self.(f_dst_ip) /\
  cf_etype flow = Some (if is_ipv4 self.(f_src_ip) then 0x0800 else 0x86dd) /\
  cf_proto flow = Some self.(f_protocol) /\ cf_tcp_flags flow = Some self.(f_tcp_flags) /\
  cf_src_port flow = Some self.(f_src_port) /\ cf_dst_port flow = Some self.(f_dst_port) /\
  cf_bytes flow = self.(f_octets) /\ cf_packets flow = self.(f_packets) /\
  cf_time_flow_start_ns flow = Some (timestamp_millis self.(f_flow_start) * 1_000_000) /\
  cf_time_flow_end_ns flow = Some (timestamp_millis self.(f_flow_end) * 1_000_000).

Lemma generated_described ctx family flow :
  flow_wf family flow ->
  described flow (ConvertIpfix.convert ctx
    (from_template (generated_fields family) (flow_values (flow_in_millis flow))) FLOW_TEMPLATE_ID).
Proof.
  intros (Ha & H1 & H2 & H3 & H4 & _ & _ & H7 & H8).
  pose proof (millis_nanos _ H7) as E7. pose proof (millis_nanos _ H8) as E8.
  apply try_u_fits in H1, H2, H3, H4.
  destruct flow as [src dst ? ? ? ? ? ? ? ?]. unfold described. cbn in *.
  destruct family, src as [a|a], dst as [b|b]; try done; cbn; split_and!; first [done|eassumption].
Qed.

(** How many octets its record is. *)
Definition record_len (family : AddressFamily) : Z :=
  match family with AddressFamily.V4 => 47 | AddressFamily.V6 => 71 end.

Lemma create_flow_record_size family flow :
  flow_wf family flow -> record_size (create_flow_record flow) = record_len family.
Proof.
  intros (Ha & _). unfold record_size, create_flow_record. rewrite new_record_octets, zlen_concat.
  destruct flow as [src dst ? ? ? ? ? ? ? ?]; cbn in Ha.
  destruct family, src as [a|a], dst as [b|b]; try done;
    unfold flow_values, value_octets;
    cbn [address_field f_src_ip f_dst_ip fmap list_fmap zsum foldr FieldValue_encode put_u8 put_u16 put_u64 put_slice
      Vec_BufMut app f_protocol f_tcp_flags f_src_port f_dst_port f_octets f_packets];
    rewrite ?zlen_be_bytes; done.
Qed.
End reading.

(** ** The generator's datagrams in a collector *)

Section collector.
Context `{CR : Crates} `{NM : Nom} `{EP : Etherparse}.

(** The sets of [send_templates]. *)
Definition announcement_sets (family : AddressFamily) : list Set_ :=
  [mkSet IPFIX_TEMPLATE_SET_ID 0 [Template (create_flow_template family)];
   mkSet IPFIX_OPTIONS_TEMPLATE_SET_ID 0 [OptionsTemplate create_options_template]].

#[local] Ltac computed := apply (bool_decide_unpack _); vm_compute; exact I.

Lemma announcement_sets_wf `{CK : Clock} dom st family : sets_wf dom st (announcement_sets family).
Proof.
  split; [|split; [|exact I]].
  - split; [by destruct family; computed|]. left. split; [done|]. exists [create_flow_template family]. split; [done|].
    constructor; [|constructor].
    destruct family; (split; [computed|]; split; [computed|]; split; [reflexivity|]; repeat constructor; computed).
  - split; [computed|]. right. left. split; [done|].
    exists [create_options_template]. split; [done|]. constructor; [|constructor].
    split; [computed|]. split; [computed|]. split; [reflexivity|]. split; [repeat constructor; computed|].
    split; [done|computed].
Qed.

(** A collector with the generator's template, from one of the first [n]
    readings of its clock. *)
Definition has_generated `{CK : Clock} (dom : Z) (n : nat) (family : AddressFamily) (self : IpfixParser) : Prop :=
  TemplateCache.timeout self.(templates) = from_mins 10 /\
  has_template dom n self FLOW_TEMPLATE_ID (generated_fields family).

Lemma generated_template_applied `{CK : Clock} dom family c reads i :
  short reads -> (i <= reads)%nat ->
  c = TemplateCache.mkCache ∅ (from_mins 10) 0 (instant_at i + from_mins 10) None false ->
  let '(reads', map) := apply_templates default_registry default_types c
    [(FLOW_TEMPLATE_ID, t_fields (create_flow_template family))] dom IPFIX_TEMPLATE_SET_ID reads in
  reads' = S reads /\ TemplateCache.timeout map = from_mins 10 /\
  TemplateCache.find map (dom, FLOW_TEMPLATE_ID)
  = Some (TemplateCache.mkEntry (generated_fields family) (instant_at reads)).
Proof.
  intros Hs Hi ->. destruct (apply_templates _ _ _ _ _ _ _) as [reads' map] eqn:E. revert E.
  unfold apply_templates. cbn [fold_left].
  change (IPFIX_VALID_TEMPLATE_ID FLOW_TEMPLATE_ID) with true. cbv iota.
  rewrite (generated_fields_resolved family dom).
  unfold TemplateCache.insert, instant_now. cbv beta iota.
  pose proof (Hs i reads ltac:(lia) ltac:(lia)).
  set (c := TemplateCache.mkCache _ _ _ _ _ _).
  assert (Hf : forall k, TemplateCache.find c k = None).
  { intros k. unfold TemplateCache.find, c. cbn. by rewrite lookup_empty. }
  rewrite (insert_room c); [|cbn; lia|unfold TemplateCache.fits; rewrite Hf; by destruct family].
  destruct (create_flow_template family).(t_fields) eqn:Ef; [by destruct family|].
  intros [<- <-]%pair_equal_spec. rewrite TemplateCache.timeout_store, TemplateCache.find_store, decide_True by done. done.
Qed.

Lemma announcement_received `{CK : Clock} dom family reads :
  short (reads + 3) ->
  let st := fold_left (receive dom) (announcement_sets family) (default_parser reads) in
  st.1 = (reads + 4)%nat /\ has_generated dom (reads + 3) family st.2.
Proof.
  intros Hs. unfold announcement_sets. cbn [fold_left].
  change [Template (create_flow_template family)] with (Template <$> [create_flow_template family]).
  change (default_parser reads) with (S (S reads), mkParser default_registry default_types
    (TemplateCache.mkCache ∅ (from_mins 10) 0 (instant_at reads + from_mins 10) None false)
    (TemplateCache.mkCache ∅ (from_mins 10) 0 (instant_at (S reads) + from_mins 10) None false)).
  set (c := TemplateCache.mkCache _ _ _ (instant_at reads + _) _ _).
  assert (Happ := generated_template_applied dom family c (S (S reads)) reads).
  rewrite receive_templates. cbn [ie_registry element_types templates fmap list_fmap].
  replace (t_template_id (create_flow_template family)) with FLOW_TEMPLATE_ID by (by destruct family).
  destruct (apply_templates _ _ c _ _ _ _) as [reads' map].
  destruct Happ as (-> & Ht & Hf); [|lia|done|].
  { intros i j Hi Hj. apply Hs; lia. }
  change [OptionsTemplate create_options_template] with (OptionsTemplate <$> [create_options_template]).
  rewrite receive_options_templates. cbn [ie_registry element_types templates options_templates].
  set (c' := TemplateCache.mkCache _ _ _ _ _ _).
  assert (Ho : (apply_templates default_registry default_types c'
    ((fun t => (t.(o_template_id), t.(o_fields))) <$> [create_options_template]) dom IPFIX_OPTIONS_TEMPLATE_SET_ID
    (S (S (S reads)))).1 = S (S (S (S reads)))) by done.
  destruct (apply_templates _ _ c' _ _ _ _) as [reads' map']. cbn [fst snd] in *. split; [lia|]. split; [done|].
  exists (S (S reads)). split; [lia|done].
Qed.
End collector.

Section session.
Context `{CR : Crates} `{NM : Nom} `{WL : !Wall} `{SK : Socket} `{EP : Etherparse} `{RN : Rng}.
Context (sampler_address : option IpAddr) (sampling_rate system_init_time_ms : option Z).

#[local] Abbreviation flows_in := (ExportWire.flows_in sampler_address sampling_rate system_init_time_ms).
#[local] Abbreviation collect C := (ExportWire.collect sampler_address sampling_rate system_init_time_ms (CK := C)).

(** A packet is not larger than its header can say. *)
Definition packet_fits (self : IpfixGenerator) : Prop :=
  IPFIX_HEADER_SIZE + SET_HEADER_SIZE + record_len self.(g_family) * self.(g_flows_per_packet) < 2 ^ 16.

Lemma announcement_parsed `{CK : Clock} reads t seq dom family :
  short (reads + 3) -> fits_u 32 (timestamp t) -> fits_u 32 seq -> fits_u 32 dom ->
  exists self p,
    parse (default_parser reads)
      (IpfixPacket_encode (mkPacket (mkHeader IPFIX_VERSION 0 t seq dom) (announcement_sets family)) [])
    = ((reads + 4)%nat, self, Ok ([], p)) /\ has_generated dom (reads + 3) family self /\ flows_in p = [].
Proof.
  intros Hs Ht Hseq Hd.
  destruct (packet_parsed (default_parser reads) dom t seq (announcement_sets family) (announcement_sets family) [])
    as (p & E & _ & _ & _ & Ep); [done|apply announcement_sets_wf| |done|done|done|].
  { destruct family; by apply (bool_decide_unpack _); vm_compute. }
  destruct (announcement_received dom family reads Hs) as [Hr Hf].
  rewrite app_nil_r in E. destruct (fold_left _ _ _) as [reads' self]. cbn [fst snd] in *. subst reads'.
  exists self, p. split; [exact E|]. split; [done|]. unfold ExportWire.flows_in. by rewrite Ep.
Qed.

Lemma generated_sizes self now flows :
  generator_ok self -> Forall (sound self now) flows ->
  zsum record_size (create_flow_record <$> flows) = record_len self.(g_family) * zlen flows.
Proof.
  intros Hg. induction 1 as [|flow flows Hf _ IH]; [by rewrite Z.mul_0_r|].
  rewrite fmap_cons, zsum_cons, IH, (create_flow_record_size (g_family self)) by (by eapply sound_wf).
  unfold zlen. cbn [length]. lia.
Qed.

(** A data packet is read as the flows it was made of. *)
Lemma data_packet_read `{CK : Clock} self now flows n reads parser :
  let dom := self.(g_observation_domain_id) in
  generator_ok self -> now_ok now -> packet_fits self -> flows <> [] -> zlen flows <= self.(g_flows_per_packet) ->
  Forall (sound self now) flows ->
  has_generated dom n self.(g_family) parser -> (n <= reads)%nat -> short reads ->
  exists p, parse (reads, parser) (IpfixPacket_encode (data_packet self now flows) []) = ((S reads, parser), Ok ([], p)) /\
    Forall2 described flows (flows_in p) /\
    Forall (fun flow => cf_observation_domain_id flow = Some dom) (flows_in p).
Proof.
  intros dom Hg (_ & Hnow & _) Hfit Hne Hlen Hok [Ht Hhas] Hn Hs.
  set (fields := generated_fields (g_family self)) in *.
  set (vss := (fun flow => flow_values (flow_in_millis flow)) <$> flows).
  assert (Hid : 256 <= FLOW_TEMPLATE_ID) by done.
  destruct (flows_received dom n parser reads FLOW_TEMPLATE_ID fields vss Ht Hhas Hid Hn Hs) as [Hk Hr].
  pose proof Hg as (_ & _ & _ & _ & _ & _ & _ & _ & _ & _ & _ & _ & Hdom & Hseq).
  destruct (records_parsed (reads, parser) dom now (g_sequence_number self) FLOW_TEMPLATE_ID
    (create_flow_record <$> flows) fields vss []) as (p & E & Ed & Ep); try done.
  - unfold fields. by destruct (g_family self).
  - unfold vss. intros H. by apply fmap_nil_inv in H.
  - unfold vss. clear -Hok Hg. induction Hok as [|flow flows Hf _ IH]; [constructor|].
    rewrite !fmap_cons. constructor; [|done]. by eapply generated_written, sound_wf.
  - rewrite (generated_sizes self now) by done. unfold packet_fits in Hfit.
    pose proof (zlen_nonneg flows). destruct (g_family self); cbn [record_len] in *; unfold fits_u, IPFIX_HEADER_SIZE, SET_HEADER_SIZE in *; lia.
  - exists p. rewrite Hr in E. rewrite app_nil_r, <- list_fmap_compose in E. split; [exact E|].
    set (ctx := ConvertIpfix.mkContext p.(p_header) sampler_address sampling_rate system_init_time_ms).
    assert (Ef : flows_in p = (fun flow => ConvertIpfix.convert ctx
      (from_template fields (flow_values (flow_in_millis flow))) FLOW_TEMPLATE_ID) <$> flows).
    { unfold ExportWire.flows_in. rewrite Ep. cbn [mbind list_bind with_length set_records set_id Set_new].
      rewrite app_nil_r. unfold vss. rewrite <- list_fmap_compose. by apply omap_fmap_Some. }
    rewrite Ef. split.
    + apply Forall2_fmap_r, Forall_Forall2_diag. eapply Forall_impl; [exact Hok|]. intros flow Hf.
      by eapply generated_described, sound_wf.
    + apply Forall_fmap, Forall_forall. intros flow _. unfold compose.
      destruct (ConvertIpfix.ipfix_flow_origin ctx (from_template fields (flow_values (flow_in_millis flow)))
        FLOW_TEMPLATE_ID) as (_ & _ & _ & Eo & _). rewrite Eo. cbn. by rewrite Ed.
Qed.

(** [k] calls of [send_data_packet], whatever the socket answers. *)
Fixpoint data_sent (k : nat) (st : World * nat * IpfixGenerator) : option (World * nat * IpfixGenerator) :=
  match k with
  | O => Some st
  | S k => '(st, _) ← send_data_packet st.1.1 st.1.2 st.2; data_sent k st
  end.

Lemma advance_ok self n : generator_ok self -> generator_ok (advance self n).
Proof. unfold generator_ok. cbn. intros H. repeat (split; [apply H|]). apply wrap_range. lia. Qed.

Lemma advance_0 self : fits_u 32 self.(g_sequence_number) -> advance self 0 = self.
Proof. intros H. destruct self. unfold advance. cbn in *. by rewrite Z.add_0_r, wrap_small. Qed.

Lemma advance_advance self a b : advance (advance self a) b = advance self (a + b).
Proof. unfold advance. cbn. f_equal. unfold wrap. rewrite Z.add_mod_idemp_l by done. by rewrite Z.add_assoc. Qed.

Lemma send_data_packet_spec w draws self :
  generator_ok self -> now_ok (utc_at w.(wall_reads)) ->
  exists draws' flows result, send_data_packet w draws self
    = Some ((mkWorld w.(reads) (S w.(wall_reads))
        (w.(datagrams) ++ [IpfixPacket_encode (data_packet self (utc_at w.(wall_reads)) flows) []]),
        draws', advance self self.(g_flows_per_packet)), result) /\
    zlen flows = self.(g_flows_per_packet) /\ Forall (sound self (utc_at w.(wall_reads))) flows /\
    (result = match send_outcome (length w.(datagrams)) (IpfixPacket_encode (data_packet self (utc_at w.(wall_reads)) flows) []) with
              | Some e => inr e
              | None => inl (zlen (IpfixPacket_encode (data_packet self (utc_at w.(wall_reads)) flows) [])) end).
Proof.
  intros Hg Hnow. unfold send_data_packet. cbn [utc_now].
  destruct (create_flows_spec self _ (Z.to_nat (g_flows_per_packet self)) draws Hg Hnow) as (d & flows & -> & Hl & Hok).
  cbn [mbind option_bind]. unfold send_packet, send_to. cbn [datagrams wall_reads reads].
  eexists _, flows, _. split; [done|]. split; [|by split].
  destruct Hg as (_ & _ & _ & _ & _ & _ & _ & _ & _ & _ & _ & [Hf _] & _). unfold zlen. lia.
Qed.

Lemma data_sent_spec k : forall w draws self,
  generator_ok self -> (forall n, now_ok (utc_at n)) ->
  exists st ds flowss, data_sent k (w, draws, self) = Some st /\ st.1.1.(datagrams) = w.(datagrams) ++ ds /\
    length ds = k /\
    Forall2 (fun d flows => exists n now, now_ok now /\ d = IpfixPacket_encode (data_packet (advance self n) now flows) [] /\
      zlen flows = self.(g_flows_per_packet) /\ Forall (sound self now) flows) ds flowss.
Proof.
  induction k as [|k IH]; intros w draws self Hg Hnow.
  { eexists _, [], []. cbn. rewrite app_nil_r. split_and!; [done..|constructor]. }
  cbn [data_sent fst snd]. destruct (send_data_packet_spec w draws self Hg (Hnow _)) as (d & flows & result & -> & Hl & Hok & _).
  cbn [mbind option_bind fst snd].
  destruct (IH (mkWorld (reads w) (S (wall_reads w)) (datagrams w ++ [IpfixPacket_encode (data_packet self (utc_at (wall_reads w)) flows) []]))
    d (advance self (g_flows_per_packet self)) (advance_ok _ _ Hg) Hnow) as (st & ds & flowss & -> & Ed & Hlen & Hds).
  eexists _, (_ :: ds), (flows :: flowss). split; [done|]. rewrite Ed. cbn [datagrams]. rewrite <- app_assoc.
  split; [done|]. split; [cbn; lia|]. constructor.
  - exists 0, (utc_at (wall_reads w)). by rewrite advance_0 by apply Hg.
  - eapply Forall2_impl; [exact Hds|]. intros x fs (n & now & Hn & -> & Hz & Hf).
    exists (g_flows_per_packet self + n), now. by rewrite advance_advance in *.
Qed.

(** A generator made of flags that were parsed. *)
Lemma IpfixGenerator_new_ok `{RS : Resolver} args self :
  args_ok args -> IpfixGenerator_new args = inl self ->
  generator_ok self /\ self.(g_flows_per_packet) = args.(a_flows_per_packet) /\
  self.(g_observation_domain_id) = args.(a_observation_domain_id) /\ self.(g_sequence_number) = 0.
Proof.
  intros (H1 & H2 & H3 & H4 & H5 & H6 & H7 & H8 & H9 & H10 & _). unfold IpfixGenerator_new.
  case_bool_decide as Hfam; [|done]. cbn [negb]. case_bool_decide as Hp; [done|].
  destruct (to_socket_addrs _ _) as [[|target targets]|]; [done| |done].
  destruct (bind _); [|done]. intros [= <-]. split; [|done]. unfold generator_ok. cbn. by split_and!.
Qed.

(** C15: A collector that starts with the announcement of a generator turns the data
    packets that reach it within ten minutes, in whatever order and however
    often, into flows of its own: as many of each packet as were asked for,
    with the addresses, ports, counters and times that were generated, each
    within the ranges, prefixes, protocols and flags of the arguments. *)
Theorem generated_flows_read `{RS : Resolver} args self w draws k :
  args_ok args -> IpfixGenerator_new args = inl self -> packet_fits self -> 0 < args.(a_flows_per_packet) ->
  (forall n, now_ok (utc_at n)) ->
  exists announcement st ds flowss,
    data_sent k ((send_templates w self).1, draws, self) = Some st /\
    st.1.1.(datagrams) = w.(datagrams) ++ announcement :: ds /\ length ds = k /\ length flowss = k /\
    Forall (fun flows => zlen flows = args.(a_flows_per_packet) /\ exists now, Forall (generated self now) flows) flowss /\
    forall (collector : Clock) reads ks,
      short (CK := collector) (reads + 4 + length ks) ->
      let received := collect collector (default_parser reads) (announcement :: omap (fun k => ds !! k) ks) in
      Forall2 described (concat (omap (fun k => flowss !! k) ks)) received /\
      Forall (fun flow => cf_observation_domain_id flow = Some args.(a_observation_domain_id)) received.
Proof.
  intros Ha En Hfit Hflows Hnow. destruct (IpfixGenerator_new_ok _ _ Ha En) as (Hg & Ef & Ed & _).
  unfold send_templates. cbn [utc_now]. unfold send_packet, send_to. cbn [datagrams wall_reads reads fst].
  set (t := utc_at (wall_reads w)).
  set (announcement := IpfixPacket_encode (mkPacket _ _) []). set (w' := mkWorld _ _ _).
  destruct (data_sent_spec k w' draws self Hg Hnow) as (st & ds & flowss & E & Edg & Hl & Hds).
  pose proof (Forall2_length _ _ _ Hds) as Hlen.
  exists announcement, st, ds, flowss. split; [done|]. rewrite Edg. cbn [datagrams w']. rewrite <- app_assoc.
  split; [done|]. split; [done|]. split; [lia|]. split.
  { clear -Hds Ef. induction Hds as [|d flows ds flowss (n & now & _ & _ & Hz & Hok) _ IH]; constructor; [|done].
    split; [by rewrite Hz|]. exists now. eapply Forall_impl; [exact Hok|]. by intros flow []. }
  intros collector reads ks Hs.
  destruct (announcement_parsed (CK := collector) reads t (g_sequence_number self) (g_observation_domain_id self) (g_family self))
    as (parser & p & Ea & Hhas & Ep); [intros i j ??; apply Hs; lia|apply Hnow|apply Hg|apply Hg|].
  cbv zeta.
  assert (Ec : forall l, collect collector (default_parser reads) (announcement :: l)
    = collect collector ((reads + 4)%nat, parser) l).
  { intros l. cbn [ExportWire.collect]. fold announcement in Ea. unfold announcement, announcement_sets in *.
    by rewrite Ea, Ep. }
  rewrite Ec, <- Ed. eapply (collect_batches _ _ _ described _ (reads + 3)); [|lia|lia|done].
  intros i d flows rs Eid Eif Hn Hsh.
  destruct (Forall2_lookup_l _ _ _ _ _ Hds Eid) as (fs & Eif' & n & now & Hnow' & -> & Hz & Hok).
  rewrite Eif in Eif'. injection Eif' as <-.
  apply (data_packet_read (CK := collector) (advance self n) now flows (reads + 3)); try done; [by apply advance_ok| |].
  - intros ->. unfold zlen in Hz. cbn in Hz. lia.
  - cbn. lia.
Qed.
End session.

(** ** The loop *)

Section loop.
Context `{CR : Crates} `{CK : Clock} `{WL : !Wall} `{SK : Socket} `{RN : Rng}.

Definition send_failed : Prop := exists n d e, send_outcome n d = Some e.

Lemma send_packet_spec w packet :
  match send_packet w packet with
  | (w', inl _) => zlen w'.(datagrams) = zlen w.(datagrams) + 1 /\ w'.(reads) = w.(reads)
  | (_, inr _) => send_failed
  end.
Proof.
  unfold send_packet, send_to. destruct (send_outcome _ _) as [e|] eqn:E; [by eexists _, _, e|].
  cbn. by rewrite zlen_app.
Qed.

Lemma announced_spec w self :
  match announce w self with
  | ((w', self'), None) =>
      self' = advance self 1 /\ zlen w'.(datagrams) = zlen w.(datagrams) + 2 /\ w'.(reads) = w.(reads)
  | (_, Some _) => send_failed
  end.
Proof.
  unfold announce, send_templates, send_options. cbn [utc_now].
  match goal with |- context [send_packet ?w ?p] => pose proof (send_packet_spec w p) as H1;
    destruct (send_packet w p) as [w1 [n1|e1]] end; [|done]. cbn [datagrams reads] in H1.
  match goal with |- context [send_packet ?w ?p] => pose proof (send_packet_spec w p) as H2;
    destruct (send_packet w p) as [w2 [n2|e2]] end; [|done]. cbn [datagrams reads] in H2.
  split_and!; [done|lia|]. by destruct H1 as [_ <-], H2.
Qed.

(** The state of a run that began as [r0], after [n] data packets and [m] times
    the templates again. *)
Definition progress (r0 self : Run) (n m : Z) : Prop :=
  0 <= n /\ 0 <= m /\ self.(arguments) = r0.(arguments) /\ self.(packet_interval) = r0.(packet_interval) /\
  self.(run_generator) = advance r0.(run_generator) (m + n * r0.(arguments).(a_flows_per_packet)) /\
  self.(packets_sent) = wrap 64 n /\ self.(total_flows) = wrap 64 (n * r0.(arguments).(a_flows_per_packet)) /\
  zlen self.(run_world).(datagrams) = zlen r0.(run_world).(datagrams) + 2 * m + n.

(** A block of a turn goes on, or the turn is left where a send failed. *)
Definition goes_on (self self' : Run) (P : Prop) : Prop :=
  (self'.(control) = Sending /\ self'.(next_deadline) = self.(next_deadline) /\ P) \/
  (exists e, self'.(control) = Failed e /\ send_failed).

#[local] Ltac setters := unfold RecordSetters.constant; cbn -[announce send_data_packet duration_since from_secs wrap micros].

Lemma refresh_spec r0 self n m :
  progress r0 self n m -> self.(control) = Sending ->
  goes_on self (refresh self) (exists m', progress r0 (refresh self) n m').
Proof.
  intros (H1 & H2 & H3 & H4 & H5 & H6 & H7 & H8) Hc. destruct self as [a g w d p lt ps tf lr nd rp sl c].
  cbn in H3, H4, H5, H6, H7, H8, Hc. subst c a p g ps tf. unfold refresh. destruct w as [rd wr dg]. setters.
  destruct (_ <=? _).
  - match goal with |- context [announce ?w ?g] => pose proof (announced_spec w g) as Ha;
      destruct (announce w g) as [[w' g'] [e|]] end; setters.
    + right. by eexists.
    + left. destruct Ha as (-> & Hd & _). split; [done|]. split; [done|]. exists (m + 1). unfold progress. cbn in *.
      rewrite advance_advance, Hd. split_and!; try done; try lia. f_equal. lia.
  - left. split; [done|]. split; [done|]. by exists m.
Qed.

Definition waiting (rate : Z) (c : Control) : Prop := c = Waiting /\ 0 < rate.

Definition generator_fine (r0 : Run) : Prop :=
  generator_ok r0.(run_generator) /\ r0.(arguments).(a_flows_per_packet) = r0.(run_generator).(g_flows_per_packet) /\
  forall n, now_ok (utc_at n).

Lemma send_data_spec r0 self n m :
  generator_fine r0 -> progress r0 self n m -> self.(control) = Sending ->
  goes_on self (send_data self) (progress r0 (send_data self) (n + 1) m).
Proof.
  intros (Hg & Hf & Hnow) (H1 & H2 & H3 & H4 & H5 & H6 & H7 & H8) Hc.
  destruct self as [a g w d p lt ps tf lr nd rp sl c].
  cbn in H3, H4, H5, H6, H7, H8, Hc. subst c a p g ps tf. unfold send_data. setters.
  set (k := m + _). destruct (send_data_packet_spec w d (advance (run_generator r0) k) (advance_ok _ _ Hg) (Hnow _))
    as (d' & flows & result & -> & _ & _ & Hr).
  setters. destruct result as [z|e].
  - left. setters. split; [done|]. split; [done|]. unfold progress. cbn. rewrite advance_advance, zlen_app.
    split_and!; try done; try lia.
    + f_equal. unfold k. rewrite Hf. lia.
    + unfold wrap. rewrite Z.add_mod_idemp_l by done. done.
    + unfold wrap. rewrite Z.add_mod_idemp_l by done. f_equal. lia.
    + unfold zlen in *. cbn. lia.
  - right. exists (SendFailed e). split; [done|]. destruct (send_outcome _ _) as [e'|] eqn:E; [|done]. by eexists _, _, e'.
Qed.

Lemma report_spec r0 self n m :
  progress r0 self n m ->
  progress r0 (report self) n m /\ (report self).(control) = self.(control) /\
  (report self).(next_deadline) = self.(next_deadline).
Proof.
  intros H. destruct self as [a g w d p lt ps tf lr nd rp sl c]. unfold report. destruct w as [rd wr dg]. setters.
  destruct (_ <=? _); setters; by split_and!.
Qed.

(** Where a run is after [n] data packets: within the count, not before its
    deadlines, and left for no other reason than those there are. *)
Definition paced (r0 self : Run) (n : Z) : Prop :=
  let count := r0.(arguments).(a_count) in
  let deadline := r0.(next_deadline) + n * r0.(packet_interval) in
  match self.(control) with
  | Sending =>
      (0 < count -> n < count) /\
      (0 < r0.(arguments).(a_rate) ->
       self.(next_deadline) = deadline /\
       (0 < n -> deadline <= instant_at (Nat.pred self.(run_world).(reads))))
  | Waiting => 0 < n /\ (0 < count -> n < count) /\ 0 < r0.(arguments).(a_rate) /\ self.(next_deadline) = deadline
  | Finished => 0 < count /\ n = count
  | Failed _ => send_failed
  | Panicked => False
  end.

(** A state of a run: unless a send failed, everything sent is accounted for. *)
Definition run_ok (r0 self : Run) (n : Z) : Prop :=
  paced r0 self n /\ match self.(control) with Failed _ => True | _ => exists m, progress r0 self n m end.

Lemma proceed_spec r0 self n m :
  progress r0 self n m -> self.(control) = Sending -> 0 < n -> fits_u 64 r0.(arguments).(a_count) ->
  (0 < r0.(arguments).(a_count) -> n <= r0.(arguments).(a_count)) ->
  (0 < r0.(arguments).(a_rate) -> self.(next_deadline) = r0.(next_deadline) + (n - 1) * r0.(packet_interval)) ->
  progress r0 (proceed self) n m /\ paced r0 (proceed self) n.
Proof.
  intros (H1 & H2 & H3 & H4 & H5 & H6 & H7 & H8) Hc Hn Hfits Hcount Hdl.
  destruct self as [a g w d p lt ps tf lr nd rp sl c].
  cbn in H3, H4, H5, H6, H7, H8, Hc, Hdl. subst c a p g ps tf. unfold proceed. setters.
  assert (Hp : forall w d lt lr nd rp sl c, progress r0 (mkRun (arguments r0)
    (advance (run_generator r0) (m + n * a_flows_per_packet (arguments r0))) w d (packet_interval r0) lt (wrap 64 n)
    (wrap 64 (n * a_flows_per_packet (arguments r0))) lr nd rp sl c) n m <-> zlen (datagrams w) = zlen (datagrams (run_world r0)) + 2 * m + n).
  { intros. unfold progress. cbn. split; [tauto|by intros; split_and!]. }
  assert (E : 0 < a_count (arguments r0) -> wrap 64 n = n) by (intros; apply wrap_small; unfold fits_u in *; lia).
  destruct (Z.ltb_spec 0 (a_count (arguments r0))) as [Hpos|Hneg]; cbn [andb];
    [destruct (Z.leb_spec (a_count (arguments r0)) (wrap 64 n)) as [Hle|Hlt]; [|destruct (Z.ltb_spec 0 (a_rate (arguments r0)))]
    |destruct (Z.ltb_spec 0 (a_rate (arguments r0)))]; unfold paced; setters; rewrite Hp; (split; [done|]);
    rewrite ?E in * by done; split_and!; try done; try lia; intros; rewrite Hdl by done; lia.
Qed.

Lemma turn_spec r0 self n :
  generator_fine r0 -> fits_u 64 r0.(arguments).(a_count) -> run_ok r0 self n -> self.(control) = Sending ->
  run_ok r0 (turn self) (n + 1) \/ run_ok r0 (turn self) n /\ send_failed.
Proof.
  intros Hg Hfits [Hp Hm] Hc. unfold paced in Hp. rewrite Hc in Hp, Hm. destruct Hp as [Hcount Hdl], Hm as [m Hm].
  assert (Hleft : forall s e, control s = Failed e -> send_failed -> run_ok r0 s n /\ send_failed).
  { intros s e E H. unfold run_ok, paced. by rewrite E. }
  unfold turn, unless_left, sending.
  destruct (refresh_spec r0 self n m Hm Hc) as [(C1 & D1 & m1 & P1)|(e & C1 & Hf)]; rewrite C1; [|rewrite C1; right; by eapply Hleft].
  destruct (send_data_spec r0 _ n m1 Hg P1 C1) as [(C2 & D2 & P2)|(e & C2 & Hf)]; rewrite C2; [|right; by eapply Hleft].
  destruct (report_spec r0 _ (n + 1) m1 P2) as (P3 & C3 & D3). rewrite C2 in C3.
  assert (0 <= n) by apply P1.
  destruct (proceed_spec r0 _ (n + 1) m1 P3 C3) as [P4 Q4]; [lia|done|lia| |].
  { intros Hr. rewrite D3, D2, D1. destruct (Hdl Hr) as [-> _]. f_equal. lia. }
  left. split; [exact Q4|]. destruct (control (proceed _)); [by exists m1..|done|by exists m1].
Qed.

Lemma wait_spec r0 self n :
  run_ok r0 self n -> self.(control) = Waiting ->
  run_ok r0 (wait self) n /\ (wait self).(run_world).(reads) = S self.(run_world).(reads) /\
  (wait self).(next_deadline) = self.(next_deadline) /\
  (wait self).(control)
  = if self.(next_deadline) <=? instant_at self.(run_world).(reads) then Sending else Waiting.
Proof.
  intros [Hp Hm] Hc. unfold paced in Hp. rewrite Hc in Hp, Hm. destruct Hp as (Hn & Hcount & Hr & Hd), Hm as [m Hm].
  destruct self as [a g w d p lt ps tf lr nd rp sl c]. cbn in Hc, Hd. subst c.
  unfold wait. destruct w as [rd wr dg]. setters.
  destruct (Z.leb_spec nd (instant_at rd)) as [Hle|Hlt]; [|destruct (_ <? _)]; setters;
    (split; [|done]); unfold run_ok, paced; cbn; (split; [|by exists m]); split_and!; try done; try lia.
Qed.

Lemma run_step_ok r0 self n :
  generator_fine r0 -> fits_u 64 r0.(arguments).(a_count) -> run_ok r0 self n -> exists n', run_ok r0 (step self) n'.
Proof.
  intros Hg Hf H. unfold step. destruct (control self) eqn:Hc; [|exists n; by apply wait_spec|by exists n..].
  destruct (turn_spec r0 self n Hg Hf H Hc) as [H'|[H' _]]; by eexists.
Qed.

Lemma run_steps_ok r0 k :
  generator_fine r0 -> fits_u 64 r0.(arguments).(a_count) -> run_ok r0 r0 0 -> exists n, run_ok r0 (steps k r0) n.
Proof.
  intros Hg Hf H0. induction k as [|k [n IH]]; [by exists 0|]. unfold steps. rewrite Nat.iter_succ. by eapply run_step_ok.
Qed.

(** Nothing fails where no send does, and then a turn sends its packet. *)
Lemma turn_sends r0 self n :
  generator_fine r0 -> fits_u 64 r0.(arguments).(a_count) -> ~ send_failed -> run_ok r0 self n -> self.(control) = Sending ->
  run_ok r0 (turn self) (n + 1).
Proof. intros Hg Hfits Hs H Hc. by destruct (turn_spec r0 self n Hg Hfits H Hc) as [H'|[_ H']]. Qed.

Lemma steps_add j k self : steps (j + k) self = steps j (steps k self).
Proof. unfold steps. apply Nat.iter_add. Qed.

(** The clock passes every deadline. *)
Definition clock_unbounded : Prop := forall t n, exists m, (n <= m)%nat /\ t <= instant_at m.

Lemma wait_ends r0 n d : forall self,
  run_ok r0 self n -> self.(control) = Waiting ->
  self.(next_deadline) <= instant_at (d + self.(run_world).(reads)) ->
  exists k, run_ok r0 (steps k self) n /\ (steps k self).(control) = Sending.
Proof.
  induction d as [|d IH]; intros self H Hc Hd;
    destruct (wait_spec r0 self n H Hc) as (H' & Hr & Hn & Hc');
    (assert (E : steps 1 self = wait self) by (unfold steps, step; cbn; by rewrite Hc)).
  - exists 1%nat. rewrite E, Hc'. split; [done|]. by rewrite (proj2 (Z.leb_le _ _)).
  - destruct (_ <=? _); [by exists 1%nat; rewrite E|].
    destruct (IH (wait self) H' Hc') as (k & Hk & Ek); [rewrite Hn, Hr; by replace (d + S (reads (run_world self)))%nat with (S d + reads (run_world self))%nat by lia|].
    exists (k + 1)%nat. by rewrite steps_add, E.
Qed.

Lemma run_ends r0 d : forall self n,
  generator_fine r0 -> fits_u 64 r0.(arguments).(a_count) -> ~ send_failed -> clock_unbounded ->
  0 < r0.(arguments).(a_count) -> run_ok r0 self n -> self.(control) = Sending ->
  r0.(arguments).(a_count) - n <= Z.of_nat d ->
  exists k, run_ok r0 (steps k self) r0.(arguments).(a_count) /\ (steps k self).(control) = Finished.
Proof.
  induction d as [|d IH]; intros self n Hg Hf Hs Hu Hpos H Hc Hd.
  { destruct H as [Hp _]. unfold paced in Hp. rewrite Hc in Hp. lia. }
  pose proof (turn_sends r0 self n Hg Hf Hs H Hc) as Ht.
  assert (E : steps 1 self = turn self) by (unfold steps, step; cbn; by rewrite Hc).
  destruct (control (turn self)) eqn:Ec.
  - destruct (IH _ _ Hg Hf Hs Hu Hpos Ht Ec) as (k & Hk & Ek); [lia|].
    exists (k + 1)%nat. by rewrite steps_add, E.
  - destruct (Hu (next_deadline (turn self)) (reads (run_world (turn self)))) as (j & Hj & Hle).
    destruct (wait_ends r0 (n + 1) (j - reads (run_world (turn self))) (turn self) Ht Ec) as (k1 & H1 & E1).
    { by replace (j - reads (run_world (turn self)) + reads (run_world (turn self)))%nat with j by lia. }
    destruct (IH _ _ Hg Hf Hs Hu Hpos H1 E1) as (k2 & H2 & E2); [lia|].
    exists (k2 + (k1 + 1))%nat. by rewrite !steps_add, E.
  - exists 1%nat. rewrite E. destruct Ht as [Hp Hm]. pose proof Hp as Hp'. unfold paced in Hp'. rewrite Ec in Hp'.
    destruct Hp' as [_ <-]. done.
  - destruct Ht as [Hp _]. unfold paced in Hp. by rewrite Ec in Hp.
  - destruct Ht as [Hp _]. unfold paced in Hp. by rewrite Ec in Hp.
Qed.

Lemma run_start_ok `{RS : Resolver} `{PC : Pacing} args w draws r0 :
  args_ok args -> (forall n, now_ok (utc_at n)) -> run_start args w draws = inl r0 ->
  generator_fine r0 /\ r0.(arguments) = args /\ run_ok r0 r0 0 /\
  (0 < args.(a_rate) -> r0.(packet_interval) = secs_f64_recip args.(a_rate)) /\
  r0.(run_generator).(g_sequence_number) = 1 /\ r0.(control) = Sending /\
  zlen r0.(run_world).(datagrams) = zlen w.(datagrams) + 2.
Proof.
  intros Ha Hnow. unfold run_start. destruct (IpfixGenerator_new args) as [g|e] eqn:En; [|done].
  destruct (IpfixGenerator_new_ok _ _ Ha En) as (Hg & Ef & Ed & Es).
  pose proof (announced_spec w g) as Hs. destruct (announce w g) as [[w' g'] [e|]]; [done|].
  destruct Hs as (-> & Hd & _). cbn [world_now instant_now]. intros [= <-].
  pose proof (advance_ok g 1 Hg) as Hg'.
  split; [by split|]. split; [done|]. split_and!; try done.
  - split.
    + unfold paced. cbn. split; [done|]. intros _. split; [lia|]. lia.
    + cbn. exists 0. unfold progress. cbn [run_generator packets_sent total_flows run_world datagrams arguments packet_interval].
      rewrite Z.mul_0_l, Z.add_0_l, advance_0 by apply Hg'. split_and!; try done. lia.
  - cbn. intros H. by rewrite (proj2 (Z.ltb_lt _ _)).
  - cbn. by rewrite Es.
Qed.

(** C16: However long a generator has run, it has not panicked, and it stopped only
    when a send failed or after as many data packets as were asked for.  Until
    then the packets, flows and datagrams it counted are those it sent, and so
    is its sequence number; and it is about to send the data packet after [n]
    others no earlier than [n] times [1 / rate], less a nanosecond each, after
    it began. *)
Theorem generator_paced `{RS : Resolver} `{PC : Pacing} args w draws r0 k :
  args_ok args -> (forall n, now_ok (utc_at n)) -> run_start args w draws = inl r0 ->
  let self := steps k r0 in
  self.(control) <> Panicked /\ (forall e, self.(control) = Failed e -> send_failed) /\
  ((forall e, self.(control) <> Failed e) ->
   exists n m, 0 <= n /\ 0 <= m /\
     self.(packets_sent) = wrap 64 n /\ self.(total_flows) = wrap 64 (n * args.(a_flows_per_packet)) /\
     zlen self.(run_world).(datagrams) = zlen w.(datagrams) + 2 * (1 + m) + n /\
     self.(run_generator).(g_sequence_number) = wrap 32 (1 + (m + n * args.(a_flows_per_packet))) /\
     (0 < args.(a_count) -> n <= args.(a_count)) /\
     (self.(control) = Finished -> 0 < args.(a_count) /\ n = args.(a_count)) /\
     (self.(control) = Sending -> 0 < args.(a_rate) -> 0 < n ->
      n * (10 ^ 9 - args.(a_rate))
      <= args.(a_rate) * (instant_at (Nat.pred self.(run_world).(reads)) - r0.(next_deadline)))).
Proof.
  intros Ha Hnow Es self. destruct (run_start_ok args w draws r0 Ha Hnow Es) as (Hg & Ea & H0 & Hi & Hseq & _ & Hd).
  destruct (run_steps_ok r0 k Hg ltac:(rewrite Ea; apply Ha) H0) as [n [Hp Hm]]. fold self in Hp, Hm. unfold paced in Hp.
  rewrite Ea in Hp. split; [by intros E; rewrite E in Hp|]. split; [by intros e E; rewrite E in Hp|]. intros Hf.
  assert (Hm' : exists m, progress r0 self n m) by (destruct (control self) eqn:E; [done..|by destruct (Hf e)|done]).
  clear Hm. destruct Hm' as (m & H1 & H2 & _ & H4 & H5 & H6 & H7 & H8). rewrite Ea in H5, H7. exists n, m.
  split_and!; try done; [lia|by rewrite H5; cbn; rewrite Hseq|..].
  - intros Hc. destruct (control self) eqn:E; [lia..|by destruct (Hf e)|done].
  - intros E. by rewrite E in Hp.
  - intros E Hr Hn. rewrite E in Hp. destruct Hp as [_ Hp]. destruct (Hp Hr) as [_ Hle].
    specialize (Hle Hn). rewrite (Hi Hr) in Hle.
    assert (Hrate : fits_u 32 args.(a_rate)) by apply Ha.
    pose proof (secs_f64_recip_law _ Hr Hrate) as [Hl _]. nia.
Qed.

(** A generator that was asked for a number of data packets sends just as many
    and finishes, where sends succeed and the clock goes on. *)
Theorem generator_finishes `{RS : Resolver} `{PC : Pacing} args w draws r0 :
  args_ok args -> 0 < args.(a_count) -> (forall n, now_ok (utc_at n)) -> ~ send_failed -> clock_unbounded ->
  run_start args w draws = inl r0 ->
  exists k, let self := steps k r0 in self.(control) = Finished /\ self.(packets_sent) = args.(a_count).
Proof.
  intros Ha Hpos Hnow Hs Hu Es. destruct (run_start_ok args w draws r0 Ha Hnow Es) as (Hg & Ea & H0 & _ & _ & Hc & _).
  assert (Hf : fits_u 64 args.(a_count)) by apply Ha.
  destruct (run_ends r0 (Z.to_nat args.(a_count)) r0 0 Hg) as (k & [_ Hm] & Ek); rewrite ?Ea; try done; [lia|].
  exists k. cbv zeta. split; [done|]. rewrite Ek in Hm. destruct Hm as (m & _ & _ & _ & _ & _ & H6 & _).
  by rewrite H6, Ea, wrap_small.
Qed.
End loop.

(** ** Samples *)

Section samples.
#[local] Instance sample_nom : Nom := nom_std.
#[local] Instance sample_crates : Crates := crates_std.
#[local] Instance sample_etherparse : Etherparse := Packet.mini.
#[local] Instance sample_clock : Clock := fun n => 1_000_000 * Z.of_nat n.
#[local] Instance sample_wall : Wall := fun n => IpfixEncoder.sample_time.
#[local] Instance sample_socket : Socket := {| SendError := unit; send_outcome n d := None |}.
#[local] Instance sample_resolver : Resolver := {|
  to_socket_addrs host port := Some [mkSocketAddr (V4 1) port];
  bind v6 := true;
|}.

(** Every draw the highest there is. *)
#[local] Program Instance sample_rng : Rng := {
  random w n := 2 ^ w - 1;
  random_between lo hi n := hi;
  random_index len n := len - 1;
}.
Next Obligation. intros w n Hw. pose proof (Z.pow_pos_nonneg 2 w). unfold fits_u. lia. Qed.
Next Obligation. cbn. lia. Qed.
Next Obligation. cbn. lia. Qed.

#[local] Program Instance sample_pacing : Pacing := { secs_f64_recip rate := 10 ^ 9 / rate }.
Next Obligation. cbn. intros rate Hr _. dlia. Qed.

(** Three packets of two flows, a thousand a second. *)
Definition generate_args : GenerateArgs :=
  mkGenerateArgs (str "127.0.0.1") 4739 1000 2 3 1 30 (NetV4 (mkNet 0x0a000000 8)) (NetV4 (mkNet 0xc0a80000 16)) [6; 17]
    (mkRange 1024 65535) (mkRange 1 1024) [0x02; 0x12] (mkRange 64 65535) (mkRange 1 99).

Lemma generate_args_ok : args_ok generate_args.
Proof. unfold args_ok. split_and!; by apply (bool_decide_unpack _); vm_compute. Qed.

Lemma sample_now_ok n : now_ok (utc_at n).
Proof. unfold now_ok. split_and!; by vm_compute. Qed.

Lemma inl_of {A B : Type} (r : A + B) : match r with inl _ => true | inr _ => false end = true -> exists a, r = inl a.
Proof. destruct r as [a|b]; [by exists a|done]. Qed.

Example sample_range : range_from_str 16 (str " 1024 - 65535") = inl (mkRange 1024 65535).
Proof. vm_compute. reflexivity. Qed.

Example sample_flags : parse_tcp_flag (str " SYN ") = inl 2 /\ parse_tcp_flag (str "18") = inl 18.
Proof. vm_compute. split; reflexivity. Qed.

(** The last packet arrives twice, the first not at all. *)
Lemma generated_flows_read_witness :
  exists self announcement st ds flowss,
    IpfixGenerator_new generate_args = inl self /\
    data_sent 3 ((send_templates (mkWorld 0 0 []) self).1, 0%nat, self) = Some st /\
    st.1.1.(datagrams) = announcement :: ds /\ length flowss = 3%nat /\
    Forall2 described (concat (omap (fun k => flowss !! k) [2; 1; 2]%nat))
      (ExportWire.collect None None None (default_parser 0) (announcement :: omap (fun k => ds !! k) [2; 1; 2]%nat)).
Proof.
  destruct (inl_of (IpfixGenerator_new generate_args)) as [self E]; [by vm_compute|].
  destruct (generated_flows_read None None None generate_args self (mkWorld 0 0 []) 0 3 generate_args_ok E)
    as (a & st & ds & flowss & Es & Ed & _ & Hl & _ & Hc).
  - injection E as <-. by vm_compute.
  - done.
  - exact sample_now_ok.
  - exists self, a, st, ds, flowss. split_and!; try done.
    apply (Hc sample_clock 0%nat [2; 1; 2]%nat). intros i j Hi Hj. cbn in Hi, Hj.
    unfold instant_at, sample_clock, from_mins, from_secs. lia.
Defined.

Lemma sends_succeed : ~ send_failed.
Proof. by intros (n & d & e & E). Qed.

Lemma sample_clock_unbounded : clock_unbounded.
Proof.
  intros t n. exists (n + Z.to_nat t)%nat. split; [lia|]. unfold instant_at, sample_clock. lia.
Qed.

Lemma generator_paced_witness :
  exists r0, run_start generate_args (mkWorld 0 0 []) 0 = inl r0 /\ (steps 9 r0).(control) <> Panicked.
Proof.
  destruct (inl_of (run_start generate_args (mkWorld 0 0 []) 0)) as [r0 E]; [by vm_compute|].
  exists r0. split; [exact E|].
  destruct (generator_paced generate_args (mkWorld 0 0 []) 0 r0 9 generate_args_ok sample_now_ok E) as [H _]. exact H.
Defined.

Lemma generator_finishes_witness :
  exists r0, run_start generate_args (mkWorld 0 0 []) 0 = inl r0 /\
    exists k, (steps k r0).(control) = Finished /\ (steps k r0).(packets_sent) = 3.
Proof.
  destruct (inl_of (run_start generate_args (mkWorld 0 0 []) 0)) as [r0 E]; [by vm_compute|].
  exists r0. split; [exact E|].
  apply (generator_finishes generate_args (mkWorld 0 0 []) 0 r0 generate_args_ok); try done;
    [exact sends_succeed|exact sample_clock_unbounded].
Defined.
End samples.
