(* ===== verification/Readers.v ===== *)
(** [rustflow/src/reader.rs], [pcap_reader.rs] and [async_reader.rs]: flows and
    packets read one at a time.

    What a socket receives, or a capture file holds, is a list, which a reader
    consumes; a read of a socket with nothing more to receive waits, which is
    [None].  A reader keeps the flows of its last datagram that were not asked
    for yet. *)

From Stdlib Require Import ZArith Lia Strings.Byte.
From stdpp Require Import base tactics numbers list gmap.
From S2P Require IpfixEncoder.
From S2P Require Import Prelude Nom Std Crates IERegistry Etherparse Packet CommonFlow Processor ProcessorFlows Source Collect CollectFacts.
#[local] Open Scope Z_scope.
#[local] Abbreviation length := List.length.

(** What one datagram turned out to be. *)
Inductive ReadResult (Pkt : Type) :=
  | ReadPacket (len : Z) (src : IpAddr) (packet : Pkt)
  | ReadParseError (len : Z) (src : IpAddr) (version : option FlowType)
  | ReadTimeout
  | ReadEnd.
Arguments ReadPacket {Pkt}.
Arguments ReadParseError {Pkt}.
Arguments ReadTimeout {Pkt}.
Arguments ReadEnd {Pkt}.

Section readers.
Context `{CR : Crates} {S Pkt : Type} `{PK : !Processor.Packet Pkt} `{PR : !Processor S Pkt}.

Inductive ReadEvent := FlowRead (flow : CommonFlow) | TimeoutRead | EndRead.

(** What a parse of a datagram is to [read_raw]. *)
Definition raw_result (src : IpAddr) (payload : bytes) (packet : option Pkt) : ReadResult Pkt :=
  match packet with
  | Some packet => ReadPacket (zlen payload) src packet
  | None => ReadParseError (zlen payload) src (version_of payload)
  end.

(** ** Sockets *)

Record Reader := mkReader {
  to_receive : list Received;
  reader_processor : nat * S;
  pending_flows : list CommonFlow;
}.

(** [Reader::with_processor] *)
Definition reader_with_processor (self : Reader) (processor : nat * S) : Reader :=
  mkReader self.(to_receive) processor self.(pending_flows).

(** What fits the buffer of a reader. *)
Definition received_payload (data : bytes) : bytes := take (Z.to_nat 65535) data.

Definition read_raw (self : Reader) : option (Reader * (ReadResult Pkt + RecvError)) :=
  match self.(to_receive) with
  | [] => None
  | received :: rest =>
      match received with
      | RecvFailed e =>
          Some (mkReader rest self.(reader_processor) self.(pending_flows),
            if is_retryable e then inl ReadTimeout else inr e)
      | ReceivedFrom data src _ =>
          let payload := received_payload data in
          let '(processor, packet) := parse self.(reader_processor) src payload in
          Some (mkReader rest processor self.(pending_flows), inl (raw_result src payload packet))
      end
  end.

(** The loop of [Reader::read], once no flow is pending. *)
Fixpoint read_from (to_receive : list Received) (processor : nat * S) : option (Reader * (ReadEvent + RecvError)) :=
  match to_receive with
  | [] => None
  | RecvFailed e :: rest =>
      Some (mkReader rest processor [], if is_retryable e then inl TimeoutRead else inr e)
  | ReceivedFrom data src now :: rest =>
      let payload := received_payload data in
      let '(processor, flows) := process_into processor src payload (timestamp_nanos_opt now) [] in
      match flows with
      | [] => read_from rest processor
      | flow :: flows => Some (mkReader rest processor flows, inl (FlowRead flow))
      end
  end.

Definition read (self : Reader) : option (Reader * (ReadEvent + RecvError)) :=
  match self.(pending_flows) with
  | flow :: flows => Some (mkReader self.(to_receive) self.(reader_processor) flows, inl (FlowRead flow))
  | [] => read_from self.(to_receive) self.(reader_processor)
  end.

(** [Iterator::next], over so many timeouts: [None] while it waits, and then
    the item, or [None] at an end. *)
Fixpoint next_read (timeouts : nat) (self : Reader) : option (Reader * option (CommonFlow + RecvError)) :=
  match timeouts with
  | O => None
  | Datatypes.S timeouts =>
      match read self with
      | None => None
      | Some (self, inl (FlowRead flow)) => Some (self, Some (inl flow))
      | Some (self, inl TimeoutRead) => next_read timeouts self
      | Some (self, inl EndRead) => Some (self, None)
      | Some (self, inr e) => Some (self, Some (inr e))
      end
  end.

Definition next_item (self : Reader) : option (Reader * option (CommonFlow + RecvError)) :=
  next_read (Datatypes.S (length self.(to_receive))) self.

(** ** Capture files *)

Context `{EP : Etherparse}.

Inductive PcapFailed := InvalidData.

Record PcapReader := mkPcapReader {
  datalink : Z;
  to_read : list PcapItem;
  pcap_processor : nat * S;
  pcap_pending : list CommonFlow;
}.

Definition pcap_with_processor (self : PcapReader) (processor : nat * S) : PcapReader :=
  mkPcapReader self.(datalink) self.(to_read) processor self.(pcap_pending).

Fixpoint pcap_raw_from (datalink : Z) (to_read : list PcapItem) (processor : nat * S) (pending : list CommonFlow)
    : PcapReader * (ReadResult Pkt + PcapFailed) :=
  match to_read with
  | [] => (mkPcapReader datalink [] processor pending, inl ReadEnd)
  | PcapError :: rest => (mkPcapReader datalink rest processor pending, inr InvalidData)
  | PcapPacket _ data :: rest =>
      match parse_udp_packet datalink data with
      | None => pcap_raw_from datalink rest processor pending
      | Some (src, payload) =>
          let '(processor, packet) := parse processor src payload in
          (mkPcapReader datalink rest processor pending, inl (raw_result src payload packet))
      end
  end.

(** [Reader::read_raw] of pcap_reader.rs *)
Definition pcap_read_raw (self : PcapReader) : PcapReader * (ReadResult Pkt + PcapFailed) :=
  pcap_raw_from self.(datalink) self.(to_read) self.(pcap_processor) self.(pcap_pending).

(** [i64::try_from(timestamp.as_nanos()).ok()] *)
Definition capture_time (timestamp_ns : Z) : option Z := try_i 64 timestamp_ns.

Fixpoint pcap_read_from (datalink : Z) (to_read : list PcapItem) (processor : nat * S)
    : PcapReader * (ReadEvent + PcapFailed) :=
  match to_read with
  | [] => (mkPcapReader datalink [] processor [], inl EndRead)
  | PcapError :: rest => (mkPcapReader datalink rest processor [], inr InvalidData)
  | PcapPacket timestamp_ns data :: rest =>
      let '(processor, flows) :=
        match parse_udp_packet datalink data with
        | Some (src, payload) => process_into processor src payload (capture_time timestamp_ns) []
        | None => (processor, [])
        end in
      match flows with
      | [] => pcap_read_from datalink rest processor
      | flow :: flows => (mkPcapReader datalink rest processor flows, inl (FlowRead flow))
      end
  end.

(** [Reader::read] of pcap_reader.rs *)
Definition pcap_read (self : PcapReader) : PcapReader * (ReadEvent + PcapFailed) :=
  match self.(pcap_pending) with
  | flow :: flows => (mkPcapReader self.(datalink) self.(to_read) self.(pcap_processor) flows, inl (FlowRead flow))
  | [] => pcap_read_from self.(datalink) self.(to_read) self.(pcap_processor)
  end.

(** [Iterator::next] of pcap_reader.rs, which meets no timeouts. *)
Definition pcap_next_item (self : PcapReader) : PcapReader * option (CommonFlow + PcapFailed) :=
  match pcap_read self with
  | (self, inl (FlowRead flow)) => (self, Some (inl flow))
  | (self, inl (TimeoutRead | EndRead)) => (self, None)
  | (self, inr e) => (self, Some (inr e))
  end.

(** ** Async sockets *)

(** [Reader::read_raw] of async_reader.rs *)
Definition async_read_raw (self : Reader) : option (Reader * (ReadResult Pkt + RecvError)) :=
  match self.(to_receive) with
  | [] => None
  | RecvFailed e :: rest => Some (mkReader rest self.(reader_processor) self.(pending_flows), inr e)
  | ReceivedFrom data src _ :: rest =>
      let payload := received_payload data in
      let '(processor, packet) := parse self.(reader_processor) src payload in
      Some (mkReader rest processor self.(pending_flows), inl (raw_result src payload packet))
  end.

Fixpoint async_read_from (to_receive : list Received) (processor : nat * S)
    : option (Reader * (CommonFlow + RecvError)) :=
  match to_receive with
  | [] => None
  | RecvFailed e :: rest => Some (mkReader rest processor [], inr e)
  | ReceivedFrom data src now :: rest =>
      let payload := received_payload data in
      let '(processor, flows) := process_into processor src payload (timestamp_nanos_opt now) [] in
      match flows with
      | [] => async_read_from rest processor
      | flow :: flows => Some (mkReader rest processor flows, inl flow)
      end
  end.

(** [Reader::read] of async_reader.rs *)
Definition async_read (self : Reader) : option (Reader * (CommonFlow + RecvError)) :=
  match self.(pending_flows) with
  | flow :: flows => Some (mkReader self.(to_receive) self.(reader_processor) flows, inl flow)
  | [] => async_read_from self.(to_receive) self.(reader_processor)
  end.
End readers.

Section netflow.
Context `{CR : Crates}.

(** [Reader::with_ie_registry] and [Reader::with_template_timeout], of any of
    the readers: the processor they hold is what changes. *)
Definition reader_with_ie_registry (self : Reader) (registry : IERegistry) : Reader :=
  let '(reads, processor) := self.(reader_processor) in
  mkReader self.(to_receive) (reads, with_ie_registry processor registry) self.(pending_flows).

Definition reader_with_template_timeout (self : Reader) (timeout : Z) : Reader :=
  let '(reads, processor) := self.(reader_processor) in
  mkReader self.(to_receive) (reads, with_template_timeout processor timeout) self.(pending_flows).
End netflow.

(** ** What the readers yield *)

Section yielded.
Context `{CR : Crates} {S Pkt : Type} `{PK : !Processor.Packet Pkt} `{PR : !Processor S Pkt} `{EP : Etherparse}.

(** The items of an iteration over what is received: the flows [process] gives
    for each datagram in turn, and the errors that are not passed over. *)
Fixpoint yielded (skips : RecvError -> bool) (self : nat * S) (rs : list Received) : list (CommonFlow + RecvError) :=
  match rs with
  | [] => []
  | RecvFailed e :: rs => (if skips e then [] else [inr e]) ++ yielded skips self rs
  | ReceivedFrom data src now :: rs =>
      let '(self, flows) := process self src (received_payload data) (timestamp_nanos_opt now) in
      (inl <$> flows) ++ yielded skips self rs
  end.

Fixpoint pcap_yielded (datalink : Z) (self : nat * S) (packets : list PcapItem) : list (CommonFlow + PcapFailed) :=
  match packets with
  | [] => []
  | PcapError :: packets => inr InvalidData :: pcap_yielded datalink self packets
  | PcapPacket timestamp_ns data :: packets =>
      match parse_udp_packet datalink data with
      | None => pcap_yielded datalink self packets
      | Some (src, payload) =>
          let '(self, flows) := process self src payload (capture_time timestamp_ns) in
          (inl <$> flows) ++ pcap_yielded datalink self packets
      end
  end.

(** The items of so many calls of [next], of [read] for an async reader. *)
Fixpoint items (n : nat) (self : Reader (S := S)) : list (CommonFlow + RecvError) :=
  match n with
  | O => []
  | Datatypes.S n => match next_item self with Some (self, Some x) => x :: items n self | _ => [] end
  end.

Fixpoint pcap_items (n : nat) (self : PcapReader (S := S)) : list (CommonFlow + PcapFailed) :=
  match n with
  | O => []
  | Datatypes.S n => match pcap_next_item self with (self, Some x) => x :: pcap_items n self | _ => [] end
  end.

Fixpoint async_items (n : nat) (self : Reader (S := S)) : list (CommonFlow + RecvError) :=
  match n with
  | O => []
  | Datatypes.S n => match async_read self with Some (self, x) => x :: async_items n self | None => [] end
  end.

Lemma process_into_nil (self : nat * S) src payload time : process_into self src payload time [] = process self src payload time.
Proof. done. Qed.

(** What a reader has yet to yield. *)
Definition remaining (skips : RecvError -> bool) (self : Reader (S := S)) : list (CommonFlow + RecvError) :=
  (inl <$> self.(pending_flows)) ++ yielded skips self.(reader_processor) self.(to_receive).

Lemma read_from_spec rs : forall processor,
  match read_from rs processor with
  | None => yielded is_retryable processor rs = []
  | Some (self, event) =>
      (length self.(to_receive) < length rs)%nat /\
      match event with
      | inl (FlowRead flow) => yielded is_retryable processor rs = inl flow :: remaining is_retryable self
      | inl TimeoutRead => yielded is_retryable processor rs = remaining is_retryable self
      | inl EndRead => False
      | inr e => yielded is_retryable processor rs = inr e :: remaining is_retryable self
      end
  end.
Proof.
  induction rs as [|[data src now|e] rs IH]; intros processor; cbn [read_from yielded]; [done| |].
  - rewrite process_into_nil. destruct (process _ _ _ _) as [processor' [|flow flows]].
    + cbn [fmap list_fmap app]. specialize (IH processor'). destruct (read_from rs processor') as [[self event]|]; [|done].
      destruct IH as [Hl H]. split; [cbn; lia|done].
    + split; [cbn; lia|done].
  - destruct (is_retryable e); (split; [cbn; lia|done]).
Qed.

Lemma reader_read_spec (self : Reader (S := S)) :
  match read self with
  | None => remaining is_retryable self = []
  | Some (self', event) =>
      match event with
      | inl (FlowRead flow) => remaining is_retryable self = inl flow :: remaining is_retryable self'
      | inl TimeoutRead => (length self'.(to_receive) < length self.(to_receive))%nat /\ remaining is_retryable self = remaining is_retryable self'
      | inl EndRead => False
      | inr e => remaining is_retryable self = inr e :: remaining is_retryable self'
      end
  end.
Proof.
  destruct self as [rs processor [|flow flows]]; [|done]. unfold read. cbn [pending_flows to_receive reader_processor].
  pose proof (read_from_spec rs processor) as H.
  destruct (read_from rs processor) as [[self [[flow| |]|e]]|]; try done; try apply H.
Qed.

Lemma next_read_spec n : forall self : Reader (S := S),
  (length self.(to_receive) < n)%nat ->
  match next_read n self with
  | None => remaining is_retryable self = []
  | Some (self', x) => exists y, x = Some y /\ remaining is_retryable self = y :: remaining is_retryable self'
  end.
Proof.
  induction n as [|n IH]; intros self Hn; [lia|]. cbn [next_read]. pose proof (reader_read_spec self) as H.
  destruct (read self) as [[self' [[flow| |]|e]]|]; [by eexists| |done|by eexists|done].
  destruct H as [Hl ->]. apply IH. lia.
Qed.

Lemma items_spec n : forall self : Reader (S := S), items n self = take n (remaining is_retryable self).
Proof.
  induction n as [|n IH]; intros self; [done|]. cbn [items]. unfold next_item.
  pose proof (next_read_spec (Datatypes.S (length self.(to_receive))) self ltac:(lia)) as H.
  destruct (next_read _ self) as [[self' x]|]; [|by rewrite H]. destruct H as (y & -> & ->). cbn. by rewrite IH.
Qed.

Lemma async_read_from_spec rs : forall processor,
  match async_read_from rs processor with
  | None => yielded (fun _ => false) processor rs = []
  | Some (self, x) => yielded (fun _ => false) processor rs = x :: remaining (fun _ => false) self
  end.
Proof.
  induction rs as [|[data src now|e] rs IH]; intros processor; cbn [async_read_from yielded]; [done| |done].
  rewrite process_into_nil. destruct (process _ _ _ _) as [processor' [|flow flows]]; [apply IH|done].
Qed.

Lemma async_items_spec n : forall self : Reader (S := S), async_items n self = take n (remaining (fun _ => false) self).
Proof.
  induction n as [|n IH]; intros self; [done|]. cbn [async_items].
  destruct self as [rs processor [|flow flows]]; [|cbn; by rewrite IH].
  unfold async_read. cbn [pending_flows to_receive reader_processor].
  pose proof (async_read_from_spec rs processor) as H. unfold remaining. cbn [pending_flows fmap list_fmap app to_receive reader_processor].
  destruct (async_read_from rs processor) as [[self x]|]; rewrite H; [|done]. cbn. by rewrite IH.
Qed.

Definition pcap_remaining (self : PcapReader (S := S)) : list (CommonFlow + PcapFailed) :=
  (inl <$> self.(pcap_pending)) ++ pcap_yielded self.(datalink) self.(pcap_processor) self.(to_read).

Lemma pcap_read_from_spec datalink packets : forall processor,
  match pcap_read_from datalink packets processor with
  | (self, inl (FlowRead flow)) => pcap_yielded datalink processor packets = inl flow :: pcap_remaining self
  | (self, inl TimeoutRead) => False
  | (self, inl EndRead) => pcap_yielded datalink processor packets = []
  | (self, inr e) => pcap_yielded datalink processor packets = inr e :: pcap_remaining self
  end.
Proof.
  induction packets as [|[ns data|] packets IH]; intros processor; cbn [pcap_read_from pcap_yielded]; [done| |done].
  destruct (parse_udp_packet datalink data) as [[src payload]|]; [|apply IH].
  rewrite process_into_nil. destruct (process _ _ _ _) as [processor' [|flow flows]]; [apply IH|done].
Qed.

Lemma pcap_items_spec n : forall self : PcapReader (S := S), pcap_items n self = take n (pcap_remaining self).
Proof.
  induction n as [|n IH]; intros self; [done|]. cbn [pcap_items]. unfold pcap_next_item.
  destruct self as [dl packets processor [|flow flows]]; [|cbn; by rewrite IH].
  unfold pcap_read. cbn [pcap_pending datalink to_read pcap_processor].
  pose proof (pcap_read_from_spec dl packets processor) as H. unfold pcap_remaining.
  cbn [pcap_pending fmap list_fmap app to_read pcap_processor datalink].
  destruct (pcap_read_from dl packets processor) as [self [[flow| |]|[]]]; rewrite ?H; try done; cbn; by rewrite IH.
Qed.

(** The datagrams of a capture that is read to its end. *)
Definition capture_datagrams (datalink : Z) (packets : list PcapItem) : list Datagram :=
  omap (fun item =>
    match item with
    | PcapPacket ns data =>
        (fun '(src, payload) => DatagramPacket src payload (capture_time ns)) <$> parse_udp_packet datalink data
    | PcapError => None
    end) packets.

Lemma pcap_yielded_processed datalink packets : forall processor : nat * S,
  PcapError ∉ packets ->
  pcap_yielded datalink processor packets = inl <$> processed processor (capture_datagrams datalink packets).
Proof.
  induction packets as [|[ns data|] packets IH]; intros processor Hn; [done| |by destruct Hn; left].
  apply not_elem_of_cons in Hn as [_ Hn]. cbn [pcap_yielded]. unfold capture_datagrams. cbn [omap list_omap].
  fold (capture_datagrams datalink packets).
  destruct (parse_udp_packet datalink data) as [[src payload]|]; cbn [fmap option_fmap option_map]; [|by apply IH].
  cbn [processed]. destruct (process _ _ _ _) as [processor' flows]. rewrite fmap_app. by rewrite IH.
Qed.

(** C14: The items a reader yields are the flows [process] gives for the datagrams in
    turn, those of the last one that were still pending first, with errors in
    their places: a socket's reader passes over timeouts, however many, and
    waits at the end; an async one yields every error; a capture's ends with
    the file, and gives the flows of its datagrams where it can be read whole. *)
Theorem readers_yield (processor : nat * S) pending n :
  (forall rs, items n (mkReader rs processor pending) = take n ((inl <$> pending) ++ yielded is_retryable processor rs)) /\
  (forall rs, async_items n (mkReader rs processor pending) = take n ((inl <$> pending) ++ yielded (fun _ => false) processor rs)) /\
  (forall datalink packets,
     pcap_items n (mkPcapReader datalink packets processor pending)
     = take n ((inl <$> pending) ++ pcap_yielded datalink processor packets) /\
     (PcapError ∉ packets ->
      pcap_items n (mkPcapReader datalink packets processor pending)
      = take n (inl <$> (pending ++ processed processor (capture_datagrams datalink packets))))).
Proof.
  split; [|split]; [intros rs; apply items_spec|intros rs; apply async_items_spec|].
  intros datalink packets. split; [apply pcap_items_spec|]. intros Hn. rewrite pcap_items_spec. unfold pcap_remaining. cbn.
  by rewrite pcap_yielded_processed, fmap_app.
Qed.
End yielded.

(** ** Samples *)

#[local] Existing Instance ProcessorFlows.sample_nom.
#[local] Existing Instance ProcessorFlows.sample_crates.
#[local] Existing Instance ProcessorFlows.sample_etherparse.
#[local] Existing Instance ProcessorFlows.sample_clock.

(** A timeout, a datagram with a flow, one that does not parse, and an error. *)
Definition sample_receives : list Received :=
  [RecvFailed TimedOut; ReceivedFrom ProcessorFlows.sample_datagram sample_src IpfixEncoder.sample_time;
   ReceivedFrom [x00; x09; x00] sample_src IpfixEncoder.sample_time; RecvFailed OtherRecvError].

Example sample_items :
  match items 5 (mkReader sample_receives sample_start []) with [inl _; inr OtherRecvError] => true | _ => false end = true /\
  match async_items 5 (mkReader sample_receives sample_start []) with [inr TimedOut; inl _; inr OtherRecvError] => true | _ => false end
  = true.
Proof. vm_compute. split; reflexivity. Qed.

Example sample_raw :
  match read_raw (mkReader (drop 2 sample_receives) sample_start []) with
  | Some (_, inl (ReadParseError 3 _ (Some FlowType.NetflowV9))) => true
  | _ => false
  end = true.
Proof. vm_compute. reflexivity. Qed.
