(* ===== verification/RowEncoders.v ===== *)
(** [rustflow_collect/src/sink/encoder/csv.rs], [protobuf.rs], [columns.rs],
    [arrow.rs] and [parquet.rs]: the formats with a field per column.

    A CSV or protobuf record goes to the buffer in one piece, so a failed write
    loses records whole, and a finished file is read back as the flows of the
    calls that succeeded.  Columns collect rows into batches.  The text of a
    CSV record, the octets of a message and what is done with a batch are other
    crates': interfaces with what reading undoes. *)

From Stdlib Require Import ZArith Lia Strings.Byte.
From stdpp Require Import base tactics numbers list gmap fin_maps.
From S2P Require Import Prelude Std Crates Calendar CommonFlow Layout Storage Destination SinkConfig Encoder Ndjson Source.
#[local] Open Scope Z_scope.
#[local] Abbreviation length := List.length.

(** ** Flow fields *)

(** The kinds of [for_each_flow_field]. *)
Module Kind.
Inductive Kind := FlowType | Timestamp | U8 | U16 | U32 | U64 | Ip | Mac.
End Kind.
Export Kind(Kind).

(** Its rows: the name, the kind and whether there is always a value. *)
Definition flow_fields : list (bytes * Kind * bool) :=
  [(str "flow_type", Kind.FlowType, true);
   (str "time_received_ns", Kind.Timestamp, false);
   (str "sequence_num", Kind.U32, true);
   (str "sampling_rate", Kind.U32, false);
   (str "sampler_address", Kind.Ip, false);
   (str "time_flow_start_ns", Kind.Timestamp, false);
   (str "time_flow_end_ns", Kind.Timestamp, false);
   (str "bytes", Kind.U64, true);
   (str "packets", Kind.U64, true);
   (str "src_addr", Kind.Ip, false);
   (str "dst_addr", Kind.Ip, false);
   (str "src_mac", Kind.Mac, false);
   (str "dst_mac", Kind.Mac, false);
   (str "etype", Kind.U16, false);
   (str "proto", Kind.U8, false);
   (str "src_port", Kind.U16, false);
   (str "dst_port", Kind.U16, false);
   (str "in_if", Kind.U32, false);
   (str "out_if", Kind.U32, false);
   (str "ip_tos", Kind.U8, false);
   (str "ip_ttl", Kind.U8, false);
   (str "tcp_flags", Kind.U16, false);
   (str "icmp_type", Kind.U8, false);
   (str "icmp_code", Kind.U8, false);
   (str "ipv6_flow_label", Kind.U32, false);
   (str "fragment_id", Kind.U32, false);
   (str "fragment_offset", Kind.U16, false);
   (str "src_as", Kind.U32, false);
   (str "dst_as", Kind.U32, false);
   (str "next_hop", Kind.Ip, false);
   (str "src_net", Kind.U8, false);
   (str "dst_net", Kind.U8, false);
   (str "bgp_next_hop", Kind.Ip, false);
   (str "src_vlan", Kind.U16, false);
   (str "dst_vlan", Kind.U16, false);
   (str "observation_domain_id", Kind.U32, false);
   (str "template_id", Kind.U16, false);
   (str "forwarding_status", Kind.U32, false)].

Section values.
Context `{CR : Crates}.

Inductive FlowValue := OfType (t : FlowType) | OfNumber (n : Z) | OfIp (ip : IpAddr) | OfMac (mac : MacAddr6).

(** A flow taken apart, in the order of its fields. *)
Definition flow_values (flow : CommonFlow) : list (option FlowValue) :=
  [Some (OfType flow.(cf_flow_type));
   OfNumber <$> flow.(cf_time_received_ns);
   Some (OfNumber flow.(cf_sequence_num));
   OfNumber <$> flow.(cf_sampling_rate);
   OfIp <$> flow.(cf_sampler_address);
   OfNumber <$> flow.(cf_time_flow_start_ns);
   OfNumber <$> flow.(cf_time_flow_end_ns);
   Some (OfNumber flow.(cf_bytes));
   Some (OfNumber flow.(cf_packets));
   OfIp <$> flow.(cf_src_addr);
   OfIp <$> flow.(cf_dst_addr);
   OfMac <$> flow.(cf_src_mac);
   OfMac <$> flow.(cf_dst_mac);
   OfNumber <$> flow.(cf_etype);
   OfNumber <$> flow.(cf_proto);
   OfNumber <$> flow.(cf_src_port);
   OfNumber <$> flow.(cf_dst_port);
   OfNumber <$> flow.(cf_in_if);
   OfNumber <$> flow.(cf_out_if);
   OfNumber <$> flow.(cf_ip_tos);
   OfNumber <$> flow.(cf_ip_ttl);
   OfNumber <$> flow.(cf_tcp_flags);
   OfNumber <$> flow.(cf_icmp_type);
   OfNumber <$> flow.(cf_icmp_code);
   OfNumber <$> flow.(cf_ipv6_flow_label);
   OfNumber <$> flow.(cf_fragment_id);
   OfNumber <$> flow.(cf_fragment_offset);
   OfNumber <$> flow.(cf_src_as);
   OfNumber <$> flow.(cf_dst_as);
   OfIp <$> flow.(cf_next_hop);
   OfNumber <$> flow.(cf_src_net);
   OfNumber <$> flow.(cf_dst_net);
   OfIp <$> flow.(cf_bgp_next_hop);
   OfNumber <$> flow.(cf_src_vlan);
   OfNumber <$> flow.(cf_dst_vlan);
   OfNumber <$> flow.(cf_observation_domain_id);
   OfNumber <$> flow.(cf_template_id);
   OfNumber <$> flow.(cf_forwarding_status)].

(** What a value of a kind may be. *)
Definition kind_ok (kind : Kind) (v : FlowValue) : Prop :=
  match kind, v with
  | Kind.FlowType, OfType _ => True
  | Kind.Timestamp, OfNumber n => fits_i 64 n
  | Kind.U8, OfNumber n => fits_u 8 n
  | Kind.U16, OfNumber n => fits_u 16 n
  | Kind.U32, OfNumber n => fits_u 32 n
  | Kind.U64, OfNumber n => fits_u 64 n
  | Kind.Ip, OfIp (V4 a) => fits_u 32 a
  | Kind.Ip, OfIp (V6 a) => fits_u 128 a
  | Kind.Mac, OfMac _ => True
  | _, _ => False
  end.

Definition flow_typed (flow : CommonFlow) : Prop :=
  Forall2 (fun field v => match v with Some v => kind_ok field.1.2 v | None => field.2 = false end)
    flow_fields (flow_values flow).

#[export] Instance flow_typed_dec flow : Decision (flow_typed flow).
Proof.
  apply Forall2_dec. intros [ [name kind] always] [v|]; [|apply _].
  unfold kind_ok. destruct kind, v as [t|n|[a|a]|mac]; apply _.
Defined.

(** [Display], of the types of the fields; [macaddr]'s is another crate's. *)
Class MacText := mac_text : MacAddr6 -> bytes.

Definition flow_type_text (t : FlowType) : bytes :=
  match t with
  | FlowType.NetflowV5 => str "NETFLOW_V5"
  | FlowType.NetflowV9 => str "NETFLOW_V9"
  | FlowType.Ipfix => str "IPFIX"
  | FlowType.SflowV5 => str "SFLOW_V5"
  end.

Definition show_signed (n : Z) : bytes := if n <? 0 then str "-" ++ show (- n) else show n.

Definition value_text `{MT : MacText} (v : FlowValue) : bytes :=
  match v with
  | OfType t => flow_type_text t
  | OfNumber n => show_signed n
  | OfIp ip => show_ip ip
  | OfMac mac => mac_text mac
  end.
End values.

(** ** CSV *)

Definition HEADERS : list bytes := (fun field => field.1.1) <$> flow_fields.

(** The mark of UTF-8 at the start of a file, which reading leaves out. *)
Definition BOM : bytes := [xef; xbb; xbf].

(** [csv::Writer] and [csv::Reader]: the octets of a record, and the records of
    octets, the first of which says how long they all are. *)
Class CsvText := {
  csv_record : list bytes -> bytes;
  csv_read : bytes -> option (list (list bytes));
  csv_law : forall n rows, (2 <= n)%nat -> Forall (fun row => length row = n) rows ->
    take 3 (default [] (head (concat rows))) <> BOM ->
    csv_read (concat (csv_record <$> rows)) = Some rows;
}.

Section csv.
Context `{CR : Crates} `{ST : Storage} `{MT : !MacText} `{CT : CsvText}.

(** The record writer keeps nothing between records but their length. *)
Record Csv := mkCsv { csv_out : BufWriter; csv_columns : nat }.

(** [Csv::write_record]: what was encoded goes out in one piece. *)
Definition csv_write_record (s : Sys) (self : Csv) (record : bytes) : Sys * Csv * IoResult unit :=
  let '(s, out, r) := buf_write_all s self.(csv_out) record in (s, mkCsv out self.(csv_columns), r).

Definition csv_header (enriched_fields : list bytes) : list bytes := HEADERS ++ enriched_fields.

Definition Csv_open (s : Sys) (wr : Writer) (enriched_fields : list bytes) : Sys * IoResult Csv :=
  let self := mkCsv (mkBuf wr WRITE_BUFFER_BYTES []) (length (csv_header enriched_fields)) in
  match csv_write_record s self (csv_record (csv_header enriched_fields)) with
  | (s, self, inl _) => (s, inl self)
  | (s, _, inr e) => (s, inr e)
  end.

(** [write_flow]: the texts of the fields. *)
Definition write_flow (flow : CommonFlow) : list bytes :=
  (fun v => match v with Some v => value_text v | None => [] end) <$> flow_values flow.

Definition csv_row (flow : CommonFlow) (enriched : Enriched) : list bytes :=
  write_flow flow ++ (default [] <$> enriched).

(** A row of another length than the header's, which the csv crate refuses, is
    left out of the model. *)
Definition Csv_encode (s : Sys) (self : Csv) (flow : CommonFlow) (enriched : Enriched)
    : option (Sys * Csv * IoResult unit) :=
  let row := csv_row flow enriched in
  if bool_decide (length row = self.(csv_columns)) then Some (csv_write_record s self (csv_record row)) else None.

Definition Csv_flush (s : Sys) (self : Csv) : Sys * Csv * IoResult unit :=
  let '(s, out, r) := flush_buf s self.(csv_out) in (s, mkCsv out self.(csv_columns), r).

Definition Csv_finish := Csv_flush.
End csv.

(** [Encoder::write_raw], where an encoder does not provide it. *)
Definition write_raw_provided {S E : Type} (s : S) (self : E) : S * E * IoResult unit := (s, self, inr OtherError).

(** ** Protobuf *)

Record FlowMessage := mkMessage {
  p_flow_type : bytes;
  p_time_received_ns : option Z;
  p_sequence_num : Z;
  p_sampling_rate : option Z;
  p_sampler_address : option bytes;
  p_time_flow_start_ns : option Z;
  p_time_flow_end_ns : option Z;
  p_bytes : Z;
  p_packets : Z;
  p_src_addr : option bytes;
  p_dst_addr : option bytes;
  p_src_mac : option bytes;
  p_dst_mac : option bytes;
  p_etype : option Z;
  p_proto : option Z;
  p_src_port : option Z;
  p_dst_port : option Z;
  p_in_if : option Z;
  p_out_if : option Z;
  p_ip_tos : option Z;
  p_ip_ttl : option Z;
  p_tcp_flags : option Z;
  p_icmp_type : option Z;
  p_icmp_code : option Z;
  p_ipv6_flow_label : option Z;
  p_fragment_id : option Z;
  p_fragment_offset : option Z;
  p_src_as : option Z;
  p_dst_as : option Z;
  p_next_hop : option bytes;
  p_src_net : option Z;
  p_dst_net : option Z;
  p_bgp_next_hop : option bytes;
  p_src_vlan : option Z;
  p_dst_vlan : option Z;
  p_observation_domain_id : option Z;
  p_template_id : option Z;
  p_forwarding_status : option Z;
  p_enriched : gmap bytes bytes;
}.

Definition ip_bytes (addr : IpAddr) : bytes :=
  match addr with V4 v4 => be_bytes 4 v4 | V6 v6 => be_bytes 16 v6 end.

Section message.
Context `{CR : Crates}.

(** The entries of the enrichment, of which a later one of a name wins. *)
Definition enriched_map (names : list bytes) (enriched : Enriched) : gmap bytes bytes :=
  foldl (fun map '(name, value) => <[name := value]> map) ∅ (enriched_entries names enriched).

Definition from_flow (flow : CommonFlow) (names : list bytes) (enriched : Enriched) : FlowMessage := {|
  p_flow_type := flow_type_text flow.(cf_flow_type);
  p_time_received_ns := flow.(cf_time_received_ns);
  p_sequence_num := flow.(cf_sequence_num);
  p_sampling_rate := flow.(cf_sampling_rate);
  p_sampler_address := ip_bytes <$> flow.(cf_sampler_address);
  p_time_flow_start_ns := flow.(cf_time_flow_start_ns);
  p_time_flow_end_ns := flow.(cf_time_flow_end_ns);
  p_bytes := flow.(cf_bytes);
  p_packets := flow.(cf_packets);
  p_src_addr := ip_bytes <$> flow.(cf_src_addr);
  p_dst_addr := ip_bytes <$> flow.(cf_dst_addr);
  p_src_mac := MacAddr6_as_bytes <$> flow.(cf_src_mac);
  p_dst_mac := MacAddr6_as_bytes <$> flow.(cf_dst_mac);
  p_etype := flow.(cf_etype);
  p_proto := flow.(cf_proto);
  p_src_port := flow.(cf_src_port);
  p_dst_port := flow.(cf_dst_port);
  p_in_if := flow.(cf_in_if);
  p_out_if := flow.(cf_out_if);
  p_ip_tos := flow.(cf_ip_tos);
  p_ip_ttl := flow.(cf_ip_ttl);
  p_tcp_flags := flow.(cf_tcp_flags);
  p_icmp_type := flow.(cf_icmp_type);
  p_icmp_code := flow.(cf_icmp_code);
  p_ipv6_flow_label := flow.(cf_ipv6_flow_label);
  p_fragment_id := flow.(cf_fragment_id);
  p_fragment_offset := flow.(cf_fragment_offset);
  p_src_as := flow.(cf_src_as);
  p_dst_as := flow.(cf_dst_as);
  p_next_hop := ip_bytes <$> flow.(cf_next_hop);
  p_src_net := flow.(cf_src_net);
  p_dst_net := flow.(cf_dst_net);
  p_bgp_next_hop := ip_bytes <$> flow.(cf_bgp_next_hop);
  p_src_vlan := flow.(cf_src_vlan);
  p_dst_vlan := flow.(cf_dst_vlan);
  p_observation_domain_id := flow.(cf_observation_domain_id);
  p_template_id := flow.(cf_template_id);
  p_forwarding_status := flow.(cf_forwarding_status);
  p_enriched := enriched_map names enriched;
|}.
End message.

(** A message whose values fit their types and whose strings are strings. *)
Definition message_ok (m : FlowMessage) : Prop :=
  Forall (fits_i 64) (omap id [m.(p_time_received_ns); m.(p_time_flow_start_ns); m.(p_time_flow_end_ns)]) /\
  Forall (fits_u 32) (m.(p_sequence_num) :: omap id
    [m.(p_sampling_rate); m.(p_etype); m.(p_proto); m.(p_src_port); m.(p_dst_port); m.(p_in_if); m.(p_out_if);
     m.(p_ip_tos); m.(p_ip_ttl); m.(p_tcp_flags); m.(p_icmp_type); m.(p_icmp_code); m.(p_ipv6_flow_label);
     m.(p_fragment_id); m.(p_fragment_offset); m.(p_src_as); m.(p_dst_as); m.(p_src_net); m.(p_dst_net);
     m.(p_src_vlan); m.(p_dst_vlan); m.(p_observation_domain_id); m.(p_template_id); m.(p_forwarding_status)]) /\
  fits_u 64 m.(p_bytes) /\ fits_u 64 m.(p_packets) /\
  utf8_valid m.(p_flow_type) = true /\
  map_Forall (fun name value => utf8_valid name = true /\ utf8_valid value = true) m.(p_enriched).

(** [prost::Message]: a message as octets with their number before them, and
    how they are read. *)
Class Prost := {
  encode_length_delimited : FlowMessage -> bytes;
  decode_length_delimited : bytes -> option (FlowMessage * bytes);
  prost_law : forall m rest, message_ok m ->
    decode_length_delimited (encode_length_delimited m ++ rest) = Some (m, rest);
}.

Section protobuf.
Context `{CR : Crates} `{ST : Storage} `{PB : Prost}.

Record Protobuf := mkProtobuf { pb_out : BufWriter; pb_names : list bytes }.

Definition Protobuf_open (wr : Writer) (enriched_fields : list bytes) : IoResult Protobuf :=
  inl (mkProtobuf (mkBuf wr WRITE_BUFFER_BYTES []) enriched_fields).

Definition Protobuf_encode (s : Sys) (self : Protobuf) (flow : CommonFlow) (enriched : Enriched) : Sys * Protobuf * IoResult unit :=
  let buf := encode_length_delimited (from_flow flow self.(pb_names) enriched) in
  let '(s, out, r) := buf_write_all s self.(pb_out) buf in (s, mkProtobuf out self.(pb_names), r).

Definition Protobuf_flush (s : Sys) (self : Protobuf) : Sys * Protobuf * IoResult unit :=
  let '(s, out, r) := flush_buf s self.(pb_out) in (s, mkProtobuf out self.(pb_names), r).

Definition Protobuf_finish := Protobuf_flush.

(** ** Calls *)

Definition Protobuf_call (s : Sys) (self : Protobuf) (c : call) : Sys * Protobuf * IoResult unit :=
  match c with
  | CallEncode flow enriched => Protobuf_encode s self flow enriched
  | CallRaw _ => write_raw_provided s self
  | CallFlush => Protobuf_flush s self
  end.

Fixpoint Protobuf_calls (s : Sys) (self : Protobuf) (cs : list call) : Sys * Protobuf * list (IoResult unit) :=
  match cs with
  | [] => (s, self, [])
  | c :: cs =>
      let '(s, self, r) := Protobuf_call s self c in
      let '(s, self, rs) := Protobuf_calls s self cs in (s, self, r :: rs)
  end.

Context `{MT : !MacText} `{CT : CsvText}.

Definition Csv_call (s : Sys) (self : Csv) (c : call) : option (Sys * Csv * IoResult unit) :=
  match c with
  | CallEncode flow enriched => Csv_encode s self flow enriched
  | CallRaw _ => Some (write_raw_provided s self)
  | CallFlush => Some (Csv_flush s self)
  end.

Fixpoint Csv_calls (s : Sys) (self : Csv) (cs : list call) : option (Sys * Csv * list (IoResult unit)) :=
  match cs with
  | [] => Some (s, self, [])
  | c :: cs =>
      '(s, self, r) ← Csv_call s self c;
      '(s, self, rs) ← Csv_calls s self cs; Some (s, self, r :: rs)
  end.
End protobuf.

(** ** Records through a buffer *)

Section records.
Context `{CR : Crates} `{ST : Storage}.

(** The flows of the calls that succeeded. *)
Definition accepted_call (c : call) (r : IoResult unit) : list (CommonFlow * Enriched) :=
  match c, r with CallEncode flow enriched, inl _ => [(flow, enriched)] | _, _ => [] end.

Definition accepted (cs : list call) (rs : list (IoResult unit)) : list (CommonFlow * Enriched) :=
  concat (zip_with accepted_call cs rs).

(** The calls of an encoder that gives a record to the buffer in one piece. *)
Definition buffer_call (record : CommonFlow -> Enriched -> bytes) (s : Sys) (out : BufWriter) (c : call)
    : Sys * BufWriter * IoResult unit :=
  match c with
  | CallEncode flow enriched => buf_write_all s out (record flow enriched)
  | CallRaw _ => write_raw_provided s out
  | CallFlush => flush_buf s out
  end.

Fixpoint buffer_calls (record : CommonFlow -> Enriched -> bytes) (s : Sys) (out : BufWriter) (cs : list call)
    : Sys * BufWriter * list (IoResult unit) :=
  match cs with
  | [] => (s, out, [])
  | c :: cs =>
      let '(s, out, r) := buffer_call record s out c in
      let '(s, out, rs) := buffer_calls record s out cs in (s, out, r :: rs)
  end.

(** Every record a call may write fits the buffer. *)
Definition record_fits (record : CommonFlow -> Enriched -> bytes) (c : call) : Prop :=
  match c with CallEncode flow enriched => zlen (record flow enriched) < WRITE_BUFFER_BYTES | _ => True end.

Lemma buffer_call_spec record s out c :
  let '(s', out', r) := buffer_call record s out c in
  through out.(inner) s s' /\ out'.(inner) = out.(inner) /\ out'.(capacity) = out.(capacity) /\
  (record_fits record c -> out.(capacity) = WRITE_BUFFER_BYTES -> forall i, out.(inner) = FileWriter i ->
    content s'.(fs) i ++ out'.(buf)
    = content s.(fs) i ++ out.(buf) ++ concat ((fun '(flow, enriched) => record flow enriched) <$> accepted_call c r)).
Proof.
  destruct c as [flow enriched|raw|]; cbn [buffer_call].
  - pose proof (buf_write_all_spec s out (record flow enriched)) as H.
    destruct (buf_write_all s out (record flow enriched)) as [[s' out'] r]. destruct H as (H1 & H2 & H3 & H4).
    split_and!; [done..|]. intros Hs Hc i Hi. rewrite H4 by (done || by rewrite Hc).
    destruct r; cbn; by rewrite ?app_nil_r.
  - cbn. split_and!; [apply through_refl|done|done|]. intros _ _ i _. by rewrite app_nil_r.
  - pose proof (flush_buf_spec s out) as H. destruct (flush_buf s out) as [[s' out'] r].
    destruct H as (H1 & H2 & H3 & H4 & _). split_and!; [done..|]. intros _ _ i Hi. rewrite H4 by done. cbn. by rewrite app_nil_r.
Qed.

Lemma buffer_calls_spec record cs : forall s out,
  let '(s', out', rs) := buffer_calls record s out cs in
  through out.(inner) s s' /\ out'.(inner) = out.(inner) /\ out'.(capacity) = out.(capacity) /\
  (Forall (record_fits record) cs -> out.(capacity) = WRITE_BUFFER_BYTES -> forall i, out.(inner) = FileWriter i ->
    content s'.(fs) i ++ out'.(buf)
    = content s.(fs) i ++ out.(buf) ++ concat ((fun '(flow, enriched) => record flow enriched) <$> accepted cs rs)).
Proof.
  induction cs as [|c cs IH]; intros s out; cbn [buffer_calls].
  { split_and!; [apply through_refl|done|done|]. intros _ _ i _. by rewrite app_nil_r. }
  pose proof (buffer_call_spec record s out c) as H. destruct (buffer_call record s out c) as [[s1 o1] r].
  destruct H as (H1 & H2 & H3 & H4). specialize (IH s1 o1). destruct (buffer_calls record s1 o1 cs) as [[s2 o2] rs].
  destruct IH as (K1 & K2 & K3 & K4). rewrite H2 in K1, K2. rewrite H3 in K3.
  split_and!; [by eapply through_trans|done|done|]. intros [Hc Hcs]%Forall_cons Hcap i Hi.
  rewrite K4 by (done || by rewrite ?H2, ?H3). rewrite app_assoc, H4 by done.
  unfold accepted. cbn [zip_with concat]. by rewrite fmap_app, concat_app, <- !app_assoc.
Qed.

(** A file that was finished holds the records of the calls that succeeded. *)
Lemma buffer_file record s out cs s1 out1 rs s2 out2 i :
  out.(inner) = FileWriter i -> out.(capacity) = WRITE_BUFFER_BYTES -> Forall (record_fits record) cs ->
  buffer_calls record s out cs = (s1, out1, rs) -> flush_buf s1 out1 = (s2, out2, inl tt) ->
  through (FileWriter i) s s2 /\
  content s2.(fs) i = content s.(fs) i ++ out.(buf) ++ concat ((fun '(flow, enriched) => record flow enriched) <$> accepted cs rs).
Proof.
  intros Hi Hcap Hs E Ef. pose proof (buffer_calls_spec record cs s out) as H. rewrite E in H. destruct H as (H1 & H2 & H3 & H4).
  pose proof (flush_buf_spec s1 out1) as K. rewrite Ef in K. destruct K as (K1 & _ & _ & K4 & K5).
  rewrite H2 in K1, K4. rewrite Hi in *. split; [by eapply through_trans|].
  specialize (K4 i eq_refl). rewrite K5, app_nil_r in K4 by done. by rewrite K4, H4.
Qed.
End records.

(** ** Reading files back *)

Section reading.
Context `{CR : Crates} `{ST : Storage}.

Definition flow_type_of (text : bytes) : option FlowType :=
  List.find (fun t => bool_decide (flow_type_text t = text))
    [FlowType.NetflowV5; FlowType.NetflowV9; FlowType.Ipfix; FlowType.SflowV5].

(** An address of four octets or sixteen. *)
Definition ip_of (o : bytes) : option IpAddr :=
  if zlen o =? 4 then Some (V4 (be_value o)) else if zlen o =? 16 then Some (V6 (be_value o)) else None.

(** What is there, if it can be read. *)
Definition read_opt {A B} (read : A -> option B) (o : option A) : option (option B) :=
  match o with Some a => Some <$> read a | None => Some None end.

(** The flow a message says. *)
Definition flow_of (m : FlowMessage) : option CommonFlow :=
  flow_type ← flow_type_of m.(p_flow_type);
  sampler_address ← read_opt ip_of m.(p_sampler_address);
  src_addr ← read_opt ip_of m.(p_src_addr);
  dst_addr ← read_opt ip_of m.(p_dst_addr);
  next_hop ← read_opt ip_of m.(p_next_hop);
  bgp_next_hop ← read_opt ip_of m.(p_bgp_next_hop);
  Some (mkCommonFlow flow_type m.(p_time_received_ns) m.(p_sequence_num) m.(p_sampling_rate) sampler_address
    m.(p_time_flow_start_ns) m.(p_time_flow_end_ns) m.(p_bytes) m.(p_packets) src_addr dst_addr
    (MacAddr6_from <$> m.(p_src_mac)) (MacAddr6_from <$> m.(p_dst_mac)) m.(p_etype) m.(p_proto) m.(p_src_port)
    m.(p_dst_port) m.(p_in_if) m.(p_out_if) m.(p_ip_tos) m.(p_ip_ttl) m.(p_tcp_flags) m.(p_icmp_type) m.(p_icmp_code)
    m.(p_ipv6_flow_label) m.(p_fragment_id) m.(p_fragment_offset) m.(p_src_as) m.(p_dst_as) next_hop m.(p_src_net)
    m.(p_dst_net) bgp_next_hop m.(p_src_vlan) m.(p_dst_vlan) m.(p_observation_domain_id) m.(p_template_id)
    m.(p_forwarding_status)).

Lemma flow_type_of_text t : flow_type_of (flow_type_text t) = Some t.
Proof. by destruct t. Qed.

Lemma ip_of_bytes ip : kind_ok Kind.Ip (OfIp ip) -> ip_of (ip_bytes ip) = Some ip.
Proof.
  intros H. destruct ip as [a|a]; unfold ip_of, ip_bytes, kind_ok, fits_u in *; rewrite zlen_be_bytes.
  - by rewrite be_value_small.
  - rewrite be_value_small by done. by destruct (Z.eqb_spec (Z.of_nat 16) 4).
Qed.

Lemma read_ip (o : option IpAddr) :
  match OfIp <$> o with Some v => kind_ok Kind.Ip v | None => false = false end ->
  read_opt ip_of (ip_bytes <$> o) = Some o.
Proof. destruct o as [ip|]; [|done]. cbn -[ip_of ip_bytes]. intros H. by rewrite ip_of_bytes. Qed.

Lemma read_mac (o : option MacAddr6) : MacAddr6_from <$> (MacAddr6_as_bytes <$> o) = o.
Proof. destruct o as [m|]; [|done]. cbn. by rewrite MacAddr6_id. Qed.

(** A message says the flow it was made of. *)
Lemma flow_of_from_flow flow names enriched : flow_typed flow -> flow_of (from_flow flow names enriched) = Some flow.
Proof.
  intros H. unfold flow_typed, flow_fields, flow_values in H. unfold flow_of, from_flow.
  cbn [p_flow_type p_sampler_address p_src_addr p_dst_addr p_next_hop p_bgp_next_hop].
  repeat (apply Forall2_cons in H as [? H]).
  rewrite flow_type_of_text. cbn [mbind option_bind].
  rewrite !read_ip by assumption. cbn [mbind option_bind]. cbn. rewrite !read_mac. by destruct flow.
Qed.

Definition opt_ok (kind : Kind) (o : option Z) : Prop :=
  match OfNumber <$> o with Some v => kind_ok kind v | None => false = false end.

Lemma opt_fits (P : Z -> Prop) kind (o : option Z) l :
  (forall n, kind_ok kind (OfNumber n) -> P n) -> match OfNumber <$> o with Some v => kind_ok kind v | None => false = false end ->
  Forall P (omap id l) -> Forall P (omap id (o :: l)).
Proof. destruct o as [n|]; cbn; intros HP H Hl; [|done]. constructor; [by apply HP|done]. Qed.

Lemma fits_wider v w n : 0 <= v <= w -> fits_u v n -> fits_u w n.
Proof. intros Hv Hn. unfold fits_u in *. pose proof (Z.pow_le_mono_r 2 v w). lia. Qed.

Definition strings_ok (names : list bytes) (enriched : Enriched) : Prop :=
  Forall (fun name => utf8_valid name = true) names /\
  Forall (fun value => match value with Some v => utf8_valid v = true | None => True end) enriched.

Lemma enriched_map_ok names enriched :
  strings_ok names enriched ->
  map_Forall (fun name value => utf8_valid name = true /\ utf8_valid value = true) (enriched_map names enriched).
Proof.
  intros [Hn He]. unfold enriched_map, enriched_entries.
  assert (H0 : map_Forall (fun name value => utf8_valid name = true /\ utf8_valid value = true) (∅ : gmap bytes bytes))
    by apply map_Forall_empty.
  revert H0. generalize (∅ : gmap bytes bytes). revert enriched He.
  induction Hn as [|name names Hname Hnames IH]; intros enriched He m Hm; [done|].
  destruct He as [|value enriched Hvalue Henriched]; [done|]. cbn [zip zip_with omap list_omap].
  destruct value as [v|]; cbn; [|by apply IH]. apply IH; [done|]. by apply map_Forall_insert_2.
Qed.

Lemma from_flow_ok flow names enriched :
  flow_typed flow -> strings_ok names enriched -> message_ok (from_flow flow names enriched).
Proof.
  intros H Hs. unfold flow_typed, flow_fields, flow_values in H. unfold message_ok, from_flow.
  repeat (apply Forall2_cons in H as [? H]). cbn [fst snd] in *.
  split; [|split; [|split; [|split; [|split]]]].
  - repeat (eapply opt_fits; [|eassumption|]); [by intros n ?..|constructor].
  - constructor; [assumption|].
    repeat (eapply opt_fits; [|eassumption|]);
      try (intros n Hn; cbn in Hn; first [assumption | eapply fits_wider; [|exact Hn]; lia]).
    all: apply Forall_nil_2.
  - assumption.
  - assumption.
  - cbn. by destruct (cf_flow_type flow).
  - by apply enriched_map_ok.
Qed.

(** So many messages. *)
Fixpoint read_messages `{PB : Prost} (n : nat) (bs : bytes) : option (list FlowMessage * bytes) :=
  match n with
  | O => Some ([], bs)
  | Datatypes.S n =>
      '(m, bs) ← decode_length_delimited bs;
      '(ms, bs) ← read_messages n bs; Some (m :: ms, bs)
  end.

Lemma read_messages_concat `{PB : Prost} ms rest :
  Forall message_ok ms -> read_messages (length ms) (concat (encode_length_delimited <$> ms) ++ rest) = Some (ms, rest).
Proof.
  induction 1 as [|m ms Hm _ IH]; [done|]. rewrite fmap_cons. cbn [concat length read_messages].
  rewrite <- app_assoc, prost_law by done. cbn [mbind option_bind]. by rewrite IH.
Qed.

(** A call of an engine over these fields, with a record that fits the buffer. *)
Definition row_ok (fields : list bytes) (record : CommonFlow -> Enriched -> bytes) (c : call) : Prop :=
  record_fits record c /\
  match c with
  | CallEncode flow enriched => flow_typed flow /\ strings_ok fields enriched /\ length enriched = length fields
  | _ => True
  end.

Lemma accepted_ok (P : CommonFlow -> Enriched -> Prop) cs rs :
  Forall (fun c => match c with CallEncode flow enriched => P flow enriched | _ => True end) cs ->
  Forall (fun '(flow, enriched) => P flow enriched) (accepted cs rs).
Proof.
  unfold accepted. intros H. revert rs. induction H as [|c cs Hc _ IH]; intros rs; [constructor|].
  destruct rs as [|r rs]; [constructor|]. cbn [zip_with concat]. apply Forall_app. split; [|apply IH].
  destruct c, r; cbn; repeat constructor; done.
Qed.

Definition protobuf_record `{PB : Prost} (names : list bytes) (flow : CommonFlow) (enriched : Enriched) : bytes :=
  encode_length_delimited (from_flow flow names enriched).

Lemma Protobuf_calls_buffer `{PB : Prost} cs : forall s self,
  Protobuf_calls s self cs =
  let '(s, out, rs) := buffer_calls (protobuf_record self.(pb_names)) s self.(pb_out) cs in (s, mkProtobuf out self.(pb_names), rs).
Proof.
  induction cs as [|c cs IH]; intros s self; [by destruct self|]. cbn [Protobuf_calls buffer_calls].
  assert (E : Protobuf_call s self c =
    let '(s, out, r) := buffer_call (protobuf_record self.(pb_names)) s self.(pb_out) c in (s, mkProtobuf out self.(pb_names), r))
    by (destruct c; [done|by destruct self|done]).
  rewrite E. destruct (buffer_call _ _ _ _) as [[s1 out] r]. rewrite IH. cbn [pb_out pb_names].
  by destruct (buffer_calls _ _ _ _) as [[s2 out2] rs].
Qed.

(** C25: Whatever writes fail, a protobuf file that was finished consists of one
    message for each call that succeeded, in order, and each says the flow and
    the enrichment that were given. *)
Theorem protobuf_file_read `{PB : Prost} s i fields cs self s1 self1 rs s2 self2 :
  content s.(fs) i = [] -> Protobuf_open (FileWriter i) fields = inl self ->
  Forall (row_ok fields (protobuf_record fields)) cs ->
  Protobuf_calls s self cs = (s1, self1, rs) -> Protobuf_finish s1 self1 = (s2, self2, inl tt) ->
  through (FileWriter i) s s2 /\
  exists ms, read_messages (length (accepted cs rs)) (content s2.(fs) i) = Some (ms, []) /\
    mapM flow_of ms = Some (accepted cs rs).*1 /\
    p_enriched <$> ms = enriched_map fields <$> (accepted cs rs).*2.
Proof.
  intros H0 [= <-] Hok E Ef. rewrite Protobuf_calls_buffer in E. cbn [pb_out pb_names] in E.
  destruct (buffer_calls _ _ _ _) as [[s' out] rs'] eqn:Eb. injection E as -> <- ->.
  unfold Protobuf_finish, Protobuf_flush in Ef. cbn [pb_out pb_names] in Ef.
  destruct (flush_buf s1 out) as [[s'' out2] r] eqn:Efb. injection Ef as -> _ ->.
  destruct (buffer_file (protobuf_record fields) s (mkBuf (FileWriter i) WRITE_BUFFER_BYTES []) cs s1 out rs s2 out2 i)
    as [Ht Hc]; try done; [eapply Forall_impl; [exact Hok|]; by intros c []|].
  split; [done|]. rewrite H0 in Hc. cbn [app buf] in Hc.
  assert (Ha : Forall (fun '(flow, enriched) => flow_typed flow /\ strings_ok fields enriched) (accepted cs rs)).
  { apply (accepted_ok (fun flow enriched => flow_typed flow /\ strings_ok fields enriched)).
    eapply Forall_impl; [exact Hok|]. intros [] [_ H]; [|done..]. by destruct H as (? & ? & _). }
  exists ((fun '(flow, enriched) => from_flow flow fields enriched) <$> accepted cs rs). split_and!.
  - rewrite Hc. rewrite <- (length_fmap (fun '(flow, enriched) => from_flow flow fields enriched) (accepted cs rs)).
    rewrite <- (app_nil_r (concat _)).
    assert (Em : (fun '(flow, enriched) => protobuf_record fields flow enriched) <$> accepted cs rs
      = encode_length_delimited <$> ((fun '(flow, enriched) => from_flow flow fields enriched) <$> accepted cs rs)).
    { rewrite <- list_fmap_compose. apply list_fmap_ext. by intros _ [flow enriched] _. }
    rewrite Em. apply read_messages_concat. apply Forall_fmap. eapply Forall_impl; [exact Ha|].
    intros [flow enriched] [Hf Hs]. by apply from_flow_ok.
  - clear -Ha. induction Ha as [|[flow enriched] l [Hf _] _ IH]; [done|]. rewrite fmap_cons. cbn [mapM mbind option_bind].
    rewrite flow_of_from_flow by done. cbn. by rewrite IH.
  - rewrite <- !list_fmap_compose. apply list_fmap_ext. by intros _ [flow enriched] _.
Qed.

Definition csv_flow_record `{MT : !MacText} `{CT : CsvText} (flow : CommonFlow) (enriched : Enriched) : bytes :=
  csv_record (csv_row flow enriched).

Lemma csv_row_length `{MT : !MacText} flow enriched : length (csv_row flow enriched) = (38 + length enriched)%nat.
Proof. unfold csv_row, write_flow. rewrite length_app, !length_fmap. done. Qed.

Lemma Csv_calls_buffer `{MT : !MacText} `{CT : CsvText} cs : forall s self,
  Forall (fun c => match c with CallEncode _ enriched => (38 + length enriched)%nat = self.(csv_columns) | _ => True end) cs ->
  Csv_calls s self cs =
  let '(s, out, rs) := buffer_calls csv_flow_record s self.(csv_out) cs in Some (s, mkCsv out self.(csv_columns), rs).
Proof.
  induction cs as [|c cs IH]; intros s self H; [by destruct self|]. apply Forall_cons in H as [Hc Hcs].
  cbn [Csv_calls buffer_calls].
  assert (E : Csv_call s self c =
    let '(s, out, r) := buffer_call csv_flow_record s self.(csv_out) c in Some (s, mkCsv out self.(csv_columns), r)).
  { destruct c as [flow enriched|raw|].
    - cbn [Csv_call buffer_call]. unfold Csv_encode, csv_write_record.
      rewrite bool_decide_eq_true_2 by by rewrite csv_row_length.
      fold (csv_flow_record flow enriched). by destruct (buf_write_all _ _ _) as [[? ?] ?].
    - by destruct self.
    - cbn [Csv_call buffer_call]. unfold Csv_flush. by destruct (flush_buf _ _) as [[? ?] ?]. }
  rewrite E. destruct (buffer_call _ _ _ _) as [[s1 out] r]. cbn [mbind option_bind]. rewrite IH by done.
  cbn [csv_out csv_columns]. by destruct (buffer_calls _ _ _ _) as [[s2 out2] rs].
Qed.

(** A CSV file that was opened and finished reads back as the header row and a
    row for each call that succeeded, in order, whatever writes failed. *)
Theorem csv_file_read `{MT : !MacText} `{CT : CsvText} s i fields cs s1 self :
  content s.(fs) i = [] -> zlen (csv_record (csv_header fields)) < WRITE_BUFFER_BYTES ->
  Forall (fun c => record_fits csv_flow_record c /\
    match c with CallEncode _ enriched => length enriched = length fields | _ => True end) cs ->
  Csv_open s (FileWriter i) fields = (s1, inl self) ->
  exists s2 self2 rs, Csv_calls s1 self cs = Some (s2, self2, rs) /\
    forall s3 self3, Csv_finish s2 self2 = (s3, self3, inl tt) ->
      through (FileWriter i) s s3 /\
      csv_read (content s3.(fs) i)
      = Some (csv_header fields :: ((fun '(flow, enriched) => csv_row flow enriched) <$> accepted cs rs)).
Proof.
  intros H0 Hh Hok Eo. unfold Csv_open, csv_write_record in Eo. cbn [csv_out csv_columns] in Eo.
  pose proof (buf_write_all_spec s (mkBuf (FileWriter i) WRITE_BUFFER_BYTES []) (csv_record (csv_header fields))) as Hw.
  destruct (buf_write_all _ _ _) as [[s0 out0] [ [] |e]]; [|done]. injection Eo as <- <-. destruct Hw as (W1 & W2 & W3 & W4).
  assert (Hlen : length (csv_header fields) = (38 + length fields)%nat) by (unfold csv_header; by rewrite length_app).
  rewrite Csv_calls_buffer.
  2: { eapply Forall_impl; [exact Hok|]. intros [flow enriched|raw|] [_ H]; [|done..]. rewrite H. exact (eq_sym Hlen). }
  cbn [csv_out csv_columns]. destruct (buffer_calls _ _ _ _) as [[s2 out] rs] eqn:Eb. do 3 eexists. split; [done|].
  intros s3 self3 Ef. unfold Csv_finish, Csv_flush in Ef. cbn [csv_out csv_columns] in Ef.
  destruct (flush_buf s2 out) as [[s4 out4] r] eqn:Efb. injection Ef as -> _ ->.
  destruct (buffer_file csv_flow_record s0 out0 cs s2 out rs s3 out4 i) as [Ht Hc]; try done.
  { eapply Forall_impl; [exact Hok|]. by intros c []. }
  split; [by eapply through_trans|]. rewrite app_assoc, (W4 Hh i eq_refl) in Hc. rewrite H0 in Hc. cbn [app buf] in Hc. rewrite Hc.
  set (rows := (fun '(flow, enriched) => csv_row flow enriched) <$> accepted cs rs).
  assert (E : csv_record (csv_header fields) ++ concat ((fun '(flow, enriched) => csv_flow_record flow enriched) <$> accepted cs rs)
    = concat (csv_record <$> (csv_header fields :: rows))).
  { rewrite fmap_cons. cbn [concat]. unfold rows. rewrite <- list_fmap_compose. do 2 f_equal.
    apply list_fmap_ext. by intros _ [flow enriched] _. }
  rewrite E. apply (csv_law (38 + length fields)); [lia| |done].
  constructor; [done|]. unfold rows. apply Forall_fmap.
  assert (Ha : Forall (fun '(flow, enriched) => length enriched = length fields) (accepted cs rs)).
  { apply (accepted_ok (fun _ enriched => length enriched = length fields)).
    eapply Forall_impl; [exact Hok|]. by intros [] [_ H]. }
  eapply Forall_impl; [exact Ha|]. intros [flow enriched] H. change (length (csv_row flow enriched) = (38 + length fields)%nat). by rewrite csv_row_length, H.
Qed.
End reading.

(** ** The text of records *)

Module CsvStd.
Definition QUOTE : byte := x22.
Definition COMMA : byte := x2c.
Definition NEWLINE : byte := x0a.

Definition special (b : byte) : bool :=
  bool_decide (b = QUOTE) || bool_decide (b = COMMA) || bool_decide (b = NEWLINE) || bool_decide (b = x0d).

Definition escaped (field : bytes) : bytes := concat ((fun b => if bool_decide (b = QUOTE) then [QUOTE; QUOTE] else [b]) <$> field).

Definition field_text (field : bytes) : bytes :=
  if existsb special field then QUOTE :: escaped field ++ [QUOTE] else field.

Fixpoint record_text (fields : list bytes) : bytes :=
  match fields with
  | [] => [NEWLINE]
  | [field] => field_text field ++ [NEWLINE]
  | field :: fields => field_text field ++ COMMA :: record_text fields
  end.

Inductive State := FieldStart | InField | InQuotes | AfterQuote.

(** The records of octets, from inside one. *)
Fixpoint rows_from (st : State) (field : bytes) (row : list bytes) (bs : bytes) : option (list (list bytes)) :=
  match bs with
  | [] => match st, row with FieldStart, [] => Some [] | _, _ => None end
  | b :: bs =>
      match st with
      | InQuotes => if bool_decide (b = QUOTE) then rows_from AfterQuote field row bs else rows_from InQuotes (field ++ [b]) row bs
      | _ =>
          if bool_decide (b = COMMA) then rows_from FieldStart [] (row ++ [field]) bs
          else if bool_decide (b = NEWLINE) then ((row ++ [field]) ::.) <$> rows_from FieldStart [] [] bs
          else match st, bool_decide (b = QUOTE) with
               | FieldStart, true => rows_from InQuotes field row bs
               | AfterQuote, true => rows_from InQuotes (field ++ [QUOTE]) row bs
               | InField, true | AfterQuote, false => None
               | _, _ => rows_from InField (field ++ [b]) row bs
               end
      end
  end.

Lemma plain_rows field bs : forall st acc row,
  existsb special field = false -> st = FieldStart \/ st = InField ->
  rows_from st acc row (field ++ bs) = rows_from (if field is [] then st else InField) (acc ++ field) row bs.
Proof.
  induction field as [|b field IH]; intros st acc row H Hst; [by rewrite app_nil_r|].
  cbn [existsb] in H. apply orb_false_iff in H as [Hb H]. unfold special in Hb. rewrite !orb_false_iff in Hb.
  destruct Hb as [[[Hq Hc] Hn] _].
  assert (E : rows_from st acc row ((b :: field) ++ bs) = rows_from InField (acc ++ [b]) row (field ++ bs)).
  { cbn [app rows_from]. rewrite Hq, Hc, Hn. by destruct Hst as [-> | ->]. }
  rewrite E, IH by auto. rewrite <- app_assoc. by destruct field.
Qed.

Lemma quoted_rows field bs : forall acc row,
  rows_from InQuotes acc row (escaped field ++ QUOTE :: bs) = rows_from AfterQuote (acc ++ field) row bs.
Proof.
  induction field as [|b field IH]; intros acc row; [by rewrite app_nil_r|].
  unfold escaped. rewrite fmap_cons. cbn [concat]. rewrite <- app_assoc.
  change (concat _) with (escaped field). destruct (bool_decide_reflect (b = QUOTE)) as [->|Hb].
  - change ([QUOTE; QUOTE] ++ ?l) with (QUOTE :: QUOTE :: l). cbn [rows_from]. cbn. rewrite IH, <- app_assoc. done.
  - change ([b] ++ ?l) with (b :: l). cbn [rows_from]. rewrite bool_decide_eq_false_2 by done.
    rewrite IH, <- app_assoc. done.
Qed.

(** A field, and what ends it. *)
Lemma field_rows field sep bs row :
  sep = COMMA \/ sep = NEWLINE ->
  exists st, (st = FieldStart \/ st = InField \/ st = AfterQuote) /\
    rows_from FieldStart [] row (field_text field ++ sep :: bs) = rows_from st field row (sep :: bs).
Proof.
  intros _. unfold field_text. destruct (existsb special field) eqn:E.
  - exists AfterQuote. split; [auto|]. cbn [app rows_from]. cbn. rewrite <- app_assoc. cbn [app]. by rewrite quoted_rows.
  - rewrite plain_rows by auto. eexists. split; [|reflexivity]. destruct field; auto.
Qed.

Lemma record_rows fields bs : forall row, fields <> [] ->
  rows_from FieldStart [] row (record_text fields ++ bs) = ((row ++ fields) ::.) <$> rows_from FieldStart [] [] bs.
Proof.
  induction fields as [|field fields IH]; intros row H; [done|]. destruct fields as [|next fields].
  - cbn [record_text]. rewrite <- app_assoc. destruct (field_rows field NEWLINE bs row ltac:(auto)) as (st & Hst & E).
    change ([NEWLINE] ++ bs) with (NEWLINE :: bs). rewrite E. by destruct Hst as [->|[->| ->]].
  - cbn [record_text]. rewrite <- app_assoc. cbn [app]. destruct (field_rows field COMMA (record_text (next :: fields) ++ bs) row ltac:(auto)) as (st & Hst & E).
    cbn [record_text] in E. rewrite E. transitivity (rows_from FieldStart [] (row ++ [field]) (record_text (next :: fields) ++ bs)).
    + by destruct Hst as [->|[->| ->]].
    + rewrite IH by done. by rewrite <- app_assoc.
Qed.

Lemma rows_all rows : Forall (fun row => row <> []) rows ->
  rows_from FieldStart [] [] (concat (record_text <$> rows)) = Some rows.
Proof. induction 1 as [|row rows Hr _ IH]; [done|]. rewrite fmap_cons. cbn [concat]. rewrite record_rows by done. by rewrite IH. Qed.
End CsvStd.

Definition csv_std : CsvText.
Proof.
  refine {| csv_record := CsvStd.record_text; csv_read := CsvStd.rows_from CsvStd.FieldStart [] [] |}.
  intros n rows Hn H _. apply CsvStd.rows_all. eapply Forall_impl; [exact H|]. intros row Hr ->. cbn in Hr. lia.
Defined.

(** ** The octets of messages *)

Module ProstStd.
(** Numbers in groups of seven bits, the least first. *)
Fixpoint put_varint (groups : nat) (n : Z) : bytes :=
  match groups with
  | O => [byte_of n]
  | Datatypes.S groups => if n <? 128 then [byte_of n] else byte_of (128 + n mod 128) :: put_varint groups (n / 128)
  end.

Definition varint (n : Z) : bytes := put_varint (Z.to_nat (Z.log2 n) + 1) n.

Fixpoint read_varint (bs : bytes) : option (Z * bytes) :=
  match bs with
  | [] => None
  | b :: bs =>
      if u8_of b <? 128 then Some (u8_of b, bs)
      else '(n, bs) ← read_varint bs; Some (u8_of b - 128 + 128 * n, bs)
  end.

Inductive Wire := Varint (n : Z) | Octets (bs : bytes).

Definition field_bytes (field : Z * Wire) : bytes :=
  match field with
  | (tag, Varint n) => varint (tag * 8) ++ varint n
  | (tag, Octets bs) => varint (tag * 8 + 2) ++ varint (zlen bs) ++ bs
  end.

Definition fields_bytes (fields : list (Z * Wire)) : bytes := concat (field_bytes <$> fields).

Fixpoint read_fields_fuel (fuel : nat) (bs : bytes) : option (list (Z * Wire)) :=
  match bs, fuel with
  | [], _ => Some []
  | _, O => None
  | _, Datatypes.S fuel =>
      '(key, bs) ← read_varint bs;
      '(n, bs) ← read_varint bs;
      if key mod 8 =? 0 then ((key / 8, Varint n) ::.) <$> read_fields_fuel fuel bs
      else if (key mod 8 =? 2) && (n <=? zlen bs)
      then ((key / 8, Octets (take (Z.to_nat n) bs)) ::.) <$> read_fields_fuel fuel (drop (Z.to_nat n) bs)
      else None
  end.

Definition read_fields (bs : bytes) : option (list (Z * Wire)) := read_fields_fuel (length bs) bs.

Definition wire_ok (field : Z * Wire) : Prop :=
  0 <= field.1 /\ match field.2 with Varint n => 0 <= n | Octets _ => True end.

Lemma read_put_varint groups rest : forall n, 0 <= n < 128 ^ Z.of_nat groups ->
  read_varint (put_varint groups n ++ rest) = Some (n, rest).
Proof.
  induction groups as [|groups IH]; intros n Hn.
  { change (128 ^ Z.of_nat 0) with 1 in Hn. by replace n with 0 by lia. }
  rewrite Nat2Z.inj_succ, Z.pow_succ_r in Hn by lia. cbn [put_varint]. destruct (Z.ltb_spec n 128) as [H|H].
  - cbn [app read_varint]. rewrite u8_of_byte_of, Z.mod_small by lia. by rewrite (proj2 (Z.ltb_lt n 128)) by lia.
  - pose proof (Z.mod_pos_bound n 128 ltac:(lia)). cbn [app read_varint]. rewrite u8_of_byte_of, Z.mod_small by lia.
    rewrite (proj2 (Z.ltb_ge (128 + n mod 128) 128)) by lia.
    rewrite IH by (split; [apply Z.div_pos|apply Z.div_lt_upper_bound]; lia). cbn [mbind option_bind].
    do 2 f_equal. pose proof (Z.div_mod n 128). lia.
Qed.

Lemma varint_read n rest : 0 <= n -> read_varint (varint n ++ rest) = Some (n, rest).
Proof.
  intros Hn. apply read_put_varint. split; [done|]. pose proof (Z.log2_nonneg n).
  destruct (decide (n = 0)) as [->|H0]; [done|]. pose proof (Z.log2_spec n ltac:(lia)).
  rewrite Nat2Z.inj_add, Z2Nat.id by lia. change 128 with (2 ^ 7). rewrite <- Z.pow_mul_r by lia.
  eapply Z.lt_le_trans; [apply H1|]. apply Z.pow_le_mono_r; lia.
Qed.

Lemma varint_nonempty n : exists b bs, varint n = b :: bs.
Proof. unfold varint. rewrite Nat.add_1_r. cbn [put_varint]. by destruct (n <? 128); eexists _, _. Qed.

Lemma read_fields_fuel_bytes fields fuel : Forall wire_ok fields -> (length fields <= fuel)%nat ->
  read_fields_fuel fuel (fields_bytes fields) = Some fields.
Proof.
  intros H. revert fuel. induction H as [|[tag v] fields [Ht Hv] _ IH]; intros fuel Hf; [by destruct fuel|].
  destruct fuel as [|fuel]; [cbn in Hf; lia|]. cbn [length] in Hf. unfold fields_bytes. rewrite fmap_cons. cbn [concat].
  change (concat _) with (fields_bytes fields). cbn [fst snd] in *.
  assert (Hkey : forall k, 0 <= k < 8 -> (tag * 8 + k) mod 8 = k /\ (tag * 8 + k) / 8 = tag).
  { intros k Hk. rewrite Z.add_comm, Z.mod_add, Z.div_add by lia. rewrite Z.mod_small, Z.div_small by lia. lia. }
  destruct v as [n|bs]; cbn [field_bytes].
  - destruct (varint_nonempty (tag * 8)) as (b & l & E). rewrite <- app_assoc.
    pose proof (varint_read (tag * 8) (varint n ++ fields_bytes fields) ltac:(lia)) as R.
    rewrite E in R |- *. cbn [app read_fields_fuel] in *. rewrite R. cbn [mbind option_bind]. rewrite varint_read by lia.
    cbn [mbind option_bind]. destruct (Hkey 0 ltac:(lia)) as [E1 E2]. rewrite Z.add_0_r in E1, E2. rewrite E1, E2.
    cbn. by rewrite IH by lia.
  - pose proof (zlen_nonneg bs) as Hz. destruct (varint_nonempty (tag * 8 + 2)) as (b & l & E). rewrite <- !app_assoc.
    pose proof (varint_read (tag * 8 + 2) (varint (zlen bs) ++ bs ++ fields_bytes fields) ltac:(lia)) as R.
    rewrite E in R |- *. cbn [app read_fields_fuel] in *. rewrite R. cbn [mbind option_bind]. rewrite varint_read by lia.
    cbn [mbind option_bind]. destruct (Hkey 2 ltac:(lia)) as [E1 E2]. rewrite E1, E2. cbn [Z.eqb Pos.eqb andb].
    rewrite (proj2 (Z.leb_le _ _)) by (rewrite zlen_app; pose proof (zlen_nonneg (fields_bytes fields)); lia).
    unfold zlen. rewrite Nat2Z.id, take_app_length, drop_app_length. by rewrite IH by lia.
Qed.

Lemma read_fields_bytes fields : Forall wire_ok fields -> read_fields (fields_bytes fields) = Some fields.
Proof.
  intros H. apply read_fields_fuel_bytes; [done|]. clear. induction fields as [|[tag v] fields IH]; [done|].
  unfold fields_bytes in *. rewrite fmap_cons. cbn [concat]. rewrite length_app. cbn [length].
  enough (1 <= length (field_bytes (tag, v)))%nat by lia.
  destruct v as [n|bs]; cbn [field_bytes]; [destruct (varint_nonempty (tag * 8)) as (b & l & ->)
    |destruct (varint_nonempty (tag * 8 + 2)) as (b & l & ->)]; cbn; lia.
Qed.

(** The values that are there, numbered. *)
Fixpoint tagged (tag : Z) (vs : list (option Wire)) : list (Z * Wire) :=
  match vs with
  | [] => []
  | Some v :: vs => (tag, v) :: tagged (tag + 1) vs
  | None :: vs => tagged (tag + 1) vs
  end.

Fixpoint field (tag : Z) (fields : list (Z * Wire)) : option Wire :=
  match fields with [] => None | (t, v) :: fields => if t =? tag then Some v else field tag fields end.

Lemma field_above tag fields : Forall (fun f => tag < f.1) fields -> field tag fields = None.
Proof. induction 1 as [|[t v] fields Ht _ IH]; [done|]. cbn in *. by rewrite (proj2 (Z.eqb_neq _ _)) by lia. Qed.

Lemma tagged_above vs : forall tag, Forall (fun f => tag <= f.1) (tagged tag vs).
Proof.
  induction vs as [|[v|] vs IH]; intros tag; cbn [tagged]; [constructor| |].
  - constructor; [cbn; lia|]. eapply Forall_impl; [apply IH|]. intros f Hf. cbn in Hf. lia.
  - eapply Forall_impl; [apply IH|]. intros f Hf. cbn in Hf. lia.
Qed.

Lemma field_tagged vs rest : forall tag i, Forall (fun f => tag + zlen vs <= f.1) rest -> (i < length vs)%nat ->
  field (tag + Z.of_nat i) (tagged tag vs ++ rest) = default None (vs !! i).
Proof.
  induction vs as [|v vs IH]; intros tag i Hr Hi; [cbn in Hi; lia|]. rewrite zlen_cons in Hr. cbn [length] in Hi.
  assert (Hr' : Forall (fun f => tag + 1 + zlen vs <= f.1) rest) by (eapply Forall_impl; [exact Hr|]; cbn; intros; lia).
  pose proof (zlen_nonneg vs). destruct i as [|i].
  - rewrite Z.add_0_r. cbn [lookup list_lookup default]. destruct v as [v|]; cbn [tagged app field].
    + by rewrite Z.eqb_refl.
    + apply field_above, Forall_app. split; (eapply Forall_impl; [first [apply tagged_above|exact Hr']|]); cbn; intros; lia.
  - change ((v :: vs) !! Datatypes.S i) with (vs !! i). rewrite <- (IH (tag + 1) i Hr') by lia.
    replace (tag + Z.of_nat (Datatypes.S i)) with (tag + 1 + Z.of_nat i) by lia.
    destruct v as [v|]; cbn [tagged app field]; [|done]. by rewrite (proj2 (Z.eqb_neq _ _)) by lia.
Qed.

Lemma tagged_ok vs : forall tag, 0 <= tag ->
  Forall (fun v => match v with Some (Varint n) => 0 <= n | _ => True end) vs -> Forall wire_ok (tagged tag vs).
Proof.
  induction vs as [|v vs IH]; intros tag Ht H; [constructor|]. apply Forall_cons in H as [Hv H].
  destruct v as [v|]; cbn [tagged]; [constructor; [by split|]|]; (apply IH; [lia|done]).
Qed.

(** The values of the types, which are left out when they are the default. *)
Definition number (o : option Z) : option Wire := Varint <$> o.
Definition signed (o : option Z) : option Wire := (fun n => Varint (wrap 64 n)) <$> o.
Definition plain (n : Z) : option Wire := if n =? 0 then None else Some (Varint n).
Definition octets (o : option bytes) : option Wire := Octets <$> o.
Definition text (s : bytes) : option Wire := match s with [] => None | _ => Some (Octets s) end.

Definition number_of (v : option Wire) : option Z := match v with Some (Varint n) => Some n | _ => None end.
Definition signed_of (v : option Wire) : option Z := to_signed 64 <$> number_of v.
Definition plain_of (v : option Wire) : Z := default 0 (number_of v).
Definition octets_of (v : option Wire) : option bytes := match v with Some (Octets bs) => Some bs | _ => None end.
Definition text_of (v : option Wire) : bytes := default [] (octets_of v).

Definition message_values (m : FlowMessage) : list (option Wire) :=
  [text m.(p_flow_type); signed m.(p_time_received_ns); plain m.(p_sequence_num); number m.(p_sampling_rate);
   octets m.(p_sampler_address); signed m.(p_time_flow_start_ns); signed m.(p_time_flow_end_ns); plain m.(p_bytes);
   plain m.(p_packets); octets m.(p_src_addr); octets m.(p_dst_addr); octets m.(p_src_mac); octets m.(p_dst_mac);
   number m.(p_etype); number m.(p_proto); number m.(p_src_port); number m.(p_dst_port); number m.(p_in_if); number
   m.(p_out_if); number m.(p_ip_tos); number m.(p_ip_ttl); number m.(p_tcp_flags); number m.(p_icmp_type); number
   m.(p_icmp_code); number m.(p_ipv6_flow_label); number m.(p_fragment_id); number m.(p_fragment_offset); number
   m.(p_src_as); number m.(p_dst_as); octets m.(p_next_hop); number m.(p_src_net); number m.(p_dst_net); octets
   m.(p_bgp_next_hop); number m.(p_src_vlan); number m.(p_dst_vlan); number m.(p_observation_domain_id); number
   m.(p_template_id); number m.(p_forwarding_status)].

Definition entry_field (entry : bytes * bytes) : Z * Wire := (39, Octets (fields_bytes (tagged 1 [text entry.1; text entry.2]))).

Definition entry_of (f : Z * Wire) : option (bytes * bytes) :=
  match f with
  | (39, Octets bs) => fields ← read_fields bs; Some (text_of (field 1 fields), text_of (field 2 fields))
  | _ => None
  end.

Definition message_fields (m : FlowMessage) : list (Z * Wire) :=
  tagged 1 (message_values m) ++ (entry_field <$> map_to_list m.(p_enriched)).

Definition message_of (fields : list (Z * Wire)) : FlowMessage :=
  let v tag := field tag fields in
  mkMessage (text_of (v 1)) (signed_of (v 2)) (plain_of (v 3)) (number_of (v 4)) (octets_of (v 5)) (signed_of (v 6))
    (signed_of (v 7)) (plain_of (v 8)) (plain_of (v 9)) (octets_of (v 10)) (octets_of (v 11)) (octets_of (v 12))
    (octets_of (v 13)) (number_of (v 14)) (number_of (v 15)) (number_of (v 16)) (number_of (v 17)) (number_of (v
    18)) (number_of (v 19)) (number_of (v 20)) (number_of (v 21)) (number_of (v 22)) (number_of (v 23)) (number_of
    (v 24)) (number_of (v 25)) (number_of (v 26)) (number_of (v 27)) (number_of (v 28)) (number_of (v 29))
    (octets_of (v 30)) (number_of (v 31)) (number_of (v 32)) (octets_of (v 33)) (number_of (v 34)) (number_of (v
    35)) (number_of (v 36)) (number_of (v 37)) (number_of (v 38))
    (list_to_map (omap entry_of fields)).

Lemma number_number o : number_of (number o) = o.
Proof. by destruct o. Qed.

Lemma signed_signed o : Forall (fits_i 64) (omap id [o]) -> signed_of (signed o) = o.
Proof.
  destruct o as [n|]; [|done]. cbn. intros [Hn _]%Forall_cons. f_equal. by apply to_signed_wrap.
Qed.

Lemma plain_plain n : plain_of (plain n) = n.
Proof. unfold plain. by destruct (Z.eqb_spec n 0) as [->|]. Qed.

Lemma octets_octets o : octets_of (octets o) = o.
Proof. by destruct o. Qed.

Lemma text_text s : text_of (text s) = s.
Proof. by destruct s. Qed.

Lemma entry_entry entry : entry_of (entry_field entry) = Some entry.
Proof.
  destruct entry as [name value]. unfold entry_field, entry_of. cbn [fst snd].
  rewrite read_fields_bytes by (apply tagged_ok; [lia|]; constructor; [by destruct name|]; constructor; [by destruct value|done]).
  cbn [mbind option_bind]. pose proof (field_tagged [text name; text value] [] 1 0 (Forall_nil_2 _) ltac:(cbn; lia)) as H1.
  pose proof (field_tagged [text name; text value] [] 1 1 (Forall_nil_2 _) ltac:(cbn; lia)) as H2.
  rewrite app_nil_r in H1, H2. cbn [lookup list_lookup default id] in H1, H2.
  change (1 + Z.of_nat 0) with 1 in H1. change (1 + Z.of_nat 1) with 2 in H2. by rewrite H1, H2, !text_text.
Qed.

Lemma tagged_no_entry vs : forall tag, tag + zlen vs <= 39 -> omap entry_of (tagged tag vs) = [].
Proof.
  induction vs as [|v vs IH]; intros tag H; [done|]. rewrite zlen_cons in H. pose proof (zlen_nonneg vs).
  assert (E : forall w, entry_of (tag, w) = None).
  { intros w. unfold entry_of. destruct tag as [|t|t]; [done| |done].
    destruct (decide (t = 39%positive)) as [->|Ht]; [lia|]. repeat (destruct t as [t|t|]; try done). }
  destruct v as [v|]; cbn [tagged omap list_omap]; [rewrite E|]; apply IH; lia.
Qed.

Lemma message_fields_ok m : message_ok m -> Forall wire_ok (message_fields m).
Proof.
  intros (Hi & Hu & Hb & Hp & _). unfold message_fields. apply Forall_app. split.
  - apply tagged_ok; [lia|].
    assert (Hn : forall o l, Forall (fits_u 32) (omap id (o :: l)) ->
      match number o with Some (Varint n) => 0 <= n | _ => True end /\ Forall (fits_u 32) (omap id l)).
    { intros [n|] l H; [|done]. apply Forall_cons in H as [[H _] Hl]. by split. }
    assert (Hs : forall o, match signed o with Some (Varint n) => 0 <= n | _ => True end).
    { intros [n|]; [|done]. cbn. unfold wrap. apply Z.mod_pos_bound. done. }
    assert (Hz : forall w n, fits_u w n -> match plain n with Some (Varint n) => 0 <= n | _ => True end).
    { intros w n [H _]. unfold plain. by destruct (n =? 0). }
    assert (Ho : forall o, match octets o with Some (Varint n) => 0 <= n | _ => True end) by by intros [].
    assert (Ht : forall s, match text s with Some (Varint n) => 0 <= n | _ => True end) by by intros [].
    apply Forall_cons in Hu as [H32 Hu]. unfold message_values.
    repeat (apply Hn in Hu as [? Hu]).
    repeat (apply Forall_cons; split); first [assumption | apply Ht | apply Hs | apply Ho | eapply Hz; eassumption | apply Forall_nil_2].
  - apply Forall_fmap. apply Forall_forall. intros entry _. by split; [cbn; lia|].
Qed.

Lemma message_of_fields m : message_ok m -> message_of (message_fields m) = m.
Proof.
  intros (Hi & _). unfold message_of. cbv zeta.
  assert (Hf : forall i, (i < 38)%nat -> field (1 + Z.of_nat i) (message_fields m) = default None (message_values m !! i)).
  { intros i H. apply field_tagged; [|done]. apply Forall_fmap, Forall_forall. intros entry _. done. }
  assert (He : list_to_map (omap entry_of (message_fields m)) = m.(p_enriched)).
  { unfold message_fields. rewrite omap_app, tagged_no_entry by done. cbn [app].
    assert (E : omap entry_of (entry_field <$> map_to_list m.(p_enriched)) = map_to_list m.(p_enriched)).
    { induction (map_to_list m.(p_enriched)) as [|entry l IH]; [done|]. rewrite fmap_cons. cbn [omap list_omap].
      rewrite entry_entry. by rewrite IH. }
    rewrite E. apply list_to_map_to_list. }
  rewrite He. clear He.
  do 38 (match goal with |- context [field ?z (message_fields m)] => 
    let n := eval cbv in (Z.to_nat (z - 1)) in
    let H := fresh in pose proof (Hf n ltac:(lia)) as H;
    change (1 + Z.of_nat n) with z in H; cbn [message_values lookup list_lookup default id] in H; rewrite H; clear H end).
  rewrite !number_number, !plain_plain, !octets_octets, !text_text.
  assert (Hs : forall o l, Forall (fits_i 64) (omap id (o :: l)) -> signed_of (signed o) = o /\ Forall (fits_i 64) (omap id l)).
  { intros [n|] l H; [|done]. apply Forall_cons in H as [H Hl]. split; [|done]. apply signed_signed. apply Forall_cons. by split; [|apply Forall_nil_2]. }
  apply Hs in Hi as [-> Hi]. apply Hs in Hi as [-> Hi]. apply Hs in Hi as [-> _]. by destruct m.
Qed.

Definition put_message (m : FlowMessage) : bytes :=
  let bs := fields_bytes (message_fields m) in varint (zlen bs) ++ bs.

Definition read_message (bs : bytes) : option (FlowMessage * bytes) :=
  '(n, bs) ← read_varint bs;
  if n <=? zlen bs then
    fields ← read_fields (take (Z.to_nat n) bs); Some (message_of fields, drop (Z.to_nat n) bs)
  else None.

Lemma read_put_message m rest : message_ok m -> read_message (put_message m ++ rest) = Some (m, rest).
Proof.
  intros H. unfold read_message, put_message. rewrite <- app_assoc, varint_read by apply zlen_nonneg. cbn [mbind option_bind].
  rewrite (proj2 (Z.leb_le _ _)) by (rewrite zlen_app; pose proof (zlen_nonneg rest); lia).
  unfold zlen. rewrite Nat2Z.id, take_app_length, drop_app_length, read_fields_bytes by by apply message_fields_ok.
  cbn [mbind option_bind]. by rewrite message_of_fields.
Qed.
End ProstStd.

Definition prost_std : Prost := {|
  encode_length_delimited := ProstStd.put_message;
  decode_length_delimited := ProstStd.read_message;
  prost_law := ProstStd.read_put_message;
|}.

(** ** Samples *)

From S2P Require SinkSamples.
#[local] Open Scope Z_scope.

Section samples.
#[local] Existing Instance SinkSamples.sample_crates.
#[local] Existing Instance SinkSamples.sample_calendar.
#[local] Existing Instance SinkSamples.sample_storage.
#[local] Existing Instance csv_std.
#[local] Existing Instance prost_std.
#[local] Instance sample_mac_text : MacText := fun mac => show (be_value (MacAddr6_as_bytes mac)).

(** A flow with addresses and times, and a value that needs quoting. *)
Definition row_flow : CommonFlow :=
  mkCommonFlow FlowType.Ipfix (Some (-1)) 7 (Some 1000) (Some (V4 3232235777)) (Some 1_787_832_000_000_000_000) None 1500 1
    (Some (V6 42)) None (Some (MacAddr6_from (be_bytes 6 258))) None (Some 0x86dd) (Some 6) (Some 443) None None None None None
    None None None None None None None None None None None None None None None (Some 256) None.

Definition row_calls : list call :=
  [CallEncode row_flow [Some (str "a,b")]; CallFlush; CallRaw (str "raw"); CallEncode default_flow [None]].

Lemma protobuf_file_read_witness : exists s1 self1 rs s2 self2,
  Protobuf_calls SinkSamples.sample_sys (mkProtobuf (mkBuf (FileWriter 9) WRITE_BUFFER_BYTES []) [str "site"]) row_calls = (s1, self1, rs) /\
  Protobuf_finish s1 self1 = (s2, self2, inl tt) /\
  exists ms, read_messages (length (accepted row_calls rs)) (content s2.(fs) 9) = Some (ms, []) /\
    mapM flow_of ms = Some (accepted row_calls rs).*1 /\
    p_enriched <$> ms = enriched_map [str "site"] <$> (accepted row_calls rs).*2.
Proof.
  set (self := mkProtobuf (mkBuf (FileWriter 9) WRITE_BUFFER_BYTES []) [str "site"]).
  destruct (Protobuf_calls SinkSamples.sample_sys self row_calls) as [[s1 self1] rs] eqn:Ec.
  destruct (Protobuf_finish s1 self1) as [[s2 self2] r] eqn:Ef.
  assert (Hr : r = inl tt).
  { assert (H : (let '(s1, self1, _) := Protobuf_calls SinkSamples.sample_sys self row_calls in (Protobuf_finish s1 self1).2) = inl tt)
      by (vm_compute; reflexivity).
    rewrite Ec, Ef in H. exact H. }
  subst r. exists s1, self1, rs, s2, self2. split; [done|]. split; [done|].
  apply (protobuf_file_read SinkSamples.sample_sys 9 [str "site"] row_calls self s1 self1 rs s2 self2); [done|done| |done|done].
  assert (Hf : Forall flow_typed [row_flow; default_flow]).
  { apply (bool_decide_unpack _). vm_compute. exact I. }
  apply Forall_cons in Hf as [Hf1 Hf]. apply Forall_cons in Hf as [Hf _].
  repeat (apply Forall_cons; split); [split; [vm_compute; reflexivity|]|by split..|split; [vm_compute; reflexivity|]|by apply Forall_nil_2];
    (split; [assumption|split; [split; repeat constructor|reflexivity]]).
Defined.

Lemma csv_file_read_witness : exists s1 self s2 self2 rs,
  Csv_open SinkSamples.sample_sys (FileWriter 9) [str "site"] = (s1, inl self) /\
  Csv_calls s1 self row_calls = Some (s2, self2, rs) /\
  forall s3 self3, Csv_finish s2 self2 = (s3, self3, inl tt) ->
    csv_read (content s3.(fs) 9)
    = Some (csv_header [str "site"] :: ((fun '(flow, enriched) => csv_row flow enriched) <$> accepted row_calls rs)).
Proof.
  destruct (Csv_open SinkSamples.sample_sys (FileWriter 9) [str "site"]) as [s1 [self|e]] eqn:Eo.
  2: { exfalso. assert (H : match (Csv_open SinkSamples.sample_sys (FileWriter 9) [str "site"]).2 with inl _ => true | _ => false end = true) by (vm_compute; reflexivity).
    rewrite Eo in H. discriminate H. }
  destruct (csv_file_read SinkSamples.sample_sys 9 [str "site"] row_calls s1 self) as (s2 & self2 & rs & Ec & H).
  - done.
  - vm_compute. reflexivity.
  - repeat (apply Forall_cons; split); [split; [vm_compute; reflexivity|done]|by split..|split; [vm_compute; reflexivity|done]|by apply Forall_nil_2].
  - exact Eo.
  - exists s1, self, s2, self2, rs. split; [done|]. split; [exact Ec|]. intros s3 self3 Ef. exact (proj2 (H s3 self3 Ef)).
Defined.
End samples.
