(* ===== verification/Columns.v ===== *)
(** [rustflow_collect/src/sink/encoder/columns.rs], [arrow.rs] and
    [parquet.rs]: rows kept as columns until there are enough of them.

    Rows go to a writer in batches no longer than the limit, in the order they
    were given, and a batch the writer could not take is lost whole.  Arrays,
    batches and the writers of the two formats are other crates'. *)

From Stdlib Require Import ZArith Lia Strings.Byte.
From stdpp Require Import base tactics numbers list gmap fin_maps.
From S2P Require Import Prelude Std Crates Calendar CommonFlow Layout Storage Destination SinkConfig Encoder Ndjson Source RowEncoders.
#[local] Open Scope Z_scope.
#[local] Abbreviation length := List.length.

(** ** Types *)

(** [arrow_schema::DataType], of those there are. *)
Module DataType.
Inductive DataType := Utf8 | Timestamp | UInt8 | UInt16 | UInt32 | UInt64.
End DataType.
Export DataType(DataType).

#[export] Instance DataType_eq_dec : EqDecision DataType.
Proof. solve_decision. Defined.

Record Field := mkField { f_name : bytes; f_type : DataType; f_nullable : bool }.

(** [data_type!] *)
Definition data_type (kind : Kind) : DataType :=
  match kind with
  | Kind.FlowType => DataType.Utf8
  | Kind.Timestamp => DataType.Timestamp
  | Kind.U8 => DataType.UInt8
  | Kind.U16 => DataType.UInt16
  | Kind.U32 => DataType.UInt32
  | Kind.U64 => DataType.UInt64
  | Kind.Ip => DataType.Utf8
  | Kind.Mac => DataType.Utf8
  end.

(** [builder!], by the type of what a builder finishes to. *)
Definition builder_of (kind : Kind) : DataType :=
  match kind with
  | Kind.FlowType => DataType.Utf8
  | Kind.Timestamp => DataType.Timestamp
  | Kind.U8 => DataType.UInt8
  | Kind.U16 => DataType.UInt16
  | Kind.U32 => DataType.UInt32
  | Kind.U64 => DataType.UInt64
  | Kind.Ip => DataType.Utf8
  | Kind.Mac => DataType.Utf8
  end.

Inductive Cell := CellText (text : bytes) | CellNumber (n : Z).

(** What may be put in a column. *)
Definition cell_ok (type : DataType) (c : option Cell) : Prop :=
  match type, c with
  | _, None => True
  | DataType.Utf8, Some (CellText _) => True
  | DataType.Timestamp, Some (CellNumber n) => fits_i 64 n
  | DataType.UInt8, Some (CellNumber n) => fits_u 8 n
  | DataType.UInt16, Some (CellNumber n) => fits_u 16 n
  | DataType.UInt32, Some (CellNumber n) => fits_u 32 n
  | DataType.UInt64, Some (CellNumber n) => fits_u 64 n
  | _, _ => False
  end.

(** [arrow_array]: builders, the arrays they finish to, and batches. *)
Class Arrays := {
  Builder : Type;
  ArrayRef : Type;
  RecordBatch : Type;
  builder_new : DataType -> Builder;
  append_option : Builder -> option Cell -> Builder;
  builder_finish : Builder -> ArrayRef * Builder;
  try_new : list Field -> list ArrayRef -> IoResult RecordBatch;
  builder_type : Builder -> DataType;
  builder_cells : Builder -> list (option Cell);
  array_type : ArrayRef -> DataType;
  array_cells : ArrayRef -> list (option Cell);
  batch_columns : RecordBatch -> list ArrayRef;
  builder_new_law : forall type, builder_type (builder_new type) = type /\ builder_cells (builder_new type) = [];
  append_option_law : forall b c, cell_ok (builder_type b) c ->
    builder_type (append_option b c) = builder_type b /\ builder_cells (append_option b c) = builder_cells b ++ [c];
  builder_finish_law : forall b, let '(a, b') := builder_finish b in
    array_type a = builder_type b /\ array_cells a = builder_cells b /\
    builder_type b' = builder_type b /\ builder_cells b' = [];
  try_new_law : forall rows schema columns,
    Forall2 (fun field a => array_type a = field.(f_type) /\ length (array_cells a) = rows /\
      (field.(f_nullable) = false -> None ∉ array_cells a)) schema columns ->
    exists batch, try_new schema columns = inl batch /\ batch_columns batch = columns;
}.

Definition BATCH_ROWS : nat := 32 * 1024.

Section columns.
Context `{CR : Crates} `{MT : !MacText} `{AR : Arrays}.

(** [append!]: a value as it is put in its column. *)
Definition cell (v : FlowValue) : Cell :=
  match v with
  | OfType t => CellText (flow_type_text t)
  | OfNumber n => CellNumber n
  | OfIp ip => CellText (show_ip ip)
  | OfMac mac => CellText (mac_text mac)
  end.

Definition FlowColumns : Type := list Builder.

Definition FlowColumns_new : FlowColumns := (fun field => builder_new (builder_of field.1.2)) <$> flow_fields.

(** [FlowColumns::fields], nullable where a value may be missing. *)
Definition FlowColumns_fields : list Field :=
  (fun field => mkField field.1.1 (data_type field.1.2) (negb field.2)) <$> flow_fields.

(** [Iterator::zip], of builders and what to append to them. *)
Fixpoint append_each (builders : list Builder) (cells : list (option Cell)) : list Builder :=
  match builders, cells with
  | b :: builders, c :: cells => append_option b c :: append_each builders cells
  | builders, _ => builders
  end.

Definition flow_cells (flow : CommonFlow) : list (option Cell) := fmap (M := option) cell <$> flow_values flow.

Definition FlowColumns_append (self : FlowColumns) (flow : CommonFlow) : FlowColumns := append_each self (flow_cells flow).

(** What builders finish to, and the builders after. *)
Definition finish_each (builders : list Builder) : list ArrayRef * list Builder :=
  ((fun b => (builder_finish b).1) <$> builders, (fun b => (builder_finish b).2) <$> builders).

Record Columns := mkColumns { schema : list Field; flow : FlowColumns; enrichment : list Builder; rows : nat }.

Definition Columns_new (enriched_fields : list bytes) : Columns :=
  mkColumns (FlowColumns_fields ++ ((fun name => mkField name DataType.Utf8 true) <$> enriched_fields))
    FlowColumns_new ((fun _ => builder_new DataType.Utf8) <$> enriched_fields) 0.

Definition enriched_cells (enriched : Enriched) : list (option Cell) := fmap (M := option) CellText <$> enriched.

Definition Columns_append (self : Columns) (f : CommonFlow) (enriched : Enriched) : Columns :=
  mkColumns self.(schema) (FlowColumns_append self.(flow) f) (append_each self.(enrichment) (enriched_cells enriched))
    (self.(rows) + 1).

Definition Columns_take_batch (self : Columns) : Columns * IoResult (option RecordBatch) :=
  if bool_decide (self.(rows) = 0%nat) then (self, inl None)
  else
    let '(columns, flow) := finish_each self.(flow) in
    let '(more, enrichment) := finish_each self.(enrichment) in
    (mkColumns self.(schema) flow enrichment 0,
     match try_new self.(schema) (columns ++ more) with inl batch => inl (Some batch) | inr _ => inr OtherError end).

(** ** Batches *)

(** The rows of columns, and of a batch. *)
Definition row_cells (f : CommonFlow) (enriched : Enriched) : list (option Cell) := flow_cells f ++ enriched_cells enriched.

Definition columns_of (width : nat) (rs : list (list (option Cell))) : list (list (option Cell)) :=
  (fun j => (fun row => nth j row None) <$> rs) <$> seq 0 width.

Definition batch_holds (width : nat) (batch : RecordBatch) (rs : list (list (option Cell))) : Prop :=
  array_cells <$> batch_columns batch = columns_of width rs.

(** What a row of these fields is. *)
Definition row_typed (fields : list Field) (row : list (option Cell)) : Prop :=
  Forall2 (fun field c => cell_ok field.(f_type) c /\ (field.(f_nullable) = false -> c <> None)) fields row.

(** Columns that hold rows. *)
Definition columns_hold (fields : list bytes) (self : Columns) (rs : list (list (option Cell))) : Prop :=
  self.(schema) = (Columns_new fields).(schema) /\
  length self.(flow) = length flow_fields /\ length self.(enrichment) = length fields /\
  self.(rows) = length rs /\
  Forall2 (fun field b => builder_type b = field.(f_type)) self.(schema) (self.(flow) ++ self.(enrichment)) /\
  builder_cells <$> (self.(flow) ++ self.(enrichment)) = columns_of (length flow_fields + length fields) rs /\
  Forall (row_typed self.(schema)) rs.

Lemma builders_agree kind : builder_of kind = data_type kind.
Proof. by destruct kind. Qed.

Lemma columns_of_nil width : columns_of width [] = replicate width [].
Proof. unfold columns_of. cbn. by rewrite (const_fmap _ _ []), length_seq. Qed.

Lemma columns_of_snoc width rs row : length row = width ->
  columns_of width (rs ++ [row]) = zip_with (fun cs c => cs ++ [c]) (columns_of width rs) row.
Proof.
  intros <-. unfold columns_of. apply list_eq. intros j. rewrite list_lookup_fmap, lookup_zip_with, list_lookup_fmap.
  destruct (decide (j < length row)%nat) as [Hj|Hj].
  - rewrite lookup_seq_lt by done. destruct (lookup_lt_is_Some_2 row j Hj) as [c Hc]. rewrite Hc. cbn [fmap option_fmap option_map mbind option_bind].
    rewrite fmap_app. cbn [fmap list_fmap]. change (0 + j)%nat with j. by rewrite (nth_lookup_Some row j None c Hc).
  - rewrite !lookup_seq_ge by lia. done.
Qed.

Lemma append_each_app bs1 bs2 cs1 cs2 : length bs1 = length cs1 ->
  append_each (bs1 ++ bs2) (cs1 ++ cs2) = append_each bs1 cs1 ++ append_each bs2 cs2.
Proof. revert cs1. induction bs1 as [|b bs1 IH]; intros [|c cs1] H; try done. cbn in *. by rewrite IH by lia. Qed.

Lemma append_each_length bs cs : length (append_each bs cs) = length bs.
Proof. revert cs. induction bs as [|b bs IH]; intros [|c cs]; [done..|]. cbn. by rewrite IH. Qed.

Lemma append_each_spec fields bs row :
  Forall2 (fun field b => builder_type b = field.(f_type)) fields bs -> row_typed fields row ->
  Forall2 (fun field b => builder_type b = field.(f_type)) fields (append_each bs row) /\
  builder_cells <$> append_each bs row = zip_with (fun cs c => cs ++ [c]) (builder_cells <$> bs) row.
Proof.
  intros H. revert row. induction H as [|field b fields bs Hb _ IH]; intros row Hr; [by split|].
  apply Forall2_cons_inv_l in Hr as (c & row' & [Hc _] & Hr & ->). destruct (IH row' Hr) as [IH1 IH2]. cbn [append_each].
  rewrite <- Hb in Hc. destruct (append_option_law b c Hc) as [E1 E2]. split.
  - constructor; [by rewrite E1|done].
  - rewrite !fmap_cons. cbn [zip_with]. by rewrite E2, IH2.
Qed.

Lemma Columns_new_hold fields : columns_hold fields (Columns_new fields) [].
Proof.
  unfold columns_hold, Columns_new. cbn [schema flow enrichment rows]. split_and!; [done|done|by rewrite length_fmap|done| | |by apply Forall_nil_2].
  - apply Forall2_app.
    + unfold FlowColumns_fields, FlowColumns_new. apply Forall2_fmap, Forall_Forall2_diag, Forall_forall. intros field _.
      cbn [f_type]. by rewrite (proj1 (builder_new_law _)), builders_agree.
    + apply Forall2_fmap, Forall_Forall2_diag, Forall_forall. intros field _. apply builder_new_law.
  - rewrite columns_of_nil, fmap_app. unfold FlowColumns_new. rewrite <- !list_fmap_compose, replicate_add. f_equal.
    + change (length flow_fields) with 38%nat. cbn. by rewrite !(proj2 (builder_new_law _)).
    + rewrite <- (const_fmap (fun _ => []) fields []) by done. apply list_fmap_ext. intros i name _. apply builder_new_law.
Qed.

Lemma Columns_append_hold fields self rs f enriched :
  columns_hold fields self rs -> row_typed self.(schema) (row_cells f enriched) -> length enriched = length fields ->
  columns_hold fields (Columns_append self f enriched) (rs ++ [row_cells f enriched]).
Proof.
  intros (H1 & H2 & H3 & H4 & H5 & H6 & H7) Hr He. unfold columns_hold, Columns_append. cbn [schema flow enrichment rows].
  assert (Hf : length (flow_cells f) = length flow_fields) by (unfold flow_cells; by rewrite length_fmap).
  unfold FlowColumns_append. rewrite <- append_each_app by (by rewrite Hf).
  change (flow_cells f ++ enriched_cells enriched) with (row_cells f enriched).
  destruct (append_each_spec _ _ _ H5 Hr) as [K1 K2].
  split_and!; [done|by rewrite append_each_length|by rewrite append_each_length|rewrite length_app, H4; done|done| |apply Forall_app; split; [done|by apply Forall_singleton]].
  rewrite K2, H6, columns_of_snoc; [done|]. unfold row_cells, enriched_cells. by rewrite length_app, length_fmap, Hf, He.
Qed.

Lemma finish_each_spec bs :
  array_cells <$> (finish_each bs).1 = builder_cells <$> bs /\ array_type <$> (finish_each bs).1 = builder_type <$> bs /\
  builder_type <$> (finish_each bs).2 = builder_type <$> bs /\ builder_cells <$> (finish_each bs).2 = replicate (length bs) [].
Proof.
  unfold finish_each. cbn [fst snd]. induction bs as [|b bs (IH1 & IH2 & IH3 & IH4)]; [done|].
  pose proof (builder_finish_law b) as H. rewrite !fmap_cons. destruct (builder_finish b) as [a b']. cbn [fst snd]. destruct H as (-> & -> & -> & ->).
  cbn [length replicate]. by rewrite IH1, IH2, IH3, IH4.
Qed.

(** A batch takes all the rows. *)
Lemma Columns_take_batch_hold fields self rs :
  columns_hold fields self rs ->
  let '(self', r) := Columns_take_batch self in
  columns_hold fields self' [] /\
  match rs with
  | [] => r = inl None
  | _ => exists batch, r = inl (Some batch) /\ batch_holds (length flow_fields + length fields) batch rs
  end.
Proof.
  intros H. destruct (H) as (H1 & H2 & H3 & H4 & H5 & H6 & H7). unfold Columns_take_batch.
  destruct rs as [|row rs]; [rewrite bool_decide_eq_true_2 by done; by split|]. rewrite bool_decide_eq_false_2 by (rewrite H4; done).
  destruct (finish_each_spec self.(flow)) as (A1 & A2 & A3 & A4).
  destruct (finish_each_spec self.(enrichment)) as (B1 & B2 & B3 & B4).
  destruct (finish_each self.(flow)) as [columns flow'], (finish_each self.(enrichment)) as [more enrichment'].
  cbn [fst snd] in A1, A2, A3, A4, B1, B2, B3, B4. set (arrays := columns ++ more).
  assert (Hl : forall bs bs' : list Builder, builder_type <$> bs = builder_type <$> bs' -> length bs = length bs').
  { intros bs bs' E. by rewrite <- (length_fmap builder_type bs), E, length_fmap. }
  rewrite fmap_app in H6. split.
  { split_and!; cbn [schema flow enrichment rows]; [done|by rewrite (Hl _ _ A3)|by rewrite (Hl _ _ B3)|done| | |by apply Forall_nil_2].
    - apply (Forall2_fmap_r builder_type (fun field t => t = field.(f_type))).
      rewrite fmap_app, A3, B3, <- fmap_app. by apply Forall2_fmap_r.
    - by rewrite fmap_app, A4, B4, columns_of_nil, H2, H3, replicate_add. }
  assert (Hc : array_cells <$> arrays = columns_of (length flow_fields + length fields) (row :: rs))
    by (unfold arrays; by rewrite fmap_app, A1, B1).
  destruct (try_new_law (length (row :: rs)) self.(schema) arrays) as (batch & Eb & Hb).
  { assert (Ht : Forall2 (fun field a => array_type a = field.(f_type)) self.(schema) arrays).
    { apply (Forall2_fmap_r array_type (fun field t => t = field.(f_type))).
      unfold arrays. rewrite fmap_app, A2, B2, <- fmap_app. by apply Forall2_fmap_r. }
    apply Forall2_same_length_lookup. split; [by eapply Forall2_length|]. intros j field a Hj Ha.
    split; [by eapply Forall2_lookup_lr in Ht|].
    assert (Hcj : array_cells a = (fun row => nth j row None) <$> (row :: rs)).
    { assert (E : (array_cells <$> arrays) !! j = Some (array_cells a)) by (by rewrite list_lookup_fmap, Ha).
      rewrite Hc in E. unfold columns_of in E. rewrite list_lookup_fmap in E.
      apply fmap_Some in E as (k & Ek & ->). apply lookup_seq in Ek as [-> _]. done. }
    rewrite Hcj. split; [by rewrite length_fmap|]. intros Hnull Hin. apply list_elem_of_fmap in Hin as (row' & Hn & Hrow).
    rewrite Forall_forall in H7. specialize (H7 row' Hrow).
    destruct (Forall2_lookup_l _ _ _ _ _ H7 Hj) as (c & Ec & _ & Hne). apply (Hne Hnull).
    by rewrite (nth_lookup_Some row' j None c Ec) in Hn. }
  rewrite Eb. exists batch. split; [done|]. unfold batch_holds. by rewrite Hb.
Qed.

(** A row of a flow whose values fit. *)
Lemma row_cells_typed fields f enriched : flow_typed f -> length enriched = length fields ->
  row_typed (Columns_new fields).(schema) (row_cells f enriched).
Proof.
  intros Hf He. unfold row_typed, row_cells, Columns_new. cbn [schema]. apply Forall2_app.
  - unfold FlowColumns_fields, flow_cells. apply Forall2_fmap. eapply Forall2_impl; [exact Hf|].
    intros [ [name kind] always] [v|]; cbn; intros H; split; try done.
    + by destruct kind, v as [t|n|[a|a]|mac].
    + by destruct kind.
    + intros Hn. by rewrite H in Hn.
  - apply Forall2_fmap. apply Forall2_same_length_lookup. split; [done|]. intros j name [v|] _ _; done.
Qed.

End columns.

(** ** The writers of the formats *)

(** [arrow_ipc::writer::StreamWriter] and [parquet::arrow::ArrowWriter]: they
    take batches, in the order they are given, unless writing fails. *)
Class BatchWriter `{CR : Crates} `{ST : Storage} `{AR : Arrays} := {
  BWriter : Type;
  bw_try_new : Sys -> Writer -> list Field -> Sys * IoResult BWriter;
  bw_write : Sys -> BWriter -> RecordBatch -> Sys * BWriter * IoResult unit;
  bw_flush : Sys -> BWriter -> Sys * BWriter * IoResult unit;
  bw_finish : Sys -> BWriter -> Sys * BWriter * IoResult unit;
  taken : BWriter -> list RecordBatch;
  bw_new_law : forall s out schema w, (bw_try_new s out schema).2 = inl w -> taken w = [];
  bw_write_law : forall s w batch, let '(_, w', r) := bw_write s w batch in
    taken w' = taken w ++ (if r is inl _ then [batch] else []);
  bw_flush_law : forall s w, taken (bw_flush s w).1.2 = taken w;
  bw_finish_law : forall s w, taken (bw_finish s w).1.2 = taken w;
}.

Section encoders.
Context `{CR : Crates} `{ST : Storage} `{MT : !MacText} `{AR : Arrays} `{BW : !BatchWriter}.

(** What both formats do of the rows there are. *)
Definition write_columns (s : Sys) (writer : BWriter) (columns : Columns) : Sys * BWriter * Columns * IoResult unit :=
  match Columns_take_batch columns with
  | (columns, inr e) => (s, writer, columns, inr e)
  | (columns, inl None) => (s, writer, columns, inl tt)
  | (columns, inl (Some batch)) =>
      let '(s, writer, r) := bw_write s writer batch in
      (s, writer, columns, match r with inl _ => inl tt | inr _ => inr OtherError end)
  end.

(** [map_err(io::Error::other)] *)
Definition other (r : IoResult unit) : IoResult unit := match r with inl _ => inl tt | inr _ => inr OtherError end.

(** [Result::and] *)
Definition result_and (r1 r2 : IoResult unit) : IoResult unit := match r1 with inl _ => r2 | inr e => inr e end.

(** ** Arrow *)

Record ArrowIpc := mkArrow { ar_writer : BWriter; ar_columns : Columns; ar_finished : bool }.

Definition ArrowIpc_open (s : Sys) (out : Writer) (enriched_fields : list bytes) : Sys * IoResult ArrowIpc :=
  let columns := Columns_new enriched_fields in
  match bw_try_new s out columns.(schema) with
  | (s, inl writer) => (s, inl (mkArrow writer columns false))
  | (s, inr _) => (s, inr OtherError)
  end.

Definition write_batch (s : Sys) (self : ArrowIpc) : Sys * ArrowIpc * IoResult unit :=
  let '(s, writer, columns, r) := write_columns s self.(ar_writer) self.(ar_columns) in
  (s, mkArrow writer columns self.(ar_finished), r).

Definition end_stream (s : Sys) (self : ArrowIpc) : Sys * ArrowIpc * IoResult unit :=
  let self := mkArrow self.(ar_writer) self.(ar_columns) true in
  let '(s, self, written) := write_batch s self in
  let '(s, writer, ended) := bw_finish s self.(ar_writer) in
  (s, mkArrow writer self.(ar_columns) self.(ar_finished), result_and written (other ended)).

Definition ArrowIpc_drop (s : Sys) (self : ArrowIpc) : Sys :=
  if self.(ar_finished) then s else (end_stream s self).1.1.

Definition ArrowIpc_encode (s : Sys) (self : ArrowIpc) (f : CommonFlow) (enriched : Enriched) : Sys * ArrowIpc * IoResult unit :=
  let self := mkArrow self.(ar_writer) (Columns_append self.(ar_columns) f enriched) self.(ar_finished) in
  if (BATCH_ROWS <=? self.(ar_columns).(rows))%nat then write_batch s self else (s, self, inl tt).

Definition ArrowIpc_flush (s : Sys) (self : ArrowIpc) : Sys * ArrowIpc * IoResult unit :=
  match write_batch s self with
  | (s, self, inr e) => (s, self, inr e)
  | (s, self, inl _) =>
      let '(s, writer, r) := bw_flush s self.(ar_writer) in
      (s, mkArrow writer self.(ar_columns) self.(ar_finished), other r)
  end.

Definition ArrowIpc_finish := end_stream.

(** ** Parquet *)

Record Parquet := mkParquet { pq_writer : BWriter; pq_columns : Columns; pq_batch_rows : nat; pq_finished : bool }.

Definition open_with_batch_rows (s : Sys) (out : Writer) (enriched_fields : list bytes) (batch_rows : nat)
    : Sys * IoResult Parquet :=
  let columns := Columns_new enriched_fields in
  match bw_try_new s out columns.(schema) with
  | (s, inl writer) => (s, inl (mkParquet writer columns (batch_rows `max` 1) false))
  | (s, inr _) => (s, inr OtherError)
  end.

Definition Parquet_open (s : Sys) (out : Writer) (enriched_fields : list bytes) : Sys * IoResult Parquet :=
  open_with_batch_rows s out enriched_fields BATCH_ROWS.

Definition flush_batch (s : Sys) (self : Parquet) : Sys * Parquet * IoResult unit :=
  let '(s, writer, columns, r) := write_columns s self.(pq_writer) self.(pq_columns) in
  (s, mkParquet writer columns self.(pq_batch_rows) self.(pq_finished), r).

(** Of two errors the first one's kind is kept, and both texts. *)
Definition write_footer (s : Sys) (self : Parquet) : Sys * Parquet * IoResult unit :=
  let self := mkParquet self.(pq_writer) self.(pq_columns) self.(pq_batch_rows) true in
  let '(s, self, flushed) := flush_batch s self in
  let '(s, writer, closed) := bw_finish s self.(pq_writer) in
  (s, mkParquet writer self.(pq_columns) self.(pq_batch_rows) self.(pq_finished),
   match flushed, other closed with
   | inr flush, inr close => inr flush
   | flushed, closed => result_and flushed closed
   end).

Definition Parquet_drop (s : Sys) (self : Parquet) : Sys :=
  if self.(pq_finished) then s else (write_footer s self).1.1.

Definition Parquet_encode (s : Sys) (self : Parquet) (f : CommonFlow) (enriched : Enriched) : Sys * Parquet * IoResult unit :=
  let self := mkParquet self.(pq_writer) (Columns_append self.(pq_columns) f enriched) self.(pq_batch_rows) self.(pq_finished) in
  if (self.(pq_batch_rows) <=? self.(pq_columns).(rows))%nat then flush_batch s self else (s, self, inl tt).

Definition Parquet_flush (s : Sys) (self : Parquet) : Sys * Parquet * IoResult unit := (s, self, inl tt).

Definition Parquet_finish := write_footer.

(** ** Calls *)

Definition ArrowIpc_call (s : Sys) (self : ArrowIpc) (c : call) : Sys * ArrowIpc * IoResult unit :=
  match c with
  | CallEncode f enriched => ArrowIpc_encode s self f enriched
  | CallRaw _ => write_raw_provided s self
  | CallFlush => ArrowIpc_flush s self
  end.

Definition Parquet_call (s : Sys) (self : Parquet) (c : call) : Sys * Parquet * IoResult unit :=
  match c with
  | CallEncode f enriched => Parquet_encode s self f enriched
  | CallRaw _ => write_raw_provided s self
  | CallFlush => Parquet_flush s self
  end.

(** Calls one after another. *)
Fixpoint calls_of {E : Type} (one : Sys -> E -> call -> Sys * E * IoResult unit) (s : Sys) (self : E) (cs : list call)
    : Sys * E * list (IoResult unit) :=
  match cs with
  | [] => (s, self, [])
  | c :: cs =>
      let '(s, self, r) := one s self c in
      let '(s, self, rs) := calls_of one s self cs in (s, self, r :: rs)
  end.

Definition ArrowIpc_calls := calls_of ArrowIpc_call.
Definition Parquet_calls := calls_of Parquet_call.

(** ** What happens to rows *)

Abbreviation row := (list (option Cell)).

(** The row a call adds, and the error it ends with. *)
Definition row_added (c : call) : list row := match c with CallEncode f enriched => [row_cells f enriched] | _ => [] end.
Definition rows_added (cs : list call) : list row := concat (row_added <$> cs).

Definition encode_error (c : call) (r : IoResult unit) : list ErrorKind :=
  match c, r with CallEncode _ _, inr e => [e] | _, _ => [] end.
Definition encode_errors (cs : list call) (rs : list (IoResult unit)) : list ErrorKind := concat (zip_with encode_error cs rs).

(** Groups of rows that were given to a writer, with what came of them. *)
Definition groups_taken (handed : list (list row * IoResult unit)) : list (list row) :=
  omap (fun '(group, r) => if r is inl _ then Some group else None) handed.

Definition group_errors (handed : list (list row * IoResult unit)) : list ErrorKind :=
  omap (fun '(_, r) => if r is inr e then Some e else None) handed.

(** The group of the rows that remain, if any. *)
Definition last_group (pending : list row) (r : IoResult unit) : list (list row * IoResult unit) :=
  match pending with [] => [] | _ => [(pending, r)] end.

Definition call_typed (fields : list bytes) (c : call) : Prop :=
  match c with CallEncode f enriched => flow_typed f /\ length enriched = length fields | _ => True end.

Definition row_width (fields : list bytes) : nat := length flow_fields + length fields.

Section rows.
Context (fields : list bytes).


(** The rows that were added went to the writer in these groups, but for those
    the columns hold. *)
Record batched (writer : BWriter) (columns : Columns) (added : list row) (handed : list (list row * IoResult unit)) (pending : list row)
    : Prop := {
  batched_hold : columns_hold fields columns pending;
  batched_added : added = concat handed.*1 ++ pending;
  batched_taken : Forall2 (batch_holds (row_width fields)) (taken writer) (groups_taken handed);
}.

Lemma batched_append writer columns added handed pending f enriched :
  batched writer columns added handed pending -> flow_typed f -> length enriched = length fields ->
  batched writer (Columns_append columns f enriched) (added ++ [row_cells f enriched]) handed (pending ++ [row_cells f enriched]).
Proof.
  intros [H1 H2 H3] Hf He. split; [|by rewrite H2, app_assoc|done]. apply Columns_append_hold; [done| |done].
  rewrite (proj1 H1). by apply row_cells_typed.
Qed.

Lemma batched_write s writer columns added handed pending :
  batched writer columns added handed pending ->
  let '(s', writer', columns', r) := write_columns s writer columns in
  batched writer' columns' added (handed ++ last_group pending r) [] /\ (pending = [] -> r = inl tt).
Proof.
  intros [H1 H2 H3]. pose proof (Columns_take_batch_hold fields columns pending H1) as H. unfold write_columns.
  destruct (Columns_take_batch columns) as [columns' r]. destruct H as [Hn Hr]. destruct pending as [|row pending].
  - subst r. split; [|done]. cbn [last_group]. rewrite app_nil_r. by split.
  - destruct Hr as (batch & -> & Hb). pose proof (bw_write_law s writer batch) as Hw.
    destruct (bw_write s writer batch) as [[s' writer'] r]. cbn [last_group]. split; [|done]. split; [done| |].
    + rewrite H2, fmap_app, concat_app. cbn. by rewrite !app_nil_r.
    + rewrite Hw. unfold groups_taken. rewrite omap_app. destruct r as [ [] |e]; cbn [omap list_omap]; [|by rewrite !app_nil_r].
      apply Forall2_app; [done|]. by constructor.
Qed.

Lemma batched_start s out s' writer :
  bw_try_new s out (Columns_new fields).(schema) = (s', inl writer) -> batched writer (Columns_new fields) [] [] [].
Proof.
  intros E. split; [apply Columns_new_hold|done|]. rewrite (bw_new_law s out (Columns_new fields).(schema)); [constructor|]. by rewrite E.
Qed.

Lemma batched_writer writer writer' columns added handed pending :
  batched writer columns added handed pending -> taken writer' = taken writer -> batched writer' columns added handed pending.
Proof. intros [H1 H2 H3] E. split; [done..|]. by rewrite E. Qed.

Lemma batched_rows writer columns added handed pending :
  batched writer columns added handed pending -> columns.(rows) = length pending.
Proof. intros [H _ _]. apply H. Qed.

(** What a call of a Parquet encoder does to them. *)
Definition parquet_state (n : nat) (self : Parquet) added handed pending : Prop :=
  batched self.(pq_writer) self.(pq_columns) added handed pending /\ self.(pq_batch_rows) = n /\
  (length pending < n)%nat /\ Forall (fun h => length h.1 = n) handed.

Lemma Parquet_call_state n s self c added handed pending :
  parquet_state n self added handed pending -> call_typed fields c ->
  let '(s', self', r) := Parquet_call s self c in
  exists more pending', parquet_state n self' (added ++ row_added c) (handed ++ more) pending' /\
    group_errors more = encode_error c r.
Proof.
  intros (Hb & Hn & Hp & Hh) Hc. destruct c as [f enriched|raw|]; cbn [Parquet_call row_added].
  2, 3: exists [], pending; rewrite !app_nil_r; done.
  destruct Hc as [Hf He]. unfold Parquet_encode. cbn [pq_batch_rows pq_columns].
  pose proof (batched_append _ _ _ _ _ f enriched Hb Hf He) as Ha. rewrite Hn, (batched_rows _ _ _ _ _ Ha).
  set (pending' := pending ++ [row_cells f enriched]) in *.
  assert (Hl : length pending' = Datatypes.S (length pending)) by (unfold pending'; rewrite length_app; cbn; lia).
  destruct (Nat.leb_spec n (length pending')) as [Hfull|Hroom].
  - unfold flush_batch. cbn [pq_writer pq_columns pq_batch_rows pq_finished].
    pose proof (batched_write s _ _ _ _ _ Ha) as Hw. destruct (write_columns _ _ _) as [[[s' writer'] columns'] r].
    destruct Hw as [Hw _]. exists (last_group pending' r), []. split.
    + split; [done|]. split; [done|]. split; [cbn; lia|]. apply Forall_app. split; [done|].
      destruct pending'; cbn [last_group]; [apply Forall_nil_2|]. apply Forall_singleton. cbn [fst]. lia.
    + destruct pending' as [|x l]; [done|]. by destruct r.
  - exists [], pending'. rewrite app_nil_r. split; [|done]. by split_and!.
Qed.

Lemma Parquet_calls_state n cs : forall s self added handed pending,
  parquet_state n self added handed pending -> Forall (call_typed fields) cs ->
  let '(s', self', rs) := Parquet_calls s self cs in
  exists more pending', parquet_state n self' (added ++ rows_added cs) (handed ++ more) pending' /\
    group_errors more = encode_errors cs rs.
Proof.
  induction cs as [|c cs IH]; intros s self added handed pending H Hcs; cbn [Parquet_calls calls_of].
  { exists [], pending. by rewrite !app_nil_r. }
  apply Forall_cons in Hcs as [Hc Hcs]. pose proof (Parquet_call_state n s self c added handed pending H Hc) as Hs.
  unfold Parquet_calls in *. cbn [calls_of]. destruct (Parquet_call s self c) as [[s1 self1] r]. destruct Hs as (m1 & p1 & H1 & E1).
  specialize (IH s1 self1 _ _ _ H1 Hcs). destruct (calls_of Parquet_call s1 self1 cs) as [[s2 self2] rs].
  destruct IH as (m2 & p2 & H2 & E2). exists (m1 ++ m2), p2. unfold rows_added in *. cbn [fmap list_fmap concat].
  rewrite !app_assoc. split; [by rewrite <- !app_assoc in H2 |- *|].
  unfold group_errors, encode_errors in *. by rewrite omap_app, E1, E2.
Qed.

(** What a call of an Arrow encoder does to them. *)
Definition arrow_state (self : ArrowIpc) added handed pending : Prop :=
  batched self.(ar_writer) self.(ar_columns) added handed pending /\
  (length pending < BATCH_ROWS)%nat /\ Forall (fun h => 1 <= length h.1 <= BATCH_ROWS)%nat handed.

Lemma arrow_write_state s self added handed pending :
  batched self.(ar_writer) self.(ar_columns) added handed pending ->
  (length pending <= BATCH_ROWS)%nat -> Forall (fun h => 1 <= length h.1 <= BATCH_ROWS)%nat handed ->
  let '(s', self', r) := write_batch s self in
  arrow_state self' added (handed ++ last_group pending r) [] /\ (pending = [] -> r = inl tt).
Proof.
  intros Hb Hp Hh. unfold write_batch. pose proof (batched_write s _ _ _ _ _ Hb) as Hw.
  destruct (write_columns _ _ _) as [[[s' writer'] columns'] r]. destruct Hw as [Hw Hr]. split; [|done].
  split; [done|]. split; [apply Nat.lt_0_succ|]. apply Forall_app. split; [done|].
  destruct pending; cbn [last_group]; [apply Forall_nil_2|]. apply Forall_singleton. cbn [fst length] in *. lia.
Qed.

Lemma ArrowIpc_call_state s self c added handed pending :
  arrow_state self added handed pending -> call_typed fields c ->
  let '(s', self', r) := ArrowIpc_call s self c in
  exists more pending', arrow_state self' (added ++ row_added c) (handed ++ more) pending' /\
    (forall r', r = inl r' -> group_errors more = []) /\ (c = CallFlush -> pending' = []).
Proof.
  intros (Hb & Hp & Hh) Hc. destruct c as [f enriched|raw|]; cbn [ArrowIpc_call row_added].
  - destruct Hc as [Hf He]. unfold ArrowIpc_encode. cbn [ar_columns].
    pose proof (batched_append _ _ _ _ _ f enriched Hb Hf He) as Ha. rewrite (batched_rows _ _ _ _ _ Ha).
    set (pending' := pending ++ [row_cells f enriched]) in *.
    assert (Hl : length pending' = Datatypes.S (length pending)) by (unfold pending'; rewrite length_app; cbn; lia).
    destruct (Nat.leb_spec BATCH_ROWS (length pending')) as [Hfull|Hroom].
    + pose proof (arrow_write_state s (mkArrow self.(ar_writer) (Columns_append self.(ar_columns) f enriched) self.(ar_finished))
        _ _ _ Ha ltac:(lia) Hh) as Hw.
      destruct (write_batch _ _) as [[s' self'] r]. destruct Hw as [Hw _]. exists (last_group pending' r), [].
      split; [done|]. split; [|done]. intros r' ->. by destruct pending'.
    + exists [], pending'. rewrite app_nil_r. split; [by split|]. by split.
  - exists [], pending. rewrite !app_nil_r. by split_and!.
  - unfold ArrowIpc_flush. pose proof (arrow_write_state s self _ _ _ Hb ltac:(lia) Hh) as Hw.
    destruct (write_batch s self) as [[s' self'] r]. destruct Hw as [Hw _]. rewrite app_nil_r. destruct r as [u|e].
    + destruct Hw as (Hw1 & Hw2 & Hw3). pose proof (bw_flush_law s' self'.(ar_writer)) as Hl.
      destruct (bw_flush s' self'.(ar_writer)) as [[s'' w''] r]. exists (last_group pending (inl u)), []. split; [|split].
      * split; [|done]. by eapply batched_writer.
      * intros r' _. by destruct pending.
      * done.
    + exists (last_group pending (inr e)), []. by split.
Qed.

Definition all_ok (rs : list (IoResult unit)) : Prop := Forall (fun r => r = inl tt) rs.

Lemma ArrowIpc_calls_state cs : forall s self added handed pending,
  arrow_state self added handed pending -> Forall (call_typed fields) cs ->
  let '(s', self', rs) := ArrowIpc_calls s self cs in
  exists more pending', arrow_state self' (added ++ rows_added cs) (handed ++ more) pending' /\
    (all_ok rs -> group_errors more = []) /\ (last cs = Some CallFlush -> pending' = []).
Proof.
  induction cs as [|c cs IH]; intros s self added handed pending H Hcs; unfold ArrowIpc_calls; cbn [calls_of].
  { exists [], pending. by rewrite !app_nil_r. }
  apply Forall_cons in Hcs as [Hc Hcs]. pose proof (ArrowIpc_call_state s self c added handed pending H Hc) as Hs.
  destruct (ArrowIpc_call s self c) as [[s1 self1] r]. destruct Hs as (m1 & p1 & H1 & E1 & L1).
  specialize (IH s1 self1 _ _ _ H1 Hcs). unfold ArrowIpc_calls in IH. destruct (calls_of ArrowIpc_call s1 self1 cs) as [[s2 self2] rs] eqn:Ecs.
  destruct IH as (m2 & p2 & H2 & E2 & L2). exists (m1 ++ m2), p2. unfold rows_added in *. cbn [fmap list_fmap concat].
  split; [by rewrite <- !app_assoc in H2|]. split.
  - intros [-> Hrs]%Forall_cons. unfold group_errors in *. by rewrite omap_app, (E1 tt eq_refl), E2.
  - destruct cs as [|c' cs]; [|by apply L2]. cbn [last]. intros [= ->]. cbn [calls_of] in Ecs. injection Ecs as <- <- <-.
    specialize (L1 eq_refl). subst p1. apply nil_length_inv. by rewrite <- (batched_rows _ _ _ _ _ (proj1 H2)), (batched_rows _ _ _ _ _ (proj1 H1)).
Qed.
(** The last write of an encoder. *)
Lemma finish_state (writer : BWriter) (columns : Columns) s added handed pending :
  batched writer columns added handed pending ->
  let '(s', writer', columns', written) := write_columns s writer columns in
  let '(s'', writer'', ended) := bw_finish s' writer' in
  batched writer'' columns' added (handed ++ last_group pending written) [] /\ (pending = [] -> written = inl tt).
Proof.
  intros Hb. pose proof (batched_write s _ _ _ _ _ Hb) as Hw. destruct (write_columns _ _ _) as [[[s' writer'] columns'] written].
  destruct Hw as [Hw Hr]. pose proof (bw_finish_law s' writer') as Hl. destruct (bw_finish s' writer') as [[s'' writer''] ended].
  split; [|done]. by eapply batched_writer.
Qed.

(** C23: Rows given to a Parquet encoder go to the writer in groups of the number
    asked for, in order; a call fails when its group was not taken, which is
    lost whole; and what remains is one smaller group when the file is
    finished. *)
Theorem parquet_rows s out n s0 self cs s1 self1 rs s2 self2 r :
  open_with_batch_rows s out fields n = (s0, inl self) -> Forall (call_typed fields) cs ->
  Parquet_calls s0 self cs = (s1, self1, rs) -> Parquet_finish s1 self1 = (s2, self2, r) ->
  exists handed pending written,
    rows_added cs = concat handed.*1 ++ pending /\
    Forall (fun h => length h.1 = n `max` 1)%nat handed /\ (length pending < n `max` 1)%nat /\
    group_errors handed = encode_errors cs rs /\ (r = inl tt -> written = inl tt) /\
    Forall2 (batch_holds (row_width fields)) (taken self2.(pq_writer)) (groups_taken (handed ++ last_group pending written)).
Proof.
  intros Eo Hcs Ec Ef. unfold open_with_batch_rows in Eo. destruct (bw_try_new _ _ _) as [s' [writer|e]] eqn:En; [|done].
  injection Eo as <- <-.
  pose proof (Parquet_calls_state (n `max` 1) cs s' (mkParquet writer (Columns_new fields) (n `max` 1) false) [] [] []) as H.
  rewrite Ec in H. destruct H as (handed & pending & (Hb & _ & Hp & Hh) & He); [|done|].
  { split; [by eapply batched_start|]. split; [done|]. split; [cbn; lia|by apply Forall_nil_2]. }
  pose proof (finish_state _ _ s1 _ _ _ Hb) as Hf. unfold Parquet_finish, write_footer, flush_batch in Ef.
  cbn [pq_writer pq_columns pq_batch_rows pq_finished] in Ef.
  destruct (write_columns _ _ _) as [[[s3 writer'] columns'] written] eqn:Ew.
  cbn [pq_writer pq_columns pq_batch_rows pq_finished] in Ef.
  destruct (bw_finish s3 writer') as [[s4 writer''] ended] eqn:Ee. injection Ef as <- <- Er. destruct Hf as [Hf _].
  exists handed, pending, written. split; [exact (batched_added _ _ _ _ _ Hb)|]. split; [done|]. split; [done|]. split; [done|]. split.
  - intros ->. destruct written as [ [] |e]; [done|]. by destruct ended.
  - exact (batched_taken _ _ _ _ _ Hf).
Qed.

(** Rows given to an Arrow encoder go to the writer in batches of one row at
    least and [BATCH_ROWS] at most, in order; a flush leaves none behind; and
    when no call failed the stream that was finished has them all. *)
Theorem arrow_rows s out s0 self cs s1 self1 rs s2 self2 r :
  ArrowIpc_open s out fields = (s0, inl self) -> Forall (call_typed fields) cs ->
  ArrowIpc_calls s0 self cs = (s1, self1, rs) -> ArrowIpc_finish s1 self1 = (s2, self2, r) ->
  (last cs = Some CallFlush -> self1.(ar_columns).(rows) = 0%nat) /\
  exists handed,
    rows_added cs = concat handed.*1 /\ Forall (fun h => 1 <= length h.1 <= BATCH_ROWS)%nat handed /\
    Forall2 (batch_holds (row_width fields)) (taken self2.(ar_writer)) (groups_taken handed) /\
    (all_ok rs -> r = inl tt -> group_errors handed = [] /\ concat (groups_taken handed) = rows_added cs).
Proof.
  intros Eo Hcs Ec Ef. unfold ArrowIpc_open in Eo. destruct (bw_try_new _ _ _) as [s' [writer|e]] eqn:En; [|done].
  injection Eo as <- <-.
  pose proof (ArrowIpc_calls_state cs s' (mkArrow writer (Columns_new fields) false) [] [] []) as H.
  rewrite Ec in H. destruct H as (handed & pending & (Hb & Hp & Hh) & He & Hl); [|done|].
  { split; [by eapply batched_start|]. split; [apply Nat.lt_0_succ|by apply Forall_nil_2]. }
  split. { intros Hlast. rewrite (batched_rows _ _ _ _ _ Hb). by rewrite Hl. }
  pose proof (finish_state _ _ s1 _ _ _ Hb) as Hf. unfold ArrowIpc_finish, end_stream, write_batch in Ef.
  cbn [ar_writer ar_columns ar_finished] in Ef.
  destruct (write_columns _ _ _) as [[[s3 writer'] columns'] written] eqn:Ew. cbn [ar_writer ar_columns ar_finished] in Ef.
  destruct (bw_finish s3 writer') as [[s4 writer''] ended] eqn:Ee. injection Ef as <- <- Er. destruct Hf as [Hf _].
  exists (handed ++ last_group pending written). pose proof (batched_added _ _ _ _ _ Hf) as Ha. rewrite app_nil_r in Ha.
  split; [done|]. split; [|split].
  - apply Forall_app. split; [done|]. destruct pending; cbn [last_group]; [apply Forall_nil_2|].
    apply Forall_singleton. cbn [fst length] in *. lia.
  - exact (batched_taken _ _ _ _ _ Hf).
  - intros Hok ->. assert (E : group_errors (handed ++ last_group pending written) = []).
    { unfold group_errors in *. cbn [app] in He. rewrite omap_app, He by done. destruct written as [u|e]; [by destruct pending|done]. }
    split; [done|]. cbn [app] in Ha. rewrite Ha. clear -E. unfold groups_taken, group_errors in *.
    induction (handed ++ last_group pending written) as [|[group [u|e] ] l IH]; [done| |done].
    cbn [omap list_omap] in *. rewrite fmap_cons. cbn [concat fst]. by rewrite IH.
Qed.
End rows.
End encoders.

(** ** Samples *)

#[export] Instance Cell_eq_dec : EqDecision Cell.
Proof. solve_decision. Defined.

Module ArraysStd.
(** Builders and arrays alike are a type and the cells. *)
Definition Cells : Type := DataType * list (option Cell).

Definition fits_field (count : nat) (field : Field) (a : Cells) : Prop :=
  a.1 = field.(f_type) /\ length a.2 = count /\ (field.(f_nullable) = false -> None ∉ a.2).

#[export] Instance fits_field_dec count field a : Decision (fits_field count field a).
Proof. unfold fits_field. apply _. Defined.

Definition batch (schema : list Field) (columns : list Cells) : IoResult (list Cells) :=
  let count := match columns with a :: _ => length a.2 | [] => 0%nat end in
  if bool_decide (Forall2 (fits_field count) schema columns) then inl columns else inr OtherError.

Lemma batch_fits count schema columns : Forall2 (fits_field count) schema columns -> batch schema columns = inl columns.
Proof.
  intros H. unfold batch. rewrite bool_decide_eq_true_2; [done|]. destruct H as [|field a schema columns Ha H]; [done|].
  rewrite (proj1 (proj2 Ha)). by constructor.
Qed.
End ArraysStd.

Definition arrays_std : Arrays.
Proof.
  refine {|
    Builder := ArraysStd.Cells; ArrayRef := ArraysStd.Cells; RecordBatch := list ArraysStd.Cells;
    builder_new type := (type, []); append_option b c := (b.1, b.2 ++ [c]); builder_finish b := (b, (b.1, []));
    try_new := ArraysStd.batch; builder_type := fst; builder_cells := snd; array_type := fst; array_cells := snd;
    batch_columns batch := batch;
  |}; try done.
  intros count schema columns H. exists columns. split; [|done]. by eapply ArraysStd.batch_fits.
Defined.

(** A writer that keeps what it takes, and that does not take some. *)
Definition batch_writer_std `{CR : Crates} `{ST : Storage} (fails : nat -> bool) : @BatchWriter CR ST arrays_std.
Proof.
  refine (@Build_BatchWriter CR ST arrays_std (nat * list (list ArraysStd.Cells))
    (fun s _ _ => (s, inl (0%nat, [])))
    (fun s w batch => if fails w.1 then (s, (Datatypes.S w.1, w.2), inr OtherError) else (s, (Datatypes.S w.1, w.2 ++ [batch]), inl tt))
    (fun s w => (s, w, inl tt)) (fun s w => (s, w, inl tt)) snd _ _ _ _); try done.
  - by intros s out schema w [= <-].
  - intros s w batch. destruct (fails w.1); cbn; by rewrite ?app_nil_r.
Defined.

From S2P Require SinkSamples.
#[local] Open Scope Z_scope.

Section samples.
#[local] Existing Instance SinkSamples.sample_crates.
#[local] Existing Instance SinkSamples.sample_calendar.
#[local] Existing Instance SinkSamples.sample_storage.
#[local] Existing Instance RowEncoders.sample_mac_text.
#[local] Existing Instance arrays_std.

(** The second batch is lost. *)
#[local] Instance sample_batch_writer : BatchWriter := batch_writer_std (Nat.eqb 1).

Definition column_calls : list call :=
  [CallEncode row_flow [Some (str "lan")]; CallEncode default_flow [None]; CallFlush; CallEncode row_flow [None];
   CallEncode default_flow [Some (str "wan")]; CallEncode row_flow [None]].

Lemma column_calls_typed : Forall (call_typed [str "site"]) column_calls.
Proof.
  assert (Hf : Forall flow_typed [row_flow; default_flow]) by (apply (bool_decide_unpack _); vm_compute; exact I).
  apply Forall_cons in Hf as [H1 H2]. apply Forall_cons in H2 as [H2 _]. unfold column_calls.
  repeat (apply Forall_cons; split); first [apply Forall_nil_2 | done | by split].
Qed.

Lemma parquet_rows_witness : exists handed pending written rs,
  rows_added column_calls = concat handed.*1 ++ pending /\ Forall (fun h => length h.1 = 2)%nat handed /\
  length pending = 1%nat /\ group_errors handed = encode_errors column_calls rs /\ encode_errors column_calls rs = [OtherError] /\
  length (groups_taken (handed ++ last_group pending written)) = 2%nat.
Proof.
  destruct (open_with_batch_rows SinkSamples.sample_sys (FileWriter 9) [str "site"] 2) as [s0 [self|e]] eqn:Eo; [|discriminate Eo].
  destruct (Parquet_calls s0 self column_calls) as [[s1 self1] rs] eqn:Ec.
  destruct (Parquet_finish s1 self1) as [[s2 self2] r] eqn:Ef.
  destruct (parquet_rows [str "site"] SinkSamples.sample_sys (FileWriter 9) 2 s0 self column_calls s1 self1 rs s2 self2 r)
    as (handed & pending & written & H1 & H2 & H3 & H4 & H5 & H6); [exact Eo|exact column_calls_typed|exact Ec|exact Ef|].
  exists handed, pending, written, rs.
  assert (Hl : length (rows_added column_calls) = 5%nat) by reflexivity.
  assert (Hn : length (concat handed.*1) = (2 * length handed)%nat).
  { clear -H2. induction H2 as [|h l Hh _ IH]; [done|]. cbn [length fmap list_fmap concat]. rewrite length_app, Hh, IH. cbn. lia. }
  rewrite H1, length_app, Hn in Hl. cbn in H3. split; [exact H1|]. split; [exact H2|]. split; [lia|]. split; [exact H4|].
  assert (Hr : encode_errors column_calls rs = [OtherError]).
  { assert (E : match open_with_batch_rows SinkSamples.sample_sys (FileWriter 9) [str "site"] 2 with
      | (s0, inl self) => let '(_, _, rs) := Parquet_calls s0 self column_calls in rs | _ => [] end
      = [inl tt; inl tt; inl tt; inl tt; inr OtherError; inl tt]) by (vm_compute; reflexivity).
    rewrite Eo, Ec in E. by rewrite E. }
  split; [exact Hr|].
  assert (E : match open_with_batch_rows SinkSamples.sample_sys (FileWriter 9) [str "site"] 2 with
    | (s0, inl self) => let '(s1, self1, _) := Parquet_calls s0 self column_calls in
        let '(_, self2, _) := Parquet_finish s1 self1 in length (taken self2.(pq_writer))
    | _ => 0%nat end = 2%nat) by (vm_compute; reflexivity).
  rewrite Eo, Ec, Ef in E. rewrite <- E. symmetry. by eapply Forall2_length.
Defined.
End samples.
