(* ===== verification/Command.v ===== *)
(** [rustflow_collect/src/enrich/source/command.rs] and [table/reload.rs]:
    tables that commands print, and when they are loaded again.

    What was parsed of a command's output counts only when the command was
    successful, all of its output was read, and the time was not up: then it is
    what parsing the whole output gives.  Otherwise the command and everything
    it started is killed, unless it has ended.  Processes, the clock and the
    file watcher are the system's. *)

From Stdlib Require Import ZArith Lia Strings.Byte.
From stdpp Require Import base tactics numbers list.
From S2P Require Import Prelude Std Text Crates Calendar CommonFlow Layout Storage EnrichTables EnrichConfig EnrichEngine.
From S2P Require SinkConfig.
#[local] Open Scope Z_scope.
#[local] Abbreviation length := List.length.

(** ** The system *)

Definition POLL : Z := 20 * 1000 * 1000.
Definition CHUNK_SIZE : Z := 64 * 1024.
Definition QUEUED_CHUNKS : Z := 16.

(** [std::io::ErrorKind], of those that matter. *)
Inductive ReadError := Cancelled | TimedOut | Interrupted | OtherFailure.

Abbreviation ReadResult A := (A + ReadError)%type.

(** What a look at the process gives. *)
Inductive Waited := Running | Exited (success : bool) | WaitFailed.

(** What is met at a point of time: the clock, the flag, whether the channel
    has something or is closed by now, and the process. *)
Record System := mkSystem { now : Z; cancelled : bool; arrived : bool; waited : Waited }.

(** ** The limit *)

Record Limit := mkLimit { l_timeout : Z; l_deadline : Z }.

Definition Limit_new (timeout : Z) (at_ : System) : Limit := mkLimit timeout (at_.(now) + timeout).

Definition check (self : Limit) (at_ : System) : ReadResult unit :=
  if at_.(cancelled) then inr Cancelled
  else if self.(l_deadline) <=? at_.(now) then inr TimedOut
  else inl tt.

(** ** Output *)

(** What a read of the child's output gives its thread. *)
Inductive StdoutRead := StdoutOctets (octets : bytes) | StdoutFailed (e : ReadError).

(** The thread of [Output::new]: what it sends, as long as there is a receiver.
    A read of no octets is the end. *)
Fixpoint reader_thread (reads : list StdoutRead) : list (ReadResult bytes) :=
  match reads with
  | [] => []
  | StdoutOctets [] :: _ => []
  | StdoutOctets octets :: reads => inl octets :: reader_thread reads
  | StdoutFailed Interrupted :: reads => reader_thread reads
  | StdoutFailed e :: _ => [inr e]
  end.

(** The channel is what there is still to receive. *)
Record Output := mkOutput { channel : list (ReadResult bytes); chunk : bytes; ended : bool }.

Definition Output_new (reads : list StdoutRead) : Output := mkOutput (reader_thread reads) [] false.

Section command.
Context (met : nat -> System).

(** [Output::read], from a point of time to another. *)
Fixpoint output_read (fuel : nat) (limit : Limit) (t : nat) (self : Output) (len : N) : option (nat * Output * ReadResult bytes) :=
  let octets := take (N.to_nat len) self.(chunk) in
  if (0 <? zlen octets) || (len =? 0)%N || self.(ended) then
    Some (t, mkOutput self.(channel) (drop (N.to_nat len) self.(chunk)) self.(ended), inl octets)
  else
    match fuel with
    | O => None
    | Datatypes.S fuel =>
        match check limit (met t) with
        | inr e => Some (Datatypes.S t, self, inr e)
        | inl _ =>
            if (met t).(arrived) then
              match self.(channel) with
              | inl octets :: channel => output_read fuel limit (Datatypes.S t) (mkOutput channel octets self.(ended)) len
              | inr e :: channel => Some (Datatypes.S t, mkOutput channel self.(chunk) self.(ended), inr e)
              | [] => output_read fuel limit (Datatypes.S t) (mkOutput [] self.(chunk) true) len
              end
            else output_read fuel limit (Datatypes.S t) self len
        end
    end.

(** What [parse] does with its reader: it asks for so many octets at most, and
    goes on with what it gets. *)
Inductive Parse (T : Type) := Parsed (r : EnrichResult T) | Asks (len : N) (next : ReadResult bytes -> Parse T).
Arguments Parsed {T} r.
Arguments Asks {T} len next.

Fixpoint run_parse {T} (fuel : nat) (limit : Limit) (t : nat) (self : Output) (parse : Parse T)
    : option (nat * Output * EnrichResult T) :=
  match parse with
  | Parsed r => Some (t, self, r)
  | Asks len next =>
      '(t, self, r) ← output_read fuel limit t self len;
      run_parse fuel limit t self (next r)
  end.

(** [io::copy] to a sink: so many octets at a time. *)
Definition COPY_SIZE : N := 8 * 1024.

Fixpoint copy_rest (rounds fuel : nat) (limit : Limit) (t : nat) (self : Output) : option (nat * Output * ReadResult unit) :=
  match rounds with
  | O => None
  | Datatypes.S rounds =>
      '(t, self, r) ← output_read fuel limit t self COPY_SIZE;
      match r with
      | inl [] => Some (t, self, inl tt)
      | inl _ => copy_rest rounds fuel limit t self
      | inr Interrupted => copy_rest rounds fuel limit t self
      | inr e => Some (t, self, inr e)
      end
  end.

(** [Process::wait]: the process with whether it has exited. *)
Fixpoint process_wait (fuel : nat) (limit : Limit) (t : nat) : option (nat * bool * ReadResult bool) :=
  match fuel with
  | O => None
  | Datatypes.S fuel =>
      match (met t).(waited) with
      | WaitFailed => Some (Datatypes.S t, false, inr OtherFailure)
      | Exited success => Some (Datatypes.S t, true, inl success)
      | Running =>
          match check limit (met t) with
          | inr e => Some (Datatypes.S t, false, inr e)
          | inl _ => process_wait fuel limit (Datatypes.S t)
          end
      end
  end.

(** [command::read] with a process that was started: what it gives, and whether
    the process is killed when it is dropped. *)
Definition command_run {T} (rounds fuel : nat) (timeout : Z) (reads : list StdoutRead) (parse : Parse T) : option (EnrichResult T * bool) :=
  let limit := Limit_new timeout (met 0%nat) in
  '(t, self, parsed) ← run_parse fuel limit 1%nat (Output_new reads) parse;
  '(t, self, copied) ← copy_rest rounds fuel limit t self;
  match copied with
  | inr e => Some (inr IoError, true)
  | inl _ =>
      '(t, exited, status) ← process_wait fuel limit t;
      Some (match status with
            | inr _ => inr IoError
            | inl true => parsed
            | inl false => inr CommandError
            end, negb exited)
  end.

(** ** What is read *)

(** Octets still to be read, when none of the reads to come fails. *)
Definition octets_left (self : Output) (octets : bytes) : Prop :=
  exists chunks, self.(channel) = inl <$> chunks /\ octets = self.(chunk) ++ concat chunks /\ (self.(ended) = true -> chunks = []).

(** Reading the whole of some octets gives a result: every read gets some of
    what is left, and none only at the end. *)
Inductive parses {T} : Parse T -> bytes -> EnrichResult T -> Prop :=
  | parses_done r rest : parses (Parsed r) rest r
  | parses_asks len next got rest r :
      (length got <= N.to_nat len)%nat -> (got = [] -> len = 0%N \/ rest = []) -> parses (next (inl got)) rest r ->
      parses (Asks len next) (got ++ rest) r.

(** A parser that fails when a read does. *)
Inductive honest {T} : Parse T -> Prop :=
  | honest_done r : honest (Parsed r)
  | honest_asks len next :
      (forall got, honest (next (inl got))) -> (forall e, exists x, next (inr e) = Parsed (inr x)) -> honest (Asks len next).

(** Nothing comes after the end, and no failure is one that is tried again. *)
Definition output_ok (self : Output) : Prop :=
  (self.(ended) = true -> self.(channel) = []) /\ inr Interrupted ∉ self.(channel).

Lemma check_error limit at_ e : check limit at_ = inr e -> e <> Interrupted.
Proof. unfold check. destruct (cancelled at_); [by intros [= <-]|]. by destruct (_ <=? _); intros [= <-]. Qed.

Lemma output_read_spec fuel limit len : forall t self, output_ok self ->
  match output_read fuel limit t self len with
  | None => True
  | Some (t', self', inl got) =>
      output_ok self' /\ (length got <= N.to_nat len)%nat /\
      (got = [] -> len = 0%N \/ (self'.(ended) = true /\ self'.(chunk) = [])) /\
      (forall rest, octets_left self' rest -> octets_left self (got ++ rest))
  | Some (t', self', inr e) => output_ok self' /\ e <> Interrupted
  end.
Proof.
  induction fuel as [|fuel IH]; intros t self Hok; cbn [output_read];
    destruct ((0 <? zlen (take (N.to_nat len) self.(chunk))) || (len =? 0)%N || self.(ended)) eqn:E; try done.
  1, 2: split; [done|]; split; [rewrite length_take; lia|]; split;
    [|intros rest (chunks & H1 & H2 & H3); exists chunks; split; [done|]; split; [|done]; cbn in H2;
      by rewrite H2, app_assoc, take_drop].
  1, 2: cbn [ended chunk]; intros Hg; rewrite Hg in E; cbn in E; apply orb_true_iff in E as [E|E]; [left; by apply N.eqb_eq|];
    destruct (decide (len = 0%N)) as [|Hl]; [by left|right; split; [done|]];
    destruct (self.(chunk)) as [|b l]; [by rewrite drop_nil|]; destruct (N.to_nat len) eqn:En; [lia|done].
  apply orb_false_iff in E as [E He]. apply orb_false_iff in E as [E El]. apply N.eqb_neq in El.
  assert (Hchunk : self.(chunk) = []).
  { destruct (self.(chunk)) as [|b l]; [done|]. destruct (N.to_nat len) eqn:En; [lia|]. cbn [take] in E.
    rewrite zlen_cons in E. pose proof (zlen_nonneg (take n l)). lia. }
  destruct (check limit (met t)) as [u|e] eqn:Ec; [|split; [done|by eapply check_error]].
  destruct Hok as [Hend Hch]. destruct (arrived (met t)); [|by apply IH].
  destruct (self.(channel)) as [|[octets|e] rest] eqn:Ech.
  - specialize (IH (Datatypes.S t) (mkOutput [] self.(chunk) true)). destruct (output_read _ _ _ _ _) as [[[t' self'] [got|e]]|]; [|apply IH|done].
    2: { split; [done|]. apply not_elem_of_nil. }
    destruct IH as (I1 & I2 & I3 & I4); [split; [done|apply not_elem_of_nil]|]. split; [done|]. split; [done|]. split; [done|].
    intros rest Hr. destruct (I4 rest Hr) as (chunks & H1 & H2 & H3). exists []. rewrite Ech. split; [done|].
    split; [|done]. rewrite H2. cbn [chunk]. f_equal. by rewrite H3.
  - apply not_elem_of_cons in Hch as [_ Hch]. specialize (IH (Datatypes.S t) (mkOutput rest octets self.(ended))).
    destruct (output_read _ _ _ _ _) as [[[t' self'] [got|e]]|]; [|apply IH; split; [by rewrite He|done]|done].
    destruct IH as (I1 & I2 & I3 & I4); [split; [cbn; by rewrite He|done]|]. split; [done|]. split; [done|]. split; [done|].
    intros rest' Hr. destruct (I4 rest' Hr) as (chunks & H1 & H2 & H3). cbn [channel chunk ended] in *.
    exists (octets :: chunks). rewrite Ech, H1, H2, Hchunk. split; [done|]. split; [done|]. by rewrite He.
  - apply not_elem_of_cons in Hch as [Hne Hch]. split; [split; [by rewrite He|done]|]. intros ->. by apply Hne.
Qed.

Lemma octets_left_end self octets : self.(ended) = true -> self.(chunk) = [] -> octets_left self octets -> octets = [].
Proof. intros He Hc (chunks & _ & -> & H). rewrite Hc, H by done. done. Qed.

Lemma run_parse_spec {T} (parse : Parse T) fuel limit : honest parse -> forall t self t' self' r, output_ok self ->
  run_parse fuel limit t self parse = Some (t', self', r) ->
  output_ok self' /\ forall x, r = inl x -> forall rest, octets_left self' rest ->
    exists octets, octets_left self octets /\ parses parse octets (inl x).
Proof.
  induction 1 as [r0|len next Hn IH He]; intros t self t' self' r Hok E; cbn [run_parse] in E.
  - injection E as <- <- <-. split; [done|]. intros x -> rest Hr. exists rest. split; [done|constructor].
  - pose proof (output_read_spec fuel limit len t self Hok) as H.
    destruct (output_read fuel limit t self len) as [[[t1 self1] [got|e]]|]; [| |done]; cbn [mbind option_bind] in E.
    + destruct H as (H1 & H2 & H3 & H4). destruct (IH got _ _ _ _ _ H1 E) as [K1 K2]. split; [done|].
      intros x -> rest Hr. destruct (K2 x eq_refl rest Hr) as (octets & L1 & L2). exists (got ++ octets). split; [by apply H4|].
      constructor; [done| |done]. intros Hg. destruct (H3 Hg) as [H3'|[Hend Hc]]; [by left|right]. by eapply octets_left_end.
    + destruct (He e) as [x Ex]. rewrite Ex in E. injection E as <- <- <-. by split; [apply H|].
Qed.

Lemma copy_rest_spec rounds fuel limit : forall t self t' self', output_ok self ->
  copy_rest rounds fuel limit t self = Some (t', self', inl tt) -> exists octets, octets_left self octets.
Proof.
  induction rounds as [|rounds IH]; intros t self t' self' Hok E; [done|]. cbn [copy_rest] in E.
  pose proof (output_read_spec fuel limit COPY_SIZE t self Hok) as H.
  destruct (output_read fuel limit t self COPY_SIZE) as [[[t1 self1] [got|e]]|]; [| |done]; cbn [mbind option_bind] in E.
  - destruct H as (H1 & H2 & H3 & H4). destruct got as [|b got].
    + destruct (H3 eq_refl) as [|[Hend Hc]]; [done|]. exists ([] ++ []). apply H4. exists []. split; [|by rewrite Hc].
      by apply H1.
    + destruct (IH _ _ _ _ H1 E) as [octets Ho]. eexists. by apply H4.
  - destruct H as [_ H]. by destruct e.
Qed.

(** ** Time *)

(** How much there is still to be read. *)
Definition item_size (r : ReadResult bytes) : nat := match r with inl octets => Datatypes.S (length octets) | inr _ => 1 end.
Definition amount (self : Output) : nat := length self.(chunk) + list_sum (item_size <$> self.(channel)).

Lemma output_read_amount fuel limit len : forall t self,
  match output_read fuel limit t self len with
  | Some (_, self', inl got) => (amount self' + length got <= amount self)%nat
  | Some (_, self', inr _) => (amount self' <= amount self)%nat
  | None => True
  end.
Proof.
  induction fuel as [|fuel IH]; intros t self; cbn [output_read]; destruct (_ || _ || _); try done.
  1, 2: unfold amount; cbn [chunk channel]; rewrite length_drop, length_take; lia.
  destruct (check limit (met t)); [|done]. destruct (arrived (met t)); [|apply IH].
  assert (Ha : amount self = (length self.(chunk) + list_sum (item_size <$> self.(channel)))%nat) by done.
  destruct self.(channel) as [|[octets|e] rest]; rewrite ?fmap_cons in Ha; cbn [list_sum foldr item_size fmap list_fmap] in Ha.
  - specialize (IH (Datatypes.S t) (mkOutput [] self.(chunk) true)).
    assert (Hb : amount (mkOutput [] self.(chunk) true) = (length self.(chunk) + 0)%nat) by done.
    destruct (output_read _ _ _ _ _) as [[[t' self'] [got|e]]|]; try done; lia.
  - specialize (IH (Datatypes.S t) (mkOutput rest octets self.(ended))). change (foldr Nat.add 0%nat) with list_sum in Ha.
    assert (Hb : amount (mkOutput rest octets self.(ended)) = (length octets + list_sum (item_size <$> rest))%nat) by done.
    destruct (output_read _ _ _ _ _) as [[[t' self'] [got|e]]|]; try done; lia.
  - change (foldr Nat.add 0%nat) with list_sum in Ha.
    assert (Hb : amount (mkOutput rest self.(chunk) self.(ended)) = (length self.(chunk) + list_sum (item_size <$> rest))%nat) by done.
    lia.
Qed.

Section ends.
Context (limit : Limit) (N : nat).
Context (HN : forall t, (N <= t)%nat -> exists e, check limit (met t) = inr e).

Lemma output_read_ends len fuel : forall t self, (0 < fuel)%nat -> (N < fuel + t)%nat -> is_Some (output_read fuel limit t self len).
Proof.
  induction fuel as [|fuel IH]; intros t self Hf Ht; [lia|]. cbn [output_read]. destruct (_ || _ || _); [by eexists|].
  destruct (check limit (met t)) as [u|e] eqn:Ec; [|by eexists].
  assert (t < N)%nat by (destruct (decide (N <= t)%nat) as [Hle|]; [destruct (HN t Hle) as [e He]; by rewrite Ec in He|lia]).
  destruct (arrived (met t)); [|apply IH; lia]. destruct self.(channel) as [|[octets|e] rest]; [apply IH; lia|apply IH; lia|by eexists].
Qed.

Lemma run_parse_ends {T} (parse : Parse T) fuel : (N < fuel)%nat -> forall t self, is_Some (run_parse fuel limit t self parse).
Proof.
  intros Hf. induction parse as [r|len next IH]; intros t self; [by eexists|]. cbn [run_parse].
  destruct (output_read_ends len fuel t self ltac:(lia) ltac:(lia)) as [[[t1 self1] r] ->]. apply IH.
Qed.

Lemma copy_rest_ends fuel rounds : (N < fuel)%nat -> forall t self, output_ok self -> (amount self < rounds)%nat ->
  is_Some (copy_rest rounds fuel limit t self).
Proof.
  intros Hf. induction rounds as [|rounds IH]; intros t self Hok Hr; [lia|]. cbn [copy_rest].
  destruct (output_read_ends COPY_SIZE fuel t self ltac:(lia) ltac:(lia)) as [[[t1 self1] r] E].
  pose proof (output_read_spec fuel limit COPY_SIZE t self Hok) as H1. pose proof (output_read_amount fuel limit COPY_SIZE t self) as H2.
  rewrite E in *. cbn [mbind option_bind]. destruct r as [[|b got]|e]; [by eexists| |].
  - apply IH; [apply H1|]. cbn [length] in H2. lia.
  - destruct e; try by eexists. by destruct H1.
Qed.

Lemma process_wait_ends fuel : forall t, (0 < fuel)%nat -> (N < fuel + t)%nat -> is_Some (process_wait fuel limit t).
Proof.
  induction fuel as [|fuel IH]; intros t Hf Ht; [lia|]. cbn [process_wait]. destruct (waited (met t)); try by eexists.
  destruct (check limit (met t)) as [u|e] eqn:Ec; [|by eexists].
  assert (t < N)%nat by (destruct (decide (N <= t)%nat) as [Hle|]; [destruct (HN t Hle) as [e He]; by rewrite Ec in He|lia]).
  apply IH; lia.
Qed.
End ends.

Lemma reader_thread_ok reads : output_ok (Output_new reads).
Proof.
  split; [done|]. cbn [channel Output_new]. induction reads as [|[[|b octets]|e] reads IH]; cbn [reader_thread];
    try apply not_elem_of_nil.
  - apply not_elem_of_cons. by split.
  - destruct e; try done; apply not_elem_of_cons; (split; [done|apply not_elem_of_nil]).
Qed.

(** *** Within the limit *)

(** Every look at the limit from one point of time to another found it kept. *)
Definition watched (limit : Limit) (t t' : nat) : Prop := forall u, (t <= u < t')%nat -> check limit (met u) = inl tt.

Lemma watched_trans limit t t1 t2 : watched limit t t1 -> watched limit t1 t2 -> watched limit t t2.
Proof. intros H1 H2 u Hu. destruct (decide (u < t1)%nat); [apply H1|apply H2]; lia. Qed.

Lemma watched_next limit t t' u : check limit (met t) = inl u -> watched limit (Datatypes.S t) t' -> watched limit t t'.
Proof. intros E H v Hv. destruct u. destruct (decide (v = t)) as [->|]; [done|apply H; lia]. Qed.

(** Why a read fails: the limit, or a read of the pipe. *)
Definition read_failed (limit : Limit) (from : list (ReadResult bytes)) : Prop :=
  (exists t e, check limit (met t) = inr e) \/ exists e, inr e ∈ from.

Lemma read_failed_suffix limit from from' : from' `suffix_of` from -> read_failed limit from' -> read_failed limit from.
Proof. intros [pre ->] [H|[e H]]; [by left|right]. exists e. apply elem_of_app. by right. Qed.

Lemma output_read_watched fuel limit len : forall t self,
  match output_read fuel limit t self len with
  | Some (t', self', inl _) => (t <= t')%nat /\ watched limit t t' /\ self'.(channel) `suffix_of` self.(channel)
  | Some (_, self', inr _) => self'.(channel) `suffix_of` self.(channel) /\ read_failed limit self.(channel)
  | None => True
  end.
Proof.
  assert (H0 : forall t : nat, watched limit t t) by (intros t u Hu; lia).
  induction fuel as [|fuel IH]; intros t self; cbn [output_read]; destruct (_ || _ || _); try done.
  destruct (check limit (met t)) as [u|e] eqn:Ec; [|split; [done|left; by exists t, e]].
  assert (Hn : forall self1, self1.(channel) `suffix_of` self.(channel) ->
    match output_read fuel limit (Datatypes.S t) self1 len with
    | Some (t', self', inl _) => (t <= t')%nat /\ watched limit t t' /\ self'.(channel) `suffix_of` self.(channel)
    | Some (_, self', inr _) => self'.(channel) `suffix_of` self.(channel) /\ read_failed limit self.(channel)
    | None => True
    end).
  { intros self1 Hs. specialize (IH (Datatypes.S t) self1). destruct (output_read _ _ _ _ _) as [[[t' self'] [got|e]]|]; [| |done].
    - destruct IH as (I1 & I2 & I3). split; [lia|]. split; [by eapply watched_next|by etrans].
    - destruct IH as [I1 I2]. split; [by etrans|by eapply read_failed_suffix]. }
  destruct (arrived (met t)); [|by apply Hn]. destruct self.(channel) as [|[octets|e] rest] eqn:Ech.
  - by apply Hn.
  - apply Hn. by apply suffix_cons_r.
  - split; [by apply suffix_cons_r|]. right. exists e. apply elem_of_cons. by left.
Qed.

Lemma run_parse_watched {T} (parse : Parse T) fuel limit : honest parse -> forall t self t' self' r,
  run_parse fuel limit t self parse = Some (t', self', r) ->
  self'.(channel) `suffix_of` self.(channel) /\ forall x, r = inl x -> (t <= t')%nat /\ watched limit t t'.
Proof.
  induction 1 as [r0|len next Hn IH He]; intros t self t' self' r E; cbn [run_parse] in E.
  - injection E as <- <- <-. split; [done|]. intros x _. split; [done|]. intros u Hu. lia.
  - pose proof (output_read_watched fuel limit len t self) as H.
    destruct (output_read fuel limit t self len) as [[[t1 self1] [got|e]]|]; [| |done]; cbn [mbind option_bind] in E.
    + destruct H as (H1 & H2 & H3). destruct (IH got _ _ _ _ _ E) as [K1 K2]. split; [by etrans|].
      intros x Ex. destruct (K2 x Ex). split; [lia|by eapply watched_trans].
    + destruct (He e) as [x Ex]. rewrite Ex in E. injection E as <- <- <-. split; [apply H|done].
Qed.

Lemma copy_rest_watched rounds fuel limit : forall t self t' self' r, output_ok self ->
  copy_rest rounds fuel limit t self = Some (t', self', r) ->
  match r with inl _ => (t <= t')%nat /\ watched limit t t' | inr _ => read_failed limit self.(channel) end.
Proof.
  induction rounds as [|rounds IH]; intros t self t' self' r Hok E; [done|]. cbn [copy_rest] in E.
  pose proof (output_read_spec fuel limit COPY_SIZE t self Hok) as Hs. pose proof (output_read_watched fuel limit COPY_SIZE t self) as H.
  destruct (output_read fuel limit t self COPY_SIZE) as [[[t1 self1] [got|e]]|]; [| |done]; cbn [mbind option_bind] in E.
  - destruct H as (H1 & H2 & H3). destruct got as [|b got]; [by injection E as <- <- <-|].
    specialize (IH _ _ _ _ _ (proj1 Hs) E). destruct r; [|by eapply read_failed_suffix].
    destruct IH. split; [lia|by eapply watched_trans].
  - destruct Hs as [_ Hs], H as [_ H]. destruct e; try (injection E as <- <- <-; exact H). done.
Qed.

Lemma process_wait_spec fuel limit : forall t t' exited status, process_wait fuel limit t = Some (t', exited, status) ->
  match status with
  | inl success => exited = true /\ exists t1, (met t1).(waited) = Exited success /\ watched limit t t1
  | inr _ => exited = false /\ ((exists u e, check limit (met u) = inr e) \/ exists u, (met u).(waited) = WaitFailed)
  end.
Proof.
  induction fuel as [|fuel IH]; intros t t' exited status E; [done|]. cbn [process_wait] in E.
  destruct (waited (met t)) eqn:Ew.
  - destruct (check limit (met t)) as [u|e] eqn:Ec; [|injection E as <- <- <-; split; [done|left; by exists t, e]].
    specialize (IH _ _ _ _ E). destruct status; [|done]. destruct IH as (H1 & t1 & H2 & H3). split; [done|].
    exists t1. split; [done|]. by eapply watched_next.
  - injection E as <- <- <-. split; [done|]. exists t. split; [done|]. intros u Hu. lia.
  - injection E as <- <- <-. split; [done|]. right. by exists t.
Qed.

(** What a look at the limit says. *)
Lemma check_failed timeout at_ e t : check (Limit_new timeout at_) (met t) = inr e ->
  (met t).(cancelled) = true \/ at_.(now) + timeout <= (met t).(now).
Proof. unfold check. destruct (cancelled (met t)); [by left|]. cbn. destruct (Z.leb_spec (at_.(now) + timeout) (met t).(now)); [by right|done]. Qed.

Lemma check_kept timeout at_ t : check (Limit_new timeout at_) (met t) = inl tt ->
  (met t).(cancelled) = false /\ (met t).(now) < at_.(now) + timeout.
Proof. unfold check. destruct (cancelled (met t)); [done|]. cbn. by destruct (Z.leb_spec (at_.(now) + timeout) (met t).(now)). Qed.

(** C26: Loading from a command comes to an end once the clock is past its limit.
    It succeeds only when the command exited successfully, every look at the
    limit before it was found to have done so was within the limit and found
    nothing cancelled, and its whole output was read; it then gives what parsing
    the whole output gives.  A command that failed gives its own error whatever
    was parsed.  A command that has not exited is killed, with an error, which
    only comes of the time being up, of a cancellation, or of a failure to read
    its output or to wait for it. *)
Theorem command_output {T} timeout reads (parse : Parse T) :
  let start := (met 0%nat).(now) in
  (exists N, forall t, (N <= t)%nat -> start + timeout <= (met t).(now)) -> honest parse ->
  exists rounds fuel r killed, command_run rounds fuel timeout reads parse = Some (r, killed) /\
    (killed = true -> r = inr IoError /\
      ((exists t, (met t).(cancelled) = true \/ start + timeout <= (met t).(now)) \/
       (exists t, (met t).(waited) = WaitFailed) \/ exists e, inr e ∈ reader_thread reads)) /\
    (killed = false -> exists t success, (met t).(waited) = Exited success /\ (success = false -> r = inr CommandError)) /\
    forall x, r = inl x -> killed = false /\
      (exists t, (met t).(waited) = Exited true /\
        forall u, (1 <= u < t)%nat -> (met u).(cancelled) = false /\ (met u).(now) < start + timeout) /\
      exists chunks, reader_thread reads = inl <$> chunks /\ parses parse (concat chunks) (inl x).
Proof.
  intros start [N HN] Hparse. set (limit := Limit_new timeout (met 0%nat)).
  assert (Hcheck : forall t, (N <= t)%nat -> exists e, check limit (met t) = inr e).
  { intros t Ht. unfold check. destruct (cancelled (met t)); [by eexists|]. rewrite (proj2 (Z.leb_le _ _)) by by apply HN. by eexists. }
  assert (exists fuel, (N < fuel)%nat) as [fuel Hfuel] by (exists (Datatypes.S N); lia).
  destruct (run_parse_ends limit N Hcheck parse fuel Hfuel 1%nat (Output_new reads)) as [[[t1 self1] parsed] E1].
  destruct (run_parse_spec parse fuel limit Hparse _ _ _ _ _ (reader_thread_ok reads) E1) as [Hok1 Hspec].
  destruct (run_parse_watched parse fuel limit Hparse _ _ _ _ _ E1) as [Hsuf Hw1].
  assert (exists rounds, (amount self1 < rounds)%nat) as [rounds Hrounds] by (exists (Datatypes.S (amount self1)); lia).
  destruct (copy_rest_ends limit N Hcheck fuel rounds Hfuel t1 self1 Hok1 Hrounds) as [[[t2 self2] copied] E2].
  pose proof (copy_rest_watched _ _ _ _ _ _ _ _ Hok1 E2) as Hw2.
  exists rounds, fuel. unfold command_run. fold limit. rewrite E1. cbn [mbind option_bind]. rewrite E2. cbn [mbind option_bind].
  destruct copied as [ [] |e].
  2: { do 2 eexists. split; [done|]. split_and!; [|done|done]. intros _. split; [done|].
       destruct (read_failed_suffix _ _ _ Hsuf Hw2) as [(t & e' & Hc)|He]; [left|by right; right].
       exists t. by apply check_failed in Hc. }
  destruct (process_wait_ends limit N Hcheck fuel t2 ltac:(lia) ltac:(lia)) as [[[t3 exited] status] E3].
  rewrite E3. cbn [mbind option_bind]. do 2 eexists. split; [done|]. pose proof (process_wait_spec _ _ _ _ _ _ E3) as Hw.
  destruct status as [success|e].
  2: { destruct Hw as [-> Hw]. split_and!; [|done|done]. intros _. split; [done|].
       destruct Hw as [(t & e' & Hc)|Hf]; [left|by right; left]. exists t. by apply check_failed in Hc. }
  destruct Hw as (-> & t & Ht & Hw3). split; [done|]. split.
  { intros _. exists t, success. split; [done|]. by intros ->. }
  intros x Hx. destruct success; [|done]. split; [done|]. destruct (Hw1 x Hx) as [Hle Hw1'], Hw2 as [Hle2 Hw2]. split.
  { exists t. split; [done|]. intros u Hu. apply check_kept.
    refine (watched_trans _ _ _ _ Hw1' (watched_trans _ _ _ _ Hw2 Hw3) u Hu). }
  destruct (copy_rest_spec _ _ _ _ _ _ _ Hok1 E2) as [rest Hr].
  destruct (Hspec x Hx rest Hr) as (octets & (chunks & Hc & -> & _) & Hp). by exists chunks.
Qed.
End command.
Arguments Parsed {T} r.
Arguments Asks {T} len next.

(** ** Reloading *)

Inductive ReloadEvent := Reload | WatcherError (message : bytes).

(** What a wait for the next event gives: one, none in time, or that every
    sender is gone. *)
Inductive Event := Heard (event : ReloadEvent) | NothingHeard | Disconnected.

(** [reload::next]; only a wait with a limit hears nothing. *)
Definition next (policy : ReloadPolicy) (r : Event) : option ReloadEvent :=
  match policy, r with
  | _, Heard event => Some event
  | ReloadPolicy.Interval _, NothingHeard => Some Reload
  | _, _ => None
  end.

(** [notify_debouncer_full]'s events. *)
Record WatchEvent := mkWatchEvent { need_rescan : bool; kind_changes : bool; paths : list Path }.

(** The handler of [reload::watcher], for the file it watches. *)
Definition on_watch (target : Path) (result : list WatchEvent + list bytes) : option ReloadEvent :=
  match result with
  | inl events =>
      if existsb (fun event => event.(need_rescan) ||
           (event.(kind_changes) && existsb (fun path => bool_decide (path = target)) event.(paths))) events
      then Some Reload else None
  | inr errors => Some (WatcherError (SinkConfig.join (str "; ") errors))
  end.

(** The callback of [Table::new], with what opening the source would give and
    the time, and the failures of the watcher counted so far. *)
Definition on_event (table : Table * Z) (event : ReloadEvent) (opened : EnrichResult Source) (now : Z) : Table * Z :=
  match event with
  | Reload => ((reload table.1 opened now).1, table.2)
  | WatcherError _ => (table.1, table.2 + 1)
  end.

(** The worker of [ReloadDriver::start], which is there unless the policy is
    never to reload. *)
Fixpoint worker (policy : ReloadPolicy) (table : Table * Z) (events : list (Event * EnrichResult Source * Z)) : Table * Z :=
  match events with
  | [] => table
  | (r, opened, now) :: events =>
      match next policy r with
      | Some event => worker policy (on_event table event opened now) events
      | None => table
      end
  end.

Definition start (policy : ReloadPolicy) (table : Table * Z) (events : list (Event * EnrichResult Source * Z)) : Table * Z :=
  match policy with ReloadPolicy.Never => table | _ => worker policy table events end.

(** The sources that were opened for reloads, as far as the worker came. *)
Fixpoint reloads (policy : ReloadPolicy) (events : list (Event * EnrichResult Source * Z)) : list (EnrichResult Source) :=
  match events with
  | [] => []
  | (r, opened, _) :: events =>
      match next policy r with
      | Some Reload => opened :: reloads policy events
      | Some (WatcherError _) => reloads policy events
      | None => []
      end
  end.

(** A table has the source of the last reload that succeeded, if any, and every
    reload is counted as a load or as a failure. *)
Theorem table_reloaded policy table failures events :
  policy <> ReloadPolicy.Never ->
  let '(table', _) := start policy (table, failures) events in
  table'.(t_source) = default table.(t_source) (last (omap (fun r => if r is inl source then Some source else None) (reloads policy events))) /\
  table'.(t_metrics).(loads_total) + table'.(t_metrics).(reload_failures_total)
  = table.(t_metrics).(loads_total) + table.(t_metrics).(reload_failures_total) + zlen (reloads policy events).
Proof.
  intros Hp. assert (E : start policy (table, failures) events = worker policy (table, failures) events) by by destruct policy.
  rewrite E. clear E Hp. revert table failures. induction events as [|[[r opened] now] events IH]; intros table failures.
  { cbn [worker reloads]. split; [done|]. unfold zlen. cbn. lia. }
  cbn [worker reloads]. destruct (next policy r) as [[|message]|]; [| |split; [done|unfold zlen; cbn; lia]].
  - cbn [on_event fst snd]. specialize (IH (reload table opened now).1 failures).
    destruct (worker _ _ _) as [table' failures']. destruct IH as [-> ->]. rewrite zlen_cons.
    destruct opened as [source|e]; cbn [reload fst t_source t_metrics loads_total reload_failures_total record_load omap list_omap].
    + split; [|lia]. rewrite last_cons. by destruct (last _).
    + split; [done|lia].
  - cbn [on_event fst snd]. exact (IH table (failures + 1)).
Qed.

(** ** Samples *)

Section samples.
(** The command has something every other time, and has exited by the tenth. *)
Definition sample_met (t : nat) : System :=
  mkSystem (Z.of_nat t) false (Nat.even t) (if (t <? 10)%nat then Running else Exited true).

Definition sample_parse : Parse bytes :=
  Asks 4 (fun r => match r with
    | inl first => Asks 4 (fun r => match r with inl second => Parsed (inl (first ++ second)) | inr _ => Parsed (inr IoError) end)
    | inr _ => Parsed (inr IoError)
    end).

Definition sample_reads : list StdoutRead :=
  [StdoutOctets (str "a,b"); StdoutFailed Interrupted; StdoutOctets (str "c,d,e"); StdoutOctets []].

Lemma command_output_witness : exists rounds fuel r killed,
  command_run sample_met rounds fuel 60 sample_reads sample_parse = Some (r, killed) /\
  (forall x, r = inl x -> killed = false /\ (exists t, (sample_met t).(waited) = Exited true /\
      forall u, (1 <= u < t)%nat -> (sample_met u).(cancelled) = false /\ (sample_met u).(now) < 0 + 60) /\
    exists chunks, reader_thread sample_reads = inl <$> chunks /\ parses sample_parse (concat chunks) (inl x)) /\
  command_run sample_met 10 60 60 sample_reads sample_parse = Some (inl (str "a,bc,d,"), false).
Proof.
  destruct (command_output sample_met 60 sample_reads sample_parse) as (rounds & fuel & r & killed & H1 & _ & _ & H2).
  - exists 60%nat. intros t Ht. cbn. lia.
  - constructor; [|by eexists]. intros first. constructor; [|by eexists]. intros second. constructor.
  - exists rounds, fuel, r, killed. split; [exact H1|]. split; [exact H2|]. vm_compute. reflexivity.
Defined.

(** The clock of a command that goes on past its limit between two looks at
    it: it runs at 59 and has exited at 61. *)
Definition late_met (t : nat) : System :=
  match t with
  | O => mkSystem 0 false true Running
  | _ => if (t <? 5)%nat then mkSystem 59 false true Running else mkSystem 61 false true (Exited true)
  end.

(** A command is asked whether it has exited before the limit is looked at, so
    one that exits within [POLL] after its limit still counts. *)
Lemma late_exit_counts :
  command_run late_met 1 10 60 [] (Parsed (inl tt)) = Some (inl tt, false) /\
  forall t, (late_met t).(waited) = Exited true -> (Limit_new 60 (late_met 0)).(l_deadline) < (late_met t).(now).
Proof.
  split; [reflexivity|]. intros t. unfold late_met. destruct t as [|t]; [done|]. destruct (_ <? _)%nat; [done|]. cbn. lia.
Qed.
End samples.
